(* ===== verification/_CoqProject ===== *)
-Q . S2P
Prelude.v
Bytes.v
BoundedString.v
BTree.v
Epochs.v
Values.v
Types.v
Supertypes.v
RollbackStore.v
NestedStore.v
C32.v
BitcoinTx.v
STXBalance.v
Database.v
STXLedger.v
AssetMap.v
Serialization.v
VmErrors.v
TypedValues.v
Expressions.v
Deserialization.v
ValueRoundTrip.v
DecodedValues.v
Sanitization.v
ContractData.v
Contexts.v
StoredData.v
StoredKeys.v
ContractStorage.v
Arithmetic.v
Natives.v
BitcoinNatives.v
PostConditions.v
CostTables.v
Costs.v
Contracts.v
BlockInfo.v
CryptoNatives.v
CostFunctions.v
Allowances.v
TypeSyntax.v
GlobalContext.v
Regimes.v
ExecutionState.v
StoreRegimes.v
SpecialForms.v
EvalRegimes.v
UserFunctions.v
ValueForms.v
DatabaseForms.v
AssetForms.v
PostConditionForms.v
Definitions.v
Interpreter.v
FormRegimes.v
Evaluation.v
Transactions.v
DeploymentRegimes.v
PoxEvents.v
PoxLocking.v
PoxLedger.v
SampleMachine.v
Executions.v
Atomicity.v
PoxHandlers.v
