(* ===== verification/Prelude.v ===== *)
(** * Verification of the Stacks node's execution layer

    A development about the part of stacks-core (Rust) that decides what a
    transaction does to the chain state: the Clarity data and error types, the
    nested key-value store, the STX ledger with its PoX locks, the record of
    moved assets and its post-conditions, execution costs, the contexts that
    make a call all-or-nothing, and the interpreter of contracts with its native
    functions, from the evaluation of an expression to a whole transaction.
    Addresses, epochs, emission schedules and the consensus encoding of values,
    which these rest on, are part of it.

    ** The program and how its parts interact

    A transaction runs in a [GlobalContext] (clarity/src/vm/contexts.rs). Every
    call opens a level on four stacks: the database (a [RollbackWrapper] over a
    backing store, key_value_wrapper.rs), the asset maps, the event batches and
    the read-only flags; the level is merged into the one below or dropped,
    depending on the result. The interpreter (clarity/src/vm/mod.rs) walks the
    expressions of a function body: arguments of native functions are evaluated
    first, special forms evaluate their own, user functions and calls of other
    contracts open a level, and the call stack bounds the nesting. Native
    functions such as stx-transfer? go through a
    balance snapshot (structures.rs) that reads and writes account records
    under keys derived from the c32 rendering of the principal, record what
    moved in the asset map, emit an event, and charge costs and memory. At the
    end the outermost asset map is checked against the post-conditions of the
    transaction (crates/stacks-transactions). After a call of one of the PoX
    contracts the node reads the lock off the value returned and carries it out
    on the ledger (pox-locking), in the context of the call.

    ** Files

    Every file models one part; definitions keep the names of the source.

    - [Prelude] (this file): outcomes ([result]: a value, an error, or a panic),
      the state-and-error monad [M] for methods on [&mut self], machine integers
      as [Z] with checked and saturating arithmetic, [zoom] for borrowing a
      field, the simulation relation [sim] with its hint database and tactic,
      and lemmas on lists and strings.
    - [Bytes]: stacks-common/src/util/hash.rs ([to_hex], [hex_bytes]) and the
      big-endian encodings of integers.
    - [BoundedString]: stacks-common/src/util/bounded_string.rs, the bounded
      rendering of error messages.
    - [Epochs]: stacks-common/src/types/mod.rs: [StacksEpochId] and its feature
      gates, coinbase and SIP-031 schedules, [EpochList].
    - [BTree]: the ordered maps and sets of Rust's standard library as sorted
      lists.
    - [Values]: principals, type signatures (syntax), values and accessors of
      clarity-types/src/types, and the error types of clarity.
    - [Types], [Supertypes]: clarity-types/src/types/signatures.rs: guarded
      constructors, sizes, depths, canonical forms; admission and least
      supertypes.
    - [RollbackStore]: clarity/src/vm/database/key_value_wrapper.rs over an
      abstract [ClarityBackingStore] (clarity_store.rs). It defines the
      interface [KVStore] with its laws.
    - [NestedStore]: begin, commit and roll_back of clarity_db.rs and the
      interface [NestedStoreLaws], a stack of maps, discharged by the wrapper.
    - [C32]: stacks-common/src/address/c32.rs and the rendering of principals.
    - [STXBalance]: the balance type of clarity/src/vm/database/structures.rs
      with the five lock versions and its storage format.
    - [Database]: keys, stored epoch, unlock heights and burn height of
      clarity/src/vm/database/clarity_db.rs.
    - [STXLedger]: [STXBalanceSnapshot] of structures.rs: transfers, credits,
      debits, and locking under the five PoX versions.
    - [AssetMap]: clarity-types/src/effects/asset_map.rs.
    - [Serialization]: the writers of clarity-types/src/types/serialization.rs
      over an abstract sink, with the counting sink.
    - [VmErrors]: the conversions of type errors into errors of the VM.
    - [TypedValues]: types of values, the guarded constructors and the sequence
      and tuple operations of clarity-types/src/types/mod.rs, and the sanitizer.
    - [Deserialization]: the reading half of serialization.rs: the bounded
      reader, the decoding loop, its entry points.
    - [ValueRoundTrip], [DecodedValues], [Sanitization]: theorems that relate
      the writer, the reader, the sanitizer and the type system.
    - [ContractData]: what contracts store, of clarity_db.rs: values under keys,
      metadata, data variables, data maps, tokens, the liquid supply, nonces.
    - [StoredData], [StoredKeys]: the laws of such a store, discharged by the
      rollback wrapper, and that the keys do not collide.
    - [ContractStorage]: variables and maps as a contract sees them, and that
      the database operations implement them.
    - [Arithmetic]: the integer functions and comparisons of
      clarity/src/vm/functions/arithmetic.rs.
    - [PostConditions]: crates/stacks-transactions/src/lib.rs and the condition
      types of stacks-codec/src/transaction.rs.
    - [CostTables]: clarity/src/vm/costs/cost_functions.rs, the six tables
      costs_1.rs to costs_5.rs, and the choice of a table in costs/mod.rs.
    - [Costs]: execution_cost.rs and the tracker of costs/mod.rs.
    - [GlobalContext]: contexts.rs, the event types of events.rs, and
      stx_transfer_consolidated of functions/assets.rs.
    - [Expressions]: the syntax tree of clarity-types/src/representations.rs,
      the language versions, the enumerations of reserved names and the checks
      on argument lists.
    - [Contexts]: contract contexts, local contexts, the call stack and the
      invocation context of contexts.rs; signatures and defined functions.
    - [CostFunctions]: how costs/mod.rs evaluates a cost function and charges it.
    - [TypeSyntax]: how an expression is read as a type (types/signatures.rs).
    - [Contracts]: what clarity_db.rs stores of a contract, and loading it.
    - [BlockInfo]: what clarity_db.rs reports of earlier blocks.
    - [Natives], [CryptoNatives], [BitcoinNatives]: the native functions on
      evaluated arguments of boolean.rs, options.rs, tuples.rs, sequences.rs,
      conversions.rs, crypto.rs and bitcoin.rs in clarity/src/vm/functions;
      [BitcoinTx] is the transaction format of stacks-common/src/deps_common.
    - [Allowances]: what a contract allows itself to move (post_conditions.rs)
      and the check of the asset map against it.
    - [ExecutionState]: the state of an execution (context and call stack),
      lookup of variables and functions, charging.
    - [SpecialForms], [ValueForms], [DatabaseForms], [AssetForms],
      [PostConditionForms]: the forms that evaluate their own arguments, by the
      files of clarity/src/vm/functions.
    - [UserFunctions]: application of defined functions (callables.rs) and calls
      into contracts (contexts.rs).
    - [Definitions]: the define forms (define.rs).
    - [Interpreter]: eval, apply and the table of the native functions.
    - [Transactions]: evaluation of a contract at deployment, and the
      transactions of an [OwnedEnvironment].
    - [Regimes], [StoreRegimes], [EvalRegimes], [FormRegimes],
      [DeploymentRegimes]: what computations keep. Every database operation,
      every building block of the forms, every native function and the
      evaluation of a contract works on the innermost context and on its part of
      the call stack if the evaluations inside it do.
    - [Evaluation], [Executions]: the same of the interpreter itself, by
      induction on the depth left on the call stack; executions end.
    - [Atomicity]: functions called as transactions, and transactions, are
      all-or-nothing on the rollback wrapper.
    - [PoxEvents]: pox-locking/src/events.rs and events_24.rs, the texts of the
      programs that compute the events of the PoX contracts.
    - [PoxLocking]: the rest of pox-locking/src: locking, extending, increasing
      and moving locks, reading the values that the contracts return, events and
      the handlers of the five contracts; evaluation of a program in a contract
      (contexts.rs) and clarity_vm/special.rs of stackslib.
    - [PoxLedger]: what the handlers do to the ledger, and contracts out of use.
    - [PoxHandlers]: the handlers work in the context of the call, so the
      theorems on transactions and executions apply to the node with them.
    - [SampleMachine]: instances of the parameters, to run examples.

    ** State and operations

    A struct is a record, an enum an inductive type, a [HashMap] a [gmap] (with
    its iteration order a parameter, class [HashMapIter], where the code
    iterates), a [BTreeMap] the list of its entries, a [Vec] used as a stack a
    list with the top at the head. A method on [&mut self] is a computation in
    [M]: it returns an outcome and the state left behind, also when it fails, so
    that what a failing call has already changed is visible. The conversions
    that [?] applies to errors are explicit.

    ** What the theorems show

    - Store: the wrapper's bookkeeping (a map of value histories and logs of
      keys) refines a stack of logs of values; rollback restores the wrapper
      exactly; commits are transparent and never change a read.
    - Contexts: nesting stays balanced; closures and functions run as
      transactions are all-or-nothing over any database that is a stack of maps,
      and effects follow the response; a token transfer transaction pays exactly
      when it should and changes exactly what it should.
    - Interpreter: every execution ends, because the call stack is bounded; the
      interpreter satisfies the recursive equations of eval and apply. Whatever a
      contract does, calls of its functions have effects exactly when they
      return an ok response, and a transaction changes the block's pending edits
      only by adding its own, or not at all.
    - Ledger: transfers and locks succeed exactly under their conditions, every
      operation is atomic, sequences conserve the sum of the balances, lazy
      expiry of locks is unobservable, records survive storage.
    - PoX: after a call of a PoX contract no tokens are made or lost and a lock
      event that is emitted is true of the ledger; contracts out of use fail and
      change nothing; handlers keep to the context of the call.
    - Asset map and post-conditions: merging is a union of maps or nothing, and
      equals direct recording; the table lists exactly what moved; the check
      passes exactly when conditions hold and cover the movements, in any
      iteration order of the hash maps.
    - Costs: limits are enforced exactly, memory reservations are balanced, the
      tables are bounded, monotone and never withdraw an operation.
    - Encodings: c32 and addresses round trip, principals render injectively,
      value serialization is injective up to equality and prefix-free, and its
      size is its length.
    - Types and values: every way to build a type or a value keeps its
      invariant (sizes, depths, agreement of a value with its annotations);
      admission is a preorder, the type checker's supertype a least upper bound;
      in-place filtering equals filtering; sanitization keeps admitted values
      and reports exactly what it changed.
    - Decoding: the loop with its explicit stack computes a recursive descent,
      ends and never panics on arbitrary bytes; what was stored is read back as
      an equal value of the expected type; untrusted bytes decode to well-formed
      values of the expected type or to an error.
    - Contract data: on any lawful store, sequences of reads and writes of data
      variables and data maps behave as typed variables and maps of values, and
      touch no other key.
    - Arithmetic: integer functions are exact or report the error of the
      operation, and results are within the bounds of their type.
    - Allowances: the check accepts exactly when nothing moved outside what was
      allowed, and otherwise names the first allowance that was exceeded.
    - Bitcoin: transactions decode exactly from their encodings; a Merkle proof
      verifies exactly for the leaves of the tree, up to hash collisions.
    - Types in contracts: what is read as a type is a valid declarable type, and
      every such type can be written.
    - Error messages are within their bound and are cut between characters.
    - Epochs: lookups in contiguous lists are total and unique, list operations
      preserve contiguity, schedules are evaluated and bounded as documented.

    ** Parameters and hypotheses

    SHA-256 (class [Sha256]: 32 bytes out), the backing store ([BackingStoreLaws]:
    reads return the last write), the headers and burnchain databases (record
    [DbEnv]), the hash-map iteration order ([HashMapIter]: a permutation of the
    entries), serde_json ([SerdeJson]: reading back what was written), [Debug]
    renderings ([DebugText]), the integer-sqrt crate ([IntegerSquareRoot]), the hash functions and elliptic curves
    ([Crypto]), the memory layout of allowances ([AllowanceLayout]), the parser
    ([AstBuilder]), the text of locking errors ([LockingText]) and the handlers of
    calls to the boot contracts ([SpecialCaseHandlers]) are parameters. In [GlobalContext] the size and type name of a value and the
    bodies of functions are arguments; [ExecutionState] and [Interpreter]
    supply them. Concrete instances
    (a store in memory, a constant hash, the canonical order) witness that the
    hypotheses can hold. The theorems on executions assume that the handlers work
    in the context they are called in. [PoxHandlers] proves it of the handlers of
    the node, which are those of [PoxLocking]: they run programs whose calls are
    handled in turn, so they are defined by recursion on how often handlers are
    nested ([handlers_at]), and the theorem holds at every depth. What the
    theorems say of the block that the database reads at is for the epochs
    without at-block.

    Recursion is structural but for three places: the hexadecimal rendering of a
    [u32] in an error message is bounded by 8 digits, the width of the type; the
    decoding loop by one more step than there are bytes available, which is
    enough, because every step reads a byte; and the interpreter by [EVAL_FUEL],
    130 steps, which is enough, because every step that evaluates something
    deepens a call stack of at most 128 ([Executions]).

    ** What is not modelled

    The Clarity parser (a parameter where a handler runs a program) and
    analysis, the PoX contracts themselves (Clarity code: the handlers are
    verified for any well-formed value that a contract returns), the transaction
    codec and signatures, the MARF,
    burnchain, block processing, networking, signer and node. Renderings as JSON
    and messages of post-condition failures are left out: failures are typed
    reasons. Panics that the code reaches only through exhausted memory are not
    represented. *)

From Stdlib Require Import ZArith Lia Ascii.
From stdpp Require Export gmap strings pretty prelude.

Open Scope Z_scope.

(** ** Outcomes of Rust functions

    [Ok] and [Err] are the variants of [std::result::Result]; [Panic] is the
    outcome of [panic!], [assert!], [expect] and [unwrap], which abort the
    caller instead of returning to it. *)

Inductive result (E A : Type) : Type :=
| Ok (a : A)
| Err (e : E)
| Panic.

Arguments Ok {E A} a.
Arguments Err {E A} e.
Arguments Panic {E A}.

#[export] Instance result_ret E : MRet (result E) := fun A a => Ok a.
#[export] Instance result_bind E : MBind (result E) := fun A B f r =>
  match r with
  | Ok a => f a
  | Err e => Err e
  | Panic => Panic
  end.

Definition map_err {E F A} (f : E -> F) (r : result E A) : result F A :=
  match r with
  | Ok a => Ok a
  | Err e => Err (f e)
  | Panic => Panic
  end.

Definition ok_or {E A} (o : option A) (e : E) : result E A :=
  match o with Some a => Ok a | None => Err e end.

(** [Option::expect] and [Result::expect] *)
Definition expect_some {E A} (o : option A) : result E A :=
  match o with Some a => Ok a | None => Panic end.

Definition expect_ok {E F A} (r : result E A) : result F A :=
  match r with Ok a => Ok a | _ => Panic end.

(** ** Computations with state

    A method taking [&mut self] and returning [Result] is a function of the
    state that returns the outcome together with the state it leaves behind,
    also when the outcome is an error: [Err] does not undo the writes made
    before it. *)

Definition M (S E A : Type) : Type := S -> result E A * S.

#[export] Instance M_ret S E : MRet (M S E) := fun A a s => (Ok a, s).
#[export] Instance M_bind S E : MBind (M S E) := fun A B f m s =>
  match m s with
  | (Ok a, s') => f a s'
  | (Err e, s') => (Err e, s')
  | (Panic, s') => (Panic, s')
  end.

Section StateOps.
Context {S E : Type}.

Definition get : M S E S := fun s => (Ok s, s).
Definition put (s : S) : M S E unit := fun _ => (Ok tt, s).
Definition modify (f : S -> S) : M S E unit := fun s => (Ok tt, f s).
Definition throw {A} (e : E) : M S E A := fun s => (Err e, s).
Definition panic {A} : M S E A := fun s => (Panic, s).
Definition lift {A} (r : result E A) : M S E A := fun s => (r, s).

(** [if !c { return Err(e) }] and [assert!(c)] *)
Definition ensure (c : bool) (e : E) : M S E unit :=
  if c then mret tt else throw e.
Definition assert_true (c : bool) : M S E unit :=
  if c then mret tt else panic.
End StateOps.

(** Run a computation on a component of a larger state. *)
Definition zoom {S T E A} (rd : S -> T) (wr : T -> S -> S) (m : M T E A) : M S E A :=
  fun s => let '(r, t) := m (rd s) in (r, wr t s).

(** Change the error type, as the [?] operator does through [From]. *)
Definition mmap_err {S E F A} (f : E -> F) (m : M S E A) : M S F A :=
  fun s => let '(r, s') := m s in (map_err f r, s').

(** ** Reasoning about computations *)

Section BindLemmas.
Context {S E A B : Type}.

Lemma result_bind_Ok (r : result E A) (f : A -> result E B) b :
  (r ≫= f) = Ok b -> exists a, r = Ok a /\ f a = Ok b.
Proof. destruct r; naive_solver. Qed.

Lemma M_bind_Ok (m : M S E A) (f : A -> M S E B) s b s2 :
  (m ≫= f) s = (Ok b, s2) ->
  exists a s1, m s = (Ok a, s1) /\ f a s1 = (Ok b, s2).
Proof.
  unfold mbind, M_bind. destruct (m s) as [[a | e |] s1]; naive_solver.
Qed.

Lemma M_bind_eval (m : M S E A) (f : A -> M S E B) s a s1 :
  m s = (Ok a, s1) -> (m ≫= f) s = f a s1.
Proof. unfold mbind, M_bind. by intros ->. Qed.

Lemma M_bind_Err (m : M S E A) (f : A -> M S E B) s e s1 :
  m s = (Err e, s1) -> (m ≫= f) s = (Err e, s1).
Proof. unfold mbind, M_bind. by intros ->. Qed.

Lemma M_bind_Panic (m : M S E A) (f : A -> M S E B) s s1 :
  m s = (Panic, s1) -> (m ≫= f) s = (Panic, s1).
Proof. unfold mbind, M_bind. by intros ->. Qed.
End BindLemmas.

Lemma M_bind_assoc {S E A B C} (m : M S E A) (f : A -> M S E B) (g : B -> M S E C) s :
  ((m ≫= f) ≫= g) s = (m ≫= (fun x => f x ≫= g)) s.
Proof. unfold mbind, M_bind. by destruct (m s) as [[a | e |] s1]. Qed.

Lemma M_bind_ext {S E A B} (m : M S E A) (f g : A -> M S E B) s :
  (forall a s1, f a s1 = g a s1) -> (m ≫= f) s = (m ≫= g) s.
Proof. intros Hfg. unfold mbind, M_bind. destruct (m s) as [[a | e |] s1]; auto. Qed.

Lemma M_bind_ext_run {S E A B} (m : M S E A) (f g : A -> M S E B) s :
  (forall a s1, m s = (Ok a, s1) -> f a s1 = g a s1) -> (m ≫= f) s = (m ≫= g) s.
Proof. intros Hfg. unfold mbind, M_bind. destruct (m s) as [[a | e |] s1]; auto. Qed.

Lemma M_bind_cong {S E A B} (m m' : M S E A) (f : A -> M S E B) s :
  m s = m' s -> (m ≫= f) s = (m' ≫= f) s.
Proof. unfold mbind, M_bind. by intros ->. Qed.

Lemma ensure_Ok {S E} c (e : E) (s s' : S) :
  ensure c e s = (Ok tt, s') <-> c = true /\ s' = s.
Proof.
  unfold ensure, throw, mret, M_ret.
  destruct c; (split; [intros [=] | intros [? ?]]); by subst.
Qed.

Lemma assert_true_Ok {S E} c (s s' : S) :
  @assert_true S E c s = (Ok tt, s') <-> c = true /\ s' = s.
Proof.
  unfold assert_true, panic, mret, M_ret.
  destruct c; (split; [intros [=] | intros [? ?]]); by subst.
Qed.

Lemma lift_Ok {S E A} (r : result E A) (s s' : S) a :
  lift r s = (Ok a, s') <-> r = Ok a /\ s' = s.
Proof. unfold lift. naive_solver. Qed.

Lemma zoom_Ok {S T E A} (rd : S -> T) (wr : T -> S -> S) (m : M T E A) s a s' :
  zoom rd wr m s = (Ok a, s') <->
  exists t, m (rd s) = (Ok a, t) /\ s' = wr t s.
Proof. unfold zoom. destruct (m (rd s)) as [r t]. naive_solver. Qed.

Lemma zoom_eval {S T E A} (rd : S -> T) (wr : T -> S -> S) (m : M T E A) s r t :
  m (rd s) = (r, t) -> zoom rd wr m s = (r, wr t s).
Proof. unfold zoom. by intros ->. Qed.

Lemma mmap_err_Ok {S E F A} (f : E -> F) (m : M S E A) s a s' :
  mmap_err f m s = (Ok a, s') <-> m s = (Ok a, s').
Proof. unfold mmap_err. destruct (m s) as [[] ?]; naive_solver. Qed.

Lemma map_err_Ok {E F A} (f : E -> F) (r : result E A) a :
  map_err f r = Ok a <-> r = Ok a.
Proof. destruct r; naive_solver. Qed.

Lemma ok_or_Ok {E A} (o : option A) (e : E) a : ok_or o e = Ok a <-> o = Some a.
Proof. destruct o; naive_solver. Qed.

Lemma expect_some_Ok {E A} (o : option A) a : @expect_some E A o = Ok a <-> o = Some a.
Proof. destruct o; naive_solver. Qed.

(** *** Results without panics *)

Definition panic_free {E A} (r : result E A) : Prop := r <> Panic.

Create HintDb panic_free.

Lemma panic_free_bind {E A B} (r : result E A) (f : A -> result E B) :
  panic_free r -> (forall a, r = Ok a -> panic_free (f a)) -> panic_free (r ≫= f).
Proof. unfold panic_free. destruct r; cbn; auto. Qed.

Lemma panic_free_Ok {E A} (a : A) : panic_free (Ok a : result E A).
Proof. done. Qed.
Lemma panic_free_Err {E A} (e : E) : panic_free (Err e : result E A).
Proof. done. Qed.
Lemma panic_free_map_err {E F A} (f : E -> F) (r : result E A) :
  panic_free r -> panic_free (map_err f r).
Proof. by destruct r. Qed.
Lemma panic_free_ok_or {E A} (o : option A) (e : E) : panic_free (ok_or o e).
Proof. by destruct o. Qed.

#[export] Hint Resolve panic_free_Ok panic_free_Err panic_free_map_err panic_free_ok_or : panic_free.

(** Follows the binds and matches of a result to its leaves. *)
Ltac panic_free :=
  repeat (first
    [ solve [auto 3 with panic_free]
    | apply panic_free_bind; [| intros]
    | apply panic_free_map_err
    | case_match ]).

(** [step_M H] peels one bind off a hypothesis that a computation returned
    [Ok]; [run_M H] does so until the computation is exhausted and reads off
    what the guards, lifts and zooms on the way say. *)
Ltac step_M H :=
  match type of H with
  | (_ ≫= _) ?s = (Ok _, _) =>
      let a := fresh "a" in let s1 := fresh "s" in
      let H1 := fresh "Hm" in let H2 := fresh "Hk" in
      apply M_bind_Ok in H as (a & s1 & H1 & H2)
  | (_ ≫= _) = Ok _ =>
      let a := fresh "a" in
      let H1 := fresh "Hm" in let H2 := fresh "Hk" in
      apply result_bind_Ok in H as (a & H1 & H2)
  | ensure _ _ _ = (Ok ?u, _) => destruct u; apply ensure_Ok in H as [H ->]
  | assert_true _ _ = (Ok ?u, _) => destruct u; apply assert_true_Ok in H as [H ->]
  | lift _ _ = (Ok _, _) => apply lift_Ok in H as [H ->]
  | zoom _ _ _ _ = (Ok _, _) => apply zoom_Ok in H as (? & H & ->)
  | mmap_err _ _ _ = (Ok _, _) => apply mmap_err_Ok in H
  | map_err _ _ = Ok _ => apply map_err_Ok in H
  | ok_or _ _ = Ok _ => apply ok_or_Ok in H
  | expect_some _ = Ok _ => apply expect_some_Ok in H
  | mret _ _ = (Ok _, _) => unfold mret, M_ret in H
  | (Ok _, _) = (Ok _, _) => simplify_eq
  | Ok _ = Ok _ => injection H as <-
  | (Err _, _) = (Ok _, _) => discriminate H
  | (Panic, _) = (Ok _, _) => discriminate H
  | get _ = (Ok _, _) => unfold get in H
  | put _ _ = (Ok _, _) => unfold put in H
  | modify _ _ = (Ok _, _) => unfold modify in H
  | throw _ _ = (Ok _, _) => discriminate H
  | panic _ = (Ok _, _) => discriminate H
  end.

Ltac run_M :=
  repeat match goal with
  | H : _ = (Ok _, _) |- _ => progress step_M H
  | H : _ = Ok _ |- _ => progress step_M H
  end.

(** ** Simulation of computations

    [sim R m m']: from related states the two computations have the same
    outcome and end in related states. *)

Definition sim {S T E A} (R : S -> T -> Prop) (m : M S E A) (m' : M T E A) : Prop :=
  forall s t, R s t -> (m s).1 = (m' t).1 /\ R (m s).2 (m' t).2.

Create HintDb sim.

Section Sim.
Context {S T E : Type} (R : S -> T -> Prop).

Lemma sim_ret {A} (a : A) : sim R (mret a : M S E A) (mret a).
Proof. by intros s t HR. Qed.

Lemma sim_bind {A B} (m : M S E A) (m' : M T E A) (k : A -> M S E B) (k' : A -> M T E B) :
  sim R m m' -> (forall a, sim R (k a) (k' a)) -> sim R (m ≫= k) (m' ≫= k').
Proof.
  intros Hm Hk s t HR. destruct (Hm s t HR) as [Heq HR'].
  unfold mbind, M_bind. destruct (m s) as [r s'], (m' t) as [r' t']; cbn in *; subst r'.
  destruct r; [by apply Hk | done ..].
Qed.

Lemma sim_lift {A} (r : result E A) : sim R (lift r) (lift r).
Proof. by intros s t HR. Qed.

Lemma sim_throw {A} (e : E) : sim R (throw (A := A) e) (throw e).
Proof. by intros s t HR. Qed.

Lemma sim_panic {A} : sim R (panic (E := E) (A := A)) panic.
Proof. by intros s t HR. Qed.

Lemma sim_ensure c (e : E) : sim R (ensure c e) (ensure c e).
Proof. by intros s t HR; destruct c. Qed.

Lemma sim_if {A} (c : bool) (m1 m2 : M S E A) (m1' m2' : M T E A) :
  sim R m1 m1' -> sim R m2 m2' -> sim R (if c then m1 else m2) (if c then m1' else m2').
Proof. by destruct c. Qed.

Lemma sim_mmap_err {F A} (f : E -> F) (m : M S E A) (m' : M T E A) :
  sim R m m' -> sim R (mmap_err f m) (mmap_err f m').
Proof.
  intros Hm s t HR. destruct (Hm s t HR) as [Heq HR']. unfold mmap_err.
  destruct (m s), (m' t). cbn in *. by rewrite Heq.
Qed.
End Sim.

#[export] Hint Resolve sim_ret sim_lift sim_throw sim_panic sim_ensure : sim.

(** Prove a simulation by following the structure of the program. *)
Ltac solve_sim :=
  repeat first
    [ progress intros
    | solve [eauto 3 with sim]
    | apply sim_bind
    | apply sim_if
    | case_match ].

(** ** Machine integers

    A value of type [u<w>] is a [Z] in [0, 2^w); an [i<w>] one is in
    [-2^(w-1), 2^(w-1)).  Arithmetic that the source writes with [checked_*]
    returns [None] outside of the range. *)

Definition u8_max : Z := 2 ^ 8 - 1.
Definition u32_max : Z := 2 ^ 32 - 1.
Definition u64_max : Z := 2 ^ 64 - 1.
Definition u128_max : Z := 2 ^ 128 - 1.
Definition i128_min : Z := - 2 ^ 127.
Definition i128_max : Z := 2 ^ 127 - 1.

Definition in_range (lo hi z : Z) : bool := (lo <=? z) && (z <=? hi).
Definition is_u8 (z : Z) : Prop := 0 <= z <= u8_max.
Definition is_u32 (z : Z) : Prop := 0 <= z <= u32_max.
Definition is_u64 (z : Z) : Prop := 0 <= z <= u64_max.
Definition is_u128 (z : Z) : Prop := 0 <= z <= u128_max.
Definition is_i128 (z : Z) : Prop := i128_min <= z <= i128_max.

Definition checked (lo hi z : Z) : option Z :=
  if in_range lo hi z then Some z else None.

(** [len] and [is_empty] *)
Definition zlen {A} (l : list A) : Z := Z.of_nat (length l).

Lemma zlen_app {A} (l k : list A) : zlen (l ++ k) = zlen l + zlen k.
Proof. unfold zlen. rewrite length_app. lia. Qed.
Lemma zlen_cons {A} (x : A) l : zlen (x :: l) = 1 + zlen l.
Proof. unfold zlen. cbn. lia. Qed.
Definition is_empty {A} (l : list A) : bool := match l with [] => true | _ => false end.

Definition u32_checked_add (a b : Z) : option Z := checked 0 u32_max (a + b).
Definition u32_checked_mul (a b : Z) : option Z := checked 0 u32_max (a * b).
Definition u64_checked_add (a b : Z) : option Z := checked 0 u64_max (a + b).
Definition u64_checked_sub (a b : Z) : option Z := checked 0 u64_max (a - b).
Definition u64_checked_mul (a b : Z) : option Z := checked 0 u64_max (a * b).
Definition u64_checked_div (a b : Z) : option Z :=
  if b =? 0 then None else Some (a / b).
Definition u128_checked_add (a b : Z) : option Z := checked 0 u128_max (a + b).
Definition u128_checked_sub (a b : Z) : option Z := checked 0 u128_max (a - b).
Definition u128_checked_mul (a b : Z) : option Z := checked 0 u128_max (a * b).
Definition u64_saturating_add (a b : Z) : Z := Z.min u64_max (a + b).
Definition u64_saturating_sub (a b : Z) : Z := Z.max 0 (a - b).
Definition u64_saturating_mul (a b : Z) : Z := Z.min u64_max (a * b).

(** [u64::try_from(x : u128)] *)
Definition u64_try_from (z : Z) : option Z := checked 0 u64_max z.

Lemma in_range_spec lo hi z : in_range lo hi z = true <-> lo <= z <= hi.
Proof. unfold in_range. rewrite andb_true_iff, !Z.leb_le. lia. Qed.

Lemma checked_Some lo hi z r : checked lo hi z = Some r <-> r = z /\ lo <= z <= hi.
Proof.
  unfold checked. destruct (in_range lo hi z) eqn:Hr.
  - apply in_range_spec in Hr. naive_solver.
  - split; [done |]. intros [-> Hz%in_range_spec]. congruence.
Qed.

Lemma checked_None lo hi z : checked lo hi z = None <-> z < lo \/ hi < z.
Proof.
  unfold checked. destruct (in_range lo hi z) eqn:Hr.
  - apply in_range_spec in Hr. split; [done | lia].
  - split; [intros _ | done]. apply not_true_iff_false in Hr.
    rewrite in_range_spec in Hr. lia.
Qed.

(** Integer side conditions: turn boolean tests and checked operations into
    inequalities, put the widths in closed form and call [lia]. *)
Create HintDb ints.
#[export] Hint Unfold u8_max u32_max u64_max u128_max i128_min i128_max
  is_u8 is_u32 is_u64 is_u128 is_i128 u32_checked_add u32_checked_mul u64_checked_add u64_checked_sub
  u64_checked_mul u128_checked_add u128_checked_sub u128_checked_mul
  u64_try_from u64_saturating_sub : ints.

Ltac ints_hyps :=
  autounfold with ints in *;
  repeat match goal with
  | H : checked _ _ _ = Some _ |- _ => apply checked_Some in H as [? ?]
  | H : checked _ _ _ = None |- _ => apply checked_None in H
  | H : in_range _ _ _ = true |- _ => apply in_range_spec in H
  | H : negb _ = true |- _ => apply negb_true_iff in H
  | H : negb _ = false |- _ => apply negb_false_iff in H
  | H : (_ && _)%bool = true |- _ => apply andb_true_iff in H as [? ?]
  | H : (_ || _)%bool = false |- _ => apply orb_false_iff in H as [? ?]
  | H : (_ <=? _) = true |- _ => apply Z.leb_le in H
  | H : (_ <=? _) = false |- _ => apply Z.leb_gt in H
  | H : (_ <? _) = true |- _ => apply Z.ltb_lt in H
  | H : (_ <? _) = false |- _ => apply Z.ltb_ge in H
  | H : (_ =? _) = true |- _ => apply Z.eqb_eq in H
  | H : (_ =? _) = false |- _ => apply Z.eqb_neq in H
  end.

Ltac ints := ints_hyps; simplify_eq; lia.

(** ** Vectors

    [Vec::pop]: the last element and the elements before it *)
Definition vec_pop {A} (l : list A) : option (A * list A) :=
  match reverse l with
  | [] => None
  | x :: r => Some (x, reverse r)
  end.

Lemma foldl_pointwise {A B} (f g : A -> B -> A) a l :
  (forall a b, f a b = g a b) -> foldl f a l = foldl g a l.
Proof. intros Hfg. revert a. induction l; intros; cbn; rewrite ?Hfg; auto. Qed.

Lemma forallb_True_iff_Forall {A} (f : A -> bool) l :
  forallb f l = true <-> Forall (fun x => f x = true) l.
Proof. rewrite forallb_forall, Forall_forall. by setoid_rewrite list_elem_of_In. Qed.

Lemma vec_pop_snoc {A} (l : list A) x : vec_pop (l ++ [x]) = Some (x, l).
Proof. unfold vec_pop. by rewrite reverse_snoc, reverse_involutive. Qed.

(** ** Strings *)

Lemma string_cons_app (c : Ascii.ascii) (a b : string) :
  String c a +:+ b = String c (a +:+ b).
Proof. done. Qed.

Lemma string_length_app (a b : string) :
  String.length (a +:+ b) = (String.length a + String.length b)%nat.
Proof. induction a as [| c a IH]; [done |]. exact (f_equal S IH). Qed.

Lemma string_app_assoc (a b c : string) : a +:+ (b +:+ c) = (a +:+ b) +:+ c.
Proof. induction a as [| x a IH]; [done |]. exact (f_equal (String x) IH). Qed.

Lemma string_app_inj_l (a b1 b2 : string) : a +:+ b1 = a +:+ b2 -> b1 = b2.
Proof.
  induction a as [| c a IH]; [done |]. rewrite !string_cons_app. intros [=]. auto.
Qed.

Lemma string_app_inj_r (a1 a2 b1 b2 : string) :
  String.length b1 = String.length b2 -> a1 +:+ b1 = a2 +:+ b2 -> a1 = a2 /\ b1 = b2.
Proof.
  revert a2. induction a1 as [| c a1 IH]; intros [| c2 a2] Hl E.
  - done.
  - apply (f_equal String.length) in E. rewrite !string_length_app in E. cbn in E. lia.
  - apply (f_equal String.length) in E. rewrite !string_length_app in E. cbn in E. lia.
  - rewrite !string_cons_app in E. injection E as -> E. by destruct (IH a2 Hl E) as [-> ->].
Qed.
