(* ===== verification/Bytes.v ===== *)
(** * Bytes, big-endian integers and hexadecimal strings

    [stacks-common/src/util/hash.rs] ([to_hex], [hex_bytes]) and the
    [to_be_bytes]/[from_be_bytes] of the machine integers.  A byte is a [Z]
    in [0, 256), a Rust string a Rocq [string] of ASCII characters. *)

From Stdlib Require Import Ascii.
From stdpp Require Import strings prelude.
From S2P Require Import Prelude.

Definition is_byte (b : Z) : Prop := 0 <= b < 256.
Definition bytes_ok (bs : list Z) : Prop := Forall is_byte bs.

(** ** Big-endian integers *)

(** [uN::to_be_bytes] for a width of [n] bytes *)
Fixpoint to_be_bytes (n : nat) (z : Z) : list Z :=
  match n with
  | O => []
  | S n' => to_be_bytes n' (z / 256) ++ [z mod 256]
  end.

(** [uN::from_be_bytes] *)
Definition from_be_bytes (bs : list Z) : Z :=
  fold_left (fun acc b => acc * 256 + b) bs 0.

Lemma length_to_be_bytes n z : length (to_be_bytes n z) = n.
Proof.
  revert z. induction n as [| n IH]; intros z; [done |].
  cbn [to_be_bytes]. rewrite length_app, IH. cbn. lia.
Qed.

Lemma to_be_bytes_ok n z : bytes_ok (to_be_bytes n z).
Proof.
  revert z. induction n as [| n IH]; intros z; [constructor |].
  cbn [to_be_bytes]. apply Forall_app_2; [apply IH |].
  constructor; [| constructor]. unfold is_byte. apply Z.mod_pos_bound. lia.
Qed.

Lemma from_be_bytes_snoc bs b :
  from_be_bytes (bs ++ [b]) = from_be_bytes bs * 256 + b.
Proof. unfold from_be_bytes. by rewrite fold_left_app. Qed.

Lemma from_to_be_bytes n z :
  0 <= z < 256 ^ Z.of_nat n -> from_be_bytes (to_be_bytes n z) = z.
Proof.
  revert z. induction n as [| n IH]; intros z Hz.
  - cbn in *. lia.
  - cbn [to_be_bytes]. rewrite from_be_bytes_snoc, IH.
    + pose proof (Z.div_mod z 256). lia.
    + rewrite Nat2Z.inj_succ, Z.pow_succ_r in Hz by lia. split.
      * apply Z.div_pos; lia.
      * apply Z.div_lt_upper_bound; lia.
Qed.

Lemma from_be_bytes_bound bs :
  bytes_ok bs -> 0 <= from_be_bytes bs < 256 ^ Z.of_nat (length bs).
Proof.
  induction bs as [| b bs IH] using rev_ind; intros Hok; [cbn; lia |].
  apply Forall_app in Hok as [Hbs Hb]. apply Forall_inv in Hb.
  unfold is_byte in Hb. specialize (IH Hbs).
  rewrite from_be_bytes_snoc, length_app, Nat.add_comm.
  cbn [length Nat.add]. rewrite Nat2Z.inj_succ, Z.pow_succ_r by lia. lia.
Qed.

Lemma to_from_be_bytes bs :
  bytes_ok bs -> to_be_bytes (length bs) (from_be_bytes bs) = bs.
Proof.
  induction bs as [| b bs IH] using rev_ind; intros Hok; [done |].
  apply Forall_app in Hok as [Hbs Hb]. apply Forall_inv in Hb.
  unfold is_byte in Hb.
  rewrite length_app, Nat.add_comm. cbn [length Nat.add to_be_bytes].
  rewrite from_be_bytes_snoc, (Z.add_comm (_ * 256) b), Z.div_add, Z.mod_add by lia.
  rewrite Z.div_small, Z.mod_small, Z.add_0_l by lia. by rewrite IH.
Qed.

(** ** Hexadecimal strings *)

(** [HexError] of [stacks-common/src/util/mod.rs] *)
Inductive HexError :=
| BadLength (n : nat)
| BadCharacter (c : ascii).

(** [HEX_CHARS[i]] *)
Definition hex_char (d : Z) : ascii :=
  ascii_of_nat (Z.to_nat (if d <? 10 then 48 + d else 87 + d)).

(** [char::to_digit(16)] *)
Definition to_digit16 (c : ascii) : option Z :=
  let n := Z.of_nat (nat_of_ascii c) in
  if in_range 48 57 n then Some (n - 48)
  else if in_range 97 102 n then Some (n - 87)
  else if in_range 65 70 n then Some (n - 55)
  else None.

Fixpoint hex_of_bytes (bs : list Z) : string :=
  match bs with
  | [] => EmptyString
  | b :: bs' =>
      String (hex_char (Z.shiftr b 4))
        (String (hex_char (Z.land b 15)) (hex_of_bytes bs'))
  end.

Definition to_hex_prefixed (bs : list Z) (prefix : bool) : string :=
  (if prefix then "0x" else "") +:+ hex_of_bytes bs.

Definition to_hex (bs : list Z) : string := to_hex_prefixed bs false.

(** The characters are consumed in pairs; a bad character is reported before
    a left-over one, and a left-over one as [BadLength] of the whole input. *)
Fixpoint hex_bytes_from (len : nat) (s : string) : result HexError (list Z) :=
  match s with
  | EmptyString => Ok []
  | String _ EmptyString => Err (BadLength len)
  | String f (String s rest) =>
      match to_digit16 f, to_digit16 s with
      | None, _ => Err (BadCharacter f)
      | _, None => Err (BadCharacter s)
      | Some f, Some s => v ← hex_bytes_from len rest; Ok ((f * 16 + s) :: v)
      end
  end.

Definition hex_bytes (s : string) : result HexError (list Z) :=
  hex_bytes_from (String.length s) s.

Lemma to_digit16_hex_char d : 0 <= d < 16 -> to_digit16 (hex_char d) = Some d.
Proof.
  intros Hd.
  assert (Hall : Forall (fun x => to_digit16 (hex_char x) = Some x) (seqZ 0 16))
    by (by repeat constructor).
  rewrite Forall_forall in Hall. apply Hall, elem_of_seqZ. lia.
Qed.

Lemma byte_nibbles b :
  is_byte b -> 0 <= Z.shiftr b 4 < 16 /\ 0 <= Z.land b 15 < 16 /\
  Z.shiftr b 4 * 16 + Z.land b 15 = b.
Proof.
  unfold is_byte. intros Hb. rewrite Z.shiftr_div_pow2 by lia.
  change 15 with (Z.ones 4). rewrite Z.land_ones by lia.
  change (2 ^ 4) with 16. pose proof (Z.div_mod b 16). 
  pose proof (Z.mod_pos_bound b 16).
  repeat split; lia.
Qed.

Lemma hex_bytes_from_hex len bs :
  bytes_ok bs -> hex_bytes_from len (hex_of_bytes bs) = Ok bs.
Proof.
  induction 1 as [| b bs Hb _ IH]; [done |].
  destruct (byte_nibbles b Hb) as (Hhi & Hlo & Heq).
  cbn [hex_of_bytes hex_bytes_from].
  rewrite !to_digit16_hex_char by done. rewrite IH. cbn. by rewrite Heq.
Qed.

Lemma hex_bytes_to_hex bs : bytes_ok bs -> hex_bytes (to_hex bs) = Ok bs.
Proof. apply hex_bytes_from_hex. Qed.

Lemma length_hex_of_bytes bs :
  String.length (hex_of_bytes bs) = (2 * length bs)%nat.
Proof. induction bs as [| b bs IH]; cbn; lia. Qed.

(** ** The bytes of a string: [str::as_bytes] *)

Definition as_bytes (s : string) : list Z :=
  (fun c => Z.of_nat (nat_of_ascii c)) <$> String.list_ascii_of_string s.

Lemma as_bytes_length s : length (as_bytes s) = String.length s.
Proof. unfold as_bytes. rewrite length_fmap. induction s; cbn; congruence. Qed.

Lemma as_bytes_inj s t : as_bytes s = as_bytes t -> s = t.
Proof.
  revert t. induction s as [| c s IH]; intros [| d t]; cbn; try done.
  intros [= Hc Hs]. f_equal; [| by apply IH].
  apply Nat2Z.inj in Hc. by rewrite <- (ascii_nat_embedding c), Hc, ascii_nat_embedding.
Qed.

(** [String::from_utf8] *)
Definition string_of_bytes (bs : list Z) : string :=
  String.string_of_list_ascii ((fun b => ascii_of_nat (Z.to_nat b)) <$> bs).

Lemma string_of_as_bytes s : string_of_bytes (as_bytes s) = s.
Proof.
  unfold string_of_bytes, as_bytes. rewrite <- list_fmap_compose.
  rewrite (list_fmap_ext _ id); [by rewrite list_fmap_id, String.string_of_list_ascii_of_string |].
  intros _ c _. cbn. by rewrite Nat2Z.id, ascii_nat_embedding.
Qed.

(** ** UTF-8 *)

(** [str::from_utf8] followed by [chars] and [encode_utf8]: the bytes of each
    character of a well-formed UTF-8 string (Unicode table 3-7) *)
Definition utf8_cont (b : Z) : bool := in_range 128 191 b.

Fixpoint utf8_chars (bytes : list Z) : option (list (list Z)) :=
  match bytes with
  | [] => Some []
  | b0 :: rest0 =>
      if in_range 0 127 b0 then cs ← utf8_chars rest0; Some ([b0] :: cs)
      else match rest0 with
      | [] => None
      | b1 :: rest1 =>
          if in_range 194 223 b0 && utf8_cont b1
          then cs ← utf8_chars rest1; Some ([b0; b1] :: cs)
          else match rest1 with
          | [] => None
          | b2 :: rest2 =>
              if ((b0 =? 224) && in_range 160 191 b1
                  || in_range 225 236 b0 && utf8_cont b1
                  || (b0 =? 237) && in_range 128 159 b1
                  || in_range 238 239 b0 && utf8_cont b1) && utf8_cont b2
              then cs ← utf8_chars rest2; Some ([b0; b1; b2] :: cs)
              else match rest2 with
              | [] => None
              | b3 :: rest3 =>
                  if ((b0 =? 240) && in_range 144 191 b1
                      || in_range 241 243 b0 && utf8_cont b1
                      || (b0 =? 244) && in_range 128 143 b1) && utf8_cont b2 && utf8_cont b3
                  then cs ← utf8_chars rest3; Some ([b0; b1; b2; b3] :: cs)
                  else None
              end
          end
      end
  end.
