(* ===== verification/BoundedString.v ===== *)
(** * Error messages of bounded length

    [stacks-common/src/util/bounded_string.rs]: a writer with a byte budget
    that aborts the rendering when the budget is spent, and the string that is
    cut to make room for a mark. Texts are byte strings in UTF-8; formatting
    arguments are the list of chunks that the writer is given. *)

From S2P Require Import Prelude.
From S2P Require Import Bytes.

(** ** The writer *)

Record BoundedWriter := mkBoundedWriter {
  bw_buf : list Z;
  bw_remaining : nat;
  bw_truncated : bool;
}.

(** [str::is_char_boundary] *)
Definition is_char_boundary (s : list Z) (i : nat) : bool :=
  (i =? 0)%nat
  || match s !! i with
     | Some b => negb (utf8_cont b)
     | None => (i =? length s)%nat
     end.

(** [(0..=i).rev().find(|&i| s.is_char_boundary(i)).unwrap_or(0)] *)
Fixpoint floor_char_boundary (s : list Z) (i : nat) : nat :=
  if is_char_boundary s i then i else match i with O => O | S i => floor_char_boundary s i end.

(** [Err] carries nothing: [fmt::Error]. *)
Definition write_str (s : list Z) : M BoundedWriter unit unit := fun w =>
  if (length s <=? bw_remaining w)%nat then
    (Ok tt, mkBoundedWriter (bw_buf w ++ s) (bw_remaining w - length s) (bw_truncated w))
  else
    (Err tt, mkBoundedWriter (bw_buf w ++ take (floor_char_boundary s (bw_remaining w)) s) 0 true).

Fixpoint write_fmt (args : list (list Z)) : M BoundedWriter unit unit :=
  match args with
  | [] => mret tt
  | s :: args => write_str s;; write_fmt args
  end.

Definition ellipsis : list Z := as_bytes "...".

Definition render_bounded (args : list (list Z)) (max_len : nat) : list Z :=
  let writer := (write_fmt args (mkBoundedWriter [] max_len false)).2 in
  let buf := bw_buf writer in
  if bw_truncated writer then
    let end_ := Nat.min (max_len - 3) (length buf) in
    take (floor_char_boundary buf end_) buf ++ take (Nat.min max_len 3) ellipsis
  else buf.

Definition MAX_ERROR_MESSAGE_LEN : Z := 4096.

(** [bounded_format!] with the sink [BoundedErrorString] *)
Definition bounded_format (s : string) : string :=
  string_of_bytes (render_bounded [as_bytes s] (Z.to_nat MAX_ERROR_MESSAGE_LEN)).

(** ** Text as characters *)

(** A first byte and at most three continuation bytes *)
Definition is_char (c : list Z) : Prop :=
  exists b tail, c = b :: tail /\ utf8_cont b = false /\ Forall (fun x => utf8_cont x = true) tail /\
    (length tail <= 3)%nat.

(** The longest prefix of whole characters within a budget of bytes *)
Fixpoint clip (n : nat) (cs : list (list Z)) : list (list Z) :=
  match cs with
  | c :: cs => if (length c <=? n)%nat then c :: clip (n - length c) cs else []
  | [] => []
  end.

Lemma utf8_is_char c : utf8_chars c = Some [c] -> is_char c.
Proof.
  assert (forall b tail, utf8_cont b = false -> Forall (fun x => utf8_cont x = true) tail ->
    (length tail <= 3)%nat -> is_char (b :: tail)) as Hc by (intros b tail ???; by exists b, tail).
  destruct c as [| b0 r0]; [done |]. cbn [utf8_chars].
  destruct (in_range 0 127 b0) eqn:E0; [intros (cs & _ & [= <- _])%bind_Some |].
  { unfold utf8_cont, in_range in *. apply Hc; [lia | constructor | cbn; lia]. }
  destruct r0 as [| b1 r1]; [done |].
  destruct (in_range 194 223 b0 && utf8_cont b1) eqn:E1; [intros (cs & _ & [= <- _])%bind_Some |].
  { unfold utf8_cont, in_range in *. apply Hc; [lia | repeat constructor; lia | cbn; lia]. }
  destruct r1 as [| b2 r2]; [done |]. case_match eqn:E2; [intros (cs & _ & [= <- _])%bind_Some |].
  { unfold utf8_cont, in_range in *. apply Hc; [lia | repeat constructor; lia | cbn; lia]. }
  destruct r2 as [| b3 r3]; [done |]. case_match eqn:E3; [| done].
  intros (cs & _ & [= <- _])%bind_Some. unfold utf8_cont, in_range in *.
  apply Hc; [lia | repeat constructor; lia | cbn; lia].
Qed.

(** ** Cutting at a character boundary is cutting to whole characters *)

Lemma char_length c : is_char c -> (1 <= length c <= 4)%nat.
Proof. intros (b & tail & -> & _ & _ & ?). cbn. lia. Qed.

(** The boundaries of [c ++ s]: 0, and those of [s] after [c] *)
Lemma boundary_char c s i :
  is_char c -> (match s with [] => True | b :: _ => utf8_cont b = false end) ->
  is_char_boundary (c ++ s) i
  = ((i =? 0)%nat || (length c <=? i)%nat && is_char_boundary s (i - length c)).
Proof.
  intros (b & tail & -> & Hb & Ht & _) Hs. unfold is_char_boundary.
  destruct i as [| i]; [done |]. cbn [Nat.eqb orb app length].
  change ((b :: tail ++ s) !! S i) with ((tail ++ s) !! i).
  destruct (Nat.leb_spec (S (length tail)) (S i)) as [Hle | Hlt].
  - rewrite lookup_app_r by lia. replace (S i - S (length tail))%nat with (i - length tail)%nat by lia.
    destruct (Nat.eqb_spec (i - length tail) 0) as [E |]; cbn [orb andb].
    + rewrite E. destruct s as [| x s]; cbn; [apply Nat.eqb_eq; rewrite app_nil_r; lia | by rewrite Hs].
    + destruct (s !! (i - length tail)%nat) eqn:Elk; [done |]. rewrite length_app.
      apply lookup_ge_None in Elk. 
      apply eq_bool_prop_intro. rewrite !Is_true_true, !Nat.eqb_eq. lia.
  - rewrite lookup_app_l by lia. destruct (lookup_lt_is_Some_2 tail i) as [x Hx]; [lia |].
    rewrite Hx. cbn [orb andb]. eapply Forall_lookup_1 in Ht; [| exact Hx]. cbn in Ht. by rewrite Ht.
Qed.

Lemma chars_head cs : Forall is_char cs -> match concat cs with [] => True | b :: _ => utf8_cont b = false end.
Proof. destruct 1 as [| c cs (b & tail & -> & Hb & _) _]; [done | by cbn]. Qed.

Lemma floor_char c s i :
  is_char c -> (match s with [] => True | b :: _ => utf8_cont b = false end) ->
  floor_char_boundary (c ++ s) i
  = if (length c <=? i)%nat then (length c + floor_char_boundary s (i - length c))%nat else O.
Proof.
  intros Hc Hs. pose proof (char_length c Hc).
  induction i as [| i IH]; cbn [floor_char_boundary]; rewrite (boundary_char c s) by done.
  - cbn. by destruct (length c); [lia |].
  - cbn [Nat.eqb orb]. destruct (Nat.leb_spec (length c) (S i)) as [Hle | Hlt]; cbn [andb].
    + destruct (S i - length c)%nat as [| j] eqn:Ej.
      * cbn. lia.
      * cbn [floor_char_boundary]. destruct (is_char_boundary s (S j)); [lia |].
        rewrite IH. destruct (Nat.leb_spec (length c) i); [| lia]. do 2 f_equal. lia.
    + rewrite IH. destruct (Nat.leb_spec (length c) i); [lia | done].
Qed.

Lemma floor_clip cs i :
  Forall is_char cs -> (i <= length (concat cs))%nat ->
  take (floor_char_boundary (concat cs) i) (concat cs) = concat (clip i cs).
Proof.
  intros Hcs. revert i. induction Hcs as [| c cs Hc Hcs IH]; intros i Hi.
  - cbn [concat clip]. by rewrite take_nil.
  - cbn [concat clip]. rewrite floor_char by (done || by apply chars_head).
    destruct (Nat.leb_spec (length c) i); [| done].
    cbn [concat]. rewrite take_app_ge by lia.
    replace (length c + floor_char_boundary (concat cs) (i - length c) - length c)%nat
      with (floor_char_boundary (concat cs) (i - length c)) by lia.
    rewrite IH; [done |]. cbn [concat] in Hi. rewrite length_app in Hi. lia.
Qed.

(** ** Clipping *)

Lemma length_clip n cs : (length (concat (clip n cs)) <= n)%nat.
Proof.
  revert n. induction cs as [| c cs IH]; intros n; cbn; [lia |].
  destruct (Nat.leb_spec (length c) n); cbn; [| lia]. rewrite length_app. specialize (IH (n - length c)%nat). lia.
Qed.

Lemma clip_all n cs : (length (concat cs) <= n)%nat -> clip n cs = cs.
Proof.
  revert n. induction cs as [| c cs IH]; intros n Hn; [done |]. cbn in *. rewrite length_app in Hn.
  destruct (Nat.leb_spec (length c) n); [| lia]. rewrite IH; [done | lia].
Qed.

Lemma clip_app n cs cs' :
  (length (concat cs) <= n)%nat -> clip n (cs ++ cs') = cs ++ clip (n - length (concat cs)) cs'.
Proof.
  revert n. induction cs as [| c cs IH]; intros n Hn; cbn in *; [by rewrite Nat.sub_0_r |].
  rewrite length_app in *. destruct (Nat.leb_spec (length c) n); [| lia]. rewrite IH by lia. do 3 f_equal. lia.
Qed.

Lemma clip_over n cs cs' :
  (n < length (concat cs))%nat -> clip n (cs ++ cs') = clip n cs.
Proof.
  revert n. induction cs as [| c cs IH]; intros n Hn; cbn in *; [lia |].
  rewrite length_app in Hn. destruct (Nat.leb_spec (length c) n); [| done]. f_equal. apply IH. lia.
Qed.

Lemma clip_clip n m cs : (n <= m)%nat -> clip n (clip m cs) = clip n cs.
Proof.
  revert n m. induction cs as [| c cs IH]; intros n m Hnm; [done |]. cbn.
  destruct (Nat.leb_spec (length c) m); cbn.
  - destruct (Nat.leb_spec (length c) n); [| done]. rewrite IH; [done | lia].
  - destruct (Nat.leb_spec (length c) n); [lia | done].
Qed.

Lemma clip_long n cs :
  Forall is_char cs -> (n < length (concat cs))%nat -> (n <= length (concat (clip n cs)) + 3)%nat.
Proof.
  intros Hcs. revert n. induction Hcs as [| c cs Hc _ IH]; intros n Hn; cbn in *; [lia |].
  rewrite length_app in Hn. pose proof (char_length c Hc).
  destruct (Nat.leb_spec (length c) n); cbn; [| lia]. rewrite length_app.
  specialize (IH (n - length c)%nat). lia.
Qed.

(** ** The writer *)

Lemma write_fmt_spec css buf rem :
  Forall (Forall is_char) css ->
  (write_fmt (map (@concat Z) css) (mkBoundedWriter buf rem false)).2 =
  let cs := concat css in
  if (length (concat cs) <=? rem)%nat
  then mkBoundedWriter (buf ++ concat cs) (rem - length (concat cs)) false
  else mkBoundedWriter (buf ++ concat (clip rem cs)) 0 true.
Proof.
  intros Hcss. revert buf rem. induction Hcss as [| cs css Hcs _ IH]; intros buf rem.
  - cbn. by rewrite app_nil_r, Nat.sub_0_r.
  - cbn [map write_fmt concat]. unfold mbind, M_bind, write_str. cbn [bw_remaining bw_buf bw_truncated].
    rewrite concat_app, length_app.
    destruct (Nat.leb_spec (length (concat cs)) rem) as [Hle | Hgt].
    + rewrite IH. cbn zeta. rewrite clip_app, concat_app by done.
      destruct (Nat.leb_spec (length (concat (concat css))) (rem - length (concat cs)));
        destruct (Nat.leb_spec (length (concat cs) + length (concat (concat css))) rem); try lia;
        f_equal; first [by rewrite (assoc_L (++)) | lia].
    + cbn [snd]. rewrite floor_clip by (done || lia). rewrite clip_over by done.
      destruct (Nat.leb_spec (length (concat cs) + length (concat (concat css))) rem); [lia | done].
Qed.

(** The rendering of a message is its text when that fits the bound, and
    otherwise the whole characters that fit the bound less three bytes, followed
    by the mark: it never exceeds the bound, never splits a character, and does
    not depend on the chunks in which the formatting code delivers the text. *)
Theorem render_bounded_spec css max_len :
  Forall (Forall is_char) css ->
  let text := concat (concat css) in
  let rendered := render_bounded (map (@concat Z) css) max_len in
  rendered = (if (length text <=? max_len)%nat then text
              else concat (clip (max_len - 3) (concat css)) ++ take (Nat.min max_len 3) ellipsis) /\
  (length rendered <= max_len)%nat.
Proof.
  intros Hcss text rendered.
  assert (Forall is_char (concat css)) as Hcs by (by apply Forall_concat).
  assert (rendered = if (length text <=? max_len)%nat then text
            else concat (clip (max_len - 3) (concat css)) ++ take (Nat.min max_len 3) ellipsis) as ->.
  { unfold rendered, render_bounded. rewrite write_fmt_spec by done. cbn zeta. fold text.
    destruct (Nat.leb_spec (length text) max_len); [done |]. cbn [bw_truncated bw_buf app].
    f_equal. pose proof (clip_long max_len (concat css) Hcs ltac:(done)).
    assert (Forall is_char (clip max_len (concat css))) as Hclip.
    { clear -Hcs. generalize max_len. induction Hcs as [| c cs Hc _ IH]; intros n; cbn; [done |].
      case_match; [by constructor | done]. }
    rewrite Nat.min_l by lia. rewrite floor_clip by (done || lia). by rewrite clip_clip by lia. }
  split; [done |]. destruct (Nat.leb_spec (length text) max_len); [done |].
  rewrite length_app, length_take. pose proof (length_clip (max_len - 3) (concat css)).
  change (length ellipsis) with 3%nat. lia.
Qed.

Lemma render_bounded_spec_witness :
  render_bounded [as_bytes "abc"; [226; 130; 172; 226; 130; 172]] 8 = as_bytes "abc" ++ ellipsis.
Proof.
  destruct (render_bounded_spec [[[97]; [98]; [99]]; [[226; 130; 172]; [226; 130; 172]]] 8) as [H _]; [| exact H].
  repeat first [apply Forall_cons_2 | apply Forall_nil_2]; by apply utf8_is_char.
Defined.
