(* ===== verification/BTree.v ===== *)
(** * Ordered maps and sets

    [std::collections::BTreeMap] with [ClarityName] keys and
    [std::collections::BTreeSet] as the lists of their entries in increasing
    order of the key.  [TotalOrd] is the derived [Ord] of the key type:
    lexicographic on the fields of a struct, on the bytes of a string and on
    the declaration order of the variants of an enum. *)

From S2P Require Import Prelude.
From S2P Require Import Bytes.

(** ** Total orders *)

Class TotalOrd (K : Type) := {
  cmp : K -> K -> comparison;
  cmp_eq : forall a b, cmp a b = Eq <-> a = b;
  cmp_antisym : forall a b, cmp b a = CompOpp (cmp a b);
  cmp_trans : forall a b c, cmp a b = Lt -> cmp b c = Lt -> cmp a c = Lt;
}.

#[global] Arguments cmp : simpl never.

Lemma cmp_refl `{TotalOrd K} (a : K) : cmp a a = Eq.
Proof. by apply cmp_eq. Qed.

Lemma cmp_gt `{TotalOrd K} (a b : K) : cmp a b = Gt <-> cmp b a = Lt.
Proof. rewrite (cmp_antisym b a). destruct (cmp b a); cbn; split; congruence. Qed.

#[export] Instance Z_ord : TotalOrd Z.
Proof.
  refine {| cmp := Z.compare |}.
  - apply Z.compare_eq_iff.
  - intros a b. apply Z.compare_antisym.
  - intros a b c. rewrite !Z.compare_lt_iff. lia.
Defined.

(** A type whose values are determined by a key is ordered by that key. *)
Definition ord_by {A K} `{TotalOrd K} (key : A -> K) (inj : forall a b, key a = key b -> a = b) :
  TotalOrd A.
Proof.
  refine {| cmp := fun a b => cmp (key a) (key b) |}.
  - intros a b. rewrite cmp_eq. split; [apply inj | by intros ->].
  - intros a b. apply cmp_antisym.
  - intros a b c. apply cmp_trans.
Defined.

Definition lex_cmp (c d : comparison) : comparison :=
  match c with Eq => d | _ => c end.

#[export] Instance prod_ord {A B} `{TotalOrd A, TotalOrd B} : TotalOrd (A * B).
Proof.
  refine {| cmp := fun p q => lex_cmp (cmp p.1 q.1) (cmp p.2 q.2) |}.
  - intros [a b] [a' b']. cbn. destruct (cmp a a') eqn:E; cbn.
    + apply cmp_eq in E as ->. rewrite cmp_eq. split; congruence.
    + split; [done | intros [= -> ->]]. by rewrite cmp_refl in E.
    + split; [done | intros [= -> ->]]. by rewrite cmp_refl in E.
  - intros [a b] [a' b']. cbn. rewrite (cmp_antisym a a'), (cmp_antisym b b').
    by destruct (cmp a a').
  - intros [a b] [a' b'] [a2 b2]. cbn.
    destruct (cmp a a') eqn:E1, (cmp a' a2) eqn:E2; cbn; try discriminate.
    + apply cmp_eq in E1 as ->. apply cmp_eq in E2 as ->. rewrite cmp_refl. apply cmp_trans.
    + apply cmp_eq in E1 as ->. by rewrite E2.
    + apply cmp_eq in E2 as ->. by rewrite E1.
    + by rewrite (cmp_trans _ _ _ E1 E2).
Defined.

Fixpoint list_cmp {A} `{TotalOrd A} (l k : list A) : comparison :=
  match l, k with
  | [], [] => Eq
  | [], _ :: _ => Lt
  | _ :: _, [] => Gt
  | x :: l, y :: k => lex_cmp (cmp x y) (list_cmp l k)
  end.

#[export] Instance list_ord {A} `{TotalOrd A} : TotalOrd (list A).
Proof.
  refine {| cmp := list_cmp |}.
  - induction a as [| x l IH]; destruct b as [| y k]; cbn; try done.
    destruct (cmp x y) eqn:E; cbn.
    + apply cmp_eq in E as ->. rewrite IH. split; congruence.
    + split; [done | intros [= -> ->]]. by rewrite cmp_refl in E.
    + split; [done | intros [= -> ->]]. by rewrite cmp_refl in E.
  - induction a as [| x l IH]; destruct b as [| y k]; cbn; try done.
    rewrite (cmp_antisym x y), IH. by destruct (cmp x y).
  - induction a as [| x l IH]; destruct b as [| y k]; destruct c as [| z m]; cbn; try done.
    destruct (cmp x y) eqn:E1, (cmp y z) eqn:E2; cbn; try discriminate.
    + apply cmp_eq in E1 as ->. apply cmp_eq in E2 as ->. rewrite cmp_refl. apply IH.
    + apply cmp_eq in E1 as ->. by rewrite E2.
    + apply cmp_eq in E2 as ->. by rewrite E1.
    + by rewrite (cmp_trans _ _ _ E1 E2).
Defined.

(** [str] compares by bytes. *)
#[export] Instance string_ord : TotalOrd string := ord_by as_bytes as_bytes_inj.

(** ** Sets *)

Section BTreeSet.
Context {K : Type} `{TotalOrd K}.

Fixpoint ordered (l : list K) : bool :=
  match l with
  | x :: ((y :: _) as l') => match cmp x y with Lt => ordered l' | _ => false end
  | _ => true
  end.

(** [BTreeSet::insert] *)
Fixpoint set_insert (k : K) (l : list K) : list K :=
  match l with
  | [] => [k]
  | x :: l' =>
      match cmp k x with
      | Lt => k :: l
      | Eq => l
      | Gt => x :: set_insert k l'
      end
  end.

(** [BTreeSet::union] and [BTreeSet::from] *)
Definition set_union (l1 l2 : list K) : list K := foldr set_insert l1 l2.
Definition set_from (l : list K) : list K := foldr set_insert [] l.

Definition below (x : K) (l : list K) : Prop := Forall (fun y => cmp x y = Lt) l.

Lemma ordered_cons x l : ordered (x :: l) = true <-> below x l /\ ordered l = true.
Proof.
  revert x. induction l as [| y l IH]; intros x.
  { cbn. split; [by repeat constructor | done]. }
  change (ordered (x :: y :: l)) with (match cmp x y with Lt => ordered (y :: l) | _ => false end).
  destruct (cmp x y) eqn:E.
  - split; [done |]. intros [Hb _]. apply Forall_cons in Hb as [Hb _]. congruence.
  - rewrite (IH y). split; [intros [Hb Ho] | intros [_ [Hb Ho]]; done].
    split; [| done]. apply Forall_cons. split; [done |].
    eapply Forall_impl; [exact Hb |]. intros z. by apply cmp_trans.
  - split; [done |]. intros [Hb _]. apply Forall_cons in Hb as [Hb _]. congruence.
Qed.

Lemma elem_of_set_insert k x l : x ∈ set_insert k l <-> x = k \/ x ∈ l.
Proof.
  induction l as [| y l IH]; cbn; [by rewrite list_elem_of_singleton, elem_of_nil; intuition |].
  destruct (cmp k y) eqn:E; rewrite ?elem_of_cons, ?IH; try (by intuition).
  apply cmp_eq in E as ->. intuition.
Qed.

Lemma elem_of_set_union x l1 l2 : x ∈ set_union l1 l2 <-> x ∈ l1 \/ x ∈ l2.
Proof.
  induction l2 as [| y l2 IH]; cbn; [rewrite elem_of_nil; tauto |].
  rewrite elem_of_set_insert, IH, elem_of_cons. tauto.
Qed.

Lemma set_insert_below x k l : cmp x k = Lt -> below x l -> below x (set_insert k l).
Proof.
  unfold below. rewrite !Forall_forall. intros E Hb y Hy.
  apply elem_of_set_insert in Hy as [-> | Hy]; auto.
Qed.

Lemma set_insert_ordered k l : ordered l = true -> ordered (set_insert k l) = true.
Proof.
  induction l as [| y l IH]; intros Ho; [done |].
  cbn [set_insert]. destruct (cmp k y) eqn:E; [done | by cbn [ordered]; rewrite E |].
  apply ordered_cons in Ho as [Hb Ho]. apply ordered_cons. split; [| by apply IH].
  apply set_insert_below; [by apply cmp_gt | done].
Qed.

Lemma set_union_ordered l1 l2 : ordered l1 = true -> ordered (set_union l1 l2) = true.
Proof. intros Ho. induction l2 as [| y l2 IH]; [done |]. by apply set_insert_ordered. Qed.

End BTreeSet.

#[global] Arguments set_from : simpl never.

(** ** Maps *)

(** [BTreeMap::get] *)
Fixpoint assoc {A} (name : string) (l : list (string * A)) : option A :=
  match l with
  | [] => None
  | (n, a) :: l => if String.eqb name n then Some a else assoc name l
  end.

(** [BTreeMap::insert] *)
Fixpoint map_insert {A} (name : string) (a : A) (l : list (string * A)) : list (string * A) :=
  match l with
  | [] => [(name, a)]
  | (n, b) :: l' =>
      match cmp name n with
      | Lt => (name, a) :: l
      | Eq => (n, a) :: l'
      | Gt => (n, b) :: map_insert name a l'
      end
  end.

(** [BTreeMap::append], [BTreeMap::extend]: the entries of the second map win. *)
Definition map_append {A} (l1 l2 : list (string * A)) : list (string * A) :=
  foldl (fun m e => map_insert e.1 e.2 m) l1 l2.

(** [BTreeMap::remove], which returns the removed value *)
Fixpoint map_remove {A} (name : string) (l : list (string * A)) : option (A * list (string * A)) :=
  match l with
  | [] => None
  | (n, a) :: l =>
      if String.eqb name n then Some (a, l)
      else match map_remove name l with
           | Some (b, l') => Some (b, (n, a) :: l')
           | None => None
           end
  end.

Section BTreeMap.
Context {A : Type}.
Implicit Types (m : list (string * A)).

Lemma cmp_string_eqb (a b : string) :
  String.eqb a b = match cmp a b with Eq => true | _ => false end.
Proof.
  destruct (String.eqb_spec a b) as [-> | Hn]; [by rewrite cmp_refl |].
  destruct (cmp a b) eqn:E; [| done..]. by apply cmp_eq in E.
Qed.

Lemma map_insert_assoc name n a m :
  assoc name (map_insert n a m) = if String.eqb name n then Some a else assoc name m.
Proof.
  induction m as [| [k b] m IH]; cbn [map_insert]; [done |].
  destruct (cmp n k) eqn:E; cbn [assoc]; [| done | rewrite IH].
  - apply cmp_eq in E as ->. by destruct (String.eqb name k).
  - destruct (String.eqb_spec name n) as [-> | ?]; [| done].
    by rewrite cmp_string_eqb, E.
Qed.

Lemma map_insert_keys name a m : (map_insert name a m).*1 = set_insert name m.*1.
Proof.
  induction m as [| [k b] m IH]; cbn; [done |].
  destruct (cmp name k); cbn; [done.. | by rewrite IH].
Qed.

Lemma map_insert_ordered name a m :
  ordered m.*1 = true -> ordered (map_insert name a m).*1 = true.
Proof. rewrite map_insert_keys. apply set_insert_ordered. Qed.

Lemma map_append_ordered m1 m2 : ordered m1.*1 = true -> ordered (map_append m1 m2).*1 = true.
Proof.
  revert m1. induction m2 as [| [n a] m2 IH]; intros m1 Ho; [done |].
  by apply IH, map_insert_ordered.
Qed.

Lemma assoc_elem_of name a m : assoc name m = Some a -> (name, a) ∈ m.
Proof.
  induction m as [| [n b] m IH]; cbn; [done |].
  destruct (String.eqb_spec name n) as [-> | ?]; [intros [= ->]; by left | right; auto].
Qed.

Lemma assoc_None name m : assoc name m = None <-> name ∉ m.*1.
Proof.
  induction m as [| [n b] m IH]; cbn; [by rewrite elem_of_nil; tauto |].
  rewrite elem_of_cons. destruct (String.eqb_spec name n) as [-> | ?]; [split; [done | tauto] |].
  rewrite IH. tauto.
Qed.

Lemma assoc_below name m : below name m.*1 -> assoc name m = None.
Proof.
  intros Hb. apply assoc_None. intros Hin. unfold below in Hb. rewrite Forall_forall in Hb.
  specialize (Hb _ Hin). by rewrite cmp_refl in Hb.
Qed.

Lemma elem_of_assoc name a m : ordered m.*1 = true -> (name, a) ∈ m -> assoc name m = Some a.
Proof.
  induction m as [| [n b] m IH]; [by intros _ ?%elem_of_nil |].
  rewrite fmap_cons, ordered_cons. intros [Hb Ho]. rewrite elem_of_cons. cbn.
  intros [[= -> ->] | Hin]; [by rewrite String.eqb_refl |].
  destruct (String.eqb_spec name n) as [-> | ?]; [| by apply IH].
  apply assoc_below, assoc_None in Hb. destruct Hb.
  apply list_elem_of_fmap. by exists (n, a).
Qed.

Lemma ordered_NoDup (l : list string) : ordered l = true -> NoDup l.
Proof.
  induction l as [| x l IH]; [constructor |]. rewrite ordered_cons. intros [Hb Ho].
  constructor; [| auto]. intros Hin. unfold below in Hb. rewrite Forall_forall in Hb.
  specialize (Hb _ Hin). by rewrite cmp_refl in Hb.
Qed.

(** Two ordered lists with the same elements are equal. *)
Lemma ordered_perm (l k : list string) :
  ordered l = true -> ordered k = true -> l ≡ₚ k -> l = k.
Proof.
  revert k. induction l as [| x l IH]; intros k Hl Hk Hp.
  { symmetry in Hp. by apply Permutation_nil_r in Hp. }
  destruct k as [| y k]; [by apply Permutation_nil_r in Hp |].
  apply ordered_cons in Hl as [Hxl Hl], Hk as [Hyk Hk]. unfold below in *.
  rewrite Forall_forall in Hxl, Hyk.
  assert (x = y) as ->.
  { assert (x ∈ y :: k) as [? | Hx]%elem_of_cons by (rewrite <- Hp; by left); [done |].
    assert (y ∈ x :: l) as [? | Hy]%elem_of_cons by (rewrite Hp; by left); [done |].
    specialize (Hyk _ Hx). rewrite cmp_antisym, (Hxl _ Hy) in Hyk. done. }
  f_equal. apply IH; [done | done | by apply Permutation_cons_inv in Hp].
Qed.

(** Inserting above every key appends. *)
Lemma map_insert_snoc name a m :
  Forall (fun k => cmp k name = Lt) m.*1 -> map_insert name a m = m ++ [(name, a)].
Proof.
  induction m as [| [n b] m IH]; [done |]. rewrite fmap_cons, Forall_cons. cbn.
  intros [E Hf]. rewrite (cmp_antisym n name), E. cbn. by rewrite IH.
Qed.

(** Maps with equal lookups are equal. *)
Lemma ordered_ext m1 m2 :
  ordered m1.*1 = true -> ordered m2.*1 = true ->
  (forall name, assoc name m1 = assoc name m2) -> m1 = m2.
Proof.
  revert m2. induction m1 as [| [n a] m1 IH]; intros [| [k b] m2] H1 H2 He; [done | | |].
  - specialize (He k). cbn in He. by rewrite String.eqb_refl in He.
  - specialize (He n). cbn in He. by rewrite String.eqb_refl in He.
  - rewrite fmap_cons, ordered_cons in H1, H2. destruct H1 as [Hb1 H1], H2 as [Hb2 H2].
    assert (n = k) as ->.
    { pose proof (He n) as Hn. pose proof (He k) as Hk. cbn in Hn, Hk, Hb1, Hb2.
      rewrite String.eqb_refl in Hn, Hk.
      destruct (String.eqb_spec n k) as [| Hne]; [done |]. exfalso.
      destruct (cmp n k) eqn:E; [by apply cmp_eq in E | |].
      - assert (below n m2.*1) as Hb by (eapply Forall_impl; [exact Hb2 |]; intros z; by apply cmp_trans).
        by rewrite (assoc_below _ _ Hb) in Hn.
      - apply cmp_gt in E.
        assert (below k m1.*1) as Hb by (eapply Forall_impl; [exact Hb1 |]; intros z; by apply cmp_trans).
        rewrite (assoc_below _ _ Hb) in Hk. destruct (String.eqb_spec k n); congruence. }
    pose proof (He k) as Hk. cbn in Hk. rewrite String.eqb_refl in Hk. injection Hk as ->.
    f_equal. apply IH; [done.. |]. intros name. specialize (He name). cbn in He.
    destruct (String.eqb_spec name k) as [E |]; [| done].
    rewrite E. by rewrite !assoc_below.
Qed.

End BTreeMap.

Lemma assoc_fmap {A B} (f : A -> B) name (m : list (string * A)) :
  assoc name (prod_map id f <$> m) = f <$> assoc name m.
Proof. induction m as [| [n a] m IH]; cbn; [done |]. by destruct (String.eqb name n). Qed.

Lemma keys_fmap {A B} (f : A -> B) (m : list (string * A)) : (prod_map id f <$> m).*1 = m.*1.
Proof. rewrite <- list_fmap_compose. by apply list_fmap_ext. Qed.
