(* ===== verification/Epochs.v ===== *)
(** * Epochs, emission schedules and epoch lists

    [stacks-common/src/types/mod.rs]: the [StacksEpochId] enumeration and its
    feature gates, the coinbase and SIP-031 emission schedules, and the
    [EpochList] that maps burnchain heights to epochs. *)

From S2P Require Import Prelude.

(** ** Epoch identifiers *)

Inductive StacksEpochId :=
| Epoch10 | Epoch20 | Epoch2_05 | Epoch21 | Epoch22 | Epoch23 | Epoch24
| Epoch25 | Epoch30 | Epoch31 | Epoch32 | Epoch33 | Epoch34 | Epoch40
| Epoch41.

#[export] Instance StacksEpochId_eq_dec : EqDecision StacksEpochId.
Proof. solve_decision. Defined.

(** The discriminants of the [repr(u32)] enum, which the derived [Ord]
    compares. *)
Definition epoch_as_u32 (e : StacksEpochId) : Z :=
  match e with
  | Epoch10 => 0x01000
  | Epoch20 => 0x02000
  | Epoch2_05 => 0x02005
  | Epoch21 => 0x0200a
  | Epoch22 => 0x0200f
  | Epoch23 => 0x02014
  | Epoch24 => 0x02019
  | Epoch25 => 0x0201a
  | Epoch30 => 0x03000
  | Epoch31 => 0x03001
  | Epoch32 => 0x03002
  | Epoch33 => 0x03003
  | Epoch34 => 0x03004
  | Epoch40 => 0x04000
  | Epoch41 => 0x04001
  end.

Definition ALL_EPOCHS : list StacksEpochId :=
  [Epoch10; Epoch20; Epoch2_05; Epoch21; Epoch22; Epoch23; Epoch24; Epoch25;
   Epoch30; Epoch31; Epoch32; Epoch33; Epoch34; Epoch40; Epoch41].

Definition epoch_display (e : StacksEpochId) : string :=
  match e with
  | Epoch10 => "1.0" | Epoch20 => "2.0" | Epoch2_05 => "2.05"
  | Epoch21 => "2.1" | Epoch22 => "2.2" | Epoch23 => "2.3"
  | Epoch24 => "2.4" | Epoch25 => "2.5" | Epoch30 => "3.0"
  | Epoch31 => "3.1" | Epoch32 => "3.2" | Epoch33 => "3.3"
  | Epoch34 => "3.4" | Epoch40 => "4.0" | Epoch41 => "4.1"
  end.

(** [FromStr] and [TryFrom<u32>]: the match arms in order. *)
Definition epoch_from_str (s : string) : result string StacksEpochId :=
  match list_find (fun e => epoch_display e = s) ALL_EPOCHS with
  | Some (_, e) => Ok e
  | None => Err "Invalid epoch string"%string
  end.

Definition epoch_try_from (v : Z) : result string StacksEpochId :=
  match list_find (fun e => epoch_as_u32 e = v) ALL_EPOCHS with
  | Some (_, e) => Ok e
  | None => Err "Invalid epoch"%string
  end.

Definition epoch_leb (a b : StacksEpochId) : bool :=
  epoch_as_u32 a <=? epoch_as_u32 b.
Definition epoch_ltb (a b : StacksEpochId) : bool :=
  epoch_as_u32 a <? epoch_as_u32 b.

Declare Scope epoch_scope.
Delimit Scope epoch_scope with epoch.
Notation "a >= b" := (epoch_leb b a) (only parsing) : epoch_scope.
Notation "a < b" := (epoch_ltb a b) (only parsing) : epoch_scope.

(** ** Feature gates *)

Section Gates.
Local Open Scope epoch_scope.

Definition analysis_memory (e : StacksEpochId) : bool := e >= Epoch25.
Definition value_sanitizing (e : StacksEpochId) : bool := e >= Epoch24.
Definition sanitize_in_function_invocation (e : StacksEpochId) : bool := e >= Epoch40.
Definition fixes_implicit_cast_list_bound (e : StacksEpochId) : bool := e >= Epoch41.
Definition enforces_exact_typed_tuple_field_set (e : StacksEpochId) : bool := e >= Epoch41.
Definition enforces_contract_name_length_limit (e : StacksEpochId) : bool := e >= Epoch41.
Definition checks_concat_result_size (e : StacksEpochId) : bool := e >= Epoch41.
Definition supports_specific_budget_extends (e : StacksEpochId) : bool := e >= Epoch33.
Definition enforces_strict_signature_order (e : StacksEpochId) : bool := e >= Epoch40.
Definition allows_pox_punishment (e : StacksEpochId) : bool := e >= Epoch30.
Definition block_commits_to_parent (e : StacksEpochId) : bool := e >= Epoch30.
Definition allows_missing_vtxindex_zero_commit_parent (e : StacksEpochId) : bool :=
  (e >= Epoch30) && (e < Epoch41).
Definition supports_pox_missed_slot_unlocks (e : StacksEpochId) : bool := e < Epoch25.
Definition treats_unexpected_serialization_as_none (e : StacksEpochId) : bool := e >= Epoch34.
Definition rejects_supertype_too_large (e : StacksEpochId) : bool := e < Epoch34.
Definition rejects_parse_depth_errors (e : StacksEpochId) : bool := e < Epoch34.
Definition uses_pre_sanitized_variables (e : StacksEpochId) : bool := e >= Epoch34.
Definition mining_commitment_frequency (e : StacksEpochId) : Z :=
  if e >= Epoch30 then 3 else 0.
Definition uses_nakamoto_blocks (e : StacksEpochId) : bool := e >= Epoch30.
Definition clarity_uses_tip_burn_block (e : StacksEpochId) : bool := e >= Epoch30.
Definition uses_nakamoto_reward_set (e : StacksEpochId)
    (cur_reward_cycle first_epoch30_reward_cycle : Z) : bool :=
  (e >= Epoch30) && (first_epoch30_reward_cycle <? cur_reward_cycle)%Z.
Definition supports_sip040_post_conditions (e : StacksEpochId) : bool := e >= Epoch34.
Definition starts_reward_cycle_at_0 (e : StacksEpochId) : bool := e >= Epoch40.
Definition includes_sip_031 (e : StacksEpochId) : bool := e >= Epoch32.
Definition handles_with_stx_combined_check (e : StacksEpochId) : bool := e >= Epoch34.
Definition supports_staking_post_conditions (e : StacksEpochId) : bool := e >= Epoch40.
Definition sums_stacking_assetmap (e : StacksEpochId) : bool := e >= Epoch40.
Definition supports_at_block (e : StacksEpochId) : bool := e < Epoch34.
Definition allows_tx_signatures_with_high_s (e : StacksEpochId) : bool := e < Epoch40.
Definition fixes_map_off_by_one (e : StacksEpochId) : bool := e >= Epoch40.
Definition uses_marfed_block_time (e : StacksEpochId) : bool := e >= Epoch33.
Definition uses_arg_size_for_cost (e : StacksEpochId) : bool := e >= Epoch33.
Definition limits_parameter_and_method_count (e : StacksEpochId) : bool := e >= Epoch33.
Definition meters_in_contract_trait_entry (e : StacksEpochId) : bool := e >= Epoch40.
Definition rejects_versioned_smart_contracts (e : StacksEpochId) : bool := e >= Epoch41.
Definition allows_shadowable_reserved_names (e : StacksEpochId) : bool := e >= Epoch41.
Definition fixes_replace_at_element_arity (e : StacksEpochId) : bool := e >= Epoch41.
Definition requires_matching_tuple_fields_in_analysis
    (e : StacksEpochId) : bool := e >= Epoch41.
Definition requires_fold_result_to_admit_initial_value
    (e : StacksEpochId) : bool := e >= Epoch41.
Definition checks_exact_argument_count (e : StacksEpochId) : bool := e >= Epoch41.
Definition checks_with_all_assets_in_restrict_assets
    (e : StacksEpochId) : bool := e >= Epoch41.
Definition charges_callable_type_size (e : StacksEpochId) : bool := e >= Epoch41.
Definition supports_local_trait_lookup (e : StacksEpochId) : bool := e >= Epoch41.
Definition supports_call_with_constant (e : StacksEpochId) : bool := e >= Epoch34.
Definition fixes_block_size_off_by_one (e : StacksEpochId) : bool := e >= Epoch41.
Definition surfaces_trait_compliance_cost_errors
    (e : StacksEpochId) : bool := e >= Epoch40.
Definition checks_dependency_of_contract_call_target
    (e : StacksEpochId) : bool := e >= Epoch41.
Definition clarity_runtime_checks_global_constants_before_local_vars
    (e : StacksEpochId) : bool := e >= Epoch41.
Definition performs_read_only_checks_before_type_checks (e : StacksEpochId) : bool :=
  e < Epoch41.
End Gates.

(** ** Coinbase schedule *)

Definition MICROSTACKS_PER_STACKS : Z := 1000000.
Definition BITCOIN_MAINNET_GENESIS_BURN_HEIGHT : Z := 666050.
Definition BITCOIN_MAINNET_STACKS_40_BURN_HEIGHT : Z := 960230.
Definition BITCOIN_TESTNET_GENESIS_BURN_HEIGHT : Z := 2000000.
Definition BITCOIN_TESTNET_STACKS_40_BURN_HEIGHT : Z := 40000000.

Record CoinbaseInterval := mkCoinbaseInterval {
  coinbase : Z;
  effective_start_height : Z;
}.

Definition COINBASE_INTERVALS_MAINNET : list CoinbaseInterval :=
  [ mkCoinbaseInterval (1000 * MICROSTACKS_PER_STACKS) 0;
    mkCoinbaseInterval (500 * MICROSTACKS_PER_STACKS) 278950;
    mkCoinbaseInterval (1000 * MICROSTACKS_PER_STACKS)
      (BITCOIN_MAINNET_STACKS_40_BURN_HEIGHT - BITCOIN_MAINNET_GENESIS_BURN_HEIGHT) ].

Definition COINBASE_INTERVALS_TESTNET : list CoinbaseInterval :=
  [ mkCoinbaseInterval (1000 * MICROSTACKS_PER_STACKS) 0;
    mkCoinbaseInterval (500 * MICROSTACKS_PER_STACKS) 77777;
    mkCoinbaseInterval (250 * MICROSTACKS_PER_STACKS) (77777 * 7);
    mkCoinbaseInterval (125 * MICROSTACKS_PER_STACKS) (77777 * 14);
    mkCoinbaseInterval (625 * MICROSTACKS_PER_STACKS / 10) (77777 * 21);
    mkCoinbaseInterval (1000 * MICROSTACKS_PER_STACKS)
      (BITCOIN_TESTNET_STACKS_40_BURN_HEIGHT - BITCOIN_TESTNET_GENESIS_BURN_HEIGHT) ].

(** The [for] loop over adjacent pairs. *)
Fixpoint scan_intervals (h : Z) (intervals : list CoinbaseInterval) : option Z :=
  match intervals with
  | x :: (y :: _) as rest =>
      if (effective_start_height x <=? h) && (h <? effective_start_height y)
      then Some (coinbase x)
      else scan_intervals h rest
  | _ => None
  end.

Definition get_coinbase_at_effective_height
    (intervals : list CoinbaseInterval) (h : Z) : Z :=
  match intervals with
  | [] => 0
  | [x] => if effective_start_height x <=? h then coinbase x else 0
  | x :: _ =>
      match scan_intervals h intervals with
      | Some c => c
      | None => coinbase (List.last intervals x)
      end
  end.

Fixpoint check_order_from (ht : Z) (rest : list CoinbaseInterval) : bool :=
  match rest with
  | [] => true
  | x :: rest' =>
      if effective_start_height x <? ht then false
      else check_order_from (effective_start_height x) rest'
  end.

Definition check_order (intervals : list CoinbaseInterval) : bool :=
  match intervals with
  | [] | [_] => true
  | x :: rest => check_order_from (effective_start_height x) rest
  end.

Definition coinbase_reward_pre_sip029 (first_burnchain_height current_burnchain_height : Z) : Z :=
  let effective_ht := u64_saturating_sub current_burnchain_height first_burnchain_height in
  let blocks_per_year := 52596 in
  let stx_reward :=
    if effective_ht <? blocks_per_year * 4 then 1000
    else if effective_ht <? blocks_per_year * 8 then 500
    else if effective_ht <? blocks_per_year * 12 then 250
    else 125 in
  stx_reward * MICROSTACKS_PER_STACKS.

Definition get_coinbase_intervals (mainnet : bool) : list CoinbaseInterval :=
  if mainnet then COINBASE_INTERVALS_MAINNET else COINBASE_INTERVALS_TESTNET.

Definition coinbase_reward_sip029
    (mainnet : bool) (first_burnchain_height current_burnchain_height : Z) : Z :=
  let effective_ht := u64_saturating_sub current_burnchain_height first_burnchain_height in
  get_coinbase_at_effective_height (get_coinbase_intervals mainnet) effective_ht.

Definition coinbase_reward (e : StacksEpochId)
    (mainnet : bool) (first_burnchain_height current_burnchain_height : Z) : Z :=
  if decide (e = Epoch10) then 0
  else if epoch_ltb e Epoch31 then
    coinbase_reward_pre_sip029 first_burnchain_height current_burnchain_height
  else coinbase_reward_sip029 mainnet first_burnchain_height current_burnchain_height.

(** ** SIP-031 schedule *)

Record SIP031EmissionInterval := mkSIP031EmissionInterval {
  sip031_amount : Z;
  sip031_start_height : Z;
}.

Definition SIP031_EMISSION_INTERVALS_MAINNET : list SIP031EmissionInterval :=
  [ mkSIP031EmissionInterval 0 1170540;
    mkSIP031EmissionInterval (1155 * MICROSTACKS_PER_STACKS) 1117980;
    mkSIP031EmissionInterval (1305 * MICROSTACKS_PER_STACKS) 1065420;
    mkSIP031EmissionInterval (1705 * MICROSTACKS_PER_STACKS) 1012860;
    mkSIP031EmissionInterval (1140 * MICROSTACKS_PER_STACKS) 960300;
    mkSIP031EmissionInterval (475 * MICROSTACKS_PER_STACKS) 907740 ].

Definition SIP031_EMISSION_INTERVALS_TESTNET : list SIP031EmissionInterval :=
  [ mkSIP031EmissionInterval 0 (71525 + 360 * 6);
    mkSIP031EmissionInterval 5000 (71525 + 360 * 5);
    mkSIP031EmissionInterval 4000 (71525 + 360 * 4);
    mkSIP031EmissionInterval 3000 (71525 + 360 * 3);
    mkSIP031EmissionInterval 2000 (71525 + 360 * 2);
    mkSIP031EmissionInterval 1000 (71525 + 360) ].

Definition get_sip_031_emission_schedule (mainnet : bool) : list SIP031EmissionInterval :=
  if mainnet then SIP031_EMISSION_INTERVALS_MAINNET
  else SIP031_EMISSION_INTERVALS_TESTNET.

Fixpoint scan_emission (h : Z) (intervals : list SIP031EmissionInterval) : Z :=
  match intervals with
  | [] => 0
  | x :: rest => if sip031_start_height x <=? h then sip031_amount x else scan_emission h rest
  end.

Definition get_sip_031_emission_at_height (burn_height : Z) (mainnet : bool) : Z :=
  scan_emission burn_height (get_sip_031_emission_schedule mainnet).

Fixpoint check_inversed_order_from (ht : Z) (rest : list SIP031EmissionInterval) : bool :=
  match rest with
  | [] => true
  | x :: rest' =>
      if ht <? sip031_start_height x then false
      else check_inversed_order_from (sip031_start_height x) rest'
  end.

Definition check_inversed_order (intervals : list SIP031EmissionInterval) : bool :=
  match intervals with
  | [] => true
  | x :: rest => check_inversed_order_from (sip031_start_height x) rest
  end.

(** ** Epoch lists *)

Definition STACKS_EPOCH_MAX : Z := 2 ^ 63 - 1.

Record StacksEpoch (L : Type) := mkStacksEpoch {
  epoch_id : StacksEpochId;
  start_height : Z;
  end_height : Z;
  block_limit : L;
  network_epoch : Z;
}.
Arguments mkStacksEpoch {L}.
Arguments epoch_id {L}.
Arguments start_height {L}.
Arguments end_height {L}.
Arguments block_limit {L}.
Arguments network_epoch {L}.

Section EpochList.
Context {L : Type}.
Implicit Types (epochs : list (StacksEpoch L)) (epoch : StacksEpoch L).

Definition epoch_covers (h : Z) epoch : bool :=
  (start_height epoch <=? h) && (h <? end_height epoch).

Fixpoint find_epoch epochs (h : Z) : option nat :=
  match epochs with
  | [] => None
  | e :: rest => if epoch_covers h e then Some 0%nat else S <$> find_epoch rest h
  end.

Fixpoint find_epoch_by_id epochs (id : StacksEpochId) : option nat :=
  match epochs with
  | [] => None
  | e :: rest =>
      if decide (epoch_id e = id) then Some 0%nat else S <$> find_epoch_by_id rest id
  end.

(** [EpochList::get] *)
Definition epoch_list_get epochs (id : StacksEpochId) : option (StacksEpoch L) :=
  i ← find_epoch_by_id epochs id; epochs !! i.

Definition epoch_id_at_height epochs (h : Z) : option StacksEpochId :=
  i ← find_epoch epochs h; e ← epochs !! i; Some (epoch_id e).

Definition epoch_at_height epochs (h : Z) : option (StacksEpoch L) :=
  i ← find_epoch epochs h; epochs !! i.

Definition set_end_height (h : Z) epoch : StacksEpoch L :=
  mkStacksEpoch (epoch_id epoch) (start_height epoch) h
    (block_limit epoch) (network_epoch epoch).

Definition set_last_end epochs (h : Z) : list (StacksEpoch L) :=
  match rev epochs with
  | [] => epochs
  | e :: before => rev (set_end_height h e :: before)
  end.

Definition truncate_after epochs (id : StacksEpochId) : list (StacksEpoch L) :=
  let epochs :=
    match find_epoch_by_id epochs id with
    | Some i => take (i + 1) epochs
    | None => epochs
    end in
  set_last_end epochs STACKS_EPOCH_MAX.

(** [push] panics when the epochs are not pushed in order. *)
Definition epoch_list_push epoch : M (list (StacksEpoch L)) Empty_set unit := fun epochs =>
  match last epochs with
  | Some last =>
      if (start_height epoch =? end_height last) && epoch_ltb (epoch_id last) (epoch_id epoch)
      then (Ok tt, epochs ++ [epoch])
      else (Panic, epochs)
  | None => (Ok tt, epochs ++ [epoch])
  end.

(** Consecutive epochs share a boundary, have increasing identifiers and are
    not empty: the shape that [push] maintains for non-empty epochs. *)
Inductive contiguous : list (StacksEpoch L) -> Prop :=
| contiguous_nil : contiguous []
| contiguous_one e : start_height e <= end_height e -> contiguous [e]
| contiguous_cons e f rest :
    start_height e <= end_height e ->
    end_height e = start_height f ->
    epoch_ltb (epoch_id e) (epoch_id f) = true ->
    contiguous (f :: rest) ->
    contiguous (e :: f :: rest).
End EpochList.

(** ** Facts about the epoch enumeration *)

Lemma ALL_EPOCHS_complete e : e ∈ ALL_EPOCHS.
Proof. destruct e; unfold ALL_EPOCHS; set_solver. Qed.

(** The numbering and the rendering of epochs are read back exactly: a
    number is accepted as an epoch only if it is that epoch's number, a string
    only if it is that epoch's rendering, and every epoch's number and rendering
    are accepted. *)
Theorem epoch_round_trips e :
  (forall v, epoch_try_from v = Ok e <-> v = epoch_as_u32 e) /\
  (forall s, epoch_from_str s = Ok e <-> s = epoch_display e).
Proof.
  unfold epoch_try_from, epoch_from_str.
  split; intros x; (split; [| intros ->; by destruct e]);
    destruct (list_find _ _) as [[i e'] |] eqn:E; intros [= ->];
    apply list_find_Some in E as (_ & ? & _); done.
Qed.

Lemma epoch_leb_spec a b : epoch_leb a b = true <-> epoch_as_u32 a <= epoch_as_u32 b.
Proof. apply Z.leb_le. Qed.

Lemma epoch_leb_trans a b c :
  epoch_leb a b = true -> epoch_leb b c = true -> epoch_leb a c = true.
Proof. rewrite !epoch_leb_spec. lia. Qed.

(** ** Facts about the schedules *)

Lemma check_order_cons x y rest :
  check_order (x :: y :: rest) = true <->
  effective_start_height x <= effective_start_height y /\
  check_order (y :: rest) = true.
Proof.
  cbn. destruct (Z.ltb_spec (effective_start_height y) (effective_start_height x)).
  - split; [done | lia].
  - destruct rest; cbn; split; naive_solver lia.
Qed.

(** Reference definition: the last interval that has started. *)
Definition started (h : Z) (x : CoinbaseInterval) : Prop :=
  effective_start_height x <= h.
#[export] Instance started_dec h x : Decision (started h x) := Z.le_dec _ _.

Lemma check_order_later_not_started h x rest :
  check_order (x :: rest) = true -> h < effective_start_height x ->
  filter (started h) (x :: rest) = [].
Proof.
  revert x. induction rest as [| y rest IH]; intros x Hord Hlt.
  - rewrite filter_cons_False; [done |]. unfold started. lia.
  - apply check_order_cons in Hord as [Hxy Hord].
    rewrite filter_cons_False; [| unfold started; lia].
    apply IH; [done | lia].
Qed.

Lemma scan_intervals_spec h x rest d :
  check_order (x :: rest) = true -> effective_start_height x <= h ->
  default (coinbase (List.last (x :: rest) d)) (scan_intervals h (x :: rest)) =
  coinbase (List.last (filter (started h) (x :: rest)) d).
Proof.
  revert x. induction rest as [| y rest IH]; intros x Hord Hx.
  - rewrite filter_cons_True; [done | exact Hx].
  - apply check_order_cons in Hord as [Hxy Hord].
    rewrite filter_cons_True; [| exact Hx]. cbn [scan_intervals].
    destruct (Z.ltb_spec h (effective_start_height y)) as [Hlt | Hge].
    + rewrite (proj2 (Z.leb_le _ _) Hx). cbn [andb default].
      by rewrite check_order_later_not_started.
    + rewrite andb_false_r. 
      specialize (IH y Hord Hge). rewrite filter_cons_True in IH |- *; [| done..].
      exact IH.
Qed.

Lemma get_coinbase_scan x rest h :
  effective_start_height x <= h ->
  get_coinbase_at_effective_height (x :: rest) h =
  default (coinbase (List.last (x :: rest) x)) (scan_intervals h (x :: rest)).
Proof.
  intros Hx. unfold get_coinbase_at_effective_height. destruct rest as [| y rest].
  - by rewrite (proj2 (Z.leb_le _ _) Hx).
  - by destruct (scan_intervals h _).
Qed.

(** For a schedule that passes [check_order] and whose first interval has
    started, [get_coinbase_at_effective_height] returns the coinbase of the
    last interval that has started at that height. *)
Theorem get_coinbase_last_started x rest h :
  check_order (x :: rest) = true ->
  effective_start_height x <= h ->
  get_coinbase_at_effective_height (x :: rest) h =
  coinbase (List.last (filter (started h) (x :: rest)) x).
Proof. intros. by rewrite get_coinbase_scan, scan_intervals_spec. Qed.

Lemma get_coinbase_last_started_witness :
  get_coinbase_at_effective_height COINBASE_INTERVALS_MAINNET 278950 =
  500 * MICROSTACKS_PER_STACKS.
Proof.
  unfold COINBASE_INTERVALS_MAINNET.
  rewrite get_coinbase_last_started; vm_compute; done || discriminate.
Defined.

(** Before the first interval of a schedule with at least two intervals the
    lookup falls through to the last interval, while with one interval it
    returns 0: the fall-through is not "in the last interval". *)
Theorem get_coinbase_before_first x y rest h :
  check_order (x :: y :: rest) = true ->
  h < effective_start_height x ->
  get_coinbase_at_effective_height (x :: y :: rest) h =
    coinbase (List.last (y :: rest) x) /\
  get_coinbase_at_effective_height [x] h = 0.
Proof.
  intros Hord Hlt. assert (Hscan : scan_intervals h (x :: y :: rest) = None).
  { revert x y Hord Hlt. induction rest as [| z rest IH]; intros x y Hord Hlt.
    - cbn. by rewrite (proj2 (Z.leb_gt _ _) Hlt).
    - apply check_order_cons in Hord as [Hxy Hord].
      change (scan_intervals h (x :: y :: z :: rest)) with
        (if (effective_start_height x <=? h) && (h <? effective_start_height y)
         then Some (coinbase x) else scan_intervals h (y :: z :: rest)).
      rewrite (proj2 (Z.leb_gt _ _) Hlt). cbn [andb]. apply IH; [done | lia]. }
  unfold get_coinbase_at_effective_height. rewrite Hscan. split; [done |].
  by rewrite (proj2 (Z.leb_gt _ _) Hlt).
Qed.

Lemma get_coinbase_before_first_witness :
  let x := mkCoinbaseInterval 7 10 in let y := mkCoinbaseInterval 3 20 in
  get_coinbase_at_effective_height  [x; y] 5 = 3 /\
  get_coinbase_at_effective_height [x] 5 = 0.
Proof.
  intros x y. apply (get_coinbase_before_first x y [] 5); done.
Defined.

(** In every epoch and at every pair of heights the coinbase is
    non-negative, at most 1000 STX, zero in epoch 1.0 and, on mainnet in the
    epochs from 3.1 on, exactly 1000 STX once the burn height planned for epoch
    4.0 is reached. *)
Theorem coinbase_reward_bounds e mainnet first cur :
  0 <= coinbase_reward e mainnet first cur <= 1000 * MICROSTACKS_PER_STACKS /\
  (e = Epoch10 -> coinbase_reward e mainnet first cur = 0) /\
  (epoch_leb Epoch31 e = true -> mainnet = true ->
   BITCOIN_MAINNET_STACKS_40_BURN_HEIGHT - BITCOIN_MAINNET_GENESIS_BURN_HEIGHT
     <= cur - first ->
   coinbase_reward e mainnet first cur = 1000 * MICROSTACKS_PER_STACKS).
Proof.
  assert (Hpre : 0 <= coinbase_reward_pre_sip029 first cur
                   <= 1000 * MICROSTACKS_PER_STACKS).
  { unfold coinbase_reward_pre_sip029, MICROSTACKS_PER_STACKS.
    repeat case_match; lia. }
  assert (Hpost : 0 <= coinbase_reward_sip029 mainnet first cur
                    <= 1000 * MICROSTACKS_PER_STACKS).
  { unfold coinbase_reward_sip029, get_coinbase_intervals.
    generalize (u64_saturating_sub cur first); intros h.
    destruct mainnet; unfold get_coinbase_at_effective_height, scan_intervals;
      cbn -[Z.leb Z.ltb Z.mul Z.le MICROSTACKS_PER_STACKS]; unfold MICROSTACKS_PER_STACKS;
      repeat case_match; simplify_eq; first [lia | by split; vm_compute]. }
  unfold coinbase_reward. split; [repeat case_match; lia | split].
  - intros ->. done.
  - intros He -> Hh. rewrite decide_False by (by intros ->).
    assert (epoch_ltb e Epoch31 = false) as -> by (unfold epoch_ltb, epoch_leb in *; ints).
    unfold coinbase_reward_sip029, get_coinbase_intervals, COINBASE_INTERVALS_MAINNET.
    rewrite get_coinbase_scan, scan_intervals_spec; [| done | cbn; ints..].
    rewrite !filter_cons_True by (unfold started; cbn in *; autounfold with ints;
      unfold BITCOIN_MAINNET_STACKS_40_BURN_HEIGHT, BITCOIN_MAINNET_GENESIS_BURN_HEIGHT in *; lia).
    done.
Qed.

Definition emitting (h : Z) (x : SIP031EmissionInterval) : Prop :=
  sip031_start_height x <= h.
#[export] Instance emitting_dec h x : Decision (emitting h x) := Z.le_dec _ _.

Lemma check_inversed_order_from_Forall ht l :
  check_inversed_order_from ht l = true ->
  Forall (fun y => sip031_start_height y <= ht) l.
Proof.
  revert ht. induction l as [| x l IH]; intros ht; [constructor |]. cbn.
  destruct (Z.ltb_spec ht (sip031_start_height x)); [done |].
  intros Hl. specialize (IH _ Hl). constructor; [done |].
  eapply Forall_impl; [exact IH |]. cbn. lia.
Qed.

Lemma scan_emission_spec h l :
  check_inversed_order l = true ->
  match filter (emitting h) l with
  | [] => scan_emission h l = 0
  | x :: rest =>
      scan_emission h l = sip031_amount x /\
      Forall (fun y => sip031_start_height y <= sip031_start_height x) rest
  end.
Proof.
  induction l as [| x l IH]; [done |]. intros Hord. cbn [scan_emission].
  assert (Hl : check_inversed_order l = true).
  { destruct l as [| y l]; [done |]. cbn in Hord |- *. by case_match. }
  destruct (Z.leb_spec (sip031_start_height x) h) as [Hle | Hgt].
  - rewrite filter_cons_True by done. split; [done |].
    apply check_inversed_order_from_Forall in Hord.
    rewrite Forall_forall in Hord |- *. intros y [_ Hy]%list_elem_of_filter.
    by apply Hord.
  - rewrite filter_cons_False by (unfold emitting; lia). by apply IH.
Qed.

(** At every burn height and on both networks the SIP-031 emission is the
    amount of the started interval with the greatest start height, and 0 when
    no interval has started. *)
Theorem sip_031_emission_latest h mainnet :
  match filter (emitting h) (get_sip_031_emission_schedule mainnet) with
  | [] => get_sip_031_emission_at_height h mainnet = 0
  | x :: rest =>
      get_sip_031_emission_at_height h mainnet = sip031_amount x /\
      Forall (fun y => sip031_start_height y <= sip031_start_height x) rest
  end.
Proof. apply scan_emission_spec. by destruct mainnet. Qed.

(** ** Facts about epoch lists *)

Section EpochListFacts.
Context {L : Type}.
Implicit Types (epochs : list (StacksEpoch L)) (epoch : StacksEpoch L).

Lemma contiguous_tail e rest : contiguous (e :: rest) -> @contiguous L rest.
Proof. inversion 1; subst; [constructor | done]. Qed.

Lemma contiguous_starts e rest f :
  contiguous (e :: rest) -> f ∈ rest -> @end_height L e <= start_height f.
Proof.
  revert e. induction rest as [| g rest IH]; intros e Hc Hf; [by apply elem_of_nil in Hf |].
  inversion Hc as [| | ? ? ? He Heg Hid Hg]; subst.
  apply elem_of_cons in Hf as [-> | Hf]; [lia |].
  specialize (IH _ Hg Hf).
  enough (start_height g <= end_height g) by lia. by inversion Hg.
Qed.

Lemma find_epoch_Some epochs h i :
  find_epoch epochs h = Some i ->
  exists e, epochs !! i = Some e /\ epoch_covers h e = true.
Proof.
  revert i. induction epochs as [| e epochs IH]; intros i; [done |]. cbn.
  destruct (epoch_covers h e) eqn:Hc.
  - intros [= <-]. eauto.
  - intros (j & Hj & ->)%fmap_Some. naive_solver.
Qed.

Lemma epoch_covers_spec h (e : StacksEpoch L) :
  epoch_covers h e = true <-> start_height e <= h < end_height e.
Proof. unfold epoch_covers. rewrite andb_true_iff, Z.leb_le, Z.ltb_lt. lia. Qed.

Lemma find_epoch_covered epochs h e :
  contiguous epochs -> e ∈ epochs -> epoch_covers h e = true ->
  exists i, find_epoch epochs h = Some i /\ epochs !! i = Some e /\
    forall j f, epochs !! j = Some f -> epoch_covers h f = true -> j = i.
Proof.
  induction epochs as [| g epochs IH]; intros Hc He Hcov; [by apply elem_of_nil in He |].
  cbn [find_epoch]. destruct (epoch_covers h g) eqn:Hg.
  - assert (Hrest : forall f, f ∈ epochs -> epoch_covers h f = true -> False).
    { intros f Hf Hfc. pose proof (contiguous_starts _ _ _ Hc Hf).
      apply epoch_covers_spec in Hg, Hfc. lia. }
    apply elem_of_cons in He as [-> | He]; [| by destruct (Hrest e He Hcov)].
    exists 0%nat. split; [done | split; [done |]]. intros [| j] f Hj Hf; [done |].
    exfalso. eapply Hrest; [| exact Hf]. by eapply list_elem_of_lookup_2.
  - apply elem_of_cons in He as [-> | He]; [congruence |].
    destruct (IH (contiguous_tail _ _ Hc) He Hcov) as (i & Hi & Hl & Huniq).
    exists (S i). rewrite Hi. split; [done | split; [done |]].
    intros [| j] f Hj Hf; [cbn in Hj; congruence |]. f_equal. by eapply Huniq.
Qed.

Lemma contiguous_covers_range e0 rest l h :
  @contiguous L (e0 :: rest) -> last (e0 :: rest) = Some l ->
  start_height e0 <= h < end_height l ->
  exists e, e ∈ e0 :: rest /\ epoch_covers h e = true.
Proof.
  revert e0. induction rest as [| f rest IH]; intros e0 Hc Hl Hh.
  - injection Hl as ->. exists l. split; [set_solver |]. by apply epoch_covers_spec.
  - inversion Hc as [| | ? ? ? He Heg Hid Hf]; subst.
    destruct (decide (h < end_height e0)) as [Hlt | Hge].
    + exists e0. split; [set_solver |]. apply epoch_covers_spec. lia.
    + destruct (IH f Hf Hl) as (e & Hin & Hcov); [lia |]. exists e. set_solver.
Qed.

Lemma contiguous_snoc epochs l e :
  contiguous epochs -> last epochs = Some l ->
  end_height l = start_height e -> epoch_ltb (epoch_id l) (epoch_id e) = true ->
  start_height e <= end_height e -> @contiguous L (epochs ++ [e]).
Proof.
  intros Hc. revert l. induction Hc as [| a Ha | a b rest Ha Hab Hid Hc IH];
    intros l Hl Hle Hlid He; [done | |].
  - injection Hl as ->. repeat (constructor; try done).
  - cbn in *. constructor; eauto.
Qed.

(** Pushing a non-inverted epoch either panics, because it does not start
    where the last one ends or does not have a later identifier, or appends it
    and keeps the list contiguous. *)
Theorem epoch_list_push_contiguous epochs epoch r epochs' :
  contiguous epochs -> start_height epoch <= end_height epoch ->
  epoch_list_push epoch epochs = (r, epochs') ->
  contiguous epochs' /\
  ((r = Ok tt /\ epochs' = epochs ++ [epoch]) \/ (r = Panic /\ epochs' = epochs)).
Proof.
  intros Hc He. unfold epoch_list_push. destruct (last epochs) as [l |] eqn:Hl.
  - destruct (_ && _) eqn:Hcond; intros [= <- <-]; [| by auto].
    apply andb_true_iff in Hcond as [Hh%Z.eqb_eq Hid].
    split; [by eapply contiguous_snoc | by left].
  - apply last_None in Hl as ->. intros [= <- <-]. split; [by constructor | by left].
Qed.

(** In a contiguous list every height between the first start and the last
    end is covered by exactly one epoch, and [find_epoch] returns its index. *)
Theorem find_epoch_total_unique e0 rest l h :
  contiguous (e0 :: rest) -> last (e0 :: rest) = Some l ->
  start_height e0 <= h < @end_height L l ->
  exists i e, find_epoch (e0 :: rest) h = Some i /\
    (e0 :: rest) !! i = Some e /\ start_height e <= h < end_height e /\
    forall j f, (e0 :: rest) !! j = Some f -> start_height f <= h < end_height f -> j = i.
Proof.
  intros Hc Hl Hh.
  destruct (contiguous_covers_range _ _ _ _ Hc Hl Hh) as (e & Hin & Hcov).
  destruct (find_epoch_covered _ _ _ Hc Hin Hcov) as (i & Hi & Hlook & Huniq).
  exists i, e. split; [done | split; [done | split; [by apply epoch_covers_spec |]]].
  intros j f Hj Hf. eapply Huniq; [exact Hj |]. by apply epoch_covers_spec.
Qed.

Lemma set_last_end_snoc epochs e h :
  set_last_end (epochs ++ [e]) h = epochs ++ [@set_end_height L h e].
Proof. unfold set_last_end. rewrite rev_app_distr. cbn. by rewrite rev_involutive. Qed.

Lemma contiguous_app_inv epochs1 epochs2 :
  @contiguous L (epochs1 ++ epochs2) -> contiguous epochs1.
Proof.
  revert epochs2. induction epochs1 as [| a [| b l1] IH]; intros l2 Hc; [constructor | |].
  - constructor. inversion Hc; done.
  - inversion Hc; subst. constructor; [done.. |]. by eapply IH.
Qed.

Lemma contiguous_set_last epochs e h :
  @contiguous L (epochs ++ [e]) -> start_height e <= h ->
  contiguous (epochs ++ [set_end_height h e]).
Proof.
  induction epochs as [| a [| b l1] IH]; intros Hc Hh.
  - by constructor.
  - inversion Hc; subst. repeat (constructor; try done).
  - inversion Hc; subst. cbn. constructor; [done.. |]. by apply IH.
Qed.

(** Truncating a contiguous list keeps it contiguous, keeps every epoch up
    to and including the named one, and makes the last one end at
    [STACKS_EPOCH_MAX], so that every later height falls in it. *)
Theorem truncate_after_contiguous epochs id i e :
  contiguous epochs ->
  find_epoch_by_id epochs id = Some i -> epochs !! i = Some e ->
  start_height e <= STACKS_EPOCH_MAX ->
  truncate_after epochs id = take i epochs ++ [set_end_height STACKS_EPOCH_MAX e] /\
  contiguous (truncate_after epochs id) /\
  forall h, start_height e <= h < STACKS_EPOCH_MAX ->
    epoch_id_at_height (truncate_after epochs id) h = Some (@epoch_id L e).
Proof.
  intros Hc Hid Hlook Hmax.
  assert (Htrunc : truncate_after epochs id =
    take i epochs ++ [set_end_height STACKS_EPOCH_MAX e]).
  { unfold truncate_after. rewrite Hid, Nat.add_1_r, (take_S_r _ _ _ Hlook).
    apply set_last_end_snoc. }
  assert (Hc' : contiguous (take i epochs ++ [set_end_height STACKS_EPOCH_MAX e])).
  { apply contiguous_set_last; [| done].
    rewrite <- (take_S_r _ _ _ Hlook). apply contiguous_app_inv with (drop (S i) epochs).
    by rewrite take_drop. }
  rewrite Htrunc. split; [done | split; [done |]]. intros h Hh.
  destruct (find_epoch_covered _ h (set_end_height STACKS_EPOCH_MAX e) Hc')
    as (j & Hj & Hlj & _).
  - set_solver.
  - by apply epoch_covers_spec.
  - unfold epoch_id_at_height. rewrite Hj. cbn. by rewrite Hlj.
Qed.
End EpochListFacts.

(** ** A concrete epoch list *)

Definition sample_epochs : list (StacksEpoch unit) :=
  [ mkStacksEpoch Epoch10 0 100 tt 0;
    mkStacksEpoch Epoch20 100 200 tt 0;
    mkStacksEpoch Epoch2_05 200 300 tt 5 ].

Lemma sample_epochs_contiguous : contiguous sample_epochs.
Proof. repeat (constructor; try done). Qed.

Lemma epoch_list_push_contiguous_witness :
  epoch_list_push (mkStacksEpoch Epoch21 300 400 tt 6) sample_epochs =
    (Ok tt, sample_epochs ++ [mkStacksEpoch Epoch21 300 400 tt 6]) /\
  contiguous (sample_epochs ++ [mkStacksEpoch Epoch21 300 400 tt 6]).
Proof.
  split; [done |].
  apply (epoch_list_push_contiguous sample_epochs (mkStacksEpoch Epoch21 300 400 tt 6)
           (Ok tt)); [apply sample_epochs_contiguous | done | done].
Defined.

Lemma find_epoch_total_unique_witness :
  exists i e, find_epoch sample_epochs 250 = Some i /\ sample_epochs !! i = Some e /\
    start_height e <= 250 < end_height e /\
    forall j f, sample_epochs !! j = Some f -> start_height f <= 250 < end_height f -> j = i.
Proof.
  eapply find_epoch_total_unique; [apply sample_epochs_contiguous | done | done].
Defined.

Lemma truncate_after_contiguous_witness :
  epoch_id_at_height (truncate_after sample_epochs Epoch20) 1000000 = Some Epoch20.
Proof.
  apply (truncate_after_contiguous sample_epochs Epoch20 1
    (mkStacksEpoch Epoch20 100 200 tt 0)); [apply sample_epochs_contiguous | done..].
Defined.
