(* ===== verification/Values.v ===== *)
(** * Clarity principals, types, values and VM errors

    The data types of [clarity-types/src/types/mod.rs] and [signatures.rs] that
    the ledger, the asset maps and the stacking handlers exchange, the
    [Value::expect_*] accessors with which Rust code takes a Clarity value
    apart, and the error types of [clarity-types/src/errors/mod.rs],
    [clarity/src/vm/errors.rs] and [clarity/src/vm/analysis/errors.rs].
    Principals and asset identifiers key the maps of the VM, so they come with
    decidable equality and an encoding into [positive]. *)

From S2P Require Import Prelude.
From S2P Require Import Bytes.
From S2P Require Import BTree.
From S2P Require Import Epochs.

(** ** Names and principals *)

Abbreviation ClarityName := string.
Abbreviation ContractName := string.

Record StandardPrincipalData := mkStandardPrincipal {
  spd_version : Z;
  spd_bytes : list Z;
}.

Record QualifiedContractIdentifier := mkQualifiedContract {
  issuer : StandardPrincipalData;
  contract_name : ContractName;
}.

Inductive PrincipalData :=
| Standard (p : StandardPrincipalData)
| Contract (c : QualifiedContractIdentifier).

Record TraitIdentifier := mkTraitIdentifier {
  trait_name : ClarityName;
  trait_contract : QualifiedContractIdentifier;
}.

Record AssetIdentifier := mkAssetIdentifier {
  asset_contract : QualifiedContractIdentifier;
  asset_name : ClarityName;
}.

#[export] Instance StandardPrincipalData_eq_dec : EqDecision StandardPrincipalData.
Proof. solve_decision. Defined.
#[export] Instance QualifiedContractIdentifier_eq_dec :
  EqDecision QualifiedContractIdentifier.
Proof. solve_decision. Defined.
#[export] Instance PrincipalData_eq_dec : EqDecision PrincipalData.
Proof. solve_decision. Defined.
#[export] Instance TraitIdentifier_eq_dec : EqDecision TraitIdentifier.
Proof. solve_decision. Defined.
#[export] Instance AssetIdentifier_eq_dec : EqDecision AssetIdentifier.
Proof. solve_decision. Defined.

#[export] Instance StandardPrincipalData_countable : Countable StandardPrincipalData.
Proof.
  by apply (inj_countable' (fun p => (spd_version p, spd_bytes p))
              (fun '(v, b) => mkStandardPrincipal v b)); intros [].
Defined.
#[export] Instance QualifiedContractIdentifier_countable :
  Countable QualifiedContractIdentifier.
Proof.
  by apply (inj_countable' (fun c => (issuer c, contract_name c))
              (fun '(i, n) => mkQualifiedContract i n)); intros [].
Defined.
#[export] Instance PrincipalData_countable : Countable PrincipalData.
Proof.
  by apply (inj_countable'
              (fun p => match p with Standard s => inl s | Contract c => inr c end)
              (fun x => match x with inl s => Standard s | inr c => Contract c end));
    intros [].
Defined.
#[export] Instance AssetIdentifier_countable : Countable AssetIdentifier.
Proof.
  by apply (inj_countable' (fun a => (asset_contract a, asset_name a))
              (fun '(c, n) => mkAssetIdentifier c n)); intros [].
Defined.

(** ** Type signatures *)

Inductive CallableSubtype :=
| CallablePrincipal (c : QualifiedContractIdentifier)
| CallableTrait (t : TraitIdentifier).

Inductive StringSubtype :=
| ASCII (len : Z)
| UTF8 (len : Z).

Inductive TypeSignature :=
| NoType
| IntType
| UIntType
| BoolType
| SequenceType (s : SequenceSubtype)
| PrincipalType
| TupleType (t : TupleTypeSignature)
| OptionalType (t : TypeSignature)
| ResponseType (ok_type err_type : TypeSignature)
| CallableType (c : CallableSubtype)
| ListUnionType (types : list CallableSubtype)
| TraitReferenceType (t : TraitIdentifier)
with SequenceSubtype :=
| BufferType (len : Z)
| ListType (l : ListTypeData)
| StringType (s : StringSubtype)
with ListTypeData :=
| mkListTypeData (max_len : Z) (entry_type : TypeSignature) (list_size : Z)
with TupleTypeSignature :=
| mkTupleType (type_map : list (ClarityName * TypeSignature)) (tuple_size : Z).

(** [TypeSignature::BUFFER_MIN], [STRING_ASCII_MIN], [empty_list] *)
Definition BUFFER_MIN : TypeSignature := SequenceType (BufferType 1).
Definition STRING_ASCII_MIN : TypeSignature := SequenceType (StringType (ASCII 1)).

(** ** Values *)

Inductive CharType :=
| CharUTF8 (data : list (list Z))
| CharASCII (data : list Z).

(** A [BTreeMap<ClarityName, Value>] is the list of its entries in the order
    of its keys. *)
Inductive Value :=
| Int (i : Z)
| UInt (u : Z)
| Bool (b : bool)
| Sequence (s : SequenceData)
| Principal (p : PrincipalData)
| Tuple (t : TupleData)
| Optional (o : option Value)
| Response (committed : bool) (data : Value)
| CallableContract (c : QualifiedContractIdentifier) (t : option TraitIdentifier)
with SequenceData :=
| Buffer (data : list Z)
| List_ (data : list Value) (list_type : ListTypeData)
| String_ (c : CharType)
with TupleData :=
| mkTuple (tuple_type : TupleTypeSignature) (data_map : list (ClarityName * Value)).

(** ** Errors *)

Inductive ClarityTypeError :=
| TE_ValueTooLarge
| TE_TypeSignatureTooDeep
| TE_InvalidAsciiCharacter (b : Z)
| TE_InvalidUtf8Encoding
| TE_ListTypeMismatch
| TE_ValueOutOfBounds
| TE_DuplicateTupleField (name : string)
| TE_NoSuchTupleField (name : string) (t : TupleTypeSignature)
| TE_TypeMismatchValue (expected : TypeSignature) (v : Value)
| TE_TypeMismatch (expected actual : TypeSignature)
| TE_ResponseTypeMismatch (expected_ok : bool)
| TE_InvalidContractName (s : string)
| TE_InvalidClarityName (s : string)
| TE_InvalidUrlString (s : string)
| TE_EmptyTuplesNotAllowed
| TE_SupertypeTooLarge
| TE_InvalidTypeDescription
| TE_SequenceElementArityMismatch (expected found : Z)
| TE_ExpectedSequenceValue
| TE_InvalidPrincipalVersion (version : Z)
| TE_InvalidPrincipalLength (len : Z)
| TE_InvalidPrincipalEncoding (s : string)
| TE_QualifiedContractMissingDot
| TE_QualifiedContractEmptyIssuer
| TE_CouldNotDetermineSerializationType
| TE_CouldNotDetermineType
| TE_UnsupportedTypeInEpoch (t : TypeSignature) (e : StacksEpochId)
| TE_UnsupportedEpoch (e : StacksEpochId)
| TE_InvariantViolation (s : string).

(** [ExecutionCost] is declared with the errors that carry it; its operations
    are in [Costs]. *)
Record ExecutionCost := mkExecutionCost {
  write_length : Z;
  write_count : Z;
  read_length : Z;
  read_count : Z;
  runtime : Z;
}.

#[export] Instance ExecutionCost_eq_dec : EqDecision ExecutionCost.
Proof. solve_decision. Defined.

Inductive CostErrors :=
| CE_CostOverflow
| CE_CostBalanceExceeded (total limit : ExecutionCost)
| CE_MemoryBalanceExceeded (used limit : Z)
| CE_CostContractLoadFailure
| CE_CostComputationFailed (s : string)
| CE_InterpreterFailure
| CE_Expect (s : string).

Inductive AssetMapError :=
| AmountOverflow
| BurnTotalOverflow
| StackingEntryConflict.

(** The strings of [BoundedErrorString] and [BoundedValueString] payloads are
    plain strings here. *)
Inductive RuntimeCheckErrorKind :=
| RC_CostOverflow
| RC_CostBalanceExceeded (total limit : ExecutionCost)
| RC_MemoryBalanceExceeded (used limit : Z)
| RC_RestrictAssetsMemoryExceeded (used limit : Z)
| RC_CostComputationFailed (s : string)
| RC_ExecutionResourceBudgetExceeded (s : string)
| RC_ValueTooLarge
| RC_ValueOutOfBounds
| RC_TypeSignatureTooDeep
| RC_Unreachable (s : string)
| RC_PoxStxAssetMapOverwrite
| RC_ListTypesMustMatch
| RC_SequenceElementArityMismatch (expected found : Z)
| RC_TypeError (expected actual : TypeSignature)
| RC_TypeValueError (expected : TypeSignature) (v : string)
| RC_UnionTypeValueError (expected : list TypeSignature) (v : string)
| RC_ExpectedContractPrincipalValue (v : string)
| RC_CouldNotDetermineType
| RC_ReturnTypesMustMatch (expected actual : TypeSignature)
| RC_CircularReference (names : list string)
| RC_NoSuchContract (name : string)
| RC_NoSuchPublicFunction (contract function : string)
| RC_ContractCallExpectName
| RC_NameAlreadyUsed (name : string)
| RC_UndefinedFunction (name : string)
| RC_AtBlockUnavailable
| RC_WithAllAllowanceNotAllowed
| RC_IncorrectArgumentCount (expected found : Z)
| RC_TraitReferenceUnknown (name : string)
| RC_TraitMethodUnknown (trait method : string)
| RC_BadTraitImplementation (trait method : string)
| RC_InvalidCharactersDetected
| RC_InvalidUTF8Encoding.

(** The payload of [SqliteError] belongs to the database library and is left
    out. *)
Inductive VmInternalError :=
| VI_BadSymbolicRepresentation (s : string)
| VI_InvariantViolation (s : string)
| VI_FailedToConstructAssetTable
| VI_FailedToConstructEventBatch
| VI_SqliteError
| VI_BadFileName
| VI_FailedToCreateDataDirectory
| VI_MarfFailure (s : string)
| VI_InsufficientBalance
| VI_DBError (s : string)
| VI_Expect (s : string).

Inductive RuntimeError :=
| RE_Arithmetic (s : string)
| RE_ArithmeticOverflow
| RE_ArithmeticUnderflow
| RE_SupplyOverflow (attempted max : Z)
| RE_SupplyUnderflow (current decrease : Z)
| RE_DivisionByZero
| RE_MaxStackDepthReached
| RE_MaxContextDepthReached
| RE_BadBlockHeight (s : string)
| RE_NoSuchToken
| RE_NotImplemented
| RE_NoCallerInContext
| RE_NoSenderInContext
| RE_UnknownBlockHeaderHash (hash : list Z)
| RE_BadBlockHash (hash : list Z)
| RE_UnwrapFailure
| RE_DefunctPoxContract
| RE_PoxAlreadyLocked
| RE_BlockTimeNotAvailable
| RE_BadTokenName (s : string).

Inductive EarlyReturnError :=
| UnwrapFailed (v : Value)
| AssertionFailed (v : Value).

(** [StackTrace] is the list of the function identifiers of the frames. *)
Inductive VmExecutionError :=
| RuntimeCheck (e : RuntimeCheckErrorKind)
| Internal (e : VmInternalError)
| Runtime (e : RuntimeError) (trace : option (list string))
| EarlyReturn (e : EarlyReturnError).

(** The [From] conversions of [vm/errors.rs] that [?] applies. *)
Definition vm_from_runtime (e : RuntimeError) : VmExecutionError := Runtime e None.

Definition vm_from_cost (e : CostErrors) : VmExecutionError :=
  match e with
  | CE_InterpreterFailure =>
      Internal (VI_Expect "Interpreter failure during cost calculation")
  | CE_Expect s =>
      Internal (VI_Expect ("Interpreter failure during cost calculation: " +:+ s))
  | CE_CostOverflow => RuntimeCheck RC_CostOverflow
  | CE_CostBalanceExceeded a b => RuntimeCheck (RC_CostBalanceExceeded a b)
  | CE_MemoryBalanceExceeded a b => RuntimeCheck (RC_MemoryBalanceExceeded a b)
  | CE_CostComputationFailed s => RuntimeCheck (RC_CostComputationFailed s)
  | CE_CostContractLoadFailure =>
      RuntimeCheck (RC_CostComputationFailed "Failed to load cost contract")
  end.

Definition vm_from_asset_map (e : AssetMapError) : VmExecutionError :=
  match e with
  | AmountOverflow => vm_from_runtime RE_ArithmeticOverflow
  | BurnTotalOverflow => Internal (VI_Expect "BURN OVERFLOW")
  | StackingEntryConflict => RuntimeCheck RC_PoxStxAssetMapOverwrite
  end.

Definition check_rejectable_in_epoch (e : RuntimeCheckErrorKind)
    (epoch : StacksEpochId) : bool :=
  match e with
  | RC_Unreachable _ | RC_RestrictAssetsMemoryExceeded _ _
  | RC_PoxStxAssetMapOverwrite => true
  | RC_SequenceElementArityMismatch _ _ => negb (fixes_replace_at_element_arity epoch)
  | _ => false
  end.

Definition rejectable_in_epoch (e : VmExecutionError) (epoch : StacksEpochId) : bool :=
  match e with
  | RuntimeCheck check =>
      check_rejectable_in_epoch check epoch
      || match check with
         | RC_CostOverflow | RC_CostBalanceExceeded _ _
         | RC_ExecutionResourceBudgetExceeded _ => true
         | _ => false
         end
  | Internal _ => true
  | Runtime _ _ | EarlyReturn _ => false
  end.

(** ** Principals *)

(** [StandardPrincipalData::new] *)
Definition StandardPrincipalData_new (version : Z) (bytes : list Z)
    : result ClarityTypeError StandardPrincipalData :=
  if 32 <=? version then Err (TE_InvalidPrincipalVersion version)
  else Ok (mkStandardPrincipal version bytes).

Definition transient : StandardPrincipalData :=
  mkStandardPrincipal 1 (replicate 20 1).

(** [QualifiedContractIdentifier::transient] *)
Definition transient_contract : QualifiedContractIdentifier := mkQualifiedContract transient "__transient".

Definition null_principal : StandardPrincipalData :=
  mkStandardPrincipal 0 (replicate 20 0).

Definition C32_ADDRESS_VERSION_MAINNET_SINGLESIG : Z := 22.
Definition C32_ADDRESS_VERSION_MAINNET_MULTISIG : Z := 20.
Definition C32_ADDRESS_VERSION_TESTNET_SINGLESIG : Z := 26.
Definition C32_ADDRESS_VERSION_TESTNET_MULTISIG : Z := 21.

Definition spd_is_mainnet (p : StandardPrincipalData) : bool :=
  (spd_version p =? C32_ADDRESS_VERSION_MAINNET_MULTISIG)
  || (spd_version p =? C32_ADDRESS_VERSION_MAINNET_SINGLESIG).

Definition spd_is_multisig (p : StandardPrincipalData) : bool :=
  (spd_version p =? C32_ADDRESS_VERSION_MAINNET_MULTISIG)
  || (spd_version p =? C32_ADDRESS_VERSION_TESTNET_MULTISIG).

Definition is_boot (c : QualifiedContractIdentifier) : bool :=
  bool_decide (spd_bytes (issuer c) = replicate 20 0).

(** [boot_code_id]: the burn address of the network, as a contract issuer *)
Definition boot_code_addr (mainnet : bool) : StandardPrincipalData :=
  mkStandardPrincipal
    (if mainnet then C32_ADDRESS_VERSION_MAINNET_SINGLESIG
     else C32_ADDRESS_VERSION_TESTNET_SINGLESIG)
    (replicate 20 0).

Definition boot_code_id (name : string) (mainnet : bool) : QualifiedContractIdentifier :=
  mkQualifiedContract (boot_code_addr mainnet) name.

(** ** Asset identifiers of the native token *)

Definition AssetIdentifier_STX : AssetIdentifier :=
  mkAssetIdentifier (mkQualifiedContract null_principal "STX") "STX".
Definition AssetIdentifier_STX_burned : AssetIdentifier :=
  mkAssetIdentifier (mkQualifiedContract null_principal "BURNED") "BURNED".

(** ** Taking values apart: [Value::expect_*] and [TupleData::get] *)

Definition expect_u128 (v : Value) : result ClarityTypeError Z :=
  match v with
  | UInt inner => Ok inner
  | _ => Err (TE_TypeMismatchValue UIntType v)
  end.

Definition expect_i128 (v : Value) : result ClarityTypeError Z :=
  match v with
  | Int inner => Ok inner
  | _ => Err (TE_TypeMismatchValue IntType v)
  end.

Definition expect_buff (v : Value) (sz : Z) : result ClarityTypeError (list Z) :=
  match v with
  | Sequence (Buffer data) =>
      if Z.of_nat (length data) <=? sz then Ok data else Err TE_ValueOutOfBounds
  | _ => Err (TE_TypeMismatchValue BUFFER_MIN v)
  end.

Definition expect_buff_padded (v : Value) (sz pad : Z) : result ClarityTypeError (list Z) :=
  data ← expect_buff v sz;
  mret (data ++ replicate (Z.to_nat sz - length data) pad).

Definition expect_bool (v : Value) : result ClarityTypeError bool :=
  match v with
  | Bool b => Ok b
  | _ => Err (TE_TypeMismatchValue BoolType v)
  end.

Definition expect_tuple (v : Value) : result ClarityTypeError TupleData :=
  match v with
  | Tuple t => Ok t
  | _ => Err (TE_TypeMismatchValue NoType v)
  end.

Definition expect_optional (v : Value) : result ClarityTypeError (option Value) :=
  match v with
  | Optional o => Ok o
  | _ => Err (TE_TypeMismatchValue (OptionalType NoType) v)
  end.

Definition expect_principal (v : Value) : result ClarityTypeError PrincipalData :=
  match v with
  | Principal p => Ok p
  | _ => Err (TE_TypeMismatchValue PrincipalType v)
  end.

(** [expect_result]: [inl] is the [Ok] side of the returned [Result]. *)
Definition expect_result (v : Value) : result ClarityTypeError (Value + Value) :=
  match v with
  | Response true data => Ok (inl data)
  | Response false data => Ok (inr data)
  | _ => Err (TE_TypeMismatchValue (ResponseType NoType NoType) v)
  end.

Definition expect_result_ok (v : Value) : result ClarityTypeError Value :=
  match v with
  | Response true data => Ok data
  | Response false _ => Err (TE_ResponseTypeMismatch true)
  | _ => Err (TE_TypeMismatchValue (ResponseType NoType NoType) v)
  end.

Definition tuple_get (t : TupleData) (name : string) : result ClarityTypeError Value :=
  match t with
  | mkTuple ty data_map => ok_or (assoc name data_map) (TE_NoSuchTupleField name ty)
  end.
