(* ===== verification/Types.v ===== *)
(** * Type signatures

    [clarity-types/src/types/signatures.rs]: the guarded constructors of
    Clarity types, the sizes they cache, nesting depth, admission of one type
    by another, canonicalization across epochs and least supertypes.  The map
    of a tuple type and the set of a union are ordered lists ([BTree]). *)

From S2P Require Import Prelude.
From S2P Require Import Bytes.
From S2P Require Import BTree.
From S2P Require Import Epochs.
From S2P Require Import Values.

Abbreviation TypeR := (result ClarityTypeError).
Abbreviation TypeMap := (list (ClarityName * TypeSignature)).

(** ** Limits *)

Definition MAX_VALUE_SIZE : Z := 1024 * 1024.
Definition BOUND_VALUE_SERIALIZATION_BYTES : Z := MAX_VALUE_SIZE * 2.
Definition MAX_UTF8_VALUE_SIZE : Z := MAX_VALUE_SIZE / 4.
Definition MAX_TYPE_DEPTH : Z := 32.
Definition WRAPPER_VALUE_SIZE : Z := 1.
Definition INT_SIZE : Z := 16.
Definition BOOL_SIZE : Z := 1.
Definition NO_TYPE_SIZE : Z := 1.
Definition PRINCIPAL_SIZE : Z := 148.
Definition TRAIT_SIZE : Z := PRINCIPAL_SIZE + 128.
Definition SEQUENCE_LENGTH_PREFIX : Z := 4.
Definition UTF8_CHAR_SIZE : Z := 4.
Definition TYPE_DISCRIMINANT_SIZE : Z := 1.
Definition TYPE_LENGTH_FIELD_SIZE : Z := 4.
Definition MAX_STRING_LEN : Z := 128.
Definition CONTRACT_MAX_NAME_LENGTH : Z := 40.

(** [BufferLength::try_from_i128], [StringUTF8Length::try_from_i128] *)
Definition BufferLength_try_from (data : Z) : TypeR Z :=
  if data >? MAX_VALUE_SIZE then Err TE_ValueTooLarge
  else if data <? 0 then Err TE_ValueOutOfBounds
  else Ok data.

Definition StringUTF8Length_try_from (value : Z) : TypeR Z :=
  if value >? MAX_UTF8_VALUE_SIZE then Err TE_ValueTooLarge
  else if value <? 0 then Err TE_ValueOutOfBounds
  else Ok value.

Definition new_ascii_type (len : Z) : TypeR TypeSignature :=
  len ← BufferLength_try_from len;
  Ok (SequenceType (StringType (ASCII len))).

Definition BUFFER_MAX : TypeSignature := SequenceType (BufferType MAX_VALUE_SIZE).
Definition STRING_ASCII_MAX : TypeSignature := SequenceType (StringType (ASCII MAX_VALUE_SIZE)).
Definition STRING_UTF8_MIN : TypeSignature := SequenceType (StringType (UTF8 1)).
Definition STRING_UTF8_MAX : TypeSignature :=
  SequenceType (StringType (UTF8 MAX_UTF8_VALUE_SIZE)).

Definition name_len (name : ClarityName) : Z := Z.of_nat (String.length name).

(** [ListTypeData::destruct], [get_list_item_type], [get_max_len],
    [TupleTypeSignature::get_type_map] *)
Definition get_list_item_type (l : ListTypeData) : TypeSignature :=
  let 'mkListTypeData _ entry_type _ := l in entry_type.
Definition get_max_len (l : ListTypeData) : Z :=
  let 'mkListTypeData max_len _ _ := l in max_len.
Definition list_type_size (l : ListTypeData) : Z :=
  let 'mkListTypeData _ _ size := l in size.
Definition get_type_map (t : TupleTypeSignature) : TypeMap :=
  let 'mkTupleType type_map _ := t in type_map.
Definition tuple_type_size (t : TupleTypeSignature) : Z :=
  let 'mkTupleType _ size := t in size.
Definition tuple_type_len (t : TupleTypeSignature) : Z :=
  Z.of_nat (length (get_type_map t)).
Definition field_type (t : TupleTypeSignature) (field : string) : option TypeSignature :=
  assoc field (get_type_map t).

Definition unit_type (s : SequenceSubtype) : TypeSignature :=
  match s with
  | ListType l => get_list_item_type l
  | BufferType _ => BUFFER_MIN
  | StringType (ASCII _) => STRING_ASCII_MIN
  | StringType (UTF8 _) => STRING_UTF8_MIN
  end.

Definition is_no_type (t : TypeSignature) : bool :=
  match t with NoType => true | _ => false end.
Definition is_response_type (t : TypeSignature) : bool :=
  match t with ResponseType _ _ => true | _ => false end.

(** ** Depth and sizes *)

Fixpoint depth (t : TypeSignature) : Z :=
  match t with
  | TupleType (mkTupleType type_map _) =>
      1 + foldl (fun max field => Z.max max (depth field.2)) 0 type_map
  | SequenceType (ListType (mkListTypeData _ entry_type _)) => 1 + depth entry_type
  | OptionalType t => 1 + depth t
  | ResponseType t s => 1 + Z.max (depth t) (depth s)
  | _ => 1
  end.

Fixpoint inner_size (t : TypeSignature) : option Z :=
  match t with
  | NoType => Some NO_TYPE_SIZE
  | IntType | UIntType => Some INT_SIZE
  | BoolType => Some BOOL_SIZE
  | PrincipalType => Some PRINCIPAL_SIZE
  | TupleType tuple_sig => Some (tuple_type_size tuple_sig)
  | SequenceType (BufferType len) | SequenceType (StringType (ASCII len)) =>
      u32_checked_add SEQUENCE_LENGTH_PREFIX len
  | SequenceType (ListType list_type) => Some (list_type_size list_type)
  | SequenceType (StringType (UTF8 len)) =>
      x ← u32_checked_mul UTF8_CHAR_SIZE len;
      u32_checked_add x SEQUENCE_LENGTH_PREFIX
  | OptionalType t => x ← inner_size t; u32_checked_add x WRAPPER_VALUE_SIZE
  | ResponseType t s =>
      t_size ← inner_size t;
      s_size ← inner_size s;
      u32_checked_add (Z.max t_size s_size) WRAPPER_VALUE_SIZE
  | CallableType (CallablePrincipal _) | ListUnionType _ => Some PRINCIPAL_SIZE
  | CallableType (CallableTrait _) | TraitReferenceType _ => Some TRAIT_SIZE
  end.

Definition sig_size (t : TypeSignature) : TypeR Z :=
  ok_or (inner_size t) (TE_InvariantViolation
    "FAIL: .size() overflowed on too large of a type. Construction should have failed!").

(** A size above the limit is reported like an overflow. *)
Definition capped (total_size : Z) : option Z :=
  if total_size >? MAX_VALUE_SIZE then None else Some total_size.

Section FieldSizes.
Context (size_of : TypeSignature -> option Z).

(** The loop over the entries of a type map that the sizes of tuples share. *)
Fixpoint add_fields (total : Z) (type_map : TypeMap) : option Z :=
  match type_map with
  | [] => Some total
  | (name, type_signature) :: type_map =>
      s ← size_of type_signature;
      total ← u32_checked_add total s;
      total ← u32_checked_add total (name_len name);
      add_fields total type_map
  end.

Definition map_header (type_map : TypeMap) : option Z :=
  len ← checked 0 u32_max (Z.of_nat (length type_map));
  u32_checked_mul len 2.

(** [TupleTypeSignature::compute_type_size] and [ListTypeData::compute_type_size],
    for the size of the entry types *)
Definition tuple_compute_type_size_with (type_map : TypeMap) : option Z :=
  header ← map_header type_map;
  total ← add_fields header type_map;
  capped total.

Definition list_compute_type_size_with (entry_type : TypeSignature) : option Z :=
  entry ← size_of entry_type;
  total ← u32_checked_add entry (TYPE_LENGTH_FIELD_SIZE + TYPE_DISCRIMINANT_SIZE);
  capped total.
End FieldSizes.

Fixpoint inner_type_size (t : TypeSignature) : option Z :=
  match t with
  | NoType | IntType | UIntType | BoolType | PrincipalType => Some TYPE_DISCRIMINANT_SIZE
  | TupleType (mkTupleType type_map _) => tuple_compute_type_size_with inner_type_size type_map
  | SequenceType (BufferType _) => Some (TYPE_DISCRIMINANT_SIZE + TYPE_LENGTH_FIELD_SIZE)
  | SequenceType (ListType (mkListTypeData _ entry_type _)) =>
      list_compute_type_size_with inner_type_size entry_type
  | SequenceType (StringType _) => Some (TYPE_DISCRIMINANT_SIZE + TYPE_LENGTH_FIELD_SIZE)
  | OptionalType t => x ← inner_type_size t; u32_checked_add x TYPE_DISCRIMINANT_SIZE
  | ResponseType t s =>
      x ← inner_type_size t;
      y ← inner_type_size s;
      z ← u32_checked_add x y;
      u32_checked_add z TYPE_DISCRIMINANT_SIZE
  | CallableType _ | TraitReferenceType _ | ListUnionType _ => Some TYPE_DISCRIMINANT_SIZE
  end.

Definition sig_type_size (t : TypeSignature) : TypeR Z :=
  ok_or (inner_type_size t) TE_ValueTooLarge.

Definition tuple_compute_type_size : TypeMap -> option Z :=
  tuple_compute_type_size_with inner_type_size.
Definition list_compute_type_size : TypeSignature -> option Z :=
  list_compute_type_size_with inner_type_size.

(** [ListTypeData::compute_inner_size] *)
Definition list_compute_inner_size (entry_type : TypeSignature) (max_len : Z) :
  TypeR (option Z) :=
  entry_size ← sig_size entry_type;
  match
    x ← u32_checked_mul entry_size max_len;
    y ← list_compute_type_size entry_type;
    u32_checked_add x y
  with
  | Some total_size => Ok (capped total_size)
  | None => Ok None
  end.

(** [TupleTypeSignature::compute_inner_size] *)
Fixpoint add_value_sizes (total_size : Z) (type_map : TypeMap) : TypeR (option Z) :=
  match type_map with
  | [] => Ok (Some total_size)
  | (name, type_signature) :: type_map =>
      s ← sig_size type_signature;
      match u32_checked_add total_size s with
      | None => Ok None
      | Some total_size =>
          match u32_checked_add total_size (name_len name) with
          | None => Ok None
          | Some total_size => add_value_sizes total_size type_map
          end
      end
  end.

Definition tuple_compute_inner_size (type_map : TypeMap) : TypeR (option Z) :=
  match
    header ← map_header type_map;
    y ← tuple_compute_type_size type_map;
    u32_checked_add header y
  with
  | None => Ok None
  | Some total_size =>
      r ← add_value_sizes total_size type_map;
      Ok (match r with Some total_size => capped total_size | None => None end)
  end.

(** *** Charged sizes *)

Definition callable_identifier_size (c : CallableSubtype) : Z :=
  match c with
  | CallablePrincipal _ => PRINCIPAL_SIZE
  | CallableTrait _ => TRAIT_SIZE
  end.

Fixpoint identifier_size (t : TypeSignature) : option Z :=
  match t with
  | NoType | IntType | UIntType | BoolType | PrincipalType => Some 0
  | SequenceType (BufferType _) | SequenceType (StringType _) => Some 0
  | TupleType (mkTupleType type_map _) =>
      foldl (fun total field =>
               total ← total; s ← identifier_size field.2; u32_checked_add total s)
            (Some 0) type_map
  | SequenceType (ListType (mkListTypeData _ entry_type _)) => identifier_size entry_type
  | OptionalType t => identifier_size t
  | ResponseType t s =>
      x ← identifier_size t; y ← identifier_size s; u32_checked_add x y
  | CallableType subtype => Some (callable_identifier_size subtype)
  | TraitReferenceType _ => Some TRAIT_SIZE
  | ListUnionType subtypes =>
      foldl (fun total subtype =>
               total ← total; u32_checked_add total (callable_identifier_size subtype))
            (Some 0) subtypes
  end.

Definition inner_charged_type_size (t : TypeSignature) : option Z :=
  x ← inner_type_size t; y ← identifier_size t; u32_checked_add x y.

Fixpoint inner_charged_size (t : TypeSignature) : option Z :=
  id_size ← identifier_size t;
  if id_size =? 0 then inner_size t
  else match t with
  | TupleType (mkTupleType type_map _) =>
      header ← map_header type_map;
      charged ← inner_charged_type_size t;
      total ← u32_checked_add header charged;
      add_fields inner_charged_size total type_map
  | SequenceType (ListType (mkListTypeData max_len entry_type _)) =>
      entry ← inner_charged_size entry_type;
      x ← u32_checked_mul entry max_len;
      y ← inner_charged_type_size t;
      u32_checked_add x y
  | OptionalType t => x ← inner_charged_size t; u32_checked_add x WRAPPER_VALUE_SIZE
  | ResponseType t s =>
      x ← inner_charged_size t;
      y ← inner_charged_size s;
      u32_checked_add (Z.max x y) WRAPPER_VALUE_SIZE
  | CallableType subtype => Some (callable_identifier_size subtype)
  | TraitReferenceType _ => Some TRAIT_SIZE
  | ListUnionType [] => None
  | ListUnionType (c :: subtypes) =>
      Some (foldl (fun m c => Z.max m (callable_identifier_size c))
                  (callable_identifier_size c) subtypes)
  | _ => inner_size t
  end.

Definition charged_type_size (epoch : StacksEpochId) (t : TypeSignature) : TypeR Z :=
  if charges_callable_type_size epoch then ok_or (inner_charged_type_size t) TE_ValueTooLarge
  else sig_type_size t.

Definition charged_size (epoch : StacksEpochId) (t : TypeSignature) : TypeR Z :=
  if charges_callable_type_size epoch then ok_or (inner_charged_size t) TE_ValueTooLarge
  else sig_size t.

Fixpoint inner_min_size (t : TypeSignature) : option Z :=
  match t with
  | NoType => Some NO_TYPE_SIZE
  | IntType | UIntType => Some INT_SIZE
  | BoolType => Some BOOL_SIZE
  | TupleType (mkTupleType type_map _) =>
      header ← map_header type_map;
      ts ← tuple_compute_type_size type_map;
      total ← u32_checked_add header ts;
      total ← add_fields inner_min_size total type_map;
      capped total
  | SequenceType (BufferType _) | SequenceType (StringType _) => Some SEQUENCE_LENGTH_PREFIX
  | SequenceType (ListType (mkListTypeData _ entry_type _)) => list_compute_type_size entry_type
  | OptionalType _ => Some (WRAPPER_VALUE_SIZE + NO_TYPE_SIZE)
  | ResponseType t s =>
      t_size ← inner_min_size t;
      s_size ← inner_min_size s;
      u32_checked_add (Z.min t_size s_size) WRAPPER_VALUE_SIZE
  | PrincipalType | CallableType (CallablePrincipal _) | ListUnionType _ => Some PRINCIPAL_SIZE
  | CallableType (CallableTrait _) | TraitReferenceType _ => Some TRAIT_SIZE
  end.

Definition min_size (t : TypeSignature) : TypeR Z :=
  ok_or (inner_min_size t) (TE_InvariantViolation
    "FAIL: .min_size() overflowed on too large of a type. Construction should have failed!").

(** ** Constructors *)

Definition new_list (entry_type : TypeSignature) (max_len : Z) : TypeR ListTypeData :=
  let would_be_depth := 1 + depth entry_type in
  if would_be_depth >? MAX_TYPE_DEPTH then Err TE_TypeSignatureTooDeep
  else
    inner ← list_compute_inner_size entry_type max_len;
    size ← ok_or inner TE_ValueTooLarge;
    Ok (mkListTypeData max_len entry_type size).

Definition list_of (item_type : TypeSignature) (max_len : Z) : TypeR TypeSignature :=
  l ← new_list item_type max_len;
  Ok (SequenceType (ListType l)).

(** [new_list(NoType, 0).expect(..)], evaluated; see [empty_list_is_new_list] *)
Definition empty_list : ListTypeData := mkListTypeData 0 NoType 6.

Definition reduce_max_len (l : ListTypeData) (new_max_len : Z) : TypeR ListTypeData :=
  let 'mkListTypeData max_len entry_type _ := l in
  if new_max_len <=? max_len then
    inner ← list_compute_inner_size entry_type new_max_len;
    size ← ok_or inner
             (TE_InvariantViolation "reduce_max_len produced a list whose size overflows");
    Ok (mkListTypeData new_max_len entry_type size)
  else Ok l.

Definition new_option (inner_type : TypeSignature) : TypeR TypeSignature :=
  inner ← sig_size inner_type;
  let new_size := WRAPPER_VALUE_SIZE + inner in
  let new_depth := 1 + depth inner_type in
  if new_size >? MAX_VALUE_SIZE then Err TE_ValueTooLarge
  else if new_depth >? MAX_TYPE_DEPTH then Err TE_TypeSignatureTooDeep
  else Ok (OptionalType inner_type).

Definition new_response (ok_type err_type : TypeSignature) : TypeR TypeSignature :=
  ok_size ← sig_size ok_type;
  err_size ← sig_size err_type;
  let new_size := WRAPPER_VALUE_SIZE + Z.max ok_size err_size in
  let new_depth := 1 + Z.max (depth ok_type) (depth err_type) in
  if new_size >? MAX_VALUE_SIZE then Err TE_ValueTooLarge
  else if new_depth >? MAX_TYPE_DEPTH then Err TE_TypeSignatureTooDeep
  else Ok (ResponseType ok_type err_type).

(** [TryFrom<BTreeMap<ClarityName, TypeSignature>> for TupleTypeSignature] *)
Definition tuple_try_from_map (type_map : TypeMap) : TypeR TupleTypeSignature :=
  match type_map with
  | [] => Err TE_EmptyTuplesNotAllowed
  | _ =>
      if existsb (fun field => 1 + depth field.2 >? MAX_TYPE_DEPTH) type_map
      then Err TE_TypeSignatureTooDeep
      else
        inner ← tuple_compute_inner_size type_map;
        size ← ok_or inner TE_ValueTooLarge;
        Ok (mkTupleType type_map size)
  end.

(** [TryFrom<Vec<(ClarityName, TypeSignature)>> for TupleTypeSignature] *)
Fixpoint collect_fields (type_map : TypeMap) (type_data : TypeMap) : TypeR TypeMap :=
  match type_data with
  | [] => Ok type_map
  | (name, type_info) :: type_data =>
      match assoc name type_map with
      | None => collect_fields (map_insert name type_info type_map) type_data
      | Some _ => Err (TE_DuplicateTupleField name)
      end
  end.

Definition tuple_try_from_vec (type_data : TypeMap) : TypeR TupleTypeSignature :=
  match type_data with
  | [] => Err TE_EmptyTuplesNotAllowed
  | _ => type_map ← collect_fields [] type_data; tuple_try_from_map type_map
  end.

Definition tuple_type_shallow_merge (self update : TupleTypeSignature) :
  TypeR TupleTypeSignature :=
  let type_map := map_append (get_type_map self) (get_type_map update) in
  inner ← tuple_compute_inner_size type_map;
  size ← ok_or inner TE_ValueTooLarge;
  Ok (mkTupleType type_map size).

(** ** Equality: the derived [PartialEq] *)

#[export] Instance CallableSubtype_eq_dec : EqDecision CallableSubtype.
Proof. solve_decision. Defined.
#[export] Instance StringSubtype_eq_dec : EqDecision StringSubtype.
Proof. solve_decision. Defined.

Section FieldEq.
Context (eqb : TypeSignature -> TypeSignature -> bool).
Fixpoint fields_eqb (l k : TypeMap) : bool :=
  match l, k with
  | [], [] => true
  | (n, t) :: l, (n', t') :: k => String.eqb n n' && eqb t t' && fields_eqb l k
  | _, _ => false
  end.
End FieldEq.

Fixpoint type_eqb (a b : TypeSignature) : bool :=
  match a, b with
  | NoType, NoType | IntType, IntType | UIntType, UIntType | BoolType, BoolType
  | PrincipalType, PrincipalType => true
  | SequenceType (BufferType n), SequenceType (BufferType m) => n =? m
  | SequenceType (StringType s), SequenceType (StringType s') => bool_decide (s = s')
  | SequenceType (ListType (mkListTypeData n t sz)),
    SequenceType (ListType (mkListTypeData n' t' sz')) =>
      (n =? n') && type_eqb t t' && (sz =? sz')
  | TupleType (mkTupleType m sz), TupleType (mkTupleType m' sz') =>
      fields_eqb type_eqb m m' && (sz =? sz')
  | OptionalType t, OptionalType t' => type_eqb t t'
  | ResponseType t s, ResponseType t' s' => type_eqb t t' && type_eqb s s'
  | CallableType c, CallableType c' => bool_decide (c = c')
  | ListUnionType l, ListUnionType l' => bool_decide (l = l')
  | TraitReferenceType t, TraitReferenceType t' => bool_decide (t = t')
  | _, _ => false
  end.

(** ** Concrete and canonical types *)

(** The loop of [concretize] over the members of a union *)
Fixpoint concretize_union (is_trait : option TraitIdentifier) (is_principal : bool)
    (types : list CallableSubtype) : TypeR (option TraitIdentifier) :=
  match types with
  | [] => Ok is_trait
  | (CallablePrincipal _ as partial) :: types =>
      match is_trait with
      | Some _ => Err (TE_TypeMismatch (CallableType partial) PrincipalType)
      | None => concretize_union is_trait true types
      end
  | (CallableTrait t as partial) :: types =>
      if is_principal then Err (TE_TypeMismatch PrincipalType (CallableType partial))
      else concretize_union (Some t) is_principal types
  end.

Definition concretize (self : TypeSignature) : TypeR TypeSignature :=
  match self with
  | ListUnionType types =>
      is_trait ← concretize_union None true types;
      match is_trait with
      | Some t => Ok (CallableType (CallableTrait t))
      | None => Ok PrincipalType
      end
  | CallableType (CallablePrincipal _) => Ok PrincipalType
  | _ => Ok self
  end.

Fixpoint canonicalize_v2_1 (self : TypeSignature) : TypeSignature :=
  match self with
  | SequenceType (ListType (mkListTypeData max_len entry_type size)) =>
      SequenceType (ListType (mkListTypeData max_len (canonicalize_v2_1 entry_type) size))
  | OptionalType inner_type => OptionalType (canonicalize_v2_1 inner_type)
  | ResponseType t s => ResponseType (canonicalize_v2_1 t) (canonicalize_v2_1 s)
  | TupleType (mkTupleType type_map size) =>
      TupleType (mkTupleType
        (foldl (fun fields field => map_insert field.1 (canonicalize_v2_1 field.2) fields)
               [] type_map) size)
  | TraitReferenceType trait_id => CallableType (CallableTrait trait_id)
  | _ => self
  end.

Definition canonicalize (epoch : StacksEpochId) (self : TypeSignature) : TypeSignature :=
  if epoch_ltb epoch Epoch21 || bool_decide (epoch = Epoch22) then self
  else canonicalize_v2_1 self.

(** ** Admission *)

Section TupleAdmits.
Context (admits_type : TypeSignature -> TypeSignature -> TypeR bool).

Fixpoint fields_admit (mine other : TypeMap) : TypeR bool :=
  match mine with
  | [] => Ok true
  | (name, my_type_sig) :: mine =>
      match assoc name other with
      | Some other_type_sig =>
          b ← admits_type my_type_sig other_type_sig;
          if (b : bool) then fields_admit mine other else Ok false
      | None => Ok false
      end
  end.

(** [TupleTypeSignature::admits] *)
Definition tuple_admits_with (mine other : TypeMap) : TypeR bool :=
  if (length mine =? length other)%nat then fields_admit mine other else Ok false.
End TupleAdmits.

Fixpoint admits_type_v2_0 (self other : TypeSignature) : TypeR bool :=
  match self with
  | SequenceType (ListType (mkListTypeData my_len my_entry _)) =>
      match other with
      | SequenceType (ListType (mkListTypeData other_len other_entry _)) =>
          if other_len =? 0 then Ok true
          else if other_len <=? my_len then admits_type_v2_0 my_entry other_entry
          else Ok false
      | _ => Ok false
      end
  | SequenceType (BufferType my_len) =>
      match other with
      | SequenceType (BufferType other_len) => Ok (other_len <=? my_len)
      | _ => Ok false
      end
  | SequenceType (StringType (ASCII len)) =>
      match other with
      | SequenceType (StringType (ASCII other_len)) => Ok (other_len <=? len)
      | _ => Ok false
      end
  | SequenceType (StringType (UTF8 len)) =>
      match other with
      | SequenceType (StringType (UTF8 other_len)) => Ok (other_len <=? len)
      | _ => Ok false
      end
  | OptionalType my_inner_type =>
      match other with
      | OptionalType other_inner_type =>
          if is_no_type other_inner_type then Ok true
          else admits_type_v2_0 my_inner_type other_inner_type
      | _ => Ok false
      end
  | ResponseType my_ok my_err =>
      match other with
      | ResponseType other_ok other_err =>
          if is_no_type other_ok then admits_type_v2_0 my_err other_err
          else if is_no_type other_err then admits_type_v2_0 my_ok other_ok
          else
            b ← admits_type_v2_0 my_err other_err;
            if (b : bool) then admits_type_v2_0 my_ok other_ok else Ok false
      | _ => Ok false
      end
  | TupleType (mkTupleType type_map _) =>
      match other with
      | TupleType (mkTupleType other_map _) =>
          tuple_admits_with admits_type_v2_0 type_map other_map
      | _ => Ok false
      end
  | NoType => Err TE_CouldNotDetermineType
  | CallableType _ | ListUnionType _ => Err (TE_UnsupportedTypeInEpoch self Epoch20)
  | _ => Ok (type_eqb other self)
  end.

Fixpoint admits_type_v2_1 (self other : TypeSignature) : TypeR bool :=
  match concretize other with
  | Err _ => Ok false
  | Panic => Panic
  | Ok other =>
      match self with
      | SequenceType (ListType (mkListTypeData my_len my_entry _)) =>
          match other with
          | SequenceType (ListType (mkListTypeData other_len other_entry _)) =>
              if other_len =? 0 then Ok true
              else if other_len <=? my_len then admits_type_v2_1 my_entry other_entry
              else Ok false
          | _ => Ok false
          end
      | SequenceType (BufferType my_len) =>
          match other with
          | SequenceType (BufferType other_len) => Ok (other_len <=? my_len)
          | _ => Ok false
          end
      | SequenceType (StringType (ASCII len)) =>
          match other with
          | SequenceType (StringType (ASCII other_len)) => Ok (other_len <=? len)
          | _ => Ok false
          end
      | SequenceType (StringType (UTF8 len)) =>
          match other with
          | SequenceType (StringType (UTF8 other_len)) => Ok (other_len <=? len)
          | _ => Ok false
          end
      | OptionalType my_inner_type =>
          match other with
          | OptionalType other_inner_type =>
              if is_no_type other_inner_type then Ok true
              else admits_type_v2_1 my_inner_type other_inner_type
          | _ => Ok false
          end
      | ResponseType my_ok my_err =>
          match other with
          | ResponseType other_ok other_err =>
              if is_no_type other_ok then admits_type_v2_1 my_err other_err
              else if is_no_type other_err then admits_type_v2_1 my_ok other_ok
              else
                b ← admits_type_v2_1 my_err other_err;
                if (b : bool) then admits_type_v2_1 my_ok other_ok else Ok false
          | _ => Ok false
          end
      | TupleType (mkTupleType type_map _) =>
          match other with
          | TupleType (mkTupleType other_map _) =>
              tuple_admits_with admits_type_v2_1 type_map other_map
          | _ => Ok false
          end
      | NoType => Err TE_CouldNotDetermineType
      | _ => Ok (type_eqb other self)
      end
  end.

Definition admits_type (epoch : StacksEpochId) (self other : TypeSignature) : TypeR bool :=
  if epoch_ltb epoch Epoch21 then admits_type_v2_0 self other else admits_type_v2_1 self other.

(** ** Least supertypes *)

(** The derived [Ord] of callable subtypes: principals before traits, each by
    its fields in order of declaration. *)
Definition contract_key (c : QualifiedContractIdentifier) : (Z * list Z) * string :=
  ((spd_version (issuer c), spd_bytes (issuer c)), contract_name c).

Definition callable_key (c : CallableSubtype) : Z * (string * ((Z * list Z) * string)) :=
  match c with
  | CallablePrincipal c => (0, (EmptyString, contract_key c))
  | CallableTrait t => (1, (trait_name t, contract_key (trait_contract t)))
  end.

Lemma callable_key_inj a b : callable_key a = callable_key b -> a = b.
Proof.
  destruct a as [[[v1 b1] n1] | [m1 [[v1 b1] n1]]], b as [[[v2 b2] n2] | [m2 [[v2 b2] n2]]];
    cbn; intros [=]; by subst.
Qed.

#[export] Instance callable_ord : TotalOrd CallableSubtype := ord_by callable_key callable_key_inj.

Definition is_callable_trait (c : CallableSubtype) : bool :=
  match c with CallableTrait _ => true | CallablePrincipal _ => false end.

Section JoinFields.
Context (join : TypeSignature -> TypeSignature -> TypeR TypeSignature)
        (mismatch : ClarityTypeError).

(** The loop over the fields of two tuple types, filling [type_map_out] *)
Fixpoint join_fields (type_map_out types_a types_b : TypeMap) : TypeR TypeMap :=
  match types_a with
  | [] => Ok type_map_out
  | (name, entry_a) :: types_a =>
      entry_b ← ok_or (assoc name types_b) mismatch;
      entry_out ← join entry_a entry_b;
      join_fields (map_insert name entry_out type_map_out) types_a types_b
  end.

(** [factor_out_no_type] *)
Definition factor_out_no_type_with (a b : TypeSignature) : TypeR TypeSignature :=
  if is_no_type a then Ok b
  else if is_no_type b then Ok a
  else join a b.

(** The entry type of the supertype of two list types *)
Definition join_entries (len_a len_b : Z) (entry_a entry_b : TypeSignature) :
  TypeR TypeSignature :=
  if len_a =? 0 then Ok entry_b
  else if len_b =? 0 then Ok entry_a
  else join entry_a entry_b.
End JoinFields.

Definition supertype_too_large {A} (r : TypeR A) : TypeR A :=
  map_err (fun _ => TE_SupertypeTooLarge) r.

Fixpoint least_supertype_v2_0 (a b : TypeSignature) : TypeR TypeSignature :=
  match a, b with
  | TupleType (mkTupleType types_a _), TupleType (mkTupleType types_b _) =>
      type_map_out ← join_fields least_supertype_v2_0 (TE_TypeMismatch a b) [] types_a types_b;
      t ← supertype_too_large (tuple_try_from_map type_map_out);
      Ok (TupleType t)
  | SequenceType (ListType (mkListTypeData len_a entry_a _)),
    SequenceType (ListType (mkListTypeData len_b entry_b _)) =>
      entry_type ← join_entries least_supertype_v2_0 len_a len_b entry_a entry_b;
      supertype_too_large (list_of entry_type (Z.max len_a len_b))
  | ResponseType ok_a err_a, ResponseType ok_b err_b =>
      ok_type ← factor_out_no_type_with least_supertype_v2_0 ok_a ok_b;
      err_type ← factor_out_no_type_with least_supertype_v2_0 err_a err_b;
      new_response ok_type err_type
  | OptionalType some_a, OptionalType some_b =>
      some_type ← factor_out_no_type_with least_supertype_v2_0 some_a some_b;
      new_option some_type
  | SequenceType (BufferType buff_a), SequenceType (BufferType buff_b) =>
      Ok (SequenceType (BufferType (if buff_a >? buff_b then buff_a else buff_b)))
  | SequenceType (StringType (ASCII string_a)), SequenceType (StringType (ASCII string_b)) =>
      Ok (SequenceType (StringType (ASCII (if string_a >? string_b then string_a else string_b))))
  | SequenceType (StringType (UTF8 string_a)), SequenceType (StringType (UTF8 string_b)) =>
      Ok (SequenceType (StringType (UTF8 (if string_a >? string_b then string_a else string_b))))
  | NoType, x => Ok x
  | x, NoType => Ok x
  | x, y => if type_eqb x y then Ok x else Err (TE_TypeMismatch a b)
  end.

Fixpoint least_supertype_v2_1_impl (exact_tuple_fields : bool) (a b : TypeSignature) :
  TypeR TypeSignature :=
  match a, b with
  | TupleType (mkTupleType types_a _), TupleType (mkTupleType types_b _) =>
      if exact_tuple_fields && negb (length types_a =? length types_b)%nat
      then Err (TE_TypeMismatch a b)
      else
        type_map_out ← join_fields (least_supertype_v2_1_impl exact_tuple_fields)
                         (TE_TypeMismatch a b) [] types_a types_b;
        t ← supertype_too_large (tuple_try_from_map type_map_out);
        Ok (TupleType t)
  | SequenceType (ListType (mkListTypeData len_a entry_a _)),
    SequenceType (ListType (mkListTypeData len_b entry_b _)) =>
      entry_type ← join_entries (least_supertype_v2_1_impl exact_tuple_fields)
                     len_a len_b entry_a entry_b;
      supertype_too_large (list_of entry_type (Z.max len_a len_b))
  | ResponseType ok_a err_a, ResponseType ok_b err_b =>
      ok_type ← least_supertype_v2_1_impl exact_tuple_fields ok_a ok_b;
      err_type ← least_supertype_v2_1_impl exact_tuple_fields err_a err_b;
      new_response ok_type err_type
  | OptionalType some_a, OptionalType some_b =>
      some_type ← least_supertype_v2_1_impl exact_tuple_fields some_a some_b;
      new_option some_type
  | SequenceType (BufferType buff_a), SequenceType (BufferType buff_b) =>
      Ok (SequenceType (BufferType (if buff_a >? buff_b then buff_a else buff_b)))
  | SequenceType (StringType (ASCII string_a)), SequenceType (StringType (ASCII string_b)) =>
      Ok (SequenceType (StringType (ASCII (if string_a >? string_b then string_a else string_b))))
  | SequenceType (StringType (UTF8 string_a)), SequenceType (StringType (UTF8 string_b)) =>
      Ok (SequenceType (StringType (UTF8 (if string_a >? string_b then string_a else string_b))))
  | NoType, x => Ok x
  | x, NoType => Ok x
  | CallableType x, CallableType y =>
      if bool_decide (x = y) then Ok a else Ok (ListUnionType (set_from [x; y]))
  | ListUnionType l, CallableType c | CallableType c, ListUnionType l =>
      Ok (ListUnionType (set_insert c l))
  | PrincipalType, CallableType (CallablePrincipal _)
  | CallableType (CallablePrincipal _), PrincipalType => Ok PrincipalType
  | PrincipalType, ListUnionType l | ListUnionType l, PrincipalType =>
      if existsb is_callable_trait l then Err (TE_TypeMismatch a b) else Ok PrincipalType
  | ListUnionType l1, ListUnionType l2 => Ok (ListUnionType (set_union l1 l2))
  | x, y => if type_eqb x y then Ok x else Err (TE_TypeMismatch a b)
  end.

Definition least_supertype_v2_1 (a b : TypeSignature) : TypeR TypeSignature :=
  least_supertype_v2_1_impl false a b.

Definition least_supertype (epoch : StacksEpochId) (a b : TypeSignature) : TypeR TypeSignature :=
  if epoch_ltb epoch Epoch21 then least_supertype_v2_0 a b else least_supertype_v2_1 a b.

Definition least_supertype_for_analysis (epoch : StacksEpochId) (a b : TypeSignature) :
  TypeR TypeSignature :=
  least_supertype_v2_1_impl (requires_matching_tuple_fields_in_analysis epoch) a b.

Definition factor_out_no_type (epoch : StacksEpochId) (a b : TypeSignature) :
  TypeR TypeSignature :=
  factor_out_no_type_with (least_supertype epoch) a b.

(** ** Types of lists *)

(** The fold of [parent_list_type_from_iter] *)
Fixpoint fold_entry_types (join : TypeSignature -> TypeSignature -> TypeR TypeSignature)
    (entry_type : option TypeSignature) (entry_types : list (TypeR TypeSignature)) :
  TypeR (option TypeSignature) :=
  match entry_types with
  | [] => Ok entry_type
  | next :: entry_types =>
      next ← next;
      entry_type ← match entry_type with
                   | None => Ok next
                   | Some current =>
                       if type_eqb current next then Ok current else join current next
                   end;
      fold_entry_types join (Some entry_type) entry_types
  end.

Definition parent_list_type_from_iter (len : Z) (entry_types : list (TypeR TypeSignature))
    (join : TypeSignature -> TypeSignature -> TypeR TypeSignature) : TypeR ListTypeData :=
  entry_type ← fold_entry_types join None entry_types;
  match entry_type with
  | Some entry_type =>
      len ← ok_or (checked 0 u32_max len) TE_ValueTooLarge;
      new_list entry_type len
  | None => Ok empty_list
  end.

Definition parent_list_type (children : list TypeSignature) : TypeR ListTypeData :=
  parent_list_type_from_iter (Z.of_nat (length children)) (Ok <$> children) least_supertype_v2_1.

Definition parent_list_type_for_analysis (epoch : StacksEpochId)
    (children : list TypeSignature) : TypeR ListTypeData :=
  parent_list_type_from_iter (Z.of_nat (length children)) (Ok <$> children)
    (least_supertype_for_analysis epoch).

(** ** The invariant of type signatures

    A type built by the guarded constructors: lengths in range, cached sizes
    equal to the sizes recomputed from the components, every constructor
    accepting its arguments, maps and unions ordered and not empty. *)

Definition is_ok {E A} (r : result E A) : bool :=
  match r with Ok _ => true | _ => false end.

Definition computes (r : TypeR (option Z)) (size : Z) : bool :=
  match r with Ok (Some s) => s =? size | _ => false end.

Definition not_empty {A} (l : list A) : bool := match l with [] => false | _ => true end.

Fixpoint valid_type (t : TypeSignature) : bool :=
  match t with
  | SequenceType (BufferType n) | SequenceType (StringType (ASCII n)) =>
      in_range 0 MAX_VALUE_SIZE n
  | SequenceType (StringType (UTF8 n)) => in_range 0 MAX_UTF8_VALUE_SIZE n
  | SequenceType (ListType (mkListTypeData n e size)) =>
      valid_type e && in_range 0 u32_max n && (1 + depth e <=? MAX_TYPE_DEPTH)
      && computes (list_compute_inner_size e n) size
  | TupleType (mkTupleType m size) =>
      forallb (fun field => valid_type field.2 && (1 + depth field.2 <=? MAX_TYPE_DEPTH)) m
      && not_empty m && ordered m.*1 && computes (tuple_compute_inner_size m) size
  | OptionalType t => valid_type t && is_ok (new_option t)
  | ResponseType t s => valid_type t && valid_type s && is_ok (new_response t s)
  | ListUnionType l => not_empty l && ordered l
  | _ => true
  end.

(** ** Induction on types *)

Section TypeInduction.
Context (P : TypeSignature -> Prop).
Context (P_NoType : P NoType) (P_Int : P IntType) (P_UInt : P UIntType) (P_Bool : P BoolType).
Context (P_Principal : P PrincipalType).
Context (P_Buffer : forall n, P (SequenceType (BufferType n))).
Context (P_String : forall s, P (SequenceType (StringType s))).
Context (P_List : forall n e size, P e -> P (SequenceType (ListType (mkListTypeData n e size)))).
Context (P_Tuple : forall m size, Forall (fun f => P f.2) m -> P (TupleType (mkTupleType m size))).
Context (P_Optional : forall t, P t -> P (OptionalType t)).
Context (P_Response : forall t s, P t -> P s -> P (ResponseType t s)).
Context (P_Callable : forall c, P (CallableType c)).
Context (P_Union : forall l, P (ListUnionType l)).
Context (P_Trait : forall t, P (TraitReferenceType t)).

Fixpoint type_induction (t : TypeSignature) : P t :=
  match t with
  | NoType => P_NoType
  | IntType => P_Int
  | UIntType => P_UInt
  | BoolType => P_Bool
  | PrincipalType => P_Principal
  | SequenceType (BufferType n) => P_Buffer n
  | SequenceType (StringType s) => P_String s
  | SequenceType (ListType (mkListTypeData n e size)) => P_List n e size (type_induction e)
  | TupleType (mkTupleType m size) =>
      P_Tuple m size
        ((fix fields (m : TypeMap) : Forall (fun f => P f.2) m :=
            match m with
            | [] => List.Forall_nil _
            | (n, t) :: m => List.Forall_cons _ (n, t) m (type_induction t) (fields m)
            end) m)
  | OptionalType t => P_Optional t (type_induction t)
  | ResponseType t s => P_Response t s (type_induction t) (type_induction s)
  | CallableType c => P_Callable c
  | ListUnionType l => P_Union l
  | TraitReferenceType t => P_Trait t
  end.
End TypeInduction.

(** ** Equality *)

Lemma fields_eqb_eq (m : TypeMap) :
  Forall (fun f => forall b, type_eqb f.2 b = true <-> f.2 = b) m ->
  forall k, fields_eqb type_eqb m k = true <-> m = k.
Proof.
  induction 1 as [| [n t] m Ht _ IH]; intros [| [n' t'] k]; cbn; try done.
  rewrite !andb_true_iff, String.eqb_eq, IH, Ht. cbn. split; [intros [[-> ->] ->] | intros [=]]; naive_solver.
Qed.

Lemma type_eqb_eq a b : type_eqb a b = true <-> a = b.
Proof.
  revert b. induction a as [| | | | |n|s|n e sz IH|m sz IH|t IH|t s IH IH'|c|l|t] using type_induction;
    intros b; destruct b as [| | | |[n'|[n' e' sz']|s']| |[m' sz']|t'|t' s'|c'|l'|t'];
    cbn; try done; rewrite ?andb_true_iff, ?bool_decide_eq_true, ?Z.eqb_eq, ?IH, ?IH';
    try naive_solver.
  rewrite (fields_eqb_eq m IH). naive_solver.
Qed.

Lemma type_eqb_refl a : type_eqb a a = true.
Proof. by apply type_eqb_eq. Qed.

#[export] Instance TypeSignature_eq_dec : EqDecision TypeSignature.
Proof.
  intros a b. refine (cast_if (decide (type_eqb a b = true))); by rewrite <- type_eqb_eq.
Defined.

Lemma is_no_type_eq t : is_no_type t = true <-> t = NoType.
Proof. by destruct t. Qed.

(** ** No operation on types panics *)

Lemma panic_free_new_list t n : panic_free (new_list t n).
Proof. unfold new_list, list_compute_inner_size, sig_size. panic_free. Qed.
Lemma panic_free_new_option t : panic_free (new_option t).
Proof. unfold new_option, sig_size. panic_free. Qed.
Lemma panic_free_new_response t s : panic_free (new_response t s).
Proof. unfold new_response, sig_size. panic_free. Qed.
Lemma panic_free_add_value_sizes n m : panic_free (add_value_sizes n m).
Proof. revert n. induction m as [| [k t] m IH]; intros n; cbn; unfold sig_size; panic_free. Qed.
Lemma panic_free_tuple_try_from_map m : panic_free (tuple_try_from_map m).
Proof.
  pose proof panic_free_add_value_sizes. unfold tuple_try_from_map, tuple_compute_inner_size. panic_free.
Qed.
Lemma panic_free_concretize t : panic_free (concretize t).
Proof.
  assert (forall o b l, panic_free (concretize_union o b l)) as Hu.
  { intros o b l. revert o b. induction l as [| [] l IH]; intros; cbn; panic_free. }
  unfold concretize. panic_free.
Qed.

Lemma panic_free_fields_admit f (m k : TypeMap) :
  Forall (fun e => forall b, panic_free (f e.2 b)) m -> panic_free (fields_admit f m k).
Proof. induction 1 as [| [n t] m Ht _ IH]; cbn; panic_free. Qed.

Lemma panic_free_admits_type_v2_1 a b : panic_free (admits_type_v2_1 a b).
Proof.
  revert b. induction a using type_induction; intros b; cbn;
    (pose proof (panic_free_concretize b) as Hb; destruct (concretize b) as [b' | |]; [| done ..]);
    unfold tuple_admits_with;
    panic_free; by apply panic_free_fields_admit.
Qed.

Lemma panic_free_join_fields f e out (m k : TypeMap) :
  Forall (fun e => forall b, panic_free (f e.2 b)) m -> panic_free (join_fields f e out m k).
Proof. intros H. revert out. induction H as [| [n t] m Ht _ IH]; intros out; cbn; panic_free. Qed.

Lemma panic_free_least_supertype_v2_1_impl exact a b :
  panic_free (least_supertype_v2_1_impl exact a b).
Proof.
  pose proof panic_free_new_list. pose proof panic_free_new_option. pose proof panic_free_new_response.
  pose proof panic_free_tuple_try_from_map.
  revert b. induction a using type_induction; intros b; cbn;
    unfold join_entries, supertype_too_large, list_of;
    panic_free; by apply panic_free_join_fields.
Qed.

Lemma panic_free_parent_list_type_from_iter n ts join :
  (forall a b, panic_free (join a b)) -> Forall panic_free ts ->
  panic_free (parent_list_type_from_iter n ts join).
Proof.
  intros Hj Hts. pose proof panic_free_new_list.
  assert (forall o, panic_free (fold_entry_types join o ts))
    by (induction Hts; intros o; cbn; panic_free).
  unfold parent_list_type_from_iter. panic_free.
Qed.
#[export] Hint Resolve panic_free_new_list panic_free_new_option panic_free_new_response
  panic_free_tuple_try_from_map panic_free_admits_type_v2_1 panic_free_least_supertype_v2_1_impl
  : panic_free.

(** ** Depth *)

Lemma foldl_max_le {A} (f : A -> Z) (l : list A) z B :
  foldl (fun mx x => Z.max mx (f x)) z l <= B <-> z <= B /\ Forall (fun x => f x <= B) l.
Proof.
  revert z. induction l as [| x l IH]; intros z; cbn.
  { split; [by repeat constructor | tauto]. }
  rewrite IH, Forall_cons, Z.max_lub_iff. tauto.
Qed.

Lemma depth_tuple_le m size B :
  0 <= B -> depth (TupleType (mkTupleType m size)) <= 1 + B <->
  Forall (fun f => depth f.2 <= B) m.
Proof. intros HB. cbn. rewrite <- Z.add_le_mono_l, foldl_max_le. tauto. Qed.

Lemma depth_pos t : 1 <= depth t.
Proof.
  induction t using type_induction; cbn; try lia.
  pose proof (proj1 (foldl_max_le (fun f : ClarityName * TypeSignature => depth f.2) m 0 _)
                (Z.le_refl _)). lia.
Qed.

(** ** Sizes of valid types *)

Lemma computes_eq r size : computes r size = true <-> r = Ok (Some size).
Proof. destruct r as [[s |] | |]; cbn; rewrite ?Z.eqb_eq; split; congruence. Qed.

Lemma sig_size_Ok t s : sig_size t = Ok s <-> inner_size t = Some s.
Proof. apply ok_or_Ok. Qed.

Lemma capped_Some x y : capped x = Some y <-> y = x /\ x <= MAX_VALUE_SIZE.
Proof.
  unfold capped. destruct (Z.gtb_spec x MAX_VALUE_SIZE); split; intros; naive_solver lia.
Qed.

Lemma new_option_Ok t t' :
  new_option t = Ok t' <->
  t' = OptionalType t /\ depth t < MAX_TYPE_DEPTH /\
  exists s, inner_size t = Some s /\ s < MAX_VALUE_SIZE.
Proof.
  unfold new_option, WRAPPER_VALUE_SIZE. destruct (sig_size t) as [s | |] eqn:E; cbn.
  - apply sig_size_Ok in E. rewrite E.
    destruct (Z.gtb_spec (1 + s) MAX_VALUE_SIZE); [naive_solver lia |].
    destruct (Z.gtb_spec (1 + depth t) MAX_TYPE_DEPTH); naive_solver lia.
  - unfold sig_size, ok_or in E. destruct (inner_size t); naive_solver.
  - unfold sig_size, ok_or in E. by destruct (inner_size t).
Qed.

Lemma new_response_Ok t s t' :
  new_response t s = Ok t' <->
  t' = ResponseType t s /\ depth t < MAX_TYPE_DEPTH /\ depth s < MAX_TYPE_DEPTH /\
  exists x y, inner_size t = Some x /\ inner_size s = Some y /\
    x < MAX_VALUE_SIZE /\ y < MAX_VALUE_SIZE.
Proof.
  unfold new_response, WRAPPER_VALUE_SIZE, sig_size.
  destruct (inner_size t) as [x |]; cbn; [| naive_solver].
  destruct (inner_size s) as [y |]; cbn; [| naive_solver].
  destruct (Z.gtb_spec (1 + Z.max x y) MAX_VALUE_SIZE); [naive_solver lia |].
  destruct (Z.gtb_spec (1 + Z.max (depth t) (depth s)) MAX_TYPE_DEPTH); [naive_solver lia |].
  split; [intros [= <-] | naive_solver]. split_and!; [done | lia | lia |].
  exists x, y. split_and!; [done | done | lia | lia].
Qed.

Lemma is_ok_spec {E A} (r : result E A) : is_ok r = true <-> exists a, r = Ok a.
Proof. destruct r; naive_solver. Qed.

Lemma new_list_Ok e n l :
  new_list e n = Ok l <->
  depth e < MAX_TYPE_DEPTH /\
  exists size, list_compute_inner_size e n = Ok (Some size) /\ l = mkListTypeData n e size.
Proof.
  unfold new_list. destruct (Z.gtb_spec (1 + depth e) MAX_TYPE_DEPTH); [naive_solver lia |].
  destruct (list_compute_inner_size e n) as [[s |] | |]; cbn; naive_solver lia.
Qed.

Lemma existsb_too_deep (m : TypeMap) :
  existsb (fun field => 1 + depth field.2 >? MAX_TYPE_DEPTH) m = false <->
  Forall (fun field => depth field.2 < MAX_TYPE_DEPTH) m.
Proof.
  induction m as [| [n t] m IH]; cbn; [by split; [constructor |] |].
  rewrite orb_false_iff, IH, Forall_cons, Z.gtb_ltb, Z.ltb_ge. cbn. intuition lia.
Qed.

Lemma tuple_try_from_map_Ok m t :
  tuple_try_from_map m = Ok t <->
  m <> [] /\ Forall (fun field => depth field.2 < MAX_TYPE_DEPTH) m /\
  exists size, tuple_compute_inner_size m = Ok (Some size) /\ t = mkTupleType m size.
Proof.
  unfold tuple_try_from_map. destruct m as [| f m']; [naive_solver |].
  set (m := f :: m'). rewrite <- existsb_too_deep.
  destruct (existsb _ m); [naive_solver |].
  destruct (tuple_compute_inner_size m) as [[s |] | |]; cbn; naive_solver.
Qed.

Lemma not_empty_spec {A} (l : list A) : not_empty l = true <-> l <> [].
Proof. by destruct l. Qed.

Lemma valid_list n e size :
  valid_type (SequenceType (ListType (mkListTypeData n e size))) = true <->
  valid_type e = true /\ is_u32 n /\ new_list e n = Ok (mkListTypeData n e size).
Proof.
  cbn [valid_type]. rewrite !andb_true_iff, in_range_spec, computes_eq, Z.leb_le, new_list_Ok.
  unfold is_u32. split; [intros [[[? ?] ?] ?] | intros (? & ? & ? & s & ? & [= ->])].
  - split_and!; try done; try lia; by eauto.
  - split_and!; try done; lia.
Qed.

Lemma valid_tuple m size :
  valid_type (TupleType (mkTupleType m size)) = true <->
  Forall (fun field => valid_type field.2 = true) m /\ ordered m.*1 = true /\
  tuple_try_from_map m = Ok (mkTupleType m size).
Proof.
  cbn [valid_type]. rewrite !andb_true_iff, computes_eq, not_empty_spec, tuple_try_from_map_Ok.
  rewrite forallb_True_iff_Forall.
  split; [intros [[[Hf ?] ?] ?] | intros (Hv & ? & ? & Hd & s & ? & [= ->])].
  - split_and!; try done; [| | by eauto]; eapply Forall_impl; try exact Hf; cbn; intros [? ?]; rewrite andb_true_iff, Z.leb_le; cbn; intuition lia.
  - split_and!; try done. apply Forall_forall. intros f Hin.
    rewrite Forall_forall in Hv, Hd. specialize (Hv f Hin). specialize (Hd f Hin). cbn in *.
    rewrite Hv. cbn. apply Z.leb_le. lia.
Qed.

Lemma valid_option t :
  valid_type (OptionalType t) = true <-> valid_type t = true /\ new_option t = Ok (OptionalType t).
Proof.
  cbn [valid_type]. rewrite andb_true_iff, is_ok_spec. setoid_rewrite new_option_Ok. naive_solver.
Qed.

Lemma valid_response t s :
  valid_type (ResponseType t s) = true <->
  valid_type t = true /\ valid_type s = true /\ new_response t s = Ok (ResponseType t s).
Proof.
  cbn [valid_type]. rewrite !andb_true_iff, is_ok_spec. setoid_rewrite new_response_Ok.
  naive_solver.
Qed.

#[export] Hint Unfold MAX_VALUE_SIZE MAX_TYPE_DEPTH WRAPPER_VALUE_SIZE INT_SIZE
  BOOL_SIZE NO_TYPE_SIZE PRINCIPAL_SIZE TRAIT_SIZE SEQUENCE_LENGTH_PREFIX UTF8_CHAR_SIZE
  TYPE_DISCRIMINANT_SIZE TYPE_LENGTH_FIELD_SIZE : ints.

Lemma list_compute_inner_size_Some e n s :
  list_compute_inner_size e n = Ok (Some s) <->
  exists es ts, inner_size e = Some es /\ list_compute_type_size e = Some ts /\
    is_u32 (es * n) /\ is_u32 s /\ s = es * n + ts /\ s <= MAX_VALUE_SIZE.
Proof.
  unfold list_compute_inner_size, sig_size, u32_checked_mul, u32_checked_add.
  destruct (inner_size e) as [es |]; cbn; [| naive_solver].
  destruct (checked 0 u32_max (es * n)) as [x |] eqn:E1; cbn.
  2:{ apply checked_None in E1. split; [done | intros (? & ? & [= <-] & _ & ? & _)]; ints. }
  apply checked_Some in E1 as [-> Hx]. destruct (list_compute_type_size e) as [ts |]; cbn; [| naive_solver].
  destruct (checked 0 u32_max (es * n + ts)) as [y |] eqn:E2; cbn.
  2:{ apply checked_None in E2.
      split; [done | intros (? & ? & [= <-] & [= <-] & _ & ? & ? & _)]; ints. }
  apply checked_Some in E2 as [-> Hy].
  split.
  - intros [= [-> ?]%capped_Some]. exists es, ts. by split_and!.
  - intros (? & ? & [= <-] & [= <-] & _ & _ & -> & ?). f_equal. by apply capped_Some.
Qed.

Lemma add_value_sizes_Some m total s :
  add_value_sizes total m = Ok (Some s) <->
  add_fields inner_size total m = Some s.
Proof.
  revert total. induction m as [| [name t] m IH]; intros total; cbn; [naive_solver |].
  unfold sig_size. destruct (inner_size t) as [x |]; cbn; [| done].
  destruct (u32_checked_add total x) as [y |]; cbn; [| done].
  destruct (u32_checked_add y (name_len name)) as [z |]; cbn; [apply IH | done].
Qed.

Lemma tuple_compute_inner_size_Some m s :
  tuple_compute_inner_size m = Ok (Some s) <->
  s <= MAX_VALUE_SIZE /\
  exists header ts total, map_header m = Some header /\ tuple_compute_type_size m = Some ts /\
    u32_checked_add header ts = Some total /\ add_fields inner_size total m = Some s.
Proof.
  unfold tuple_compute_inner_size.
  destruct (map_header m) as [h |]; cbn; [| naive_solver].
  destruct (tuple_compute_type_size m) as [ts |]; cbn; [| naive_solver].
  destruct (u32_checked_add h ts) as [total |] eqn:E; cbn; [| naive_solver].
  destruct (add_value_sizes total m) as [[x |] | |] eqn:Ea; cbn.
  - apply add_value_sizes_Some in Ea.
    split; [intros [= [-> ?]%capped_Some]; naive_solver |].
    intros (? & ? & ? & ? & [= <-] & [= <-] & ? & ?). simplify_eq. f_equal. by apply capped_Some.
  - split; [done |]. intros (_ & ? & ? & ? & [= <-] & [= <-] & ? & Hs%add_value_sizes_Some).
    congruence.
  - split; [done |]. intros (_ & ? & ? & ? & [= <-] & [= <-] & ? & Hs%add_value_sizes_Some).
    congruence.
  - split; [done |]. intros (_ & ? & ? & ? & [= <-] & [= <-] & ? & Hs%add_value_sizes_Some).
    congruence.
Qed.

Lemma add_fields_nonneg f m total s : 0 <= total -> add_fields f total m = Some s -> 0 <= s.
Proof.
  revert total. induction m as [| [name t] m IH]; intros total Ht; cbn; [by intros [= <-] |].
  intros (x & _ & (y & _ & (z & Hz & H)%bind_Some)%bind_Some)%bind_Some.
  apply (IH z); [ints | done].
Qed.

(** Buffers and strings are the types whose size may exceed [MAX_VALUE_SIZE],
    by the length prefix. *)
Definition is_flat_sequence (t : TypeSignature) : bool :=
  match t with SequenceType (BufferType _) | SequenceType (StringType _) => true | _ => false end.

Lemma valid_inner_size t :
  valid_type t = true ->
  exists s, inner_size t = Some s /\ 0 <= s <= MAX_VALUE_SIZE + SEQUENCE_LENGTH_PREFIX /\
    (is_flat_sequence t = false -> s <= MAX_VALUE_SIZE).
Proof.
  induction t as [| | | | |n|[n|n]|n e sz _|m sz _|t IH|t s IH IH'|[|]|l|t] using type_induction;
    intros Hv; try (eexists; split; [reflexivity | split; [ints | intros; ints]]).
  - cbn in *. apply in_range_spec in Hv. exists (4 + n). split; [| split; [ints | done]].
    apply checked_Some. ints.
  - cbn in *. apply in_range_spec in Hv. exists (4 + n). split; [| split; [ints | done]].
    apply checked_Some. ints.
  - cbn in *. apply in_range_spec in Hv. change MAX_UTF8_VALUE_SIZE with 262144 in Hv. unfold u32_checked_mul, u32_checked_add.
    exists (4 * n + 4). split; [| split; [ints | done]].
    rewrite (proj2 (checked_Some 0 u32_max (UTF8_CHAR_SIZE * n) (4 * n))) by ints. cbn.
    apply checked_Some. ints.
  - apply valid_list in Hv as (_ & _ & (? & s & Hs & [= ->])%new_list_Ok).
    apply list_compute_inner_size_Some in Hs as (? & ? & _ & _ & _ & ? & _ & ?).
    exists s. split; [done |]. split; [ints | done].
  - apply valid_tuple in Hv as (_ & _ & (_ & _ & s & Hs & [= ->])%tuple_try_from_map_Ok).
    apply tuple_compute_inner_size_Some in Hs as (? & h & ts & total & _ & _ & Ht & Hf).
    exists s. assert (0 <= s) by (apply add_fields_nonneg in Hf; ints).
    split; [done |]. split; [ints | done].
  - apply valid_option in Hv as (Hv & (_ & _ & s & Hs & Hlt)%new_option_Ok).
    destruct (IH Hv) as (s' & Hs' & Hb & _). simplify_eq. cbn. rewrite Hs. cbn.
    exists (s + 1). split; [apply checked_Some; ints | split; [ints | intros; ints]].
  - apply valid_response in Hv as (Hv & Hv' & (_ & _ & _ & x & y & Hx & Hy & ? & ?)%new_response_Ok).
    destruct (IH Hv) as (x' & ? & ? & _), (IH' Hv') as (y' & ? & ? & _). simplify_eq.
    cbn. rewrite Hx, Hy. cbn.
    exists (Z.max x y + 1). split; [apply checked_Some; ints | split; [ints | intros; ints]].
Qed.

Lemma valid_depth t : valid_type t = true -> depth t <= MAX_TYPE_DEPTH.
Proof.
  destruct t as [| | | |[n|[n e sz]|[n|n]]| |[m sz]|t|t s|[|]|l|t]; intros Hv; try done.
  - apply valid_list in Hv as (_ & _ & (? & _)%new_list_Ok). cbn. lia.
  - apply valid_tuple in Hv as (_ & _ & (_ & Hd & _)%tuple_try_from_map_Ok).
    apply (depth_tuple_le m sz 31); [done |]. eapply Forall_impl; [exact Hd |]. cbn. ints.
  - apply valid_option in Hv as (Hv & (_ & ? & _)%new_option_Ok). cbn. lia.
  - apply valid_response in Hv as (_ & _ & (_ & ? & ? & _)%new_response_Ok). cbn. lia.
Qed.

(** ** Constructors establish the invariant *)

Lemma new_list_valid e n l :
  valid_type e = true -> is_u32 n -> new_list e n = Ok l ->
  valid_type (SequenceType (ListType l)) = true.
Proof.
  intros He Hn Hl. pose proof Hl as (_ & size & _ & ->)%new_list_Ok. by apply valid_list.
Qed.

Lemma new_option_valid t t' : valid_type t = true -> new_option t = Ok t' -> valid_type t' = true.
Proof. intros Hv Ht. pose proof Ht as (-> & _)%new_option_Ok. by apply valid_option. Qed.

Lemma new_response_valid t s t' :
  valid_type t = true -> valid_type s = true -> new_response t s = Ok t' -> valid_type t' = true.
Proof. intros ? ? Ht. pose proof Ht as (-> & _)%new_response_Ok. by apply valid_response. Qed.

Lemma tuple_try_from_map_valid m t :
  Forall (fun f => valid_type f.2 = true) m -> ordered m.*1 = true ->
  tuple_try_from_map m = Ok t -> valid_type (TupleType t) = true.
Proof.
  intros ? ? Ht. pose proof Ht as (_ & _ & size & _ & ->)%tuple_try_from_map_Ok.
  by apply valid_tuple.
Qed.

Lemma map_insert_Forall {A} (P : string * A -> Prop) name a m :
  Forall P m -> P (name, a) -> Forall P (map_insert name a m).
Proof.
  intros Hm Ha. induction Hm as [| [n b] m Hb Hm IH]; cbn; [by repeat constructor |].
  destruct (cmp name n) eqn:E; repeat constructor; try done.
  by apply cmp_eq in E as ->.
Qed.

Lemma map_append_Forall {A} (P : string * A -> Prop) m1 m2 :
  Forall P m1 -> Forall P m2 -> Forall P (map_append m1 m2).
Proof.
  intros H1 H2. revert m1 H1. induction H2 as [| [n a] m2 Ha _ IH]; intros m1 H1; [done |].
  by apply IH, map_insert_Forall.
Qed.

Lemma collect_fields_valid type_data m m' :
  Forall (fun f => valid_type f.2 = true) type_data ->
  Forall (fun f => valid_type f.2 = true) m -> ordered m.*1 = true ->
  collect_fields m type_data = Ok m' ->
  Forall (fun f => valid_type f.2 = true) m' /\ ordered m'.*1 = true.
Proof.
  intros Hd. revert m. induction Hd as [| [n t] d Ht _ IH]; intros m Hm Ho; cbn; [by intros [= <-] |].
  destruct (assoc n m); [done |].
  apply IH; [by apply map_insert_Forall | by apply map_insert_ordered].
Qed.

Create HintDb types.

(** ** Least supertypes of valid types *)

(** [fo] is the join of field [fa] with the field of the same name in [types_b]. *)
Definition joined (join : TypeSignature -> TypeSignature -> TypeR TypeSignature)
    (types_b : TypeMap) (fa fo : ClarityName * TypeSignature) : Prop :=
  fa.1 = fo.1 /\ exists entry_b, assoc fa.1 types_b = Some entry_b /\ join fa.2 entry_b = Ok fo.2.

Lemma join_fields_app join mismatch out types_a types_b out' :
  Forall (fun k => Forall (fun k' => cmp k k' = Lt) types_a.*1) out.*1 ->
  ordered types_a.*1 = true ->
  join_fields join mismatch out types_a types_b = Ok out' ->
  exists m, out' = out ++ m /\ Forall2 (joined join types_b) types_a m.
Proof.
  revert out. induction types_a as [| [name ea] ta IH]; intros out Hb Ho; cbn [join_fields].
  { intros [= <-]. exists []. by rewrite app_nil_r. }
  rewrite fmap_cons, ordered_cons in Ho. destruct Ho as [Hl Ho].
  intros (eb & Heb%ok_or_Ok & (eo & Heo & Hr)%result_bind_Ok)%result_bind_Ok.
  rewrite map_insert_snoc in Hr.
  2:{ eapply Forall_impl; [exact Hb |]. intros k Hk. by apply Forall_cons in Hk as [? _]. }
  apply IH in Hr as (m & -> & Hm); [| | done].
  - exists ((name, eo) :: m). rewrite <- (assoc_L (++)). split; [done |].
    constructor; [| done]. split; [done |]. by exists eb.
  - rewrite fmap_app. apply Forall_app. split; [| by repeat constructor].
    eapply Forall_impl; [exact Hb |]. intros k Hk. rewrite fmap_cons, Forall_cons in Hk. tauto.
Qed.

Lemma join_fields_spec join mismatch types_a types_b m :
  ordered types_a.*1 = true ->
  join_fields join mismatch [] types_a types_b = Ok m ->
  Forall2 (joined join types_b) types_a m /\ m.*1 = types_a.*1.
Proof.
  intros Ho Hj. apply join_fields_app in Hj as (m' & -> & Hm); [| constructor | done].
  cbn. split; [done |]. induction Hm as [| fa fo ta m'' [? ?] _ IH]; [done |]. cbn.
  rewrite fmap_cons, ordered_cons in Ho. f_equal; [done | apply IH; tauto].
Qed.

Lemma joined_valid join types_a types_b m :
  Forall (fun fa => forall b c, valid_type fa.2 = true -> valid_type b = true ->
    join fa.2 b = Ok c -> valid_type c = true) types_a ->
  Forall (fun f => valid_type f.2 = true) types_a ->
  Forall (fun f => valid_type f.2 = true) types_b ->
  Forall2 (joined join types_b) types_a m ->
  Forall (fun f => valid_type f.2 = true) m.
Proof.
  intros IH Ha Hb Hm. induction Hm as [| fa fo ta m (Hn & eb & He & Hj) _ IHm]; [constructor |].
  apply Forall_cons in IH as [IHf IH], Ha as [Hfa Ha]. constructor; [| by apply IHm].
  apply (IHf eb); [done | | done]. rewrite Forall_forall in Hb.
  by apply (Hb (fa.1, eb)), assoc_elem_of.
Qed.

Lemma join_entries_valid (join : TypeSignature -> TypeSignature -> TypeR TypeSignature) na nb ea eb c :
  (forall b c, valid_type ea = true -> valid_type b = true -> join ea b = Ok c ->
    valid_type c = true) ->
  valid_type ea = true -> valid_type eb = true ->
  join_entries join na nb ea eb = Ok c -> valid_type c = true.
Proof.
  intros IH Ha Hb. unfold join_entries.
  destruct (na =? 0); [by intros [= <-] |]. destruct (nb =? 0); [by intros [= <-] |]. by apply IH.
Qed.

Lemma factor_out_valid (join : TypeSignature -> TypeSignature -> TypeR TypeSignature) a b c :
  (forall b c, valid_type a = true -> valid_type b = true -> join a b = Ok c ->
    valid_type c = true) ->
  valid_type a = true -> valid_type b = true ->
  factor_out_no_type_with join a b = Ok c -> valid_type c = true.
Proof.
  intros IH Ha Hb. unfold factor_out_no_type_with.
  destruct (is_no_type a); [by intros [= <-] |]. destruct (is_no_type b); [by intros [= <-] |].
  by apply IH.
Qed.

Ltac cases_of_type b :=
  destruct b as [| | | |[?n'|[?n' ?e' ?sz']|[?n'|?n']]| |[?m' ?sz']|?t'|?t' ?s'|[?c'|?c']|?l'|?r'].

Lemma list_of_join_valid entry na nb c :
  valid_type entry = true -> is_u32 na -> is_u32 nb ->
  supertype_too_large (list_of entry (Z.max na nb)) = Ok c -> valid_type c = true.
Proof.
  intros He Ha Hb (l & Hl & [= <-])%map_err_Ok%result_bind_Ok.
  apply (new_list_valid entry (Z.max na nb)); [done | ints | done].
Qed.

Lemma tuple_join_valid join mismatch types_a types_b m t :
  Forall (fun fa => forall b c, valid_type fa.2 = true -> valid_type b = true ->
    join fa.2 b = Ok c -> valid_type c = true) types_a ->
  Forall (fun f => valid_type f.2 = true) types_a ->
  Forall (fun f => valid_type f.2 = true) types_b ->
  ordered types_a.*1 = true ->
  join_fields join mismatch [] types_a types_b = Ok m ->
  supertype_too_large (tuple_try_from_map m) = Ok t -> valid_type (TupleType t) = true.
Proof.
  intros IH Ha Hb Ho (Hm & Hk)%join_fields_spec Ht%map_err_Ok; [| done].
  apply (tuple_try_from_map_valid m); [| by rewrite Hk | done].
  by eapply joined_valid.
Qed.

Lemma larger_valid a b lo hi :
  in_range lo hi a = true -> in_range lo hi b = true -> in_range lo hi (if a >? b then a else b) = true.
Proof. by destruct (a >? b). Qed.

Lemma not_empty_insert `{TotalOrd K} (k : K) l : not_empty (set_insert k l) = true.
Proof. destruct l as [| x l]; [done |]. cbn. by destruct (cmp k x). Qed.

Lemma set_insert_valid c l :
  valid_type (ListUnionType l) = true -> valid_type (ListUnionType (set_insert c l)) = true.
Proof.
  cbn. rewrite !andb_true_iff, not_empty_insert. intros [_ ?]. by rewrite set_insert_ordered.
Qed.

Lemma set_union_valid l1 l2 :
  valid_type (ListUnionType l1) = true -> valid_type (ListUnionType (set_union l1 l2)) = true.
Proof. intros Hv. induction l2 as [| c l2 IH]; [done |]. by apply set_insert_valid. Qed.

Lemma set_from_valid c l : valid_type (ListUnionType (set_from (c :: l))) = true.
Proof.
  unfold set_from. cbn. rewrite not_empty_insert.
  apply set_insert_ordered. induction l; [done |]. by apply set_insert_ordered.
Qed.

#[local] Hint Resolve larger_valid set_insert_valid set_union_valid : types.

Lemma least_supertype_v2_1_valid exact a b c :
  valid_type a = true -> valid_type b = true ->
  least_supertype_v2_1_impl exact a b = Ok c -> valid_type c = true.
Proof.
  revert b c. induction a as [| | | | |n|[n|n]|n e sz IH|m sz IH|t IH|t s IH IH'|[k|k]|l|r] using type_induction;
    intros b c Ha Hb Hc; cases_of_type b; cbn in Hc; try discriminate Hc;
    try (injection Hc as <-; first [assumption | reflexivity | by apply larger_valid | auto with types]);
    try (by repeat case_match; simplify_eq; eauto using set_from_valid).
  - apply valid_list in Ha as (? & ? & _), Hb as (? & ? & _).
    apply result_bind_Ok in Hc as (entry & He & Hc). apply join_entries_valid in He; try done.
    by apply (list_of_join_valid entry n n').
  - apply valid_tuple in Ha as (? & ? & _), Hb as (? & ? & _).
    destruct (exact && _); [done |]. apply result_bind_Ok in Hc as (m2 & Hm & Hc).
    apply result_bind_Ok in Hc as (t & Ht & [= <-]). by eapply tuple_join_valid.
  - apply valid_option in Ha as [? _], Hb as [? _].
    apply result_bind_Ok in Hc as (x & Hx & Hc). eapply new_option_valid; [| done]. by apply (IH t').
  - apply valid_response in Ha as (? & ? & _), Hb as (? & ? & _).
    apply result_bind_Ok in Hc as (x & Hx & (y & Hy & Hc)%result_bind_Ok).
    eapply new_response_valid; [by apply (IH t') | by apply (IH' s') | done].
Qed.

Lemma least_supertype_v2_0_valid a b c :
  valid_type a = true -> valid_type b = true ->
  least_supertype_v2_0 a b = Ok c -> valid_type c = true.
Proof.
  revert b c. induction a as [| | | | |n|[n|n]|n e sz IH|m sz IH|t IH|t s IH IH'|[k|k]|l|r] using type_induction;
    intros b c Ha Hb Hc; cases_of_type b; cbn in Hc; try discriminate Hc;
    try (injection Hc as <-; first [assumption | reflexivity | by apply larger_valid | auto with types]);
    try (by case_bool_decide; simplify_eq).
  - apply valid_list in Ha as (? & ? & _), Hb as (? & ? & _).
    apply result_bind_Ok in Hc as (entry & He & Hc). apply join_entries_valid in He; try done.
    by apply (list_of_join_valid entry n n').
  - apply valid_tuple in Ha as (? & ? & _), Hb as (? & ? & _).
    apply result_bind_Ok in Hc as (m2 & Hm & (t & Ht & [= <-])%result_bind_Ok).
    by eapply tuple_join_valid.
  - apply valid_option in Ha as [? _], Hb as [? _].
    apply result_bind_Ok in Hc as (x & Hx & Hc). eapply new_option_valid; [| done].
    by apply (factor_out_valid least_supertype_v2_0 t t').
  - apply valid_response in Ha as (? & ? & _), Hb as (? & ? & _).
    apply result_bind_Ok in Hc as (x & Hx & (y & Hy & Hc)%result_bind_Ok).
    eapply new_response_valid; [by apply (factor_out_valid least_supertype_v2_0 t t') | by apply (factor_out_valid least_supertype_v2_0 s s') | done].
Qed.

(** ** Merging tuple types *)

Lemma map_insert_not_nil {A} name (a : A) m : map_insert name a m <> [].
Proof. destruct m as [| [n b] m]; cbn; [done |]. by destruct (cmp name n). Qed.

Lemma map_append_not_nil {A} (m1 m2 : list (string * A)) : m1 <> [] -> map_append m1 m2 <> [].
Proof.
  revert m1. induction m2 as [| [n a] m2 IH]; intros m1 H1; [done |].
  apply IH, map_insert_not_nil.
Qed.

(** The merged tuple is not checked for depth; it needs no check. *)
Lemma tuple_shallow_merge_valid a b t :
  valid_type (TupleType a) = true -> valid_type (TupleType b) = true ->
  tuple_type_shallow_merge a b = Ok t -> valid_type (TupleType t) = true.
Proof.
  destruct a as [ma sa], b as [mb sb]. unfold tuple_type_shallow_merge. cbn [get_type_map].
  intros (Hva & Hoa & (Hna & Hda & _)%tuple_try_from_map_Ok)%valid_tuple
         (Hvb & Hob & (Hnb & Hdb & _)%tuple_try_from_map_Ok)%valid_tuple.
  intros (s & Hs & (size & ->%ok_or_Ok & [= <-])%result_bind_Ok)%result_bind_Ok.
  apply (tuple_try_from_map_valid (map_append ma mb)).
  - by apply map_append_Forall.
  - by apply map_append_ordered.
  - apply tuple_try_from_map_Ok. split; [by apply map_append_not_nil |].
    split; [by apply map_append_Forall | by exists size].
Qed.

(** ** Canonicalization *)

Lemma canonicalize_fields (m : TypeMap) acc :
  Forall (fun k => Forall (fun k' => cmp k k' = Lt) m.*1) acc.*1 -> ordered m.*1 = true ->
  foldl (fun fields field => map_insert field.1 (canonicalize_v2_1 field.2) fields) acc m =
  acc ++ (prod_map id canonicalize_v2_1 <$> m).
Proof.
  revert acc. induction m as [| [n t] m IH]; intros acc Hb Ho; cbn [foldl fmap list_fmap].
  { by rewrite app_nil_r. }
  rewrite fmap_cons, ordered_cons in Ho. destruct Ho as [Hl Ho].
  rewrite map_insert_snoc.
  2:{ eapply Forall_impl; [exact Hb |]. intros k Hk. rewrite fmap_cons, Forall_cons in Hk. tauto. }
  rewrite IH; [by rewrite <- (assoc_L (++)) | | done].
  rewrite fmap_app. apply Forall_app. split; [| by repeat constructor].
  eapply Forall_impl; [exact Hb |]. intros k Hk. rewrite fmap_cons, Forall_cons in Hk. tauto.
Qed.

Lemma canonicalize_tuple m size :
  ordered m.*1 = true ->
  canonicalize_v2_1 (TupleType (mkTupleType m size)) =
  TupleType (mkTupleType (prod_map id canonicalize_v2_1 <$> m) size).
Proof. intros Ho. cbn. rewrite canonicalize_fields; [done | constructor | done]. Qed.

(** What a size computation sees of a field *)
Lemma add_fields_map (f : TypeSignature -> option Z) g (m : TypeMap) total :
  Forall (fun field => f (g field.2) = f field.2) m ->
  add_fields f total (prod_map id g <$> m) = add_fields f total m.
Proof.
  intros Hm. revert total. induction Hm as [| [n t] m Ht _ IH]; intros total; cbn; [done |].
  cbn in Ht. rewrite Ht. destruct (f t); cbn; [| done].
  destruct (u32_checked_add total z) as [y |]; cbn; [| done].
  destruct (u32_checked_add y (name_len n)); cbn; [apply IH | done].
Qed.

Lemma tuple_type_size_map g (m : TypeMap) :
  Forall (fun field => inner_type_size (g field.2) = inner_type_size field.2) m ->
  tuple_compute_type_size (prod_map id g <$> m) = tuple_compute_type_size m.
Proof.
  intros Hm. unfold tuple_compute_type_size, tuple_compute_type_size_with, map_header.
  rewrite length_fmap. destruct (checked _ _ _ ≫= _); cbn; [| done]. by rewrite add_fields_map.
Qed.

Lemma tuple_compute_inner_size_map g (m : TypeMap) s :
  Forall (fun field => inner_type_size (g field.2) = inner_type_size field.2) m ->
  Forall (fun field => inner_size (g field.2) = inner_size field.2) m ->
  tuple_compute_inner_size m = Ok (Some s) ->
  tuple_compute_inner_size (prod_map id g <$> m) = Ok (Some s).
Proof.
  intros Ht Hs. rewrite !tuple_compute_inner_size_Some.
  intros (? & h & ts & total & Hh & Hts & Htot & Hf). split; [done |]. exists h, ts, total.
  rewrite tuple_type_size_map, add_fields_map by done. unfold map_header in *.
  rewrite length_fmap. done.
Qed.

Lemma Forall_with {A} (P Q : A -> Prop) l :
  Forall P l -> Forall (fun x => P x -> Q x) l -> Forall Q l.
Proof. induction 1; intros Hq; [constructor |]. apply Forall_cons in Hq as [? ?]. constructor; auto. Qed.

(** Canonicalization changes neither sizes nor depth, so the sizes it carries
    over are the sizes of the new components. *)
Lemma canonicalize_v2_1_preserves t :
  valid_type t = true ->
  valid_type (canonicalize_v2_1 t) = true /\
  inner_size (canonicalize_v2_1 t) = inner_size t /\
  inner_type_size (canonicalize_v2_1 t) = inner_type_size t /\
  depth (canonicalize_v2_1 t) = depth t.
Proof.
  induction t as [| | | | |n|[n|n]|n e sz IH|m sz IH|t IH|t s IH IH'|[k|k]|l|r] using type_induction;
    intros Hv; try done.
  - apply valid_list in Hv as (He & Hn & (Hd & s & Hs & [= ->])%new_list_Ok).
    destruct (IH He) as (Hve & Hsz & Hty & Hdp). cbn [canonicalize_v2_1]. split_and!.
    + apply valid_list. split_and!; [done | done |]. apply new_list_Ok.
      split; [lia |]. exists s. split; [| done].
      unfold list_compute_inner_size, sig_size, list_compute_type_size, list_compute_type_size_with in *.
      by rewrite Hsz, Hty.
    + done.
    + cbn. unfold list_compute_type_size_with. by rewrite Hty.
    + cbn. lia.
  - pose proof Hv as (Hf & Ho & (Hn & Hd & s & Hs & [= ->])%tuple_try_from_map_Ok)%valid_tuple.
    pose proof (Forall_with _ _ _ Hf IH) as HP. rewrite canonicalize_tuple by done.
    apply Forall_and in HP as (HPv & HP). apply Forall_and in HP as (HPs & HP).
    apply Forall_and in HP as (HPt & HPd). split_and!; [| done | |].
    + apply valid_tuple. rewrite keys_fmap. split_and!; [by apply Forall_fmap | done |].
      apply tuple_try_from_map_Ok. split; [by destruct m |].
      split; [| exists s; split; [by apply tuple_compute_inner_size_map | done]].
      apply Forall_fmap. eapply Forall_impl; [exact (proj2 (Forall_and _ _) (conj Hd HPd)) |].
      cbn. intros [? ?]. cbn. lia.
    + by apply tuple_type_size_map.
    + cbn. f_equal. clear -HPd. generalize 0. induction HPd as [| [n t] m Ht _ IH]; intros z; [done |].
      cbn in *. by rewrite Ht, IH.
  - apply valid_option in Hv as (Hv & (_ & ? & s & ? & ?)%new_option_Ok).
    destruct (IH Hv) as (Hve & Hsz & Hty & Hdp). cbn [canonicalize_v2_1]. split_and!.
    + apply valid_option. split; [done |]. apply new_option_Ok. rewrite Hsz, Hdp. eauto.
    + cbn. by rewrite Hsz.
    + cbn. by rewrite Hty.
    + cbn. lia.
  - apply valid_response in Hv as (Hv & Hv' & (_ & ? & ? & x & y & ? & ? & ?)%new_response_Ok).
    destruct (IH Hv) as (Hve & Hsz & Hty & Hdp), (IH' Hv') as (Hve' & Hsz' & Hty' & Hdp').
    cbn [canonicalize_v2_1]. split_and!.
    + apply valid_response. split_and!; [done | done |]. apply new_response_Ok.
      rewrite Hsz, Hsz', Hdp, Hdp'. naive_solver.
    + cbn. by rewrite Hsz, Hsz'.
    + cbn. by rewrite Hty, Hty'.
    + cbn. lia.
Qed.

(** ** Minimal and charged sizes against the size *)

Lemma add_fields_mono f g (m : TypeMap) a b y :
  Forall (fun field => forall v, g field.2 = Some v ->
    exists u, f field.2 = Some u /\ 0 <= u <= v) m ->
  0 <= a <= b -> add_fields g b m = Some y ->
  exists x, add_fields f a m = Some x /\ a <= x <= y.
Proof.
  intros Hm. revert a b. induction Hm as [| [n t] m Ht _ IH]; intros a b Hab; cbn; [naive_solver |].
  intros (v & Hv & (b1 & Hb1 & (b2 & Hb2 & Hy)%bind_Some)%bind_Some)%bind_Some.
  destruct (Ht v Hv) as (u & Hu & Huv). cbn in Hu. rewrite Hu. cbn.
  unfold u32_checked_add in *. apply checked_Some in Hb1 as [-> ?], Hb2 as [-> ?].
  assert (0 <= name_len n) by (unfold name_len; lia).
  rewrite (proj2 (checked_Some 0 u32_max (a + u) (a + u))) by lia. cbn.
  rewrite (proj2 (checked_Some 0 u32_max (a + u + name_len n) _)) by (split; [done | lia]). cbn.
  destruct (IH (a + u + name_len n) (b + v + name_len n) ltac:(lia) Hy) as (x & Hx & Hle).
  exists x. split; [done | lia].
Qed.

Lemma map_header_nonneg m h : map_header m = Some h -> 0 <= h.
Proof. unfold map_header. intros (? & ? & ?)%bind_Some. ints. Qed.

Lemma capped_mono x y z : x <= y -> capped y = Some z -> capped x = Some x /\ x <= z.
Proof. intros Hxy [-> ?]%capped_Some. split; [apply capped_Some |]; lia. Qed.

Lemma list_type_size_nonneg e ts : list_compute_type_size e = Some ts -> 0 <= ts.
Proof.
  unfold list_compute_type_size, list_compute_type_size_with.
  intros (? & ? & (? & ? & [-> _]%capped_Some)%bind_Some)%bind_Some. ints.
Qed.

Lemma inner_type_size_nonneg t k : inner_type_size t = Some k -> 0 <= k.
Proof.
  destruct t as [| | | |[n|[n e sz]|[n|n]]| |[m sz]|t|t s|[|]|l|t]; cbn;
    try (intros [= <-]; ints).
  - apply list_type_size_nonneg.
  - intros (h & Hh%map_header_nonneg & (x & Hx & [-> _]%capped_Some)%bind_Some)%bind_Some.
    by eapply add_fields_nonneg.
  - intros (x & _ & Hx)%bind_Some. ints.
  - intros (x & _ & (y & _ & (z & _ & Hz)%bind_Some)%bind_Some)%bind_Some. ints.
Qed.

Lemma list_type_size_lower e ts : list_compute_type_size e = Some ts -> 5 <= ts.
Proof.
  unfold list_compute_type_size, list_compute_type_size_with.
  intros (x & Hx%inner_type_size_nonneg & (? & ? & [-> _]%capped_Some)%bind_Some)%bind_Some. ints.
Qed.

Lemma map_header_lower m h : map_header m = Some h -> m <> [] -> 2 <= h.
Proof.
  unfold map_header. intros (? & ? & ?)%bind_Some ?. destruct m; [done |]. cbn in *. ints.
Qed.

Lemma tuple_type_size_nonneg m ts : tuple_compute_type_size m = Some ts -> 0 <= ts.
Proof. apply (inner_type_size_nonneg (TupleType (mkTupleType m 0))). Qed.

(** The size of the smallest value of a valid type is defined and at most its size. *)
Lemma inner_min_size_le t :
  valid_type t = true ->
  forall s, inner_size t = Some s -> exists mn, inner_min_size t = Some mn /\ 1 <= mn <= s.
Proof.
  induction t as [| | | | |n|[n|n]|n e sz IH|m sz IH|t IH|t s IH IH'|[k|k]|l|r] using type_induction;
    intros Hv x Hx; try (cbn in *; simplify_eq; eexists; split; [reflexivity | ints]).
  - cbn in *. apply in_range_spec in Hv. apply bind_Some in Hx as (y & Hy & Hx).
    eexists; split; [reflexivity | ints].
  - apply valid_list in Hv as (He & Hn & (_ & s & Hs & [= ->])%new_list_Ok). injection Hx as <-.
    apply list_compute_inner_size_Some in Hs as (es & ts & Hes & Hts & ? & ? & Heq & _).
    exists ts. split; [done |]. apply list_type_size_lower in Hts. ints.
  - apply valid_tuple in Hv as (Hf & _ & (Hne & _ & s & Hs & [= ->])%tuple_try_from_map_Ok).
    injection Hx as <-.
    apply tuple_compute_inner_size_Some in Hs as (? & h & ts & total & Hh & Hts & Ht & Ha).
    pose proof (map_header_lower _ _ Hh Hne). pose proof (tuple_type_size_nonneg _ _ Hts).
    apply (add_fields_mono inner_min_size _ _ total) in Ha as (mn & Hmn & Hle); [| | ints].
    + cbn. rewrite Hh. cbn. rewrite Hts. cbn. rewrite Ht. cbn. rewrite Hmn. cbn.
      exists mn. split; [apply capped_Some; lia | ints].
    + eapply Forall_impl; [exact (Forall_with _ _ _ Hf IH) |]. cbn.
      intros [? ?] Hp v Hv. destruct (Hp v Hv) as (u & ? & ?). exists u. split; [done | lia].
  - apply valid_option in Hv as (Hv & _). cbn in Hx. apply bind_Some in Hx as (y & Hy & Hx).
    destruct (IH Hv y Hy) as (mn & _ & ?). eexists; split; [reflexivity | ints].
  - apply valid_response in Hv as (Hv & Hv' & _). cbn in Hx.
    apply bind_Some in Hx as (y & Hy & (z & Hz & Hx)%bind_Some).
    destruct (IH Hv y Hy) as (mn & Hmn & ?), (IH' Hv' z Hz) as (mn' & Hmn' & ?).
    cbn. rewrite Hmn, Hmn'. cbn. eexists. split; [apply checked_Some; split; [done |] |]; ints.
Qed.

Lemma foldl_max_lower {A} (f : A -> Z) (l : list A) z :
  z <= foldl (fun mx x => Z.max mx (f x)) z l.
Proof. by apply (foldl_max_le f l z _). Qed.

Lemma foldl_None {A B} (f : option B -> A -> option B) l :
  (forall x, f None x = None) -> foldl f None l = None.
Proof. intros Hf. induction l as [| x l IH]; cbn; [done |]. by rewrite Hf. Qed.

Lemma try_fold_add_nonneg {A} (g : A -> option Z) l z k :
  0 <= z ->
  foldl (fun total x => total ← total; s ← g x; u32_checked_add total s) (Some z) l = Some k ->
  0 <= k.
Proof.
  revert z. induction l as [| x l IH]; intros z Hz; cbn; [by intros [= <-] |].
  destruct (g x) as [s |]; cbn; [| by rewrite foldl_None].
  destruct (u32_checked_add z s) eqn:E; [apply IH; ints | by rewrite foldl_None].
Qed.

Lemma identifier_size_nonneg t k : identifier_size t = Some k -> 0 <= k.
Proof.
  induction t as [| | | | |n|[n|n]|n e sz IH|m sz IH|t IH|t s IH IH'|[c|c]|l|r] using type_induction; cbn;
    try (by intros [= <-]); try done.
  - by apply (try_fold_add_nonneg (fun f : ClarityName * TypeSignature => identifier_size f.2)).
  - intros (x & ? & (y & ? & ?)%bind_Some)%bind_Some. ints.
  - by apply (try_fold_add_nonneg (fun c => Some (callable_identifier_size c))).
Qed.

(** From Epoch 4.1 a type is charged at least its size. *)
Lemma inner_charged_size_ge t c :
  valid_type t = true -> inner_charged_size t = Some c ->
  exists s, inner_size t = Some s /\ 0 <= s <= c.
Proof.
  revert c. induction t as [| | | | |n|[n|n]|n e sz IH|m sz IH|t IH|t s IH IH'|[k|k]|l|r] using type_induction;
    intros c Hv Hc; destruct (valid_inner_size _ Hv) as (x & Hx & ? & _); rewrite Hx; exists x; split; try done;
    cbn [inner_charged_size] in Hc; apply bind_Some in Hc as (id & Hk & Hc);
    pose proof (identifier_size_nonneg _ _ Hk);
    (destruct (Z.eqb_spec id 0); [rewrite Hx in Hc; simplify_eq; lia |]); try (cbn in *; simplify_eq; ints).
  - apply valid_list in Hv as (He & Hn & (_ & s & Hs & [= ->])%new_list_Ok). injection Hx as <-.
    apply list_compute_inner_size_Some in Hs as (es & ts & Hes & Hts & ? & ? & -> & _).
    apply bind_Some in Hc as (ec & Hec & (y & Hy & (z & Hz & Hc)%bind_Some)%bind_Some).
    destruct (IH ec He Hec) as (es' & ? & ?). simplify_eq.
    apply bind_Some in Hz as (ts' & Hts' & (k' & Hk' & Hz)%bind_Some).
    change (list_compute_type_size e = Some ts') in Hts'. rewrite Hk in Hk'. simplify_eq.
    assert (es * n <= ec * n) by (unfold is_u32 in Hn; nia). ints.
  - apply valid_tuple in Hv as (Hf & _ & (_ & _ & s & Hs & [= ->])%tuple_try_from_map_Ok).
    injection Hx as <-.
    apply tuple_compute_inner_size_Some in Hs as (_ & h & ts & total & Hh & Hts & Ht & Ha).
    rewrite Hh in Hc. cbn in Hc. apply bind_Some in Hc as (ch & Hch & (tot' & Ht' & Hc)%bind_Some).
    apply bind_Some in Hch as (ts' & Hts' & (k' & Hk' & Hch)%bind_Some).
    change (tuple_compute_type_size m = Some ts') in Hts'. assert (k' = id) as -> by (cbn in *; congruence). simplify_eq.
    pose proof (tuple_type_size_nonneg _ _ Hts). pose proof (map_header_nonneg _ _ Hh).
    apply (add_fields_mono inner_size _ _ total) in Hc as (y & Hy & ?); [| | ints].
    + simplify_eq. ints.
    + eapply Forall_impl; [exact (Forall_with _ _ _ Hf (Forall_impl _ _ _ IH (fun f Hp Hv c => Hp c Hv))) |].
      done.
  - apply valid_option in Hv as (Hv & _). cbn in Hx.
    apply bind_Some in Hx as (y & Hy & Hx), Hc as (z & Hz & Hc).
    destruct (IH z Hv Hz) as (y' & ? & ?). simplify_eq. ints.
  - apply valid_response in Hv as (Hv & Hv' & _). cbn in Hx.
    apply bind_Some in Hx as (y1 & Hy1 & (y2 & Hy2 & Hx)%bind_Some).
    apply bind_Some in Hc as (z1 & Hz1 & (z2 & Hz2 & Hc)%bind_Some).
    destruct (IH z1 Hv Hz1) as (? & ? & ?), (IH' z2 Hv' Hz2) as (? & ? & ?). simplify_eq. ints.
  - injection Hx as <-. destruct l as [| c0 l]; [done |]. injection Hc as <-.
    pose proof (foldl_max_lower callable_identifier_size l (callable_identifier_size c0)).
    destruct c0; cbn in *; ints.
Qed.

(** ** Shrinking a list type *)

Lemma list_compute_inner_size_shrink e n n' s :
  valid_type e = true -> 0 <= n' <= n -> list_compute_inner_size e n = Ok (Some s) ->
  exists s', list_compute_inner_size e n' = Ok (Some s') /\ s' <= s.
Proof.
  intros Hv Hn (es & ts & Hes & Hts & ? & ? & -> & ?)%list_compute_inner_size_Some.
  destruct (valid_inner_size e Hv) as (es' & ? & ? & _). simplify_eq.
  pose proof (list_type_size_nonneg _ _ Hts). assert (0 <= es * n' <= es * n) by nia.
  exists (es * n' + ts). split; [| lia]. apply list_compute_inner_size_Some.
  exists es, ts. split_and!; try done; ints.
Qed.

(** ** Theorems *)

(** C27: Every way of building a type signature from valid ones keeps the
    invariant: lists, optionals, responses, tuples from a map or a vector of
    fields (whatever their order), merged tuple types, canonicalized types and
    least supertypes of every epoch. The merge of tuple types checks no depth and
    canonicalization recomputes no size; neither breaks the invariant. *)
Theorem types_stay_valid a b :
  valid_type a = true -> valid_type b = true ->
  (forall n t, is_u32 n -> list_of a n = Ok t -> valid_type t = true) /\
  (forall t, new_option a = Ok t -> valid_type t = true) /\
  (forall t, new_response a b = Ok t -> valid_type t = true) /\
  (forall fields t, Forall (fun f => valid_type f.2 = true) fields ->
     tuple_try_from_vec fields = Ok t -> valid_type (TupleType t) = true) /\
  (forall x y t, a = TupleType x -> b = TupleType y ->
     tuple_type_shallow_merge x y = Ok t -> valid_type (TupleType t) = true) /\
  (forall epoch, valid_type (canonicalize epoch a) = true) /\
  (forall epoch t, least_supertype epoch a b = Ok t -> valid_type t = true) /\
  (forall epoch t, least_supertype_for_analysis epoch a b = Ok t -> valid_type t = true).
Proof.
  intros Ha Hb. split_and!.
  - intros n t Hn (l & Hl & [= <-])%result_bind_Ok. by apply (new_list_valid a n).
  - intros t. by apply new_option_valid.
  - intros t. by apply new_response_valid.
  - intros fields t Hf. unfold tuple_try_from_vec. destruct fields as [| f fields]; [done |].
    intros (m & Hm & Ht)%result_bind_Ok.
    apply collect_fields_valid in Hm as [? ?]; [| done | constructor | done].
    by apply (tuple_try_from_map_valid m).
  - intros x y t -> ->. by apply tuple_shallow_merge_valid.
  - intros epoch. unfold canonicalize. destruct (_ || _); [done |].
    by apply canonicalize_v2_1_preserves.
  - intros epoch t. unfold least_supertype. destruct (epoch_ltb epoch Epoch21).
    + by apply least_supertype_v2_0_valid.
    + by apply least_supertype_v2_1_valid.
  - intros epoch t. by apply least_supertype_v2_1_valid.
Qed.

(** C37: On a valid type [size] and [min_size] never report the broken invariant;
    the smallest value is no larger than the type, no type is larger than
    [MAX_VALUE_SIZE] by more than a length prefix, only buffers and strings are
    larger at all, and none is nested deeper than [MAX_TYPE_DEPTH]. *)
Theorem valid_types_are_bounded t :
  valid_type t = true ->
  exists s mn, sig_size t = Ok s /\ min_size t = Ok mn /\
    1 <= mn <= s /\ s <= MAX_VALUE_SIZE + SEQUENCE_LENGTH_PREFIX /\
    (is_flat_sequence t = false -> s <= MAX_VALUE_SIZE) /\
    1 <= depth t <= MAX_TYPE_DEPTH.
Proof.
  intros Hv. destruct (valid_inner_size t Hv) as (s & Hs & ? & ?).
  destruct (inner_min_size_le t Hv s Hs) as (mn & Hmn & ?). exists s, mn.
  unfold sig_size, min_size. rewrite Hs, Hmn. pose proof (depth_pos t).
  pose proof (valid_depth t Hv). split_and!; try done; lia.
Qed.

(** Canonicalizing a valid type in any epoch preserves its size, the size of
    its signature and its depth, so the sizes that [canonicalize_v2_1] carries
    over instead of recomputing are the right ones. *)
Theorem canonicalize_size_preserving epoch t :
  valid_type t = true ->
  sig_size (canonicalize epoch t) = sig_size t /\
  sig_type_size (canonicalize epoch t) = sig_type_size t /\
  depth (canonicalize epoch t) = depth t.
Proof.
  intros Hv. unfold canonicalize. destruct (_ || _); [done |].
  destruct (canonicalize_v2_1_preserves t Hv) as (_ & Hs & Ht & Hd).
  unfold sig_size, sig_type_size. by rewrite Hs, Ht.
Qed.

(** Reducing the maximal length of a valid list type never fails: the error
    branch of [reduce_max_len] is unreachable. The result is a valid list type
    with the same entry type, a length of at most the requested one and no
    larger size. *)
Theorem reduce_max_len_infallible l new_max_len :
  valid_type (SequenceType (ListType l)) = true -> is_u32 new_max_len ->
  exists l', reduce_max_len l new_max_len = Ok l' /\
    valid_type (SequenceType (ListType l')) = true /\
    get_list_item_type l' = get_list_item_type l /\
    get_max_len l' = Z.min new_max_len (get_max_len l) /\
    list_type_size l' <= list_type_size l.
Proof.
  destruct l as [n e size]. intros Hv Hn'. pose proof Hv as (He & Hn & Hl)%valid_list.
  cbn. destruct (Z.leb_spec new_max_len n).
  2:{ eexists. split; [done |]. cbn. split_and!; [done | done | lia | lia]. }
  apply new_list_Ok in Hl as (Hd & s & Hs & [= ->]).
  destruct (list_compute_inner_size_shrink e n new_max_len s He) as (s' & Hs' & ?); [ints | done |].
  rewrite Hs'. cbn. eexists. split; [done |]. cbn. split_and!; [| done | lia | lia].
  apply valid_list. split_and!; [done | ints |]. apply new_list_Ok. eauto.
Qed.

(** In every epoch a valid type is charged at least its size; before Epoch
    4.1, and for a type that holds no callable, exactly its size. *)
Theorem charged_size_covers_size epoch t c s :
  valid_type t = true -> charged_size epoch t = Ok c -> sig_size t = Ok s ->
  s <= c /\
  (charges_callable_type_size epoch = false \/ identifier_size t = Some 0 -> c = s).
Proof.
  intros Hv Hc Hs. unfold charged_size in Hc. destruct (charges_callable_type_size epoch).
  - apply ok_or_Ok in Hc. pose proof Hs as Hs'%sig_size_Ok.
    destruct (inner_charged_size_ge t c Hv Hc) as (s' & ? & ?). simplify_eq.
    split; [lia |]. intros [? | Hid]; [done |].
    assert (inner_charged_size t = inner_size t) as E by (destruct t; cbn [inner_charged_size]; by rewrite Hid).
    congruence.
  - rewrite Hs in Hc. simplify_eq. split; [lia | done].
Qed.

(** ** Witnesses *)

Definition sample_trait : TraitIdentifier :=
  mkTraitIdentifier "token" (mkQualifiedContract transient "tokens").

Definition sample_pair (a b : TypeSignature) : TypeSignature :=
  match tuple_try_from_vec [("owner", a); ("amount", b)] with
  | Ok t => TupleType t
  | _ => NoType
  end.

Definition sample_tuple_type : TypeSignature :=
  sample_pair (TraitReferenceType sample_trait) (SequenceType (BufferType 32)).

Definition sample_list_type : ListTypeData := mkListTypeData 10 IntType 166.

Lemma sample_tuple_valid : valid_type sample_tuple_type = true.
Proof. by vm_compute. Qed.

Lemma types_stay_valid_witness :
  valid_type (canonicalize Epoch30 sample_tuple_type) = true.
Proof. apply (types_stay_valid sample_tuple_type IntType); by vm_compute. Defined.

Lemma valid_types_are_bounded_witness :
  exists s mn, sig_size BUFFER_MAX = Ok s /\ min_size BUFFER_MAX = Ok mn /\
    1 <= mn <= s /\ s <= MAX_VALUE_SIZE + SEQUENCE_LENGTH_PREFIX /\
    (is_flat_sequence BUFFER_MAX = false -> s <= MAX_VALUE_SIZE) /\
    1 <= depth BUFFER_MAX <= MAX_TYPE_DEPTH.
Proof. apply valid_types_are_bounded. reflexivity. Defined.

Lemma canonicalize_size_preserving_witness :
  canonicalize Epoch30 sample_tuple_type <> sample_tuple_type /\
  sig_size (canonicalize Epoch30 sample_tuple_type) = sig_size sample_tuple_type.
Proof.
  split; [done |]. apply (canonicalize_size_preserving Epoch30 sample_tuple_type).
  by vm_compute.
Defined.

Lemma reduce_max_len_infallible_witness :
  exists l', reduce_max_len sample_list_type 3 = Ok l' /\
    valid_type (SequenceType (ListType l')) = true /\
    get_list_item_type l' = IntType /\ get_max_len l' = Z.min 3 10 /\ list_type_size l' <= 166.
Proof. apply (reduce_max_len_infallible sample_list_type 3); [reflexivity | by vm_compute]. Defined.

Lemma charged_size_covers_size_witness :
  charged_size Epoch41 sample_tuple_type = Ok 624 /\ sig_size sample_tuple_type = Ok 348 /\
  348 <= 624.
Proof.
  split; [by vm_compute |]. split; [by vm_compute |].
  apply (charged_size_covers_size Epoch41 sample_tuple_type 624 348); by vm_compute.
Defined.

(** The empty list type is what the guarded constructor returns. *)
Lemma empty_list_is_new_list : new_list NoType 0 = Ok empty_list.
Proof. done. Qed.

(** The comment on [empty_list] gives [NoType] depth 0; [depth] returns 1. *)
Lemma depth_of_no_type : depth NoType = 1.
Proof. done. Qed.

(** A buffer or string of maximal length is larger than [MAX_VALUE_SIZE]. *)
Lemma maximal_sequences_exceed_limit :
  Forall (fun t => valid_type t = true /\ sig_size t = Ok (MAX_VALUE_SIZE + 4))
    [BUFFER_MAX; STRING_ASCII_MAX; STRING_UTF8_MAX].
Proof. by repeat constructor. Qed.
