(* ===== verification/Supertypes.v ===== *)
(** * Admission and least supertypes

    The order on types that [admits_type] defines and the place of
    [least_supertype] in it ([clarity-types/src/types/signatures.rs]).  From
    Epoch 4.1 the type checker's supertype is the least upper bound of its
    arguments; the supertype that the runtime computes, and the one of earlier
    checkers, is an upper bound of the first argument only. *)

From S2P Require Import Prelude.
From S2P Require Import BTree.
From S2P Require Import Epochs.
From S2P Require Import Values.
From S2P Require Import Types.

(** ** Types of data

    The types of values that hold no callable.  [NoType] stands for the part
    of such a value that is absent: the contents of [none], the other branch
    of a response, the entries of an empty list. *)

Fixpoint data_type (t : TypeSignature) : bool :=
  match t with
  | NoType | CallableType _ | ListUnionType _ => false
  | SequenceType (ListType (mkListTypeData n e _)) => data_type e || (is_no_type e && (n =? 0))
  | TupleType (mkTupleType m _) => forallb (fun f => data_type f.2) m
  | OptionalType t => data_type t || is_no_type t
  | ResponseType t s =>
      (data_type t || is_no_type t) && (data_type s || is_no_type s)
      && negb (is_no_type t && is_no_type s)
  | _ => true
  end.

(** [d] admits [t]; in the place of an absent part it admits anything. *)
Definition adm (d t : TypeSignature) : Prop := admits_type_v2_1 d t = Ok true.
Definition opt_data (t : TypeSignature) : Prop := t = NoType \/ data_type t = true.
Definition opt_adm (d t : TypeSignature) : Prop := t = NoType \/ adm d t.

Lemma data_not_none t : data_type t = true -> is_no_type t = false.
Proof. by destruct t. Qed.

Lemma data_concrete t : data_type t = true -> concretize t = Ok t.
Proof. by destruct t as [| | | |[?|[? ? ?]|?]| |[? ?]|?|? ?|[?|?]|?|?]. Qed.

Lemma opt_data_spec t : data_type t || is_no_type t = true <-> opt_data t.
Proof. unfold opt_data. rewrite orb_true_iff, is_no_type_eq. tauto. Qed.

Lemma data_option t : data_type (OptionalType t) = true <-> opt_data t.
Proof. apply opt_data_spec. Qed.

Lemma data_response t s :
  data_type (ResponseType t s) = true <->
  opt_data t /\ opt_data s /\ ~ (t = NoType /\ s = NoType).
Proof.
  cbn. rewrite !andb_true_iff, !opt_data_spec, negb_true_iff, andb_false_iff.
  rewrite <- !not_true_iff_false, !is_no_type_eq. intuition.
  destruct (decide (t = NoType)); tauto.
Qed.

Lemma data_list n e size :
  data_type (SequenceType (ListType (mkListTypeData n e size))) = true <->
  data_type e = true \/ (e = NoType /\ n = 0).
Proof. cbn. by rewrite orb_true_iff, andb_true_iff, is_no_type_eq, Z.eqb_eq. Qed.

Lemma data_tuple m size :
  data_type (TupleType (mkTupleType m size)) = true <-> Forall (fun f => data_type f.2 = true) m.
Proof. cbn. apply forallb_True_iff_Forall. Qed.

(** ** Admission between types of data, constructor by constructor *)

Lemma adm_option d t : opt_data t -> adm (OptionalType d) (OptionalType t) <-> opt_adm d t.
Proof.
  unfold opt_adm, adm. intros Ht. cbn. destruct (is_no_type t) eqn:E.
  - apply is_no_type_eq in E. naive_solver.
  - split; [by right | intros [-> |]; done].
Qed.

Lemma adm_response d e t s :
  data_type (ResponseType t s) = true ->
  adm (ResponseType d e) (ResponseType t s) <-> opt_adm d t /\ opt_adm e s.
Proof.
  intros (Ht & Hs & Hn)%data_response. unfold opt_adm, adm. cbn.
  destruct (is_no_type t) eqn:E1.
  { apply is_no_type_eq in E1 as ->. split; [by auto |]. intros [_ [-> |]]; tauto. }
  destruct (is_no_type s) eqn:E2.
  { apply is_no_type_eq in E2 as ->. split; [by auto |]. intros [[-> |] _]; done. }
  assert (t <> NoType) by (by intros ->). assert (s <> NoType) by (by intros ->).
  destruct (admits_type_v2_1 e s) as [[] | |]; cbn; naive_solver.
Qed.

Lemma adm_list n e size n' e' size' :
  adm (SequenceType (ListType (mkListTypeData n e size)))
      (SequenceType (ListType (mkListTypeData n' e' size'))) <->
  n' = 0 \/ (n' <= n /\ adm e e').
Proof.
  unfold adm. cbn. destruct (Z.eqb_spec n' 0) as [-> |]; [naive_solver |].
  destruct (Z.leb_spec n' n); naive_solver lia.
Qed.

Lemma fields_admit_spec adm (mine other : TypeMap) :
  fields_admit adm mine other = Ok true <->
  Forall (fun f => exists t, assoc f.1 other = Some t /\ adm f.2 t = Ok true) mine.
Proof.
  induction mine as [| [name d] mine IH]; cbn [fields_admit]; [by split; [constructor |] |].
  rewrite Forall_cons, <- IH. cbn.
  destruct (assoc name other) as [t |]; [| split; [done | by intros [(? & ? & _) _]]].
  destruct (adm d t) as [[] | |] eqn:E; cbn.
  { split; [intros; split; [by exists t | done] | by intros [_ ?]]. }
  all: split; [done | intros [(? & [= <-] & ?) _]; congruence].
Qed.

Lemma adm_tuple m size m' size' :
  adm (TupleType (mkTupleType m size)) (TupleType (mkTupleType m' size')) <->
  length m = length m' /\ Forall (fun f => exists t, assoc f.1 m' = Some t /\ adm f.2 t) m.
Proof.
  unfold adm. cbn. unfold tuple_admits_with. destruct (Nat.eqb_spec (length m) (length m')).
  - rewrite fields_admit_spec. tauto.
  - naive_solver.
Qed.

Lemma adm_none_l t : ~ adm NoType t.
Proof. unfold adm. cbn. by destruct (concretize t). Qed.

Lemma adm_none_r d : ~ adm d NoType.
Proof. unfold adm. by cases_of_type d. Qed.

(** Admission of absent parts composes when it does for the parts themselves. *)
Lemma opt_adm_trans_with c b a :
  (data_type b = true -> data_type a = true -> adm c b -> adm b a -> adm c a) ->
  opt_data b -> opt_data a -> opt_adm c b -> opt_adm b a -> opt_adm c a.
Proof.
  intros IH Hb Ha Hcb [-> | Hba]; [by left | right].
  destruct Hcb as [-> | Hcb]; [by apply adm_none_l in Hba |].
  destruct Hb as [-> | Hb]; [by apply adm_none_l in Hba |].
  destruct Ha as [-> | Ha]; [by apply adm_none_r in Hba | auto].
Qed.

(** What a type of data looks like to a type that admits it *)
Lemma adm_inv d t :
  data_type t = true -> adm d t ->
  match t with
  | SequenceType (BufferType n) => exists k, d = SequenceType (BufferType k) /\ n <= k
  | SequenceType (StringType (ASCII n)) =>
      exists k, d = SequenceType (StringType (ASCII k)) /\ n <= k
  | SequenceType (StringType (UTF8 n)) =>
      exists k, d = SequenceType (StringType (UTF8 k)) /\ n <= k
  | SequenceType (ListType _) => exists l, d = SequenceType (ListType l)
  | TupleType _ => exists t', d = TupleType t'
  | OptionalType _ => exists t', d = OptionalType t'
  | ResponseType _ _ => exists t' s', d = ResponseType t' s'
  | _ => d = t
  end.
Proof.
  intros Ht. unfold adm.
  cases_of_type t; try discriminate Ht; cases_of_type d; cbn;
    rewrite ?bool_decide_eq_true; intros [=]; subst; repeat eexists; ints_hyps; try done; try lia.
  all: by case_bool_decide; simplify_eq.
Qed.

(** ** Admission is a preorder on valid types of data *)

Lemma valid_tuple_parts m size :
  valid_type (TupleType (mkTupleType m size)) = true ->
  Forall (fun f => valid_type f.2 = true) m /\ ordered m.*1 = true.
Proof. intros (? & ? & _)%valid_tuple. done. Qed.

Lemma adm_refl t : valid_type t = true -> data_type t = true -> adm t t.
Proof.
  induction t as [| | | | |n|[n|n]|n e sz IH|m sz IH|t IH|t s IH IH'|[k|k]|l|r] using type_induction;
    intros Hv Hd; try done; try (unfold adm; cbn; by rewrite Z.leb_refl).
  - apply valid_list in Hv as (Hv & _). apply data_list in Hd as [Hd | [-> ->]]; apply adm_list;
      [right; split; [lia | auto] | by left].
  - apply valid_tuple_parts in Hv as [Hv Ho]. apply data_tuple in Hd. apply adm_tuple.
    split; [done |]. apply Forall_forall. intros [name t] Hin. exists t.
    rewrite Forall_forall in IH, Hv, Hd. split; [by apply elem_of_assoc |].
    apply (IH (name, t)); [done | by apply (Hv (name, t)) | by apply (Hd (name, t))].
  - apply valid_option in Hv as (Hv & _). apply data_option in Hd. apply adm_option; [done |].
    destruct Hd; [by left | right; auto].
  - apply valid_response in Hv as (Hv & Hv' & _). apply adm_response; [done |].
    apply data_response in Hd as ([-> | Hd] & [-> | Hd'] & _); split; unfold opt_adm; auto.
  - unfold adm. cbn. by rewrite bool_decide_true.
Qed.

Lemma opt_adm_refl t : valid_type t = true -> opt_data t -> opt_adm t t.
Proof. intros Hv [-> | Hd]; [by left | right; by apply adm_refl]. Qed.

Lemma adm_trans c b a :
  valid_type b = true -> valid_type a = true -> data_type b = true -> data_type a = true ->
  adm c b -> adm b a -> adm c a.
Proof.
  revert c b. induction a as [| | | | |n|[n|n]|n e sz IH|m sz IH|t IH|t s IH IH'|[k|k]|l|r] using type_induction;
    intros c b Hvb Hva Hdb Hda Hcb Hba; pose proof (adm_inv b _ Hda Hba) as Hb; cbn in Hb;
    try discriminate Hda; try (by subst b).
  - destruct Hb as (k & -> & Hk). destruct (adm_inv c _ Hdb Hcb) as (k' & -> & ?).
    unfold adm. cbn. do 2 f_equal. apply Z.leb_le. lia.
  - destruct Hb as (k & -> & Hk). destruct (adm_inv c _ Hdb Hcb) as (k' & -> & ?).
    unfold adm. cbn. do 2 f_equal. apply Z.leb_le. lia.
  - destruct Hb as (k & -> & Hk). destruct (adm_inv c _ Hdb Hcb) as (k' & -> & ?).
    unfold adm. cbn. do 2 f_equal. apply Z.leb_le. lia.
  - destruct Hb as ([nb eb sb] & ->). destruct (adm_inv c _ Hdb Hcb) as ([nc ec sc] & ->).
    apply valid_list in Hvb as (Hvb & Hnb & _), Hva as (Hva & Hna & _).
    apply adm_list in Hcb, Hba. apply adm_list. destruct Hba as [-> | [Hle Hba]]; [by left |].
    destruct (decide (n = 0)) as [-> | Hn0]; [by left | right].
    destruct Hcb as [-> | [Hle' Hcb]]; [ints |]. split; [lia |].
    apply data_list in Hdb as [Hdb | [-> ?]]; [| by apply adm_none_l in Hba].
    apply data_list in Hda as [Hda | [-> ?]]; [| by apply adm_none_r in Hba]. by apply (IH ec eb).
  - destruct Hb as ([mb sb] & ->). destruct (adm_inv c _ Hdb Hcb) as ([mc sc] & ->).
    apply valid_tuple_parts in Hvb as [Hvb _], Hva as [Hva _]. apply data_tuple in Hdb, Hda.
    apply adm_tuple in Hcb as [Hl1 Hcb], Hba as [Hl2 Hba]. apply adm_tuple.
    split; [congruence |]. eapply Forall_impl; [exact Hcb |]. intros [name tc] (tb & Htb & Hc).
    cbn in *. apply assoc_elem_of in Htb. rewrite Forall_forall in Hba, Hvb, Hdb, Hva, Hda, IH.
    destruct (Hba _ Htb) as (ta & Hta & Hb). cbn in *. exists ta. split; [done |].
    apply assoc_elem_of in Hta.
    apply (IH _ Hta tc tb); [by apply (Hvb _ Htb) | by apply (Hva _ Hta) | by apply (Hdb _ Htb)
      | by apply (Hda _ Hta) | done | done].
  - destruct Hb as (tb & ->). destruct (adm_inv c _ Hdb Hcb) as (tc & ->).
    apply valid_option in Hvb as (Hvb & _), Hva as (Hva & _). apply data_option in Hdb, Hda.
    apply adm_option in Hcb, Hba; try done. apply adm_option; [done |].
    apply (opt_adm_trans_with tc tb t); try done. intros. by apply (IH tc tb).
  - destruct Hb as (tb & sb & ->). destruct (adm_inv c _ Hdb Hcb) as (tc & sc & ->).
    apply valid_response in Hvb as (Hvb & Hvb' & _), Hva as (Hva & Hva' & _).
    apply adm_response in Hcb as [Hcb Hcb'], Hba as [Hba Hba']; try done. apply adm_response; [done |].
    apply data_response in Hdb as (Hdb & Hdb' & _), Hda as (Hda & Hda' & _).
    split; [apply (opt_adm_trans_with tc tb t) | apply (opt_adm_trans_with sc sb s)]; try done; intros.
    + by apply (IH tc tb).
    + by apply (IH' sc sb).
Qed.

(** ** Least supertypes bound their arguments *)

(** What the supertype [c] of [a] and [b] promises *)
Definition bounds (exact : bool) (a b c : TypeSignature) : Prop :=
  opt_data c /\ (c = NoType -> a = NoType /\ b = NoType) /\
  opt_adm c a /\ (exact = true -> opt_adm c b).

(** A property of supertypes that holds of [a] and everything joined with it *)
Definition joins_bound (exact : bool) (a : TypeSignature) : Prop :=
  forall b c, valid_type a = true -> valid_type b = true -> opt_data a -> opt_data b ->
    least_supertype_v2_1_impl exact a b = Ok c -> bounds exact a b c.

Lemma supertype_none_l exact b : least_supertype_v2_1_impl exact NoType b = Ok b.
Proof. by cases_of_type b. Qed.

Lemma supertype_none_r exact a : least_supertype_v2_1_impl exact a NoType = Ok a.
Proof. by cases_of_type a. Qed.

Lemma bounds_none_l exact b : valid_type b = true -> opt_data b -> bounds exact NoType b b.
Proof. intros. split_and!; [done | done | by left | intros; by apply opt_adm_refl]. Qed.

Lemma bounds_none_r exact a : valid_type a = true -> opt_data a -> bounds exact a NoType a.
Proof. intros. split_and!; [done | done | by apply opt_adm_refl | by left]. Qed.

Lemma bounds_data exact a b c :
  data_type c = true -> adm c a -> (exact = true -> adm c b) -> bounds exact a b c.
Proof.
  intros Hd Ha Hb. split_and!; [by right | by intros -> | by right | right; auto].
Qed.

Lemma bounds_inv exact a b c :
  bounds exact a b c -> data_type a = true -> data_type b = true ->
  data_type c = true /\ adm c a /\ (exact = true -> adm c b).
Proof.
  intros (Hc & Hn & Ha & Hb) Hda Hdb. split_and!.
  - destruct Hc as [-> |]; [by destruct Hn as [-> _] | done].
  - by destruct Ha as [-> |].
  - intros He. by destruct (Hb He) as [-> |].
Qed.

Lemma supertype_lists_bound exact na ea sa nb eb sb c :
  joins_bound exact ea ->
  valid_type (SequenceType (ListType (mkListTypeData na ea sa))) = true ->
  valid_type (SequenceType (ListType (mkListTypeData nb eb sb))) = true ->
  data_type (SequenceType (ListType (mkListTypeData na ea sa))) = true ->
  data_type (SequenceType (ListType (mkListTypeData nb eb sb))) = true ->
  least_supertype_v2_1_impl exact (SequenceType (ListType (mkListTypeData na ea sa)))
    (SequenceType (ListType (mkListTypeData nb eb sb))) = Ok c ->
  bounds exact (SequenceType (ListType (mkListTypeData na ea sa)))
    (SequenceType (ListType (mkListTypeData nb eb sb))) c.
Proof.
  intros IH (Hva & Hna & _)%valid_list (Hvb & Hnb & _)%valid_list Hda%data_list Hdb%data_list.
  cbn [least_supertype_v2_1_impl]. unfold join_entries, is_u32 in *.
  intros (entry & He & (l & Hl & [= <-])%map_err_Ok%result_bind_Ok)%result_bind_Ok.
  apply new_list_Ok in Hl as (_ & size & _ & ->).
  destruct (Z.eqb_spec na 0) as [-> | Hna0].
  { injection He as <-. rewrite Z.max_r by lia.
    apply bounds_data; rewrite ?data_list, ?adm_list; [done | by left | intros _].
    destruct Hdb as [Hdb | [_ ?]]; [right; split; [lia | by apply adm_refl] | by left]. }
  destruct Hda as [Hda | [_ ?]]; [| done]. destruct (Z.eqb_spec nb 0) as [-> | Hnb0].
  { injection He as <-. rewrite Z.max_l by lia.
    apply bounds_data; rewrite ?data_list, ?adm_list; [by left | | by left].
    right; split; [lia | by apply adm_refl]. }
  destruct Hdb as [Hdb | [_ ?]]; [| done].
  destruct (bounds_inv _ _ _ _ (IH eb entry Hva Hvb (or_intror Hda) (or_intror Hdb) He) Hda Hdb)
    as (? & ? & Hx).
  apply bounds_data; rewrite ?data_list, ?adm_list; [by left | right; split; [lia | done] |].
  intros Hex. right. split; [lia | by apply Hx].
Qed.

Lemma joined_assoc join types_a types_b m name t :
  ordered types_a.*1 = true -> Forall2 (joined join types_b) types_a m -> (name, t) ∈ m ->
  exists ea eb, assoc name types_a = Some ea /\ ((name, ea) ∈ types_a) /\
    assoc name types_b = Some eb /\ join ea eb = Ok t.
Proof.
  intros Ho Hm Hin. apply list_elem_of_lookup in Hin as (i & Hi).
  destruct (Forall2_lookup_r _ _ _ _ _ Hm Hi) as ([n ea] & Hia & Hn & eb & Heb & Hj). cbn in *.
  subst n. exists ea, eb. apply list_elem_of_lookup_2 in Hia.
  split_and!; [by apply elem_of_assoc | done..].
Qed.

Lemma supertype_tuples_bound exact ma sa mb sb c :
  Forall (fun f => joins_bound exact f.2) ma ->
  valid_type (TupleType (mkTupleType ma sa)) = true ->
  valid_type (TupleType (mkTupleType mb sb)) = true ->
  data_type (TupleType (mkTupleType ma sa)) = true ->
  data_type (TupleType (mkTupleType mb sb)) = true ->
  least_supertype_v2_1_impl exact (TupleType (mkTupleType ma sa)) (TupleType (mkTupleType mb sb)) = Ok c ->
  bounds exact (TupleType (mkTupleType ma sa)) (TupleType (mkTupleType mb sb)) c.
Proof.
  intros IH [Hva Hoa]%valid_tuple_parts [Hvb Hob]%valid_tuple_parts Hda%data_tuple Hdb%data_tuple.
  cbn [least_supertype_v2_1_impl]. destruct (exact && _) eqn:El; [done |].
  intros (m & Hm & (t & Ht & [= <-])%result_bind_Ok)%result_bind_Ok.
  apply join_fields_spec in Hm as [Hm Hk]; [| done].
  apply map_err_Ok, tuple_try_from_map_Ok in Ht as (_ & _ & size & _ & ->).
  assert (forall name t, (name, t) ∈ m -> exists ea eb, assoc name ma = Some ea /\
    assoc name mb = Some eb /\ data_type t = true /\ adm t ea /\ (exact = true -> adm t eb)) as Hf.
  { intros name t Hin. destruct (joined_assoc _ _ _ _ _ _ Hoa Hm Hin) as (ea & eb & Ha & Hia & Hb & Hj).
    pose proof (assoc_elem_of _ _ _ Hb) as Hib. rewrite Forall_forall in IH, Hva, Hvb, Hda, Hdb.
    exists ea, eb. split; [done |]. split; [done |].
    apply (bounds_inv exact ea eb t); [| by apply (Hda _ Hia) | by apply (Hdb _ Hib)].
    apply (IH _ Hia); [by apply (Hva _ Hia) | by apply (Hvb _ Hib) | right | right | done].
    - by apply (Hda _ Hia).
    - by apply (Hdb _ Hib). }
  assert (length m = length ma) as Hlen by (by rewrite <- (length_fmap fst), Hk, length_fmap).
  apply bounds_data; rewrite ?data_tuple, ?adm_tuple.
  - apply Forall_forall. intros [name t] Hin. by destruct (Hf _ _ Hin) as (? & ? & _ & _ & ? & _).
  - split; [done |]. apply Forall_forall. intros [name t] Hin.
    destruct (Hf _ _ Hin) as (ea & eb & ? & _ & _ & ? & _). by exists ea.
  - intros ->. cbn in El. apply negb_false_iff, Nat.eqb_eq in El. split; [congruence |].
    apply Forall_forall. intros [name t] Hin.
    destruct (Hf _ _ Hin) as (ea & eb & _ & ? & _ & _ & ?). exists eb. auto.
Qed.

Lemma opt_data_list t : opt_data t -> t <> NoType -> data_type t = true.
Proof. by intros [-> |]. Qed.

Lemma supertype_bounds exact a : joins_bound exact a.
Proof.
  induction a as [| | | | |n|[n|n]|n e sz IH|m sz IH|t IH|t s IH IH'|[k|k]|l|r] using type_induction;
    intros b c Hva Hvb Hda Hdb Hc.
  1: { rewrite supertype_none_l in Hc. injection Hc as <-. by apply bounds_none_l. }
  all: destruct (decide (b = NoType)) as [-> | Hb];
    [rewrite supertype_none_r in Hc; injection Hc as <-; by apply bounds_none_r |].
  all: apply opt_data_list in Hda, Hdb; try done.
  all: cases_of_type b; try discriminate Hc; try discriminate Hdb; try discriminate Hda.
  all: try (by apply supertype_lists_bound); try (by apply supertype_tuples_bound).
  all: cbn in Hc; try (case_bool_decide; [| discriminate Hc]); simplify_eq.
  all: try (apply bounds_data; [done | unfold adm; cbn; by rewrite ?bool_decide_true | unfold adm; cbn; by rewrite ?bool_decide_true]).
  1-3: apply bounds_data; [done | | intros _]; unfold adm; cbn; do 2 f_equal; apply Z.leb_le;
       destruct (Z.gtb_spec n n'); lia.
  - apply result_bind_Ok in Hc as (x & Hx & (-> & _)%new_option_Ok).
    apply valid_option in Hva as (Hva & _), Hvb as (Hvb & _). apply data_option in Hda, Hdb.
    destruct (IH t' x Hva Hvb Hda Hdb Hx) as (Hd & _ & Ha & Hb').
    apply bounds_data; rewrite ?data_option, ?adm_option; auto.
  - apply result_bind_Ok in Hc as (x & Hx & (y & Hy & (-> & _)%new_response_Ok)%result_bind_Ok).
    apply valid_response in Hva as (Hva & Hva' & _), Hvb as (Hvb & Hvb' & _).
    pose proof Hda as (Hda1 & Hda2 & Hn)%data_response. pose proof Hdb as (Hdb1 & Hdb2 & _)%data_response.
    destruct (IH t' x Hva Hvb Hda1 Hdb1 Hx) as (Hd1 & Hn1 & Ha1 & Hb1).
    destruct (IH' s' y Hva' Hvb' Hda2 Hdb2 Hy) as (Hd2 & Hn2 & Ha2 & Hb2).
    apply bounds_data; rewrite ?adm_response; auto.
    apply data_response. split_and!; [done | done |]. intros [-> ->]. tauto.
Qed.

(** ** Least supertypes are least *)

Definition joins_least (exact : bool) (a : TypeSignature) : Prop :=
  forall b c d, valid_type a = true -> valid_type b = true -> opt_data a -> opt_data b ->
    least_supertype_v2_1_impl exact a b = Ok c -> opt_adm d a -> opt_adm d b -> opt_adm d c.

Lemma supertype_tuples_least exact ma sa mb sb c d :
  Forall (fun f => joins_least exact f.2) ma ->
  valid_type (TupleType (mkTupleType ma sa)) = true ->
  valid_type (TupleType (mkTupleType mb sb)) = true ->
  data_type (TupleType (mkTupleType ma sa)) = true ->
  data_type (TupleType (mkTupleType mb sb)) = true ->
  least_supertype_v2_1_impl exact (TupleType (mkTupleType ma sa)) (TupleType (mkTupleType mb sb)) = Ok c ->
  adm d (TupleType (mkTupleType ma sa)) -> adm d (TupleType (mkTupleType mb sb)) -> adm d c.
Proof.
  intros IH Hva Hvb Hda Hdb Hc Ha Hb.
  destruct (adm_inv d _ Hda Ha) as ([md sd] & ->).
  pose proof (supertype_bounds exact _ _ _ Hva Hvb (or_intror Hda) (or_intror Hdb) Hc) as Hbd.
  apply bounds_inv in Hbd as (Hdc & _ & _); [| done | done].
  apply valid_tuple_parts in Hva as [Hva Hoa], Hvb as [Hvb Hob]. apply data_tuple in Hda, Hdb.
  cbn [least_supertype_v2_1_impl] in Hc. destruct (exact && _); [done |].
  apply result_bind_Ok in Hc as (m & Hm & (t & Ht & [= <-])%result_bind_Ok).
  apply join_fields_spec in Hm as [Hm Hk]; [| done].
  apply map_err_Ok, tuple_try_from_map_Ok in Ht as (_ & _ & size & _ & ->).
  apply adm_tuple in Ha as [Hl Ha], Hb as [_ Hb]. apply adm_tuple.
  split; [by rewrite Hl, <- (length_fmap fst m), Hk, length_fmap |].
  apply data_tuple in Hdc. rewrite Forall_forall in Ha, Hb, IH, Hva, Hvb, Hda, Hdb, Hdc |- *.
  intros [name td] Hin. destruct (Ha _ Hin) as (ea & Hea & Hda'), (Hb _ Hin) as (eb & Heb & Hdb').
  cbn [fst snd] in *. assert (name ∈ m.*1) as Hnm.
  { rewrite Hk. apply list_elem_of_fmap. exists (name, ea). split; [done | by apply assoc_elem_of]. }
  apply list_elem_of_fmap in Hnm as ([n tc] & Hn & Hint). cbn [fst] in Hn. subst n.
  exists tc. split; [apply elem_of_assoc; [exact (eq_trans (f_equal ordered Hk) Hoa) | done] |].
  destruct (joined_assoc _ _ _ _ _ _ Hoa Hm Hint) as (ea' & eb' & Ha2 & Hia & Hb2 & Hj).
  simplify_eq. pose proof (assoc_elem_of _ _ _ Heb) as Hib.
  assert (opt_adm td tc) as [-> |]; [| by specialize (Hdc _ Hint) | done].
  apply (IH _ Hia eb); [by apply (Hva _ Hia) | by apply (Hvb _ Hib) | right; by apply (Hda _ Hia)
    | right; by apply (Hdb _ Hib) | done | by right | by right].
Qed.

Lemma supertype_lists_least exact n e sz n' e' sz' c d :
  joins_least exact e ->
  valid_type (SequenceType (ListType (mkListTypeData n e sz))) = true ->
  valid_type (SequenceType (ListType (mkListTypeData n' e' sz'))) = true ->
  data_type (SequenceType (ListType (mkListTypeData n e sz))) = true ->
  data_type (SequenceType (ListType (mkListTypeData n' e' sz'))) = true ->
  least_supertype_v2_1_impl exact (SequenceType (ListType (mkListTypeData n e sz)))
    (SequenceType (ListType (mkListTypeData n' e' sz'))) = Ok c ->
  adm d (SequenceType (ListType (mkListTypeData n e sz))) ->
  adm d (SequenceType (ListType (mkListTypeData n' e' sz'))) -> adm d c.
Proof.
  intros IH (Hva & Hna & _)%valid_list (Hvb & Hnb & _)%valid_list Hda Hdb Hc Had Hbd.
  destruct (adm_inv d _ Hda Had) as ([nd ed sd] & ->). unfold is_u32 in *.
  apply data_list in Hda, Hdb. apply adm_list in Had, Hbd.
  apply result_bind_Ok in Hc as (entry & He & (l & Hl & [= <-])%map_err_Ok%result_bind_Ok).
  apply new_list_Ok in Hl as (_ & size & _ & ->). apply adm_list. unfold join_entries in He.
  destruct (Z.eqb_spec n 0) as [-> |]; [injection He as <-; by rewrite Z.max_r by lia |].
  destruct Had as [? | [Hle Had]]; [done |].
  destruct (Z.eqb_spec n' 0) as [-> |]; [injection He as <-; rewrite Z.max_l by lia; by right |].
  destruct Hbd as [? | [Hle' Hbd]]; [done |]. right. split; [lia |].
  destruct Hda as [Hda | [? ?]], Hdb as [Hdb | [? ?]]; try done.
  pose proof (supertype_bounds exact e e' entry Hva Hvb (or_intror Hda) (or_intror Hdb) He) as Hbs.
  apply bounds_inv in Hbs as (Hde & _ & _); [| done..].
  destruct (IH e' entry ed Hva Hvb (or_intror Hda) (or_intror Hdb) He) as [-> |]; try done; by right.
Qed.

Lemma supertype_least exact a : joins_least exact a.
Proof.
  induction a as [| | | | |n|[n|n]|n e sz IH|m sz IH|t IH|t s IH IH'|[k|k]|l|r] using type_induction;
    intros b c d Hva Hvb Hda Hdb Hc Had Hbd.
  1: { rewrite supertype_none_l in Hc. by injection Hc as <-. }
  all: destruct (decide (b = NoType)) as [-> | Hb];
    [rewrite supertype_none_r in Hc; by injection Hc as <- |].
  all: apply opt_data_list in Hda, Hdb; try done.
  all: destruct Had as [? | Had]; [done |]; destruct Hbd as [? | Hbd]; [done |].
  all: cases_of_type b; try discriminate Hc; try discriminate Hdb; try discriminate Hda.
  all: try (right; by eapply supertype_tuples_least).
  all: cbn in Hc; try (case_bool_decide; [| discriminate Hc]); simplify_eq; try (by right).
  1-3: right; by destruct (n >? n').
  - right. by eapply supertype_lists_least.
  - right. destruct (adm_inv d _ Hda Had) as (td & ->).
    apply valid_option in Hva as (Hva & _), Hvb as (Hvb & _). apply data_option in Hda, Hdb.
    apply adm_option in Had, Hbd; try done.
    apply result_bind_Ok in Hc as (x & Hx & (-> & _)%new_option_Ok).
    pose proof (supertype_bounds exact t t' x Hva Hvb Hda Hdb Hx) as (? & _).
    apply adm_option; [done |]. by apply (IH t').
  - right. destruct (adm_inv d _ Hda Had) as (td & ed & ->).
    pose proof (supertype_bounds exact _ _ _ Hva Hvb (or_intror Hda) (or_intror Hdb) Hc) as Hbs.
    apply bounds_inv in Hbs as (Hdc & _ & _); [| done..].
    apply valid_response in Hva as (Hva & Hva' & _), Hvb as (Hvb & Hvb' & _).
    apply adm_response in Had as [Had Had'], Hbd as [Hbd Hbd']; try done.
    apply data_response in Hda as (Hda & Hda' & _), Hdb as (Hdb & Hdb' & _).
    apply result_bind_Ok in Hc as (x & Hx & (y & Hy & (-> & _)%new_response_Ok)%result_bind_Ok).
    apply adm_response; [done |]. split; [by apply (IH t') | by apply (IH' s')].
Qed.

(** ** The checker's supertypes are supertypes of the runtime *)

Lemma join_fields_impl (join join' : TypeSignature -> TypeSignature -> TypeR TypeSignature)
    mismatch mismatch' types_a types_b out m :
  Forall (fun f => forall b c, assoc f.1 types_b = Some b -> join f.2 b = Ok c ->
    join' f.2 b = Ok c) types_a ->
  join_fields join mismatch out types_a types_b = Ok m ->
  join_fields join' mismatch' out types_a types_b = Ok m.
Proof.
  intros Hf. revert out. induction Hf as [| [name ea] ta Hj _ IH]; intros out; cbn [join_fields]; [done |].
  intros (eb & Heb%ok_or_Ok & (eo & Heo%Hj & Hr)%result_bind_Ok)%result_bind_Ok; [| done].
  cbn in Heo |- *. rewrite Heb. cbn. rewrite Heo. cbn. by apply IH.
Qed.

Lemma exact_supertype_agrees a b c :
  least_supertype_v2_1_impl true a b = Ok c -> least_supertype_v2_1_impl false a b = Ok c.
Proof.
  revert b c. induction a as [| | | | |n|[n|n]|n e sz IH|m sz IH|t IH|t s IH IH'|[k|k]|l|r] using type_induction;
    intros b c Hc; cases_of_type b; try exact Hc; cbn in Hc |- *.
  - unfold join_entries in *. destruct (n =? 0); [done |]. destruct (n' =? 0); [done |].
    apply result_bind_Ok in Hc as (x & Hx%IH & Hc). by rewrite Hx.
  - destruct (negb _); [done |]. apply result_bind_Ok in Hc as (x & Hx & Hc).
    eapply join_fields_impl in Hx; [by rewrite Hx |]. eapply Forall_impl; [exact IH |]. naive_solver.
  - apply result_bind_Ok in Hc as (x & Hx%IH & Hc). by rewrite Hx.
  - apply result_bind_Ok in Hc as (x & Hx%IH & (y & Hy%IH' & Hc)%result_bind_Ok). rewrite Hx. cbn.
    by rewrite Hy.
Qed.

(** *** Arguments with a common upper bound

    When some type admits both arguments no field is dropped: the supertype of
    the runtime is the one of the checker. *)

Lemma adm_tuple_keys m size m' size' :
  valid_type (TupleType (mkTupleType m size)) = true ->
  valid_type (TupleType (mkTupleType m' size')) = true ->
  adm (TupleType (mkTupleType m size)) (TupleType (mkTupleType m' size')) ->
  forall name t, (name, t) ∈ m' ->
    exists d, (name, d) ∈ m /\ adm d t.
Proof.
  intros [_ Ho]%valid_tuple_parts [_ Ho']%valid_tuple_parts [Hl Hf]%adm_tuple name t Hin.
  rewrite Forall_forall in Hf.
  assert (m.*1 ≡ₚ m'.*1) as Hp.
  { apply submseteq_length_Permutation; [| rewrite !length_fmap; lia].
    apply NoDup_submseteq; [by apply ordered_NoDup |]. intros n ([n' d] & -> & Hd)%list_elem_of_fmap.
    destruct (Hf _ Hd) as (t' & Ht' & _). apply list_elem_of_fmap. exists (n', t').
    split; [done | by apply assoc_elem_of]. }
  assert (name ∈ m.*1) as ([n d] & Hn & Hd)%list_elem_of_fmap.
  { rewrite Hp. apply list_elem_of_fmap. by exists (name, t). }
  cbn in Hn. subst n. exists d. split; [done |].
  destruct (Hf _ Hd) as (t' & Ht' & Ha). cbn in *.
  rewrite (elem_of_assoc _ _ _ Ho' Hin) in Ht'. by injection Ht' as <-.
Qed.

Lemma bounded_supertype_exact a :
  forall b c d, valid_type a = true -> valid_type b = true -> valid_type d = true ->
    opt_data a -> opt_data b -> opt_adm d a -> opt_adm d b ->
    least_supertype_v2_1_impl false a b = Ok c -> least_supertype_v2_1_impl true a b = Ok c.
Proof.
  induction a as [| | | | |n|[n|n]|n e sz IH|m sz IH|t IH|t s IH IH'|[k|k]|l|r] using type_induction;
    intros b c d Hva Hvb Hvd Hda Hdb Had Hbd Hc.
  1: by rewrite supertype_none_l in *.
  all: destruct (decide (b = NoType)) as [-> | Hb]; [by rewrite supertype_none_r in * |].
  all: apply opt_data_list in Hda, Hdb; try done.
  all: destruct Had as [? | Had]; [done |]; destruct Hbd as [? | Hbd]; [done |].
  all: cases_of_type b; try discriminate Hdb; try discriminate Hda; try exact Hc; cbn in Hc |- *.
  - destruct (adm_inv d _ Hda Had) as ([nd ed sd] & ->).
    apply valid_list in Hva as (Hva & _), Hvb as (Hvb & _), Hvd as (Hvd & _).
    apply data_list in Hda, Hdb. apply adm_list in Had, Hbd. unfold join_entries in *.
    destruct (Z.eqb_spec n 0); [done |]. destruct (Z.eqb_spec n' 0); [done |].
    destruct Hda as [Hda | [_ ?]], Hdb as [Hdb | [_ ?]], Had as [? | [_ Had]], Hbd as [? | [_ Hbd]]; try done.
    apply result_bind_Ok in Hc as (x & Hx & Hc).
    by rewrite (IH e' x ed Hva Hvb Hvd (or_intror Hda) (or_intror Hdb) (or_intror Had) (or_intror Hbd) Hx).
  - destruct (adm_inv d _ Hda Had) as ([md sd] & ->).
    pose proof (adm_tuple_keys _ _ _ _ Hvd Hva Had) as Hka.
    pose proof (adm_tuple_keys _ _ _ _ Hvd Hvb Hbd) as Hkb.
    apply adm_tuple in Had as [Hla _], Hbd as [Hlb _].
    rewrite (proj2 (Nat.eqb_eq (length m) (length m'))) by congruence. cbn.
    apply valid_tuple_parts in Hva as [Hva Hoa], Hvb as [Hvb Hob], Hvd as [Hvd Hod].
    apply data_tuple in Hda, Hdb. apply result_bind_Ok in Hc as (x & Hx & Hc).
    eapply join_fields_impl in Hx; [by rewrite Hx |].
    rewrite Forall_forall in IH, Hva, Hvb, Hvd, Hda, Hdb |- *.
    intros [name ta] Hin tb c' Htb%assoc_elem_of Hj. cbn in *.
    destruct (Hka _ _ Hin) as (da & Hina & ?), (Hkb _ _ Htb) as (db & Hinb & ?).
    apply (elem_of_assoc _ _ _ Hod) in Hinb. pose proof (elem_of_assoc _ _ _ Hod Hina). simplify_eq.
    apply (IH _ Hin _ _ db); [by apply (Hva _ Hin) | by apply (Hvb _ Htb) | by apply (Hvd _ Hina)
      | right; by apply (Hda _ Hin) | right; by apply (Hdb _ Htb) | by right | by right | done].
  - destruct (adm_inv d _ Hda Had) as (td & ->).
    apply valid_option in Hva as (Hva & _), Hvb as (Hvb & _), Hvd as (Hvd & _).
    apply data_option in Hda, Hdb. apply adm_option in Had, Hbd; try done.
    apply result_bind_Ok in Hc as (x & Hx & Hc). by rewrite (IH t' x td Hva Hvb Hvd Hda Hdb Had Hbd Hx).
  - destruct (adm_inv d _ Hda Had) as (td & ed & ->).
    apply valid_response in Hva as (Hva & Hva' & _), Hvb as (Hvb & Hvb' & _), Hvd as (Hvd & Hvd' & _).
    apply adm_response in Had as [Had Had'], Hbd as [Hbd Hbd']; try done.
    apply data_response in Hda as (Hda & Hda' & _), Hdb as (Hdb & Hdb' & _).
    apply result_bind_Ok in Hc as (x & Hx & (y & Hy & Hc)%result_bind_Ok).
    rewrite (IH t' x td Hva Hvb Hvd Hda Hdb Had Hbd Hx). cbn.
    by rewrite (IH' s' y ed Hva' Hvb' Hvd' Hda' Hdb' Had' Hbd' Hy).
Qed.

Lemma admits_type_modern epoch d t :
  epoch_ltb epoch Epoch21 = false -> admits_type epoch d t = Ok true <-> adm d t.
Proof. intros He. unfold admits_type. by rewrite He. Qed.

Lemma matching_fields_modern epoch :
  requires_matching_tuple_fields_in_analysis epoch = true -> epoch_ltb epoch Epoch21 = false.
Proof. by destruct epoch. Qed.

(** ** Inferred list types *)

Section FoldBounds.
(** A class of types on which [join] gives upper bounds *)
Context (join : TypeSignature -> TypeSignature -> TypeR TypeSignature) (Q : TypeSignature -> Prop).
Context (Q_data : forall t, Q t -> valid_type t = true /\ data_type t = true).
Context (Q_join : forall a b c, Q a -> Q b -> join a b = Ok c -> Q c /\ adm c a /\ adm c b).

Lemma fold_entry_types_bounds children t0 t :
  Q t0 -> Forall Q children ->
  fold_entry_types join (Some t0) (Ok <$> children) = Ok t ->
  exists t', t = Some t' /\ Q t' /\ adm t' t0 /\ Forall (adm t') children.
Proof.
  intros H0 Hc. revert t0 H0. induction Hc as [| c cs Hc _ IH]; intros t0 H0.
  { intros [= <-]. exists t0. destruct (Q_data t0 H0). split_and!; try done. by apply adm_refl. }
  cbn [fmap list_fmap fold_entry_types]. cbn. intros (t1 & Ht1 & Hf)%result_bind_Ok.
  assert (Q t1 /\ adm t1 t0 /\ adm t1 c) as (H1 & Ha & Hb).
  { destruct (type_eqb t0 c) eqn:E; [| by apply Q_join].
    apply type_eqb_eq in E as <-. injection Ht1 as <-. destruct (Q_data t0 H0). auto using adm_refl. }
  destruct (IH t1 H1 Hf) as (t' & -> & H' & Ha' & Hcs). exists t'.
  destruct (Q_data t0 H0), (Q_data t1 H1), (Q_data c Hc).
  split_and!; [done | done | by apply (adm_trans t' t1 t0) |].
  constructor; [by apply (adm_trans t' t1 c) | done].
Qed.

Lemma parent_list_type_bounds children l :
  Forall Q children ->
  parent_list_type_from_iter (Z.of_nat (length children)) (Ok <$> children) join = Ok l ->
  valid_type (SequenceType (ListType l)) = true /\
  data_type (SequenceType (ListType l)) = true /\
  get_max_len l = Z.of_nat (length children) /\ Forall (adm (get_list_item_type l)) children.
Proof.
  intros Hc. unfold parent_list_type_from_iter.
  destruct children as [| c cs]; [intros [= <-]; by repeat constructor |].
  apply Forall_cons in Hc as [Hc Hcs].
  cbn [fmap list_fmap fold_entry_types]. intros (t & Ht & Hl)%result_bind_Ok. cbn in Ht.
  apply fold_entry_types_bounds in Ht as (t' & -> & H' & Ha & Hf); try done.
  apply result_bind_Ok in Hl as (n & (-> & Hn)%ok_or_Ok%checked_Some & Hl).
  destruct (Q_data t' H') as [Hv Hd]. split; [by eapply new_list_valid |].
  apply new_list_Ok in Hl as (_ & size & _ & ->). split; [apply data_list; by left |].
  split; [done |]. by constructor.
Qed.
End FoldBounds.

(** The supertypes of the checker from Epoch 4.1, and those of the runtime
    below a common bound, are upper bounds. *)
Lemma analysis_joins_bound a b c :
  valid_type a = true /\ data_type a = true -> valid_type b = true /\ data_type b = true ->
  least_supertype_v2_1_impl true a b = Ok c ->
  (valid_type c = true /\ data_type c = true) /\ adm c a /\ adm c b.
Proof.
  intros [Hva Hda] [Hvb Hdb] Hc.
  pose proof (supertype_bounds true _ _ _ Hva Hvb (or_intror Hda) (or_intror Hdb) Hc) as Hbd.
  apply bounds_inv in Hbd as (? & ? & ?); [| done..].
  split_and!; auto. by apply (least_supertype_v2_1_valid true a b).
Qed.

Definition data_below (d t : TypeSignature) : Prop :=
  valid_type t = true /\ data_type t = true /\ adm d t.

Lemma runtime_joins_bound d a b c :
  valid_type d = true -> data_below d a -> data_below d b ->
  least_supertype_v2_1 a b = Ok c -> data_below d c /\ adm c a /\ adm c b.
Proof.
  intros Hd (Hva & Hda & Haa) (Hvb & Hdb & Hab) Hc. unfold least_supertype_v2_1 in Hc.
  pose proof (bounded_supertype_exact a b c d Hva Hvb Hd (or_intror Hda) (or_intror Hdb)
    (or_intror Haa) (or_intror Hab) Hc) as Hex.
  destruct (analysis_joins_bound a b c) as ([? ?] & ? & ?); [done | done | done |].
  split_and!; try done.
  destruct (supertype_least false a b c d Hva Hvb (or_intror Hda) (or_intror Hdb) Hc) as [-> |];
    [by right | by right | done | done].
Qed.

(** ** Theorems *)

(** C38: Admission orders the valid types of data: every type admits itself, and
    a type admits what is admitted by a type that it admits. *)
Theorem admission_is_preorder epoch a b c :
  epoch_ltb epoch Epoch21 = false ->
  valid_type a = true -> valid_type b = true -> data_type a = true -> data_type b = true ->
  admits_type epoch a a = Ok true /\
  (admits_type epoch c b = Ok true -> admits_type epoch b a = Ok true ->
   admits_type epoch c a = Ok true).
Proof.
  intros He Hva Hvb Hda Hdb. rewrite !(admits_type_modern epoch) by done.
  split; [by apply adm_refl | by apply adm_trans].
Qed.


(** The supertype that the runtime computes since Epoch 2.1 admits its first
    argument and is admitted by every type that admits both arguments, but it
    drops tuple fields that only its second argument has: the result need not
    admit the second argument. Whenever the Epoch 4.1 checker finds a supertype,
    the runtime computes the same. *)
Theorem runtime_supertype_admits_first epoch a b c :
  epoch_ltb epoch Epoch21 = false ->
  valid_type a = true -> valid_type b = true -> data_type a = true -> data_type b = true ->
  least_supertype epoch a b = Ok c ->
  admits_type epoch c a = Ok true /\
  (forall d, admits_type epoch d a = Ok true -> admits_type epoch d b = Ok true ->
     admits_type epoch d c = Ok true) /\
  (forall c', least_supertype_for_analysis Epoch41 a b = Ok c' -> c' = c).
Proof.
  intros He Hva Hvb Hda Hdb Hc. unfold least_supertype in Hc. rewrite He in Hc.
  unfold least_supertype_v2_1 in Hc.
  pose proof (supertype_bounds false _ _ _ Hva Hvb (or_intror Hda) (or_intror Hdb) Hc) as Hbd.
  apply bounds_inv in Hbd as (Hdc & Ha & _); [| done..].
  rewrite !(admits_type_modern epoch) by done. split_and!; [done | |].
  - intros d. rewrite !(admits_type_modern epoch) by done. intros Had Hbd.
    destruct (supertype_least false a b c d Hva Hvb (or_intror Hda) (or_intror Hdb) Hc) as [-> |];
      [by right | by right | done | done].
  - intros c' Hc'. apply exact_supertype_agrees in Hc'. congruence.
Qed.

(** The entry type that the Epoch 4.1 checker infers for a list admits the
    type of every element, and the inferred list type is valid and has the
    number of elements as its length. *)
Theorem inferred_list_type_admits_elements epoch children l :
  requires_matching_tuple_fields_in_analysis epoch = true ->
  Forall (fun c => valid_type c = true /\ data_type c = true) children ->
  parent_list_type_for_analysis epoch children = Ok l ->
  valid_type (SequenceType (ListType l)) = true /\
  get_max_len l = Z.of_nat (length children) /\
  Forall (fun c => admits_type epoch (get_list_item_type l) c = Ok true) children.
Proof.
  intros He Hc Hl. pose proof (matching_fields_modern _ He) as Hm.
  unfold parent_list_type_for_analysis in Hl.
  apply (parent_list_type_bounds _ (fun t => valid_type t = true /\ data_type t = true)) in Hl
    as (? & _ & ? & Hf); [| tauto | | done].
  - split_and!; [done | done |]. eapply Forall_impl; [exact Hf |]. intros x. by apply admits_type_modern.
  - intros a b c Ha Hb Hj. unfold least_supertype_for_analysis in Hj. rewrite He in Hj.
    by apply analysis_joins_bound.
Qed.

(** ** Unions with a trait

    [concretize] starts out with [is_principal] set, so the first trait of a
    union is a mismatch: no union that holds a trait has a concrete type, and
    a union is never concretized to a trait. *)
Lemma union_with_trait_has_no_concrete_type l t :
  CallableTrait t ∈ l -> exists e, concretize (ListUnionType l) = Err e.
Proof.
  intros Hin. cbn. enough (exists e, concretize_union None true l = Err e) as [e ->] by (by exists e).
  induction l as [| [c | t'] l IH]; [by apply elem_of_nil in Hin | | by eexists].
  apply elem_of_cons in Hin as [? | Hin]; [done | cbn; auto].
Qed.

(** ** Witnesses *)

Definition narrow_tuple : TypeSignature :=
  match tuple_try_from_vec [("a", IntType)] with Ok t => TupleType t | _ => NoType end.
Definition wide_tuple : TypeSignature :=
  match tuple_try_from_vec [("b", BoolType); ("a", IntType)] with Ok t => TupleType t | _ => NoType end.
Definition some_int : TypeSignature := OptionalType IntType.
Definition no_int : TypeSignature := OptionalType NoType.

Lemma admission_is_preorder_witness :
  admits_type Epoch30 wide_tuple wide_tuple = Ok true /\
  (admits_type Epoch30 wide_tuple wide_tuple = Ok true ->
   admits_type Epoch30 wide_tuple wide_tuple = Ok true ->
   admits_type Epoch30 wide_tuple wide_tuple = Ok true).
Proof. apply (admission_is_preorder Epoch30 wide_tuple wide_tuple wide_tuple); by vm_compute. Defined.


Lemma runtime_supertype_admits_first_witness :
  least_supertype Epoch30 narrow_tuple wide_tuple = Ok narrow_tuple /\
  admits_type Epoch30 narrow_tuple wide_tuple = Ok false /\
  admits_type Epoch30 narrow_tuple narrow_tuple = Ok true.
Proof.
  split; [done |]. split; [done |].
  refine (proj1 (runtime_supertype_admits_first Epoch30 narrow_tuple wide_tuple narrow_tuple _ _ _ _ _ _));
    by vm_compute.
Defined.

Lemma inferred_list_type_admits_elements_witness :
  exists l, parent_list_type_for_analysis Epoch41 [no_int; some_int] = Ok l /\
    valid_type (SequenceType (ListType l)) = true /\ get_max_len l = 2 /\
    Forall (fun c => admits_type Epoch41 (get_list_item_type l) c = Ok true) [no_int; some_int].
Proof.
  eexists. split; [by vm_compute |].
  apply (inferred_list_type_admits_elements Epoch41 [no_int; some_int]);
    [done | by repeat constructor | by vm_compute].
Defined.
