(* ===== verification/RollbackStore.v ===== *)
(** * The rollback wrapper of the Clarity database

    [clarity/src/vm/database/key_value_wrapper.rs]: uncommitted edits are kept
    in a stack of contexts.  A context logs the keys it wrote, a single lookup
    map keeps for every key the history of its pending values, and committing
    the outermost context writes the log to the backing store.

    The specification is the same stack with the values in the logs
    ([AbsStore]): reads see the last write of the concatenated logs, [rollback]
    drops the top log, [commit] appends it to the one below.  [Rel] relates
    the two, every operation is shown to preserve it, and [run_refines] lifts
    this to sequences of operations.  From it follow that the internal error
    paths and the [assert!] of the wrapper are unreachable, that [rollback]
    restores exactly the state before [nest], and that the wrapper over a
    lawful backing store implements the key-value interface [KVStoreLaws] the
    ledger is verified against.  The build without the feature
    [rollback_value_check] is modelled. *)

From S2P Require Import Prelude.
From S2P Require Import Bytes.
From S2P Require Import Epochs.
From S2P Require Import Values.

(** ** The backing store

    The trait [ClarityBackingStore]; [{e:?}] is the derived rendering of an
    error. *)
Class ClarityBackingStore (B : Type) := {
  bs_put_all_data : list (string * string) -> M B VmExecutionError unit;
  bs_get_data : string -> M B VmExecutionError (option string);
  bs_has_entry : string -> M B VmExecutionError bool;
  bs_set_block_hash : list Z -> M B VmExecutionError (list Z);
  bs_get_metadata :
    QualifiedContractIdentifier -> string -> M B VmExecutionError (option string);
  bs_get_metadata_manual :
    Z -> QualifiedContractIdentifier -> string -> M B VmExecutionError (option string);
  bs_put_all_metadata :
    list ((QualifiedContractIdentifier * string) * string) -> M B VmExecutionError unit;
  bs_debug_error : VmExecutionError -> string;
}.

(** ** Edit logs, for data keys and for metadata keys *)

Section EditLog.
Context {T : Type} `{Countable T}.
Implicit Types (edits : list (T * unit)) (lookup_map : gmap T (list string)).

Definition rollback_lookup_map (key : T) (value : unit)
    : M (gmap T (list string)) VmInternalError string :=
  fun lookup_map =>
  match lookup_map !! key with
  | None =>
      (Err (VI_Expect "ERROR: Clarity VM had edit log entry, but not lookup_map entry"),
       lookup_map)
  | Some key_edit_history =>
      match vec_pop key_edit_history with
      | None => (Err (VI_Expect "ERROR: expected value in edit history"), lookup_map)
      | Some (popped_value, rest) =>
          (Ok popped_value,
           if decide (rest = []) then delete key lookup_map
           else <[key := rest]> lookup_map)
      end
  end.

(** The loop of [rollback] over the reversed edits of a context *)
Fixpoint rollback_edits edits : M (gmap T (list string)) VmInternalError unit :=
  match edits with
  | [] => mret tt
  | (key, value) :: edits =>
      _ ← rollback_lookup_map key value;
      rollback_edits edits
  end.

(** The [map(..).collect()] of [rollback_check_pre_bottom_commit] *)
Fixpoint collect_edits edits : M (gmap T (list string)) VmInternalError (list (T * string)) :=
  match edits with
  | [] => mret []
  | (key, _) :: edits =>
      value ← rollback_lookup_map key tt;
      rest ← collect_edits edits;
      mret ((key, value) :: rest)
  end.

Definition rollback_check_pre_bottom_commit edits
    : M (gmap T (list string)) VmInternalError (list (T * string)) :=
  fun lookup_map =>
  let '(output, lookup_map) := collect_edits edits (reverse <$> lookup_map) in
  if decide (lookup_map = ∅) then (output, lookup_map) else (Panic, lookup_map).

Definition inner_put_data lookup_map edits (key : T) (value : string)
    : gmap T (list string) * list (T * unit) :=
  (<[key := default [] (lookup_map !! key) ++ [value]]> lookup_map,
   edits ++ [(key, tt)]).
End EditLog.

Definition MetadataKey : Type := QualifiedContractIdentifier * string.

Record RollbackContext := mkRollbackContext {
  edits : list (string * unit);
  metadata_edits : list (MetadataKey * unit);
}.

(** ** The wrapper

    [stack] is the source's vector with its last element, the innermost
    context, at the head. *)
Record RollbackWrapper (B : Type) := mkRollbackWrapper {
  store : B;
  lookup_map : gmap string (list string);
  metadata_lookup_map : gmap MetadataKey (list string);
  stack : list RollbackContext;
  query_pending_data : bool;
}.
Arguments mkRollbackWrapper {B} _ _ _ _ _.
Arguments store {B} _.
Arguments lookup_map {B} _.
Arguments metadata_lookup_map {B} _.
Arguments stack {B} _.
Arguments query_pending_data {B} _.

Section Wrapper.
Context {B : Type} `{ClarityBackingStore B}.
Implicit Types (w : RollbackWrapper B).

Definition set_store (b : B) w : RollbackWrapper B :=
  mkRollbackWrapper b (lookup_map w) (metadata_lookup_map w) (stack w)
    (query_pending_data w).
Definition set_lookup_map (m : gmap string (list string)) w : RollbackWrapper B :=
  mkRollbackWrapper (store w) m (metadata_lookup_map w) (stack w) (query_pending_data w).
Definition set_metadata_lookup_map (m : gmap MetadataKey (list string)) w
    : RollbackWrapper B :=
  mkRollbackWrapper (store w) (lookup_map w) m (stack w) (query_pending_data w).
Definition set_stack (st : list RollbackContext) w : RollbackWrapper B :=
  mkRollbackWrapper (store w) (lookup_map w) (metadata_lookup_map w) st
    (query_pending_data w).
Definition set_query_pending_data (q : bool) w : RollbackWrapper B :=
  mkRollbackWrapper (store w) (lookup_map w) (metadata_lookup_map w) (stack w) q.

Definition on_store {A} (m : M B VmExecutionError A)
    : M (RollbackWrapper B) VmExecutionError A := zoom store set_store m.

Definition RollbackWrapper_new (b : B) : RollbackWrapper B :=
  mkRollbackWrapper b ∅ ∅ [] true.

Definition nest w : RollbackWrapper B :=
  set_stack (mkRollbackContext [] [] :: stack w) w.

Definition depth w : nat := length (stack w).

Definition err_commit_past_stack : VmInternalError :=
  VI_Expect "ERROR: Clarity VM attempted to commit past the stack.".

Definition rollback : M (RollbackWrapper B) VmInternalError unit := fun w =>
  match stack w with
  | [] => (Err err_commit_past_stack, w)
  | last_item :: rest =>
      (_ ← zoom lookup_map set_lookup_map (rollback_edits (reverse (edits last_item)));
       zoom metadata_lookup_map set_metadata_lookup_map
         (rollback_edits (reverse (metadata_edits last_item))))
        (set_stack rest w)
  end.

Definition store_failure (e : VmExecutionError) : VmInternalError :=
  VI_Expect ("ERROR: Failed to commit data to sql store: " +:+ bs_debug_error e).

Definition commit : M (RollbackWrapper B) VmInternalError unit := fun w =>
  match stack w with
  | [] => (Err err_commit_past_stack, w)
  | last_item :: next_up :: rest =>
      (Ok tt,
       set_stack (mkRollbackContext (edits next_up ++ edits last_item)
                    (metadata_edits next_up ++ metadata_edits last_item) :: rest) w)
  | [last_item] =>
      (all_edits ← zoom lookup_map set_lookup_map
                     (rollback_check_pre_bottom_commit (edits last_item));
       _ ← (if decide (all_edits = []) then mret tt
            else mmap_err store_failure (on_store (bs_put_all_data all_edits)));
       all_metadata ← zoom metadata_lookup_map set_metadata_lookup_map
                        (rollback_check_pre_bottom_commit (metadata_edits last_item));
       if decide (all_metadata = []) then mret tt
       else mmap_err store_failure (on_store (bs_put_all_metadata all_metadata)))
        (set_stack [] w)
  end.

Definition err_put_non_nested : VmInternalError :=
  VI_Expect "ERROR: Clarity VM attempted PUT on non-nested context.".
Definition err_get_non_nested : VmInternalError :=
  VI_Expect "ERROR: Clarity VM attempted GET on non-nested context.".

Definition put_data (key value : string)
    : M (RollbackWrapper B) VmExecutionError unit := fun w =>
  match stack w with
  | [] => (Err (Internal err_put_non_nested), w)
  | current :: rest =>
      let '(lm, es) := inner_put_data (lookup_map w) (edits current) key value in
      (Ok tt,
       set_lookup_map lm
         (set_stack (mkRollbackContext es (metadata_edits current) :: rest) w))
  end.

Definition insert_metadata (contract : QualifiedContractIdentifier) (key value : string)
    : M (RollbackWrapper B) VmInternalError unit := fun w =>
  match stack w with
  | [] => (Err err_put_non_nested, w)
  | current :: rest =>
      let '(lm, es) := inner_put_data (metadata_lookup_map w) (metadata_edits current)
                         (contract, key) value in
      (Ok tt,
       set_metadata_lookup_map lm
         (set_stack (mkRollbackContext (edits current) es :: rest) w))
  end.

Definition is_retargeted w : bool := negb (query_pending_data w).

Definition set_block_hash (bhh : list Z) (query_pending : bool)
    : M (RollbackWrapper B) VmExecutionError (list Z) :=
  prior ← on_store (bs_set_block_hash bhh);
  _ ← modify (set_query_pending_data query_pending);
  mret prior.

(** [self.stack.last().ok_or_else(..)?] before every read *)
Definition check_nested : M (RollbackWrapper B) VmExecutionError unit := fun w =>
  ensure (negb (bool_decide (stack w = []))) (Internal err_get_non_nested) w.

(** The pending value of a key: the last one of its history, when pending
    data is queried at all *)
Definition pending {T} `{Countable T} (q : bool) (lm : gmap T (list string)) (key : T)
    : option string :=
  if q then lm !! key ≫= last else None.

(** [get_data] before [T::deserialize]: every [ClarityDeserializable] reads
    the string this returns. *)
Definition get_data_str (key : string)
    : M (RollbackWrapper B) VmExecutionError (option string) :=
  _ ← check_nested;
  w ← get;
  match pending (query_pending_data w) (lookup_map w) key with
  | Some v => mret (Some v)
  | None => on_store (bs_get_data key)
  end.

Definition get_data {A} (deserialize : string -> result VmExecutionError A) (key : string)
    : M (RollbackWrapper B) VmExecutionError (option A) :=
  o ← get_data_str key;
  match o with
  | None => mret None
  | Some s => a ← lift (deserialize s); mret (Some a)
  end.

Definition has_entry (key : string) : M (RollbackWrapper B) VmExecutionError bool :=
  _ ← check_nested;
  w ← get;
  if query_pending_data w && bool_decide (is_Some (lookup_map w !! key))
  then mret true else on_store (bs_has_entry key).

Definition get_metadata (contract : QualifiedContractIdentifier) (key : string)
    : M (RollbackWrapper B) VmExecutionError (option string) :=
  _ ← check_nested;
  w ← get;
  match pending (query_pending_data w) (metadata_lookup_map w) (contract, key) with
  | Some v => mret (Some v)
  | None => on_store (bs_get_metadata contract key)
  end.

Definition get_metadata_manual (at_height : Z) (contract : QualifiedContractIdentifier)
    (key : string) : M (RollbackWrapper B) VmExecutionError (option string) :=
  _ ← check_nested;
  w ← get;
  match pending (query_pending_data w) (metadata_lookup_map w) (contract, key) with
  | Some v => mret (Some v)
  | None => on_store (bs_get_metadata_manual at_height contract key)
  end.

Definition has_metadata_entry (contract : QualifiedContractIdentifier) (key : string) w
    : bool :=
  match get_metadata contract key w with
  | (Ok (Some _), _) => true
  | _ => false
  end.

Definition has_pending_metadata (contract : QualifiedContractIdentifier)
    (keys : list string) w : bool :=
  if is_retargeted w then false
  else existsb (fun key =>
         bool_decide (is_Some (metadata_lookup_map w !! (contract, key)))) keys.
End Wrapper.

(** ** Operations as data

    The state-changing calls a Clarity transaction makes, to state properties
    of sequences of them. *)
Inductive StoreOp :=
| OpNest
| OpPut (key value : string)
| OpInsertMetadata (contract : QualifiedContractIdentifier) (key value : string)
| OpRollback
| OpCommit.

Section Run.
Context {B : Type} `{ClarityBackingStore B}.

Definition run_op (op : StoreOp) : M (RollbackWrapper B) VmExecutionError unit :=
  match op with
  | OpNest => modify nest
  | OpPut key value => put_data key value
  | OpInsertMetadata contract key value =>
      mmap_err Internal (insert_metadata contract key value)
  | OpRollback => mmap_err Internal rollback
  | OpCommit => mmap_err Internal commit
  end.

Fixpoint run_ops (ops : list StoreOp) : M (RollbackWrapper B) VmExecutionError unit :=
  match ops with
  | [] => mret tt
  | op :: ops => _ ← run_op op; run_ops ops
  end.
End Run.

(** ** Specification: a stack of logs of values *)

Record AbsContext := mkAbsContext {
  a_edits : list (string * string);
  a_metadata : list (MetadataKey * string);
}.

Record AbsStore (B : Type) := mkAbsStore {
  a_store : B;
  a_stack : list AbsContext;
  a_query : bool;
}.
Arguments mkAbsStore {B} _ _ _.
Arguments a_store {B} _.
Arguments a_stack {B} _.
Arguments a_query {B} _.

(** All pending edits, oldest first *)
Fixpoint all_edits (st : list AbsContext) : list (string * string) :=
  match st with
  | [] => []
  | c :: st => all_edits st ++ a_edits c
  end.

Fixpoint all_metadata (st : list AbsContext) : list (MetadataKey * string) :=
  match st with
  | [] => []
  | c :: st => all_metadata st ++ a_metadata c
  end.

(** The values written to a key by a log, and the last of them *)
Definition values_of {T} `{EqDecision T} (key : T) (log : list (T * string)) : list string :=
  (filter (fun e => e.1 = key) log).*2.

Definition last_value {T} `{EqDecision T} (key : T) (log : list (T * string))
    : option string := last (values_of key log).

Section AbsOps.
Context {B : Type} `{ClarityBackingStore B}.
Implicit Types (a : AbsStore B).

Definition a_set_stack (st : list AbsContext) a : AbsStore B :=
  mkAbsStore (a_store a) st (a_query a).

Definition a_on_store {A} (m : M B VmExecutionError A) : M (AbsStore B) VmExecutionError A :=
  zoom a_store (fun b a => mkAbsStore b (a_stack a) (a_query a)) m.

Definition a_commit_to {A} (put : list A -> M B VmExecutionError unit) (items : list A)
    : M (AbsStore B) VmInternalError unit :=
  match items with
  | [] => mret tt
  | _ => mmap_err store_failure (a_on_store (put items))
  end.

Definition abs_op (op : StoreOp) : M (AbsStore B) VmExecutionError unit := fun a =>
  match op, a_stack a with
  | OpNest, st => (Ok tt, a_set_stack (mkAbsContext [] [] :: st) a)
  | (OpPut _ _ | OpInsertMetadata _ _ _), [] => (Err (Internal err_put_non_nested), a)
  | OpPut key value, c :: st =>
      (Ok tt, a_set_stack (mkAbsContext (a_edits c ++ [(key, value)]) (a_metadata c) :: st) a)
  | OpInsertMetadata contract key value, c :: st =>
      (Ok tt,
       a_set_stack
         (mkAbsContext (a_edits c) (a_metadata c ++ [((contract, key), value)]) :: st) a)
  | (OpRollback | OpCommit), [] => (Err (Internal err_commit_past_stack), a)
  | OpRollback, _ :: st => (Ok tt, a_set_stack st a)
  | OpCommit, [c] =>
      mmap_err Internal
        (_ ← a_commit_to bs_put_all_data (a_edits c);
         a_commit_to bs_put_all_metadata (a_metadata c))
        (a_set_stack [] a)
  | OpCommit, c :: c' :: st =>
      (Ok tt,
       a_set_stack (mkAbsContext (a_edits c' ++ a_edits c) (a_metadata c' ++ a_metadata c)
                    :: st) a)
  end.

Fixpoint abs_ops (ops : list StoreOp) : M (AbsStore B) VmExecutionError unit :=
  match ops with
  | [] => mret tt
  | op :: ops => _ ← abs_op op; abs_ops ops
  end.
End AbsOps.

(** ** Key-value interface offered to the rest of the database *)

Class KVStore (S : Type) := {
  kv_get : string -> M S VmExecutionError (option string);
  kv_put : string -> string -> M S VmExecutionError unit;
}.

(** On the states in [kv_ok], reads return what [kv_view] says without
    changing it, and writes change exactly one key of it. *)
Class KVStoreLaws (S : Type) `{KVStore S} := {
  kv_ok : S -> Prop;
  kv_view : S -> gmap string string;
  kv_get_spec k s : kv_ok s -> exists s',
    kv_get k s = (Ok (kv_view s !! k), s') /\ kv_ok s' /\ kv_view s' = kv_view s;
  kv_put_spec k v s : kv_ok s -> exists s',
    kv_put k v s = (Ok tt, s') /\ kv_ok s' /\ kv_view s' = <[k := v]> (kv_view s);
}.

(** What the wrapper relies on: the documented behaviour of
    [ClarityBackingStore::get_data] and [put_all_data]. *)
Definition apply_items (items : list (string * string)) (m : gmap string string)
    : gmap string string := foldl (fun m e => <[e.1 := e.2]> m) m items.

Class BackingStoreLaws (B : Type) `{ClarityBackingStore B} := {
  bs_view : B -> gmap string string;
  bs_get_spec k b : exists b',
    bs_get_data k b = (Ok (bs_view b !! k), b') /\ bs_view b' = bs_view b;
  bs_put_spec items b : exists b',
    bs_put_all_data items b = (Ok tt, b') /\ bs_view b' = apply_items items (bs_view b);
  bs_put_metadata_spec items b r b' :
    bs_put_all_metadata items b = (r, b') -> bs_view b' = bs_view b;
}.

#[export] Instance RollbackWrapper_KVStore B `{ClarityBackingStore B} :
  KVStore (RollbackWrapper B) := {
  kv_get := get_data_str;
  kv_put := put_data;
}.

(** What a read through the wrapper sees *)
Definition wrapper_view {B} `{BackingStoreLaws B} (w : RollbackWrapper B)
    : gmap string string :=
  omap last (lookup_map w) ∪ bs_view (store w).

(** ** Lookup maps are histories of logs *)

Definition is_history {T} `{Countable T} (lm : gmap T (list string))
    (log : list (T * string)) : Prop :=
  forall k, lm !! k = match values_of k log with [] => None | h => Some h end.

Definition erase_log {T} (log : list (T * string)) : list (T * unit) :=
  (fun e => (e.1, tt)) <$> log.

Section History.
Context {T : Type} `{Countable T}.
Implicit Types (lm : gmap T (list string)) (log : list (T * string)).

Lemma values_of_app k log1 log2 :
  values_of k (log1 ++ log2) = values_of k log1 ++ values_of k log2.
Proof. unfold values_of. by rewrite filter_app, fmap_app. Qed.

Lemma values_of_cons k e log :
  values_of k (e :: log) = (if decide (e.1 = k) then [e.2] else []) ++ values_of k log.
Proof. unfold values_of. rewrite filter_cons. by case_decide. Qed.

Lemma values_of_snoc k log k' v :
  values_of k (log ++ [(k', v)]) = values_of k log ++ (if decide (k' = k) then [v] else []).
Proof. rewrite values_of_app, values_of_cons. cbn. by rewrite app_nil_r. Qed.

Lemma values_of_reverse k log : values_of k (reverse log) = reverse (values_of k log).
Proof.
  induction log as [| e log IH]; [done |].
  rewrite reverse_cons, values_of_app, !values_of_cons, IH, reverse_app.
  f_equal. cbn. rewrite app_nil_r. by case_decide.
Qed.

Lemma is_history_unique lm1 lm2 log :
  is_history lm1 log -> is_history lm2 log -> lm1 = lm2.
Proof. intros H1 H2. apply map_eq. intros k. by rewrite (H1 k), (H2 k). Qed.

Lemma is_history_nil lm : is_history lm [] <-> lm = ∅.
Proof.
  split; [intros Hh | intros -> k; by rewrite lookup_empty].
  apply map_eq. intros k. by rewrite (Hh k), lookup_empty.
Qed.

Lemma is_history_last lm log k :
  is_history lm log -> lm !! k ≫= last = last_value k log.
Proof.
  intros Hh. rewrite (Hh k). unfold last_value. by destruct (values_of k log).
Qed.

Lemma is_history_reverse lm log :
  is_history lm log -> is_history (reverse <$> lm) (reverse log).
Proof.
  intros Hh k. rewrite lookup_fmap, (Hh k), values_of_reverse.
  destruct (values_of k log) as [| v vs]; [done |].
  change (reverse <$> Some (v :: vs)) with (Some (reverse (v :: vs))).
  rewrite reverse_cons. by destruct (reverse vs).
Qed.

Lemma inner_put_history lm log es k v :
  is_history lm log ->
  is_history (inner_put_data lm es k v).1 (log ++ [(k, v)]).
Proof.
  intros Hh k'. cbn. rewrite values_of_snoc. destruct (decide (k = k')) as [-> | Hne].
  - rewrite lookup_insert_eq, (Hh k').
    by destruct (values_of k' log).
  - rewrite lookup_insert_ne, app_nil_r by done. apply Hh.
Qed.

Lemma rollback_lookup_map_history lm log k v u :
  is_history lm (log ++ [(k, v)]) -> exists lm',
    rollback_lookup_map k u lm = (Ok v, lm') /\ is_history lm' log.
Proof.
  intros Hh. unfold rollback_lookup_map.
  pose proof (Hh k) as Hk. rewrite values_of_snoc, decide_True in Hk by done.
  rewrite Hk. destruct (values_of k log ++ [v]) as [| x l] eqn:E.
  { by destruct (values_of k log). }
  rewrite <- E, vec_pop_snoc. eexists. split; [done |]. intros k'.
  pose proof (Hh k') as Hk'. rewrite values_of_snoc in Hk'.
  destruct (decide (k = k')) as [-> | Hne].
  - case_decide as Hnil.
    + by rewrite lookup_delete_eq, Hnil.
    + rewrite lookup_insert_eq. by destruct (values_of k' log).
  - rewrite app_nil_r in Hk'.
    case_decide; [rewrite lookup_delete_ne | rewrite lookup_insert_ne]; done.
Qed.

Lemma rollback_edits_history lm log l :
  is_history lm (log ++ l) -> exists lm',
    rollback_edits (reverse (erase_log l)) lm = (Ok tt, lm') /\ is_history lm' log.
Proof.
  revert lm. induction l as [| [k v] l IH] using rev_ind; intros lm Hh.
  - rewrite app_nil_r in Hh. by exists lm.
  - rewrite app_assoc in Hh.
    destruct (rollback_lookup_map_history lm (log ++ l) k v tt Hh) as (lm1 & Hr & Hh1).
    unfold erase_log. rewrite fmap_app, reverse_app. cbn.
    rewrite (M_bind_eval _ _ _ _ _ Hr). by apply IH.
Qed.

Lemma collect_edits_history lm log :
  is_history lm (reverse log) ->
  collect_edits (erase_log log) lm = (Ok log, ∅).
Proof.
  revert lm. induction log as [| [k v] log IH]; intros lm Hh.
  - apply is_history_nil in Hh as ->. done.
  - rewrite reverse_cons in Hh.
    destruct (rollback_lookup_map_history _ _ _ _ tt Hh) as (lm1 & Hr & Hh1).
    cbn. rewrite (M_bind_eval _ _ _ _ _ Hr).
    by rewrite (M_bind_eval _ _ _ _ _ (IH _ Hh1)).
Qed.

(** Committing the outermost context returns its log with the values in the
    order of the writes, and consumes the lookup map. *)
Lemma pre_bottom_commit_history lm log :
  is_history lm log ->
  rollback_check_pre_bottom_commit (erase_log log) lm = (Ok log, ∅).
Proof.
  intros Hh. unfold rollback_check_pre_bottom_commit.
  rewrite collect_edits_history by (by apply is_history_reverse). by rewrite decide_True.
Qed.
End History.

(** ** Refinement *)

Definition erase_context (c : AbsContext) : RollbackContext :=
  mkRollbackContext (erase_log (a_edits c)) (erase_log (a_metadata c)).

Record Rel {B} (w : RollbackWrapper B) (a : AbsStore B) : Prop := {
  rel_store : store w = a_store a;
  rel_query : query_pending_data w = a_query a;
  rel_stack : stack w = erase_context <$> a_stack a;
  rel_data : is_history (lookup_map w) (all_edits (a_stack a));
  rel_metadata : is_history (metadata_lookup_map w) (all_metadata (a_stack a));
}.

Lemma Rel_unique {B} (w1 w2 : RollbackWrapper B) a : Rel w1 a -> Rel w2 a -> w1 = w2.
Proof.
  destruct w1, w2. intros [] []. cbn in *. subst. f_equal; by eapply is_history_unique.
Qed.

Lemma erase_log_snoc {T} (log : list (T * string)) e :
  erase_log (log ++ [e]) = erase_log log ++ [(e.1, tt)].
Proof. unfold erase_log. by rewrite fmap_app. Qed.

Section Refinement.
Context {B : Type} `{ClarityBackingStore B}.
Implicit Types (w : RollbackWrapper B) (a : AbsStore B).

Lemma Rel_new (b : B) : Rel (RollbackWrapper_new b) (mkAbsStore b [] true).
Proof. by split; try apply is_history_nil. Qed.

(** Outcomes agree, and so do the states when the operation returns. *)
Definition refines (m : M (RollbackWrapper B) VmExecutionError unit)
    (m' : M (AbsStore B) VmExecutionError unit) : Prop :=
  forall w a, Rel w a ->
  (m w).1 = (m' a).1 /\ ((m w).1 = Ok tt -> Rel (m w).2 (m' a).2).

Lemma nest_refines : refines (run_op OpNest) (abs_op OpNest).
Proof.
  intros w [b ast q] [? ? Hst ? ?]. cbn. split; [done | intros _].
  split; cbn; rewrite ?app_nil_r; try done. by rewrite Hst.
Qed.

Lemma put_refines k v : refines (run_op (OpPut k v)) (abs_op (OpPut k v)).
Proof.
  intros w [b ast q] [? ? Hst Hd ?]. unfold run_op, put_data, abs_op. cbn in *. rewrite Hst.
  destruct ast as [| c st]; cbn; split; try done; intros _.
  split; cbn; try done.
  - f_equal. unfold erase_context; cbn [a_edits a_metadata]. by rewrite erase_log_snoc.
  - rewrite app_assoc. by apply (inner_put_history _ _ []).
Qed.

Lemma insert_metadata_refines c k v :
  refines (run_op (OpInsertMetadata c k v)) (abs_op (OpInsertMetadata c k v)).
Proof.
  intros w [b ast q] [? ? Hst ? Hm]. unfold run_op, mmap_err, insert_metadata, abs_op. cbn in *. rewrite Hst.
  destruct ast as [| ctx st]; cbn; split; try done; intros _.
  split; cbn; try done.
  - f_equal. unfold erase_context; cbn [a_edits a_metadata]. by rewrite erase_log_snoc.
  - rewrite app_assoc. by apply (inner_put_history _ _ []).
Qed.

Lemma rollback_refines : refines (run_op OpRollback) (abs_op OpRollback).
Proof.
  intros w [b ast q] [? ? Hst Hd Hm]. unfold run_op, mmap_err, rollback, abs_op. cbn in *. rewrite Hst.
  destruct ast as [| c st]; cbn -[rollback_edits]; [done |].
  destruct (rollback_edits_history _ _ _ Hd) as (lm & Hlm & Hd').
  destruct (rollback_edits_history _ _ _ Hm) as (mm & Hmm & Hm').
  erewrite M_bind_eval by (apply zoom_eval; exact Hlm).
  erewrite zoom_eval by exact Hmm. by split; [| split].
Qed.

(** Bottom commits hand the logs to the backing store. *)
Lemma commit_to_store {A} (put : list A -> M B VmExecutionError unit)
    `{forall items : list A, Decision (items = [])} items w a :
  store w = a_store a ->
  let m := (if decide (items = []) then mret tt
            else mmap_err store_failure (on_store (put items))) in
  exists r b, m w = (r, set_store b w) /\
    a_commit_to put items a = (r, mkAbsStore b (a_stack a) (a_query a)).
Proof.
  intros Hs m. unfold m, a_commit_to. destruct items as [| i items].
  - rewrite decide_True by done. exists (Ok tt), (store w).
    split; [by destruct w | by rewrite Hs; destruct a].
  - rewrite decide_False by done. unfold mmap_err, on_store, a_on_store, zoom.
    rewrite Hs. destruct (put _ _) as [r b]. by exists (map_err store_failure r), b.
Qed.

Lemma commit_bottom w a c :
  Rel w a -> a_stack a = [c] -> exists r w' b',
    commit w = (r, w') /\
    (_ ← a_commit_to bs_put_all_data (a_edits c);
     a_commit_to bs_put_all_metadata (a_metadata c)) (a_set_stack [] a)
      = (r, mkAbsStore b' [] (a_query a)) /\
    (r = Ok tt -> w' = mkRollbackWrapper b' ∅ ∅ [] (query_pending_data w)).
Proof.
  destruct a as [b ast q]. intros [Hs Hq Hst Hd Hm] ?; cbn in *; subst ast b q.
  unfold commit. rewrite Hst. cbn [fmap list_fmap edits metadata_edits erase_context] in *.
  erewrite M_bind_eval by (apply zoom_eval, pre_bottom_commit_history; exact Hd).
  destruct (commit_to_store bs_put_all_data (a_edits c)
              (set_lookup_map ∅ (set_stack [] w)) (mkAbsStore (store w) [] (query_pending_data w))
              eq_refl) as (r & b1 & E1 & E2).
  unfold a_set_stack. cbn [a_store a_stack a_query] in *.
  destruct r as [[] | e |].
  2: { rewrite (M_bind_Err _ _ _ _ _ E1), (M_bind_Err _ _ _ _ _ E2). by eexists _, _, _. }
  2: { rewrite (M_bind_Panic _ _ _ _ E1), (M_bind_Panic _ _ _ _ E2). by eexists _, _, _. }
  rewrite (M_bind_eval _ _ _ _ _ E1), (M_bind_eval _ _ _ _ _ E2).
  erewrite M_bind_eval by (apply zoom_eval, pre_bottom_commit_history; exact Hm).
  destruct (commit_to_store bs_put_all_metadata (a_metadata c)
              (set_metadata_lookup_map ∅ (set_store b1 (set_lookup_map ∅ (set_stack [] w))))
              (mkAbsStore b1 [] (query_pending_data w)) eq_refl) as (r & b2 & E3 & E4).
  eexists r, _, b2. split; [exact E3 |]. split; [exact E4 | done].
Qed.

Lemma commit_refines : refines (run_op OpCommit) (abs_op OpCommit).
Proof.
  intros w a HR. destruct (a_stack a) as [| c [| c' st]] eqn:Ea.
  - pose proof (rel_stack _ _ HR) as Hst. rewrite Ea in Hst.
    unfold run_op, commit, mmap_err, abs_op. by rewrite Hst, Ea.
  - destruct (commit_bottom w a c HR Ea) as (r & w' & b' & E1 & E2 & Hw).
    unfold run_op, abs_op, mmap_err. rewrite Ea, E1, E2. cbn. split; [done |].
    destruct r as [[] | |]; [| done ..]. rewrite Hw by done. intros _.
    split; try by apply is_history_nil. 1, 3: done. apply HR.
  - destruct HR as [Hs Hq Hst Hd Hm]. unfold run_op, commit, mmap_err, abs_op.
    rewrite Hst, Ea in *. cbn. split; [done | intros _].
    split; cbn; try done; [| by rewrite app_assoc ..].
    unfold erase_context. cbn. unfold erase_log. by rewrite !fmap_app.
Qed.

Lemma run_op_refines op : refines (run_op op) (abs_op op).
Proof.
  destruct op; [apply nest_refines | apply put_refines | apply insert_metadata_refines
               | apply rollback_refines | apply commit_refines].
Qed.

Lemma run_ops_refines ops : refines (run_ops ops) (abs_ops ops).
Proof.
  induction ops as [| op ops IH]; intros w a HR; [done |].
  cbn. unfold mbind, M_bind. destruct (run_op_refines op w a HR) as [Heq HR'].
  destruct (run_op op w) as [r w1], (abs_op op a) as [r' a1]; cbn in *. subst r'.
  destruct r as [[] | |]; [| done ..]. by apply IH, HR'.
Qed.
End Refinement.

(** ** Nested transactions *)

(** [balanced d ops]: starting [d] contexts above some context, the operations
    never pop that context and end at it. *)
Fixpoint balanced (d : nat) (ops : list StoreOp) : bool :=
  match ops with
  | [] => Nat.eqb d 0
  | OpNest :: ops => balanced (S d) ops
  | (OpRollback | OpCommit) :: ops =>
      match d with O => false | S d => balanced d ops end
  | _ :: ops => balanced d ops
  end.

Definition context_app (c d : AbsContext) : AbsContext :=
  mkAbsContext (a_edits c ++ a_edits d) (a_metadata c ++ a_metadata d).

Lemma context_app_assoc c d e :
  context_app c (context_app d e) = context_app (context_app c d) e.
Proof. unfold context_app. cbn. by rewrite !app_assoc. Qed.

Lemma context_app_nil c : context_app c (mkAbsContext [] []) = c.
Proof. destruct c. unfold context_app. cbn. by rewrite !app_nil_r. Qed.

Section Nesting.
Context {B : Type} `{ClarityBackingStore B}.
Implicit Types (w : RollbackWrapper B) (a : AbsStore B).

Lemma abs_ops_app ops1 ops2 a :
  abs_ops (ops1 ++ ops2) a = (_ ← abs_ops ops1; abs_ops ops2) a.
Proof.
  revert a. induction ops1 as [| op ops1 IH]; intros a; [done |].
  cbn. unfold mbind, M_bind in *. destruct (abs_op op a) as [[[] | |] a']; [apply IH | done ..].
Qed.

Lemma run_ops_app ops1 ops2 w :
  run_ops (ops1 ++ ops2) w = (_ ← run_ops ops1; run_ops ops2) w.
Proof.
  revert w. induction ops1 as [| op ops1 IH]; intros w; [done |].
  cbn. unfold mbind, M_bind in *. destruct (run_op op w) as [[[] | |] w']; [apply IH | done ..].
Qed.

(** A balanced sequence succeeds and appends to the context it started in,
    whatever that context and the ones below it are. *)
Lemma abs_ops_balanced ops pre :
  balanced (length pre) ops = true -> exists delta, forall c st b q,
    abs_ops ops (mkAbsStore b (pre ++ c :: st) q)
      = (Ok tt, mkAbsStore b (context_app c delta :: st) q).
Proof.
  revert pre. induction ops as [| op ops IH]; intros pre Hb.
  - destruct pre; [| done]. exists (mkAbsContext [] []). intros c st b q.
    by rewrite context_app_nil.
  - destruct op; cbn in Hb.
    + destruct (IH (mkAbsContext [] [] :: pre) Hb) as [delta IHd]. by exists delta.
    + destruct pre as [| p pre].
      * destruct (IH [] Hb) as [delta IHd].
        exists (context_app (mkAbsContext [(key, value)] []) delta).
        intros c st b q. rewrite context_app_assoc. unfold context_app at 2. cbn.
        rewrite app_nil_r. apply IHd.
      * by destruct (IH (mkAbsContext (a_edits p ++ [(key, value)]) (a_metadata p) :: pre) Hb)
          as [delta IHd]; exists delta.
    + destruct pre as [| p pre].
      * destruct (IH [] Hb) as [delta IHd].
        exists (context_app (mkAbsContext [] [((contract, key), value)]) delta).
        intros c st b q. rewrite context_app_assoc. unfold context_app at 2. cbn.
        rewrite app_nil_r. apply IHd.
      * by destruct (IH (mkAbsContext (a_edits p)
                           (a_metadata p ++ [((contract, key), value)]) :: pre) Hb)
          as [delta IHd]; exists delta.
    + destruct pre as [| p pre]; [done |].
      by destruct (IH pre Hb) as [delta IHd]; exists delta.
    + destruct pre as [| p [| p' pre]]; [done | |].
      * destruct (IH [] Hb) as [delta IHd]. exists (context_app p delta).
        intros c st b q. rewrite context_app_assoc. apply IHd.
      * by destruct (IH (context_app p' p :: pre) Hb) as [delta IHd]; exists delta.
Qed.

Lemma run_ops_abs ops w a a' :
  Rel w a -> abs_ops ops a = (Ok tt, a') ->
  exists w', run_ops ops w = (Ok tt, w') /\ Rel w' a'.
Proof.
  intros HR Ha. destruct (run_ops_refines ops w a HR) as [Heq HR'].
  destruct (run_ops ops w) as [r w']. rewrite Ha in Heq, HR'. cbn in *. subst r.
  eauto.
Qed.

Lemma nest_rollback_restores w a ops :
  Rel w a -> balanced 0 ops = true ->
  run_ops (OpNest :: ops ++ [OpRollback]) w = (Ok tt, w).
Proof.
  intros HR Hb. destruct (abs_ops_balanced ops [] Hb) as [delta Hd].
  destruct (run_ops_abs (OpNest :: ops ++ [OpRollback]) w a a HR) as (w' & -> & HR').
  { destruct a as [b st q].
    change (abs_ops (ops ++ [OpRollback]) (mkAbsStore b (mkAbsContext [] [] :: st) q)
            = (Ok tt, mkAbsStore b st q)).
    rewrite abs_ops_app. by erewrite M_bind_eval by apply Hd. }
  by rewrite (Rel_unique w' w a HR' HR).
Qed.

Lemma nest_commit_transparent w a ops :
  Rel w a -> stack w <> [] -> balanced 0 ops = true ->
  run_ops (OpNest :: ops ++ [OpCommit]) w = run_ops ops w.
Proof.
  intros HR Hne Hb. destruct (abs_ops_balanced ops [] Hb) as [delta Hd].
  destruct a as [b [| c st] q]; [by rewrite (rel_stack _ _ HR) in Hne |].
  destruct (run_ops_abs ops w _ _ HR (Hd c st b q)) as (w1 & -> & HR1).
  destruct (run_ops_abs (OpNest :: ops ++ [OpCommit]) w _
              (mkAbsStore b (context_app c delta :: st) q) HR) as (w2 & -> & HR2).
  { change (abs_ops (ops ++ [OpCommit]) (mkAbsStore b (mkAbsContext [] [] :: c :: st) q)
            = (Ok tt, mkAbsStore b (context_app c delta :: st) q)).
    rewrite abs_ops_app. by erewrite M_bind_eval by apply Hd. }
  by rewrite (Rel_unique w2 w1 _ HR2 HR1).
Qed.
End Nesting.

(** ** Reads *)

Lemma last_value_snoc {T} `{Countable T} (k k' : T) v log :
  last_value k (log ++ [(k', v)]) = if decide (k' = k) then Some v else last_value k log.
Proof.
  unfold last_value. rewrite values_of_snoc. case_decide.
  - by rewrite last_snoc.
  - by rewrite app_nil_r.
Qed.

Lemma apply_items_lookup log m k :
  apply_items log m !! k = from_option Some (m !! k) (last_value k log).
Proof.
  induction log as [| [k' v] log IH] using rev_ind; [done |].
  unfold apply_items in *. rewrite foldl_app, last_value_snoc. cbn.
  case_decide as Hk; [subst; by rewrite lookup_insert_eq | by rewrite lookup_insert_ne, IH].
Qed.

Lemma last_of_history {T} `{Countable T} (lm : gmap T (list string)) log k :
  is_history lm log -> omap last lm !! k = last_value k log.
Proof. intros Hh. by rewrite lookup_omap, (is_history_last lm log k Hh). Qed.

(** The reachable states of a wrapper are those related to some stack of
    logs. *)
Definition well_formed {B} (w : RollbackWrapper B) : Prop := exists a, Rel w a.

Lemma reachable_well_formed {B} `{ClarityBackingStore B} (b : B) ops w :
  run_ops ops (RollbackWrapper_new b) = (Ok tt, w) -> well_formed w.
Proof.
  intros Hrun. destruct (run_ops_refines ops _ _ (Rel_new b)) as [_ HR].
  rewrite Hrun in HR. eexists. by apply HR.
Qed.

Section View.
Context {B : Type} `{BackingStoreLaws B}.
Implicit Types (w : RollbackWrapper B).

Definition wrapper_ok w : Prop :=
  well_formed w /\ stack w <> [] /\ query_pending_data w = true.

Lemma wrapper_view_lookup w k :
  wrapper_view w !! k
  = from_option Some (bs_view (store w) !! k) (lookup_map w !! k ≫= last).
Proof.
  unfold wrapper_view. rewrite lookup_union, lookup_omap.
  destruct (lookup_map w !! k ≫= last); cbn; by destruct (bs_view (store w) !! k).
Qed.

Lemma check_nested_ok w : stack w <> [] -> check_nested w = (Ok tt, w).
Proof. intros Hne. unfold check_nested. by rewrite bool_decide_false. Qed.

Lemma Rel_set_store w a b : Rel w a -> Rel (set_store b w) (mkAbsStore b (a_stack a) (a_query a)).
Proof. intros []. by split. Qed.

Lemma wrapper_get_spec k w : wrapper_ok w -> exists w',
  get_data_str k w = (Ok (wrapper_view w !! k), w') /\ wrapper_ok w' /\
  wrapper_view w' = wrapper_view w.
Proof.
  intros ([a HR] & Hne & Hq). unfold get_data_str.
  erewrite M_bind_eval by (by apply check_nested_ok).
  erewrite M_bind_eval by done. rewrite wrapper_view_lookup, Hq. unfold pending.
  destruct (lookup_map w !! k ≫= last) as [v |]; cbn.
  - eexists. split; [done |]. split; [| done]. split; [by exists a | done].
  - destruct (bs_get_spec k (store w)) as (b' & Hget & Hview).
    exists (set_store b' w). unfold on_store. erewrite zoom_eval by exact Hget.
    split; [done |]. split.
    + split; [| done]. eexists. by apply Rel_set_store.
    + unfold wrapper_view. cbn. by rewrite Hview.
Qed.

Lemma wrapper_put_spec k v w : wrapper_ok w -> exists w',
  put_data k v w = (Ok tt, w') /\ wrapper_ok w' /\
  wrapper_view w' = <[k := v]> (wrapper_view w).
Proof.
  intros ([a HR] & Hne & Hq).
  destruct (put_refines k v w a HR) as [Heq HR'].
  unfold run_op, put_data in *. destruct (stack w) as [| c st] eqn:Est; [done |].
  cbn in Heq, HR' |- *. eexists. split; [done |]. split.
  - split; [eexists; by apply HR' | done].
  - apply map_eq. intros k'. rewrite wrapper_view_lookup. cbn.
    destruct (decide (k = k')) as [<- | Hk].
    + rewrite !lookup_insert_eq. cbn. by rewrite last_snoc.
    + rewrite !lookup_insert_ne by done. by rewrite wrapper_view_lookup.
Qed.

Lemma commit_view w w' :
  well_formed w -> commit w = (Ok tt, w') -> wrapper_view w' = wrapper_view w.
Proof.
  intros [a HR] Hc. pose proof (rel_stack _ _ HR) as Hst.
  destruct (a_stack a) as [| c [| c' st]] eqn:Ea.
  - unfold commit in Hc. by rewrite Hst in Hc.
  - destruct (commit_bottom w a c HR Ea) as (r & w1 & b' & E1 & E2 & Hw).
    rewrite Hc in E1. injection E1 as <- <-. rewrite (Hw eq_refl).
    apply M_bind_Ok in E2 as ([] & a1 & Ed & Em).
    apply map_eq. intros k. rewrite !wrapper_view_lookup. cbn. rewrite lookup_empty.
    pose proof (is_history_last _ _ k (rel_data _ _ HR)) as Hl.
    rewrite Ea in Hl. cbn in Hl. rewrite Hl, (rel_store _ _ HR). cbn.
    assert (bs_view b' = bs_view (a_store a1)) as ->.
    { unfold a_commit_to, mmap_err, a_on_store, zoom in Em.
      destruct (a_metadata c); [by injection Em as -> |].
      destruct (bs_put_all_metadata _ _) as [r b2] eqn:Eb. injection Em as ? ? ?; subst.
      by eapply bs_put_metadata_spec. }
    unfold a_commit_to, mmap_err, a_on_store, zoom in Ed.
    destruct (a_edits c) as [| e es] eqn:Ee; [by injection Ed as <- |].
    destruct (bs_put_spec (e :: es) (a_store a)) as (b2 & Eb & Hv).
    cbn in Ed. rewrite Eb in Ed. injection Ed as <-. cbn. rewrite Hv.
    apply apply_items_lookup.
  - unfold commit in Hc. rewrite Hst in Hc. cbn in Hc. by injection Hc as <-.
Qed.
End View.

#[export] Instance RollbackWrapper_KVStoreLaws B `{BackingStoreLaws B} :
  KVStoreLaws (RollbackWrapper B) := {
  kv_ok := wrapper_ok;
  kv_view := wrapper_view;
  kv_get_spec := wrapper_get_spec;
  kv_put_spec := wrapper_put_spec;
}.

(** ** Properties *)

(** C5: the wrapper refines the stack of value logs.  From an empty wrapper,
    every sequence of nest, put, insert-metadata, rollback and commit calls has
    the outcome of the specification (so the lookup map never misses a logged
    key, and the assertion that it is drained by a bottom commit never fires),
    and where it succeeds the lookup map holds exactly the histories of the
    pending logs, so that a read finds the last pending write of its key. *)
Theorem rollback_wrapper_refines {B} `{ClarityBackingStore B} (b : B) ops :
  let w := run_ops ops (RollbackWrapper_new b) in
  let a := abs_ops ops (mkAbsStore b [] true) in
  w.1 = a.1 /\
  (w.1 = Ok tt ->
   Rel w.2 a.2 /\
   forall key, pending true (lookup_map w.2) key = last_value key (all_edits (a_stack a.2))).
Proof.
  intros w a. destruct (run_ops_refines ops _ _ (Rel_new b)) as [Heq HR].
  split; [done |]. intros Hok. specialize (HR Hok). split; [done |].
  intros key. apply is_history_last, HR.
Qed.

(** Rolling back a nested context undoes everything done since it was
    opened, including nested contexts that were committed into it: the whole
    wrapper is the one before [nest]. *)
Theorem rollback_restores_wrapper {B} `{ClarityBackingStore B} (b : B) ops0 ops w :
  run_ops ops0 (RollbackWrapper_new b) = (Ok tt, w) ->
  balanced 0 ops = true ->
  run_ops (OpNest :: ops ++ [OpRollback]) w = (Ok tt, w).
Proof.
  intros Hr Hb. destruct (reachable_well_formed b ops0 w Hr) as [a HR].
  by apply (nest_rollback_restores w a).
Qed.

(** Running operations in a nested context and committing it leaves the
    same wrapper as running them in the enclosing context directly. *)
Theorem commit_of_nested_is_transparent {B} `{ClarityBackingStore B} (b : B) ops0 ops w :
  run_ops ops0 (RollbackWrapper_new b) = (Ok tt, w) ->
  stack w <> [] ->
  balanced 0 ops = true ->
  run_ops (OpNest :: ops ++ [OpCommit]) w = run_ops ops w.
Proof.
  intros Hr Hne Hb. destruct (reachable_well_formed b ops0 w Hr) as [a HR].
  by apply (nest_commit_transparent w a).
Qed.

(** Over a lawful backing store no commit, inner or outermost, changes
    what a read of any key returns: the outermost commit writes the log to the
    store in an order in which the last write of each key wins. *)
Theorem commit_preserves_reads {B} `{BackingStoreLaws B} (b : B) ops w w' :
  run_ops ops (RollbackWrapper_new b) = (Ok tt, w) ->
  commit w = (Ok tt, w') ->
  forall key, wrapper_view w' !! key = wrapper_view w !! key.
Proof.
  intros Hr Hc key. by rewrite (commit_view w w' (reachable_well_formed b ops w Hr) Hc).
Qed.

(** In a nested context a write is seen by the next read of its key, and
    reads of every other key return what they returned before. *)
Theorem read_your_writes {B} `{BackingStoreLaws B} (b : B) ops w key value :
  run_ops ops (RollbackWrapper_new b) = (Ok tt, w) ->
  stack w <> [] -> query_pending_data w = true ->
  exists w1, put_data key value w = (Ok tt, w1) /\
    forall key', exists w2 w3 o,
      get_data_str key' w = (Ok o, w2) /\
      get_data_str key' w1 = (Ok (if decide (key' = key) then Some value else o), w3).
Proof.
  intros Hr Hne Hq.
  assert (wrapper_ok w) as Hok by (split; [by eapply reachable_well_formed | done]).
  destruct (wrapper_put_spec key value w Hok) as (w1 & E1 & Hok1 & Hv1).
  exists w1. split; [exact E1 |]. intros key'.
  destruct (wrapper_get_spec key' w Hok) as (w2 & E2 & _).
  destruct (wrapper_get_spec key' w1 Hok1) as (w3 & E3 & _).
  exists w2, w3, (wrapper_view w !! key'). split; [exact E2 |].
  rewrite E3, Hv1. case_decide as Hk.
  - by rewrite Hk, lookup_insert_eq.
  - by rewrite lookup_insert_ne.
Qed.

(** ** A backing store in memory, to run the wrapper *)

Record MemStore := mkMemStore {
  mem_data : gmap string string;
  mem_metadata : gmap MetadataKey string;
}.

#[export] Instance MemStore_backing : ClarityBackingStore MemStore := {
  bs_put_all_data items := modify (fun m =>
    mkMemStore (apply_items items (mem_data m)) (mem_metadata m));
  bs_get_data k := fun m => (Ok (mem_data m !! k), m);
  bs_has_entry k := fun m => (Ok (bool_decide (is_Some (mem_data m !! k))), m);
  bs_set_block_hash h := mret h;
  bs_get_metadata c k := fun m => (Ok (mem_metadata m !! (c, k)), m);
  bs_get_metadata_manual _ c k := fun m => (Ok (mem_metadata m !! (c, k)), m);
  bs_put_all_metadata items := modify (fun m =>
    mkMemStore (mem_data m) (foldl (fun mm e => <[e.1 := e.2]> mm) (mem_metadata m) items));
  bs_debug_error _ := "error";
}.

#[export] Program Instance MemStore_laws : BackingStoreLaws MemStore := {
  bs_view := mem_data;
}.
Next Obligation. intros k b. by exists b. Qed.
Next Obligation. intros items b. by eexists. Qed.
Next Obligation. by intros items b r b' [= <- <-]. Qed.

Definition mem_empty : MemStore := mkMemStore ∅ ∅.

Definition sample_contract : QualifiedContractIdentifier :=
  mkQualifiedContract transient "c".

Definition sample_ops : list StoreOp :=
  [OpNest; OpPut "a" "1"; OpNest; OpPut "a" "2"; OpInsertMetadata sample_contract "m" "x"].

Definition sample_wrapper : RollbackWrapper MemStore :=
  (run_ops sample_ops (RollbackWrapper_new mem_empty)).2.

Definition sample_inner_ops : list StoreOp :=
  [OpPut "a" "3"; OpNest; OpPut "b" "4"; OpCommit; OpNest; OpPut "c" "5"; OpRollback].

Lemma sample_wrapper_reached :
  run_ops sample_ops (RollbackWrapper_new mem_empty) = (Ok tt, sample_wrapper).
Proof. reflexivity. Qed.

Lemma rollback_restores_wrapper_witness :
  run_ops (OpNest :: sample_inner_ops ++ [OpRollback]) sample_wrapper
  = (Ok tt, sample_wrapper).
Proof.
  apply (rollback_restores_wrapper mem_empty sample_ops).
  - exact sample_wrapper_reached.
  - reflexivity.
Defined.

Lemma commit_of_nested_is_transparent_witness :
  run_ops (OpNest :: sample_inner_ops ++ [OpCommit]) sample_wrapper
  = run_ops sample_inner_ops sample_wrapper.
Proof.
  apply (commit_of_nested_is_transparent mem_empty sample_ops).
  - exact sample_wrapper_reached.
  - discriminate.
  - reflexivity.
Defined.

Lemma commit_preserves_reads_witness :
  wrapper_view (commit sample_wrapper).2 !! "a" = wrapper_view sample_wrapper !! "a" /\
  wrapper_view sample_wrapper !! "a" = Some "2".
Proof.
  split; [| reflexivity].
  apply (commit_preserves_reads mem_empty sample_ops).
  - exact sample_wrapper_reached.
  - reflexivity.
Defined.

Lemma read_your_writes_witness :
  exists w1, put_data "a" "9" sample_wrapper = (Ok tt, w1) /\
    forall key', exists w2 w3 o,
      get_data_str key' sample_wrapper = (Ok o, w2) /\
      get_data_str key' w1 = (Ok (if decide (key' = "a") then Some "9" else o), w3).
Proof.
  apply (read_your_writes mem_empty sample_ops).
  - exact sample_wrapper_reached.
  - discriminate.
  - reflexivity.
Defined.
