(* ===== verification/NestedStore.v ===== *)
(** * Nested database contexts

    [clarity/src/vm/database/clarity_db.rs]: [begin], [commit] and [roll_back]
    of [ClarityDatabase], which forward to the rollback wrapper, and the
    interface the execution contexts are verified against. [NestedStoreLaws]
    says that a database is a stack of maps: [begin] copies the top, writes
    change the top, [roll_back] drops it and [commit] puts it in place of the
    one below. The rollback wrapper is proved to be an instance. *)

From S2P Require Import Prelude.
From S2P Require Import Values.
From S2P Require Import RollbackStore.

Class NestedStore (S : Type) := {
  ns_begin : S -> S;
  ns_commit : M S VmExecutionError unit;
  ns_roll_back : M S VmExecutionError unit;
}.

Section Db.
Context {B : Type} `{ClarityBackingStore B}.

Definition db_begin (w : RollbackWrapper B) : RollbackWrapper B := nest w.
Definition db_commit : M (RollbackWrapper B) VmExecutionError unit := mmap_err Internal commit.
Definition db_roll_back : M (RollbackWrapper B) VmExecutionError unit :=
  mmap_err Internal rollback.
End Db.

#[export] Instance RollbackWrapper_NestedStore B `{ClarityBackingStore B} :
  NestedStore (RollbackWrapper B) := {
  ns_begin := db_begin;
  ns_commit := db_commit;
  ns_roll_back := db_roll_back;
}.

(** [ns_rep s (v :: vs)]: the innermost context of [s] reads as [v], and
    dropping contexts one by one uncovers [vs], ending with the backing store.
    A bottom commit goes to the backing store, which may refuse it. *)
Class NestedStoreLaws (S : Type) `{KVStoreLaws S} `{NestedStore S} := {
  ns_rep : S -> list (gmap string string) -> Prop;
  ns_rep_view s v v' vs : ns_rep s (v :: v' :: vs) -> kv_ok s /\ kv_view s = v;
  ns_get_rep k s r s' v v' vs :
    ns_rep s (v :: v' :: vs) -> kv_get k s = (r, s') -> ns_rep s' (v :: v' :: vs);
  ns_put_rep k x s r s' v v' vs :
    ns_rep s (v :: v' :: vs) -> kv_put k x s = (r, s') ->
    ns_rep s' (<[k := x]> v :: v' :: vs);
  ns_begin_rep s v vs : ns_rep s (v :: vs) -> ns_rep (ns_begin s) (v :: v :: vs);
  ns_roll_back_rep s v v' vs : ns_rep s (v :: v' :: vs) -> exists s',
    ns_roll_back s = (Ok tt, s') /\ ns_rep s' (v' :: vs);
  ns_commit_rep s s' v v' vs :
    ns_rep s (v :: v' :: vs) -> ns_commit s = (Ok tt, s') -> ns_rep s' (v :: vs);
  ns_commit_nested s v v' v'' vs : ns_rep s (v :: v' :: v'' :: vs) ->
    (ns_commit s).1 = Ok tt;
}.

(** How a store changes while contexts are opened and closed on it: [kept s s']
    when from [s] to [s'] the innermost context alone was worked on,
    [kept_above s s'] when [s'] has a context on top of [s]. *)
Class StoreFrames (S : Type) `{NestedStore S} := {
  kept : S -> S -> Prop;
  kept_above : S -> S -> Prop;
  kept_refl s : kept s s;
  kept_trans s1 s2 s3 : kept s1 s2 -> kept s2 s3 -> kept s1 s3;
  kept_begin s : kept_above s (ns_begin s);
  kept_above_trans s1 s2 s3 : kept_above s1 s2 -> kept s2 s3 -> kept_above s1 s3;
  kept_roll_back s s' : kept_above s s' -> kept s (ns_roll_back s').2;
  kept_commit s s' : kept_above s s' -> kept s (ns_commit s').2;
}.

(** Contexts under the innermost one read as before. *)
#[export] Program Instance nested_frames {S} `{NestedStoreLaws S} : StoreFrames S := {|
  kept s s' := forall v v0 vs, ns_rep s (v :: v0 :: vs) -> exists v', ns_rep s' (v' :: v0 :: vs);
  kept_above s s' := forall v vs, ns_rep s (v :: vs) -> exists v', ns_rep s' (v' :: v :: vs);
|}.
Next Obligation. intros. cbn in *. eauto. Qed.
Next Obligation. intros * H1 H2 v v0 vs (v' & Hv)%H1. eauto. Qed.
Next Obligation. intros * v vs Hv. exists v. by apply ns_begin_rep. Qed.
Next Obligation. intros * H1 H2 v vs (v' & Hv)%H1. eauto. Qed.
Next Obligation.
  intros * Ha v v0 vs (v' & Hv)%Ha. destruct (ns_roll_back_rep _ _ _ _ Hv) as (s2 & -> & Hs). eauto.
Qed.
Next Obligation.
  intros * Ha v v0 vs (v' & Hv)%Ha. pose proof (ns_commit_nested _ _ _ _ _ Hv) as Hok.
  destruct (ns_commit s') as [r s2] eqn:E. cbn in Hok. subst r. exists v'. by eapply ns_commit_rep.
Qed.

(** Inside a context the database is a key-value store, and working on it
    leaves the enclosing contexts alone. *)
Program Definition frame_laws {S} `{NestedStoreLaws S} (v0 : gmap string string)
    (vs : list (gmap string string)) : KVStoreLaws S := {|
  kv_ok s := exists v, ns_rep s (v :: v0 :: vs);
  kv_view := kv_view;
|}.
Next Obligation.
  intros S ? ? ? ? v0 vs k s [v Hr]. destruct (ns_rep_view _ _ _ _ Hr) as [Hok Hv].
  destruct (kv_get_spec k s Hok) as (s' & E & _ & Hv'). exists s'. split_and!; [done | | done].
  exists v. by eapply ns_get_rep.
Qed.
Next Obligation.
  intros S ? ? ? ? v0 vs k x s [v Hr]. destruct (ns_rep_view _ _ _ _ Hr) as [Hok Hv].
  destruct (kv_put_spec k x s Hok) as (s' & E & _ & Hv'). exists s'. split_and!; [done | | done].
  eexists. by eapply ns_put_rep.
Qed.

(** ** The rollback wrapper *)

Fixpoint views_of (base : gmap string string) (st : list AbsContext)
    : list (gmap string string) :=
  match st with
  | [] => [base]
  | c :: st' => apply_items (all_edits (c :: st')) base :: views_of base st'
  end.

Section WrapperLaws.
Context {B : Type} `{BackingStoreLaws B}.
Implicit Types (w : RollbackWrapper B) (a : AbsStore B).

Definition wrapper_rep w (vs : list (gmap string string)) : Prop :=
  exists a, Rel w a /\ a_query a = true /\ vs = views_of (bs_view (a_store a)) (a_stack a).

Lemma views_of_head base st :
  exists vs, views_of base st = apply_items (all_edits st) base :: vs.
Proof. destruct st; by eexists. Qed.

Lemma Rel_view w a :
  Rel w a -> wrapper_view w = apply_items (all_edits (a_stack a)) (bs_view (a_store a)).
Proof.
  intros HR. apply map_eq. intros k. rewrite wrapper_view_lookup, apply_items_lookup.
  rewrite (is_history_last _ _ k (rel_data _ _ HR)), (rel_store _ _ HR). done.
Qed.

Lemma wrapper_rep_view w v vs : wrapper_rep w (v :: vs) -> wrapper_view w = v.
Proof.
  intros (a & HR & _ & Ev). rewrite (Rel_view _ _ HR).
  destruct (views_of_head (bs_view (a_store a)) (a_stack a)) as [? E]. congruence.
Qed.

Lemma wrapper_rep_ok w v v' vs : wrapper_rep w (v :: v' :: vs) -> wrapper_ok w.
Proof.
  intros (a & HR & Hq & Ev). split; [by exists a |].
  rewrite (rel_query _ _ HR), (rel_stack _ _ HR). split; [| done].
  by destruct (a_stack a).
Qed.
Lemma wrapper_get_rep k w r w' v v' vs :
  wrapper_rep w (v :: v' :: vs) -> get_data_str k w = (r, w') -> wrapper_rep w' (v :: v' :: vs).
Proof.
  intros Hw E. destruct (wrapper_rep_ok _ _ _ _ Hw) as (_ & Hne & _).
  unfold get_data_str in E. erewrite M_bind_eval in E by (by apply check_nested_ok).
  erewrite M_bind_eval in E by done.
  destruct (pending _ _ _) as [x |]; [by inversion E; subst |].
  unfold on_store, zoom in E. destruct (bs_get_spec k (store w)) as (b' & Hget & Hview).
  rewrite Hget in E. injection E as _ <-. destruct Hw as (a & HR & Hq & ->).
  exists (mkAbsStore b' (a_stack a) (a_query a)).
  split; [by apply Rel_set_store |]. cbn. by rewrite Hview, (rel_store _ _ HR).
Qed.

(** An operation that returns normally moves to a state of the image. *)
Lemma wrapper_rep_step op w w' a :
  Rel w a -> run_op op w = (Ok tt, w') ->
  (abs_op op a).1 = Ok tt /\ Rel w' (abs_op op a).2.
Proof.
  intros HR E. destruct (run_op_refines op w a HR) as [Heq Hs].
  rewrite E in Heq, Hs. cbn in *. by split; [| apply Hs].
Qed.

Lemma wrapper_put_rep k x w r w' v v' vs :
  wrapper_rep w (v :: v' :: vs) -> put_data k x w = (r, w') ->
  wrapper_rep w' (<[k := x]> v :: v' :: vs).
Proof.
  intros Hw E. destruct (wrapper_put_spec k x w (wrapper_rep_ok _ _ _ _ Hw)) as (w1 & E1 & _).
  rewrite E in E1. injection E1 as -> <-. destruct Hw as (a & HR & Hq & Ev).
  destruct (wrapper_rep_step (OpPut k x) _ _ _ HR E) as [_ HR'].
  eexists. split; [exact HR' |]. unfold abs_op. destruct a as [b [| c st] q]; [done |]. cbn in *.
  split; [done |]. injection Ev as -> ->. f_equal.
  unfold apply_items. by rewrite app_assoc, (foldl_app _ _ [(k, x)]).
Qed.

Lemma wrapper_begin_rep w v vs : wrapper_rep w (v :: vs) -> wrapper_rep (db_begin w) (v :: v :: vs).
Proof.
  intros (a & HR & Hq & Ev). destruct (wrapper_rep_step OpNest w _ a HR eq_refl) as [_ HR'].
  eexists. split; [exact HR' |]. cbn. split; [done |]. rewrite app_nil_r, <- Ev.
  destruct (views_of_head (bs_view (a_store a)) (a_stack a)) as [? E].
  rewrite E in Ev. by injection Ev as -> _.
Qed.

Lemma wrapper_roll_back_rep w v v' vs : wrapper_rep w (v :: v' :: vs) -> exists w',
  db_roll_back w = (Ok tt, w') /\ wrapper_rep w' (v' :: vs).
Proof.
  intros (a & HR & Hq & Ev). destruct (run_op_refines OpRollback w a HR) as [Heq Hs].
  unfold run_op, abs_op in Heq, Hs. destruct a as [b [| c st] q]; [done |]. cbn in Heq, Hs, Ev.
  unfold db_roll_back. destruct (mmap_err Internal rollback w) as [r w']. cbn in *. subst r.
  eexists. split; [done |]. eexists. split; [by apply Hs |]. split; [done | by injection Ev].
Qed.

Lemma wrapper_commit_nested w v v' v'' vs :
  wrapper_rep w (v :: v' :: v'' :: vs) -> (db_commit w).1 = Ok tt.
Proof.
  intros (a & HR & Hq & Ev). destruct (run_op_refines OpCommit w a HR) as [Heq _].
  unfold run_op, abs_op in Heq. destruct a as [b [| c [| c' st]] q]; try done.
Qed.

Lemma wrapper_commit_rep w w' v v' vs :
  wrapper_rep w (v :: v' :: vs) -> db_commit w = (Ok tt, w') -> wrapper_rep w' (v :: vs).
Proof.
  intros Hw E. pose proof (wrapper_rep_view _ _ _ Hw) as Hv. destruct Hw as (a & HR & Hq & Ev).
  destruct (wrapper_rep_step OpCommit _ _ _ HR E) as [Ho HR'].
  unfold db_commit, mmap_err in E. apply mmap_err_Ok in E.
  rewrite <- (commit_view w w') in Hv by (done || by exists a).
  exists (abs_op OpCommit a).2. split; [done |]. rewrite (Rel_view _ _ HR') in Hv.
  destruct (a_stack a) as [| c [| c' st]] eqn:Ea; [done | |].
  - destruct (commit_bottom w a c HR Ea) as (r & w1 & b' & _ & E2 & _).
    unfold abs_op, mmap_err in *. rewrite Ea, E2 in *. cbn in *. split; [done |].
    injection Ev as -> _ ->. by rewrite Hv.
  - unfold abs_op in *. rewrite Ea in *. cbn in *. split; [done |]. injection Ev as -> _ ->. by rewrite app_assoc.
Qed.
End WrapperLaws.

#[export] Instance RollbackWrapper_NestedStoreLaws B `{BackingStoreLaws B} :
  NestedStoreLaws (RollbackWrapper B) := {
  ns_rep := wrapper_rep;
  ns_get_rep := wrapper_get_rep;
  ns_put_rep := wrapper_put_rep;
  ns_begin_rep := wrapper_begin_rep;
  ns_roll_back_rep := wrapper_roll_back_rep;
  ns_commit_rep := wrapper_commit_rep;
  ns_commit_nested := wrapper_commit_nested;
  ns_rep_view w v v' vs Hw := conj (wrapper_rep_ok w v v' vs Hw) (wrapper_rep_view w v _ Hw);
}.
