(* ===== verification/C32.v ===== *)
(** * Crockford base-32 addresses

    [stacks-common/src/address/c32.rs] and the rendering and parsing of
    principals in [clarity-types/src/types/mod.rs].  SHA-256 comes from the
    [sha2] crate and is a parameter.  The loops of the encoder and the decoder
    shift five bits at a time through a carry; both are shown to compute the
    same number in base 32 and base 256, from which the round trip of addresses
    follows for every version and payload, and from it that distinct principals
    render to distinct strings. *)

From Stdlib Require Import Ascii.
From S2P Require Import Prelude.
From S2P Require Import Bytes.
From S2P Require Import Epochs.
From S2P Require Import Values.

(** [Sha256::digest] of the [sha2] crate *)
Class Sha256 := {
  sha256 : list Z -> list Z;
  sha256_length data : length (sha256 data) = 32%nat;
  sha256_bytes data : bytes_ok (sha256 data);
}.

(** [stacks_common::address::Error] *)
Inductive AddressError :=
| InvalidCrockford32
| InvalidVersion (v : Z)
| EmptyData
| BadByte (b : Z)
| BadChecksum (exp actual : Z)
| InvalidLength (len : Z)
| TooShort (len : Z)
| OtherError (s : string).

(** [{z:x}] of an unsigned integer of at most [fuel] hexadecimal digits *)
Fixpoint lower_hex_digits (fuel : nat) (z : Z) (acc : string) : string :=
  match fuel with
  | O => acc
  | S fuel =>
      let acc := String (hex_char (z mod 16)) acc in
      if z / 16 =? 0 then acc else lower_hex_digits fuel (z / 16) acc
  end.

Definition lower_hex_u32 (z : Z) : string := lower_hex_digits 8 z "".

(** [Display for Error] *)
Definition address_error_to_string (e : AddressError) : string :=
  match e with
  | InvalidCrockford32 => "Invalid crockford 32 string"
  | InvalidVersion v => "Invalid version " +:+ pretty v
  | EmptyData => "Empty data"
  | BadByte b => "invalid base58 character 0x" +:+ lower_hex_u32 b
  | BadChecksum exp actual =>
      "base58ck checksum 0x" +:+ lower_hex_u32 actual
      +:+ " does not match expected 0x" +:+ lower_hex_u32 exp
  | InvalidLength ell => "length " +:+ pretty ell +:+ " invalid for this base58 type"
  | TooShort _ => "base58ck data not even long enough for a checksum"
  | OtherError s => s
  end.

(** ** Loops over vectors *)

Fixpoint drop_while {A} (p : A -> bool) (l : list A) : list A :=
  match l with
  | [] => []
  | x :: l' => if p x then drop_while p l' else l
  end.

Fixpoint take_while {A} (p : A -> bool) (l : list A) : list A :=
  match l with
  | [] => []
  | x :: l' => if p x then x :: take_while p l' else []
  end.

(** [while let Some(v) = result.pop() { if v != z { result.push(v); break; } }] *)
Definition strip {A} (is_zero : A -> bool) (l : list A) : list A :=
  reverse (drop_while is_zero (reverse l)).

Definition C32_CHARACTERS : string := "0123456789ABCDEFGHJKMNPQRSTVWXYZ".

Definition c32_char (d : Z) : ascii :=
  default "0"%char (String.get (Z.to_nat d) C32_CHARACTERS).

Definition C32_CHARACTERS_MAP : list (option Z) :=
  [None; None; None; None; None; None; None; None;
   None; None; None; None; None; None; None; None;
   None; None; None; None; None; None; None; None;
   None; None; None; None; None; None; None; None;
   None; None; None; None; None; None; None; None;
   None; None; None; None; None; None; None; None;
   Some 0; Some 1; Some 2; Some 3; Some 4; Some 5; Some 6; Some 7;
   Some 8; Some 9; None; None; None; None; None; None;
   None; Some 10; Some 11; Some 12; Some 13; Some 14; Some 15; Some 16;
   Some 17; Some 1; Some 18; Some 19; Some 1; Some 20; Some 21; Some 0;
   Some 22; Some 23; Some 24; Some 25; Some 26; None; Some 27; Some 28;
   Some 29; Some 30; Some 31; None; None; None; None; None;
   None; Some 10; Some 11; Some 12; Some 13; Some 14; Some 15; Some 16;
   Some 17; Some 1; Some 18; Some 19; Some 1; Some 20; Some 21; Some 0;
   Some 22; Some 23; Some 24; Some 25; Some 26; None; Some 27; Some 28;
   Some 29; Some 30; Some 31; None; None; None; None; None].

Definition c32_digit (c : ascii) : option Z :=
  mjoin (C32_CHARACTERS_MAP !! nat_of_ascii c).

(** ** Encoding *)

(** The loop of [c32_encode] over the reversed input: the characters pushed,
    and the carry left at the end. *)
Fixpoint c32_encode_loop (bytes : list Z) (carry carry_bits : Z) : list ascii * Z * Z :=
  match bytes with
  | [] => ([], carry, carry_bits)
  | current_value :: bytes =>
      let low_bits_to_take := 5 - carry_bits in
      let low_bits := Z.land current_value (Z.shiftl 1 low_bits_to_take - 1) in
      let c32_value := Z.shiftl low_bits carry_bits + carry in
      let carry_bits := (8 + carry_bits) - 5 in
      let carry' := Z.shiftr current_value (8 - carry_bits) in
      if 5 <=? carry_bits then
        let c32_value' := Z.land carry' (Z.shiftl 1 5 - 1) in
        let '(out, c, cb) := c32_encode_loop bytes (Z.shiftr carry' 5) (carry_bits - 5) in
        (c32_char c32_value :: c32_char c32_value' :: out, c, cb)
      else
        let '(out, c, cb) := c32_encode_loop bytes carry' carry_bits in
        (c32_char c32_value :: out, c, cb)
  end.

Definition c32_encode (input_bytes : list Z) : string :=
  let '(result, carry, carry_bits) := c32_encode_loop (reverse input_bytes) 0 0 in
  let result := if 0 <? carry_bits then result ++ [c32_char carry] else result in
  let result := strip (Ascii.eqb (c32_char 0)) result in
  let result := result ++ (c32_char <$> take_while (Z.eqb 0) input_bytes) in
  String.string_of_list_ascii (reverse result).

(** ** Decoding *)

Fixpoint c32_decode_loop (digits : list Z) (carry carry_bits : Z) : list Z * Z * Z :=
  match digits with
  | [] => ([], carry, carry_bits)
  | current_5bit :: digits =>
      let carry := carry + Z.shiftl current_5bit carry_bits in
      let carry_bits := carry_bits + 5 in
      if 8 <=? carry_bits then
        let '(out, c, cb) := c32_decode_loop digits (Z.shiftr carry 8) (carry_bits - 8) in
        (Z.land carry (Z.shiftl 1 8 - 1) :: out, c, cb)
      else c32_decode_loop digits carry carry_bits
  end.

Definition c32_decode_ascii (input_str : string) : result AddressError (list Z) :=
  let chars := String.list_ascii_of_string input_str in
  let iter_c32_digits := omap c32_digit (reverse chars) in
  if negb (Nat.eqb (length chars) (length iter_c32_digits)) then Err InvalidCrockford32
  else
    let '(result, carry, carry_bits) := c32_decode_loop iter_c32_digits 0 0 in
    let result := if 0 <? carry_bits then result ++ [carry] else result in
    let result := strip (Z.eqb 0) result in
    let result := result ++ take_while (Z.eqb 0) (reverse iter_c32_digits) in
    Ok (reverse result).

(** ** Checksummed addresses *)

Section Address.
Context `{Sha256}.

Definition double_sha256_checksum (data : list Z) : list Z :=
  take 4 (sha256 (sha256 data)).

Definition c32_check_encode (version : Z) (data : list Z) : result AddressError string :=
  if 32 <=? version then Err (InvalidVersion version)
  else
    let checksum := double_sha256_checksum (version :: data) in
    Ok (String (c32_char version) (c32_encode (data ++ checksum))).

(** The four bytes of a checksum as a little-endian [u32] *)
Definition sum_u32 (sum : list Z) : Z :=
  Z.lor (Z.lor (Z.lor (default 0 (sum !! 0%nat)) (Z.shiftl (default 0 (sum !! 1%nat)) 8))
    (Z.shiftl (default 0 (sum !! 2%nat)) 16)) (Z.shiftl (default 0 (sum !! 3%nat)) 24).

(** Strings are ASCII by type here, so [is_ascii] is a test of the code points
    above 127 only. *)
Definition is_ascii (s : string) : bool :=
  forallb (fun c => Nat.ltb (nat_of_ascii c) 128) (String.list_ascii_of_string s).

Definition c32_check_decode (check_data_unsanitized : string)
    : result AddressError (Z * list Z) :=
  if negb (is_ascii check_data_unsanitized) then Err InvalidCrockford32
  else
    match check_data_unsanitized with
    | String version ((String _ _) as data) =>
        data_sum_bytes ← c32_decode_ascii data;
        if Nat.ltb (length data_sum_bytes) 5 then Err InvalidCrockford32
        else
          let data_bytes := take (length data_sum_bytes - 4) data_sum_bytes in
          let expected_sum := drop (length data_sum_bytes - 4) data_sum_bytes in
          version_bytes ← c32_decode_ascii (String version EmptyString);
          let check_data := version_bytes ++ data_bytes in
          let computed_sum := double_sha256_checksum check_data in
          if bool_decide (computed_sum = expected_sum)
          then Ok (default 0 (head check_data), data_bytes)
          else Err (BadChecksum (sum_u32 computed_sum) (sum_u32 expected_sum))
    | _ => Err InvalidCrockford32
    end.

Definition c32_address_decode (c32_address_str : string)
    : result AddressError (Z * list Z) :=
  if negb (is_ascii c32_address_str) || Nat.leb (String.length c32_address_str) 5
  then Err InvalidCrockford32
  else
    match c32_address_str with
    | String _ rest => c32_check_decode rest
    | EmptyString => Err InvalidCrockford32
    end.

Definition c32_address (version : Z) (data : list Z) : result AddressError string :=
  c32_string ← c32_check_encode version data;
  mret (String "S" c32_string).

(** ** Rendering and parsing of principals *)

Definition to_address (p : StandardPrincipalData) : string :=
  match c32_address (spd_version p) (spd_bytes p) with
  | Ok s => s
  | _ => "INVALID_C32_ADD"
  end.

Definition contract_to_string (c : QualifiedContractIdentifier) : string :=
  to_address (issuer c) +:+ "." +:+ contract_name c.

Definition principal_to_string (p : PrincipalData) : string :=
  match p with
  | Standard s => to_address s
  | Contract c => to_address (issuer c) +:+ "." +:+ contract_name c
  end.

Definition parse_standard_principal (literal : string)
    : result ClarityTypeError StandardPrincipalData :=
  p ← map_err (fun x => TE_InvalidPrincipalEncoding (address_error_to_string x))
        (c32_address_decode literal);
  let '(version, data) := p in
  if negb (Nat.eqb (length data) 20)
  then Err (TE_InvalidPrincipalLength (Z.of_nat (length data)))
  else StandardPrincipalData_new version data.
End Address.

(** ** Stripping zeros *)

Section Strip.
Context {A : Type} (p : A -> bool).

Lemma drop_take_while l : l = take_while p l ++ drop_while p l.
Proof. induction l as [| x l IH]; cbn; [done |]. destruct (p x); cbn; congruence. Qed.

Lemma strip_decompose l : l = strip p l ++ reverse (take_while p (reverse l)).
Proof.
  unfold strip. rewrite <- reverse_app, <- drop_take_while. by rewrite reverse_involutive.
Qed.

Lemma take_while_all l x : x ∈ take_while p l -> p x = true.
Proof.
  induction l as [| y l IH]; cbn; [by intros ?%elem_of_nil |].
  destruct (p y) eqn:Ey; [| by intros ?%elem_of_nil].
  intros [-> | ?]%elem_of_cons; auto.
Qed.

Lemma drop_while_head l x : head (drop_while p l) = Some x -> p x = false.
Proof. induction l as [| y l IH]; cbn; [done |]. destruct (p y) eqn:E; cbn; naive_solver. Qed.

Lemma strip_last l x : last (strip p l) = Some x -> p x = false.
Proof.
  unfold strip. rewrite last_reverse. apply drop_while_head.
Qed.

Lemma take_while_app_false l1 l2 :
  (forall x, head l2 = Some x -> p x = false) ->
  (forall x, x ∈ l1 -> p x = true) -> take_while p (l1 ++ l2) = l1.
Proof.
  intros Hh Hl. induction l1 as [| y l1 IH]; cbn.
  - destruct l2 as [| x l2]; [done |]. cbn. by rewrite Hh.
  - rewrite Hl by set_solver. rewrite IH by set_solver. done.
Qed.

Lemma strip_app_zeros l1 l2 :
  (forall x, last l1 = Some x -> p x = false) ->
  (forall x, x ∈ l2 -> p x = true) -> strip p (l1 ++ l2) = l1.
Proof.
  intros Hl Hz. unfold strip. rewrite reverse_app.
  assert (drop_while p (reverse l2 ++ reverse l1) = reverse l1) as ->.
  { assert (forall x, x ∈ reverse l2 -> p x = true) as Hz'
      by (intros x Hx; by apply Hz, elem_of_reverse).
    induction (reverse l2) as [| y l IH]; cbn.
    - destruct (reverse l1) as [| x l'] eqn:E; [done |]. cbn. rewrite Hl; [done |].
      by rewrite <- head_reverse, E.
    - rewrite Hz' by set_solver. apply IH. set_solver. }
  apply reverse_involutive.
Qed.
End Strip.

Lemma strip_fmap {A B} (f : A -> B) (p : A -> bool) (q : B -> bool) l :
  (forall x, x ∈ l -> q (f x) = p x) -> strip q (f <$> l) = f <$> strip p l.
Proof.
  intros Hpq. unfold strip. rewrite <- fmap_reverse, (fmap_reverse f (drop_while p _)). f_equal.
  assert (forall x, x ∈ reverse l -> q (f x) = p x) as H
    by (intros x Hx; by apply Hpq, elem_of_reverse).
  clear Hpq. induction (reverse l) as [| x l' IH]; cbn; [done |].
  rewrite H by set_solver. destruct (p x); [| done]. apply IH. set_solver.
Qed.

(** ** Little-endian numerals *)

Definition le_value (base : Z) (ds : list Z) : Z :=
  foldr (fun d acc => d + base * acc) 0 ds.

Definition digits_ok (base : Z) (ds : list Z) : Prop := Forall (fun d => 0 <= d < base) ds.

Lemma le_value_app base l1 l2 :
  le_value base (l1 ++ l2) = le_value base l1 + base ^ Z.of_nat (length l1) * le_value base l2.
Proof.
  unfold le_value. induction l1 as [| d l1 IH]; cbn [app foldr length].
  - change (Z.of_nat 0) with 0. rewrite Z.pow_0_r. lia.
  - rewrite IH, Nat2Z.inj_succ, Z.pow_succ_r by lia. lia.
Qed.

Lemma le_value_nonneg base ds : 0 <= base -> digits_ok base ds -> 0 <= le_value base ds.
Proof. unfold le_value. intros Hb. induction 1; cbn; nia. Qed.

Lemma le_value_zeros base zs : Forall (fun z => z = 0) zs -> le_value base zs = 0.
Proof.
  unfold le_value. induction 1 as [| z zs -> _ IH]; cbn; [done |]. rewrite IH. lia.
Qed.

Lemma le_value_zero_inv base ds :
  0 < base -> digits_ok base ds -> le_value base ds = 0 -> Forall (fun z => z = 0) ds.
Proof.
  intros Hb. induction 1 as [| d ds Hd Hds IH]; cbn; intros Hv; [done |].
  pose proof (le_value_nonneg base ds ltac:(lia) Hds). unfold le_value in *.
  constructor; [nia |]. apply IH. nia.
Qed.

Definition no_top_zero (ds : list Z) : Prop := last ds <> Some 0.

Lemma no_top_zero_nil base ds :
  0 < base -> digits_ok base ds -> no_top_zero ds -> le_value base ds = 0 -> ds = [].
Proof.
  intros Hb Hok Hz Hv. apply le_value_zero_inv in Hv; [| done ..].
  destruct ds as [| d ds] using rev_ind; [done |]. exfalso. apply Hz.
  rewrite last_snoc. apply Forall_app in Hv as [_ Hv]. by apply Forall_inv in Hv as ->.
Qed.

Lemma le_value_inj base l1 l2 :
  0 < base -> digits_ok base l1 -> digits_ok base l2 ->
  no_top_zero l1 -> no_top_zero l2 -> le_value base l1 = le_value base l2 -> l1 = l2.
Proof.
  intros Hb. revert l2. induction l1 as [| d1 l1 IH]; intros l2 H1 H2 Z1 Z2 Hv.
  - symmetry. by apply (no_top_zero_nil base).
  - destruct l2 as [| d2 l2]; [by apply (no_top_zero_nil base) in Hv |].
    inversion_clear H1 as [| ? ? Hd1 H1']. inversion_clear H2 as [| ? ? Hd2 H2'].
    cbn in Hv. fold (le_value base l1) (le_value base l2) in Hv.
    assert (d1 = d2 /\ le_value base l1 = le_value base l2) as [-> Hv'].
    { rewrite (Z.mul_comm base), (Z.mul_comm base) in Hv.
      assert (d1 = d2); [| nia].
      rewrite <- (Z.mod_small d1 base), <- (Z.mod_small d2 base) by lia.
      rewrite <- (Z.mod_add d1 (le_value base l1) base), Hv, Z.mod_add by lia. done. }
    f_equal. apply IH; try done.
    + intros Hl. apply Z1. by destruct l1.
    + intros Hl. apply Z2. by destruct l2.
Qed.

Lemma strip_spec base l :
  digits_ok base l ->
  digits_ok base (strip (Z.eqb 0) l) /\ no_top_zero (strip (Z.eqb 0) l) /\
  le_value base (strip (Z.eqb 0) l) = le_value base l.
Proof.
  intros Hl. split_and!.
  - rewrite (strip_decompose (Z.eqb 0) l) in Hl. by apply Forall_app in Hl as [? _].
  - by intros ?%strip_last.
  - rewrite (strip_decompose (Z.eqb 0) l) at 2. rewrite le_value_app, (le_value_zeros _ (reverse _)).
    + lia.
    + apply Forall_reverse, Forall_forall. intros x Hx%take_while_all. by ints_hyps.
Qed.

(** ** The alphabet *)

Lemma c32_digit_char d : 0 <= d < 32 -> c32_digit (c32_char d) = Some d.
Proof.
  intros Hd. assert (Forall (fun x => c32_digit (c32_char x) = Some x) (seqZ 0 32)) as Hall
    by (by repeat constructor).
  rewrite Forall_forall in Hall. apply Hall, elem_of_seqZ. lia.
Qed.

Lemma c32_char_zero d : 0 <= d < 32 -> Ascii.eqb (c32_char 0) (c32_char d) = (0 =? d).
Proof.
  intros Hd. assert (Forall (fun x => Ascii.eqb (c32_char 0) (c32_char x) = (0 =? x)) (seqZ 0 32))
    as Hall by (by repeat constructor).
  rewrite Forall_forall in Hall. apply Hall, elem_of_seqZ. lia.
Qed.

Lemma c32_char_ascii d : 0 <= d < 32 ->
  Nat.ltb (nat_of_ascii (c32_char d)) 128 = true /\ c32_char d <> "."%char.
Proof.
  intros Hd. assert (Forall (fun x => Nat.ltb (nat_of_ascii (c32_char x)) 128 = true /\
                                      c32_char x <> "."%char) (seqZ 0 32))
    as Hall by (by repeat constructor).
  rewrite Forall_forall in Hall. apply Hall, elem_of_seqZ. lia.
Qed.

Lemma omap_digit_char ds : digits_ok 32 ds -> omap c32_digit (c32_char <$> ds) = ds.
Proof.
  induction 1 as [| d ds Hd _ IH]; [done |]. cbn [fmap list_fmap omap list_omap].
  rewrite c32_digit_char by done. by f_equal.
Qed.

(** ** The loops convert between base 256 and base 32 *)

Lemma land_low x n : 0 <= n -> Z.land x (Z.shiftl 1 n - 1) = x mod 2 ^ n.
Proof.
  intros Hn. rewrite Z.shiftl_1_l, <- Z.land_ones by done.
  f_equal. rewrite Z.ones_equiv. lia.
Qed.

Lemma five_cases cb : 0 <= cb < 5 -> cb = 0 \/ cb = 1 \/ cb = 2 \/ cb = 3 \/ cb = 4.
Proof. lia. Qed.

Lemma encode_step cv carry cb :
  is_byte cv -> 0 <= cb < 5 -> 0 <= carry < 2 ^ cb ->
  let d := Z.shiftl (Z.land cv (Z.shiftl 1 (5 - cb) - 1)) cb + carry in
  let carry' := Z.shiftr cv (5 - cb) in
  0 <= d < 32 /\ 0 <= carry' < 2 ^ (cb + 3) /\ carry + 2 ^ cb * cv = d + 32 * carry'.
Proof.
  intros Hv Hcb Hc d carry'. unfold is_byte, d, carry' in *.
  rewrite land_low, Z.shiftl_mul_pow2, Z.shiftr_div_pow2 by lia.
  destruct (five_cases cb Hcb) as [-> | [-> | [-> | [-> | ->]]]];
    cbn in Hc |- *; Z.to_euclidean_division_equations; lia.
Qed.

Lemma c32_encode_loop_spec bytes carry cb :
  bytes_ok bytes -> 0 <= cb < 5 -> 0 <= carry < 2 ^ cb ->
  exists ds carry' cb',
    c32_encode_loop bytes carry cb = (c32_char <$> ds, carry', cb') /\
    digits_ok 32 ds /\ 0 <= cb' < 5 /\ 0 <= carry' < 2 ^ cb' /\
    le_value 32 ds + 32 ^ Z.of_nat (length ds) * carry' = carry + 2 ^ cb * le_value 256 bytes.
Proof.
  intros Hb. revert carry cb. induction Hb as [| cv bytes Hcv Hb IH]; intros carry cb Hcb Hc.
  { exists [], carry, cb. cbn. repeat split; try lia. constructor. }
  destruct (encode_step cv carry cb Hcv Hcb Hc) as (Hd & Hc' & Heq).
  cbn [c32_encode_loop]. replace (8 - (8 + cb - 5)) with (5 - cb) by lia.
  set (d := _ + carry) in *. set (carry' := Z.shiftr cv (5 - cb)) in *.
  destruct (5 <=? 8 + cb - 5) eqn:E5; ints_hyps.
  - assert (0 <= Z.land carry' (Z.shiftl 1 5 - 1) < 32 /\ 0 <= Z.shiftr carry' 5 < 2 ^ (cb - 2) /\
            carry' = Z.land carry' (Z.shiftl 1 5 - 1) + 32 * Z.shiftr carry' 5) as (Hd2 & Hc2 & Heq2).
    { rewrite land_low, Z.shiftr_div_pow2 by lia. change (2 ^ 5) with 32.
      replace (cb + 3) with ((cb - 2) + 5) in Hc' by lia. rewrite Z.pow_add_r in Hc' by lia.
      change (2 ^ 5) with 32 in Hc'. Z.to_euclidean_division_equations; lia. }
    destruct (IH (Z.shiftr carry' 5) (8 + cb - 5 - 5) ltac:(lia) ltac:(by replace (8 + cb - 5 - 5) with (cb - 2) by lia))
      as (ds & c & cb' & -> & Hds & Hcb' & Hc'' & Hv).
    exists (d :: Z.land carry' (Z.shiftl 1 5 - 1) :: ds), c, cb'.
    split; [done |]. split; [constructor; [done | by constructor] |].
    split; [done |]. split; [done |].
    replace (8 + cb - 5 - 5) with (cb - 2) in Hv by lia.
    cbn [length le_value foldr]. fold (le_value 32 ds) (le_value 256 bytes).
    rewrite !Nat2Z.inj_succ, !Z.pow_succ_r by lia.
    replace (2 ^ cb) with (4 * 2 ^ (cb - 2)) in *
      by (change 4 with (2 ^ 2); rewrite <- Z.pow_add_r by lia; f_equal; lia).
    nia.
  - destruct (IH carry' (8 + cb - 5) ltac:(lia) ltac:(by replace (8 + cb - 5) with (cb + 3) by lia))
      as (ds & c & cb' & -> & Hds & Hcb' & Hc'' & Hv).
    exists (d :: ds), c, cb'. split; [done |]. split; [by constructor |].
    split; [done |]. split; [done |]. cbn [length le_value foldr].
    fold (le_value 32 ds) (le_value 256 bytes).
    rewrite Nat2Z.inj_succ, Z.pow_succ_r by lia.
    replace (8 + cb - 5) with (cb + 3) in Hv by lia. rewrite Z.pow_add_r in Hv by lia. nia.
Qed.

Lemma c32_decode_loop_spec ds carry cb :
  digits_ok 32 ds -> 0 <= cb < 8 -> 0 <= carry < 2 ^ cb ->
  exists out carry' cb',
    c32_decode_loop ds carry cb = (out, carry', cb') /\
    digits_ok 256 out /\ 0 <= cb' < 8 /\ 0 <= carry' < 2 ^ cb' /\
    le_value 256 out + 256 ^ Z.of_nat (length out) * carry' = carry + 2 ^ cb * le_value 32 ds /\
    8 * Z.of_nat (length out) + cb' = 5 * Z.of_nat (length ds) + cb.
Proof.
  intros Hds. revert carry cb. induction Hds as [| d ds Hd Hds IH]; intros carry cb Hcb Hc.
  { exists [], carry, cb. cbn. repeat split; try lia. constructor. }
  cbn [c32_decode_loop]. rewrite Z.shiftl_mul_pow2 by lia.
  assert (0 <= carry + d * 2 ^ cb < 2 ^ (cb + 5)) as Hc1
    by (rewrite Z.pow_add_r by lia; nia).
  cbn [le_value foldr length]. fold (le_value 32 ds). rewrite !Nat2Z.inj_succ.
  destruct (8 <=? cb + 5) eqn:E8; ints_hyps.
  - rewrite land_low, Z.shiftr_div_pow2 by lia. set (c1 := carry + d * 2 ^ cb) in *.
    assert (0 <= c1 / 2 ^ 8 < 2 ^ (cb + 5 - 8)) as Hc2.
    { replace (cb + 5) with ((cb + 5 - 8) + 8) in Hc1 by lia. rewrite Z.pow_add_r in Hc1 by lia.
      split; [apply Z.div_pos; lia | apply Z.div_lt_upper_bound; lia]. }
    destruct (IH (c1 / 2 ^ 8) (cb + 5 - 8) ltac:(lia) Hc2)
      as (out & c & cb' & -> & Hout & Hcb' & Hc' & Hv & Hlen).
    exists (c1 mod 2 ^ 8 :: out), c, cb'. split; [done |].
    pose proof (Z.mod_pos_bound c1 (2 ^ 8) ltac:(lia)) as Hm.
    split; [by constructor |]. split; [done |]. split; [done |].
    cbn [le_value foldr length]. fold (le_value 256 out).
    rewrite !Nat2Z.inj_succ, Z.pow_succ_r by lia. split; [| lia].
    pose proof (Z.div_mod c1 (2 ^ 8) ltac:(lia)) as Hdm.
    assert (2 ^ 8 * 2 ^ (cb + 5 - 8) = 2 ^ cb * 32) as Hp.
    { change 32 with (2 ^ 5). rewrite <- !Z.pow_add_r by lia. f_equal. lia. }
    change (2 ^ 8) with 256 in *. unfold c1 in *. nia.
  - destruct (IH (carry + d * 2 ^ cb) (cb + 5) ltac:(lia) Hc1)
      as (out & c & cb' & -> & Hout & Hcb' & Hc' & Hv & Hlen).
    exists out, c, cb'. split_and!; try done; try lia.
    rewrite Z.pow_add_r in Hv by lia. change (2 ^ 5) with 32 in Hv. nia.
Qed.

(** The characters of an encoding, least significant first: the base-32 digits
    of the number, without its leading zeros, followed by one zero for every
    leading zero byte. *)
Lemma c32_encode_digits bs :
  bytes_ok bs -> exists ds,
    String.list_ascii_of_string (c32_encode bs)
      = reverse (c32_char <$> ds ++ take_while (Z.eqb 0) bs) /\
    digits_ok 32 ds /\ no_top_zero ds /\ le_value 32 ds = le_value 256 (reverse bs).
Proof.
  intros Hb. unfold c32_encode.
  destruct (c32_encode_loop_spec (reverse bs) 0 0) as (ds & c & cb & -> & Hds & Hcb & Hc & Hv);
    [by apply Forall_reverse | lia | lia |].
  set (all := if 0 <? cb then ds ++ [c] else ds).
  assert ((if 0 <? cb then (c32_char <$> ds) ++ [c32_char c] else c32_char <$> ds)
          = c32_char <$> all) as ->.
  { unfold all. case_match; [by rewrite fmap_app | done]. }
  assert (digits_ok 32 all /\ le_value 32 all = le_value 256 (reverse bs)) as [Hall Hva].
  { unfold all. destruct (0 <? cb) eqn:E; ints_hyps.
    - split.
      + apply Forall_app_2; [done |]. constructor; [| constructor].
        pose proof (Z.pow_le_mono_r 2 cb 5). lia.
      + rewrite le_value_app. cbn [le_value foldr]. nia.
    - replace cb with 0 in * by lia. cbn in Hc. split; [done | nia]. }
  exists (strip (Z.eqb 0) all).
  rewrite (strip_fmap _ (Z.eqb 0)), <- fmap_app, String.list_ascii_of_string_of_list_ascii.
  2: { intros x Hx. apply c32_char_zero. by eapply Forall_forall in Hall. }
  destruct (strip_spec 32 all Hall) as (Hst & Hnz & Hvs).
  split_and!; [done | done | done | congruence].
Qed.

Lemma c32_round_trip bs : bytes_ok bs -> c32_decode_ascii (c32_encode bs) = Ok bs.
Proof.
  intros Hb. destruct (c32_encode_digits bs Hb) as (ds & Hstr & Hds & Hnz & Hv).
  unfold c32_decode_ascii. rewrite Hstr, reverse_involutive.
  set (zs := take_while (Z.eqb 0) bs) in *.
  assert (forall x, x ∈ zs -> x = 0) as Hz0 by (intros x Hx%take_while_all; ints_hyps; done).
  assert (Forall (fun z => z = 0) zs) as Hz by (by apply Forall_forall).
  assert (digits_ok 32 (ds ++ zs)) as Hok.
  { apply Forall_app_2; [done |]. eapply Forall_impl; [exact Hz | intros ? ->; lia]. }
  rewrite (omap_digit_char _ Hok), length_reverse, length_fmap, Nat.eqb_refl. cbn [negb].
  destruct (c32_decode_loop_spec (ds ++ zs) 0 0 Hok) as (out & c & cb & -> & Hout & Hcb & Hc & Hvo & _);
    [lia | lia |].
  set (all := if 0 <? cb then out ++ [c] else out).
  assert (digits_ok 256 all /\ le_value 256 all = le_value 256 (reverse bs)) as [Hall Hva].
  { rewrite le_value_app, (le_value_zeros _ _ Hz) in Hvo.
    unfold all. destruct (0 <? cb) eqn:E; ints_hyps.
    - split.
      + apply Forall_app_2; [done |]. constructor; [| constructor].
        pose proof (Z.pow_le_mono_r 2 cb 8). lia.
      + rewrite le_value_app. cbn [le_value foldr]. nia.
    - replace cb with 0 in * by lia. cbn in Hc. split; [done | nia]. }
  rewrite (reverse_app ds zs), (take_while_app_false (Z.eqb 0) (reverse zs) (reverse ds)).
  2: { intros x Hx. rewrite head_reverse in Hx. apply Z.eqb_neq. intros <-. by apply Hnz. }
  2: { intros x Hx. rewrite (Hz0 x); [done | by apply elem_of_reverse]. }
  f_equal. rewrite <- (reverse_involutive bs). f_equal.
  rewrite (strip_decompose (Z.eqb 0) (reverse bs)), reverse_involutive. fold zs. f_equal.
  destruct (strip_spec 256 all Hall) as (H1 & H2 & H3).
  destruct (strip_spec 256 (reverse bs)) as (H4 & H5 & H6); [by apply Forall_reverse |].
  apply (le_value_inj 256); [lia | done ..| congruence].
Qed.

(** ** Lengths *)

Lemma le_value_lt base ds :
  0 < base -> digits_ok base ds -> le_value base ds < base ^ Z.of_nat (length ds).
Proof.
  intros Hb. unfold le_value. induction 1 as [| d ds Hd Hds IH]; cbn [foldr length]; [done |].
  rewrite Nat2Z.inj_succ, Z.pow_succ_r by lia. nia.
Qed.

Lemma le_value_ge base ds d :
  0 < base -> digits_ok base ds -> d <> 0 -> 0 <= d ->
  base ^ Z.of_nat (length ds) <= le_value base (ds ++ [d]).
Proof.
  intros Hb Hds Hd Hd0. rewrite le_value_app. cbn [le_value foldr].
  pose proof (le_value_nonneg base ds ltac:(lia) Hds).
  pose proof (Z.pow_nonneg base (Z.of_nat (length ds))). nia.
Qed.

Lemma length_list_ascii s : length (String.list_ascii_of_string s) = String.length s.
Proof. induction s as [| c s IH]; cbn; congruence. Qed.

Lemma c32_encode_length bs : bytes_ok bs -> (length bs <= String.length (c32_encode bs))%nat.
Proof.
  intros Hb. destruct (c32_encode_digits bs Hb) as (ds & Hstr & Hds & Hnz & Hv).
  rewrite <- length_list_ascii, Hstr, length_reverse, length_fmap, length_app.
  destruct (strip_spec 256 (reverse bs)) as (H4 & H5 & H6); [by apply Forall_reverse |].
  assert (length bs = length (strip (Z.eqb 0) (reverse bs)) + length (take_while (Z.eqb 0) bs))%nat
    as ->.
  { rewrite <- (length_reverse bs), (strip_decompose (Z.eqb 0) (reverse bs)) at 1.
    by rewrite length_app, length_reverse, reverse_involutive. }
  destruct (strip (Z.eqb 0) (reverse bs)) as [| d l _] eqn:E using rev_ind; [cbn; lia |].
  apply Forall_app in H4 as [Hl Hd%Forall_inv].
  assert (d <> 0) by (intros ->; apply H5; by rewrite last_snoc).
  pose proof (le_value_ge 256 l d ltac:(lia) Hl ltac:(done) ltac:(lia)) as Hge.
  pose proof (le_value_lt 32 ds ltac:(lia) Hds) as Hlt.
  rewrite length_app. cbn [length].
  destruct (decide (length ds < length l + 1)%nat) as [Hlt' |]; [| lia]. exfalso.
  pose proof (Z.pow_le_mono_r 256 (Z.of_nat (length ds)) (Z.of_nat (length l)) ltac:(lia) ltac:(lia)).
  pose proof (Z.pow_le_mono_l 32 256 (Z.of_nat (length ds)) ltac:(lia)). lia.
Qed.

Lemma c32_encode_chars bs c :
  bytes_ok bs -> c ∈ String.list_ascii_of_string (c32_encode bs) ->
  exists d, 0 <= d < 32 /\ c = c32_char d.
Proof.
  intros Hb Hc. destruct (c32_encode_digits bs Hb) as (ds & Hstr & Hds & _ & _).
  rewrite Hstr in Hc. apply elem_of_reverse, list_elem_of_fmap in Hc as (d & -> & Hd).
  exists d. split; [| done]. apply elem_of_app in Hd as [Hd | Hd%take_while_all].
  - by eapply Forall_forall in Hds.
  - ints_hyps. lia.
Qed.

(** ** Addresses *)

Definition no_dot (s : string) : Prop := Forall (fun c => c <> "."%char) (String.list_ascii_of_string s).

Lemma c32_digits_ascii s :
  (forall c, c ∈ String.list_ascii_of_string s -> exists d, 0 <= d < 32 /\ c = c32_char d) ->
  is_ascii s = true /\ no_dot s.
Proof.
  intros Hs. unfold is_ascii, no_dot. split.
  - apply forallb_forall. intros c Hc%list_elem_of_In.
    destruct (Hs c Hc) as (d & Hd & ->). by apply c32_char_ascii.
  - apply Forall_forall. intros c Hc. destruct (Hs c Hc) as (d & Hd & ->).
    by apply c32_char_ascii.
Qed.

Lemma c32_decode_version v :
  0 <= v < 32 -> c32_decode_ascii (String (c32_char v) "") = Ok [v].
Proof.
  intros Hv. assert (Forall (fun x => c32_decode_ascii (String (c32_char x) "") = Ok [x]) (seqZ 0 32))
    as Hall by (by repeat constructor).
  rewrite Forall_forall in Hall. apply Hall, elem_of_seqZ. lia.
Qed.

Section AddressLemmas.
Context `{Sha256}.

Lemma length_checksum data : length (double_sha256_checksum data) = 4%nat.
Proof. unfold double_sha256_checksum. by rewrite length_take, sha256_length. Qed.

Lemma checksum_bytes data : bytes_ok (double_sha256_checksum data).
Proof. apply Forall_take, sha256_bytes. Qed.

Definition checked_string (v : Z) (data : list Z) : string :=
  String (c32_char v) (c32_encode (data ++ double_sha256_checksum (v :: data))).

Lemma c32_address_eq v data :
  v < 32 -> c32_address v data = Ok (String "S" (checked_string v data)).
Proof.
  intros Hv. unfold c32_address, c32_check_encode. destruct (32 <=? v) eqn:E; [ints | done].
Qed.

Lemma checked_string_ascii v data :
  0 <= v < 32 -> bytes_ok data ->
  is_ascii (checked_string v data) = true /\ no_dot (checked_string v data).
Proof.
  intros Hv Hd. apply c32_digits_ascii. intros c Hc.
  cbn in Hc. apply elem_of_cons in Hc as [-> | Hc]; [by exists v |].
  apply c32_encode_chars in Hc; [done |]. apply Forall_app_2; [done | apply checksum_bytes].
Qed.

Lemma c32_check_round_trip v data :
  0 <= v < 32 -> bytes_ok data -> data <> [] ->
  c32_check_decode (checked_string v data) = Ok (v, data).
Proof.
  intros Hv Hd Hne. unfold c32_check_decode.
  rewrite (proj1 (checked_string_ascii v data Hv Hd)). cbn [negb]. unfold checked_string.
  set (payload := data ++ double_sha256_checksum (v :: data)).
  assert (bytes_ok payload) as Hp by (apply Forall_app_2; [done | apply checksum_bytes]).
  assert (length payload = length data + 4)%nat as Hlen
    by (unfold payload; by rewrite length_app, length_checksum).
  assert (length data <> 0)%nat by (by destruct data).
  pose proof (c32_encode_length payload Hp).
  destruct (c32_encode payload) as [| c s] eqn:E; [cbn in *; lia |].
  rewrite <- E, c32_round_trip by done. cbn [mbind result_bind].
  rewrite (proj2 (Nat.ltb_ge _ 5)), c32_decode_version by lia. cbn [mbind result_bind].
  replace (length payload - 4)%nat with (length data) by lia.
  unfold payload. rewrite take_app_length, drop_app_length. cbn [app].
  by rewrite bool_decide_true.
Qed.

Lemma c32_address_decode_eq v data :
  0 <= v < 32 -> bytes_ok data -> data <> [] ->
  c32_address_decode (String "S" (checked_string v data)) = Ok (v, data).
Proof.
  intros Hv Hd Hne. unfold c32_address_decode.
  assert (is_ascii (String "S" (checked_string v data)) = true) as ->
    by apply (proj1 (checked_string_ascii v data Hv Hd)).
  pose proof (c32_encode_length (data ++ double_sha256_checksum (v :: data))
                ltac:(apply Forall_app_2; [done | apply checksum_bytes])) as Hl.
  rewrite length_app, length_checksum in Hl.
  assert (length data <> 0)%nat by (by destruct data).
  rewrite (proj2 (Nat.leb_gt _ 5)) by (cbn [String.length checked_string]; lia).
  cbn [negb orb]. by apply c32_check_round_trip.
Qed.
End AddressLemmas.

(** ** Principals *)

(** The invariant of [StandardPrincipalData]: constructors other than the
    test-only one go through [new], and the payload is a 20-byte array. *)
Definition wf_standard (p : StandardPrincipalData) : Prop :=
  0 <= spd_version p < 32 /\ bytes_ok (spd_bytes p) /\ length (spd_bytes p) = 20%nat.

Definition wf_principal (p : PrincipalData) : Prop :=
  match p with
  | Standard s => wf_standard s
  | Contract c => wf_standard (issuer c)
  end.

Lemma no_dot_split a1 a2 n1 n2 :
  no_dot a1 -> no_dot a2 -> a1 +:+ "." +:+ n1 = a2 +:+ "." +:+ n2 -> a1 = a2 /\ n1 = n2.
Proof.
  unfold no_dot. revert a2. induction a1 as [| c a1 IH]; intros [| c2 a2] H1 H2 E;
    cbn in *; inversion_clear H1; inversion_clear H2; injection E; intros; subst;
    by first [done | destruct (IH a2) as [-> ->]].
Qed.

Lemma no_dot_not_contract a1 a2 n : no_dot a1 -> a1 = a2 +:+ "." +:+ n -> False.
Proof.
  unfold no_dot. intros H1 ->. induction a2 as [| c a2 IH]; cbn in H1.
  - by inversion H1.
  - inversion_clear H1. auto.
Qed.

Section PrincipalLemmas.
Context `{Sha256}.

Lemma to_address_eq p :
  wf_standard p -> to_address p = String "S" (checked_string (spd_version p) (spd_bytes p)).
Proof. intros (Hv & _). unfold to_address. by rewrite c32_address_eq by lia. Qed.

Lemma to_address_no_dot p : wf_standard p -> no_dot (to_address p).
Proof.
  intros Hp. rewrite to_address_eq by done. destruct Hp as (Hv & Hb & _).
  constructor; [done |]. by apply checked_string_ascii.
Qed.

Lemma parse_to_address p : wf_standard p -> parse_standard_principal (to_address p) = Ok p.
Proof.
  intros Hp. rewrite to_address_eq by done. destruct p as [v data], Hp as (Hv & Hb & Hl).
  cbn in *. unfold parse_standard_principal.
  rewrite c32_address_decode_eq by (try done; by destruct data). cbn [map_err mbind result_bind].
  rewrite Hl. cbn. unfold StandardPrincipalData_new. destruct (32 <=? v) eqn:E; [ints | done].
Qed.

Lemma to_address_inj p q :
  wf_standard p -> wf_standard q -> to_address p = to_address q -> p = q.
Proof.
  intros Hp Hq Heq. apply (f_equal parse_standard_principal) in Heq.
  rewrite !parse_to_address in Heq by done. by injection Heq.
Qed.

Lemma principal_to_string_inj p q :
  wf_principal p -> wf_principal q ->
  principal_to_string p = principal_to_string q -> p = q.
Proof.
  destruct p as [p | [ip np]], q as [q | [iq nq]]; cbn; intros Hp Hq Heq.
  - f_equal. by apply to_address_inj.
  - exfalso. by eapply no_dot_not_contract; [apply (to_address_no_dot p) |].
  - exfalso. by eapply no_dot_not_contract; [apply (to_address_no_dot q) |].
  - apply no_dot_split in Heq as [Ha ->]; [| by apply to_address_no_dot ..].
    do 2 f_equal. by apply to_address_inj.
Qed.
End PrincipalLemmas.

(** ** Properties *)

(** The base-32 encoding of any byte string, leading zero bytes included,
    decodes back to it, and it is never shorter than the bytes. *)
Theorem c32_encode_decode bs :
  bytes_ok bs ->
  c32_decode_ascii (c32_encode bs) = Ok bs /\
  (length bs <= String.length (c32_encode bs))%nat.
Proof. intros Hb. split; [by apply c32_round_trip | by apply c32_encode_length]. Qed.

(** C35: for every version below 32 and every non-empty payload, [c32_address]
    succeeds and [c32_address_decode] recovers the version and the payload,
    checksum verified, whatever SHA-256 is. *)
Theorem c32_address_decode_encode `{Sha256} version data :
  0 <= version < 32 -> bytes_ok data -> data <> [] ->
  exists s, c32_address version data = Ok s /\ c32_address_decode s = Ok (version, data).
Proof.
  intros Hv Hd Hne. eexists. split; [apply c32_address_eq; lia |].
  by apply c32_address_decode_eq.
Qed.

(** Rendering is injective on principals: two accounts never share a
    string, also not a standard and a contract principal, so neither do the
    store keys built from them; and a rendered standard principal parses back. *)
Theorem principal_rendering_injective `{Sha256} p q :
  wf_principal p -> wf_principal q ->
  (principal_to_string p = principal_to_string q <-> p = q) /\
  (forall s, p = Standard s -> parse_standard_principal (principal_to_string p) = Ok s).
Proof.
  intros Hp Hq. split.
  - split; [by apply principal_to_string_inj | by intros ->].
  - intros s ->. by apply parse_to_address.
Qed.

(** A hash to run the encoder with *)
Definition zero_sha256 : Sha256.
Proof.
  refine {| sha256 := fun _ => replicate 32 0 |}.
  - done.
  - intros _. apply Forall_replicate. unfold is_byte. lia.
Defined.

Lemma transient_wf : wf_standard transient.
Proof.
  split; [cbn; lia |]. split; [| done]. apply Forall_replicate. unfold is_byte. lia.
Qed.

Definition sample_bytes : list Z := [0; 0; 164; 111; 255].

Lemma c32_encode_decode_witness :
  c32_decode_ascii (c32_encode sample_bytes) = Ok sample_bytes /\
  (length sample_bytes <= String.length (c32_encode sample_bytes))%nat.
Proof.
  apply (c32_encode_decode sample_bytes).
  repeat constructor; unfold is_byte; lia.
Defined.

Lemma c32_address_decode_encode_witness : exists s,
  @c32_address zero_sha256 22 [0; 5; 9] = Ok s /\
  @c32_address_decode zero_sha256 s = Ok (22, [0; 5; 9]).
Proof.
  apply (@c32_address_decode_encode zero_sha256 22 [0; 5; 9]).
  - lia.
  - repeat constructor; unfold is_byte; lia.
  - discriminate.
Defined.

Lemma principal_rendering_injective_witness :
  @principal_to_string zero_sha256 (Standard transient)
    = @principal_to_string zero_sha256 (Contract (mkQualifiedContract transient "c")) <->
  Standard transient = Contract (mkQualifiedContract transient "c").
Proof.
  apply (@principal_rendering_injective zero_sha256 (Standard transient)
           (Contract (mkQualifiedContract transient "c"))).
  - exact transient_wf.
  - exact transient_wf.
Defined.
