(* ===== verification/BitcoinTx.v ===== *)
(** * Bitcoin transactions

    [stacks-common/src/deps_common/bitcoin]: the consensus encoding of
    integers, vectors and scripts ([network/encodable.rs],
    [network/serialize.rs]) and of transactions ([blockdata/transaction.rs]),
    with and without segregated witnesses.

    The encodings are [Codec]s: a writer and a reader on the bytes that are
    left. A codec is [lawful] when the reader accepts exactly what the writer
    writes; the combinators below preserve it, and transactions with inputs
    have it. *)

From stdpp Require Import list.
From S2P Require Import Prelude.
From S2P Require Import Bytes.
From S2P Require Import C32.

(** [serialize::Error], the cases the readers have *)
Inductive BtcError :=
| BtcIo
| OversizedVectorAllocation (requested max : Z)
| ParseFailed (reason : string)
| UnsupportedSegwitFlag (flag : Z).

Abbreviation BtcM := (M (list Z) BtcError).

Record Codec (A : Type) := mkCodec {
  consensus_encode : A -> list Z;
  consensus_decode : BtcM A;
}.
Arguments mkCodec {A} _ _.
Arguments consensus_encode {A} _ _.
Arguments consensus_decode {A} _.

(** [read_exact] on the cursor *)
Definition btc_read (n : nat) : BtcM (list Z) := fun bs =>
  if (length bs <? n)%nat then (Err BtcIo, bs) else (Ok (take n bs), drop n bs).

(** ** Integers, little-endian *)

Definition to_le_bytes (n : nat) (z : Z) : list Z := rev (to_be_bytes n z).
Definition from_le_bytes (bs : list Z) : Z := from_be_bytes (rev bs).

Definition int_codec (n : nat) : Codec Z :=
  mkCodec (to_le_bytes n) (bs ← btc_read n; mret (from_le_bytes bs)).

Definition u8_codec : Codec Z := int_codec 1.
Definition u16_codec : Codec Z := int_codec 2.
Definition u32_codec : Codec Z := int_codec 4.
Definition u64_codec : Codec Z := int_codec 8.

Definition non_minimal : BtcError := ParseFailed "non-minimal varint".

(** [VarInt] *)
Definition varint_codec : Codec Z := mkCodec
  (fun x =>
     if x <=? 0xFC then consensus_encode u8_codec x
     else if x <=? 0xFFFF then 0xFD :: consensus_encode u16_codec x
     else if x <=? 0xFFFFFFFF then 0xFE :: consensus_encode u32_codec x
     else 0xFF :: consensus_encode u64_codec x)
  (n ← consensus_decode u8_codec;
   if n =? 0xFF then
     x ← consensus_decode u64_codec;
     if x <? 0x100000000 then throw non_minimal else mret x
   else if n =? 0xFE then
     x ← consensus_decode u32_codec;
     if x <? 0x10000 then throw non_minimal else mret x
   else if n =? 0xFD then
     x ← consensus_decode u16_codec;
     if x <? 0xFD then throw non_minimal else mret x
   else mret n).

(** ** Vectors *)

Definition MAX_VEC_SIZE : Z := 64 * 1024 * 1024.

Fixpoint decode_items {A} (c : Codec A) (n : nat) : BtcM (list A) :=
  match n with
  | O => mret []
  | S n => x ← consensus_decode c; xs ← decode_items c n; mret (x :: xs)
  end.

Definition encode_items {A} (c : Codec A) (xs : list A) : list Z :=
  consensus_encode varint_codec (zlen xs) ++ mjoin (consensus_encode c <$> xs).

(** [Vec<T>]; [size_of] is [mem::size_of::<T>()]. *)
Definition vec_codec {A} (size_of : Z) (c : Codec A) : Codec (list A) := mkCodec
  (encode_items c)
  (len ← consensus_decode varint_codec;
   byte_size ← lift (ok_or (checked 0 u64_max (len * size_of)) (ParseFailed "Invalid length"));
   ensure (byte_size <=? MAX_VEC_SIZE) (OversizedVectorAllocation byte_size MAX_VEC_SIZE);;
   decode_items c (Z.to_nat len)).

(** [Box<[T]>] *)
Definition boxed_codec {A} (c : Codec A) : Codec (list A) := mkCodec
  (encode_items c)
  (len ← consensus_decode varint_codec;
   ensure (len <=? MAX_VEC_SIZE) (OversizedVectorAllocation len MAX_VEC_SIZE);;
   decode_items c (Z.to_nat len)).

(** [[u8; 32]] of [Sha256dHash] *)
Definition hash_codec : Codec (list Z) :=
  mkCodec (fun h => mjoin (consensus_encode u8_codec <$> h)) (decode_items u8_codec 32).

Definition script_codec : Codec (list Z) := boxed_codec u8_codec.

(** ** Transactions *)

Record OutPoint := mkOutPoint { op_txid : list Z; op_vout : Z }.
Record TxIn := mkTxIn {
  previous_output : OutPoint;
  script_sig : list Z;
  tx_sequence : Z;
  witness : list (list Z);
}.
Record TxOut := mkTxOut { tx_value : Z; script_pubkey : list Z }.
Record BtcTransaction := mkBtcTransaction {
  tx_version : Z;
  lock_time : Z;
  input : list TxIn;
  output : list TxOut;
}.

Definition outpoint_codec : Codec OutPoint := mkCodec
  (fun o => consensus_encode hash_codec (op_txid o) ++ consensus_encode u32_codec (op_vout o))
  (txid ← consensus_decode hash_codec;
   vout ← consensus_decode u32_codec;
   mret (mkOutPoint txid vout)).

Definition txout_codec : Codec TxOut := mkCodec
  (fun o => consensus_encode u64_codec (tx_value o) ++ consensus_encode script_codec (script_pubkey o))
  (value ← consensus_decode u64_codec;
   script ← consensus_decode script_codec;
   mret (mkTxOut value script)).

(** The witness is not written with the input. *)
Definition txin_codec : Codec TxIn := mkCodec
  (fun i => consensus_encode outpoint_codec (previous_output i) ++
            consensus_encode script_codec (script_sig i) ++
            consensus_encode u32_codec (tx_sequence i))
  (previous_output ← consensus_decode outpoint_codec;
   script_sig ← consensus_decode script_codec;
   sequence ← consensus_decode u32_codec;
   mret (mkTxIn previous_output script_sig sequence [])).

(** The sizes of the structures on a 64-bit target *)
Definition size_of_txin : Z := 80.
Definition size_of_txout : Z := 24.
Definition size_of_vec : Z := 24.

Definition inputs_codec : Codec (list TxIn) := vec_codec size_of_txin txin_codec.
Definition outputs_codec : Codec (list TxOut) := vec_codec size_of_txout txout_codec.
Definition witness_codec : Codec (list (list Z)) := vec_codec size_of_vec (vec_codec 1 u8_codec).

Definition set_witness (i : TxIn) (w : list (list Z)) : TxIn :=
  mkTxIn (previous_output i) (script_sig i) (tx_sequence i) w.

Definition has_witness (i : TxIn) : bool := negb (is_empty (witness i)).

Definition encode_transaction (tx : BtcTransaction) : list Z :=
  consensus_encode u32_codec (tx_version tx) ++
  (if negb (existsb has_witness (input tx)) then
     consensus_encode inputs_codec (input tx) ++ consensus_encode outputs_codec (output tx)
   else
     consensus_encode u8_codec 0 ++ consensus_encode u8_codec 1 ++
     consensus_encode inputs_codec (input tx) ++ consensus_encode outputs_codec (output tx) ++
     mjoin ((fun i => consensus_encode witness_codec (witness i)) <$> input tx)) ++
  consensus_encode u32_codec (lock_time tx).

(** [txin.witness = ConsensusDecodable::consensus_decode(d)?] for every input *)
Fixpoint decode_witnesses (inputs : list TxIn) : BtcM (list TxIn) :=
  match inputs with
  | [] => mret []
  | i :: inputs =>
      w ← consensus_decode witness_codec;
      inputs ← decode_witnesses inputs;
      mret (set_witness i w :: inputs)
  end.

Definition decode_transaction : BtcM BtcTransaction :=
  version ← consensus_decode u32_codec;
  input ← consensus_decode inputs_codec;
  match input with
  | [] =>
      segwit_flag ← consensus_decode u8_codec;
      if segwit_flag =? 0 then
        lock_time ← consensus_decode u32_codec;
        mret (mkBtcTransaction version lock_time input [])
      else if segwit_flag =? 1 then
        input ← consensus_decode inputs_codec;
        output ← consensus_decode outputs_codec;
        input ← decode_witnesses input;
        if negb (is_empty input) && forallb (fun i => negb (has_witness i)) input
        then throw (ParseFailed "witness flag set but no witnesses present")
        else
          lock_time ← consensus_decode u32_codec;
          mret (mkBtcTransaction version lock_time input output)
      else throw (UnsupportedSegwitFlag segwit_flag)
  | _ =>
      output ← consensus_decode outputs_codec;
      lock_time ← consensus_decode u32_codec;
      mret (mkBtcTransaction version lock_time input output)
  end.

Definition transaction_codec : Codec BtcTransaction := mkCodec encode_transaction decode_transaction.

(** [serialize] and [deserialize], which leaves no byte *)
Definition btc_serialize {A} (c : Codec A) (data : A) : list Z := consensus_encode c data.

Definition btc_deserialize {A} (c : Codec A) (data : list Z) : result BtcError A :=
  match consensus_decode c data with
  | (Ok rv, []) => Ok rv
  | (Ok _, _) => Err (ParseFailed "data not consumed entirely when explicitly deserializing")
  | (Err e, _) => Err e
  | (Panic, _) => Panic
  end.

(** [Sha256dHash::from_data], and [txid], which leaves the witnesses out *)
Definition sha256d `{Sha256} (data : list Z) : list Z := sha256 (sha256 data).

Definition txid `{Sha256} (tx : BtcTransaction) : list Z :=
  sha256d (consensus_encode u32_codec (tx_version tx) ++ consensus_encode inputs_codec (input tx) ++
           consensus_encode outputs_codec (output tx) ++ consensus_encode u32_codec (lock_time tx)).

(** ** Lawful codecs *)

(** The reader accepts exactly the encodings of the valid values. *)
Record lawful {A} (c : Codec A) (valid : A -> Prop) : Prop := {
  encode_ok a : valid a -> bytes_ok (consensus_encode c a);
  decode_iff bs a rest :
    bytes_ok bs ->
    consensus_decode c bs = (Ok a, rest) <-> bs = consensus_encode c a ++ rest /\ valid a;
}.

(** Reading a value and going on *)
Lemma decode_bind {A B} (c : Codec A) valid (k : A -> BtcM B) bs b rest :
  lawful c valid -> bytes_ok bs ->
  (consensus_decode c ≫= k) bs = (Ok b, rest) <->
  exists a bs', bs = consensus_encode c a ++ bs' /\ valid a /\ bytes_ok bs' /\ k a bs' = (Ok b, rest).
Proof.
  intros Hc Hbs. split.
  - intros (a & bs' & Ha & Hk)%M_bind_Ok.
    apply (decode_iff _ _ Hc) in Ha as [-> Hv]; [| done].
    apply Forall_app in Hbs as [_ Hbs']. by exists a, bs'.
  - intros (a & bs' & -> & Hv & _ & Hk).
    rewrite (M_bind_eval _ _ _ a bs'); [done |]. by apply (decode_iff _ _ Hc).
Qed.

Lemma decode_encode {A} (c : Codec A) valid a rest :
  lawful c valid -> valid a -> bytes_ok rest ->
  consensus_decode c (consensus_encode c a ++ rest) = (Ok a, rest).
Proof.
  intros Hc Hv Hr. apply (decode_iff _ _ Hc); [| done].
  apply Forall_app_2; [by apply (encode_ok _ _ Hc) | done].
Qed.

Lemma mret_iff {S E A} (a b : A) (s s' : S) : (mret a : M S E A) s = (Ok b, s') <-> b = a /\ s' = s.
Proof. unfold mret, M_ret. split; [by intros [= -> ->] | by intros [-> ->]]. Qed.

Lemma throw_iff {S E A} (e : E) (b : A) (s s' : S) : (throw e : M S E A) s = (Ok b, s') <-> False.
Proof. by unfold throw. Qed.

Lemma bytes_ok_rev bs : bytes_ok (rev bs) <-> bytes_ok bs.
Proof.
  split; intros H; [rewrite <- (rev_involutive bs) |]; by apply Forall_rev.
Qed.

Definition is_uint (n : nat) (z : Z) : Prop := 0 <= z < 256 ^ Z.of_nat n.

Lemma int_lawful n : lawful (int_codec n) (is_uint n).
Proof.
  split.
  - intros z _. cbn. unfold to_le_bytes. apply bytes_ok_rev, to_be_bytes_ok.
  - intros bs z rest Hbs. cbn [int_codec consensus_decode consensus_encode].
    unfold btc_read, mbind, M_bind, to_le_bytes, from_le_bytes.
    destruct (Nat.ltb_spec (length bs) n) as [Hlt | Hge].
    + split; [done |]. intros [-> _].
      rewrite length_app, length_rev, length_to_be_bytes in Hlt. lia.
    + rewrite <- (take_drop n bs) in Hbs. apply Forall_app in Hbs as [Ht _].
      unfold mret, M_ret. split.
      * intros [= <- <-]. assert (Hlen : length (rev (take n bs)) = n)
          by (rewrite length_rev, length_take; lia).
        apply bytes_ok_rev in Ht.
        pose proof (from_be_bytes_bound _ Ht) as Hb. pose proof (to_from_be_bytes _ Ht) as Hinv.
        rewrite Hlen in Hb, Hinv. rewrite Hinv, rev_involutive, take_drop. done.
      * intros [-> Hz]. rewrite take_app_length', drop_app_length'
          by (by rewrite length_rev, length_to_be_bytes).
        by rewrite rev_involutive, from_to_be_bytes.
Qed.

Lemma minimal_iff n lo bs x rest :
  bytes_ok bs ->
  (y ← consensus_decode (int_codec n); if y <? lo then throw non_minimal else mret y) bs = (Ok x, rest) <->
  bs = consensus_encode (int_codec n) x ++ rest /\ is_uint n x /\ lo <= x.
Proof.
  intros Hbs. rewrite (decode_bind _ _ _ _ _ _ (int_lawful n)) by done. split.
  - intros (y & bs' & -> & Hy & _ & Hk). destruct (Z.ltb_spec y lo); [done |].
    apply mret_iff in Hk as [-> ->]. done.
  - intros (-> & Hx & Hlo). apply Forall_app in Hbs as [_ Hrest].
    exists x, rest. split_and!; [done | done | done |].
    destruct (Z.ltb_spec x lo); [lia |]. by apply mret_iff.
Qed.

Lemma varint_lawful : lawful varint_codec is_u64.
Proof.
  split.
  - intros x _. cbn [varint_codec consensus_encode].
    repeat case_match; try (apply Forall_cons_2; [unfold is_byte; lia |]);
      apply bytes_ok_rev, to_be_bytes_ok.
  - intros bs x rest Hbs. cbn [varint_codec consensus_decode consensus_encode].
    unfold u8_codec, u16_codec, u32_codec, u64_codec.
    rewrite (decode_bind _ _ _ _ _ _ (int_lawful 1)) by done. split.
    + intros (n & bs' & -> & Hn & Hbs' & Hk). unfold is_uint in Hn.
      destruct (Z.eqb_spec n 255) as [-> |]; [| destruct (Z.eqb_spec n 254) as [-> |];
        [| destruct (Z.eqb_spec n 253) as [-> |]]].
      1-3: apply minimal_iff in Hk as (-> & Hx & Hlo); [| done]; unfold is_uint, is_u64, u64_max in *;
        repeat case_match; try lia; (split; [done | lia]).
      apply mret_iff in Hk as [-> ->]. unfold is_u64, u64_max.
      destruct (Z.leb_spec n 0xFC); [split; [done | lia] | lia].
    + unfold is_u64, u64_max. intros [-> Hx].
      destruct (Z.leb_spec x 0xFC); [| destruct (Z.leb_spec x 0xFFFF);
        [| destruct (Z.leb_spec x 0xFFFFFFFF)]].
      1: exists x, rest.
      2: exists 0xFD, (consensus_encode (int_codec 2) x ++ rest).
      3: exists 0xFE, (consensus_encode (int_codec 4) x ++ rest).
      4: exists 0xFF, (consensus_encode (int_codec 8) x ++ rest).
      2-4: apply Forall_cons in Hbs as [_ Hbs]; split_and!; [done | by unfold is_uint; cbn; lia | done |];
        cbn [Z.eqb Pos.eqb]; apply minimal_iff; [done |]; unfold is_uint; split_and!; [done | lia..].
      apply Forall_app in Hbs as [_ Hbs]. split_and!; [done | unfold is_uint; lia | done |].
      repeat case_match; try lia. by apply mret_iff.
Qed.

Section Items.
Context {A : Type} (c : Codec A) (valid : A -> Prop) (Hc : lawful c valid).

Lemma items_ok xs : Forall valid xs -> bytes_ok (mjoin (consensus_encode c <$> xs)).
Proof.
  induction 1 as [| x xs Hx _ IH]; [constructor |].
  apply Forall_app_2; [by apply (encode_ok _ _ Hc) | done].
Qed.

Lemma items_iff n bs xs rest :
  bytes_ok bs ->
  decode_items c n bs = (Ok xs, rest) <->
  bs = mjoin (consensus_encode c <$> xs) ++ rest /\ length xs = n /\ Forall valid xs.
Proof.
  revert bs xs. induction n as [| n IH]; intros bs xs Hbs; cbn [decode_items].
  - rewrite mret_iff. split; [intros [-> ->] | intros (-> & Hlen & _)].
    + split_and!; [done | done | constructor].
    + by apply nil_length_inv in Hlen as ->.
  - rewrite (decode_bind _ _ _ _ _ _ Hc) by done. split.
    + intros (x & bs' & -> & Hx & Hbs' & Hk).
      apply M_bind_Ok in Hk as (ys & s & Hys & [-> ->]%mret_iff).
      apply IH in Hys as (-> & <- & Hys); [| done].
      split_and!; [by cbn; rewrite (assoc_L (++)) | done | by constructor].
    + intros (-> & Hlen & Hv). destruct xs as [| x xs]; [done |].
      apply Forall_cons in Hv as [Hx Hxs]. injection Hlen as <-. cbn in Hbs |- *.
      rewrite <- (assoc_L (++)) in Hbs |- *.
      pose proof (proj2 (proj1 (Forall_app _ _ _) Hbs)) as Hbs'.
      exists x, (mjoin (consensus_encode c <$> xs) ++ rest). split_and!; [done | done | done |].
      rewrite (M_bind_eval _ _ _ xs rest); [done |]. by apply IH.
Qed.

(** What a vector may hold when its elements occupy [size] bytes *)
Definition vec_valid (size : Z) (xs : list A) : Prop := zlen xs * size <= MAX_VEC_SIZE /\ Forall valid xs.

Lemma encode_items_ok xs : Forall valid xs -> bytes_ok (encode_items c xs).
Proof.
  intros Hxs. apply Forall_app_2; [| by apply items_ok].
  cbn [varint_codec consensus_encode].
  repeat case_match; try (apply Forall_cons_2; [unfold is_byte; lia |]); apply bytes_ok_rev, to_be_bytes_ok.
Qed.

Lemma sized_items_iff (guard : Z -> BtcM unit) (size : Z) bs xs rest :
  0 < size ->
  (forall len s s', is_u64 len -> guard len s = (Ok tt, s') <-> len * size <= MAX_VEC_SIZE /\ s' = s) ->
  bytes_ok bs ->
  (len ← consensus_decode varint_codec; guard len;; decode_items c (Z.to_nat len)) bs = (Ok xs, rest) <->
  bs = encode_items c xs ++ rest /\ vec_valid size xs.
Proof.
  intros Hsize Hguard Hbs. unfold encode_items, vec_valid.
  rewrite (decode_bind _ _ _ _ _ _ varint_lawful) by done. split.
  - intros (len & bs' & -> & Hlen & Hbs' & Hk).
    apply M_bind_Ok in Hk as ([] & s & [Hle ->]%Hguard & Hk); [| done].
    apply items_iff in Hk as (-> & Hl & Hxs); [| done].
    replace (zlen xs) with len by (unfold zlen, is_u64 in *; lia).
    by rewrite (assoc_L (++)).
  - intros (-> & Hle & Hxs). rewrite <- (assoc_L (++)) in Hbs |- *.
    pose proof (proj2 (proj1 (Forall_app _ _ _) Hbs)) as Hbs'.
    assert (Hlen : is_u64 (zlen xs)) by (unfold is_u64, u64_max, zlen, MAX_VEC_SIZE in *; nia).
    exists (zlen xs), (mjoin (consensus_encode c <$> xs) ++ rest). split_and!; [done | done | done |].
    rewrite (M_bind_eval _ _ _ tt (mjoin (consensus_encode c <$> xs) ++ rest)) by (by apply Hguard).
    apply items_iff; [done |]. split_and!; [done | unfold zlen; lia | done].
Qed.

Lemma vec_lawful size : 0 < size -> lawful (vec_codec size c) (vec_valid size).
Proof.
  intros Hsize. split; [by intros xs [_ Hxs]; apply encode_items_ok |].
  intros bs xs rest Hbs. cbn [vec_codec consensus_decode consensus_encode].
  rewrite <- (sized_items_iff (fun len =>
      byte_size ← lift (ok_or (checked 0 u64_max (len * size)) (ParseFailed "Invalid length"));
      ensure (byte_size <=? MAX_VEC_SIZE) (OversizedVectorAllocation byte_size MAX_VEC_SIZE))
    size bs xs rest); [| done | | done].
  - erewrite M_bind_ext; [done |]. intros len s. symmetry. apply M_bind_assoc.
  - intros len s s' Hlen. destruct (checked 0 u64_max (len * size)) as [z |] eqn:Hz.
    + apply checked_Some in Hz as [-> Hz].
      rewrite (M_bind_eval _ _ _ (len * size) s) by done. by rewrite ensure_Ok, Z.leb_le.
    + apply checked_None in Hz. unfold is_u64, u64_max, MAX_VEC_SIZE in *. split; [done | nia].
Qed.

Lemma boxed_lawful : lawful (boxed_codec c) (vec_valid 1).
Proof.
  split; [by intros xs [_ Hxs]; apply encode_items_ok |].
  intros bs xs rest Hbs. cbn [boxed_codec consensus_decode consensus_encode].
  apply sized_items_iff; [lia | | done].
  intros len s s' _. rewrite ensure_Ok, Z.leb_le, Z.mul_1_r. done.
Qed.
End Items.

Definition hash_valid (h : list Z) : Prop := length h = 32%nat /\ Forall (is_uint 1) h.

Lemma hash_lawful : lawful hash_codec hash_valid.
Proof.
  split; [by intros h [_ Hh]; apply (items_ok _ _ (int_lawful 1)) |].
  intros bs h rest Hbs. by apply (items_iff _ _ (int_lawful 1)).
Qed.

Definition script_valid : list Z -> Prop := vec_valid (is_uint 1) 1.

Lemma script_lawful : lawful script_codec script_valid.
Proof. apply boxed_lawful, int_lawful. Qed.

Lemma u8_lawful : lawful u8_codec (is_uint 1).
Proof. apply int_lawful. Qed.
Lemma u32_lawful : lawful u32_codec (is_uint 4).
Proof. apply int_lawful. Qed.
Lemma u64_lawful : lawful u64_codec (is_uint 8).
Proof. apply int_lawful. Qed.

Lemma bytes_ok_app_iff bs bs' : bytes_ok (bs ++ bs') <-> bytes_ok bs /\ bytes_ok bs'.
Proof. apply Forall_app. Qed.

Lemma bytes_ok_app bs bs' : bytes_ok bs -> bytes_ok bs' -> bytes_ok (bs ++ bs').
Proof. apply Forall_app_2. Qed.

Create HintDb codec.
#[local] Hint Resolve u8_lawful u32_lawful u64_lawful hash_lawful script_lawful encode_ok bytes_ok_app : codec.

(** Follow a reader on a successful run. *)
Ltac codec_read H :=
  repeat (eapply decode_bind in H as (? & ? & -> & ? & ? & H); [| solve [eauto 2 with codec] | done]);
  apply mret_iff in H as [-> ->].

(** Run a reader on what the writer wrote. *)
Ltac codec_write :=
  repeat (rewrite <- (assoc_L (++)));
  repeat (erewrite M_bind_eval;
    [| eapply decode_encode; [solve [eauto 2 with codec] | done | solve [eauto 8 with codec]]]).

Definition outpoint_valid (o : OutPoint) : Prop := hash_valid (op_txid o) /\ is_uint 4 (op_vout o).

Lemma outpoint_lawful : lawful outpoint_codec outpoint_valid.
Proof.
  split.
  - intros o [Ht Hv]. apply bytes_ok_app; eauto with codec.
  - intros bs o rest Hbs. cbn [outpoint_codec consensus_decode consensus_encode]. split.
    + intros Hk. codec_read Hk. by rewrite (assoc_L (++)).
    + intros (-> & Ht & Hv). apply Forall_app in Hbs as [_ Hrest].
      codec_write. by destruct o.
Qed.

Definition txout_valid (o : TxOut) : Prop := is_uint 8 (tx_value o) /\ script_valid (script_pubkey o).

Lemma txout_lawful : lawful txout_codec txout_valid.
Proof.
  split.
  - intros o [Ht Hv]. apply bytes_ok_app; eauto with codec.
  - intros bs o rest Hbs. cbn [txout_codec consensus_decode consensus_encode]. split.
    + intros Hk. codec_read Hk. by rewrite (assoc_L (++)).
    + intros (-> & Ht & Hv). apply Forall_app in Hbs as [_ Hrest].
      codec_write. by destruct o.
Qed.

Definition txin_valid (i : TxIn) : Prop :=
  outpoint_valid (previous_output i) /\ script_valid (script_sig i) /\ is_uint 4 (tx_sequence i).

#[local] Hint Resolve outpoint_lawful txout_lawful : codec.

Lemma txin_lawful : lawful txin_codec (fun i => txin_valid i /\ witness i = []).
Proof.
  split.
  - intros i [(Ho & Hs & Hq) _]. apply bytes_ok_app; eauto with codec.
  - intros bs i rest Hbs. cbn [txin_codec consensus_decode consensus_encode]. split.
    + intros Hk. codec_read Hk. split; [by rewrite !(assoc_L (++)) | done].
    + intros (-> & (Ho & Hs & Hq) & Hw). apply Forall_app in Hbs as [_ Hrest].
      codec_write. destruct i as [o s q w]. cbn in Hw. by subst w.
Qed.

Definition witness_valid : list (list Z) -> Prop :=
  vec_valid (vec_valid (is_uint 1) 1) size_of_vec.

Lemma inputs_lawful : lawful inputs_codec (vec_valid (fun i => txin_valid i /\ witness i = []) size_of_txin).
Proof. apply vec_lawful; [apply txin_lawful | done]. Qed.
Lemma outputs_lawful : lawful outputs_codec (vec_valid txout_valid size_of_txout).
Proof. apply vec_lawful; [apply txout_lawful | done]. Qed.
Lemma witness_lawful : lawful witness_codec witness_valid.
Proof. apply vec_lawful; [| done]. apply vec_lawful; [apply int_lawful | done]. Qed.

#[local] Hint Resolve inputs_lawful outputs_lawful witness_lawful : codec.

(** ** Witnesses *)

Definition without_witness (i : TxIn) : TxIn := set_witness i [].

Lemma decode_witnesses_iff inputs bs inputs' rest :
  bytes_ok bs ->
  decode_witnesses inputs bs = (Ok inputs', rest) <->
  bs = mjoin ((fun i => consensus_encode witness_codec (witness i)) <$> inputs') ++ rest /\
  Forall (fun i => witness_valid (witness i)) inputs' /\
  without_witness <$> inputs' = without_witness <$> inputs.
Proof.
  revert bs inputs'. induction inputs as [| i inputs IH]; intros bs inputs' Hbs; cbn [decode_witnesses].
  - rewrite mret_iff. split; [by intros [-> ->] |].
    intros (-> & _ & Hl). by apply fmap_nil_inv in Hl as ->.
  - rewrite (decode_bind _ _ _ _ _ _ witness_lawful) by done. split.
    + intros (w & bs' & -> & Hw & Hbs' & Hk).
      apply M_bind_Ok in Hk as (ys & s & Hys & [-> ->]%mret_iff).
      apply IH in Hys as (-> & Hv & Hl); [| done].
      split_and!; [by cbn; rewrite (assoc_L (++)) | by constructor | by cbn; rewrite Hl].
    + intros (-> & Hv & Hl). destruct inputs' as [| i' inputs']; [done |].
      apply Forall_cons in Hv as [Hw Hv]. cbn in Hbs, Hl |- *. injection Hl as E1 E2 E3 Hl.
      rewrite <- (assoc_L (++)) in Hbs |- *.
      pose proof (proj2 (proj1 (Forall_app _ _ _) Hbs)) as Hbs'.
      eexists (witness i'), _. split_and!; [done | done | done |].
      rewrite (M_bind_eval _ _ _ inputs' rest) by (by apply IH).
      destruct i as [o s q w], i' as [o' s' q' w']. cbn in *. by subst.
Qed.

Lemma encode_without_witness inputs :
  consensus_encode inputs_codec (without_witness <$> inputs) = consensus_encode inputs_codec inputs.
Proof.
  cbn [inputs_codec vec_codec consensus_encode]. unfold encode_items, zlen.
  rewrite length_fmap. f_equal. f_equal. rewrite <- list_fmap_compose. by apply list_fmap_ext.
Qed.

Definition transaction_valid (tx : BtcTransaction) : Prop :=
  is_uint 4 (tx_version tx) /\ is_uint 4 (lock_time tx) /\
  vec_valid txin_valid size_of_txin (input tx) /\ vec_valid txout_valid size_of_txout (output tx) /\
  Forall (fun i => witness_valid (witness i)) (input tx).

Lemma no_witness_iff inputs :
  existsb has_witness inputs = false <-> Forall (fun i => witness i = []) inputs.
Proof.
  induction inputs as [| i inputs IH]; [done |]. cbn [existsb].
  rewrite orb_false_iff, Forall_cons, IH. f_equiv. unfold has_witness. by destruct (witness i).
Qed.

Lemma forallb_no_witness inputs :
  forallb (fun i => negb (has_witness i)) inputs = negb (existsb has_witness inputs).
Proof. induction inputs as [| i inputs IH]; cbn; [done |]. by rewrite IH, negb_orb. Qed.

Lemma inputs_split size inputs :
  vec_valid (fun i => txin_valid i /\ witness i = []) size inputs <->
  vec_valid txin_valid size inputs /\ Forall (fun i => witness i = []) inputs.
Proof. unfold vec_valid. rewrite Forall_and. naive_solver. Qed.

Lemma stripped_valid size inputs :
  vec_valid (fun i => txin_valid i /\ witness i = []) size (without_witness <$> inputs) <->
  vec_valid txin_valid size inputs.
Proof.
  unfold vec_valid, zlen. rewrite length_fmap, Forall_fmap. f_equiv.
  apply Forall_iff. intros i. cbn. split; [by intros [Hi _] | done].
Qed.

Lemma stripped_id inputs :
  Forall (fun i => witness i = []) inputs -> without_witness <$> inputs = inputs.
Proof.
  induction 1 as [| [o s q w] inputs Hw _ IH]; [done |]. cbn in Hw |- *. rewrite IH. by subst w.
Qed.

Lemma witness_valid_nil : witness_valid [].
Proof. by split; [| constructor]. Qed.

(** The rest of a transaction, after the inputs of one without witnesses and
    after the flag of one with *)
Lemma legacy_iff version inputs bs tx rest :
  bytes_ok bs ->
  (output ← consensus_decode outputs_codec; lock_time ← consensus_decode u32_codec;
   mret (mkBtcTransaction version lock_time inputs output)) bs = (Ok tx, rest) <->
  bs = consensus_encode outputs_codec (output tx) ++ consensus_encode u32_codec (lock_time tx) ++ rest /\
  tx_version tx = version /\ input tx = inputs /\
  vec_valid txout_valid size_of_txout (output tx) /\ is_uint 4 (lock_time tx).
Proof.
  intros Hbs. split.
  - intros Hk. codec_read Hk. done.
  - intros (-> & <- & <- & Ho & Hl). rewrite !bytes_ok_app_iff in Hbs. destruct Hbs as (_ & _ & Hrest).
    codec_write. by destruct tx.
Qed.

Lemma segwit_iff version bs tx rest :
  bytes_ok bs -> input tx <> [] ->
  (input ← consensus_decode inputs_codec; output ← consensus_decode outputs_codec;
   input ← decode_witnesses input;
   if negb (is_empty input) && forallb (fun i => negb (has_witness i)) input
   then throw (ParseFailed "witness flag set but no witnesses present")
   else lock_time ← consensus_decode u32_codec;
        mret (mkBtcTransaction version lock_time input output)) bs = (Ok tx, rest) <->
  bs = consensus_encode inputs_codec (input tx) ++ consensus_encode outputs_codec (output tx) ++
       mjoin ((fun i => consensus_encode witness_codec (witness i)) <$> input tx) ++
       consensus_encode u32_codec (lock_time tx) ++ rest /\
  tx_version tx = version /\ existsb has_witness (input tx) = true /\
  transaction_valid (mkBtcTransaction 0 (lock_time tx) (input tx) (output tx)).
Proof.
  intros Hbs Hne. unfold transaction_valid. cbn [tx_version lock_time input output]. split.
  - intros Hk.
    apply (decode_bind _ _ _ _ _ _ inputs_lawful) in Hk as (ins & bs1 & -> & Hi & Hbs1 & Hk); [| done].
    apply (decode_bind _ _ _ _ _ _ outputs_lawful) in Hk as (os & bs2 & -> & Ho & Hbs2 & Hk); [| done].
    apply M_bind_Ok in Hk as (ins' & bs3 & (-> & Hw & Hstrip)%decode_witnesses_iff & Hk); [| done].
    apply Forall_app in Hbs2 as [_ Hbs3]. rewrite forallb_no_witness in Hk.
    pose proof (proj2 (proj1 (inputs_split _ _) Hi)) as Hnil. rewrite (stripped_id _ Hnil) in Hstrip.
    subst ins. apply stripped_valid in Hi. rewrite encode_without_witness.
    destruct (existsb has_witness ins') eqn:He; [rewrite andb_false_r in Hk |].
    + codec_read Hk. done.
    + destruct ins'; [| done]. codec_read Hk. by destruct Hne.
  - intros (-> & <- & He & _ & Hl & Hi & Ho & Hw).
    rewrite !bytes_ok_app_iff in Hbs. destruct Hbs as (_ & _ & Hwit & _ & Hrest).
    rewrite <- encode_without_witness. apply stripped_valid in Hi. codec_write.
    rewrite (M_bind_eval _ _ _ (input tx) (consensus_encode u32_codec (lock_time tx) ++ rest)).
    + rewrite forallb_no_witness, He, andb_false_r. codec_write. by destruct tx.
    + apply decode_witnesses_iff; [eauto with codec |]. split_and!; [done | done |].
      rewrite <- list_fmap_compose. done.
Qed.

Lemma decode_transaction_iff bs tx rest :
  bytes_ok bs -> input tx <> [] ->
  decode_transaction bs = (Ok tx, rest) <-> bs = encode_transaction tx ++ rest /\ transaction_valid tx.
Proof.
  intros Hbs Hne. unfold decode_transaction, encode_transaction, transaction_valid. split.
  - intros Hk.
    apply (decode_bind _ _ _ _ _ _ u32_lawful) in Hk as (v & bs1 & -> & Hv & Hbs1 & Hk); [| done].
    apply (decode_bind _ _ _ _ _ _ inputs_lawful) in Hk as (ins & bs2 & -> & Hi & Hbs2 & Hk); [| done].
    destruct ins as [| i ins].
    + apply (decode_bind _ _ _ _ _ _ u8_lawful) in Hk as (flag & bs3 & -> & Hf & Hbs3 & Hk); [| done].
      destruct (Z.eqb_spec flag 0) as [-> |]; [codec_read Hk; by destruct Hne |].
      destruct (Z.eqb_spec flag 1) as [-> |]; [| done].
      apply segwit_iff in Hk as (-> & <- & -> & _ & Hrest); [| done | done].
      cbn [negb]. split; [by rewrite <- !(assoc_L (++)) | done].
    + apply legacy_iff in Hk as (-> & <- & Hin & Ho & Hl); [| done]. rewrite Hin.
      apply inputs_split in Hi as [Hi Hnil].
      rewrite (proj2 (no_witness_iff _) Hnil). cbn [negb].
      split; [by rewrite <- !(assoc_L (++)) |]. split_and!; try done.
      apply (Forall_impl _ _ _ Hnil). intros j ->. apply witness_valid_nil.
  - intros (-> & Hv & Hl & Hi & Ho & Hw). pose proof Hbs as Hbs'.
    rewrite bytes_ok_app_iff in Hbs'. destruct Hbs' as [_ Hrest].
    rewrite <- !(assoc_L (++)) in Hbs |- *.
    destruct (existsb has_witness (input tx)) eqn:He; cbn [negb] in *.
    + rewrite <- !(assoc_L (++)) in Hbs |- *. rewrite !bytes_ok_app_iff in Hbs.
      destruct Hbs as (? & ? & ? & ? & ? & ? & ? & ?).
      change (consensus_encode u8_codec 0) with (consensus_encode inputs_codec []) in *.
      assert (is_uint 1 1) by done.
      assert (vec_valid (fun i => txin_valid i /\ witness i = []) size_of_txin []) by (by split).
      codec_write. cbv beta match. codec_write.
      cbn [Z.eqb Pos.eqb]. apply segwit_iff; [eauto 8 with codec | done |].
      done.
    + rewrite <- !(assoc_L (++)) in Hbs |- *. rewrite !bytes_ok_app_iff in Hbs.
      destruct Hbs as (? & ? & ? & ? & ?).
      apply no_witness_iff in He. pose proof (proj2 (inputs_split _ _) (conj Hi He)) as Hi'.
      codec_write. destruct (input tx) as [| i ins] eqn:Hin; [done |].
      rewrite <- Hin in *. apply legacy_iff; [eauto 8 with codec | done].
Qed.


Definition sample_transaction : BtcTransaction :=
  mkBtcTransaction 2 0
    [mkTxIn (mkOutPoint (repeat 7 32) 1) [] 4294967295 [[1; 2; 3]; []]]
    [mkTxOut 5000000000 [118; 169; 20]].

