(* ===== verification/STXBalance.v ===== *)
(** * STX balances

    The [STXBalance] enum of [clarity/src/vm/database/structures.rs]: an amount
    of unlocked tokens and, for accounts that stack, an amount locked by one of
    the five PoX contracts until a burn block height.  Locks expire lazily: the
    stored value is only rewritten to its canonical form when the account is
    touched.  The theorems say that this is unobservable (the available, locked
    and total amounts are those of the canonical form), that canonicalization
    conserves the total, and that the storage format round trips. *)

From S2P Require Import Prelude.
From S2P Require Import Bytes.
From S2P Require Import Epochs.
From S2P Require Import Values.

Inductive STXBalance :=
| Unlocked (amount : Z)
| LockedPoxOne (amount_unlocked amount_locked unlock_height : Z)
| LockedPoxTwo (amount_unlocked amount_locked unlock_height : Z)
| LockedPoxThree (amount_unlocked amount_locked unlock_height : Z)
| LockedPoxFour (amount_unlocked amount_locked unlock_height : Z)
| LockedPoxFive (amount_unlocked amount_locked unlock_height : Z).

#[export] Instance STXBalance_eq_dec : EqDecision STXBalance.
Proof. solve_decision. Defined.

Definition unlocked_and_v1_size : nat := 40.
Definition v2_to_v4_size : nat := 41.
Definition pox_2_version : Z := 0.
Definition pox_3_version : Z := 1.
Definition pox_4_version : Z := 2.
Definition pox_5_version : Z := 3.

Definition zero : STXBalance := Unlocked 0.
Definition initial (amount : Z) : STXBalance := Unlocked amount.

(** ** Lazy views *)

Definition unlock_height (b : STXBalance) : Z :=
  match b with
  | Unlocked _ => 0
  | LockedPoxOne _ _ h | LockedPoxTwo _ _ h | LockedPoxThree _ _ h
  | LockedPoxFour _ _ h | LockedPoxFive _ _ h => h
  end.

Definition amount_locked (b : STXBalance) : Z :=
  match b with
  | Unlocked _ => 0
  | LockedPoxOne _ l _ | LockedPoxTwo _ l _ | LockedPoxThree _ l _
  | LockedPoxFour _ l _ | LockedPoxFive _ l _ => l
  end.

Definition amount_unlocked (b : STXBalance) : Z :=
  match b with
  | Unlocked u => u
  | LockedPoxOne u _ _ | LockedPoxTwo u _ _ | LockedPoxThree u _ _
  | LockedPoxFour u _ _ | LockedPoxFive u _ _ => u
  end.

Definition set_amount_unlocked (u : Z) (b : STXBalance) : STXBalance :=
  match b with
  | Unlocked _ => Unlocked u
  | LockedPoxOne _ l h => LockedPoxOne u l h
  | LockedPoxTwo _ l h => LockedPoxTwo u l h
  | LockedPoxThree _ l h => LockedPoxThree u l h
  | LockedPoxFour _ l h => LockedPoxFour u l h
  | LockedPoxFive _ l h => LockedPoxFive u l h
  end.

Definition err_expect (s : string) : VmExecutionError := Internal (VI_Expect s).

(** [debit_unlocked_amount] and [checked_add_unlocked_amount], on the balance
    they mutate *)
Definition debit_unlocked_amount (delta : Z) : M STXBalance VmExecutionError unit := fun b =>
  match u128_checked_sub (amount_unlocked b) delta with
  | Some u => (Ok tt, set_amount_unlocked u b)
  | None => (Err (err_expect "STX underflow"), b)
  end.

Definition checked_add_unlocked_amount (delta : Z) (b : STXBalance)
    : option Z * STXBalance :=
  match u128_checked_add (amount_unlocked b) delta with
  | Some new_amount => (Some new_amount, set_amount_unlocked new_amount b)
  | None => (None, b)
  end.

Definition get_total_balance (b : STXBalance) : result VmExecutionError Z :=
  let '(unlocked, locked) :=
    match b with
    | Unlocked amount => (amount, 0)
    | LockedPoxOne u l _ | LockedPoxTwo u l _ | LockedPoxThree u l _
    | LockedPoxFour u l _ | LockedPoxFive u l _ => (u, l)
    end in
  ok_or (u128_checked_add unlocked locked) (err_expect "STX overflow").

Definition was_locked_by_v1 (b : STXBalance) : bool :=
  match b with LockedPoxOne _ _ _ => true | _ => false end.
Definition was_locked_by_v2 (b : STXBalance) : bool :=
  match b with LockedPoxTwo _ _ _ => true | _ => false end.
Definition was_locked_by_v3 (b : STXBalance) : bool :=
  match b with LockedPoxThree _ _ _ => true | _ => false end.

(** ** Views at a burn block height

    [v1] .. [v4] are the heights at which the locks of PoX-1 .. PoX-4 are
    released early. *)
Section AtBurnBlock.
Variables (burn_block_height v1 v2 v3 v4 : Z).

Definition effective_unlock_height (b : STXBalance) : Z :=
  match b with
  | Unlocked _ => 0
  | LockedPoxOne _ _ h => if v1 <=? h then v1 else h
  | LockedPoxTwo _ _ h => if v2 <=? h then v2 else h
  | LockedPoxThree _ _ h => if v3 <=? h then v3 else h
  | LockedPoxFour _ _ h => if v4 <=? h then v4 else h
  | LockedPoxFive _ _ h => h
  end.

Definition has_locked_tokens_at_burn_block (b : STXBalance) : bool :=
  match b with
  | Unlocked _ => false
  | LockedPoxOne _ l h =>
      if l =? 0 then false
      else if h <=? burn_block_height then false
      else if v1 <=? burn_block_height then false
      else true
  | LockedPoxTwo _ l h =>
      if l =? 0 then false
      else if h <=? burn_block_height then false
      else if v2 <=? burn_block_height then false
      else true
  | LockedPoxThree _ l h =>
      if l =? 0 then false
      else if h <=? burn_block_height then false
      else if v3 <=? burn_block_height then false
      else true
  | LockedPoxFour _ l h =>
      if l =? 0 then false
      else if h <=? burn_block_height then false
      else if v4 <=? burn_block_height then false
      else true
  | LockedPoxFive _ l h =>
      if l =? 0 then false
      else if h <=? burn_block_height then false
      else true
  end.

Definition has_unlockable_tokens_at_burn_block (b : STXBalance) : bool :=
  match b with
  | Unlocked _ => false
  | LockedPoxOne _ l h =>
      if l =? 0 then false
      else if h <=? burn_block_height then true
      else if v1 <=? burn_block_height then true
      else false
  | LockedPoxTwo _ l h =>
      if l =? 0 then false
      else if h <=? burn_block_height then true
      else if v2 <=? burn_block_height then true
      else false
  | LockedPoxThree _ l h =>
      if l =? 0 then false
      else if h <=? burn_block_height then true
      else if v3 <=? burn_block_height then true
      else false
  | LockedPoxFour _ l h =>
      if l =? 0 then false
      else if h <=? burn_block_height then true
      else if v4 <=? burn_block_height then true
      else false
  | LockedPoxFive _ l h =>
      if l =? 0 then false
      else if h <=? burn_block_height then true
      else false
  end.

Definition canonical_repr_at_block (b : STXBalance)
    : result VmExecutionError (STXBalance * Z) :=
  if has_unlockable_tokens_at_burn_block b then
    amount ← get_total_balance b;
    mret (Unlocked amount, amount_locked b)
  else mret (b, 0).

Definition get_available_balance_at_burn_block (b : STXBalance)
    : result VmExecutionError Z :=
  if has_unlockable_tokens_at_burn_block b then get_total_balance b
  else
    mret (match b with
          | Unlocked amount => amount
          | LockedPoxOne u _ _ | LockedPoxTwo u _ _ | LockedPoxThree u _ _
          | LockedPoxFour u _ _ | LockedPoxFive u _ _ => u
          end).

Definition get_locked_balance_at_burn_block (b : STXBalance) : Z * Z :=
  if has_unlockable_tokens_at_burn_block b then (0, 0)
  else
    match b with
    | Unlocked _ => (0, 0)
    | LockedPoxOne _ l h | LockedPoxTwo _ l h | LockedPoxThree _ l h
    | LockedPoxFour _ l h | LockedPoxFive _ l h => (l, h)
    end.

Definition can_transfer_at_burn_block (amount : Z) (b : STXBalance)
    : result VmExecutionError bool :=
  available ← get_available_balance_at_burn_block b;
  mret (amount <=? available).
End AtBurnBlock.

(** ** Storage format *)

Definition balance_bytes (amount_unlocked amount_locked unlock_height : Z) : list Z :=
  to_be_bytes 16 amount_unlocked ++ to_be_bytes 16 amount_locked ++ to_be_bytes 8 unlock_height.

Definition stx_serialize (b : STXBalance) : string :=
  to_hex (match b with
          | Unlocked amount => balance_bytes amount 0 0
          | LockedPoxOne u l h => balance_bytes u l h
          | LockedPoxTwo u l h => [pox_2_version] ++ balance_bytes u l h
          | LockedPoxThree u l h => [pox_3_version] ++ balance_bytes u l h
          | LockedPoxFour u l h => [pox_4_version] ++ balance_bytes u l h
          | LockedPoxFive u l h => [pox_5_version] ++ balance_bytes u l h
          end).

(** [bytes[lo..hi]] *)
Definition slice {A} (lo hi : nat) (l : list A) : list A := take (hi - lo) (drop lo l).

Definition stx_deserialize (input : string) : result VmExecutionError STXBalance :=
  bytes ← map_err (fun _ => err_expect "STXBalance deserialization: failed decoding bytes.")
            (hex_bytes input);
  if Nat.eqb (length bytes) unlocked_and_v1_size then
    let amount_unlocked := from_be_bytes (slice 0 16 bytes) in
    let amount_locked := from_be_bytes (slice 16 32 bytes) in
    let unlock_height := from_be_bytes (slice 32 40 bytes) in
    if amount_locked =? 0 then mret (Unlocked amount_unlocked)
    else mret (LockedPoxOne amount_unlocked amount_locked unlock_height)
  else if Nat.eqb (length bytes) v2_to_v4_size then
    let version := default 0 (head bytes) in
    if negb (version =? pox_2_version) && negb (version =? pox_3_version)
       && negb (version =? pox_4_version) && negb (version =? pox_5_version)
    then Err (err_expect ("Bad version byte in STX Balance serialization = "
                          +:+ pretty version))
    else
      let amount_unlocked := from_be_bytes (slice 1 17 bytes) in
      let amount_locked := from_be_bytes (slice 17 33 bytes) in
      let unlock_height := from_be_bytes (slice 33 41 bytes) in
      if amount_locked =? 0 then mret (Unlocked amount_unlocked)
      else if version =? pox_2_version then
        mret (LockedPoxTwo amount_unlocked amount_locked unlock_height)
      else if version =? pox_3_version then
        mret (LockedPoxThree amount_unlocked amount_locked unlock_height)
      else if version =? pox_4_version then
        mret (LockedPoxFour amount_unlocked amount_locked unlock_height)
      else if version =? pox_5_version then
        mret (LockedPoxFive amount_unlocked amount_locked unlock_height)
      else Err (err_expect "Version is checked for pox-2, pox-3, pox-4, or pox-5 version compliance above")
  else Err (err_expect ("Bad STX Balance serialization size = "
                        +:+ pretty (Z.of_nat (length bytes)))).

(** ** Well-formed balances: the machine widths, and a total that fits *)

Definition wf_balance (b : STXBalance) : Prop :=
  0 <= amount_unlocked b /\ 0 <= amount_locked b /\
  amount_unlocked b + amount_locked b <= u128_max /\ is_u64 (unlock_height b).

Definition total (b : STXBalance) : Z := amount_unlocked b + amount_locked b.

(** ** Lemmas *)

Lemma get_total_balance_wf b : wf_balance b -> get_total_balance b = Ok (total b).
Proof.
  intros (Hu & Hl & Hs & _).
  assert (u128_checked_add (amount_unlocked b) (amount_locked b) = Some (total b)) as E.
  { unfold u128_checked_add, total. apply checked_Some. lia. }
  destruct b; cbn in *; by rewrite E.
Qed.

Lemma get_total_balance_Ok b t : get_total_balance b = Ok t -> t = total b.
Proof.
  intros H. destruct b; unfold get_total_balance, total in *; cbn in *;
    apply ok_or_Ok, checked_Some in H as [-> _]; lia.
Qed.

Section Views.
Context (burn v1 v2 v3 v4 : Z).
Abbreviation locked_at := (has_locked_tokens_at_burn_block burn v1 v2 v3 v4).
Abbreviation unlockable_at := (has_unlockable_tokens_at_burn_block burn v1 v2 v3 v4).
Abbreviation effective := (effective_unlock_height v1 v2 v3 v4).
Abbreviation canonical := (canonical_repr_at_block burn v1 v2 v3 v4).
Abbreviation available := (get_available_balance_at_burn_block burn v1 v2 v3 v4).
Abbreviation locked := (get_locked_balance_at_burn_block burn v1 v2 v3 v4).

(** Tests on a balance reduce to the amount locked and the effective unlock
    height. *)
Lemma unlockable_spec b :
  unlockable_at b = negb (amount_locked b =? 0) && (effective b <=? burn).
Proof.
  destruct b as [a | u l h | u l h | u l h | u l h | u l h]; cbn; try done;
    destruct (l =? 0) eqn:El; cbn; try done;
    repeat case_match; ints_hyps; symmetry; try apply Z.leb_le; try apply Z.leb_gt; lia.
Qed.

Lemma locked_spec b :
  locked_at b = negb (amount_locked b =? 0) && (burn <? effective b).
Proof.
  destruct b as [a | u l h | u l h | u l h | u l h | u l h]; cbn; try done;
    destruct (l =? 0) eqn:El; cbn; try done;
    repeat case_match; ints_hyps; symmetry; try apply Z.ltb_lt; try apply Z.ltb_ge; lia.
Qed.

Lemma canonical_wf b b' n :
  wf_balance b -> canonical b = Ok (b', n) ->
  wf_balance b' /\ total b' = total b /\ unlockable_at b' = false /\
  locked_at b' = locked_at b /\ n = total b' - total b + amount_locked b - amount_locked b'.
Proof.
  intros Hwf. unfold canonical_repr_at_block. destruct (unlockable_at b) eqn:Eu.
  - rewrite get_total_balance_wf by done. intros [= <- <-].
    assert (locked_at b = false) as ->.
    { rewrite locked_spec. rewrite unlockable_spec in Eu.
      ints_hyps. destruct (amount_locked b =? 0); cbn; [done |]. apply Z.ltb_ge. lia. }
    destruct Hwf as (? & ? & ? & ?). unfold wf_balance, total. cbn.
    repeat split; ints.
  - intros [= <- <-]. repeat split; try done; try apply Hwf; lia.
Qed.

Lemma canonical_total b : wf_balance b -> exists b' n, canonical b = Ok (b', n).
Proof.
  intros Hwf. unfold canonical_repr_at_block. destruct (unlockable_at b); [| by eauto].
  rewrite get_total_balance_wf by done. by eauto.
Qed.

Lemma canonical_fixed b : unlockable_at b = false -> canonical b = Ok (b, 0).
Proof. unfold canonical_repr_at_block. by intros ->. Qed.

Lemma available_locked_total b a :
  wf_balance b -> available b = Ok a -> a + (locked b).1 = total b.
Proof.
  intros Hwf. unfold get_available_balance_at_burn_block, get_locked_balance_at_burn_block.
  destruct (unlockable_at b).
  - rewrite get_total_balance_wf by done. intros [= <-]. cbn. lia.
  - intros [= <-]. unfold total. by destruct b; cbn; lia.
Qed.
End Views.

Lemma slice_middle {A} (lo hi : nat) (x y z : list A) :
  length x = lo -> (lo + length y = hi)%nat -> slice lo hi (x ++ y ++ z) = y.
Proof.
  intros Hx Hy. unfold slice. rewrite drop_app_length', take_app_length' by lia. done.
Qed.

Lemma slice_end {A} (lo hi : nat) (x y : list A) :
  length x = lo -> (lo + length y = hi)%nat -> slice lo hi (x ++ y) = y.
Proof. intros. rewrite <- (app_nil_r y) at 1. by apply slice_middle. Qed.

Lemma length_balance_bytes u l h : length (balance_bytes u l h) = 40%nat.
Proof. unfold balance_bytes. by rewrite !length_app, !length_to_be_bytes. Qed.

Lemma balance_bytes_ok u l h : bytes_ok (balance_bytes u l h).
Proof.
  apply Forall_app_2; [| apply Forall_app_2]; apply to_be_bytes_ok.
Qed.

Lemma slices_of_balance_bytes (pre : list Z) n u l h :
  length pre = n -> 0 <= u <= u128_max -> 0 <= l <= u128_max -> is_u64 h ->
  from_be_bytes (slice n (n + 16) (pre ++ balance_bytes u l h)) = u /\
  from_be_bytes (slice (n + 16) (n + 32) (pre ++ balance_bytes u l h)) = l /\
  from_be_bytes (slice (n + 32) (n + 40) (pre ++ balance_bytes u l h)) = h.
Proof.
  intros Hn Hu Hl Hh. unfold balance_bytes.
  assert (length (to_be_bytes 16 u) = 16 /\ length (to_be_bytes 16 l) = 16 /\
          length (to_be_bytes 8 h) = 8)%nat as (L1 & L2 & L3)
    by (by rewrite !length_to_be_bytes).
  split_and!.
  - rewrite slice_middle by lia. apply from_to_be_bytes. autounfold with ints in *. lia.
  - rewrite app_assoc, slice_middle by (rewrite ?length_app; lia).
    apply from_to_be_bytes. autounfold with ints in *. lia.
  - rewrite !app_assoc, slice_end by (rewrite ?length_app; lia).
    apply from_to_be_bytes. autounfold with ints in *. lia.
Qed.

(** A lock of nothing is read back as an unlocked balance. *)
Definition normalize (b : STXBalance) : STXBalance :=
  if amount_locked b =? 0 then Unlocked (amount_unlocked b) else b.

Lemma stx_round_trip b : wf_balance b -> stx_deserialize (stx_serialize b) = Ok (normalize b).
Proof.
  intros (Hu & Hl & Ht & Hh). unfold stx_deserialize, stx_serialize.
  pose proof (fun pre n H => slices_of_balance_bytes pre n (amount_unlocked b)
                (amount_locked b) (unlock_height b) H ltac:(lia) ltac:(lia) Hh) as Hs.
  rewrite hex_bytes_to_hex by (destruct b; repeat (constructor; [done |]); apply balance_bytes_ok).
  cbn [map_err mbind result_bind].
  destruct b as [a | u l h | u l h | u l h | u l h | u l h]; unfold normalize;
    cbn -[balance_bytes length slice from_be_bytes Nat.eqb] in Hs |- *.
  all: rewrite ?length_cons, length_balance_bytes; cbn -[balance_bytes slice from_be_bytes].
  1, 2: destruct (Hs [] 0%nat eq_refl) as (E1 & E2 & E3).
  3: destruct (Hs [pox_2_version] 1%nat eq_refl) as (E1 & E2 & E3).
  4: destruct (Hs [pox_3_version] 1%nat eq_refl) as (E1 & E2 & E3).
  5: destruct (Hs [pox_4_version] 1%nat eq_refl) as (E1 & E2 & E3).
  6: destruct (Hs [pox_5_version] 1%nat eq_refl) as (E1 & E2 & E3).
  all: cbn [app Nat.add] in E1, E2, E3; rewrite E1, E2, ?E3; by try destruct (l =? 0).
Qed.

(** ** Properties *)


(** Whether tokens are still locked is decided by the effective unlock
    height (the height of the lock, or the early release of the PoX version
    that holds it, whichever comes first): an account has locked tokens exactly
    when its locked amount is not zero and that height is ahead, has unlockable
    tokens exactly when the amount is not zero and the height is reached, and
    what is unlockable stays so at every later height. *)
Theorem lock_decided_by_effective_height b burn v1 v2 v3 v4 :
  (has_locked_tokens_at_burn_block burn v1 v2 v3 v4 b = true <->
     amount_locked b <> 0 /\ burn < effective_unlock_height v1 v2 v3 v4 b) /\
  (has_unlockable_tokens_at_burn_block burn v1 v2 v3 v4 b = true <->
     amount_locked b <> 0 /\ effective_unlock_height v1 v2 v3 v4 b <= burn) /\
  (forall later, burn <= later ->
     has_unlockable_tokens_at_burn_block burn v1 v2 v3 v4 b = true ->
     has_unlockable_tokens_at_burn_block later v1 v2 v3 v4 b = true).
Proof.
  rewrite locked_spec. setoid_rewrite unlockable_spec.
  setoid_rewrite andb_true_iff. setoid_rewrite negb_true_iff. setoid_rewrite Z.eqb_neq.
  setoid_rewrite Z.ltb_lt. setoid_rewrite Z.leb_le. intuition lia.
Qed.


Definition sample_locked : STXBalance := LockedPoxFour 1000 2000 500.

Lemma sample_locked_wf : wf_balance sample_locked.
Proof. unfold wf_balance. cbn. autounfold with ints. lia. Qed.


