(* ===== verification/Database.v ===== *)
(** * The Clarity database: keys, epoch, unlock heights, typed reads and writes

    The part of [clarity/src/vm/database/clarity_db.rs] the account ledger
    rests on.  Data goes through the key-value interface of [RollbackStore];
    the chain state that [ClarityDatabase] reads through [BurnStateDB] and
    [HeadersDB] does not change while a transaction runs and is the record
    [DbEnv].  The lemmas say that the keys of different accounts and of the
    different kinds of account data never coincide, and what a typed read or
    write does to the view of the store. *)

From S2P Require Import Prelude.
From S2P Require Import Bytes.
From S2P Require Import Epochs.
From S2P Require Import Values.
From S2P Require Import RollbackStore.
From S2P Require Import C32.
From S2P Require Import STXBalance.

(** ** Keys *)

Inductive StoreType :=
| ST_DataMap | ST_Variable | ST_FungibleToken | ST_CirculatingSupply | ST_NonFungibleToken
| ST_DataMapMeta | ST_VariableMeta | ST_FungibleTokenMeta | ST_NonFungibleTokenMeta
| ST_Contract | ST_SimmedBlock | ST_SimmedBlockHeight | ST_Nonce | ST_STXBalance
| ST_PoxSTXLockup | ST_PoxUnlockHeight.

Definition store_type_u8 (t : StoreType) : Z :=
  match t with
  | ST_DataMap => 0 | ST_Variable => 1 | ST_FungibleToken => 2 | ST_CirculatingSupply => 3
  | ST_NonFungibleToken => 4 | ST_DataMapMeta => 5 | ST_VariableMeta => 6
  | ST_FungibleTokenMeta => 7 | ST_NonFungibleTokenMeta => 8 | ST_Contract => 9
  | ST_SimmedBlock => 16 | ST_SimmedBlockHeight => 17 | ST_Nonce => 18
  | ST_STXBalance => 19 | ST_PoxSTXLockup => 20 | ST_PoxUnlockHeight => 21
  end.

Section Keys.
Context `{Sha256}.

Definition make_key_for_account (principal : PrincipalData) (data : StoreType) : string :=
  "vm-account::" +:+ principal_to_string principal +:+ "::" +:+ pretty (store_type_u8 data).

Definition make_key_for_account_balance (principal : PrincipalData) : string :=
  make_key_for_account principal ST_STXBalance.
Definition make_key_for_account_nonce (principal : PrincipalData) : string :=
  make_key_for_account principal ST_Nonce.
Definition make_key_for_account_stx_locked (principal : PrincipalData) : string :=
  make_key_for_account principal ST_PoxSTXLockup.
Definition make_key_for_account_unlock_height (principal : PrincipalData) : string :=
  make_key_for_account principal ST_PoxUnlockHeight.

Definition make_key_for_trip (contract_identifier : QualifiedContractIdentifier)
    (data : StoreType) (var_name : string) : string :=
  "vm::" +:+ contract_to_string contract_identifier +:+ "::"
  +:+ pretty (store_type_u8 data) +:+ "::" +:+ var_name.

Definition make_key_for_quad (contract_identifier : QualifiedContractIdentifier)
    (data : StoreType) (var_name key_value : string) : string :=
  "vm::" +:+ contract_to_string contract_identifier +:+ "::"
  +:+ pretty (store_type_u8 data) +:+ "::" +:+ var_name +:+ "::" +:+ key_value.

Definition make_metadata_key (data : StoreType) (var_name : string) : string :=
  "vm-metadata::" +:+ pretty (store_type_u8 data) +:+ "::" +:+ var_name.
End Keys.

Definition clarity_state_epoch_key : string := "vm-epoch::epoch-version".

(** [ClaritySerializable] and [ClarityDeserializable] for [u32] *)
Definition u32_serialize (z : Z) : string := to_hex (to_be_bytes 4 z).

Definition u32_deserialize (input : string) : result VmExecutionError Z :=
  bytes ← map_err (fun _ => err_expect "u32 deserialization: failed decoding bytes.")
            (hex_bytes input);
  if Nat.eqb (length bytes) 4 then mret (from_be_bytes bytes) else Panic.

(** ** Chain state *)

Record DbEnv := mkDbEnv {
  (* BurnStateDB *)
  burn_v1_unlock_height : Z;
  burn_v2_unlock_height : Z;
  burn_v3_unlock_height : Z;
  burn_pox_5_activation_height : Z;
  burn_start_height : Z;
  tip_burn_block_height : option Z;
  (* the block being built, and its ancestors by height *)
  current_block_height : Z;
  block_header_hash : Z -> option (list Z);
  (* HeadersDB *)
  burn_block_height_for_block : list Z -> option Z;
}.

(** ** Operations *)

Section Db.
Context {S : Type} `{KVStore S} (env : DbEnv).

Definition db_put_data {A} (serialize : A -> string) (key : string) (value : A)
    : M S VmExecutionError unit := kv_put key (serialize value).

Definition db_get_data {A} (deserialize : string -> result VmExecutionError A) (key : string)
    : M S VmExecutionError (option A) :=
  o ← kv_get key;
  match o with
  | None => mret None
  | Some s => a ← lift (deserialize s); mret (Some a)
  end.

Definition get_clarity_epoch_version : M S VmExecutionError StacksEpochId :=
  o ← db_get_data u32_deserialize clarity_state_epoch_key;
  match o with
  | Some x =>
      lift (map_err (fun _ => err_expect "Bad Clarity epoch version in stored Clarity state")
              (epoch_try_from x))
  | None => mret Epoch20
  end.

Definition set_clarity_epoch_version (epoch : StacksEpochId) : M S VmExecutionError unit :=
  db_put_data u32_serialize clarity_state_epoch_key (epoch_as_u32 epoch).

Definition get_v1_unlock_height : Z := burn_v1_unlock_height env.

Definition get_v2_unlock_height : M S VmExecutionError Z :=
  epoch ← get_clarity_epoch_version;
  mret (if epoch_leb Epoch22 epoch then burn_v2_unlock_height env else u32_max).

Definition get_v3_unlock_height : M S VmExecutionError Z :=
  epoch ← get_clarity_epoch_version;
  mret (if epoch_leb Epoch25 epoch then burn_v3_unlock_height env else u32_max).

Definition get_v4_unlock_height : M S VmExecutionError Z :=
  epoch ← get_clarity_epoch_version;
  mret (if epoch_leb Epoch40 epoch then burn_pox_5_activation_height env else u32_max).

Definition get_index_block_header_hash (block_height : Z) : M S VmExecutionError (list Z) :=
  lift (ok_or (block_header_hash env block_height)
          (err_expect "Block header hash must return for provided block height")).

Definition get_burnchain_block_height (id_bhh : list Z) : option Z :=
  burn_block_height_for_block env id_bhh.

Definition get_current_burnchain_block_height : M S VmExecutionError Z :=
  let cur_stacks_height := current_block_height env in
  epoch ← get_clarity_epoch_version;
  if negb (clarity_uses_tip_burn_block epoch) then
    if cur_stacks_height =? 0 then mret (burn_start_height env)
    else
      last_mined_bhh ← get_index_block_header_hash (cur_stacks_height - 1);
      lift (ok_or (get_burnchain_block_height last_mined_bhh)
              (err_expect ("Block header hash '" +:+ to_hex last_mined_bhh
                 +:+ "' must return for provided stacks block height "
                 +:+ pretty cur_stacks_height)))
  else
    lift (ok_or (tip_burn_block_height env)
            (err_expect "Failed to get burnchain tip height.")).

(** The four heights every balance operation reads, in this order *)
Definition get_unlock_heights : M S VmExecutionError (Z * Z * Z * Z) :=
  let v1 := get_v1_unlock_height in
  v2 ← get_v2_unlock_height;
  v3 ← get_v3_unlock_height;
  v4 ← get_v4_unlock_height;
  mret (v1, v2, v3, v4).
End Db.

(** ** The map as a store

    The finite map itself is a key-value store; programs over any lawful store
    are simulated by the same program over its view, so that their properties
    can be proved on maps. *)

#[export] Instance map_KVStore : KVStore (gmap string string) := {
  kv_get k := fun m => (Ok (m !! k), m);
  kv_put k v := fun m => (Ok tt, <[k := v]> m);
}.

#[export] Program Instance map_KVStoreLaws : KVStoreLaws (gmap string string) := {
  kv_ok _ := True;
  kv_view m := m;
}.
Next Obligation. intros k s _. by exists s. Qed.
Next Obligation. intros k v s _. by eexists. Qed.

Definition views {S} `{KVStoreLaws S} (s : S) (m : gmap string string) : Prop :=
  kv_ok s /\ kv_view s = m.

Section SimDb.
Context {S : Type} `{KVStoreLaws S} (env : DbEnv).

Lemma sim_kv_get k : sim (S := S) views (kv_get k) (kv_get k).
Proof.
  intros s m [Hok <-]. destruct (kv_get_spec k s Hok) as (s' & -> & Hok' & Hv). done.
Qed.

Lemma sim_kv_put k v : sim (S := S) views (kv_put k v) (kv_put k v).
Proof.
  intros s m [Hok <-]. destruct (kv_put_spec k v s Hok) as (s' & -> & Hok' & Hv). done.
Qed.
#[local] Hint Resolve sim_kv_get sim_kv_put : sim.

Lemma sim_db_put_data {A} (ser : A -> string) k a :
  sim (S := S) views (db_put_data ser k a) (db_put_data ser k a).
Proof. apply sim_kv_put. Qed.

Lemma sim_db_get_data {A} (deser : string -> result VmExecutionError A) k :
  sim (S := S) views (db_get_data deser k) (db_get_data deser k).
Proof. unfold db_get_data. solve_sim. Qed.
#[local] Hint Resolve sim_db_put_data sim_db_get_data : sim.

Lemma sim_get_clarity_epoch_version :
  sim (S := S) views get_clarity_epoch_version get_clarity_epoch_version.
Proof. unfold get_clarity_epoch_version. solve_sim. Qed.
#[local] Hint Resolve sim_get_clarity_epoch_version : sim.

Lemma sim_get_unlock_heights :
  sim (S := S) views (get_unlock_heights env) (get_unlock_heights env).
Proof.
  unfold get_unlock_heights, get_v2_unlock_height, get_v3_unlock_height,
    get_v4_unlock_height. solve_sim.
Qed.

Lemma sim_get_current_burnchain_block_height :
  sim (S := S) views (get_current_burnchain_block_height env)
    (get_current_burnchain_block_height env).
Proof.
  unfold get_current_burnchain_block_height, get_index_block_header_hash. solve_sim.
Qed.
End SimDb.

#[export] Hint Resolve sim_kv_get sim_kv_put sim_db_put_data sim_db_get_data
  sim_get_clarity_epoch_version sim_get_unlock_heights
  sim_get_current_burnchain_block_height : sim.

(** ** Keys do not collide *)

Section KeyLemmas.
Context `{Sha256}.

(** Kinds of account data whose tags are rendered in two digits *)
Definition account_kind (t : StoreType) : Prop :=
  t = ST_Nonce \/ t = ST_STXBalance \/ t = ST_PoxSTXLockup \/ t = ST_PoxUnlockHeight.

Lemma account_key_inj p q t u :
  wf_principal p -> wf_principal q -> account_kind t -> account_kind u ->
  make_key_for_account p t = make_key_for_account q u -> p = q /\ t = u.
Proof.
  intros Hp Hq Ht Hu E. unfold make_key_for_account in E.
  apply string_app_inj_l in E. rewrite !string_app_assoc in E.
  apply string_app_inj_r in E as [E1 E2].
  - split.
    +      apply string_app_inj_r in E1 as [E1 _]; [| done]. by apply principal_to_string_inj.
    + destruct Ht as [-> | [-> | [-> | ->]]], Hu as [-> | [-> | [-> | ->]]];
        first [done | by vm_compute in E2].
  - by destruct Ht as [-> | [-> | [-> | ->]]], Hu as [-> | [-> | [-> | ->]]].
Qed.

Lemma balance_key_inj p q :
  wf_principal p -> wf_principal q ->
  make_key_for_account_balance p = make_key_for_account_balance q -> p = q.
Proof.
  intros Hp Hq E. apply account_key_inj in E as [-> _]; [done | done | done | ..];
    by right; left.
Qed.

Lemma account_key_not_epoch p t : make_key_for_account p t <> clarity_state_epoch_key.
Proof. done. Qed.
End KeyLemmas.
