(* ===== verification/STXLedger.v ===== *)
(** * The STX ledger

    Account balances in the Clarity database and the handle through which they
    change: [STXBalanceSnapshot] of [clarity/src/vm/database/structures.rs]
    with [get_stx_balance_snapshot] and the account accessors of
    [clarity_db.rs].  A snapshot is the record of its principal, its working
    copy of the balance, the burn height it was opened at and the database it
    borrows; its methods are computations on that record.

    The properties are about whole operations as the callers run them (open a
    snapshot, change it, save it) over any lawful key-value store: transfers
    move exactly the amount between the two accounts or leave every balance
    alone, the operations of the PoX contracts never change an account's total,
    and sequences of such operations conserve the sum of all balances. *)

From S2P Require Import Prelude.
From S2P Require Import Bytes.
From S2P Require Import Epochs.
From S2P Require Import Values.
From S2P Require Import RollbackStore.
From S2P Require Import C32.
From S2P Require Import STXBalance.
From S2P Require Import Database.

Record STXBalanceSnapshot (S : Type) := mkSnapshot {
  snap_principal : PrincipalData;
  snap_balance : STXBalance;
  snap_burn_block_height : Z;
  snap_db : S;
}.
Arguments mkSnapshot {S} _ _ _ _.
Arguments snap_principal {S} _.
Arguments snap_balance {S} _.
Arguments snap_burn_block_height {S} _.
Arguments snap_db {S} _.

(** A method of a snapshot *)
Abbreviation SnapM S A := (M (STXBalanceSnapshot S) VmExecutionError A).

Section Snapshot.
Context `{Sha256} {S : Type} `{KVStore S} (env : DbEnv).

Definition set_snap_db (s : S) (snap : STXBalanceSnapshot S) : STXBalanceSnapshot S :=
  mkSnapshot (snap_principal snap) (snap_balance snap) (snap_burn_block_height snap) s.

Definition set_snap_balance (b : STXBalance) (snap : STXBalanceSnapshot S)
    : STXBalanceSnapshot S :=
  mkSnapshot (snap_principal snap) b (snap_burn_block_height snap) (snap_db snap).

Definition on_db {A} (m : M S VmExecutionError A) : SnapM S A := zoom snap_db set_snap_db m.
Definition on_balance {A} (m : M STXBalance VmExecutionError A) : SnapM S A :=
  zoom snap_balance set_snap_balance m.

(** [self.balance], [self.burn_block_height], [self.principal] *)
Definition balance : SnapM S STXBalance := fun snap => (Ok (snap_balance snap), snap).
Definition burn_block_height : SnapM S Z := fun snap => (Ok (snap_burn_block_height snap), snap).
Definition principal : SnapM S PrincipalData := fun snap => (Ok (snap_principal snap), snap).

Definition set_balance (b : STXBalance) : SnapM S unit := modify (set_snap_balance b).

(** Apply a view of the balance at the snapshot's burn height. *)
Definition balance_view {A} (view : Z -> Z -> Z -> Z -> Z -> STXBalance -> A) : SnapM S A :=
  heights ← on_db (get_unlock_heights env);
  let '(v1, v2, v3, v4) := heights in
  burn ← burn_block_height;
  b ← balance;
  mret (view burn v1 v2 v3 v4 b).

Definition balance_view_res {A}
    (view : Z -> Z -> Z -> Z -> Z -> STXBalance -> result VmExecutionError A) : SnapM S A :=
  r ← balance_view view;
  lift r.

Definition get_available_balance : SnapM S Z :=
  balance_view_res get_available_balance_at_burn_block.

Definition canonical_balance_repr : SnapM S STXBalance :=
  p ← balance_view_res canonical_repr_at_block;
  mret p.1.

Definition has_locked_tokens : SnapM S bool := balance_view has_locked_tokens_at_burn_block.
Definition has_unlockable_tokens : SnapM S bool :=
  balance_view has_unlockable_tokens_at_burn_block.

Definition can_transfer (amount : Z) : SnapM S bool :=
  available ← get_available_balance;
  mret (amount <=? available).

Definition unlock_available_tokens_if_any : SnapM S Z :=
  p ← balance_view_res canonical_repr_at_block;
  let '(new_balance, unlocked) := p in
  _ ← set_balance new_balance;
  mret unlocked.

Definition save : SnapM S unit :=
  p ← principal;
  b ← balance;
  on_db (db_put_data stx_serialize (make_key_for_account_balance p) b).

Definition debit (amount : Z) : SnapM S unit :=
  _ ← unlock_available_tokens_if_any;
  on_balance (debit_unlocked_amount amount).

Definition credit (amount : Z) : SnapM S unit :=
  _ ← unlock_available_tokens_if_any;
  b ← balance;
  let '(o, b') := checked_add_unlocked_amount amount b in
  _ ← set_balance b';
  _ ← lift (ok_or o (err_expect "STX balance overflow"));
  mret tt.

Definition transfer_to (recipient : PrincipalData) (amount : Z) : SnapM S unit :=
  ok ← can_transfer amount;
  _ ← ensure ok (Internal VI_InsufficientBalance);
  let recipient_key := make_key_for_account_balance recipient in
  o ← on_db (db_get_data stx_deserialize recipient_key);
  let '(added, recipient_balance) :=
    checked_add_unlocked_amount amount (default zero o) in
  _ ← lift (ok_or added (Runtime RE_ArithmeticOverflow None));
  _ ← debit amount;
  _ ← on_db (db_put_data stx_serialize recipient_key recipient_balance);
  save.

(** ** Locks

    The lock, extend and increase methods of the five PoX versions follow one
    scheme each; they differ in the balance they leave, in messages, and in
    that PoX-4 panics where the others return an error. *)

Definition lock_tokens_with (expired_message : string)
    (sub : option Z -> result VmExecutionError Z) (locked : Z -> Z -> Z -> STXBalance)
    (amount_to_lock unlock_burn_height : Z) : SnapM S unit :=
  _ ← unlock_available_tokens_if_any;
  _ ← ensure (negb (amount_to_lock =? 0)) (err_expect "BUG: cannot lock 0 tokens");
  burn ← burn_block_height;
  _ ← ensure (negb (unlock_burn_height <=? burn)) (err_expect expired_message);
  has_locked ← has_locked_tokens;
  _ ← ensure (negb has_locked) (err_expect "FATAL: account already has locked tokens");
  b ← balance;
  total ← lift (get_total_balance b);
  new_amount_unlocked ← lift (sub (u128_checked_sub total amount_to_lock));
  set_balance (locked new_amount_unlocked amount_to_lock unlock_burn_height).

Definition expired_unlock : string := "FATAL: cannot set a lock with expired unlock burn height".
Definition must_be_locked (version : string) : string :=
  "FATAL: account must be locked by " +:+ version.

Definition lock_tokens_v1 : Z -> Z -> SnapM S unit :=
  lock_tokens_with expired_unlock (fun o => ok_or o (err_expect "STX underflow")) LockedPoxOne.
Definition lock_tokens_v2 : Z -> Z -> SnapM S unit :=
  lock_tokens_with expired_unlock (fun o => ok_or o (err_expect "STX underflow")) LockedPoxTwo.
Definition lock_tokens_v3 : Z -> Z -> SnapM S unit :=
  lock_tokens_with expired_unlock
    (fun o => ok_or o (err_expect "FATAL: account locks more STX than balance possessed"))
    LockedPoxThree.
Definition lock_tokens_v4 : Z -> Z -> SnapM S unit :=
  lock_tokens_with (must_be_locked "pox-3") expect_some LockedPoxFour.
Definition lock_tokens_v5 : Z -> Z -> SnapM S unit :=
  lock_tokens_with expired_unlock
    (fun o => ok_or o (err_expect "FATAL: account locks more STX than balance possessed"))
    LockedPoxFive.

Definition no_locked_tokens : string := "FATAL: account does not have locked tokens".

Definition extend_lock_with (locked : Z -> Z -> Z -> STXBalance) (unlock_burn_height : Z)
    : SnapM S unit :=
  _ ← unlock_available_tokens_if_any;
  has_locked ← has_locked_tokens;
  _ ← ensure has_locked (err_expect no_locked_tokens);
  burn ← burn_block_height;
  _ ← ensure (negb (unlock_burn_height <=? burn)) (err_expect expired_unlock);
  b ← balance;
  set_balance (locked (amount_unlocked b) (amount_locked b) unlock_burn_height).

Definition extend_lock_v2 : Z -> SnapM S unit := extend_lock_with LockedPoxTwo.
Definition extend_lock_v3 : Z -> SnapM S unit := extend_lock_with LockedPoxThree.
Definition extend_lock_v4 : Z -> SnapM S unit := extend_lock_with LockedPoxFour.
Definition update_unlock_v5 : Z -> SnapM S unit := extend_lock_with LockedPoxFive.

Definition is_v2_locked : SnapM S bool :=
  b ← canonical_balance_repr;
  mret (match b with LockedPoxTwo _ _ _ => true | _ => false end).
Definition is_v3_locked : SnapM S bool :=
  b ← canonical_balance_repr;
  mret (match b with LockedPoxThree _ _ _ => true | _ => false end).
Definition is_v4_locked : SnapM S bool :=
  b ← canonical_balance_repr;
  mret (match b with LockedPoxFour _ _ _ => true | _ => false end).
Definition is_v5_locked : SnapM S bool :=
  b ← canonical_balance_repr;
  mret (match b with LockedPoxFive _ _ _ => true | _ => false end).

(** The total and the unlocked remainder of an increase, as errors or panics *)
Definition err_or (msg : string) (o : option Z) : result VmExecutionError Z :=
  ok_or o (err_expect msg).
Definition overflowed_total : string := "STX balance overflowed u128".
Definition underflowed_total : string := "STX underflow: more is locked than total balance".

Definition increase_lock_with (is_locked_by : SnapM S bool) (version : string)
    (must_lock_more : string) (add sub : option Z -> result VmExecutionError Z)
    (locked : Z -> Z -> Z -> STXBalance) (new_total_locked : Z) : SnapM S unit :=
  _ ← unlock_available_tokens_if_any;
  has_locked ← has_locked_tokens;
  _ ← ensure has_locked (err_expect no_locked_tokens);
  by_version ← is_locked_by;
  _ ← ensure by_version (err_expect (must_be_locked version));
  b ← balance;
  _ ← ensure (amount_locked b <=? new_total_locked) (err_expect must_lock_more);
  total_amount ← lift (add (u128_checked_add (amount_unlocked b) (amount_locked b)));
  unlocked ← lift (sub (u128_checked_sub total_amount new_total_locked));
  set_balance (locked unlocked new_total_locked (unlock_height b)).

Definition increase_lock_v2 : Z -> SnapM S unit :=
  increase_lock_with is_v2_locked "pox-2"
    "FATAL: account must lock more after `increase_lock_v2`"
    (err_or overflowed_total) (err_or underflowed_total) LockedPoxTwo.
Definition increase_lock_v3 : Z -> SnapM S unit :=
  increase_lock_with is_v3_locked "pox-3"
    "FATAL: account must lock more after `increase_lock_v3`"
    (err_or overflowed_total) (err_or underflowed_total) LockedPoxThree.
Definition increase_lock_v4 : Z -> SnapM S unit :=
  increase_lock_with is_v4_locked "pox-4"
    "FATAL: account must lock more after `increase_lock_v4`"
    expect_some expect_some LockedPoxFour.
Definition increase_lock_v5 : Z -> SnapM S unit :=
  increase_lock_with is_v5_locked "pox-5"
    "FATAL: account must lock more after `increase_lock_v5`"
    (err_or overflowed_total) (err_or underflowed_total) LockedPoxFive.

Definition set_lock_v5 (new_total_locked unlock_burn_height : Z) : SnapM S unit :=
  _ ← unlock_available_tokens_if_any;
  has_locked ← has_locked_tokens;
  _ ← ensure has_locked (err_expect no_locked_tokens);
  by_v5 ← is_v5_locked;
  _ ← ensure by_v5 (err_expect (must_be_locked "pox-5"));
  burn ← burn_block_height;
  _ ← ensure (negb (unlock_burn_height <=? burn)) (err_expect expired_unlock);
  b ← balance;
  total_amount ← lift (err_or overflowed_total
                         (u128_checked_add (amount_unlocked b) (amount_locked b)));
  unlocked ← lift (err_or underflowed_total (u128_checked_sub total_amount new_total_locked));
  set_balance (LockedPoxFive unlocked new_total_locked unlock_burn_height).

(** [self.burn_block_height + 1] is in [u64]: it wraps at the top of the
    range in a release build. *)
Definition accelerate_unlock : SnapM S unit :=
  _ ← unlock_available_tokens_if_any;
  burn ← burn_block_height;
  let new_unlock_height := (burn + 1) mod 2 ^ 64 in
  b ← balance;
  match b with
  | Unlocked amount => set_balance (Unlocked amount)
  | LockedPoxOne _ _ _ =>
      throw (err_expect "Attempted to accelerate the unlock of a lockup created by PoX-1")
  | LockedPoxTwo u l _ => set_balance (LockedPoxTwo u l new_unlock_height)
  | LockedPoxThree u l _ => set_balance (LockedPoxThree u l new_unlock_height)
  | LockedPoxFour u l _ => set_balance (LockedPoxFour u l new_unlock_height)
  | LockedPoxFive u l _ => set_balance (LockedPoxFive u l new_unlock_height)
  end.
End Snapshot.

(** ** Accounts *)

Section Accounts.
Context `{Sha256} {S : Type} `{KVStore S} (env : DbEnv).

Definition get_account_stx_balance (p : PrincipalData) : M S VmExecutionError STXBalance :=
  o ← db_get_data stx_deserialize (make_key_for_account_balance p);
  mret (default zero o).

(** Opening a snapshot borrows the database: the snapshot holds the state the
    reads leave behind. *)
Definition get_stx_balance_snapshot (p : PrincipalData) (s : S)
    : result VmExecutionError (STXBalanceSnapshot S) * S :=
  match (stx_balance ← get_account_stx_balance p;
         cur_burn_height ← get_current_burnchain_block_height env;
         mret (stx_balance, cur_burn_height)) s with
  | (Ok (b, burn), s') => (Ok (mkSnapshot p b burn s'), s')
  | (Err e, s') => (Err e, s')
  | (Panic, s') => (Panic, s')
  end.

Definition get_stx_balance_snapshot_genesis (p : PrincipalData) (s : S)
    : result VmExecutionError (STXBalanceSnapshot S) * S :=
  match get_account_stx_balance p s with
  | (Ok b, s') => (Ok (mkSnapshot p b 0 s'), s')
  | (Err e, s') => (Err e, s')
  | (Panic, s') => (Panic, s')
  end.

(** Open a snapshot, run a method chain on it, give the database back. *)
Definition with_snapshot {A} (p : PrincipalData) (m : M (STXBalanceSnapshot S) VmExecutionError A)
    : M S VmExecutionError A := fun s =>
  match get_stx_balance_snapshot p s with
  | (Ok snap, _) => let '(r, snap') := m snap in (r, snap_db snap')
  | (Err e, s') => (Err e, s')
  | (Panic, s') => (Panic, s')
  end.
End Accounts.

(** ** Account operations as data

    A snapshot method followed by [save], as the callers in [pox-locking] and
    the chain state use them.  [Transfer] saves both accounts itself. *)

Inductive LedgerOp :=
| Transfer (sender recipient : PrincipalData) (amount : Z)
| LockV1 (p : PrincipalData) (amount height : Z)
| LockV2 (p : PrincipalData) (amount height : Z)
| LockV3 (p : PrincipalData) (amount height : Z)
| LockV4 (p : PrincipalData) (amount height : Z)
| LockV5 (p : PrincipalData) (amount height : Z)
| ExtendV2 (p : PrincipalData) (height : Z)
| ExtendV3 (p : PrincipalData) (height : Z)
| ExtendV4 (p : PrincipalData) (height : Z)
| UpdateUnlockV5 (p : PrincipalData) (height : Z)
| IncreaseV2 (p : PrincipalData) (total : Z)
| IncreaseV3 (p : PrincipalData) (total : Z)
| IncreaseV4 (p : PrincipalData) (total : Z)
| IncreaseV5 (p : PrincipalData) (total : Z)
| SetLockV5 (p : PrincipalData) (total height : Z)
| AccelerateUnlock (p : PrincipalData)
| Credit (p : PrincipalData) (amount : Z)
| Debit (p : PrincipalData) (amount : Z).

Section LedgerOps.
Context `{Sha256} {S : Type} `{KVStore S} (env : DbEnv).

Definition and_save (m : SnapM S unit) : SnapM S unit := _ ← m; save.

Definition run_ledger_op (op : LedgerOp) : M S VmExecutionError unit :=
  match op with
  | Transfer p q amount => with_snapshot env p (transfer_to env q amount)
  | LockV1 p a h => with_snapshot env p (and_save (lock_tokens_v1 env a h))
  | LockV2 p a h => with_snapshot env p (and_save (lock_tokens_v2 env a h))
  | LockV3 p a h => with_snapshot env p (and_save (lock_tokens_v3 env a h))
  | LockV4 p a h => with_snapshot env p (and_save (lock_tokens_v4 env a h))
  | LockV5 p a h => with_snapshot env p (and_save (lock_tokens_v5 env a h))
  | ExtendV2 p h => with_snapshot env p (and_save (extend_lock_v2 env h))
  | ExtendV3 p h => with_snapshot env p (and_save (extend_lock_v3 env h))
  | ExtendV4 p h => with_snapshot env p (and_save (extend_lock_v4 env h))
  | UpdateUnlockV5 p h => with_snapshot env p (and_save (update_unlock_v5 env h))
  | IncreaseV2 p t => with_snapshot env p (and_save (increase_lock_v2 env t))
  | IncreaseV3 p t => with_snapshot env p (and_save (increase_lock_v3 env t))
  | IncreaseV4 p t => with_snapshot env p (and_save (increase_lock_v4 env t))
  | IncreaseV5 p t => with_snapshot env p (and_save (increase_lock_v5 env t))
  | SetLockV5 p t h => with_snapshot env p (and_save (set_lock_v5 env t h))
  | AccelerateUnlock p => with_snapshot env p (and_save (accelerate_unlock env))
  | Credit p a => with_snapshot env p (and_save (credit env a))
  | Debit p a => with_snapshot env p (and_save (debit env a))
  end.

Fixpoint run_ledger_ops (ops : list LedgerOp) : M S VmExecutionError unit :=
  match ops with
  | [] => mret tt
  | op :: ops => _ ← run_ledger_op op; run_ledger_ops ops
  end.
End LedgerOps.

(** ** Ledger operations over a store are simulated over its view *)

Section SimLedger.
Context `{Sha256} {S : Type} `{KVStoreLaws S} (env : DbEnv).

Record snap_rel (x : STXBalanceSnapshot S) (y : STXBalanceSnapshot (gmap string string))
    : Prop := {
  rel_principal : snap_principal x = snap_principal y;
  rel_balance : snap_balance x = snap_balance y;
  rel_burn : snap_burn_block_height x = snap_burn_block_height y;
  rel_db : views (snap_db x) (snap_db y);
}.

Lemma sim_on_db {A} (m : M S VmExecutionError A) m' :
  sim views m m' -> sim snap_rel (on_db m) (on_db m').
Proof.
  intros Hm x y [Hp Hb Hh Hdb]. destruct (Hm _ _ Hdb) as [Heq Hdb'].
  unfold on_db, zoom. destruct (m (snap_db x)), (m' (snap_db y)). by split; [| split].
Qed.

Lemma sim_on_balance {A} (m : M STXBalance VmExecutionError A) :
  sim snap_rel (on_balance m) (on_balance m).
Proof.
  intros x y [Hp Hb Hh Hdb]. unfold on_balance, zoom. rewrite Hb.
  destruct (m (snap_balance y)). by split; [| split].
Qed.

Lemma sim_balance : sim snap_rel balance balance.
Proof. intros x y HR. by split; [cbn; f_equal; apply HR |]. Qed.
Lemma sim_burn_block_height : sim snap_rel burn_block_height burn_block_height.
Proof. intros x y HR. by split; [cbn; f_equal; apply HR |]. Qed.
Lemma sim_principal : sim snap_rel principal principal.
Proof. intros x y HR. by split; [cbn; f_equal; apply HR |]. Qed.
Lemma sim_set_balance b : sim snap_rel (set_balance b) (set_balance b).
Proof. intros x y []. by split; [| split]. Qed.
#[local] Hint Resolve sim_on_db sim_on_balance sim_balance sim_burn_block_height
  sim_principal sim_set_balance : sim.

Lemma sim_balance_view {A} (view : Z -> Z -> Z -> Z -> Z -> STXBalance -> A) :
  sim snap_rel (balance_view env view) (balance_view env view).
Proof. unfold balance_view. solve_sim. Qed.
#[local] Hint Resolve sim_balance_view : sim.

Ltac unfold_snapshot :=
  unfold balance_view_res, transfer_to, save, debit, credit, can_transfer, get_available_balance,
    unlock_available_tokens_if_any, has_locked_tokens, has_unlockable_tokens,
    lock_tokens_v1, lock_tokens_v2, lock_tokens_v3, lock_tokens_v4, lock_tokens_v5,
    lock_tokens_with, extend_lock_v2, extend_lock_v3, extend_lock_v4, update_unlock_v5,
    extend_lock_with, increase_lock_v2, increase_lock_v3, increase_lock_v4,
    increase_lock_v5, increase_lock_with, set_lock_v5, accelerate_unlock, and_save,
    is_v2_locked, is_v3_locked, is_v4_locked, is_v5_locked, canonical_balance_repr,
    balance_view_res.

Lemma sim_get_account_stx_balance p :
  sim (S := S) views (get_account_stx_balance p) (get_account_stx_balance p).
Proof. unfold get_account_stx_balance. solve_sim. Qed.
#[local] Hint Resolve sim_get_account_stx_balance : sim.

Lemma sim_with_snapshot {A} p (m : SnapM S A) m' :
  sim snap_rel m m' -> sim views (with_snapshot env p m) (with_snapshot env p m').
Proof.
  intros Hm s v HR. unfold with_snapshot, get_stx_balance_snapshot.
  pose (read := fun (T : Type) (K : KVStore T) =>
    (stx_balance ← get_account_stx_balance p;
     cur_burn_height ← get_current_burnchain_block_height env;
     mret (stx_balance, cur_burn_height)) : M T VmExecutionError (STXBalance * Z)).
  assert (sim views (read S _) (read (gmap string string) _)) as Hread
    by (unfold read; solve_sim).
  destruct (Hread s v HR) as [Heq HR']. fold (read S _) (read (gmap string string) _).
  destruct (read S _ s) as [r s'], (read _ _ v) as [r' v']; cbn in *. subst r'.
  destruct r as [[b burn] | |]; [| done ..].
  destruct (Hm (mkSnapshot p b burn s') (mkSnapshot p b burn v')) as [Heq2 HR2]; [done |].
  destruct (m _), (m' _); cbn in *. split; [done | apply HR2].
Qed.

Lemma sim_can_transfer a : sim snap_rel (can_transfer env a) (can_transfer env a).
Proof. unfold_snapshot; solve_sim. Qed.

Lemma sim_transfer_to q a : sim snap_rel (transfer_to env q a) (transfer_to env q a).
Proof. unfold_snapshot; solve_sim. Qed.

Lemma sim_run_ledger_op op : sim (S := S) views (run_ledger_op env op) (run_ledger_op env op).
Proof.
  destruct op; cbn [run_ledger_op]; apply sim_with_snapshot; unfold_snapshot; solve_sim.
Qed.
#[local] Hint Resolve sim_run_ledger_op : sim.

Lemma sim_run_ledger_ops ops :
  sim (S := S) views (run_ledger_ops env ops) (run_ledger_ops env ops).
Proof. induction ops; cbn; solve_sim. Qed.
End SimLedger.

(** ** Balances in a store view *)

Section MapLedger.
Context `{Sha256} (env : DbEnv).
Abbreviation Db := (gmap string string).
Implicit Types (m : Db) (p q : PrincipalData).

(** What [get_account_stx_balance] reads, and a total version of it *)
Definition account_of m p : result VmExecutionError STXBalance :=
  match m !! make_key_for_account_balance p with
  | None => Ok zero
  | Some s => stx_deserialize s
  end.

Definition balance_at m p : STXBalance :=
  match account_of m p with Ok b => b | _ => zero end.

Definition ledger_wf m : Prop :=
  forall p, wf_principal p -> exists b, account_of m p = Ok b /\ wf_balance b.

(** The reads of chain state succeed: the stored epoch is valid, and the burn
    height of the current epoch is known. *)
Definition chain_ready m (burn : Z) (heights : Z * Z * Z * Z) : Prop :=
  get_current_burnchain_block_height env m = (Ok burn, m) /\
  get_unlock_heights env m = (Ok heights, m).

Lemma get_account_stx_balance_map m p : get_account_stx_balance p m = (account_of m p, m).
Proof.
  unfold get_account_stx_balance, db_get_data, account_of, mbind, M_bind. cbn.
  destruct (m !! make_key_for_account_balance p) as [s |]; [| done].
  cbn. by destruct (stx_deserialize s).
Qed.

Lemma epoch_version_same m m' :
  m' !! clarity_state_epoch_key = m !! clarity_state_epoch_key ->
  get_clarity_epoch_version m = ((get_clarity_epoch_version m).1, m) /\
  get_clarity_epoch_version m' = ((get_clarity_epoch_version m).1, m').
Proof.
  intros Heq. unfold get_clarity_epoch_version, db_get_data, mbind, M_bind. cbn.
  rewrite Heq. destruct (m !! _) as [s |]; [| done]. cbn.
  by destruct (u32_deserialize s).
Qed.

(** The chain state read in a given epoch *)
Definition unlock_heights_in (e : StacksEpochId) : Z * Z * Z * Z :=
  (burn_v1_unlock_height env,
   if epoch_leb Epoch22 e then burn_v2_unlock_height env else u32_max,
   if epoch_leb Epoch25 e then burn_v3_unlock_height env else u32_max,
   if epoch_leb Epoch40 e then burn_pox_5_activation_height env else u32_max).

Lemma get_unlock_heights_map m e :
  get_clarity_epoch_version m = (Ok e, m) ->
  get_unlock_heights env m = (Ok (unlock_heights_in e), m).
Proof.
  intros E. unfold get_unlock_heights, get_v2_unlock_height, get_v3_unlock_height,
    get_v4_unlock_height.
  do 3 (erewrite M_bind_eval by (by erewrite M_bind_eval by exact E)). done.
Qed.

Lemma get_current_burn_map m m' e :
  get_clarity_epoch_version m = (Ok e, m) -> get_clarity_epoch_version m' = (Ok e, m') ->
  (get_current_burnchain_block_height env m').1 = (get_current_burnchain_block_height env m).1 /\
  (get_current_burnchain_block_height env m').2 = m'.
Proof.
  intros E E'. unfold get_current_burnchain_block_height.
  rewrite (M_bind_eval _ _ _ _ _ E), (M_bind_eval _ _ _ _ _ E').
  unfold get_index_block_header_hash, lift, mret, M_ret, mbind, M_bind.
  repeat case_match; done.
Qed.

Lemma chain_ready_same m m' burn heights :
  m' !! clarity_state_epoch_key = m !! clarity_state_epoch_key ->
  chain_ready m burn heights -> chain_ready m' burn heights.
Proof.
  intros Heq [Hb Hh]. destruct (epoch_version_same m m' Heq) as [E E'].
  destruct (get_clarity_epoch_version m).1 as [e | x |].
  - destruct (get_current_burn_map m m' e E E') as [Hb1 Hb2].
    rewrite (get_unlock_heights_map m e E) in Hh. injection Hh as <-. split.
    + rewrite Hb in Hb1. destruct (get_current_burnchain_block_height env m'). cbn in *.
      congruence.
    + by apply get_unlock_heights_map.
  - unfold get_current_burnchain_block_height in Hb. by rewrite (M_bind_Err _ _ _ _ _ E) in Hb.
  - unfold get_current_burnchain_block_height in Hb. by rewrite (M_bind_Panic _ _ _ _ E) in Hb.
Qed.

Lemma epoch_kept_by_account_write m p s :
  <[make_key_for_account_balance p := s]> m !! clarity_state_epoch_key
  = m !! clarity_state_epoch_key.
Proof. apply lookup_insert_ne, account_key_not_epoch. Qed.

Lemma total_normalize b : total (normalize b) = total b.
Proof. unfold normalize, total. destruct (amount_locked b =? 0) eqn:E; ints_hyps; cbn; lia. Qed.

Lemma wf_normalize b : wf_balance b -> wf_balance (normalize b).
Proof.
  unfold normalize, wf_balance. intros (? & ? & ? & ?).
  destruct (amount_locked b =? 0) eqn:E; ints_hyps; cbn; repeat split; lia.
Qed.

Lemma account_write_same m p b :
  wf_balance b ->
  account_of (<[make_key_for_account_balance p := stx_serialize b]> m) p = Ok (normalize b).
Proof. intros Hb. unfold account_of. rewrite lookup_insert_eq. by apply stx_round_trip. Qed.

Lemma account_write_other m p q s :
  wf_principal p -> wf_principal q -> p <> q ->
  account_of (<[make_key_for_account_balance p := s]> m) q = account_of m q.
Proof.
  intros Hp Hq Hne. unfold account_of. rewrite lookup_insert_ne; [done |].
  by intros E%balance_key_inj.
Qed.

Lemma ledger_wf_write m p b :
  wf_principal p -> ledger_wf m -> wf_balance b ->
  ledger_wf (<[make_key_for_account_balance p := stx_serialize b]> m).
Proof.
  intros Hp Hm Hb q Hq. destruct (decide (p = q)) as [<- | Hne].
  - exists (normalize b). split; [by apply account_write_same | by apply wf_normalize].
  - rewrite account_write_other by done. by apply Hm.
Qed.

Lemma with_snapshot_map {A} m p burn heights b (op : SnapM Db A) :
  chain_ready m burn heights -> account_of m p = Ok b ->
  with_snapshot env p op m
  = let '(r, snap) := op (mkSnapshot p b burn m) in (r, snap_db snap).
Proof.
  intros [Hburn _] Hb. unfold with_snapshot, get_stx_balance_snapshot, mbind, M_bind.
  by rewrite get_account_stx_balance_map, Hb, Hburn.
Qed.
End MapLedger.

(** ** Snapshot operations only change the working balance *)

Section Framed.
Context `{Sha256} (env : DbEnv).
Abbreviation Db := (gmap string string).
Abbreviation SnapDb := (STXBalanceSnapshot (gmap string string)).
Implicit Types (m : Db) (snap : SnapDb).

Definition framed {A} (op : SnapM Db A) : Prop :=
  forall snap, (op snap).2 = set_snap_balance (snap_balance (op snap).2) snap.

Lemma framed_pure {A} (f : SnapDb -> result VmExecutionError A) :
  framed (fun snap => (f snap, snap)).
Proof. by intros []. Qed.

Lemma framed_bind {A B} (op : SnapM Db A) (k : A -> SnapM Db B) :
  framed op -> (forall a, framed (k a)) -> framed (op ≫= k).
Proof.
  intros Hop Hk snap. specialize (Hop snap). unfold mbind, M_bind.
  destruct (op snap) as [[a | |] snap1]; cbn in *; [| done ..].
  rewrite (Hk a snap1), Hop. done.
Qed.

Lemma framed_set_balance b : framed (set_balance b).
Proof. done. Qed.

Lemma framed_on_balance {A} (f : M STXBalance VmExecutionError A) : framed (on_balance f).
Proof.
  intros [p b burn m]. unfold on_balance, zoom. cbn. by destruct (f b).
Qed.

Lemma unlock_heights_read_only m : (get_unlock_heights env m).2 = m.
Proof.
  destruct (epoch_version_same m m eq_refl) as [E _].
  destruct (get_clarity_epoch_version m).1 as [e | x |].
  - by rewrite (get_unlock_heights_map env m e E).
  - unfold get_unlock_heights, get_v2_unlock_height.
    by rewrite (M_bind_Err _ _ _ _ _ (M_bind_Err _ _ _ _ _ E)).
  - unfold get_unlock_heights, get_v2_unlock_height.
    by rewrite (M_bind_Panic _ _ _ _ (M_bind_Panic _ _ _ _ E)).
Qed.

Lemma framed_heights : framed (on_db (get_unlock_heights env)).
Proof.
  intros [p b burn m]. unfold on_db, zoom. cbn [snap_db].
  pose proof (unlock_heights_read_only m) as E. destruct (get_unlock_heights env m) as [r m'].
  cbn in E. by subst m'.
Qed.

Lemma framed_lift {A} (r : result VmExecutionError A) : framed (lift r).
Proof. apply (framed_pure (fun _ => r)). Qed.
Lemma framed_ret {A} (a : A) : framed (mret a).
Proof. apply (framed_pure (fun _ => Ok a)). Qed.
Lemma framed_throw {A} e : framed (throw (A := A) e).
Proof. apply (framed_pure (fun _ => Err e)). Qed.
Lemma framed_ensure c e : framed (ensure c e).
Proof. destruct c; [apply framed_ret | apply framed_throw]. Qed.
Lemma framed_balance : framed balance.
Proof. apply (framed_pure (fun snap => Ok (snap_balance snap))). Qed.
Lemma framed_burn : framed burn_block_height.
Proof. apply (framed_pure (fun snap => Ok (snap_burn_block_height snap))). Qed.
End Framed.

Create HintDb framed.
#[export] Hint Resolve framed_set_balance framed_on_balance framed_heights framed_lift
  framed_ret framed_throw framed_ensure framed_balance framed_burn : framed.

Ltac solve_framed :=
  repeat first
    [ progress intros
    | solve [eauto 2 with framed]
    | apply framed_bind
    | case_match ].

Ltac unfold_snapshot :=
  unfold debit, credit, can_transfer, get_available_balance,
    lock_tokens_v1, lock_tokens_v2, lock_tokens_v3, lock_tokens_v4, lock_tokens_v5,
    lock_tokens_with, extend_lock_v2, extend_lock_v3, extend_lock_v4, update_unlock_v5,
    extend_lock_with, increase_lock_v2, increase_lock_v3, increase_lock_v4,
    increase_lock_v5, increase_lock_with, set_lock_v5, accelerate_unlock, and_save,
    unlock_available_tokens_if_any, has_locked_tokens, has_unlockable_tokens,
    is_v2_locked, is_v3_locked, is_v4_locked, is_v5_locked, canonical_balance_repr,
    balance_view_res, balance_view.

(** The account and the method of the operations that change one account *)
Definition account_op `{Sha256} {S} `{KVStore S} (env : DbEnv) (op : LedgerOp)
    : option (PrincipalData * SnapM S unit) :=
  match op with
  | Transfer _ _ _ => None
  | LockV1 p a h => Some (p, lock_tokens_v1 env a h)
  | LockV2 p a h => Some (p, lock_tokens_v2 env a h)
  | LockV3 p a h => Some (p, lock_tokens_v3 env a h)
  | LockV4 p a h => Some (p, lock_tokens_v4 env a h)
  | LockV5 p a h => Some (p, lock_tokens_v5 env a h)
  | ExtendV2 p h => Some (p, extend_lock_v2 env h)
  | ExtendV3 p h => Some (p, extend_lock_v3 env h)
  | ExtendV4 p h => Some (p, extend_lock_v4 env h)
  | UpdateUnlockV5 p h => Some (p, update_unlock_v5 env h)
  | IncreaseV2 p t => Some (p, increase_lock_v2 env t)
  | IncreaseV3 p t => Some (p, increase_lock_v3 env t)
  | IncreaseV4 p t => Some (p, increase_lock_v4 env t)
  | IncreaseV5 p t => Some (p, increase_lock_v5 env t)
  | SetLockV5 p t h => Some (p, set_lock_v5 env t h)
  | AccelerateUnlock p => Some (p, accelerate_unlock env)
  | Credit p a => Some (p, credit env a)
  | Debit p a => Some (p, debit env a)
  end.

Lemma run_account_op `{Sha256} {S} `{KVStore S} env op p (f : SnapM S unit) :
  account_op env op = Some (p, f) -> run_ledger_op env op = with_snapshot env p (and_save f).
Proof. by destruct op; intros [= <- <-]. Qed.

Lemma account_op_framed `{Sha256} env op p f : account_op env op = Some (p, f) -> framed f.
Proof. destruct op; intros [= <- <-]; unfold_snapshot; solve_framed. Qed.

(** ** Totals of single-account operations *)

Section Totals.
Context `{Sha256} (env : DbEnv).
Abbreviation Db := (gmap string string).
Abbreviation SnapDb := (STXBalanceSnapshot (gmap string string)).
Implicit Types (m : Db) (snap : SnapDb).

(** The chain state of a snapshot is readable. *)
Definition snap_ready snap (v1 v2 v3 v4 : Z) : Prop :=
  get_unlock_heights env (snap_db snap) = (Ok (v1, v2, v3, v4), snap_db snap) /\
  is_u64 (snap_burn_block_height snap).

Lemma snap_ready_set_balance snap v1 v2 v3 v4 b :
  snap_ready snap v1 v2 v3 v4 -> snap_ready (set_snap_balance b snap) v1 v2 v3 v4.
Proof. done. Qed.

Lemma balance_view_eval {A} (view : Z -> Z -> Z -> Z -> Z -> STXBalance -> A) snap v1 v2 v3 v4 :
  snap_ready snap v1 v2 v3 v4 ->
  balance_view env view snap
  = (Ok (view (snap_burn_block_height snap) v1 v2 v3 v4 (snap_balance snap)), snap).
Proof.
  intros [Hh _]. unfold balance_view.
  erewrite M_bind_eval by (apply zoom_eval; exact Hh). by destruct snap.
Qed.

Lemma balance_view_res_eval {A} (view : Z -> Z -> Z -> Z -> Z -> STXBalance -> result _ A)
    snap v1 v2 v3 v4 :
  snap_ready snap v1 v2 v3 v4 ->
  balance_view_res env view snap
  = (view (snap_burn_block_height snap) v1 v2 v3 v4 (snap_balance snap), snap).
Proof.
  intros Hr. unfold balance_view_res. by erewrite M_bind_eval by (by apply balance_view_eval).
Qed.

(** The working balance once expired locks are released *)
Definition canonical_balance (burn v1 v2 v3 v4 : Z) (b : STXBalance) : STXBalance :=
  match canonical_repr_at_block burn v1 v2 v3 v4 b with Ok (b', _) => b' | _ => b end.

Lemma canonical_balance_spec burn v1 v2 v3 v4 b :
  wf_balance b ->
  wf_balance (canonical_balance burn v1 v2 v3 v4 b) /\
  total (canonical_balance burn v1 v2 v3 v4 b) = total b /\
  has_unlockable_tokens_at_burn_block burn v1 v2 v3 v4 (canonical_balance burn v1 v2 v3 v4 b)
    = false /\
  has_locked_tokens_at_burn_block burn v1 v2 v3 v4 (canonical_balance burn v1 v2 v3 v4 b)
    = has_locked_tokens_at_burn_block burn v1 v2 v3 v4 b.
Proof.
  intros Hb. destruct (canonical_total burn v1 v2 v3 v4 b Hb) as (b' & n & E).
  unfold canonical_balance. rewrite E.
  by destruct (canonical_wf _ _ _ _ _ _ _ _ Hb E) as (? & ? & ? & ? & _).
Qed.

Lemma unlock_eval snap v1 v2 v3 v4 :
  snap_ready snap v1 v2 v3 v4 -> wf_balance (snap_balance snap) ->
  exists n, unlock_available_tokens_if_any env snap
    = (Ok n, set_snap_balance
               (canonical_balance (snap_burn_block_height snap) v1 v2 v3 v4 (snap_balance snap))
               snap).
Proof.
  intros Hr Hb. unfold unlock_available_tokens_if_any, canonical_balance.
  destruct (canonical_total (snap_burn_block_height snap) v1 v2 v3 v4 _ Hb) as (b' & n & E).
  exists n. erewrite M_bind_eval by (rewrite (balance_view_res_eval _ _ _ _ _ _ Hr), E; done).
  by rewrite E.
Qed.

(** A PoX constructor of [STXBalance] *)
Definition lock_ctor (mk : Z -> Z -> Z -> STXBalance) : Prop :=
  forall u l h, amount_unlocked (mk u l h) = u /\ amount_locked (mk u l h) = l /\
    unlock_height (mk u l h) = h.

Lemma canonical_of_locked burn v1 v2 v3 v4 b :
  has_locked_tokens_at_burn_block burn v1 v2 v3 v4 b = true ->
  canonical_balance burn v1 v2 v3 v4 b = b.
Proof.
  intros Hl. unfold canonical_balance. rewrite canonical_fixed; [done |].
  rewrite unlockable_spec. rewrite locked_spec in Hl.
  apply andb_true_iff in Hl as [-> Hl]. ints_hyps. cbn. apply Z.leb_gt. lia.
Qed.

Lemma wf_new_lock mk u l h :
  lock_ctor mk -> 0 <= u -> 0 <= l -> u + l <= u128_max -> is_u64 h ->
  wf_balance (mk u l h) /\ total (mk u l h) = u + l /\
  amount_locked (mk u l h) = l /\ unlock_height (mk u l h) = h.
Proof.
  intros Hmk Hu Hl Hs Hh. destruct (Hmk u l h) as (E1 & E2 & E3).
  unfold wf_balance, total. rewrite E1, E2, E3. done.
Qed.

Lemma unlock_inv snap n snap1 v1 v2 v3 v4 :
  snap_ready snap v1 v2 v3 v4 -> wf_balance (snap_balance snap) ->
  unlock_available_tokens_if_any env snap = (Ok n, snap1) ->
  let c := canonical_balance (snap_burn_block_height snap) v1 v2 v3 v4 (snap_balance snap) in
  snap1 = set_snap_balance c snap /\ snap_ready (set_snap_balance c snap) v1 v2 v3 v4 /\
  wf_balance c /\ total c = total (snap_balance snap).
Proof.
  intros Hr Hb Hu c. destruct (unlock_eval _ _ _ _ _ Hr Hb) as [k E]. rewrite E in Hu.
  injection Hu as <- <-.
  destruct (canonical_balance_spec (snap_burn_block_height snap) v1 v2 v3 v4 _ Hb)
    as (? & ? & _). done.
Qed.

(** Take a computation that returned apart, reading the balance views in the
    current state. *)
Ltac snap_step :=
  match goal with
  | H : (_ ≫= _) _ = (Ok _, _) |- _ => step_M H
  | H : unlock_available_tokens_if_any _ ?s = (Ok _, _), Hr : snap_ready ?s _ _ _ _,
    Hb : wf_balance (snap_balance ?s) |- _ =>
      let Hw := fresh "Hw" in let Ht := fresh "Ht" in let Hr' := fresh "Hr" in
      apply (unlock_inv _ _ _ _ _ _ _ Hr Hb) in H as (-> & Hr' & Hw & Ht)
  | H : balance_view _ _ ?s = (Ok _, _), Hr : snap_ready ?s _ _ _ _ |- _ =>
      rewrite (balance_view_eval _ _ _ _ _ _ Hr) in H; injection H as H <-
  | H : balance_view_res _ _ ?s = (Ok _, _), Hr : snap_ready ?s _ _ _ _ |- _ =>
      rewrite (balance_view_res_eval _ _ _ _ _ _ Hr) in H; injection H as H <-
  | H : balance _ = (Ok _, _) |- _ => injection H as <- <-
  | H : burn_block_height _ = (Ok _, _) |- _ => injection H as <- <-
  | H : set_balance _ _ = (Ok _, _) |- _ => injection H as <-
  | H : _ = (Ok _, _) |- _ => progress step_M H
  end.

Lemma lock_tokens_total msg sub mk a h snap snap' v1 v2 v3 v4 :
  snap_ready snap v1 v2 v3 v4 -> wf_balance (snap_balance snap) ->
  is_u64 h -> is_u128 a -> lock_ctor mk -> (forall o z, sub o = Ok z -> o = Some z) ->
  lock_tokens_with env msg sub mk a h snap = (Ok tt, snap') ->
  wf_balance (snap_balance snap') /\ total (snap_balance snap') = total (snap_balance snap) /\
  amount_locked (snap_balance snap') = a /\ unlock_height (snap_balance snap') = h /\
  a <> 0 /\ snap_burn_block_height snap < h /\
  has_locked_tokens_at_burn_block (snap_burn_block_height snap) v1 v2 v3 v4
    (snap_balance snap) = false.
Proof.
  intros Hr Hb Hh Ha Hmk Hsub Hop. unfold lock_tokens_with, has_locked_tokens in Hop.
  repeat snap_step. cbn [snap_balance set_snap_balance snap_burn_block_height] in *.
  apply Hsub in Hm7. apply get_total_balance_Ok in Hm6 as ->.
  destruct (canonical_balance_spec (snap_burn_block_height snap) v1 v2 v3 v4 _ Hb)
    as (_ & _ & _ & <-).
  destruct Hw as (? & ? & ? & ?). unfold total in *. ints_hyps.
  destruct (wf_new_lock mk a8 a h Hmk) as (? & ? & ? & ?); [ints .. |].
  unfold total in *. split_and!; try done; try ints; congruence.
Qed.

Lemma extend_lock_total mk h snap snap' v1 v2 v3 v4 :
  snap_ready snap v1 v2 v3 v4 -> wf_balance (snap_balance snap) ->
  is_u64 h -> lock_ctor mk -> extend_lock_with env mk h snap = (Ok tt, snap') ->
  wf_balance (snap_balance snap') /\ total (snap_balance snap') = total (snap_balance snap) /\
  amount_locked (snap_balance snap') = amount_locked (snap_balance snap) /\
  unlock_height (snap_balance snap') = h /\ snap_burn_block_height snap < h.
Proof.
  intros Hr Hb Hh Hmk Hop. unfold extend_lock_with, has_locked_tokens in Hop.
  repeat snap_step. cbn [snap_balance set_snap_balance snap_burn_block_height] in *.
  destruct (canonical_balance_spec (snap_burn_block_height snap) v1 v2 v3 v4 _ Hb)
    as (_ & _ & _ & E).
  assert (canonical_balance (snap_burn_block_height snap) v1 v2 v3 v4 (snap_balance snap)
          = snap_balance snap) as Ec by (apply canonical_of_locked; congruence).
  rewrite Ec in *. destruct Hb as (? & ? & ? & ?).
  destruct (wf_new_lock mk (amount_unlocked (snap_balance snap))
              (amount_locked (snap_balance snap)) h Hmk) as (? & ? & ? & ?); [done .. |].
  ints_hyps. split_and!; try done; lia.
Qed.

Lemma increase_lock_total is_locked ver msg add sub mk t snap snap' v1 v2 v3 v4 :
  snap_ready snap v1 v2 v3 v4 -> wf_balance (snap_balance snap) -> is_u128 t -> lock_ctor mk ->
  (forall o z, add o = Ok z -> o = Some z) -> (forall o z, sub o = Ok z -> o = Some z) ->
  (forall s b s', snap_ready s v1 v2 v3 v4 -> is_locked s = (Ok b, s') -> s' = s) ->
  increase_lock_with env is_locked ver msg add sub mk t snap = (Ok tt, snap') ->
  wf_balance (snap_balance snap') /\ total (snap_balance snap') = total (snap_balance snap) /\
  amount_locked (snap_balance snap') = t /\ amount_locked (snap_balance snap) <= t /\
  unlock_height (snap_balance snap') = unlock_height (snap_balance snap).
Proof.
  intros Hr Hb Hh Hmk Hadd Hsub Hil Hop. unfold increase_lock_with, has_locked_tokens in Hop.
  repeat (snap_step || match goal with H : is_locked _ = (Ok _, _) |- _ => apply Hil in H as ->; [| done] end).
  cbn [snap_balance set_snap_balance snap_burn_block_height] in *.
  destruct (canonical_balance_spec (snap_burn_block_height snap) v1 v2 v3 v4 _ Hb)
    as (_ & _ & _ & E).
  assert (canonical_balance (snap_burn_block_height snap) v1 v2 v3 v4 (snap_balance snap)
          = snap_balance snap) as Ec by (apply canonical_of_locked; congruence).
  rewrite Ec in *. destruct Hb as (? & ? & ? & ?). 
  repeat match goal with
  | H : add _ = Ok _ |- _ => apply Hadd in H
  | H : sub _ = Ok _ |- _ => apply Hsub in H
  end. ints_hyps. subst.
  match goal with |- context [mk ?u t ?h] =>
    destruct (wf_new_lock mk u t h Hmk) as (? & ? & ? & ?); [ints .. |] end.
  unfold total in *. split_and!; try done; ints.
Qed.

Lemma set_lock_v5_total t h snap snap' v1 v2 v3 v4 :
  snap_ready snap v1 v2 v3 v4 -> wf_balance (snap_balance snap) -> is_u128 t -> is_u64 h ->
  set_lock_v5 env t h snap = (Ok tt, snap') ->
  wf_balance (snap_balance snap') /\ total (snap_balance snap') = total (snap_balance snap) /\
  amount_locked (snap_balance snap') = t /\ unlock_height (snap_balance snap') = h.
Proof.
  intros Hr Hb Ht Hh Hop.
  unfold set_lock_v5, has_locked_tokens, is_v5_locked, canonical_balance_repr, err_or in Hop.
  repeat snap_step. cbn [snap_balance set_snap_balance snap_burn_block_height] in *.
  repeat match goal with H : ok_or _ _ = Ok _ |- _ => apply ok_or_Ok in H end.
  destruct Hw as (? & ? & ? & ?). ints_hyps. subst.
  match goal with |- context [LockedPoxFive ?u t h] =>
    destruct (wf_new_lock LockedPoxFive u t h) as (? & ? & ? & ?); [done | ints .. |] end.
  unfold total in *. split_and!; try done; ints.
Qed.

Lemma set_amount_unlocked_views u b :
  amount_unlocked (set_amount_unlocked u b) = u /\
  amount_locked (set_amount_unlocked u b) = amount_locked b /\
  unlock_height (set_amount_unlocked u b) = unlock_height b.
Proof. by destruct b. Qed.

Lemma wf_set_amount_unlocked u b :
  wf_balance b -> 0 <= u -> u + amount_locked b <= u128_max ->
  wf_balance (set_amount_unlocked u b) /\
  total (set_amount_unlocked u b) = total b - amount_unlocked b + u.
Proof.
  intros (? & ? & ? & ?) Hu Hs. destruct (set_amount_unlocked_views u b) as (E1 & E2 & E3).
  unfold wf_balance, total. rewrite E1, E2, E3. split_and!; try done; lia.
Qed.

Lemma debit_total a snap snap' v1 v2 v3 v4 :
  snap_ready snap v1 v2 v3 v4 -> wf_balance (snap_balance snap) -> is_u128 a ->
  debit env a snap = (Ok tt, snap') ->
  wf_balance (snap_balance snap') /\ total (snap_balance snap') = total (snap_balance snap) - a.
Proof.
  intros Hr Hb Ha Hop. unfold debit, on_balance in Hop. repeat snap_step.
  unfold debit_unlocked_amount in Hk.
  destruct (u128_checked_sub _ a) as [u |] eqn:E; [| done]. injection Hk as <-.
  cbn [snap_balance set_snap_balance] in *. ints_hyps. destruct Hw as (? & ? & ? & ?) eqn:Ew.
  destruct (wf_set_amount_unlocked u _ Hw) as [? Et]; [ints .. |].
  split; [done |]. unfold total in *. ints.
Qed.

(** The total of a credited account must not exceed the machine range; the
    code checks the unlocked part only. *)
Lemma credit_total a snap snap' v1 v2 v3 v4 :
  snap_ready snap v1 v2 v3 v4 -> wf_balance (snap_balance snap) -> is_u128 a ->
  total (snap_balance snap) + a <= u128_max ->
  credit env a snap = (Ok tt, snap') ->
  wf_balance (snap_balance snap') /\ total (snap_balance snap') = total (snap_balance snap) + a.
Proof.
  intros Hr Hb Ha Hs Hop. unfold credit in Hop. snap_step. snap_step. snap_step. snap_step.
  unfold checked_add_unlocked_amount in Hk0. cbn [snap_balance set_snap_balance] in *.
  destruct (u128_checked_add _ a) as [u |] eqn:E; repeat snap_step.
  cbn [snap_balance set_snap_balance] in *. ints_hyps. destruct Hw as (? & ? & ? & ?) eqn:Ew.
  destruct (wf_set_amount_unlocked u _ Hw) as [? Et]; [unfold total in *; ints .. |].
  split; [done |]. unfold total in *. ints.
Qed.

Lemma accelerate_total snap snap' v1 v2 v3 v4 :
  snap_ready snap v1 v2 v3 v4 -> wf_balance (snap_balance snap) ->
  accelerate_unlock env snap = (Ok tt, snap') ->
  wf_balance (snap_balance snap') /\ total (snap_balance snap') = total (snap_balance snap).
Proof.
  intros Hr Hb Hop. unfold accelerate_unlock in Hop. repeat snap_step.
  cbn [snap_balance set_snap_balance snap_burn_block_height] in *.
  assert (is_u64 ((snap_burn_block_height snap + 1) mod 2 ^ 64)) as Hh.
  { pose proof (Z.mod_pos_bound (snap_burn_block_height snap + 1) (2 ^ 64)). ints. }
  destruct (canonical_balance _ _ _ _ _ _); repeat snap_step;
    cbn [snap_balance set_snap_balance] in *; split; try done.
  all: destruct Hw as (? & ? & ? & ?); by unfold wf_balance.
Qed.
End Totals.

(** ** Effect of an operation on the ledger *)

(** The arguments are machine integers and well-formed principals. *)
Definition op_args_ok (op : LedgerOp) : Prop :=
  match op with
  | Transfer p q a => wf_principal p /\ wf_principal q /\ is_u128 a
  | LockV1 p a h | LockV2 p a h | LockV3 p a h | LockV4 p a h | LockV5 p a h
  | SetLockV5 p a h => wf_principal p /\ is_u128 a /\ is_u64 h
  | ExtendV2 p h | ExtendV3 p h | ExtendV4 p h | UpdateUnlockV5 p h =>
      wf_principal p /\ is_u64 h
  | IncreaseV2 p t | IncreaseV3 p t | IncreaseV4 p t | IncreaseV5 p t
  | Credit p t | Debit p t => wf_principal p /\ is_u128 t
  | AccelerateUnlock p => wf_principal p
  end.

(** The change of the account's total *)
Definition op_delta (op : LedgerOp) : Z :=
  match op with Credit _ a => a | Debit _ a => - a | _ => 0 end.

Section OpEffects.
Context `{Sha256} (env : DbEnv).
Abbreviation Db := (gmap string string).
Abbreviation SnapDb := (STXBalanceSnapshot (gmap string string)).
Implicit Types (m : Db) (snap : SnapDb) (p q : PrincipalData).

Lemma canonical_repr_read_only (f : STXBalance -> bool) (s s' : SnapDb) b v1 v2 v3 v4 :
  snap_ready env s v1 v2 v3 v4 ->
  (x ← canonical_balance_repr env; mret (f x)) s = (Ok b, s') -> s' = s.
Proof.
  intros Hr Hop. unfold canonical_balance_repr in Hop.
  apply M_bind_Ok in Hop as (x & s1 & Hop & Hx). apply M_bind_Ok in Hop as (y & s2 & Hop & Hy).
  rewrite (balance_view_res_eval env _ _ _ _ _ _ Hr) in Hop.
  injection Hop as _ <-. injection Hy as _ <-. by injection Hx as _ <-.
Qed.

(** An [Option] turned into an error or a panic returns its value. *)
Ltac checked_result :=
  let Hz := fresh in
  intros ? ? Hz; cbv beta delta [err_or] in Hz;
  first [by apply ok_or_Ok in Hz | by apply expect_some_Ok in Hz].

Lemma account_op_total op p f snap snap' v1 v2 v3 v4 :
  account_op env op = Some (p, f) -> op_args_ok op ->
  snap_ready env snap v1 v2 v3 v4 -> wf_balance (snap_balance snap) ->
  total (snap_balance snap) + op_delta op <= u128_max ->
  f snap = (Ok tt, snap') ->
  wf_balance (snap_balance snap') /\
  total (snap_balance snap') = total (snap_balance snap) + op_delta op.
Proof.
  intros Hop Hargs Hr Hb Hs Hf.
  destruct op; cbn in Hop, Hargs, Hs |- *; try discriminate Hop; injection Hop as <- <-.
  1-5: eapply lock_tokens_total in Hf as (? & -> & _);
    [split; [done | lia] | exact Hr | exact Hb | tauto | tauto | done
    | checked_result].
  1-4: eapply extend_lock_total in Hf as (? & -> & _);
    [split; [done | lia] | exact Hr | exact Hb | tauto | done].
  1-4: eapply increase_lock_total in Hf as (? & -> & _);
    [split; [done | lia] | exact Hr | exact Hb | tauto | done
    | checked_result
    | checked_result
    | intros ? ? ?; apply canonical_repr_read_only].
  - eapply set_lock_v5_total in Hf as (? & -> & _); [split; [done | lia] | exact Hr | tauto ..].
  - eapply accelerate_total in Hf as (? & ->); [split; [done | lia] | exact Hr | done].
  - by eapply credit_total in Hf; [| exact Hr | tauto ..].
  - eapply debit_total in Hf as (? & ->); [split; [done | lia] | exact Hr | tauto ..].
Qed.

Lemma account_op_ledger op p (f : SnapM Db unit) m burn v1 v2 v3 v4 :
  account_op env op = Some (p, f) -> op_args_ok op ->
  chain_ready env m burn (v1, v2, v3, v4) -> is_u64 burn ->
  ledger_wf m -> wf_principal p ->
  total (balance_at m p) + op_delta op <= u128_max ->
  ((run_ledger_op env op m).1 <> Ok tt /\ (run_ledger_op env op m).2 = m) \/
  (exists b', run_ledger_op env op m
      = (Ok tt, <[make_key_for_account_balance p := stx_serialize b']> m) /\
    wf_balance b' /\ total b' = total (balance_at m p) + op_delta op).
Proof.
  intros Hop Hargs [Hburn Hh] Hbu Hm Hp Hs. destruct (Hm p Hp) as (b & Hb & Hwf).
  unfold balance_at in *. rewrite Hb in *.
  rewrite (run_account_op env op p f Hop), (with_snapshot_map env m p burn _ b (and_save f))
    by done.
  unfold and_save.
  pose proof (account_op_framed env op p f Hop (mkSnapshot p b burn m)) as Hfr.
  destruct (f (mkSnapshot p b burn m)) as [r snap'] eqn:Ef. cbn [snd] in Hfr.
  destruct r as [[] | e |].
  2: left; rewrite !(M_bind_Err _ _ _ _ _ Ef); split; [done | by cbn; rewrite Hfr].
  2: left; rewrite !(M_bind_Panic _ _ _ _ Ef); split; [done | by cbn; rewrite Hfr].
  right. rewrite (M_bind_eval _ _ _ _ _ Ef).
  destruct (account_op_total op p f (mkSnapshot p b burn m) snap' v1 v2 v3 v4 Hop Hargs
              (conj Hh Hbu) Hwf Hs Ef)
    as [Hwf' Ht].
  exists (snap_balance snap'). rewrite Hfr. done.
Qed.

(** ** Transfers *)

Lemma available_canonical burn v1 v2 v3 v4 b :
  wf_balance b -> get_available_balance_at_burn_block burn v1 v2 v3 v4 b
  = Ok (amount_unlocked (canonical_balance burn v1 v2 v3 v4 b)).
Proof.
  intros Hb. unfold get_available_balance_at_burn_block, canonical_balance,
    canonical_repr_at_block.
  destruct (has_unlockable_tokens_at_burn_block burn v1 v2 v3 v4 b).
  - by rewrite get_total_balance_wf.
  - by destruct b.
Qed.

Lemma locked_canonical burn v1 v2 v3 v4 b :
  wf_balance b -> amount_locked (canonical_balance burn v1 v2 v3 v4 b)
  = (get_locked_balance_at_burn_block burn v1 v2 v3 v4 b).1.
Proof.
  intros Hb. unfold get_locked_balance_at_burn_block, canonical_balance,
    canonical_repr_at_block.
  destruct (has_unlockable_tokens_at_burn_block burn v1 v2 v3 v4 b).
  - by rewrite get_total_balance_wf.
  - by destruct b.
Qed.

Lemma debit_eval a snap v1 v2 v3 v4 :
  snap_ready env snap v1 v2 v3 v4 -> wf_balance (snap_balance snap) -> 0 <= a ->
  let c := canonical_balance (snap_burn_block_height snap) v1 v2 v3 v4 (snap_balance snap) in
  a <= amount_unlocked c ->
  debit env a snap
  = (Ok tt, set_snap_balance (set_amount_unlocked (amount_unlocked c - a) c) snap).
Proof.
  intros Hr Hb Ha c Hle. unfold debit. destruct (unlock_eval env _ _ _ _ _ Hr Hb) as [n E].
  rewrite (M_bind_eval _ _ _ _ _ E). fold c. unfold on_balance, zoom, debit_unlocked_amount.
  destruct (canonical_balance_spec (snap_burn_block_height snap) v1 v2 v3 v4 _ Hb)
    as (Hw & _). fold c in Hw. destruct Hw as (? & ? & ? & _). cbn.
  assert (u128_checked_sub (amount_unlocked c) a = Some (amount_unlocked c - a)) as ->; [| done].
  apply checked_Some. ints.
Qed.

Lemma read_account snap q bq :
  account_of (snap_db snap) q = Ok bq -> exists o,
    on_db (db_get_data stx_deserialize (make_key_for_account_balance q)) snap = (Ok o, snap) /\
    default zero o = bq.
Proof.
  intros Hq. unfold account_of in Hq. unfold on_db, zoom, db_get_data, mbind, M_bind.
  destruct snap as [p b burn m]. cbn in *.
  destruct (m !! _) as [str |]; cbn; [rewrite Hq |]; eexists; split; try done.
  by injection Hq as <-.
Qed.

(** What a transfer does, on every branch *)
Lemma transfer_eval p q a m burn v1 v2 v3 v4 b bq :
  chain_ready env m burn (v1, v2, v3, v4) -> is_u64 burn -> is_u128 a ->
  account_of m p = Ok b -> wf_balance b -> account_of m q = Ok bq -> wf_balance bq ->
  let c := canonical_balance burn v1 v2 v3 v4 b in
  run_ledger_op env (Transfer p q a) m =
  if amount_unlocked c <? a then (Err (Internal VI_InsufficientBalance), m)
  else if u128_max <? amount_unlocked bq + a then (Err (Runtime RE_ArithmeticOverflow None), m)
  else
    (Ok tt,
     <[make_key_for_account_balance p :=
         stx_serialize (set_amount_unlocked (amount_unlocked c - a) c)]>
       (<[make_key_for_account_balance q :=
            stx_serialize (set_amount_unlocked (amount_unlocked bq + a) bq)]> m)).
Proof.
  intros [Hburn Hh] Hbu Ha Hb Hwf Hbq Hwq c. cbn [run_ledger_op].
  rewrite (with_snapshot_map env m p burn _ b) by done.
  assert (snap_ready env (mkSnapshot p b burn m) v1 v2 v3 v4) as Hr by done.
  unfold transfer_to, can_transfer, get_available_balance.
  erewrite M_bind_eval.
  2: { erewrite M_bind_eval; [done |]. rewrite (balance_view_res_eval env _ _ _ _ _ _ Hr).
       cbn [snap_burn_block_height snap_balance]. by rewrite available_canonical. }
  fold c. rewrite Z.leb_antisym.
  destruct (amount_unlocked c <? a) eqn:Eav; [done |]. erewrite M_bind_eval by done.
  destruct (read_account (mkSnapshot p b burn m) q bq Hbq) as (o & Eo & Ho).
  rewrite (M_bind_eval _ _ _ _ _ Eo), Ho. unfold checked_add_unlocked_amount, u128_checked_add.
  destruct (checked 0 u128_max (amount_unlocked bq + a)) as [u |] eqn:Eu.
  - apply checked_Some in Eu as [-> Hu]. rewrite (proj2 (Z.ltb_ge _ _)) by lia.
    erewrite M_bind_eval by done. apply Z.ltb_ge in Eav.
    by rewrite (M_bind_eval _ _ _ _ _ (debit_eval a _ _ _ _ _ Hr Hwf (proj1 Ha) Eav)).
  - apply checked_None in Eu. rewrite (proj2 (Z.ltb_lt _ _)); [done |].
    destruct Hwq as (? & _). ints.
Qed.
End OpEffects.

(** ** The sum of all balances *)

Section Supply.
Context `{Sha256} (env : DbEnv).
Abbreviation Db := (gmap string string).
Implicit Types (m : Db) (p q : PrincipalData) (ps : list PrincipalData).

Definition supply m ps : Z := foldr (fun p acc => total (balance_at m p) + acc) 0 ps.

Lemma supply_cons m p ps : supply m (p :: ps) = total (balance_at m p) + supply m ps.
Proof. done. Qed.

Lemma balance_at_write_same m p b :
  wf_balance b ->
  total (balance_at (<[make_key_for_account_balance p := stx_serialize b]> m) p) = total b.
Proof.
  intros Hb. unfold balance_at. rewrite account_write_same by done. apply total_normalize.
Qed.

Lemma locked_write_same m p b :
  wf_balance b -> amount_locked
    (balance_at (<[make_key_for_account_balance p := stx_serialize b]> m) p) = amount_locked b.
Proof.
  intros Hb. unfold balance_at. rewrite account_write_same by done.
  unfold normalize. by destruct (amount_locked b =? 0) eqn:E; ints_hyps.
Qed.

Lemma unlock_height_write_same m p b :
  wf_balance b -> amount_locked b <> 0 -> unlock_height
    (balance_at (<[make_key_for_account_balance p := stx_serialize b]> m) p) = unlock_height b.
Proof.
  intros Hb Hne. unfold balance_at. rewrite account_write_same by done.
  unfold normalize. by rewrite (proj2 (Z.eqb_neq _ _) Hne).
Qed.

Lemma balance_at_write_other m p q s :
  wf_principal p -> wf_principal q -> p <> q ->
  balance_at (<[make_key_for_account_balance p := s]> m) q = balance_at m q.
Proof. intros. unfold balance_at. by rewrite account_write_other. Qed.

Lemma supply_write_notin m p s ps :
  wf_principal p -> Forall wf_principal ps -> p ∉ ps ->
  supply (<[make_key_for_account_balance p := s]> m) ps = supply m ps.
Proof.
  intros Hp Hps Hin. induction Hps as [| q ps Hq Hps IH]; [done |].
  rewrite !supply_cons.
  apply not_elem_of_cons in Hin as [Hne Hin].
  rewrite balance_at_write_other, (IH Hin) by done. done.
Qed.

Lemma supply_write m p b ps :
  Forall wf_principal ps -> NoDup ps -> p ∈ ps -> wf_balance b ->
  supply (<[make_key_for_account_balance p := stx_serialize b]> m) ps
  = supply m ps - total (balance_at m p) + total b.
Proof.
  intros Hps Hnd Hin Hb. induction Hps as [| q ps Hq Hps IH]; [by apply elem_of_nil in Hin |].
  apply NoDup_cons in Hnd as [Hnq Hnd]. rewrite !supply_cons. apply elem_of_cons in Hin as [-> | Hin].
  - rewrite balance_at_write_same, supply_write_notin by done. lia.
  - assert (wf_principal p) by (by eapply Forall_forall in Hps).
    rewrite balance_at_write_other by (try done; intros ->; done).
    rewrite (IH Hnd Hin). lia.
Qed.

Lemma balance_at_wf m p : ledger_wf m -> wf_principal p -> wf_balance (balance_at m p).
Proof. intros Hm Hp. destruct (Hm p Hp) as (b & E & Hb). unfold balance_at. by rewrite E. Qed.

Lemma total_nonneg b : wf_balance b -> 0 <= total b.
Proof. intros (? & ? & _). unfold total. lia. Qed.

Lemma supply_nonneg m ps : ledger_wf m -> Forall wf_principal ps -> 0 <= supply m ps.
Proof.
  intros Hm. induction 1 as [| p ps Hp _ IH]; [done |]. rewrite supply_cons.
  pose proof (total_nonneg _ (balance_at_wf m p Hm Hp)). lia.
Qed.

Lemma total_le_supply m p ps :
  ledger_wf m -> Forall wf_principal ps -> p ∈ ps -> total (balance_at m p) <= supply m ps.
Proof.
  intros Hm Hps Hin. induction Hps as [| q ps Hq Hps IH]; [by apply elem_of_nil in Hin |].
  rewrite supply_cons. pose proof (total_nonneg _ (balance_at_wf m q Hm Hq)).
  pose proof (supply_nonneg m ps Hm Hps).
  apply elem_of_cons in Hin as [-> | Hin]; [lia |]. specialize (IH Hin). lia.
Qed.

Lemma two_totals_le_supply m p q ps :
  ledger_wf m -> Forall wf_principal ps -> NoDup ps -> p ∈ ps -> q ∈ ps -> p <> q ->
  total (balance_at m p) + total (balance_at m q) <= supply m ps.
Proof.
  intros Hm Hps Hnd Hp Hq Hne. induction Hps as [| x ps Hx Hps IH]; [by apply elem_of_nil in Hp |].
  apply NoDup_cons in Hnd as [Hnx Hnd]. rewrite supply_cons.
  pose proof (total_nonneg _ (balance_at_wf m x Hm Hx)).
  apply elem_of_cons in Hp as [-> | Hp], Hq as [-> | Hq].
  - done.
  - pose proof (total_le_supply m q ps Hm Hps Hq). lia.
  - pose proof (total_le_supply m p ps Hm Hps Hp). lia.
  - specialize (IH Hnd Hp Hq). lia.
Qed.

(** A transfer between two accounts writes two balances whose totals moved by
    the amount, or nothing. *)
Lemma transfer_ledger p q a m burn v1 v2 v3 v4 :
  chain_ready env m burn (v1, v2, v3, v4) -> is_u64 burn -> is_u128 a ->
  ledger_wf m -> wf_principal p -> wf_principal q -> p <> q ->
  total (balance_at m p) + total (balance_at m q) <= u128_max ->
  let c := canonical_balance burn v1 v2 v3 v4 (balance_at m p) in
  (amount_unlocked c < a /\
   run_ledger_op env (Transfer p q a) m = (Err (Internal VI_InsufficientBalance), m)) \/
  (a <= amount_unlocked c /\ exists bp bq,
     run_ledger_op env (Transfer p q a) m
     = (Ok tt, <[make_key_for_account_balance p := stx_serialize bp]>
                 (<[make_key_for_account_balance q := stx_serialize bq]> m)) /\
     wf_balance bp /\ wf_balance bq /\
     total bp = total (balance_at m p) - a /\ total bq = total (balance_at m q) + a /\
     amount_locked bp = amount_locked c /\ amount_locked bq = amount_locked (balance_at m q)).
Proof.
  intros Hr Hbu Ha Hm Hp Hq Hne Hs c.
  destruct (Hm p Hp) as (b & Eb & Hb), (Hm q Hq) as (b2 & Eq & Hb2).
  subst c. unfold balance_at in *. rewrite Eb, Eq in *.
  rewrite (transfer_eval env p q a m burn v1 v2 v3 v4 b b2) by done.
  destruct (canonical_balance_spec burn v1 v2 v3 v4 b Hb) as (Hcw & Hct & _).
  set (c' := canonical_balance burn v1 v2 v3 v4 b) in *.
  pose proof Hb2 as (? & ? & ? & ?). pose proof Hcw as (? & ? & ? & ?).
  destruct (amount_unlocked c' <? a) eqn:E1; [left; split; [ints | done] |]. right.
  apply Z.ltb_ge in E1. split; [done |].
  rewrite (proj2 (Z.ltb_ge _ _)) by (unfold total in *; ints).
  destruct (wf_set_amount_unlocked (amount_unlocked c' - a) c' Hcw) as [W1 T1];
    [lia | ints |].
  destruct (wf_set_amount_unlocked (amount_unlocked b2 + a) b2 Hb2) as [W2 T2];
    [ints | unfold total in *; ints |].
  eexists _, _. split; [done |]. split_and!; try done; try lia.
  - apply set_amount_unlocked_views.
  - apply set_amount_unlocked_views.
Qed.
End Supply.

Definition op_accounts (op : LedgerOp) : list PrincipalData :=
  match op with
  | Transfer p q _ => [p; q]
  | LockV1 p _ _ | LockV2 p _ _ | LockV3 p _ _ | LockV4 p _ _ | LockV5 p _ _
  | SetLockV5 p _ _ | ExtendV2 p _ | ExtendV3 p _ | ExtendV4 p _ | UpdateUnlockV5 p _
  | IncreaseV2 p _ | IncreaseV3 p _ | IncreaseV4 p _ | IncreaseV5 p _
  | Credit p _ | Debit p _ | AccelerateUnlock p => [p]
  end.

(** [transfer_to] requires different accounts: its caller
    [stx_transfer_consolidated] rejects a transfer to the sender. *)
Definition distinct_accounts (op : LedgerOp) : Prop :=
  match op with Transfer p q _ => p <> q | _ => True end.

Section Conservation.
Context `{Sha256} (env : DbEnv) (burn v1 v2 v3 v4 : Z) (ps : list PrincipalData).
Context (Hburn : is_u64 burn) (Hps : Forall wf_principal ps) (Hnd : NoDup ps).
Abbreviation Db := (gmap string string).
Implicit Types (m : Db) (p q : PrincipalData).

Definition ledger_ok m : Prop :=
  chain_ready env m burn (v1, v2, v3, v4) /\ ledger_wf m /\ supply m ps <= u128_max.

Definition op_ok (op : LedgerOp) : Prop :=
  op_args_ok op /\ distinct_accounts op /\ Forall (fun p => p ∈ ps) (op_accounts op).

Lemma account_op_accounts op p (f : SnapM Db unit) :
  account_op env op = Some (p, f) -> op_accounts op = [p].
Proof. by destruct op; intros [= <- <-]. Qed.

Lemma ledger_write_ok m p b :
  chain_ready env m burn (v1, v2, v3, v4) -> ledger_wf m -> wf_principal p -> wf_balance b ->
  chain_ready env (<[make_key_for_account_balance p := stx_serialize b]> m) burn (v1, v2, v3, v4) /\
  ledger_wf (<[make_key_for_account_balance p := stx_serialize b]> m).
Proof.
  intros Hr Hm Hp Hb. split; [| by apply ledger_wf_write].
  eapply chain_ready_same; [apply epoch_kept_by_account_write | done].
Qed.

Lemma ledger_op_step op m :
  op_ok op -> ledger_ok m -> supply m ps + op_delta op <= u128_max ->
  ((run_ledger_op env op m).1 <> Ok tt /\ (run_ledger_op env op m).2 = m) \/
  ((run_ledger_op env op m).1 = Ok tt /\ ledger_ok (run_ledger_op env op m).2 /\
   supply (run_ledger_op env op m).2 ps = supply m ps + op_delta op).
Proof.
  intros (Hargs & Hd & Hin) Hok Hs. pose proof Hok as (Hr & Hm & _).
  destruct (account_op (S := Db) env op) as [[p f] |] eqn:Eop.
  - rewrite (account_op_accounts op p f Eop) in Hin. apply Forall_inv in Hin as Hinp.
    assert (wf_principal p) as Hp by (by eapply Forall_forall in Hps).
    pose proof (total_le_supply m p ps Hm Hps Hinp).
    destruct (account_op_ledger env op p f m burn v1 v2 v3 v4) as [? | (b & -> & Hb & Ht)];
      try done; [lia | by left |].
    right. split; [done |]. cbn [snd].
    destruct (ledger_write_ok m p b Hr Hm Hp Hb). unfold ledger_ok.
    rewrite supply_write by done. split_and!; try done; lia.
  - destruct op; try discriminate Eop. cbn in Hd, Hargs, Hs |- *.
    destruct Hargs as (Hp & Hq & Ha). inversion_clear Hin as [| ? ? Hip Hin2].
    apply Forall_inv in Hin2 as Hiq. destruct Hok as (_ & _ & Hsup).
    pose proof (two_totals_le_supply m _ _ ps Hm Hps Hnd Hip Hiq Hd).
    destruct (transfer_ledger env sender recipient amount m burn v1 v2 v3 v4)
      as [[_ E] | (_ & bp & bq & E & Hbp & Hbq & Tp & Tq & _)]; try done; try lia;
      cbn [run_ledger_op] in E; rewrite E; [by left | right]. cbn [fst snd].
    split; [done |].
    set (m1 := <[make_key_for_account_balance recipient := _]> m).
    destruct (ledger_write_ok m recipient bq Hr Hm Hq Hbq) as [Hr1 Hm1]. fold m1 in Hr1, Hm1.
    destruct (ledger_write_ok m1 sender bp Hr1 Hm1 Hp Hbp).
    assert (balance_at m1 sender = balance_at m sender) as Es
      by (by apply balance_at_write_other).
    assert (supply m1 ps = supply m ps + amount) as S1
      by (unfold m1; rewrite supply_write by done; lia).
    unfold ledger_ok. rewrite supply_write, Es by done. split_and!; try done; lia.
Qed.

Lemma ledger_ops_conserve ops m :
  Forall (fun op => op_ok op /\ op_delta op = 0) ops -> ledger_ok m ->
  ledger_ok (run_ledger_ops env ops m).2 /\
  supply (run_ledger_ops env ops m).2 ps = supply m ps.
Proof.
  revert m. induction ops as [| op ops IH]; intros m Hops Hok; [done |].
  inversion_clear Hops as [| ? ? [Hop Hdelta] Hops']. cbn [run_ledger_ops].
  unfold mbind, M_bind. destruct (ledger_op_step op m Hop Hok) as [[Hne Hm'] | (E & Hok' & Hsup)].
  - pose proof Hok as (_ & _ & ?). lia.
  - destruct (run_ledger_op env op m) as [[[] | |] m']; cbn in Hm'; by subst m'.
  - destruct (run_ledger_op env op m) as [r m']. cbn in E, Hok', Hsup. subst r.
    destruct (IH m' Hops' Hok') as [? ->]. split; [done | lia].
Qed.
End Conservation.

(** ** Locks succeed exactly when they should *)

Section Locking.
Context `{Sha256} (env : DbEnv).
Abbreviation Db := (gmap string string).
Abbreviation SnapDb := (STXBalanceSnapshot (gmap string string)).

Lemma lock_tokens_succeeds msg sub mk a h (snap : SnapDb) v1 v2 v3 v4 :
  snap_ready env snap v1 v2 v3 v4 -> wf_balance (snap_balance snap) ->
  (forall z, sub (Some z) = Ok z) ->
  a <> 0 -> 0 <= a <= total (snap_balance snap) -> snap_burn_block_height snap < h ->
  has_locked_tokens_at_burn_block (snap_burn_block_height snap) v1 v2 v3 v4
    (snap_balance snap) = false ->
  exists snap', lock_tokens_with env msg sub mk a h snap = (Ok tt, snap').
Proof.
  intros Hr Hb Hsub Ha Hle Hh Hl. unfold lock_tokens_with, has_locked_tokens.
  destruct (unlock_eval env _ _ _ _ _ Hr Hb) as [n E]. rewrite (M_bind_eval _ _ _ _ _ E).
  destruct (canonical_balance_spec (snap_burn_block_height snap) v1 v2 v3 v4 _ Hb)
    as (Hw & Ht & _ & Hl').
  set (c := canonical_balance _ _ _ _ _ _) in *.
  rewrite (proj2 (Z.eqb_neq a 0) Ha). erewrite M_bind_eval by done. erewrite M_bind_eval by done.
  cbn [snap_burn_block_height set_snap_balance].
  rewrite (proj2 (Z.leb_gt _ _) Hh). erewrite M_bind_eval by done.
  erewrite M_bind_eval by (by apply balance_view_eval).
  cbn [snap_burn_block_height snap_balance set_snap_balance]. rewrite Hl', Hl.
  erewrite M_bind_eval by done. erewrite M_bind_eval by done.
  cbn [snap_balance set_snap_balance]. rewrite (get_total_balance_wf c Hw).
  erewrite M_bind_eval by done.
  assert (u128_checked_sub (total c) a = Some (total c - a)) as ->.
  { apply checked_Some. destruct Hw as (? & ? & ? & _). unfold total in *. ints. }
  rewrite Hsub. by eexists.
Qed.

Definition lock_op (mk : PrincipalData -> Z -> Z -> LedgerOp) : Prop :=
  mk = LockV1 \/ mk = LockV2 \/ mk = LockV3 \/ mk = LockV4 \/ mk = LockV5.

(** Every lock operation is an instance of the scheme. *)
Lemma lock_op_scheme mk p a h :
  lock_op mk -> exists msg sub ctor,
    account_op (S := Db) env (mk p a h) = Some (p, lock_tokens_with env msg sub ctor a h) /\
    op_args_ok (mk p a h) = (wf_principal p /\ is_u128 a /\ is_u64 h) /\
    op_delta (mk p a h) = 0 /\ lock_ctor ctor /\
    (forall o z, sub o = Ok z -> o = Some z) /\ (forall z, sub (Some z) = Ok z).
Proof.
  intros [-> | [-> | [-> | [-> | ->]]]]; eexists _, _, _; split_and!; try done;
    intros [] ? ?; by simplify_eq/=.
Qed.

Lemma lock_ledger mk p a h m burn v1 v2 v3 v4 :
  lock_op mk -> chain_ready env m burn (v1, v2, v3, v4) -> is_u64 burn -> ledger_wf m ->
  wf_principal p -> is_u128 a -> is_u64 h ->
  let b := balance_at m p in
  let cond := a <> 0 /\ burn < h /\ a <= total b /\
              has_locked_tokens_at_burn_block burn v1 v2 v3 v4 b = false in
  (cond -> exists b', run_ledger_op env (mk p a h) m
     = (Ok tt, <[make_key_for_account_balance p := stx_serialize b']> m) /\
     wf_balance b' /\ total b' = total b /\ amount_locked b' = a /\ unlock_height b' = h) /\
  (~ cond -> (run_ledger_op env (mk p a h) m).1 <> Ok tt /\
             (run_ledger_op env (mk p a h) m).2 = m).
Proof.
  intros Hmk [Hburn Hh] Hbu Hm Hp Ha Hu. destruct (Hm p Hp) as (b & Eb & Hb).
  unfold balance_at. rewrite Eb.
  destruct (lock_op_scheme mk p a h Hmk) as (msg & sub & ctor & Eop & _ & _ & Hctor & Hs1 & Hs2).
  rewrite (run_account_op env _ p _ Eop), (with_snapshot_map env m p burn _ b) by done.
  pose proof (account_op_framed env _ p _ Eop (mkSnapshot p b burn m)) as Hfr.
  unfold and_save. set (f := lock_tokens_with env msg sub ctor a h) in *.
  assert (snap_ready env (mkSnapshot p b burn m) v1 v2 v3 v4) as Hr by done.
  destruct (f (mkSnapshot p b burn m)) as [r snap'] eqn:Ef. cbn [snd] in Hfr. split.
  - intros (Hne & Hlt & Hle & Hl).
    destruct (lock_tokens_succeeds msg sub ctor a h (mkSnapshot p b burn m) v1 v2 v3 v4 Hr Hb Hs2)
      as [s2 E2]; [done | destruct Ha; done | done | done |].
    unfold f in Ef. rewrite E2 in Ef. injection Ef as <- <-.
    destruct (lock_tokens_total env _ _ _ _ _ _ _ _ _ _ _ Hr Hb Hu Ha Hctor Hs1 E2)
      as (Hw & Ht & Hal & Huh & _).
    exists (snap_balance s2). rewrite (M_bind_eval _ _ _ _ _ E2), Hfr. by split_and!.
  - intros Hnc. destruct r as [[] | e |].
    + exfalso. apply Hnc.
      destruct (lock_tokens_total env _ _ _ _ _ _ _ _ _ _ _ Hr Hb Hu Ha Hctor Hs1 Ef)
        as (Hw & Ht & Hal & Huh & ? & ? & ?). cbn in *.
      destruct Hw as (? & ? & _). unfold total in *. split_and!; try done; lia.
    + rewrite !(M_bind_Err _ _ _ _ _ Ef). split; [done | by cbn; rewrite Hfr].
    + rewrite !(M_bind_Panic _ _ _ _ Ef). split; [done | by cbn; rewrite Hfr].
Qed.
End Locking.

(** ** Properties of the ledger over any store

    The statements are about the view of the store, before and after; the
    rollback wrapper is such a store. *)

Section Properties.
Context {S : Type} `{KVStoreLaws S} `{Sha256} (env : DbEnv) (burn v1 v2 v3 v4 : Z).
Context (Hburn : is_u64 burn).

(** Balances of the store's view *)
Definition stored_balance (s : S) (p : PrincipalData) : STXBalance := balance_at (kv_view s) p.

(** The store is usable, the chain is at burn height [burn] with these unlock
    heights, and every account's record parses. *)
Definition ledger_at (s : S) : Prop :=
  kv_ok s /\ chain_ready env (kv_view s) burn (v1, v2, v3, v4) /\ ledger_wf (kv_view s).

Lemma run_ledger_op_view op (s : S) :
  kv_ok s ->
  (run_ledger_op env op s).1 = (run_ledger_op env op (kv_view s)).1 /\
  kv_ok (run_ledger_op env op s).2 /\
  kv_view (run_ledger_op env op s).2 = (run_ledger_op env op (kv_view s)).2.
Proof.
  intros Hok. destruct (sim_run_ledger_op env op s (kv_view s)) as [Heq [Hok' Hv]]; [done |].
  by split_and!.
Qed.


(** A transfer to the sender itself is not a no-op at this level: when it
    succeeds the account has lost the amount, because the debited balance is
    written over the credited one. Callers have to reject it, as
    stx_transfer_consolidated does. *)
Theorem stx_self_transfer_loses (s : S) p a :
  ledger_at s -> wf_principal p -> is_u128 a ->
  let '(r, s') := run_ledger_op env (Transfer p p a) s in
  r = Ok tt -> total (stored_balance s' p) = total (stored_balance s p) - a.
Proof.
  intros (Hok & Hr & Hm) Hp Ha. unfold stored_balance.
  destruct (run_ledger_op_view (Transfer p p a) s Hok) as (Er & Hok' & Ev).
  destruct (run_ledger_op env (Transfer p p a) s) as [r s']. cbn [fst snd] in *.
  rewrite Er, Ev. clear Er Ev. destruct (Hm p Hp) as (b & Eb & Hb).
  rewrite (transfer_eval env p p a _ burn v1 v2 v3 v4 b b) by done.
  unfold balance_at at 2. rewrite Eb.
  destruct (canonical_balance_spec burn v1 v2 v3 v4 b Hb) as (Hcw & Hct & _).
  set (c := canonical_balance burn v1 v2 v3 v4 b) in *.
  case_match eqn:E1; [done |]. case_match; [done |]. cbn [fst snd]. intros _.
  apply Z.ltb_ge in E1. destruct Hcw as (? & ? & ? & ?) eqn:E.
  destruct (wf_set_amount_unlocked (amount_unlocked c - a) c Hcw) as [W1 T1]; [lia | ints |].
  rewrite balance_at_write_same by done. lia.
Qed.

(** Every ledger operation is atomic and accounts for its tokens: either
    it fails and the store is as before, or it succeeds and the sum of the
    balances of the participating accounts has changed by exactly the amount
    credited or debited (by nothing for a transfer, a lock, an extension, an
    increase or an unlock), all records stay well formed and the sum stays
    within u128. *)
Theorem stx_ledger_op_atomic (s : S) ps op :
  kv_ok s -> Forall wf_principal ps -> NoDup ps -> op_ok ps op ->
  ledger_ok env burn v1 v2 v3 v4 ps (kv_view s) ->
  supply (kv_view s) ps + op_delta op <= u128_max ->
  let '(r, s') := run_ledger_op env op s in
  kv_ok s' /\
  ((r <> Ok tt /\ kv_view s' = kv_view s) \/
   (r = Ok tt /\ ledger_ok env burn v1 v2 v3 v4 ps (kv_view s') /\
    supply (kv_view s') ps = supply (kv_view s) ps + op_delta op)).
Proof.
  intros Hok Hps Hnd Hop Hl Hs. destruct (run_ledger_op_view op s Hok) as (Er & Hok' & Ev).
  destruct (run_ledger_op env op s) as [r s']. cbn [fst snd] in *. rewrite Er, Ev.
  split; [done |]. by apply ledger_op_step.
Qed.


(** C24: Each of the five PoX lock operations succeeds exactly when the amount
    is not zero, the unlock height is in the future, the account has no tokens
    locked at the current burn height and its total covers the amount. When it
    succeeds the amount is locked until that height and the account's total is
    unchanged; when it does not, the store is as before. *)
Theorem stx_lock_correct (s : S) mk p a h :
  lock_op mk -> ledger_at s -> wf_principal p -> is_u128 a -> is_u64 h ->
  let b := stored_balance s p in
  let '(r, s') := run_ledger_op env (mk p a h) s in
  (r = Ok tt <->
     a <> 0 /\ burn < h /\ a <= total b /\
     has_locked_tokens_at_burn_block burn v1 v2 v3 v4 b = false) /\
  (r = Ok tt -> total (stored_balance s' p) = total b /\
     amount_locked (stored_balance s' p) = a /\ unlock_height (stored_balance s' p) = h) /\
  (r <> Ok tt -> kv_view s' = kv_view s).
Proof.
  intros Hmk (Hok & Hr & Hm) Hp Ha Hh b.
  destruct (run_ledger_op_view (mk p a h) s Hok) as (Er & Hok' & Ev).
  destruct (run_ledger_op env (mk p a h) s) as [r s']. cbn [fst snd] in *.
  unfold stored_balance. rewrite Er, Ev.
  destruct (lock_ledger env mk p a h (kv_view s) burn v1 v2 v3 v4) as [Hyes Hno]; try done.
  fold (stored_balance s p) in Hyes, Hno. fold b in Hyes, Hno.
  destruct (decide (a <> 0)) as [Hz |], (decide (burn < h)), (decide (a <= total b)),
    (decide (has_locked_tokens_at_burn_block burn v1 v2 v3 v4 b = false));
    try (destruct Hno as [Hne ->]; [tauto | by split; [tauto |]]).
  destruct Hyes as (b' & -> & Hw & Ht & Hal & Huh); [done |]. cbn [fst snd].
  rewrite balance_at_write_same, locked_write_same, unlock_height_write_same by (try done; lia).
  by split_and!.
Qed.
End Properties.

(** ** Concrete instances *)

Definition sample_env : DbEnv :=
  mkDbEnv 100 200 300 400 50 None 0 (fun _ => None) (fun _ => None).
Definition sample_sender : PrincipalData := Standard transient.
Definition sample_recipient : PrincipalData := Contract (mkQualifiedContract transient "c").
(** An expired lock, and a live one *)
Definition sample_ledger : gmap string string :=
  <[@make_key_for_account_balance zero_sha256 sample_sender :=
      stx_serialize (LockedPoxOne 100 50 40)]>
    (<[@make_key_for_account_balance zero_sha256 sample_recipient :=
         stx_serialize (LockedPoxOne 7 3 90)]> ∅).

Lemma sample_wf : wf_principal sample_sender /\ wf_principal sample_recipient.
Proof. split; [exact transient_wf | exact transient_wf]. Qed.

Lemma sample_chain_ready :
  chain_ready sample_env sample_ledger 50 (100, u32_max, u32_max, u32_max).
Proof.
  eapply (chain_ready_same _ ∅); [| split; reflexivity].
  unfold sample_ledger. by rewrite !(@epoch_kept_by_account_write zero_sha256).
Qed.

Lemma empty_ledger_wf `{Sha256} : ledger_wf ∅.
Proof. intros p _. exists (Unlocked 0). split; [done |]. by repeat split. Qed.

Lemma sample_ledger_wf : @ledger_wf zero_sha256 sample_ledger.
Proof.
  destruct sample_wf. repeat apply (@ledger_wf_write zero_sha256); try done;
    try apply (@empty_ledger_wf zero_sha256); vm_compute; intuition congruence.
Qed.

Lemma sample_ledger_at :
  @ledger_at _ _ _ zero_sha256 sample_env 50 100 u32_max u32_max u32_max sample_ledger.
Proof. split; [done |]. split; [exact sample_chain_ready | exact sample_ledger_wf]. Qed.

Lemma sample_distinct : sample_sender <> sample_recipient.
Proof. discriminate. Qed.

Lemma sample_balances :
  @stored_balance _ _ _ zero_sha256 sample_ledger sample_sender = LockedPoxOne 100 50 40 /\
  @stored_balance _ _ _ zero_sha256 sample_ledger sample_recipient = LockedPoxOne 7 3 90.
Proof. split; vm_compute; reflexivity. Qed.

Lemma sample_ledger_ok :
  @ledger_ok zero_sha256 sample_env 50 100 u32_max u32_max u32_max
    [sample_sender; sample_recipient] sample_ledger.
Proof.
  split; [exact sample_chain_ready | split; [exact sample_ledger_wf |]].
  vm_compute. discriminate.
Qed.


Lemma stx_self_transfer_loses_witness :
  let '(r, s') := @run_ledger_op zero_sha256 _ _ sample_env
                    (Transfer sample_sender sample_sender 120) sample_ledger in
  r = Ok tt ->
  total (@stored_balance _ _ _ zero_sha256 s' sample_sender)
  = total (@stored_balance _ _ _ zero_sha256 sample_ledger sample_sender) - 120.
Proof.
  apply (@stx_self_transfer_loses _ _ _ zero_sha256 sample_env 50 100 u32_max u32_max u32_max).
  - vm_compute; intuition discriminate.
  - exact sample_ledger_at.
  - exact (proj1 sample_wf).
  - vm_compute; intuition discriminate.
Defined.

(** A lock that succeeds, a transfer that fails for lack of unlocked tokens,
    and what follows is not run. *)
Definition sample_ledger_ops : list LedgerOp :=
  [LockV1 sample_sender 140 80; Transfer sample_sender sample_recipient 9;
   Transfer sample_sender sample_recipient 11; Transfer sample_sender sample_recipient 1].

Lemma sample_ops_ok :
  Forall (fun op => @op_ok [sample_sender; sample_recipient] op /\ op_delta op = 0)
    sample_ledger_ops.
Proof.
  destruct sample_wf as [H1 H2].
  repeat constructor; try exact H1; try exact H2; try exact sample_distinct;
    try set_solver; vm_compute; discriminate.
Qed.

Lemma sample_participants :
  Forall wf_principal [sample_sender; sample_recipient] /\
  NoDup [sample_sender; sample_recipient].
Proof.
  destruct sample_wf. split; [by repeat constructor |].
  repeat constructor; set_solver.
Qed.

Lemma stx_ledger_op_atomic_witness :
  let '(r, s') := @run_ledger_op zero_sha256 _ _ sample_env
                    (Credit sample_recipient 5) sample_ledger in
  kv_ok s' /\
  ((r <> Ok tt /\ kv_view s' = kv_view sample_ledger) \/
   (r = Ok tt /\
    @ledger_ok zero_sha256 sample_env 50 100 u32_max u32_max u32_max
      [sample_sender; sample_recipient] (kv_view s') /\
    @supply zero_sha256 (kv_view s') [sample_sender; sample_recipient]
    = @supply zero_sha256 (kv_view sample_ledger) [sample_sender; sample_recipient] + 5)).
Proof.
  apply (@stx_ledger_op_atomic _ _ _ zero_sha256 sample_env 50 100 u32_max u32_max u32_max).
  - vm_compute; intuition discriminate.
  - exact I.
  - exact (proj1 sample_participants).
  - exact (proj2 sample_participants).
  - split; [split; [exact (proj2 sample_wf) | vm_compute; intuition discriminate] |].
    split; [exact I |]. repeat constructor; set_solver.
  - exact sample_ledger_ok.
  - vm_compute. discriminate.
Defined.


Lemma stx_lock_correct_witness :
  let '(r, s') := @run_ledger_op zero_sha256 _ _ sample_env
                    (LockV4 sample_sender 140 80) sample_ledger in
  r = Ok tt /\ amount_locked (@stored_balance _ _ _ zero_sha256 s' sample_sender) = 140.
Proof.
  pose proof (@stx_lock_correct _ _ _ zero_sha256 sample_env 50 100 u32_max u32_max u32_max
    ltac:(vm_compute; intuition discriminate) sample_ledger LockV4 sample_sender 140 80
    ltac:(right; right; right; left; reflexivity) sample_ledger_at (proj1 sample_wf)
    ltac:(vm_compute; intuition discriminate) ltac:(vm_compute; intuition discriminate)) as Hl.
  cbv zeta in Hl. rewrite (proj1 sample_balances) in Hl.
  destruct (@run_ledger_op zero_sha256 _ _ sample_env (LockV4 sample_sender 140 80)
              sample_ledger) as [r s'].
  destruct Hl as (Hiff & Hok & _).
  assert (r = Ok tt) as -> by (apply Hiff; vm_compute; intuition discriminate).
  split; [reflexivity | apply (Hok eq_refl)].
Defined.
