(* ===== verification/AssetMap.v ===== *)
(** * The asset map: what a transaction moved

    [clarity-types/src/effects/asset_map.rs]: per principal, the STX sent and
    burned, the fungible tokens and non-fungible values sent, the STX stacked
    and whether a position-altering PoX action was attempted. A nested call
    records into a map of its own, which [commit_other] merges into the
    caller's. The JSON and [Display] renderings are not modelled.

    Rust's hash maps enumerate their entries in an unspecified order: the class
    [HashMapIter] stands for that order, and every result holds for any
    instance of it. *)

From S2P Require Import Prelude.
From S2P Require Import Epochs.
From S2P Require Import Values.

(** ** Hash maps

    [HashMap<K, V>] is [gmap K V]; [drain], [iter] and [into_iter] visit every
    entry once, in an order of their own. *)

Class HashMapIter := {
  iter : forall {K V} `{Countable K}, gmap K V -> list (K * V);
  iter_perm : forall {K V} `{Countable K} (m : gmap K V), iter m ≡ₚ map_to_list m;
}.

(** [entry(k).or_default()] followed by an update *)
Definition entry_or_default {K V} `{Countable K} (d : V) (f : V -> V) (k : K) (m : gmap K V)
    : gmap K V := <[k := f (default d (m !! k))]> m.

(** [extend] *)
Definition extend {K V} `{Countable K} (l : list (K * V)) (m : gmap K V) : gmap K V :=
  foldl (fun m '(k, v) => <[k := v]> m) m l.

(** ** The map *)

Inductive AssetMapEntry :=
| EntrySTX (amount : Z)
| EntryBurn (amount : Z)
| EntryToken (amount : Z)
| EntryAsset (values : list Value)
| EntryStacking (amount : Z).

Record AssetMap := mkAssetMap {
  stx_map : gmap PrincipalData Z;
  burn_map : gmap PrincipalData Z;
  token_map : gmap PrincipalData (gmap AssetIdentifier Z);
  asset_map : gmap PrincipalData (gmap AssetIdentifier (list Value));
  stacking_map : gmap PrincipalData Z;
  pox_action_set : gset PrincipalData;
}.

Definition AssetMap_new : AssetMap := mkAssetMap ∅ ∅ ∅ ∅ ∅ ∅.

Definition set_stx_map x (a : AssetMap) : AssetMap :=
  mkAssetMap x (burn_map a) (token_map a) (asset_map a) (stacking_map a) (pox_action_set a).
Definition set_burn_map x (a : AssetMap) : AssetMap :=
  mkAssetMap (stx_map a) x (token_map a) (asset_map a) (stacking_map a) (pox_action_set a).
Definition set_token_map x (a : AssetMap) : AssetMap :=
  mkAssetMap (stx_map a) (burn_map a) x (asset_map a) (stacking_map a) (pox_action_set a).
Definition set_asset_map x (a : AssetMap) : AssetMap :=
  mkAssetMap (stx_map a) (burn_map a) (token_map a) x (stacking_map a) (pox_action_set a).
Definition set_stacking_map x (a : AssetMap) : AssetMap :=
  mkAssetMap (stx_map a) (burn_map a) (token_map a) (asset_map a) x (pox_action_set a).
Definition set_pox_action_set x (a : AssetMap) : AssetMap :=
  mkAssetMap (stx_map a) (burn_map a) (token_map a) (asset_map a) (stacking_map a) x.

Definition next_amount (current : option Z) (amount : Z) : result AssetMapError Z :=
  ok_or (u128_checked_add (default 0 current) amount) AmountOverflow.

Abbreviation AssetM := (M AssetMap AssetMapError).

Definition add_stx_transfer (principal : PrincipalData) (amount : Z) : AssetM unit :=
  self ← get;
  next ← lift (next_amount (stx_map self !! principal) amount);
  put (set_stx_map (<[principal := next]> (stx_map self)) self).

Definition add_stx_burn (principal : PrincipalData) (amount : Z) : AssetM unit :=
  self ← get;
  next ← lift (next_amount (burn_map self !! principal) amount);
  put (set_burn_map (<[principal := next]> (burn_map self)) self).

Definition add_asset_transfer (principal : PrincipalData) (asset : AssetIdentifier)
    (transferred : Value) (self : AssetMap) : AssetMap :=
  set_asset_map
    (entry_or_default ∅ (entry_or_default [] (fun v => v ++ [transferred]) asset) principal
       (asset_map self)) self.

Definition add_token_transfer (principal : PrincipalData) (asset : AssetIdentifier)
    (amount : Z) : AssetM unit :=
  self ← get;
  let current_amount := token_map self !! principal ≫= (fun m => m !! asset) in
  next ← lift (next_amount current_amount amount);
  put (set_token_map (entry_or_default ∅ <[asset := next]> principal (token_map self)) self).

Definition add_stacking (principal : PrincipalData) (amount : Z) (epoch_id : StacksEpochId)
    : AssetM unit :=
  self ← get;
  match stacking_map self !! principal with
  | Some occupied =>
      amount ← lift (if sums_stacking_assetmap epoch_id
                     then ok_or (u128_checked_add occupied amount) AmountOverflow
                     else Ok amount);
      put (set_stacking_map (<[principal := amount]> (stacking_map self)) self)
  | None => put (set_stacking_map (<[principal := amount]> (stacking_map self)) self)
  end.

Definition add_pox_action (principal : PrincipalData) (self : AssetMap) : AssetMap :=
  set_pox_action_set ({[principal]} ∪ pox_action_set self) self.

(** ** Accessors *)

Definition get_stx (principal : PrincipalData) (self : AssetMap) : option Z :=
  stx_map self !! principal.
Definition get_stx_burned (principal : PrincipalData) (self : AssetMap) : option Z :=
  burn_map self !! principal.
Definition get_fungible_tokens (principal : PrincipalData) (asset : AssetIdentifier)
    (self : AssetMap) : option Z := token_map self !! principal ≫= (fun m => m !! asset).
Definition get_all_fungible_tokens (principal : PrincipalData) (self : AssetMap)
    : option (gmap AssetIdentifier Z) := token_map self !! principal.
Definition get_nonfungible_tokens (principal : PrincipalData) (asset : AssetIdentifier)
    (self : AssetMap) : option (list Value) :=
  asset_map self !! principal ≫= (fun m => m !! asset).
Definition get_all_nonfungible_tokens (principal : PrincipalData) (self : AssetMap)
    : option (gmap AssetIdentifier (list Value)) := asset_map self !! principal.
Definition get_stacking (principal : PrincipalData) (self : AssetMap) : option Z :=
  stacking_map self !! principal.
Definition get_all_stacking (self : AssetMap) : gmap PrincipalData Z := stacking_map self.
Definition did_pox_action (principal : PrincipalData) (self : AssetMap) : bool :=
  bool_decide (principal ∈ pox_action_set self).
Definition get_all_pox_actions (self : AssetMap) : gset PrincipalData := pox_action_set self.

(** ** Merging, tabulating, totalling *)

Section Iterated.
Context `{HashMapIter}.

(** [for (k, v) in drain { out.push((k, next_amount(current k, v)?)) }] *)
Definition sums_to_add {K} (current : K -> option Z) (l : list (K * Z))
    : result AssetMapError (list (K * Z)) :=
  mapM (fun '(k, amount) => next ← next_amount (current k) amount; mret (k, next)) l.

(** The entries of a map of maps in the order of the nested loops *)
Definition iter_nested {V} (m : gmap PrincipalData (gmap AssetIdentifier V))
    : list ((PrincipalData * AssetIdentifier) * V) :=
  '(p, pm) ← iter m; '(a, v) ← iter pm; mret ((p, a), v).

Definition commit_other (other : AssetMap) (epoch_id : StacksEpochId) : AssetM unit :=
  self ← get;
  tokens_to_add ← lift (sums_to_add (fun '(p, a) => get_fungible_tokens p a self)
                          (iter_nested (token_map other)));
  stx_to_add ← lift (sums_to_add (fun p => stx_map self !! p) (iter (stx_map other)));
  burns_to_add ← lift (sums_to_add (fun p => burn_map self !! p) (iter (burn_map other)));
  stacking_to_add ←
    (if sums_stacking_assetmap epoch_id then
       lift (sums_to_add (fun p => stacking_map self !! p) (iter (stacking_map other)))
     else if existsb (fun '(p, _) => bool_decide (is_Some (stacking_map self !! p)))
               (iter (stacking_map other))
     then throw StackingEntryConflict
     else mret (iter (stacking_map other)));
  modify (fun self =>
    set_asset_map
      (foldl (fun m '(principal, principal_map) =>
         entry_or_default ∅
           (fun destination =>
              foldl (fun d '(asset, transfers) =>
                entry_or_default [] (fun v => v ++ transfers) asset d)
                destination (iter principal_map))
           principal m)
         (asset_map self) (iter (asset_map other)))
      self);;
  modify (fun self => set_stx_map (extend stx_to_add (stx_map self)) self);;
  modify (fun self => set_burn_map (extend burns_to_add (burn_map self)) self);;
  modify (fun self => set_stacking_map (extend stacking_to_add (stacking_map self)) self);;
  modify (fun self =>
    set_token_map
      (foldl (fun m '((principal, asset), amount) =>
         entry_or_default ∅ <[asset := amount]> principal m) (token_map self) tokens_to_add)
      self);;
  modify (fun self => set_pox_action_set (pox_action_set self ∪ pox_action_set other) self).

Definition to_table (self : AssetMap)
    : gmap PrincipalData (gmap AssetIdentifier AssetMapEntry) :=
  let table := foldl (fun t '(principal, principal_map) =>
    entry_or_default ∅ (extend (prod_map id EntryToken <$> iter principal_map)) principal t)
    ∅ (iter (token_map self)) in
  let table := foldl (fun t '(principal, amount) =>
    entry_or_default ∅ <[AssetIdentifier_STX := EntrySTX amount]> principal t)
    table (iter (stx_map self)) in
  let table := foldl (fun t '(principal, amount) =>
    entry_or_default ∅ <[AssetIdentifier_STX_burned := EntryBurn amount]> principal t)
    table (iter (burn_map self)) in
  foldl (fun t '(principal, principal_map) =>
    entry_or_default ∅ (extend (prod_map id EntryAsset <$> iter principal_map)) principal t)
    table (iter (asset_map self)).

Definition get_stx_burned_total (self : AssetMap) : result AssetMapError Z :=
  foldl (fun acc amount => total ← acc; ok_or (u128_checked_add total amount) BurnTotalOverflow)
    (Ok 0) (snd <$> iter (burn_map self)).
End Iterated.

(** ** Specification: merging as union of maps *)

Definition merge_amounts {K} `{Countable K} (a b : gmap K Z) : gmap K Z :=
  union_with (fun x y => Some (x + y)) a b.

Definition merge_values {K} `{Countable K} (a b : gmap K (list Value)) : gmap K (list Value) :=
  union_with (fun x y => Some (x ++ y)) a b.

Definition merged (self other : AssetMap) : AssetMap :=
  mkAssetMap
    (merge_amounts (stx_map self) (stx_map other))
    (merge_amounts (burn_map self) (burn_map other))
    (union_with (fun x y => Some (merge_amounts x y)) (token_map self) (token_map other))
    (union_with (fun x y => Some (merge_values x y)) (asset_map self) (asset_map other))
    (merge_amounts (stacking_map self) (stacking_map other))
    (pox_action_set self ∪ pox_action_set other).

(** No sum of two entries leaves [u128] *)
Definition sums_fit {K} `{Countable K} (a b : gmap K Z) : Prop :=
  forall k x y, a !! k = Some x -> b !! k = Some y -> x + y <= u128_max.

Definition tokens_fit (a b : gmap PrincipalData (gmap AssetIdentifier Z)) : Prop :=
  forall p x y, a !! p = Some x -> b !! p = Some y -> sums_fit x y.

Definition amounts_fit (epoch_id : StacksEpochId) (self other : AssetMap) : Prop :=
  sums_fit (stx_map self) (stx_map other) /\ sums_fit (burn_map self) (burn_map other) /\
  tokens_fit (token_map self) (token_map other) /\
  (sums_stacking_assetmap epoch_id = true ->
   sums_fit (stacking_map self) (stacking_map other)).

(** Before Epoch 4.0 the stacking entries must not meet. *)
Definition stacking_compatible (epoch_id : StacksEpochId) (self other : AssetMap) : Prop :=
  sums_stacking_assetmap epoch_id = false -> stacking_map self ##ₘ stacking_map other.

(** Amounts are [u128]s, and a principal without transfers has no entry. *)
Definition amounts_wf {K} `{Countable K} (a : gmap K Z) : Prop :=
  map_Forall (fun _ x => is_u128 x) a.

Definition asset_map_wf (a : AssetMap) : Prop :=
  amounts_wf (stx_map a) /\ amounts_wf (burn_map a) /\
  map_Forall (fun _ m => m <> ∅ /\ amounts_wf m) (token_map a) /\
  map_Forall (fun _ m => m <> ∅) (asset_map a) /\
  amounts_wf (stacking_map a).

(** ** Loops over the entries of a hash map *)

Section Loops.
Context {K W V Mp : Type} `{Countable K}.
Context (look : Mp -> K -> option V) (upd : K -> W -> Mp -> Mp) (f : K -> W -> option V -> V).
Context (look_same : forall k w m, look (upd k w m) k = Some (f k w (look m k))).
Context (look_other : forall k k' w m, k <> k' -> look (upd k w m) k' = look m k').

Lemma foldl_upd_lookup (l : list (K * W)) m k :
  NoDup l.*1 ->
  look (foldl (fun m '(k, w) => upd k w m) m l) k
  = match (list_to_map l : gmap K W) !! k with
    | Some w => Some (f k w (look m k))
    | None => look m k
    end.
Proof.
  revert m. induction l as [| [k' w] l IH]; intros m Hnd; [done |].
  apply NoDup_cons in Hnd as [Hk Hnd]. cbn. rewrite IH by done.
  destruct (decide (k' = k)) as [-> | Hne].
  - rewrite lookup_insert_eq, not_elem_of_list_to_map_1 by done. apply look_same.
  - rewrite lookup_insert_ne, look_other by done. done.
Qed.
End Loops.

Section Iteration.
Context `{HashMapIter}.

Lemma iter_keys_NoDup {K V} `{Countable K} (m : gmap K V) : NoDup (iter m).*1.
Proof. rewrite iter_perm. apply NoDup_fst_map_to_list. Qed.

Lemma list_to_map_iter {K V} `{Countable K} (m : gmap K V) : list_to_map (iter m) = m.
Proof.
  rewrite <- (list_to_map_to_list m) at 2.
  apply list_to_map_proper; [apply iter_keys_NoDup | apply iter_perm].
Qed.

Lemma elem_of_iter {K V} `{Countable K} (m : gmap K V) k v :
  (k, v) ∈ iter m <-> m !! k = Some v.
Proof. rewrite iter_perm. apply elem_of_map_to_list. Qed.

(** A loop over the entries of [o] that updates what is found under each key *)
Lemma foldl_iter_lookup {K W V Mp} `{Countable K} (look : Mp -> K -> option V)
    (upd : K -> W -> Mp -> Mp) (f : K -> W -> option V -> V) (o : gmap K W) m k :
  (forall k w m, look (upd k w m) k = Some (f k w (look m k))) ->
  (forall k k' w m, k <> k' -> look (upd k w m) k' = look m k') ->
  look (foldl (fun m '(k, w) => upd k w m) m (iter o)) k
  = match o !! k with Some w => Some (f k w (look m k)) | None => look m k end.
Proof.
  intros Hs Ho. rewrite (foldl_upd_lookup look upd f Hs Ho) by apply iter_keys_NoDup.
  by rewrite list_to_map_iter.
Qed.
End Iteration.

(** ** Sums computed before any write *)

Section Sums.
Context `{HashMapIter}.
Context {K : Type} `{Countable K} (current : K -> option Z).

Definition sum_of (e : K * Z) : Z := default 0 (current e.1) + e.2.

Lemma next_amount_cases o a :
  0 <= default 0 o + a ->
  (default 0 o + a <= u128_max /\ next_amount o a = Ok (default 0 o + a)) \/
  (u128_max < default 0 o + a /\ next_amount o a = Err AmountOverflow).
Proof.
  intros Hn. unfold next_amount, u128_checked_add.
  destruct (checked 0 u128_max (default 0 o + a)) eqn:E.
  - apply checked_Some in E as [-> ?]. left. split; [lia | done].
  - apply checked_None in E. right. split; [lia | done].
Qed.

Lemma sums_to_add_cases (l : list (K * Z)) :
  Forall (fun e => 0 <= sum_of e) l ->
  (Forall (fun e => sum_of e <= u128_max) l /\
   sums_to_add current l = Ok ((fun e => (e.1, sum_of e)) <$> l)) \/
  (~ Forall (fun e => sum_of e <= u128_max) l /\ sums_to_add current l = Err AmountOverflow).
Proof.
  unfold sums_to_add. induction 1 as [| [k a] l Hn Hl IH]; [by left |]. cbn.
  destruct (next_amount_cases (current k) a Hn) as [[Hle ->] | [Hgt ->]]; cbn.
  - destruct IH as [[Hf ->] | [Hf ->]]; [left; by split; [constructor |] |].
    right. split; [| done]. by intros ?%Forall_inv_tail.
  - right. split; [| done]. intros Hf%Forall_inv. unfold sum_of in Hf. cbn in *. lia.
Qed.

Lemma extend_sums_lookup (o m : gmap K Z) k :
  extend ((fun e => (e.1, sum_of e)) <$> iter o) m !! k
  = match o !! k with Some a => Some (default 0 (current k) + a) | None => m !! k end.
Proof.
  unfold extend. rewrite foldl_fmap.
  rewrite <- (foldl_iter_lookup (fun (m : gmap K Z) k => m !! k)
                (fun k a m => <[k := sum_of (k, a)]> m)
                (fun k a _ => sum_of (k, a))).
  - f_equal. apply foldl_pointwise. by intros ? [].
  - intros. by rewrite lookup_insert_eq.
  - intros. by rewrite lookup_insert_ne.
Qed.
End Sums.

(** ** Maps of maps *)

Section Nested.
Context `{HashMapIter}.
Implicit Types (p : PrincipalData) (a : AssetIdentifier).

Definition lookup2 {V} (m : gmap PrincipalData (gmap AssetIdentifier V))
    (k : PrincipalData * AssetIdentifier) : option V := m !! k.1 ≫= (fun pm => pm !! k.2).

Definition insert2 {V} (k : PrincipalData * AssetIdentifier) (v : V)
    (m : gmap PrincipalData (gmap AssetIdentifier V)) :=
  entry_or_default ∅ <[k.2 := v]> k.1 m.

Lemma lookup2_insert2_eq {V} k (v : V) m : lookup2 (insert2 k v m) k = Some v.
Proof.
  unfold lookup2, insert2, entry_or_default. rewrite lookup_insert_eq. cbn.
  apply lookup_insert_eq.
Qed.

Lemma lookup2_insert2_ne {V} k k' (v : V) m :
  k <> k' -> lookup2 (insert2 k v m) k' = lookup2 m k'.
Proof.
  destruct k as [p a], k' as [p' a']. unfold lookup2, insert2, entry_or_default. cbn.
  intros Hne. destruct (decide (p = p')) as [-> | Hp].
  - rewrite lookup_insert_eq. cbn. rewrite lookup_insert_ne by congruence.
    by destruct (m !! p').
  - by rewrite lookup_insert_ne.
Qed.

Lemma elem_of_iter_nested {V} (m : gmap PrincipalData (gmap AssetIdentifier V)) k v :
  (k, v) ∈ iter_nested m <-> lookup2 m k = Some v.
Proof.
  destruct k as [p a]. unfold iter_nested, lookup2. cbn.
  rewrite list_elem_of_bind. split.
  - intros ([p' pm] & Hin & Hp%elem_of_iter).
    apply list_elem_of_bind in Hin as ([a' v'] & Hin & Ha%elem_of_iter).
    apply list_elem_of_singleton in Hin. simplify_eq. by rewrite Hp.
  - intros (pm & Hp & Ha)%bind_Some. exists (p, pm). split; [| by apply elem_of_iter].
    apply list_elem_of_bind. exists (a, v). split; [| by apply elem_of_iter].
    by apply list_elem_of_singleton.
Qed.

Lemma iter_nested_keys_NoDup {V} (m : gmap PrincipalData (gmap AssetIdentifier V)) :
  NoDup (iter_nested m).*1.
Proof.
  unfold iter_nested. pose proof (iter_keys_NoDup m) as Hnd.
  induction (iter m) as [| [p pm] l IH]; [constructor |].
  cbn [fmap list_fmap] in Hnd. apply NoDup_cons in Hnd as [Hp Hnd]. cbn.
  rewrite fmap_app. apply NoDup_app. split_and!; [| | by apply IH].
  - pose proof (iter_keys_NoDup pm) as Hnd'. clear -Hnd'.
    induction (iter pm) as [| [a v] l' IH']; [constructor |].
    cbn in *. apply NoDup_cons in Hnd' as [Ha Hnd']. constructor; [| by apply IH'].
    intros ([? ?] & ? & Hin)%list_elem_of_fmap.
    apply list_elem_of_bind in Hin as ([a' v'] & Hin & ?).
    apply list_elem_of_singleton in Hin. simplify_eq/=. apply Ha.
    apply list_elem_of_fmap. by exists (a', v').
  - intros k ([k1 v1] & -> & Hin1)%list_elem_of_fmap ([k2 v2] & Hk & Hin2)%list_elem_of_fmap.
    apply list_elem_of_bind in Hin1 as ([a' v'] & Hin1 & _).
    apply list_elem_of_singleton in Hin1.
    apply list_elem_of_bind in Hin2 as ([p' pm'] & Hin2 & Hp').
    apply list_elem_of_bind in Hin2 as ([a2 v2'] & Hin2 & _).
    apply list_elem_of_singleton in Hin2. simplify_eq/=.
    apply Hp, list_elem_of_fmap. by eexists (_, _).
Qed.

Lemma list_to_map_iter_nested {V} (m : gmap PrincipalData (gmap AssetIdentifier V)) k :
  (list_to_map (iter_nested m) : gmap _ V) !! k = lookup2 m k.
Proof.
  destruct (lookup2 m k) as [v |] eqn:E.
  - apply elem_of_list_to_map_1; [apply iter_nested_keys_NoDup |].
    by apply elem_of_iter_nested.
  - apply not_elem_of_list_to_map_1. intros ([k' v] & -> & Hin)%list_elem_of_fmap.
    apply elem_of_iter_nested in Hin. cbn in E. congruence.
Qed.

(** Maps of non-empty maps are determined by their entries. *)
Lemma nested_eq {V} (m1 m2 : gmap PrincipalData (gmap AssetIdentifier V)) :
  map_Forall (fun _ m => m <> ∅) m1 -> map_Forall (fun _ m => m <> ∅) m2 ->
  (forall k, lookup2 m1 k = lookup2 m2 k) -> m1 = m2.
Proof.
  intros H1 H2 Heq. apply map_eq. intros p.
  assert (forall a, lookup2 m1 (p, a) = lookup2 m2 (p, a)) as Hp by auto.
  unfold lookup2 in Hp. cbn in Hp.
  destruct (m1 !! p) as [x |] eqn:E1, (m2 !! p) as [y |] eqn:E2; cbn in Hp; [| | | done].
  - f_equal. by apply map_eq.
  - destruct (H1 p x E1). apply map_eq. intros a. by rewrite Hp, lookup_empty.
  - destruct (H2 p y E2). apply map_eq. intros a. by rewrite <- Hp, lookup_empty.
Qed.
End Nested.

(** ** The merge computes the union *)

Section Merge.
Context `{HashMapIter}.

Lemma merge_amounts_lookup {K} `{Countable K} (a b : gmap K Z) k :
  merge_amounts a b !! k
  = match b !! k with Some y => Some (default 0 (a !! k) + y) | None => a !! k end.
Proof.
  unfold merge_amounts. rewrite lookup_union_with.
  destruct (a !! k), (b !! k); cbn; try done; f_equal; lia.
Qed.

Lemma sums_nonneg {K} (current : K -> option Z) (l : list (K * Z)) :
  (forall k x, current k = Some x -> is_u128 x) ->
  (forall k x, (k, x) ∈ l -> is_u128 x) ->
  Forall (fun e => 0 <= sum_of current e) l.
Proof.
  intros Hc Hl. apply Forall_forall. intros [k x] Hin. specialize (Hl k x Hin) as [? _].
  unfold sum_of. cbn. destruct (current k) eqn:E; cbn; [| lia].
  destruct (Hc _ _ E). lia.
Qed.

Lemma sums_fit_iff {K} (current : K -> option Z) (l : list (K * Z)) :
  (forall k x, (k, x) ∈ l -> is_u128 x) ->
  Forall (fun e => sum_of current e <= u128_max) l <->
  (forall k x y, current k = Some x -> (k, y) ∈ l -> x + y <= u128_max).
Proof.
  intros Hl. rewrite Forall_forall. split.
  - intros Hf k x y Hk Hin. specialize (Hf _ Hin). unfold sum_of in Hf. cbn in Hf.
    by rewrite Hk in Hf.
  - intros Hf [k y] Hin. unfold sum_of. cbn. destruct (current k) eqn:E; cbn; [eauto |].
    destruct (Hl _ _ Hin). lia.
Qed.

Lemma merge_sums {K} `{Countable K} (a o : gmap K Z) :
  amounts_wf a -> amounts_wf o ->
  (sums_fit a o /\ exists l, sums_to_add (fun k => a !! k) (iter o) = Ok l /\
     extend l a = merge_amounts a o) \/
  (~ sums_fit a o /\ sums_to_add (fun k => a !! k) (iter o) = Err AmountOverflow).
Proof.
  intros Ha Ho.
  assert (forall k x, (k, x) ∈ iter o -> is_u128 x) as Hl
    by (intros k x Hin%elem_of_iter; by eapply Ho).
  assert (Forall (fun e => sum_of (fun k => a !! k) e <= u128_max) (iter o)
          <-> sums_fit a o) as Hiff.
  { rewrite sums_fit_iff by done. split; intros Hf k x y Hk Hin; eapply Hf; try done;
      by apply elem_of_iter. }
  destruct (sums_to_add_cases (fun k => a !! k) (iter o)) as [[Hf E] | [Hf E]].
  - apply sums_nonneg; [intros k x; apply Ha | done].
  - left. split; [by apply Hiff |]. eexists. split; [done |]. apply map_eq. intros k.
    by rewrite extend_sums_lookup, merge_amounts_lookup.
  - right. split; [by rewrite <- Hiff | done].
Qed.

(** The token maps, through their entries *)
Definition merge_tokens (a o : gmap PrincipalData (gmap AssetIdentifier Z)) :=
  union_with (fun x y => Some (merge_amounts x y)) a o.

Lemma merge_tokens_lookup2 a o k :
  lookup2 (merge_tokens a o) k
  = match lookup2 o k with Some y => Some (default 0 (lookup2 a k) + y) | None => lookup2 a k end.
Proof.
  destruct k as [p x]. unfold lookup2, merge_tokens. cbn. rewrite lookup_union_with.
  destruct (a !! p) as [u |], (o !! p) as [v |]; cbn; try done.
  - apply merge_amounts_lookup.
  - by destruct (v !! x).
Qed.

Lemma merge_nonempty {K} `{Countable K} (a b : gmap K Z) :
  a <> ∅ -> merge_amounts a b <> ∅.
Proof.
  intros Ha E. apply Ha. apply map_eq. intros k.
  assert (merge_amounts a b !! k = None) as Hk by (by rewrite E, lookup_empty).
  rewrite merge_amounts_lookup in Hk. rewrite lookup_empty. by destruct (b !! k).
Qed.

Lemma merge_tokens_nonempty a o :
  map_Forall (fun _ m => m <> ∅) a -> map_Forall (fun _ m => m <> ∅) o ->
  map_Forall (fun _ m => m <> ∅) (merge_tokens a o).
Proof.
  intros Ha Ho p m. unfold merge_tokens. rewrite lookup_union_with.
  destruct (a !! p) eqn:Ea, (o !! p) eqn:Eo; cbn; intros [= <-]; [| by eapply Ha | by eapply Ho].
  eapply merge_nonempty, Ha, Ea.
Qed.

Lemma insert2_nonempty {V} (l : list ((PrincipalData * AssetIdentifier) * V)) m :
  map_Forall (fun _ m => m <> ∅) m ->
  map_Forall (fun _ m => m <> ∅) (foldl (fun m '(k, v) => insert2 k v m) m l).
Proof.
  revert m. induction l as [| [[p a] v] l IH]; intros m Hm; [done |]. cbn. apply IH.
  intros p' m'. unfold insert2, entry_or_default. cbn.
  destruct (decide (p = p')) as [-> | Hne].
  - rewrite lookup_insert_eq. intros [= <-]. apply insert_non_empty.
  - rewrite lookup_insert_ne by done. apply Hm.
Qed.

Lemma tokens_fit_iff a o :
  tokens_fit a o <->
  (forall k x y, lookup2 a k = Some x -> lookup2 o k = Some y -> x + y <= u128_max).
Proof.
  unfold tokens_fit, sums_fit, lookup2. split.
  - intros Hf [p k] x y (u & Hu & Hx)%bind_Some (v & Hv & Hy)%bind_Some. eauto.
  - intros Hf p u v Hu Hv k x y Hx Hy. apply (Hf (p, k)); cbn.
    + by rewrite Hu.
    + by rewrite Hv.
Qed.

Lemma merge_token_sums a o :
  map_Forall (fun _ m => m <> ∅ /\ amounts_wf m) a ->
  map_Forall (fun _ m => m <> ∅ /\ amounts_wf m) o ->
  (tokens_fit a o /\ exists l, sums_to_add (fun '(p, x) => a !! p ≫= (fun m => m !! x))
       (iter_nested o) = Ok l /\
     foldl (fun m '((p, x), v) => entry_or_default ∅ <[x := v]> p m) a l = merge_tokens a o) \/
  (~ tokens_fit a o /\
   sums_to_add (fun '(p, x) => a !! p ≫= (fun m => m !! x)) (iter_nested o) = Err AmountOverflow).
Proof.
  intros Ha Ho. set (cur := fun '(p, x) => a !! p ≫= (fun m => m !! x)).
  assert (forall k, cur k = lookup2 a k) as Hcur by (by intros []).
  assert (forall m k (x : Z), map_Forall (fun _ m => m <> ∅ /\ amounts_wf m) m ->
            lookup2 m k = Some x -> is_u128 x) as Hwf.
  { intros m k x Hm (pm & Hp & Hx)%bind_Some. by eapply (proj2 (Hm _ _ Hp)). }
  assert (forall k x, (k, x) ∈ iter_nested o -> is_u128 x) as Hl
    by (intros k x Hin%elem_of_iter_nested; by eapply Hwf).
  assert (Forall (fun e => sum_of cur e <= u128_max) (iter_nested o) <-> tokens_fit a o) as Hiff.
  { rewrite sums_fit_iff, tokens_fit_iff by done. split; intros Hf k x y Hk Hin; eapply Hf;
      rewrite ?Hcur in *; try done; by apply elem_of_iter_nested. }
  destruct (sums_to_add_cases cur (iter_nested o)) as [[Hf E] | [Hf E]].
  - apply sums_nonneg; [intros k x; rewrite Hcur; by apply Hwf | done].
  - left. split; [by apply Hiff |]. eexists. split; [done |].
    rewrite (foldl_pointwise _ (fun m '(k, v) => insert2 k v m)) by (by intros ? [[] ?]).
    apply nested_eq.
    + apply insert2_nonempty. by intros p m [? _]%Ha.
    + apply merge_tokens_nonempty; [by intros p m [? _]%Ha | by intros p m [? _]%Ho].
    + intros k. rewrite foldl_fmap, merge_tokens_lookup2, <- (list_to_map_iter_nested o).
      rewrite (foldl_pointwise _ (fun m '(k, x) => insert2 k (sum_of cur (k, x)) m))
        by (by intros ? []).
      rewrite (foldl_upd_lookup lookup2 (fun k x m => insert2 k (sum_of cur (k, x)) m)
                 (fun k x _ => sum_of cur (k, x))).
      * by destruct (_ !! k); [unfold sum_of; rewrite Hcur |].
      * intros. apply lookup2_insert2_eq.
      * intros. by apply lookup2_insert2_ne.
      * apply iter_nested_keys_NoDup.
  - right. split; [by rewrite <- Hiff | done].
Qed.

Lemma merge_asset_lists (a o : gmap PrincipalData (gmap AssetIdentifier (list Value))) :
  foldl (fun m '(principal, principal_map) =>
    entry_or_default ∅
      (fun destination =>
         foldl (fun d '(asset, transfers) =>
           entry_or_default [] (fun v => v ++ transfers) asset d)
           destination (iter principal_map))
      principal m) a (iter o)
  = union_with (fun x y => Some (merge_values x y)) a o.
Proof.
  assert (forall d pm : gmap AssetIdentifier (list Value),
    foldl (fun d '(asset, transfers) => entry_or_default [] (fun v => v ++ transfers) asset d)
      d (iter pm) = merge_values d pm) as Hin.
  { intros d pm. apply map_eq. intros x. unfold merge_values. rewrite lookup_union_with.
    rewrite (foldl_iter_lookup (fun (m : gmap AssetIdentifier (list Value)) k => m !! k)
               (fun k w m => entry_or_default [] (fun v => v ++ w) k m)
               (fun _ w o => default [] o ++ w)).
    - by destruct (d !! x), (pm !! x).
    - intros. unfold entry_or_default. by rewrite lookup_insert_eq.
    - intros. unfold entry_or_default. by rewrite lookup_insert_ne. }
  apply map_eq. intros p. rewrite lookup_union_with.
  rewrite (foldl_pointwise _ (fun m '(k, w) => entry_or_default ∅ (fun d => merge_values d w) k m)).
  2: { intros m [k w]. unfold entry_or_default. by rewrite Hin. }
  rewrite (foldl_iter_lookup
             (fun (m : gmap PrincipalData (gmap AssetIdentifier (list Value))) k => m !! k)
             (fun k w m => entry_or_default ∅ (fun d => merge_values d w) k m)
             (fun _ w o => merge_values (default ∅ o) w)).
  - destruct (a !! p), (o !! p); try done. cbn. f_equal. apply (left_id_L ∅ _).
  - intros. unfold entry_or_default. by rewrite lookup_insert_eq.
  - intros. unfold entry_or_default. by rewrite lookup_insert_ne.
Qed.

Lemma stacking_conflict_iff (a o : gmap PrincipalData Z) :
  existsb (fun '(p, _) => bool_decide (is_Some (a !! p))) (iter o) = false <-> a ##ₘ o.
Proof.
  rewrite map_disjoint_spec. rewrite <- not_true_iff_false, existsb_exists. split.
  - intros Hn p x y Hx Hy. apply Hn. exists (p, y).
    split; [by apply list_elem_of_In, elem_of_iter | by apply bool_decide_eq_true].
  - intros Hd ([p y] & Hin & [x Hx]%bool_decide_eq_true).
    apply list_elem_of_In, elem_of_iter in Hin. by eapply Hd.
Qed.

Lemma extend_disjoint {K} `{Countable K} (a o : gmap K Z) :
  a ##ₘ o -> extend (iter o) a = merge_amounts a o.
Proof.
  intros Hd. apply map_eq. intros k. rewrite merge_amounts_lookup. unfold extend.
  rewrite (foldl_iter_lookup (fun (m : gmap K Z) k => m !! k) (fun k v m => <[k := v]> m)
             (fun _ v _ => v)).
  - destruct (o !! k) eqn:Eo; [| done]. by rewrite (map_disjoint_Some_r _ _ _ _ Hd Eo).
  - intros. by rewrite lookup_insert_eq.
  - intros. by rewrite lookup_insert_ne.
Qed.

Definition mergeable (epoch_id : StacksEpochId) (self other : AssetMap) : Prop :=
  amounts_fit epoch_id self other /\ stacking_compatible epoch_id self other.

Lemma commit_other_cases epoch_id self other :
  asset_map_wf self -> asset_map_wf other ->
  (mergeable epoch_id self other /\
   commit_other other epoch_id self = (Ok tt, merged self other)) \/
  (~ amounts_fit epoch_id self other /\
   commit_other other epoch_id self = (Err AmountOverflow, self)) \/
  (amounts_fit epoch_id self other /\ ~ stacking_compatible epoch_id self other /\
   commit_other other epoch_id self = (Err StackingEntryConflict, self)).
Proof.
  intros (W1 & W2 & W3 & _ & W5) (O1 & O2 & O3 & _ & O5).
  unfold mergeable, amounts_fit, stacking_compatible.
  unfold commit_other. erewrite M_bind_eval by done. unfold get_fungible_tokens.
  destruct (merge_token_sums _ _ W3 O3) as [(F3 & l3 & E3 & X3) | [F3 E3]]; rewrite E3;
    [erewrite M_bind_eval by done | right; left; split; [tauto | done]].
  destruct (merge_sums _ _ W1 O1) as [(F1 & l1 & E1 & X1) | [F1 E1]]; rewrite E1;
    [erewrite M_bind_eval by done | right; left; split; [tauto | done]].
  destruct (merge_sums _ _ W2 O2) as [(F2 & l2 & E2 & X2) | [F2 E2]]; rewrite E2;
    [erewrite M_bind_eval by done | right; left; split; [tauto | done]].
  destruct (sums_stacking_assetmap epoch_id).
  - destruct (merge_sums _ _ W5 O5) as [(F5 & l5 & E5 & X5) | [F5 E5]]; rewrite E5;
      [erewrite M_bind_eval by done | right; left; split; [tauto | done]].
    left. split; [naive_solver |]. repeat erewrite M_bind_eval by done. cbn.
    by rewrite X1, X2, X3, X5, merge_asset_lists.
  - destruct (existsb _ _) eqn:Ex.
    + right. right. split; [done |]. split; [| done]. intros Hd.
      apply stacking_conflict_iff in Hd; [congruence | done].
    + apply stacking_conflict_iff in Ex. left. split; [done |].
      repeat erewrite M_bind_eval by done. cbn.
      by rewrite X1, X2, X3, extend_disjoint, merge_asset_lists.
Qed.
End Merge.

(** ** Recording effects *)

Inductive AssetEffect :=
| EffectStx (principal : PrincipalData) (amount : Z)
| EffectBurn (principal : PrincipalData) (amount : Z)
| EffectToken (principal : PrincipalData) (asset : AssetIdentifier) (amount : Z)
| EffectAsset (principal : PrincipalData) (asset : AssetIdentifier) (transferred : Value)
| EffectStacking (principal : PrincipalData) (amount : Z)
| EffectPox (principal : PrincipalData).

Definition record_effect (epoch_id : StacksEpochId) (e : AssetEffect) : AssetM unit :=
  match e with
  | EffectStx p amount => add_stx_transfer p amount
  | EffectBurn p amount => add_stx_burn p amount
  | EffectToken p asset amount => add_token_transfer p asset amount
  | EffectAsset p asset v => modify (add_asset_transfer p asset v)
  | EffectStacking p amount => add_stacking p amount epoch_id
  | EffectPox p => modify (add_pox_action p)
  end.

Fixpoint record_effects (epoch_id : StacksEpochId) (l : list AssetEffect) : AssetM unit :=
  match l with
  | [] => mret tt
  | e :: l => record_effect epoch_id e;; record_effects epoch_id l
  end.

Definition effect_ok (e : AssetEffect) : Prop :=
  match e with
  | EffectStx _ amount | EffectBurn _ amount | EffectToken _ _ amount
  | EffectStacking _ amount => is_u128 amount
  | EffectAsset _ _ _ | EffectPox _ => True
  end.

(** Adding an amount under a key commutes with merging, for flat and for
    nested maps. *)
Section Accumulate.
Context {K Mp : Type} `{EqDecision K} (look : Mp -> K -> option Z) (ins : K -> Z -> Mp -> Mp)
  (mrg : Mp -> Mp -> Mp).
Context (look_same : forall k v m, look (ins k v m) k = Some v).
Context (look_other : forall k k' v m, k <> k' -> look (ins k v m) k' = look m k').
Context (look_mrg : forall a b k, look (mrg a b) k
  = match look b k with Some y => Some (default 0 (look a k) + y) | None => look a k end).

Definition fit (a b : Mp) : Prop :=
  forall k x y, look a k = Some x -> look b k = Some y -> x + y <= u128_max.
Definition look_wf (a : Mp) : Prop := forall k x, look a k = Some x -> is_u128 x.

Lemma mrg_default a b k :
  default 0 (look (mrg a b) k) = default 0 (look a k) + default 0 (look b k).
Proof. rewrite look_mrg. destruct (look a k), (look b k); cbn; lia. Qed.

Lemma mrg_ins a b k x k' :
  look (ins k (default 0 (look (mrg a b) k) + x) (mrg a b)) k'
  = look (mrg a (ins k (default 0 (look b k) + x) b)) k'.
Proof.
  rewrite mrg_default, look_mrg. destruct (decide (k = k')) as [-> | Hne].
  - rewrite !look_same. f_equal. lia.
  - by rewrite !look_other, look_mrg by done.
Qed.

Lemma fit_ins a b k x :
  look_wf a -> look_wf b -> 0 <= x ->
  (fit a (ins k (default 0 (look b k) + x) b) /\ default 0 (look b k) + x <= u128_max) <->
  (fit a b /\ default 0 (look (mrg a b) k) + x <= u128_max).
Proof.
  intros Ha Hb Hx. rewrite mrg_default. split.
  - intros [Hf Hle]. split.
    + intros k' u v Hu Hv. destruct (decide (k = k')) as [-> | Hne].
      * specialize (Hf k' u _ Hu (look_same _ _ _)). rewrite Hv in Hf. cbn in Hf. lia.
      * apply (Hf k'); [done | by rewrite look_other].
    + destruct (look a k) as [u |] eqn:Eu; cbn; [| lia].
      specialize (Hf k u _ Eu (look_same _ _ _)). lia.
  - intros [Hf Hle].
    assert (0 <= default 0 (look a k)) by (destruct (look a k) eqn:E; cbn; [by apply (Ha k) | lia]).
    split; [| lia]. intros k' u v Hu. destruct (decide (k = k')) as [-> | Hne].
    + rewrite look_same. intros [= <-]. rewrite Hu in Hle. cbn in Hle. lia.
    + rewrite look_other by done. by apply Hf.
Qed.
End Accumulate.

Lemma next_amount_Ok o a v :
  next_amount o a = Ok v <-> v = default 0 o + a /\ 0 <= v <= u128_max.
Proof.
  unfold next_amount. rewrite ok_or_Ok. unfold u128_checked_add. rewrite checked_Some.
  split; intros [-> ?]; done.
Qed.

Section Nesting.
Context `{HashMapIter}.

Lemma flat_insert {K} `{Countable K} (a b : gmap K Z) k x :
  <[k := default 0 (merge_amounts a b !! k) + x]> (merge_amounts a b)
  = merge_amounts a (<[k := default 0 (b !! k) + x]> b).
Proof.
  apply map_eq. intros k'.
  apply (mrg_ins (fun (m : gmap K Z) k => m !! k) (fun k v m => <[k := v]> m) merge_amounts).
  - intros. apply lookup_insert_eq.
  - intros. by apply lookup_insert_ne.
  - intros. apply merge_amounts_lookup.
Qed.

Lemma flat_fit {K} `{Countable K} (a b : gmap K Z) k x :
  amounts_wf a -> amounts_wf b -> 0 <= x ->
  (sums_fit a (<[k := default 0 (b !! k) + x]> b) /\ default 0 (b !! k) + x <= u128_max) <->
  (sums_fit a b /\ default 0 (merge_amounts a b !! k) + x <= u128_max).
Proof.
  apply (fit_ins (fun (m : gmap K Z) k => m !! k) (fun k v m => <[k := v]> m) merge_amounts).
  - intros. apply lookup_insert_eq.
  - intros. by apply lookup_insert_ne.
  - intros. apply merge_amounts_lookup.
Qed.

Lemma token_insert a b k x :
  map_Forall (fun _ m => m <> ∅) a -> map_Forall (fun _ m => m <> ∅) b ->
  insert2 k (default 0 (lookup2 (merge_tokens a b) k) + x) (merge_tokens a b)
  = merge_tokens a (insert2 k (default 0 (lookup2 b k) + x) b).
Proof.
  intros Ha Hb. apply nested_eq.
  - apply (insert2_nonempty [(k, _)]). by apply merge_tokens_nonempty.
  - apply merge_tokens_nonempty; [done |]. by apply (insert2_nonempty [(k, _)]).
  - apply (mrg_ins lookup2 insert2 merge_tokens).
    + apply lookup2_insert2_eq.
    + apply lookup2_insert2_ne.
    + apply merge_tokens_lookup2.
Qed.

Lemma token_fit a b k x :
  map_Forall (fun _ m => m <> ∅ /\ amounts_wf m) a ->
  map_Forall (fun _ m => m <> ∅ /\ amounts_wf m) b -> 0 <= x ->
  (tokens_fit a (insert2 k (default 0 (lookup2 b k) + x) b) /\
   default 0 (lookup2 b k) + x <= u128_max) <->
  (tokens_fit a b /\ default 0 (lookup2 (merge_tokens a b) k) + x <= u128_max).
Proof.
  intros Ha Hb. rewrite !tokens_fit_iff.
  apply (fit_ins lookup2 insert2 merge_tokens).
  - apply lookup2_insert2_eq.
  - apply lookup2_insert2_ne.
  - apply merge_tokens_lookup2.
  - intros c u (m & Hm & Hu)%bind_Some. by apply (proj2 (Ha _ _ Hm)) in Hu.
  - intros c u (m & Hm & Hu)%bind_Some. by apply (proj2 (Hb _ _ Hm)) in Hu.
Qed.

(** In the accumulating epochs stacking is recorded like a transfer. *)
Lemma add_stacking_sums epoch_id p x self :
  sums_stacking_assetmap epoch_id = true -> is_u128 x ->
  add_stacking p x epoch_id self
  = (next ← lift (next_amount (stacking_map self !! p) x);
     put (set_stacking_map (<[p := next]> (stacking_map self)) self)) self.
Proof.
  intros Hs Hx. unfold add_stacking, next_amount. erewrite M_bind_eval by done. rewrite Hs.
  destruct (stacking_map self !! p) as [y |]; [done |]. cbn.
  assert (u128_checked_add 0 x = Some x) as ->; [| done].
  apply checked_Some. destruct Hx. lia.
Qed.

Lemma add_stacking_replaces epoch_id p x self :
  sums_stacking_assetmap epoch_id = false ->
  add_stacking p x epoch_id self
  = (Ok tt, set_stacking_map (<[p := x]> (stacking_map self)) self).
Proof.
  intros Hs. unfold add_stacking. erewrite M_bind_eval by done. rewrite Hs.
  by destruct (stacking_map self !! p).
Qed.

Lemma amounts_wf_insert {K} `{Countable K} (a : gmap K Z) k v :
  amounts_wf a -> is_u128 v -> amounts_wf (<[k := v]> a).
Proof. intros. by apply map_Forall_insert_2. Qed.

Lemma values_append {K} `{Countable K} (u w : gmap K (list Value)) x v :
  entry_or_default [] (fun l => l ++ [v]) x (merge_values u w)
  = merge_values u (entry_or_default [] (fun l => l ++ [v]) x w).
Proof.
  apply map_eq. intros y. unfold entry_or_default, merge_values. rewrite lookup_union_with.
  destruct (decide (x = y)) as [-> | Hne].
  - rewrite lookup_insert_eq, lookup_union_with, lookup_insert_eq.
    destruct (u !! y), (w !! y); cbn; try done; f_equal; apply eq_sym, (assoc_L (++)).
  - by rewrite lookup_insert_ne, !lookup_union_with, lookup_insert_ne by done.
Qed.

Lemma asset_append (a b : gmap PrincipalData (gmap AssetIdentifier (list Value))) p x v :
  entry_or_default ∅ (entry_or_default [] (fun l => l ++ [v]) x) p
    (union_with (fun x y => Some (merge_values x y)) a b)
  = union_with (fun x y => Some (merge_values x y)) a
      (entry_or_default ∅ (entry_or_default [] (fun l => l ++ [v]) x) p b).
Proof.
  apply map_eq. intros q. unfold entry_or_default at 1 3. rewrite lookup_union_with.
  destruct (decide (p = q)) as [-> | Hne].
  - rewrite lookup_insert_eq, lookup_union_with, lookup_insert_eq.
    destruct (a !! q) as [u |], (b !! q) as [w |]; cbn; rewrite <- ?values_append; try done.
    do 2 f_equal. symmetry. unfold merge_values. apply (right_id_L ∅ (union_with _)).
  - by rewrite lookup_insert_ne, !lookup_union_with, lookup_insert_ne by done.
Qed.

(** Recording an amount: a total function of the field it changes *)
Lemma add_amount_eval (rd : AssetMap -> gmap PrincipalData Z)
    (wr : gmap PrincipalData Z -> AssetMap -> AssetMap) p x a a' :
  (next ← lift (next_amount (rd a !! p) x); put (wr (<[p := next]> (rd a)) a)) a
    = (Ok tt, a') <->
  0 <= default 0 (rd a !! p) + x <= u128_max /\
  a' = wr (<[p := default 0 (rd a !! p) + x]> (rd a)) a.
Proof.
  unfold lift, mbind, M_bind. split.
  - destruct (next_amount _ x) as [v | |] eqn:E; [| done ..].
    apply next_amount_Ok in E as [-> ?]. by intros [= <-].
  - intros [Hr ->]. by rewrite (proj2 (next_amount_Ok _ _ _) (conj eq_refl Hr)).
Qed.

Lemma add_stx_eval p x o o' :
  add_stx_transfer p x o = (Ok tt, o') <->
  0 <= default 0 (stx_map o !! p) + x <= u128_max /\
  o' = set_stx_map (<[p := default 0 (stx_map o !! p) + x]> (stx_map o)) o.
Proof. apply (add_amount_eval stx_map set_stx_map). Qed.

Lemma add_burn_eval p x o o' :
  add_stx_burn p x o = (Ok tt, o') <->
  0 <= default 0 (burn_map o !! p) + x <= u128_max /\
  o' = set_burn_map (<[p := default 0 (burn_map o !! p) + x]> (burn_map o)) o.
Proof. apply (add_amount_eval burn_map set_burn_map). Qed.

Definition stacking_ready (epoch_id : StacksEpochId) (a b : gmap PrincipalData Z) : Prop :=
  (sums_stacking_assetmap epoch_id = true -> sums_fit a b) /\
  (sums_stacking_assetmap epoch_id = false -> a ##ₘ b).

Lemma mergeable_iff epoch_id self o :
  mergeable epoch_id self o <->
  sums_fit (stx_map self) (stx_map o) /\ sums_fit (burn_map self) (burn_map o) /\
  tokens_fit (token_map self) (token_map o) /\
  stacking_ready epoch_id (stacking_map self) (stacking_map o).
Proof. unfold mergeable, amounts_fit, stacking_compatible, stacking_ready. tauto. Qed.

Lemma add_token_eval p a x o o' :
  add_token_transfer p a x o = (Ok tt, o') <->
  0 <= default 0 (lookup2 (token_map o) (p, a)) + x <= u128_max /\
  o' = set_token_map (insert2 (p, a) (default 0 (lookup2 (token_map o) (p, a)) + x)
                        (token_map o)) o.
Proof.
  unfold add_token_transfer, lookup2, lift, mbind, M_bind, get. cbn [fst snd]. split.
  - destruct (next_amount _ x) as [v | |] eqn:E; [| done ..].
    apply next_amount_Ok in E as [-> ?]. by intros [= <-].
  - intros [Hr ->]. by rewrite (proj2 (next_amount_Ok _ _ _) (conj eq_refl Hr)).
Qed.

Lemma default_nonneg (o : option Z) : (forall x, o = Some x -> is_u128 x) -> 0 <= default 0 o.
Proof. destruct o as [x |]; [| done]. intros Hx. by destruct (Hx x eq_refl). Qed.

Lemma flat_record (a b : gmap PrincipalData Z) k x :
  amounts_wf a -> amounts_wf b -> is_u128 x ->
  (sums_fit a (<[k := default 0 (b !! k) + x]> b) /\
   0 <= default 0 (b !! k) + x <= u128_max) <->
  (sums_fit a b /\ 0 <= default 0 (merge_amounts a b !! k) + x <= u128_max).
Proof.
  intros Ha Hb [Hx _]. pose proof (flat_fit a b k x Ha Hb Hx).
  assert (0 <= default 0 (a !! k)) by (apply default_nonneg; intros ?; apply Ha).
  assert (0 <= default 0 (b !! k)) by (apply default_nonneg; intros ?; apply Hb).
  assert (default 0 (merge_amounts a b !! k) = default 0 (a !! k) + default 0 (b !! k))
    by (rewrite merge_amounts_lookup; destruct (b !! k); cbn; lia).
  intuition lia.
Qed.

Lemma token_record a b k x :
  map_Forall (fun _ m => m <> ∅ /\ amounts_wf m) a ->
  map_Forall (fun _ m => m <> ∅ /\ amounts_wf m) b -> is_u128 x ->
  (tokens_fit a (insert2 k (default 0 (lookup2 b k) + x) b) /\
   0 <= default 0 (lookup2 b k) + x <= u128_max) <->
  (tokens_fit a b /\ 0 <= default 0 (lookup2 (merge_tokens a b) k) + x <= u128_max).
Proof.
  intros Ha Hb [Hx _]. pose proof (token_fit a b k x Ha Hb Hx).
  assert (0 <= default 0 (lookup2 a k))
    by (apply default_nonneg; intros ? (m & Hm & Hu)%bind_Some; by apply (proj2 (Ha _ _ Hm)) in Hu).
  assert (0 <= default 0 (lookup2 b k))
    by (apply default_nonneg; intros ? (m & Hm & Hu)%bind_Some; by apply (proj2 (Hb _ _ Hm)) in Hu).
  assert (default 0 (lookup2 (merge_tokens a b) k)
          = default 0 (lookup2 a k) + default 0 (lookup2 b k))
    by (rewrite merge_tokens_lookup2; destruct (lookup2 b k); cbn; lia).
  intuition lia.
Qed.

Lemma tokens_wf_insert m k v :
  map_Forall (fun _ m => m <> ∅ /\ amounts_wf m) m -> is_u128 v ->
  map_Forall (fun _ m => m <> ∅ /\ amounts_wf m) (insert2 k v m).
Proof.
  intros Hm Hv. apply map_Forall_insert_2; [| done]. split; [apply insert_non_empty |].
  apply amounts_wf_insert; [| done]. destruct (m !! k.1) eqn:E; [by eapply Hm |].
  apply map_Forall_empty.
Qed.

Lemma record_effect_wf epoch_id e o o' :
  asset_map_wf o -> effect_ok e -> record_effect epoch_id e o = (Ok tt, o') -> asset_map_wf o'.
Proof.
  intros (W1 & W2 & W3 & W4 & W5) He. destruct e as [p x | p x | p a x | p a v | p x | p];
    cbn in He |- *.
  - intros [? ->]%add_stx_eval. split_and!; try done.
    by apply amounts_wf_insert.
  - intros [? ->]%add_burn_eval. split_and!; try done.
    by apply amounts_wf_insert.
  - intros [? ->]%add_token_eval. split_and!; try done. by apply tokens_wf_insert.
  - intros [= <-]. split_and!; try done. apply map_Forall_insert_2; [| done].
    apply insert_non_empty.
  - destruct (sums_stacking_assetmap epoch_id) eqn:Es.
    + rewrite add_stacking_sums by done.
      intros [? ->]%(add_amount_eval stacking_map set_stacking_map). split_and!; try done.
      by apply amounts_wf_insert.
    + rewrite add_stacking_replaces by done. intros [= <-]. split_and!; try done.
      by apply amounts_wf_insert.
  - by intros [= <-].
Qed.

(** One effect: recording it in the nested map and merging is merging and
    recording it in the caller's map. *)
Lemma record_then_merge epoch_id e self o o' :
  asset_map_wf self -> asset_map_wf o -> effect_ok e ->
  record_effect epoch_id e o = (Ok tt, o') -> mergeable epoch_id self o' ->
  mergeable epoch_id self o /\
  record_effect epoch_id e (merged self o) = (Ok tt, merged self o').
Proof.
  intros (W1 & W2 & W3 & _ & W5) (V1 & V2 & V3 & _ & V5) He. rewrite !mergeable_iff.
  assert (forall m : gmap PrincipalData (gmap AssetIdentifier Z),
    map_Forall (fun _ m => m <> ∅ /\ amounts_wf m) m -> map_Forall (fun _ m => m <> ∅) m) as Hne
    by (by intros m Hm p pm [? _]%Hm).
  destruct e as [p x | p x | p a x | p a v | p x | p]; cbn in He |- *.
  - rewrite !add_stx_eval. intros [Hr ->] (F1 & ?). cbn in *.
    pose proof (proj1 (flat_record _ _ p x W1 V1 He) (conj F1 Hr)) as [? ?].
    split; [tauto |]. split; [done |]. unfold merged. cbn. by rewrite flat_insert.
  - rewrite !add_burn_eval. intros [Hr ->] (? & F1 & ?). cbn in *.
    pose proof (proj1 (flat_record _ _ p x W2 V2 He) (conj F1 Hr)) as [? ?].
    split; [tauto |]. split; [done |]. unfold merged. cbn. by rewrite flat_insert.
  - rewrite !add_token_eval. intros [Hr ->] (? & ? & F1 & ?). cbn in *.
    pose proof (proj1 (token_record _ _ (p, a) x W3 V3 He) (conj F1 Hr)) as [? ?].
    split; [tauto |]. split; [done |]. unfold merged, set_token_map. cbn. f_equal.
    symmetry. apply (token_insert _ _ (p, a)); auto.
  - intros [= <-] ?. split; [done |]. unfold modify, add_asset_transfer, merged. cbn.
    by rewrite asset_append.
  - destruct (sums_stacking_assetmap epoch_id) eqn:Es; unfold stacking_ready; rewrite Es.
    + rewrite !add_stacking_sums, !(add_amount_eval stacking_map set_stacking_map) by done.
      intros [Hr ->] (? & ? & ? & F1 & _). cbn in *. specialize (F1 eq_refl).
      pose proof (proj1 (flat_record _ _ p x W5 V5 He) (conj F1 Hr)) as [? ?].
      split; [by split_and! |]. split; [done |]. unfold merged. cbn. by rewrite flat_insert.
    + rewrite !add_stacking_replaces by done. intros [= <-] (? & ? & ? & _ & Hd). cbn in *.
      specialize (Hd eq_refl). apply map_disjoint_insert_r in Hd as [Hp Hd].
      split; [by split_and! |]. f_equal. unfold merged, set_stacking_map. cbn. f_equal.
      apply map_eq. intros q. rewrite merge_amounts_lookup.
      destruct (decide (p = q)) as [-> | Hq]; [by rewrite !lookup_insert_eq, Hp |].
      by rewrite !lookup_insert_ne, merge_amounts_lookup by done.
  - intros [= <-] ?. split; [done |]. unfold modify, add_pox_action, merged, set_pox_action_set.
    cbn. f_equal. f_equal. set_solver.
Qed.

Lemma merge_then_record epoch_id e self o m' :
  sums_stacking_assetmap epoch_id = true ->
  asset_map_wf self -> asset_map_wf o -> effect_ok e -> mergeable epoch_id self o ->
  record_effect epoch_id e (merged self o) = (Ok tt, m') ->
  exists o', record_effect epoch_id e o = (Ok tt, o') /\ mergeable epoch_id self o'.
Proof.
  intros Hs (W1 & W2 & W3 & _ & W5) (V1 & V2 & V3 & _ & V5) He.
  setoid_rewrite mergeable_iff. intros (F1 & F2 & F3 & F5).
  destruct e as [p x | p x | p a x | p a v | p x | p]; cbn in He |- *.
  - setoid_rewrite add_stx_eval. intros [Hr _]. cbn in Hr.
    pose proof (proj2 (flat_record _ _ p x W1 V1 He) (conj F1 Hr)) as [? ?].
    eexists. split; [done |]. cbn. tauto.
  - setoid_rewrite add_burn_eval. intros [Hr _]. cbn in Hr.
    pose proof (proj2 (flat_record _ _ p x W2 V2 He) (conj F2 Hr)) as [? ?].
    eexists. split; [done |]. cbn. tauto.
  - setoid_rewrite add_token_eval. intros [Hr _]. cbn in Hr.
    pose proof (proj2 (token_record _ _ (p, a) x W3 V3 He) (conj F3 Hr)) as [? ?].
    eexists. split; [done |]. cbn. tauto.
  - intros _. eexists. split; [done |]. by cbn.
  - rewrite add_stacking_sums, (add_amount_eval stacking_map set_stacking_map) by done.
    intros [Hr _]. cbn in Hr. destruct F5 as [F5 _].
    pose proof (proj2 (flat_record _ _ p x W5 V5 He) (conj (F5 Hs) Hr)) as [? ?].
    eexists. split.
    + rewrite add_stacking_sums, (add_amount_eval stacking_map set_stacking_map) by done. done.
    + unfold stacking_ready. rewrite Hs. cbn. by split_and!.
  - intros _. eexists. split; [done |]. by cbn.
Qed.

Lemma merged_new self : merged self AssetMap_new = self.
Proof.
  destruct self. unfold merged, merge_amounts, AssetMap_new. cbn.
  by rewrite !(right_id_L ∅ (union_with _)), (right_id_L ∅ (∪)).
Qed.

Lemma mergeable_new epoch_id self : mergeable epoch_id self AssetMap_new.
Proof.
  apply mergeable_iff. split_and!; try by intros ???.
  split; [by intros _ ??? | intros _; apply map_disjoint_empty_r].
Qed.

Lemma AssetMap_new_wf : asset_map_wf AssetMap_new.
Proof. split_and!; apply map_Forall_empty. Qed.

Lemma record_effects_wf epoch_id l o o' :
  asset_map_wf o -> Forall effect_ok l -> record_effects epoch_id l o = (Ok tt, o') ->
  asset_map_wf o'.
Proof.
  intros Ho Hl. revert o Ho. induction Hl as [| e l He Hl IH]; intros o Ho; cbn.
  - by intros [= <-].
  - intros ([] & o1 & E1 & E2)%M_bind_Ok. eapply IH; [| done]. by eapply record_effect_wf.
Qed.

Lemma record_effects_merge epoch_id l self o o' :
  asset_map_wf self -> asset_map_wf o -> Forall effect_ok l ->
  record_effects epoch_id l o = (Ok tt, o') -> mergeable epoch_id self o' ->
  mergeable epoch_id self o /\
  record_effects epoch_id l (merged self o) = (Ok tt, merged self o') /\ asset_map_wf o'.
Proof.
  intros Hs Ho Hl. revert o Ho. induction Hl as [| e l He Hl IH]; intros o Ho.
  - by intros [= <-].
  - cbn. intros (u & o1 & E1 & E2)%M_bind_Ok Hm. destruct u.
    pose proof (record_effect_wf _ _ _ _ Ho He E1) as Ho1.
    destruct (IH o1 Ho1 E2 Hm) as (Hm1 & Hr & Hw).
    destruct (record_then_merge _ _ _ _ _ Hs Ho He E1 Hm1) as [Hm0 E0].
    split; [done |]. by rewrite (M_bind_eval _ _ _ _ _ E0).
Qed.

Lemma merge_record_effects epoch_id l self o m' :
  sums_stacking_assetmap epoch_id = true ->
  asset_map_wf self -> asset_map_wf o -> Forall effect_ok l -> mergeable epoch_id self o ->
  record_effects epoch_id l (merged self o) = (Ok tt, m') ->
  exists o', record_effects epoch_id l o = (Ok tt, o') /\ mergeable epoch_id self o' /\
    m' = merged self o' /\ asset_map_wf o'.
Proof.
  intros Hsum Hs Ho Hl. revert o Ho. induction Hl as [| e l He Hl IH]; intros o Ho Hm.
  - intros [= <-]. by exists o.
  - cbn. intros (u & m1 & E1 & E2)%M_bind_Ok. destruct u.
    destruct (merge_then_record _ _ _ _ _ Hsum Hs Ho He Hm E1) as (o1 & Eo & Hm1).
    pose proof (record_effect_wf _ _ _ _ Ho He Eo) as Ho1.
    destruct (record_then_merge _ _ _ _ _ Hs Ho He Eo Hm1) as [_ E1'].
    rewrite E1' in E1. injection E1 as <-.
    destruct (IH o1 Ho1 Hm1 E2) as (o' & E & Hm' & -> & Hw). exists o'.
    by rewrite (M_bind_eval _ _ _ _ _ Eo).
Qed.

Lemma sums_to_add_not_panic {K} (current : K -> option Z) l : sums_to_add current l <> Panic.
Proof.
  unfold sums_to_add. induction l as [| [k a] l IH]; [done |]. cbn.
  unfold next_amount. destruct (u128_checked_add _ _); [| done]. cbn.
  by destruct (mapM _ l).
Qed.

(** Nothing is written before the last thing that can fail. *)
Definition writes_last (self : AssetMap) (m : AssetM unit) : Prop :=
  (m self).1 = Ok tt \/ exists e, m self = (Err e, self).

Lemma writes_last_lift {A} self (r : result AssetMapError A) (k : A -> AssetM unit) :
  r <> Panic -> (forall x, writes_last self (k x)) -> writes_last self (x ← lift r; k x).
Proof. intros Hr Hk. destruct r as [x | e |]; [apply Hk | right; by exists e | done]. Qed.

Lemma commit_other_outcome other epoch_id self : writes_last self (commit_other other epoch_id).
Proof.
  unfold commit_other, writes_last. erewrite M_bind_eval by done.
  do 3 (apply writes_last_lift; [apply sums_to_add_not_panic | intros ?]).
  destruct (sums_stacking_assetmap epoch_id).
  - apply writes_last_lift; [apply sums_to_add_not_panic | by left].
  - destruct (existsb _ _); [right; by eexists | by left].
Qed.

(** C22: [commit_other] is all or nothing and computes the union of the two
    maps, in whatever order the hash maps are enumerated. It fails with
    AmountOverflow exactly when some summed entry leaves u128, otherwise with
    StackingEntryConflict exactly when, before Epoch 4.0, both maps have a
    stacking entry of the same principal; in both cases the caller's map is
    unchanged. Otherwise amounts are added, transferred values appended and PoX
    actions united, per principal and asset. *)
Theorem commit_other_spec epoch_id self other :
  asset_map_wf self -> asset_map_wf other ->
  (commit_other other epoch_id self = (Ok tt, merged self other) <->
     amounts_fit epoch_id self other /\ stacking_compatible epoch_id self other) /\
  (commit_other other epoch_id self = (Err AmountOverflow, self) <->
     ~ amounts_fit epoch_id self other) /\
  (commit_other other epoch_id self = (Err StackingEntryConflict, self) <->
     amounts_fit epoch_id self other /\ ~ stacking_compatible epoch_id self other).
Proof.
  intros Hs Ho. destruct (commit_other_cases epoch_id self other Hs Ho)
    as [[[? ?] ->] | [[? ->] | (? & ? & ->)]]; split_and!; split; try done; tauto.
Qed.

End Nesting.

Section Table.
Context `{HashMapIter}.

Lemma extend_entries_lookup {V} (mk : V -> AssetMapEntry) (pm : gmap AssetIdentifier V) d x :
  extend (prod_map id mk <$> iter pm) d !! x
  = match pm !! x with Some v => Some (mk v) | None => d !! x end.
Proof.
  unfold extend. rewrite foldl_fmap.
  rewrite (foldl_pointwise _ (fun m '(k, v) => <[k := mk v]> m)) by (by intros ? []).
  apply (foldl_iter_lookup (fun (m : gmap AssetIdentifier AssetMapEntry) k => m !! k)
           (fun k v m => <[k := mk v]> m) (fun _ v _ => mk v)).
  - intros. by rewrite lookup_insert_eq.
  - intros. by rewrite lookup_insert_ne.
Qed.

Lemma table_stage {W} (g : W -> gmap AssetIdentifier AssetMapEntry -> gmap _ _)
    (o : gmap PrincipalData W) t p x :
  lookup2 (foldl (fun t '(p, w) => entry_or_default ∅ (g w) p t) t (iter o)) (p, x)
  = match o !! p with
    | Some w => g w (default ∅ (t !! p)) !! x
    | None => lookup2 t (p, x)
    end.
Proof.
  unfold lookup2 at 1. cbn.
  rewrite (foldl_iter_lookup
             (fun (m : gmap PrincipalData (gmap AssetIdentifier AssetMapEntry)) k => m !! k)
             (fun k w m => entry_or_default ∅ (g w) k m) (fun _ w o => g w (default ∅ o))).
  - by destruct (o !! p).
  - intros. unfold entry_or_default. by rewrite lookup_insert_eq.
  - intros. unfold entry_or_default. by rewrite lookup_insert_ne.
Qed.

Lemma default_lookup {V} (t : gmap PrincipalData (gmap AssetIdentifier V)) p x :
  default ∅ (t !! p) !! x = lookup2 t (p, x).
Proof. unfold lookup2. cbn. by destruct (t !! p); cbn; rewrite ?lookup_empty. Qed.

Lemma to_table_lookup self p x :
  lookup2 (to_table self) (p, x)
  = match get_nonfungible_tokens p x self with
    | Some values => Some (EntryAsset values)
    | None =>
        match (if decide (x = AssetIdentifier_STX_burned) then get_stx_burned p self else None) with
        | Some burned => Some (EntryBurn burned)
        | None =>
            match (if decide (x = AssetIdentifier_STX) then get_stx p self else None) with
            | Some sent => Some (EntrySTX sent)
            | None => EntryToken <$> get_fungible_tokens p x self
            end
        end
    end.
Proof.
  unfold to_table, get_nonfungible_tokens, get_stx_burned, get_stx, get_fungible_tokens.
  rewrite table_stage.
  set (t3 := foldl _ _ (iter (burn_map self))). set (t2 := foldl _ _ (iter (stx_map self))) in t3.
  set (t1 := foldl _ _ (iter (token_map self))) in t2.
  assert (lookup2 t1 (p, x) = EntryToken <$> (token_map self !! p ≫= (fun m => m !! x))) as E1.
  { subst t1. rewrite table_stage. destruct (token_map self !! p) as [pm |]; [| done]. cbn.
    rewrite extend_entries_lookup, lookup_empty. by destruct (pm !! x). }
  assert (lookup2 t2 (p, x) = match (if decide (x = AssetIdentifier_STX)
      then stx_map self !! p else None) with Some sent => Some (EntrySTX sent)
      | None => lookup2 t1 (p, x) end) as E2.
  { subst t2. rewrite table_stage. destruct (stx_map self !! p); [| by case_decide].
    case_decide as Hx; [subst x; by rewrite lookup_insert_eq |].
    by rewrite lookup_insert_ne, default_lookup by done. }
  assert (lookup2 t3 (p, x) = match (if decide (x = AssetIdentifier_STX_burned)
      then burn_map self !! p else None) with Some b => Some (EntryBurn b)
      | None => lookup2 t2 (p, x) end) as E3.
  { subst t3. rewrite table_stage. clear E1 E2.
    destruct (burn_map self !! p); [| by destruct (decide (x = AssetIdentifier_STX_burned))].
    case_decide as Hx; [subst x; by rewrite lookup_insert_eq |].
    by rewrite lookup_insert_ne, default_lookup by done. }
  rewrite <- E1, <- E2, <- E3.
  destruct (asset_map self !! p) as [pm |]; [| done].
  rewrite extend_entries_lookup, default_lookup. cbn. done.
Qed.

(** The table that post-conditions are checked against lists exactly the
    movements recorded: under an asset identifier stands the list of values if
    a non-fungible asset was sent, otherwise the amount burned under the
    identifier of burned STX, the amount sent under that of STX, and the token
    amount under any other; nothing else is in it. *)
Theorem to_table_spec self p x :
  lookup2 (to_table self) (p, x)
  = match get_nonfungible_tokens p x self with
    | Some values => Some (EntryAsset values)
    | None =>
        match (if decide (x = AssetIdentifier_STX_burned) then get_stx_burned p self else None) with
        | Some burned => Some (EntryBurn burned)
        | None =>
            match (if decide (x = AssetIdentifier_STX) then get_stx p self else None) with
            | Some sent => Some (EntrySTX sent)
            | None => EntryToken <$> get_fungible_tokens p x self
            end
        end
    end.
Proof. apply to_table_lookup. Qed.

Definition sum_amounts (l : list Z) : Z := foldr Z.add 0 l.

Lemma sum_amounts_perm l l' : l ≡ₚ l' -> sum_amounts l = sum_amounts l'.
Proof. unfold sum_amounts. induction 1; cbn in *; lia. Qed.

Lemma sum_amounts_nonneg l : Forall is_u128 l -> 0 <= sum_amounts l.
Proof. unfold sum_amounts. induction 1 as [| x l [? _] _ IH]; cbn; lia. Qed.

Lemma checked_total l acc :
  Forall is_u128 l -> 0 <= acc <= u128_max ->
  foldl (fun acc amount =>
      total ← acc; ok_or (u128_checked_add total amount) BurnTotalOverflow) (Ok acc) l
  = if acc + sum_amounts l <=? u128_max then Ok (acc + sum_amounts l)
    else Err BurnTotalOverflow.
Proof.
  intros Hl. revert acc. induction Hl as [| x l [Hx _] Hl IH]; intros acc Hacc.
  - unfold sum_amounts. cbn [foldl foldr]. rewrite Z.add_0_r.
    by rewrite (proj2 (Z.leb_le _ _)) by lia.
  - pose proof (sum_amounts_nonneg l Hl). cbn [foldl]. unfold u128_checked_add.
    change (sum_amounts (x :: l)) with (x + sum_amounts l).
    cbn [mbind result_bind]. destruct (checked 0 u128_max (acc + x)) eqn:E; cbn [ok_or].
    + apply checked_Some in E as [-> ?]. rewrite IH, Z.add_assoc by lia. done.
    + apply checked_None in E. rewrite (proj2 (Z.leb_gt _ _)) by lia.
      clear. by induction l.
Qed.

(** The total of burned STX is the sum of the per-principal amounts, or
    BurnTotalOverflow exactly when that sum leaves u128, independently of the
    order in which the amounts are visited. *)
Theorem stx_burned_total_spec self :
  asset_map_wf self ->
  get_stx_burned_total self
  = let sum := sum_amounts (map_to_list (burn_map self)).*2 in
    if sum <=? u128_max then Ok sum else Err BurnTotalOverflow.
Proof.
  intros (_ & Hw & _). unfold get_stx_burned_total.
  assert (Forall is_u128 (iter (burn_map self)).*2) as Hl.
  { apply Forall_forall. intros x ([p x'] & -> & Hin%elem_of_iter)%list_elem_of_fmap.
    by eapply Hw. }
  rewrite checked_total by done. rewrite !Z.add_0_l.
  by rewrite (sum_amounts_perm (iter (burn_map self)).*2 _ (fmap_Permutation _ _ _ (iter_perm _))).
Qed.
End Table.

(** ** Concrete instances *)

(** An order to enumerate hash maps in *)
Definition canonical_iter : HashMapIter.
Proof. refine {| iter K V _ _ m := map_to_list m |}. reflexivity. Defined.

Definition sample_alice : PrincipalData := Standard transient.
Definition sample_token : AssetIdentifier :=
  mkAssetIdentifier (mkQualifiedContract transient "token") "tok".

Definition sample_effects : list AssetEffect :=
  [EffectStx sample_alice 5; EffectBurn sample_alice 2; EffectToken sample_alice sample_token 7;
   EffectAsset sample_alice sample_token (UInt 1); EffectStacking sample_alice 9;
   EffectPox sample_alice; EffectStx sample_alice 3].

Definition sample_effects_map : AssetMap :=
  (record_effects Epoch40 sample_effects AssetMap_new).2.

Lemma sample_effects_ok : Forall effect_ok sample_effects.
Proof. repeat constructor; vm_compute; discriminate. Qed.

Lemma sample_effects_map_wf : asset_map_wf sample_effects_map.
Proof.
  apply (record_effects_wf Epoch40 sample_effects AssetMap_new).
  - exact AssetMap_new_wf.
  - exact sample_effects_ok.
  - vm_compute. reflexivity.
Qed.

Lemma commit_other_spec_witness :
  @commit_other canonical_iter sample_effects_map Epoch33 sample_effects_map
  = (Err StackingEntryConflict, sample_effects_map) <->
  amounts_fit Epoch33 sample_effects_map sample_effects_map /\
  ~ stacking_compatible Epoch33 sample_effects_map sample_effects_map.
Proof.
  apply (@commit_other_spec canonical_iter Epoch33 sample_effects_map sample_effects_map);
    exact sample_effects_map_wf.
Defined.


Lemma stx_burned_total_spec_witness :
  @get_stx_burned_total canonical_iter sample_effects_map = Ok 2.
Proof.
  rewrite (@stx_burned_total_spec canonical_iter sample_effects_map sample_effects_map_wf).
  vm_compute. reflexivity.
Defined.
