(* ===== verification/Serialization.v ===== *)
(** * Consensus serialization of Clarity values

    The writing half of [clarity-types/src/types/serialization.rs]: the byte
    string that a value contributes to contract-call arguments, post-conditions,
    map keys and [to-consensus-buff?]. The writer is a parameter of the code
    (a byte vector, or a counter), so it is one here; equality of values is
    Rust's [PartialEq], which ignores the type annotations of lists and tuples.
    The reader is in [Deserialization]. *)

From Stdlib Require Import Ascii.
From S2P Require Import Prelude.
From S2P Require Import Bytes.
From S2P Require Import Epochs.
From S2P Require Import Values.
From S2P Require Import Types.

(** ** Errors and prefixes *)

Inductive SerializationError :=
| IOError (msg : string)
| BadTypeError (e : ClarityTypeError)
| DeserializeExpected (t : TypeSignature)
| LeftoverBytesInDeserialization
| SerializationFailure (msg : string)
| DeserializationFailure (msg : string)
| UnexpectedSerialization.

Inductive TypePrefix :=
| PrefixInt | PrefixUInt | PrefixBuffer | PrefixBoolTrue | PrefixBoolFalse
| PrefixPrincipalStandard | PrefixPrincipalContract | PrefixResponseOk | PrefixResponseErr
| PrefixOptionalNone | PrefixOptionalSome | PrefixList | PrefixTuple
| PrefixStringASCII | PrefixStringUTF8.

Definition prefix_u8 (p : TypePrefix) : Z :=
  match p with
  | PrefixInt => 0 | PrefixUInt => 1 | PrefixBuffer => 2 | PrefixBoolTrue => 3
  | PrefixBoolFalse => 4 | PrefixPrincipalStandard => 5 | PrefixPrincipalContract => 6
  | PrefixResponseOk => 7 | PrefixResponseErr => 8 | PrefixOptionalNone => 9
  | PrefixOptionalSome => 10 | PrefixList => 11 | PrefixTuple => 12
  | PrefixStringASCII => 13 | PrefixStringUTF8 => 14
  end.

Definition prefix_of_principal (p : PrincipalData) : TypePrefix :=
  match p with
  | Standard _ => PrefixPrincipalStandard
  | Contract _ => PrefixPrincipalContract
  end.

Definition prefix_of (v : Value) : TypePrefix :=
  match v with
  | Int _ => PrefixInt
  | UInt _ => PrefixUInt
  | Bool value => if value then PrefixBoolTrue else PrefixBoolFalse
  | Principal p => prefix_of_principal p
  | Response committed _ => if committed then PrefixResponseOk else PrefixResponseErr
  | Optional None => PrefixOptionalNone
  | Optional (Some _) => PrefixOptionalSome
  | Tuple _ => PrefixTuple
  | Sequence (Buffer _) => PrefixBuffer
  | Sequence (List_ _ _) => PrefixList
  | Sequence (String_ (CharASCII _)) => PrefixStringASCII
  | Sequence (String_ (CharUTF8 _)) => PrefixStringUTF8
  | CallableContract _ _ => PrefixPrincipalContract
  end.

(** ** Lengths *)

(** [BufferLength::try_from(usize)] *)
Definition buffer_length (len : nat) : result ClarityTypeError Z :=
  BufferLength_try_from (Z.of_nat len).

Definition list_len (data : list Value) : result ClarityTypeError Z :=
  ok_or (checked 0 u32_max (Z.of_nat (length data))) TE_ValueTooLarge.

(** [ClarityTypeError::to_string] of the errors that lengths give *)
Definition length_error (e : ClarityTypeError) : SerializationError :=
  SerializationFailure (match e with TE_ValueTooLarge => "ValueTooLarge" | _ => "" end).

(** [ClarityName::len], [ContractName::len] *)
Definition guarded_len {E} (name : string) : result E Z :=
  expect_some (checked 0 u8_max (Z.of_nat (String.length name))).

(** ** Writing *)

(** [std::io::Write::write_all] *)
Class Write (W : Type) := write_all : list Z -> M W SerializationError unit.

Section Serialize.
Context {W : Type} `{Write W}.
Abbreviation WriteM := (M W SerializationError).

Definition spd_serialize_write (p : StandardPrincipalData) : WriteM unit :=
  write_all [spd_version p];; write_all (spd_bytes p).

Definition name_serialize_write (name : string) : WriteM unit :=
  len ← lift (guarded_len name);
  write_all [len];; write_all (as_bytes name).

Definition inner_consensus_serialize (p : PrincipalData) : WriteM unit :=
  write_all [prefix_u8 (prefix_of_principal p)];;
  match p with
  | Standard data => spd_serialize_write data
  | Contract c => spd_serialize_write (issuer c);; name_serialize_write (contract_name c)
  end.

Fixpoint write_chunks (l : list (list Z)) : WriteM unit :=
  match l with
  | [] => mret tt
  | bytes :: l => write_all bytes;; write_chunks l
  end.

Fixpoint serialize_write (v : Value) : WriteM unit :=
  write_all [prefix_u8 (prefix_of v)];;
  match v with
  | Int value => write_all (to_be_bytes 16 value)
  | UInt value => write_all (to_be_bytes 16 value)
  | Principal (Standard data) => spd_serialize_write data
  | Principal (Contract c) | CallableContract c _ =>
      spd_serialize_write (issuer c);; name_serialize_write (contract_name c)
  | Response _ data => serialize_write data
  | Bool _ => mret tt
  | Optional None => mret tt
  | Optional (Some value) => serialize_write value
  | Sequence (List_ data _) =>
      len ← lift (map_err length_error (list_len data));
      write_all (to_be_bytes 4 len);;
      (fix items (l : list Value) : WriteM unit :=
         match l with
         | [] => mret tt
         | item :: l => serialize_write item;; items l
         end) data
  | Sequence (Buffer value) =>
      len ← lift (map_err length_error (buffer_length (length value)));
      write_all (to_be_bytes 4 len);; write_all value
  | Sequence (String_ (CharUTF8 data)) =>
      let total_len := foldl (fun len c => (len + Z.of_nat (length c)) mod 2 ^ 32) 0 data in
      write_all (to_be_bytes 4 total_len);; write_chunks data
  | Sequence (String_ (CharASCII data)) =>
      len ← lift (map_err length_error (buffer_length (length data)));
      write_all (to_be_bytes 4 len);; write_all data
  | Tuple (mkTuple _ data_map) =>
      len ← lift (ok_or (checked 0 u32_max (Z.of_nat (length data_map)))
                    (SerializationFailure "out of range integral type conversion attempted"));
      write_all (to_be_bytes 4 len);;
      (fix entries (l : list (ClarityName * Value)) : WriteM unit :=
         match l with
         | [] => mret tt
         | (key, value) :: l =>
             name_serialize_write key;; serialize_write value;; entries l
         end) data_map
  end.
End Serialize.

(** ** Writers *)

(** [Vec<u8>] *)
#[export] Instance Vec_Write : Write (list Z) := fun bytes v => (Ok tt, v ++ bytes).

(** [WriteCounter] *)
Definition WriteCounter := Z.
Definition counter_overflow : SerializationError :=
  IOError "Serialization size would overflow u32".
#[export] Instance WriteCounter_Write : Write WriteCounter := fun bytes =>
  input ← lift (ok_or (checked 0 u32_max (Z.of_nat (length bytes))) counter_overflow);
  count ← get;
  count ← lift (ok_or (checked 0 u32_max (count + input)) counter_overflow);
  put count.

Definition serialize_to_vec (v : Value) : result SerializationError (list Z) :=
  let '(r, bytes) := serialize_write v ([] : list Z) in
  match r with Ok _ => Ok bytes | Err e => Err e | Panic => Panic end.

Definition serialize_to_hex (v : Value) : result SerializationError string :=
  bytes ← serialize_to_vec v; mret (to_hex bytes).

Definition serialized_size (v : Value) : result SerializationError Z :=
  let '(r, count) := serialize_write v (0 : WriteCounter) in
  match r with
  | Ok _ => Ok count
  | Err _ => Err (DeserializationFailure
                    "Error: Failed to count serialization length of Clarity value")
  | Panic => Panic
  end.

(** ** Equality of values: [impl PartialEq for Value] *)

Fixpoint value_eqb (v w : Value) : bool :=
  match v, w with
  | Int a, Int b => a =? b
  | UInt a, UInt b => a =? b
  | Bool a, Bool b => Bool.eqb a b
  | Principal a, Principal b => bool_decide (a = b)
  | Sequence (Buffer a), Sequence (Buffer b) => bool_decide (a = b)
  | Sequence (String_ (CharUTF8 a)), Sequence (String_ (CharUTF8 b)) => bool_decide (a = b)
  | Sequence (String_ (CharASCII a)), Sequence (String_ (CharASCII b)) => bool_decide (a = b)
  | Sequence (List_ a _), Sequence (List_ b _) =>
      (fix items (l k : list Value) : bool :=
         match l, k with
         | [], [] => true
         | x :: l, y :: k => value_eqb x y && items l k
         | _, _ => false
         end) a b
  | Tuple (mkTuple _ a), Tuple (mkTuple _ b) =>
      (fix entries (l k : list (ClarityName * Value)) : bool :=
         match l, k with
         | [], [] => true
         | (n, x) :: l, (n', y) :: k => bool_decide (n = n') && value_eqb x y && entries l k
         | _, _ => false
         end) a b
  | Optional None, Optional None => true
  | Optional (Some a), Optional (Some b) => value_eqb a b
  | Response c a, Response c' b => Bool.eqb c c' && value_eqb a b
  | CallableContract c t, CallableContract c' t' => bool_decide (c = c' /\ t = t')
  | _, _ => false
  end.

(** ** Induction on values *)

Section ValueInduction.
Context (P : Value -> Prop).
Context (P_Int : forall i, P (Int i)) (P_UInt : forall u, P (UInt u)) (P_Bool : forall b, P (Bool b)).
Context (P_Buffer : forall data, P (Sequence (Buffer data))).
Context (P_List : forall data t, Forall P data -> P (Sequence (List_ data t))).
Context (P_String : forall c, P (Sequence (String_ c))).
Context (P_Principal : forall p, P (Principal p)).
Context (P_Tuple : forall t m, Forall (fun e => P e.2) m -> P (Tuple (mkTuple t m))).
Context (P_None : P (Optional None)) (P_Some : forall v, P v -> P (Optional (Some v))).
Context (P_Response : forall c v, P v -> P (Response c v)).
Context (P_Callable : forall c t, P (CallableContract c t)).

Fixpoint value_induction (v : Value) : P v :=
  match v with
  | Int i => P_Int i
  | UInt u => P_UInt u
  | Bool b => P_Bool b
  | Sequence (Buffer data) => P_Buffer data
  | Sequence (List_ data t) =>
      P_List data t
        ((fix items (l : list Value) : Forall P l :=
            match l with
            | [] => Forall_nil_2 P
            | x :: l => Forall_cons_2 P x l (value_induction x) (items l)
            end) data)
  | Sequence (String_ c) => P_String c
  | Principal p => P_Principal p
  | Tuple (mkTuple t m) =>
      P_Tuple t m
        ((fix entries (l : list (ClarityName * Value)) : Forall (fun e => P e.2) l :=
            match l with
            | [] => Forall_nil_2 _
            | e :: l => Forall_cons_2 _ e l
                (match e as e' return P e'.2 with (_, x) => value_induction x end) (entries l)
            end) m)
  | Optional None => P_None
  | Optional (Some v) => P_Some v (value_induction v)
  | Response c v => P_Response c v (value_induction v)
  | CallableContract c t => P_Callable c t
  end.
End ValueInduction.

(** ** The bytes of a value *)

Definition spd_bytes_of (p : StandardPrincipalData) : list Z := spd_version p :: spd_bytes p.
Definition name_bytes (name : string) : list Z := Z.of_nat (String.length name) :: as_bytes name.
Definition contract_bytes (c : QualifiedContractIdentifier) : list Z :=
  spd_bytes_of (issuer c) ++ name_bytes (contract_name c).

Fixpoint value_bytes (v : Value) : list Z :=
  prefix_u8 (prefix_of v) ::
  match v with
  | Int i => to_be_bytes 16 i
  | UInt u => to_be_bytes 16 u
  | Principal (Standard p) => spd_bytes_of p
  | Principal (Contract c) | CallableContract c _ => contract_bytes c
  | Response _ data => value_bytes data
  | Bool _ | Optional None => []
  | Optional (Some x) => value_bytes x
  | Sequence (List_ data _) =>
      to_be_bytes 4 (Z.of_nat (length data)) ++ concat (map value_bytes data)
  | Sequence (Buffer data) | Sequence (String_ (CharASCII data)) =>
      to_be_bytes 4 (Z.of_nat (length data)) ++ data
  | Sequence (String_ (CharUTF8 data)) =>
      to_be_bytes 4 (Z.of_nat (length (concat data))) ++ concat data
  | Tuple (mkTuple _ m) =>
      to_be_bytes 4 (Z.of_nat (length m))
      ++ concat (map (fun '(key, x) => name_bytes key ++ value_bytes x) m)
  end.

(** A value whose lengths fit the counts they are written in: what the
    constructors of [Value] enforce. *)
Definition name_fits (name : string) : Prop := Z.of_nat (String.length name) <= u8_max.

Fixpoint sized (v : Value) : Prop :=
  match v with
  | Int _ | UInt _ | Bool _ | Optional None | Principal (Standard _) => True
  | Principal (Contract c) | CallableContract c _ => name_fits (contract_name c)
  | Response _ x | Optional (Some x) => sized x
  | Sequence (List_ data _) =>
      Z.of_nat (length data) <= u32_max /\
      (fix items (l : list Value) : Prop :=
         match l with [] => True | x :: l => sized x /\ items l end) data
  | Sequence (Buffer data) | Sequence (String_ (CharASCII data)) =>
      Z.of_nat (length data) <= MAX_VALUE_SIZE
  | Sequence (String_ (CharUTF8 data)) => Z.of_nat (length (concat data)) <= u32_max
  | Tuple (mkTuple _ m) =>
      Z.of_nat (length m) <= u32_max /\
      (fix entries (l : list (ClarityName * Value)) : Prop :=
         match l with [] => True | (key, x) :: l => name_fits key /\ sized x /\ entries l end) m
  end.

Lemma sized_list data t :
  sized (Sequence (List_ data t)) <-> Z.of_nat (length data) <= u32_max /\ Forall sized data.
Proof.
  cbn [sized]. apply and_iff_compat_l. induction data as [| x l IH]; [by split |].
  rewrite Forall_cons. by rewrite <- IH.
Qed.

Lemma sized_tuple t m :
  sized (Tuple (mkTuple t m)) <->
  Z.of_nat (length m) <= u32_max /\ Forall (fun e => name_fits e.1 /\ sized e.2) m.
Proof.
  cbn [sized]. apply and_iff_compat_l. induction m as [| [k x] l IH]; [by split |].
  rewrite Forall_cons, <- IH. cbn. tauto.
Qed.

(** ** What a writer does with the bytes

    [emits m a bytes]: running [m] hands [bytes] to the writer and returns [a].
    The rules are all the serializer needs; a vector satisfies them by
    appending, a counter by adding lengths until they leave [u32]. *)

Class Emits (W : Type) `{Write W}
    (emits : forall A, M W SerializationError A -> A -> list Z -> Prop) := {
  emits_ret A (a : A) : emits A (mret a) a [];
  emits_lift A (a : A) : emits A (lift (Ok a)) a [];
  emits_write bytes : emits unit (write_all bytes) tt bytes;
  emits_bind A B m (k : A -> M W SerializationError B) a b bs1 bs2 :
    emits A m a bs1 -> emits B (k a) b bs2 -> emits B (mbind k m) b (bs1 ++ bs2);
}.

Section EmitValue.
Context {W : Type} `{Emits W emits}.

Lemma emits_bind_ret {A B} m (k : A -> M W SerializationError B) a b bs :
  emits A m a [] -> emits B (k a) b bs -> emits B (mbind k m) b bs.
Proof. intros Hm Hk. apply (emits_bind _ _ _ _ a b [] bs Hm Hk). Qed.

Lemma emits_cons {B} x (k : unit -> M W SerializationError B) b bs :
  emits B (k tt) b bs -> emits B (mbind k (write_all [x])) b (x :: bs).
Proof. intros Hk. apply (emits_bind _ _ _ _ tt b [x] bs); [apply emits_write | done]. Qed.

Lemma emits_spd p : emits unit (spd_serialize_write p) tt (spd_bytes_of p).
Proof. apply emits_cons, emits_write. Qed.

Lemma emits_name name :
  name_fits name -> emits unit (name_serialize_write name) tt (name_bytes name).
Proof.
  intros Hn. unfold name_serialize_write, guarded_len.
  rewrite (proj2 (checked_Some 0 u8_max _ _) (conj eq_refl (conj (Zle_0_nat _) Hn))).
  eapply emits_bind_ret; [apply emits_lift | apply emits_cons, emits_write].
Qed.

Lemma emits_contract c :
  name_fits (contract_name c) ->
  emits unit (spd_serialize_write (issuer c);; name_serialize_write (contract_name c)) tt
    (contract_bytes c).
Proof. intros Hn. eapply emits_bind; [apply emits_spd | by apply emits_name]. Qed.

Lemma emits_chunks l : emits unit (write_chunks l) tt (concat l).
Proof.
  induction l as [| b l IH]; cbn; [apply emits_ret |].
  eapply emits_bind; [apply emits_write | apply IH].
Qed.

Lemma emits_length_data {E} (r : result E Z) (f : E -> SerializationError) n
    (k : M W SerializationError unit) bs :
  r = Ok n -> emits unit k tt bs ->
  emits unit (len ← lift (map_err f r); write_all (to_be_bytes 4 len);; k) tt
    (to_be_bytes 4 n ++ bs).
Proof.
  intros -> Hk. eapply emits_bind_ret; [apply emits_lift |].
  eapply emits_bind; [apply emits_write | done].
Qed.

Lemma buffer_length_ok (data : list Z) :
  Z.of_nat (length data) <= MAX_VALUE_SIZE ->
  buffer_length (length data) = Ok (Z.of_nat (length data)).
Proof.
  intros Hl. unfold buffer_length, BufferLength_try_from.
  destruct (Z.gtb_spec (Z.of_nat (length data)) MAX_VALUE_SIZE); [lia |].
  destruct (Z.ltb_spec (Z.of_nat (length data)) 0); [lia | done].
Qed.

Lemma u32_length_ok {E} n (e : E) :
  Z.of_nat n <= u32_max -> ok_or (checked 0 u32_max (Z.of_nat n)) e = Ok (Z.of_nat n).
Proof. intros Hn. apply ok_or_Ok, checked_Some. lia. Qed.

Lemma utf8_total_len (data : list (list Z)) acc :
  0 <= acc -> acc + Z.of_nat (length (concat data)) <= u32_max ->
  foldl (fun len c => (len + Z.of_nat (length c)) mod 2 ^ 32) acc data
  = acc + Z.of_nat (length (concat data)).
Proof.
  revert acc. induction data as [| c l IH]; intros acc Ha Hl; cbn [foldl concat] in *.
  - cbn. lia.
  - rewrite length_app in *. rewrite Z.mod_small by (unfold u32_max in *; lia).
    rewrite IH by lia. lia.
Qed.

Lemma emits_value v : sized v -> emits unit (serialize_write v) tt (value_bytes v).
Proof.
  induction v as [i | u | b | data | data t IH | c | p | t m IH | | x IH | c x IH | c t]
    using value_induction; intros Hs; cbn [serialize_write value_bytes]; apply emits_cons.
  - apply emits_write.
  - apply emits_write.
  - apply emits_ret.
  - apply (emits_length_data (buffer_length (length data)));
      [by apply buffer_length_ok | apply emits_write].
  - apply sized_list in Hs as [Hl Hs].
    apply (emits_length_data (list_len data)); [by apply u32_length_ok |]. clear Hl.
    induction IH as [| x l Hx _ IHl]; cbn; [apply emits_ret |]. apply Forall_cons in Hs as [? ?].
    eapply emits_bind; [by apply Hx | by apply IHl].
  - destruct c as [data | data].
    + rewrite utf8_total_len by (done || (cbn in Hs; lia)).
      eapply emits_bind; [apply emits_write | apply emits_chunks].
    + apply (emits_length_data (buffer_length (length data)));
        [by apply buffer_length_ok | apply emits_write].
  - destruct p as [p | c]; [apply emits_spd | by apply emits_contract].
  - apply sized_tuple in Hs as [Hl Hs]. rewrite u32_length_ok by done.
    eapply emits_bind_ret; [apply emits_lift |]. eapply emits_bind; [apply emits_write |].
    clear Hl. induction IH as [| [k x] l Hx _ IHl]; cbn [map concat]; [apply emits_ret |].
    apply Forall_cons in Hs as [[? ?] ?]. rewrite <- (assoc_L (++)).
    eapply emits_bind; [by apply emits_name |]. eapply emits_bind; [by apply Hx | by apply IHl].
  - apply emits_ret.
  - by apply IH.
  - by apply IH.
  - by apply emits_contract.
Qed.
End EmitValue.

Definition vec_emits A (m : M (list Z) SerializationError A) (a : A) (bytes : list Z) : Prop :=
  forall v, m v = (Ok a, v ++ bytes).

#[export] Instance vec_Emits : Emits (list Z) vec_emits.
Proof.
  split; unfold vec_emits.
  - intros A a v. by rewrite app_nil_r.
  - intros A a v. by rewrite app_nil_r.
  - done.
  - intros A B m k a b bs1 bs2 Hm Hk v. by rewrite (M_bind_eval _ _ _ _ _ (Hm v)), Hk, (assoc_L (++)).
Qed.

Definition counter_emits A (m : M WriteCounter SerializationError A) (a : A) (bytes : list Z)
    : Prop :=
  forall c, 0 <= c <= u32_max ->
  (c + Z.of_nat (length bytes) <= u32_max -> m c = (Ok a, c + Z.of_nat (length bytes))) /\
  (u32_max < c + Z.of_nat (length bytes) -> exists c', m c = (Err counter_overflow, c')).

#[export] Instance counter_Emits : Emits WriteCounter counter_emits.
Proof.
  split; unfold counter_emits.
  - intros A a c Hc. split; cbn; [intros _; by rewrite Z.add_0_r | lia].
  - intros A a c Hc. split; cbn; [intros _; by rewrite Z.add_0_r | lia].
  - intros bytes c Hc. unfold write_all, WriteCounter_Write, lift, mbind, M_bind, get.
    destruct (checked 0 u32_max (Z.of_nat (length bytes))) eqn:E1; cbn [ok_or];
      [apply checked_Some in E1 as [-> ?] | apply checked_None in E1].
    + destruct (checked 0 u32_max (c + _)) eqn:E2; cbn [ok_or];
        [apply checked_Some in E2 as [-> ?] | apply checked_None in E2]; split; intros; try lia;
        [done | by eexists].
    + split; [lia | by eexists].
  - intros A B m k a b bs1 bs2 Hm Hk c Hc. rewrite length_app, Nat2Z.inj_add.
    destruct (Hm c Hc) as [Hm1 Hm2].
    destruct (Z.le_gt_cases (c + Z.of_nat (length bs1)) u32_max) as [Hle | Hgt].
    + rewrite (M_bind_eval _ _ _ _ _ (Hm1 Hle)), Z.add_assoc. apply Hk. lia.
    + destruct (Hm2 Hgt) as [c' E]. rewrite (M_bind_Err _ _ _ _ _ E).
      split; [lia | by eexists].
Qed.

Lemma serialize_to_vec_bytes v : sized v -> serialize_to_vec v = Ok (value_bytes v).
Proof.
  intros Hs. unfold serialize_to_vec. by rewrite (emits_value (emits := vec_emits) v Hs []).
Qed.

(** ** Values that the type system can build

    Integers in range, 20-byte hashes, UTF-8 strings stored character by
    character, and no callable contract: that one is only a way to call a
    principal, and is written like it. *)

(** The number of continuation bytes that the first byte of a UTF-8 character
    announces *)
Definition utf8_tail (b : Z) : nat :=
  if b <? 128 then 0 else if b <? 224 then 1 else if b <? 240 then 2 else 3.

Definition utf8_char (c : list Z) : Prop :=
  exists b tail, c = b :: tail /\ length tail = utf8_tail b.

Definition hash_sized (p : StandardPrincipalData) : Prop := length (spd_bytes p) = 20%nat.

Fixpoint proper (v : Value) : Prop :=
  match v with
  | Int i => is_i128 i
  | UInt u => is_u128 u
  | Bool _ | Optional None | Sequence (Buffer _) | Sequence (String_ (CharASCII _)) => True
  | Principal (Standard p) => hash_sized p
  | Principal (Contract c) => hash_sized (issuer c)
  | CallableContract _ _ => False
  | Response _ x | Optional (Some x) => proper x
  | Sequence (String_ (CharUTF8 data)) => Forall utf8_char data
  | Sequence (List_ data _) =>
      (fix items (l : list Value) : Prop :=
         match l with [] => True | x :: l => proper x /\ items l end) data
  | Tuple (mkTuple _ m) =>
      (fix entries (l : list (ClarityName * Value)) : Prop :=
         match l with [] => True | (_, x) :: l => proper x /\ entries l end) m
  end.

Definition wf_value (v : Value) : Prop := sized v /\ proper v.

Lemma wf_value_list data t :
  wf_value (Sequence (List_ data t)) <->
  Z.of_nat (length data) <= u32_max /\ Forall wf_value data.
Proof.
  unfold wf_value. rewrite sized_list. cbn [proper].
  assert ((fix items (l : list Value) : Prop :=
             match l with [] => True | x :: l => proper x /\ items l end) data
          <-> Forall proper data) as ->.
  { induction data as [| x l IH]; [by split |]. rewrite Forall_cons. by rewrite <- IH. }
  rewrite Forall_and. tauto.
Qed.

Lemma wf_value_tuple t m :
  wf_value (Tuple (mkTuple t m)) <->
  Z.of_nat (length m) <= u32_max /\ Forall (fun e => name_fits e.1 /\ wf_value e.2) m.
Proof.
  unfold wf_value. rewrite sized_tuple. cbn [proper].
  assert ((fix entries (l : list (ClarityName * Value)) : Prop :=
             match l with [] => True | (_, x) :: l => proper x /\ entries l end) m
          <-> Forall (fun e => proper e.2) m) as ->.
  { induction m as [| [k x] l IH]; [by split |]. rewrite Forall_cons. by rewrite <- IH. }
  rewrite !Forall_and. tauto.
Qed.

(** ** Equality of lists and tuples *)

Lemma value_eqb_list a b t t' :
  value_eqb (Sequence (List_ a t)) (Sequence (List_ b t')) = true <->
  Forall2 (fun x y => value_eqb x y = true) a b.
Proof.
  cbn [value_eqb]. revert b. induction a as [| x l IH]; intros [| y k]; cbn;
    rewrite ?andb_true_iff, ?Forall2_cons, ?IH; try done.
  - by split; [| intros ?%Forall2_nil_inv_l].
  - by split; [| intros ?%Forall2_nil_inv_r].
Qed.

Lemma value_eqb_tuple a b t t' :
  value_eqb (Tuple (mkTuple t a)) (Tuple (mkTuple t' b)) = true <->
  Forall2 (fun x y => x.1 = y.1 /\ value_eqb x.2 y.2 = true) a b.
Proof.
  cbn [value_eqb]. revert b. induction a as [| [n x] l IH]; intros [| [n' y] k]; cbn;
    rewrite ?andb_true_iff, ?Forall2_cons, ?IH, ?bool_decide_eq_true; try done.
  - by split; [| intros ?%Forall2_nil_inv_l].
  - by split; [| intros ?%Forall2_nil_inv_r].
Qed.

Lemma value_eqb_refl v : value_eqb v v = true.
Proof.
  induction v as [i | u | b | data | data t IH | c | p | t m IH | | x IH | c x IH | c t]
    using value_induction.
  - apply Z.eqb_refl.
  - apply Z.eqb_refl.
  - by destruct b.
  - by apply bool_decide_eq_true.
  - apply value_eqb_list. by induction IH; constructor.
  - by destruct c; apply bool_decide_eq_true.
  - by apply bool_decide_eq_true.
  - apply value_eqb_tuple. by induction IH; constructor.
  - done.
  - apply IH.
  - cbn. rewrite IH. by destruct c.
  - by apply bool_decide_eq_true.
Qed.

Lemma value_eqb_trans u v w :
  value_eqb u v = true -> value_eqb v w = true -> value_eqb u w = true.
Proof.
  revert v w. induction u as [i | n | b | data | data t IH | c | p | t m IH | | x IH | c x IH | c t]
    using value_induction; intros v w Hv Hw;
    destruct v as [i' | u' | b' | [data' | data' t' | c'] | p' | [t' m'] | [x' |] | c' x' | c' t'];
    try (cbn in Hv; discriminate Hv); try (by destruct c; cbn in Hv);
    destruct w as [i2 | u2 | b2 | [data2 | data2 t2 | c2] | p2 | [t2 m2] | [x2 |] | c2 x2 | c2 t2];
    try (cbn in Hw; discriminate Hw); try (by destruct c'; cbn in Hw).
  - cbn in *. ints_hyps. subst. apply Z.eqb_refl.
  - cbn in *. ints_hyps. subst. apply Z.eqb_refl.
  - apply Bool.eqb_prop in Hv, Hw. subst. by destruct b2.
  - apply bool_decide_eq_true in Hv, Hw. apply bool_decide_eq_true. congruence.
  - rewrite value_eqb_list in *. revert data2 Hw.
    induction Hv as [| x y l k Hxy _ IHl]; intros data2 Hw; inversion_clear Hw; [done |].
    apply Forall_cons in IH as [Hx IH]. constructor; [by eapply Hx | by apply IHl].
  - destruct c, c', c2; try discriminate Hv; try discriminate Hw;
      apply bool_decide_eq_true in Hv, Hw; apply bool_decide_eq_true; congruence.
  - apply bool_decide_eq_true in Hv, Hw. apply bool_decide_eq_true. congruence.
  - rewrite value_eqb_tuple in *. revert m2 Hw.
    induction Hv as [| x y l k [Hn Hxy] _ IHl]; intros m2 Hw; inversion_clear Hw; [done |].
    apply Forall_cons in IH as [Hx IH]. constructor; [| by apply IHl].
    destruct H as [Hn2 Hyz]. split; [congruence | by eapply Hx].
  - done.
  - by eapply IH.
  - cbn in *. apply andb_true_iff in Hv as [Hc Hx], Hw as [Hc' Hx'].
    apply Bool.eqb_prop in Hc, Hc'. subst. apply andb_true_iff.
    split; [by destruct c2 | by eapply IH].
  - apply bool_decide_eq_true in Hv as [-> ->], Hw as [-> ->]. by apply bool_decide_eq_true.
Qed.

(** Equal values are written alike: a hash of the bytes agrees with equality. *)
Lemma value_eqb_bytes v w :
  value_eqb v w = true -> value_bytes v = value_bytes w.
Proof.
  revert w. induction v as [i | u | b | data | data t IH | c | p | t m IH | | x IH | c x IH | c t]
    using value_induction; intros w Hw;
    destruct w as [i' | u' | b' | [data' | data' t' | c'] | p' | [t' m'] | [x' |] | c' x' | c' t'];
    try (cbn in Hw; discriminate Hw); try (by destruct c; cbn in Hw).
  - cbn in Hw. ints_hyps. by subst.
  - cbn in Hw. ints_hyps. by subst.
  - apply Bool.eqb_prop in Hw. by subst.
  - apply bool_decide_eq_true in Hw. by subst.
  - apply value_eqb_list in Hw. cbn [value_bytes]. do 2 f_equal.
    + by rewrite (Forall2_length _ _ _ Hw).
    + f_equal. induction Hw as [| x y l k Hxy _ IHl]; [done |]. apply Forall_cons in IH as [Hx ?].
      cbn. by rewrite (Hx y Hxy), IHl.
  - destruct c, c'; try discriminate Hw; apply bool_decide_eq_true in Hw; by subst.
  - apply bool_decide_eq_true in Hw. by subst.
  - apply value_eqb_tuple in Hw. cbn [value_bytes]. do 2 f_equal.
    + by rewrite (Forall2_length _ _ _ Hw).
    + f_equal. induction Hw as [| [n x] [n' y] l k [Hn Hxy] _ IHl]; [done |].
      apply Forall_cons in IH as [Hx ?]. cbn in Hn, Hxy, Hx. subst n'. cbn [map].
      by rewrite (Hx y Hxy), IHl.
  - done.
  - cbn [value_bytes]. f_equal. by apply IH.
  - cbn in Hw. apply andb_true_iff in Hw as [Hc Hx]. apply Bool.eqb_prop in Hc. subst c'.
    cbn [value_bytes]. f_equal. by apply IH.
  - apply bool_decide_eq_true in Hw as [-> ->]. done.
Qed.

Lemma value_eqb_sized v w : value_eqb v w = true -> sized v -> sized w.
Proof.
  revert w. induction v as [i | u | b | data | data t IH | c | p | t m IH | | x IH | c x IH | c t]
    using value_induction; intros w Hw Hs;
    destruct w as [i' | u' | b' | [data' | data' t' | c'] | p' | [t' m'] | [x' |] | c' x' | c' t'];
    try (cbn in Hw; discriminate Hw); try (by destruct c; cbn in Hw); try done.
  - apply bool_decide_eq_true in Hw. by subst.
  - apply value_eqb_list in Hw. rewrite sized_list in *. destruct Hs as [Hl Hs].
    split; [by rewrite <- (Forall2_length _ _ _ Hw) |].
    clear Hl. induction Hw as [| x y l k Hxy _ IHl]; [done |].
    apply Forall_cons in IH as [Hx IH], Hs as [Hsx Hs]. constructor; [by apply Hx | by apply IHl].
  - destruct c, c'; try discriminate Hw; apply bool_decide_eq_true in Hw; by subst.
  - apply bool_decide_eq_true in Hw. by subst.
  - apply value_eqb_tuple in Hw. rewrite sized_tuple in *. destruct Hs as [Hl Hs].
    split; [by rewrite <- (Forall2_length _ _ _ Hw) |].
    clear Hl. induction Hw as [| x y l k [Hn Hxy] _ IHl]; [done |].
    apply Forall_cons in IH as [Hx IH], Hs as [[Hsn Hsx] Hs].
    constructor; [split; [by rewrite <- Hn | by apply Hx] | by apply IHl].
  - by apply (IH x').
  - cbn in Hw. apply andb_true_iff in Hw as [_ Hx]. by apply (IH x').
  - apply bool_decide_eq_true in Hw as [-> ->]. done.
Qed.

(** ** Different values are written differently *)

Lemma to_be_bytes_mod n z : to_be_bytes n z = to_be_bytes n (z mod 256 ^ Z.of_nat n).
Proof.
  revert z. induction n as [| n IH]; intros z; [done |]. cbn [to_be_bytes].
  rewrite Nat2Z.inj_succ, Z.pow_succ_r by lia.
  assert (0 < 256 ^ Z.of_nat n) by (apply Z.pow_pos_nonneg; lia).
  rewrite Z.rem_mul_r by lia. f_equal.
  - rewrite (IH (z / 256)). f_equal.
    rewrite Z.mul_comm, Z.div_add by lia. by rewrite (Z.div_small (z mod 256)) by (apply Z.mod_pos_bound; lia).
  - rewrite Z.mul_comm, Z.mod_add by lia. by rewrite Z.mod_mod by lia.
Qed.

Lemma be_bytes_prefix n a b r r' :
  to_be_bytes n a ++ r = to_be_bytes n b ++ r' ->
  a mod 256 ^ Z.of_nat n = b mod 256 ^ Z.of_nat n /\ r = r'.
Proof.
  intros E. apply app_inj_1 in E as [E ->]; [| by rewrite !length_to_be_bytes].
  split; [| done]. rewrite (to_be_bytes_mod n a), (to_be_bytes_mod n b) in E.
  assert (0 < 256 ^ Z.of_nat n) by (apply Z.pow_pos_nonneg; lia).
  rewrite <- (from_to_be_bytes n (a mod _)), E, from_to_be_bytes; [done | |];
    by apply Z.mod_pos_bound.
Qed.

Lemma count_prefix (a b : nat) r r' :
  Z.of_nat a <= u32_max -> Z.of_nat b <= u32_max ->
  to_be_bytes 4 (Z.of_nat a) ++ r = to_be_bytes 4 (Z.of_nat b) ++ r' -> a = b /\ r = r'.
Proof.
  intros Ha Hb [E ->]%be_bytes_prefix. change (256 ^ Z.of_nat 4) with (u32_max + 1) in E.
  rewrite !Z.mod_small in E by lia. split; [lia | done].
Qed.

Lemma name_prefix s t r r' :
  name_bytes s ++ r = name_bytes t ++ r' -> s = t /\ r = r'.
Proof.
  cbn. intros [= Hl E]. apply app_inj_1 in E as [E ->]; [| rewrite !as_bytes_length; lia].
  split; [by apply as_bytes_inj | done].
Qed.

Lemma spd_prefix p q r r' :
  hash_sized p -> hash_sized q ->
  spd_bytes_of p ++ r = spd_bytes_of q ++ r' -> p = q /\ r = r'.
Proof.
  unfold hash_sized. destruct p, q. cbn. intros Hp Hq [= -> E].
  apply app_inj_1 in E as [-> ->]; [done | congruence].
Qed.

Lemma contract_prefix c d r r' :
  hash_sized (issuer c) -> hash_sized (issuer d) ->
  contract_bytes c ++ r = contract_bytes d ++ r' -> c = d /\ r = r'.
Proof.
  unfold contract_bytes. rewrite <- !(assoc_L (++)).
  intros Hc Hd [Hi E]%spd_prefix; [| done ..]. apply name_prefix in E as [Hn ->].
  destruct c, d. cbn in *. by subst.
Qed.

Lemma utf8_concat_inj l k : Forall utf8_char l -> Forall utf8_char k -> concat l = concat k -> l = k.
Proof.
  intros Hl. revert k. induction Hl as [| c l (b & tl & -> & Hb) _ IH]; intros k Hk E.
  - destruct Hk as [| d k (? & ? & -> & _)]; [done | discriminate E].
  - destruct Hk as [| d k (b' & tl' & -> & Hb') Hk]; [discriminate E |]. cbn in E.
    injection E as -> E. apply app_inj_1 in E as [-> E]; [| congruence].
    f_equal. by apply IH.
Qed.

Definition decodes_to (v : Value) : Prop :=
  forall w r r', wf_value v -> wf_value w ->
  value_bytes v ++ r = value_bytes w ++ r' -> value_eqb v w = true /\ r = r'.

Lemma items_prefix l k r r' :
  Forall decodes_to l -> Forall wf_value l -> Forall wf_value k -> length l = length k ->
  concat (map value_bytes l) ++ r = concat (map value_bytes k) ++ r' ->
  Forall2 (fun x y => value_eqb x y = true) l k /\ r = r'.
Proof.
  intros Hd. revert k. induction Hd as [| x l Hx _ IH]; intros [| y k] Hl Hk Hlen E; try done.
  apply Forall_cons in Hl as [Wx Hl], Hk as [Wy Hk]. cbn in E. rewrite <- !(assoc_L (++)) in E.
  destruct (Hx y _ _ Wx Wy E) as [Exy E']. apply IH in E' as [? ->]; try done; [| by injection Hlen].
  split; [by constructor | done].
Qed.

Lemma entries_prefix (l k : list (ClarityName * Value)) r r' :
  Forall (fun e => decodes_to e.2) l -> Forall (fun e => name_fits e.1 /\ wf_value e.2) l ->
  Forall (fun e => name_fits e.1 /\ wf_value e.2) k -> length l = length k ->
  concat (map (fun '(key, x) => name_bytes key ++ value_bytes x) l) ++ r
  = concat (map (fun '(key, x) => name_bytes key ++ value_bytes x) k) ++ r' ->
  Forall2 (fun x y => x.1 = y.1 /\ value_eqb x.2 y.2 = true) l k /\ r = r'.
Proof.
  intros Hd. revert k. induction Hd as [| [n x] l Hx _ IH]; intros [| [n' y] k] Hl Hk Hlen E;
    try done.
  apply Forall_cons in Hl as [[_ Wx] Hl], Hk as [[_ Wy] Hk]. cbn [map concat] in E.
  rewrite <- !(assoc_L (++)) in E.
  apply name_prefix in E as [-> E]. destruct (Hx y _ _ Wx Wy E) as [Exy E'].
  apply IH in E' as [? ->]; try done; [| by injection Hlen]. split; [by constructor | done].
Qed.

Lemma cons_inj {A} (x y : A) l k : x :: l = y :: k -> x = y /\ l = k.
Proof. by intros [= -> ->]. Qed.

Lemma values_decode v : decodes_to v.
Proof.
  induction v as [i | u | [] | data | data t IH | [c | c] | [p | p] | t m IH | | x IH | [] x IH | c t]
    using value_induction; intros w r r' Hv Hw E;
    destruct w as [i' | u' | [] | [data' | data' t' | [c' | c']] | [p' | p'] | [t' m'] | [x' |]
                  | [] x' | c' t']; try (by destruct Hw as [_ []]); try (by destruct Hv as [_ []]);
    cbn [value_bytes app] in E; apply cons_inj in E as [Eh E]; try discriminate Eh; clear Eh;
    rewrite <- ?(assoc_L (++)) in E.
  - destruct Hv as [_ ?], Hw as [_ ?]. apply be_bytes_prefix in E as [E ->]. split; [| done].
    apply Z.eqb_eq. change (256 ^ Z.of_nat 16) with (2 ^ 128) in E.
    assert (2 ^ 128 <> 0) as Hne by done.
    pose proof (Z.div_mod i (2 ^ 128) Hne). pose proof (Z.div_mod i' (2 ^ 128) Hne).
    cbn [proper] in *. unfold is_i128, i128_min, i128_max in *. lia.
  - destruct Hv as [_ ?], Hw as [_ ?]. apply be_bytes_prefix in E as [E ->]. split; [| done].
    apply Z.eqb_eq. change (256 ^ Z.of_nat 16) with (u128_max + 1) in E.
    cbn [proper] in *. unfold is_u128 in *. rewrite !Z.mod_small in E by lia. done.
  - done.
  - done.
  - destruct Hv as [Hv _], Hw as [Hw _]. cbn in Hv, Hw. unfold MAX_VALUE_SIZE in *.
    apply count_prefix in E as [El E]; [| unfold u32_max; lia ..].
    apply app_inj_1 in E as [-> ->]; [| done]. split; [by apply bool_decide_eq_true | done].
  - apply wf_value_list in Hv as [Hl Hv], Hw as [Hl' Hw].
    apply count_prefix in E as [El E]; [| done ..].
    apply items_prefix in E as [E ->]; try done. by rewrite value_eqb_list.
  - destruct Hv as [Hv Uv], Hw as [Hw Uw]. cbn in Hv, Uv, Hw, Uw.
    apply count_prefix in E as [El E]; [| done ..].
    apply app_inj_1 in E as [E ->]; [| done].
    rewrite (utf8_concat_inj c c') by done. split; [by apply bool_decide_eq_true | done].
  - destruct Hv as [Hv _], Hw as [Hw _]. cbn in Hv, Hw. unfold MAX_VALUE_SIZE in *.
    apply count_prefix in E as [El E]; [| unfold u32_max; lia ..].
    apply app_inj_1 in E as [-> ->]; [| done]. split; [by apply bool_decide_eq_true | done].
  - destruct Hv as [_ Hv], Hw as [_ Hw]. apply spd_prefix in E as [-> ->]; [| done ..].
    split; [by apply bool_decide_eq_true | done].
  - destruct Hv as [_ Hv], Hw as [_ Hw]. apply contract_prefix in E as [-> ->]; [| done ..].
    split; [by apply bool_decide_eq_true | done].
  - apply wf_value_tuple in Hv as [Hl Hv], Hw as [Hl' Hw].
    apply count_prefix in E as [El E]; [| done ..].
    apply entries_prefix in E as [E ->]; try done. by rewrite value_eqb_tuple.
  - done.
  - by apply IH.
  - by apply IH.
  - by apply IH.
Qed.

(** C21: Writing Clarity values is injective up to Rust's equality of values and
    prefix-free: for values the type system can build, serialization succeeds,
    two of them are equal exactly when they are written to the same bytes, and
    no serialization is a proper prefix of another one. *)
Theorem serialization_identifies_values v w :
  wf_value v -> wf_value w ->
  exists bv bw, serialize_to_vec v = Ok bv /\ serialize_to_vec w = Ok bw /\
    (value_eqb v w = true <-> bv = bw) /\
    (forall rest, bv = bw ++ rest -> rest = []).
Proof.
  intros Hv Hw. exists (value_bytes v), (value_bytes w).
  rewrite !serialize_to_vec_bytes by (by apply Hv || apply Hw). split_and!; try done.
  - split; [apply value_eqb_bytes |]. intros E.
    apply (values_decode v w [] []); [done .. | by rewrite E].
  - intros rest E. destruct (values_decode v w [] rest) as [_ <-]; try done.
    by rewrite app_nil_r.
Qed.

Lemma serialized_size_eq v :
  sized v ->
  serialized_size v
  = if Z.of_nat (length (value_bytes v)) <=? u32_max then Ok (Z.of_nat (length (value_bytes v)))
    else Err (DeserializationFailure
                "Error: Failed to count serialization length of Clarity value").
Proof.
  intros Hs. unfold serialized_size.
  destruct (emits_value (emits := counter_emits) v Hs 0) as [Hle Hgt]; [done |].
  rewrite Z.add_0_l in Hle, Hgt. destruct (Z.leb_spec (Z.of_nat (length (value_bytes v))) u32_max).
  - by rewrite Hle.
  - destruct Hgt as [c ->]; [lia | done].
Qed.

(** The size charged for a serialization is the number of bytes written:
    counting instead of storing gives the length of the byte string, or an
    error exactly when that length leaves u32. *)
Theorem serialized_size_is_length v :
  sized v ->
  exists bytes, serialize_to_vec v = Ok bytes /\
    serialized_size v
    = if Z.of_nat (length bytes) <=? u32_max then Ok (Z.of_nat (length bytes))
      else Err (DeserializationFailure
                  "Error: Failed to count serialization length of Clarity value").
Proof.
  intros Hs. exists (value_bytes v).
  split; [by apply serialize_to_vec_bytes | by apply serialized_size_eq].
Qed.

(** ** Concrete instances *)

Definition sample_value : Value :=
  Tuple (mkTuple (mkTupleType [] 0)
    [("amount", UInt 7); ("items", Sequence (List_ [Int (-1); Int 5] (mkListTypeData 2 IntType 0)));
     ("to", Principal (Contract (mkQualifiedContract transient "c")))]).

Lemma sample_value_wf : wf_value sample_value.
Proof. split; vm_compute; repeat split; discriminate. Qed.

Lemma serialization_identifies_values_witness :
  exists bv bw, serialize_to_vec sample_value = Ok bv /\ serialize_to_vec (Int (-1)) = Ok bw /\
    (value_eqb sample_value (Int (-1)) = true <-> bv = bw) /\
    (forall rest, bv = bw ++ rest -> rest = []).
Proof.
  apply (serialization_identifies_values sample_value (Int (-1))).
  - exact sample_value_wf.
  - split; vm_compute; repeat split; discriminate.
Defined.

Lemma serialized_size_is_length_witness : serialized_size sample_value = Ok 101.
Proof.
  destruct (serialized_size_is_length sample_value (proj1 sample_value_wf)) as (bytes & E & ->).
  vm_compute in E. injection E as <-. vm_compute. reflexivity.
Defined.
