(* ===== verification/VmErrors.v ===== *)
(** * Errors of the type system as errors of the virtual machine

    The [From] conversions that [?] applies where code of the virtual machine
    calls [clarity-types]: [From<ClarityTypeError> for VmExecutionError] of
    [clarity/src/vm/errors.rs] and [From<ClarityTypeError> for
    RuntimeCheckErrorKind] of [clarity/src/vm/analysis/errors.rs], with the
    [Display] renderings they put into messages. Renderings that Rust derives
    ([Debug]) are the fields of [DebugText]. *)

From Stdlib Require Import Ascii.
From S2P Require Import Prelude.
From S2P Require Import BoundedString.
From S2P Require Import Epochs.
From S2P Require Import Values.
From S2P Require Import C32.
From S2P Require Import Serialization.

(** [{:?}] of values and errors; the rendering of a value is clipped to a
    bound by [Value::to_error_string] *)
Class DebugText := {
  to_error_string : Value -> string;
  debug_type_error : ClarityTypeError -> string;
  debug_runtime_error : RuntimeError -> string;
  debug_vm_error : VmExecutionError -> string;
  debug_serialization_error : SerializationError -> string;
}.

(** Renderings that say nothing, to run the definitions *)
Definition plain_text : DebugText :=
  {| to_error_string _ := ""; debug_type_error _ := ""; debug_runtime_error _ := "";
     debug_vm_error _ := ""; debug_serialization_error _ := "" |}.

Section Display.
Context `{Sha256}.

Definition trait_to_string (t : TraitIdentifier) : string :=
  contract_to_string (trait_contract t) +:+ "." +:+ trait_name t.

Fixpoint type_to_string (t : TypeSignature) : string :=
  match t with
  | NoType => "UnknownType"
  | IntType => "int"
  | UIntType => "uint"
  | BoolType => "bool"
  | OptionalType t => "(optional " +:+ type_to_string t +:+ ")"
  | ResponseType v e => "(response " +:+ type_to_string v +:+ " " +:+ type_to_string e +:+ ")"
  | TupleType (mkTupleType type_map _) =>
      foldl (fun s field => s +:+ " (" +:+ field.1 +:+ " " +:+ type_to_string field.2 +:+ ")")
        "(tuple" type_map +:+ ")"
  | PrincipalType => "principal"
  | SequenceType (BufferType len) => "(buff " +:+ pretty len +:+ ")"
  | SequenceType (ListType (mkListTypeData max_len entry_type _)) =>
      "(list " +:+ pretty max_len +:+ " " +:+ type_to_string entry_type +:+ ")"
  | SequenceType (StringType (ASCII len)) => "(string-ascii " +:+ pretty len +:+ ")"
  | SequenceType (StringType (UTF8 len)) => "(string-utf8 " +:+ pretty len +:+ ")"
  | CallableType (CallableTrait trait_id) | TraitReferenceType trait_id =>
      "<" +:+ trait_to_string trait_id +:+ ">"
  | CallableType (CallablePrincipal contract_id) =>
      "(principal " +:+ contract_to_string contract_id +:+ ")"
  | ListUnionType _ => "principal"
  end.

Context `{DebugText}.

(** [Display] of a type error is its [Debug] rendering. *)
Definition type_error_to_string (e : ClarityTypeError) : string := debug_type_error e.

Definition serialization_error_to_string (e : SerializationError) : string :=
  match e with
  | IOError err => "Serialization error caused by IO: " +:+ err
  | BadTypeError e => "Deserialization error, bad type, caused by: " +:+ type_error_to_string e
  | DeserializationFailure e => "Deserialization failure: " +:+ e
  | SerializationFailure e => "Serialization failure: " +:+ e
  | DeserializeExpected e =>
      "Deserialization expected the type of the input to be: " +:+ type_to_string e
  | UnexpectedSerialization => "The serializer handled an input in an unexpected way"
  | LeftoverBytesInDeserialization => "Deserialization error: bytes left over in buffer"
  end.

Definition runtime_check_from_type (err : ClarityTypeError) : RuntimeCheckErrorKind :=
  match err with
  | TE_ValueTooLarge => RC_ValueTooLarge
  | TE_TypeSignatureTooDeep => RC_TypeSignatureTooDeep
  | TE_ValueOutOfBounds => RC_ValueOutOfBounds
  | TE_DuplicateTupleField name => RC_NameAlreadyUsed name
  | TE_TypeMismatchValue ty value => RC_TypeValueError ty (to_error_string value)
  | TE_TypeMismatch expected found => RC_TypeError expected found
  | TE_ListTypeMismatch => RC_ListTypesMustMatch
  | TE_InvalidAsciiCharacter _ => RC_InvalidCharactersDetected
  | TE_InvalidUtf8Encoding => RC_InvalidUTF8Encoding
  | TE_SequenceElementArityMismatch expected found =>
      RC_SequenceElementArityMismatch expected found
  | TE_ExpectedSequenceValue | TE_CouldNotDetermineSerializationType | TE_InvalidUrlString _
  | TE_InvalidClarityName _ | TE_InvalidContractName _ | TE_QualifiedContractEmptyIssuer
  | TE_QualifiedContractMissingDot | TE_InvalidPrincipalEncoding _ | TE_InvalidPrincipalLength _
  | TE_InvalidTypeDescription | TE_NoSuchTupleField _ _ | TE_EmptyTuplesNotAllowed
  | TE_ResponseTypeMismatch _
  | TE_InvariantViolation _ | TE_InvalidPrincipalVersion _ | TE_SupertypeTooLarge =>
      RC_Unreachable
        (bounded_format
           ("Unexpected error type during runtime analysis: " +:+ type_error_to_string err))
  | TE_CouldNotDetermineType => RC_CouldNotDetermineType
  | TE_UnsupportedTypeInEpoch ty epoch =>
      RC_Unreachable
        (bounded_format (type_to_string ty +:+ " should not be used in " +:+ epoch_display epoch))
  | TE_UnsupportedEpoch epoch => RC_Unreachable (bounded_format (epoch_display epoch +:+ " is not supported"))
  end.

Definition vm_from_type (err : ClarityTypeError) : VmExecutionError :=
  match err with
  | TE_InvariantViolation s => Internal (VI_Expect s)
  | TE_InvalidPrincipalVersion _ => Internal (VI_Expect "Unexpected principal data")
  | other_err => RuntimeCheck (runtime_check_from_type other_err)
  end.

(** [Display for VmExecutionError]; that of a [RuntimeError] is its [Debug]. *)
Definition vm_error_to_string (e : VmExecutionError) : string :=
  match e with
  | Runtime err (Some (item :: items)) =>
      let newline := String (Ascii.ascii_of_nat 10) "" in
      debug_runtime_error err +:+ newline +:+ " Stack Trace: " +:+ newline
      +:+ foldl (fun s x => s +:+ x +:+ newline) "" (item :: items)
  | Runtime err _ => debug_runtime_error err
  | _ => debug_vm_error e
  end.
End Display.
