(* ===== verification/TypedValues.v ===== *)
(** * Typed values

    The parts of [clarity-types/src/types/mod.rs] that build and take apart
    values together with their types: [TypeSignature::type_of], the guarded
    constructors of values, tuples and lists, the operations on sequences that
    the native functions use, and the sanitization of values against a type
    ([clarity-types/src/types/serialization.rs]). *)

From S2P Require Import Prelude.
From S2P Require Import Bytes.
From S2P Require Import BTree.
From S2P Require Import Epochs.
From S2P Require Import Values.
From S2P Require Import Types.
From S2P Require Import Supertypes.
From S2P Require Import Serialization.

Abbreviation DataMap := (list (ClarityName * Value)).

(** [Result::ok]; nothing below panics *)
Definition ok {E A} (r : result E A) : option A :=
  match r with Ok a => Some a | _ => None end.

(** ** The type of a value *)

Definition too_large_buffer : ClarityTypeError :=
  TE_InvariantViolation "ERROR: too large of a buffer successfully constructed.".
Definition too_large_type : ClarityTypeError :=
  TE_InvariantViolation "ERROR: Should not have constructed too large of a type.".

(** [SequenceData::type_signature], with [type_signature] of [ListData],
    [BuffData], [ASCIIData] and [UTF8Data] *)
Definition sequence_type_signature (s : SequenceData) : TypeR TypeSignature :=
  match s with
  | Buffer data =>
      n ← map_err (fun _ => too_large_buffer) (BufferLength_try_from (zlen data));
      Ok (SequenceType (BufferType n))
  | List_ _ list_type => Ok (SequenceType (ListType list_type))
  | String_ (CharASCII data) =>
      n ← map_err (fun _ => too_large_buffer) (BufferLength_try_from (zlen data));
      Ok (SequenceType (StringType (ASCII n)))
  | String_ (CharUTF8 data) =>
      n ← map_err (fun _ => too_large_buffer) (StringUTF8Length_try_from (zlen data));
      Ok (SequenceType (StringType (UTF8 n)))
  end.

(** [TypeSignature::type_of], with [type_signature] of [OptionalData] and
    [ResponseData] *)
Fixpoint type_of (x : Value) : TypeR TypeSignature :=
  match x with
  | Principal _ => Ok PrincipalType
  | Int _ => Ok IntType
  | UInt _ => Ok UIntType
  | Bool _ => Ok BoolType
  | Tuple (mkTuple tuple_type _) => Ok (TupleType tuple_type)
  | Sequence s => sequence_type_signature s
  | Optional None => map_err (fun _ => too_large_type) (new_option NoType)
  | Optional (Some v) =>
      t ← type_of v; map_err (fun _ => too_large_type) (new_option t)
  | Response committed data =>
      t ← type_of data;
      map_err (fun _ => too_large_type)
        (if (committed : bool) then new_response t NoType else new_response NoType t)
  | CallableContract contract_identifier trait_identifier =>
      Ok (CallableType (match trait_identifier with
                        | Some t => CallableTrait t
                        | None => CallablePrincipal contract_identifier
                        end))
  end.

Definition literal_type_of (x : Value) : TypeR TypeSignature :=
  match x with
  | Principal (Contract contract_id) => Ok (CallableType (CallablePrincipal contract_id))
  | _ => type_of x
  end.

Definition admits (epoch : StacksEpochId) (self : TypeSignature) (x : Value) : TypeR bool :=
  x_type ← type_of x;
  admits_type epoch self x_type.

Definition value_size (v : Value) : TypeR Z := t ← type_of v; sig_size t.
Definition value_charged_size (epoch : StacksEpochId) (v : Value) : TypeR Z :=
  t ← type_of v; charged_size epoch t.
Definition value_depth (v : Value) : TypeR Z := t ← type_of v; Ok (depth t).

(** ** Constructors of values *)

(** The guards of [Value::some], [Value::okay] and [Value::error] *)
Definition check_wrapped (data : Value) : TypeR unit :=
  size ← value_size data;
  if size + WRAPPER_VALUE_SIZE >? MAX_VALUE_SIZE then Err TE_ValueTooLarge
  else
    d ← value_depth data;
    if d + 1 >? MAX_TYPE_DEPTH then Err TE_TypeSignatureTooDeep else Ok tt.

Definition value_some (data : Value) : TypeR Value :=
  _ ← check_wrapped data; Ok (Optional (Some data)).
Definition value_okay (data : Value) : TypeR Value :=
  _ ← check_wrapped data; Ok (Response true data).
Definition value_error (data : Value) : TypeR Value :=
  _ ← check_wrapped data; Ok (Response false data).

Definition value_none : Value := Optional None.
Definition okay_true : Value := Response true (Bool true).
Definition err_uint (ecode : Z) : Value := Response false (UInt ecode).
Definition err_none : Value := Response false value_none.

Definition buff_from (buff_data : list Z) : TypeR Value :=
  _ ← BufferLength_try_from (zlen buff_data);
  Ok (Sequence (Buffer buff_data)).

Definition buff_from_byte (byte : Z) : Value := Sequence (Buffer [byte]).

(** [u8::is_ascii_alphanumeric], [is_ascii_punctuation], [is_ascii_whitespace] *)
Definition is_ascii_alphanumeric (b : Z) : bool :=
  in_range 48 57 b || in_range 65 90 b || in_range 97 122 b.
Definition is_ascii_punctuation (b : Z) : bool :=
  in_range 33 47 b || in_range 58 64 b || in_range 91 96 b || in_range 123 126 b.
Definition is_ascii_whitespace (b : Z) : bool :=
  (b =? 32) || (b =? 9) || (b =? 10) || (b =? 12) || (b =? 13).
Definition is_clarity_ascii (b : Z) : bool :=
  is_ascii_alphanumeric b || is_ascii_punctuation b || is_ascii_whitespace b.

Definition string_ascii_from_bytes (bytes : list Z) : TypeR Value :=
  _ ← BufferLength_try_from (zlen bytes);
  match filter (fun b => is_clarity_ascii b = false) bytes with
  | b :: _ => Err (TE_InvalidAsciiCharacter b)
  | [] => Ok (Sequence (String_ (CharASCII bytes)))
  end.

Definition string_utf8_from_bytes (bytes : list Z) : TypeR Value :=
  data ← ok_or (utf8_chars bytes) TE_InvalidUtf8Encoding;
  _ ← StringUTF8Length_try_from (zlen data);
  Ok (Sequence (String_ (CharUTF8 data))).

(** *** Lists *)

Fixpoint all_admitted (epoch : StacksEpochId) (item_type : TypeSignature) (l : list Value) :
  TypeR unit :=
  match l with
  | [] => Ok tt
  | item :: l =>
      b ← admits epoch item_type item;
      if (b : bool) then all_admitted epoch item_type l else Err TE_ListTypeMismatch
  end.

Definition list_with_type (epoch : StacksEpochId) (list_data : list Value)
    (expected_type : ListTypeData) : TypeR Value :=
  if get_max_len expected_type <? zlen list_data then Err TE_ValueTooLarge
  else
    _ ← all_admitted epoch (get_list_item_type expected_type) list_data;
    Ok (Sequence (List_ list_data expected_type)).

Definition construct_parent_list_type (args : list Value) : TypeR ListTypeData :=
  parent_list_type_from_iter (zlen args) (type_of <$> args) least_supertype_v2_1.

Definition cons_list_unsanitized (list_data : list Value) : TypeR Value :=
  type_sig ← construct_parent_list_type list_data;
  Ok (Sequence (List_ list_data type_sig)).

(** *** Tuples *)

Record TupleFieldsBehavior := mkTupleFieldsBehavior {
  allow_duplicate_fields : bool;
  allow_missing_fields : bool;
}.

Definition LEGACY : TupleFieldsBehavior := mkTupleFieldsBehavior true true.
Definition EXACT_FIELD_SET : TupleFieldsBehavior := mkTupleFieldsBehavior false false.
Definition behavior_from_epoch (epoch : StacksEpochId) : TupleFieldsBehavior :=
  if enforces_exact_typed_tuple_field_set epoch then EXACT_FIELD_SET else LEGACY.

Fixpoint collect_data (type_map : TypeMap) (data_map : DataMap) (data : DataMap) :
  TypeR (TypeMap * DataMap) :=
  match data with
  | [] => Ok (type_map, data_map)
  | (name, value) :: data =>
      type_info ← type_of value;
      match assoc name type_map with
      | None =>
          collect_data (map_insert name type_info type_map) (map_insert name value data_map) data
      | Some _ => Err (TE_DuplicateTupleField name)
      end
  end.

Definition tuple_from_data (data : DataMap) : TypeR TupleData :=
  maps ← collect_data [] [] data;
  t ← tuple_try_from_map maps.1;
  Ok (mkTuple t maps.2).

Fixpoint collect_typed (epoch : StacksEpochId) (expected : TupleTypeSignature)
    (behavior : TupleFieldsBehavior) (data_map : DataMap) (data : DataMap) : TypeR DataMap :=
  match data with
  | [] => Ok data_map
  | (name, value) :: data =>
      expected_type ← ok_or (field_type expected name) (TE_NoSuchTupleField name expected);
      b ← admits epoch expected_type value;
      if negb b then Err (TE_TypeMismatchValue expected_type value)
      else match assoc name data_map with
      | None => collect_typed epoch expected behavior (map_insert name value data_map) data
      | Some _ =>
          if negb (allow_duplicate_fields behavior) then Err (TE_DuplicateTupleField name)
          else collect_typed epoch expected behavior (map_insert name value data_map) data
      end
  end.

Fixpoint types_of_fields (actual_types : TypeMap) (data_map : DataMap) : TypeR TypeMap :=
  match data_map with
  | [] => Ok actual_types
  | (name, value) :: data_map =>
      t ← type_of value;
      types_of_fields (map_insert name t actual_types) data_map
  end.

Definition tuple_from_data_typed (epoch : StacksEpochId) (data : DataMap)
    (expected : TupleTypeSignature) (behavior : TupleFieldsBehavior) : TypeR TupleData :=
  data_map ← collect_typed epoch expected behavior [] data;
  if negb (allow_missing_fields behavior) && negb (zlen data_map =? tuple_type_len expected) then
    actual_types ← types_of_fields [] data_map;
    actual ← tuple_try_from_map actual_types;
    Err (TE_TypeMismatch (TupleType expected) (TupleType actual))
  else Ok (mkTuple expected data_map).

(** [TupleData::get_owned] *)
Definition tuple_get_owned (t : TupleData) (name : string) : TypeR Value :=
  let 'mkTuple ty data_map := t in
  match map_remove name data_map with
  | Some (v, _) => Ok v
  | None => Err (TE_NoSuchTupleField name ty)
  end.

Definition tuple_shallow_merge (base updates : TupleData) : TypeR TupleData :=
  let 'mkTuple base_type base_map := base in
  let 'mkTuple updates_type updates_map := updates in
  t ← tuple_type_shallow_merge base_type updates_type;
  Ok (mkTuple t (map_append base_map updates_map)).

(** ** Sanitization *)

Definition sanitize_leaf_value (epoch : StacksEpochId) (expected : TypeSignature) (value : Value) :
  Value + Value :=
  match admits epoch expected value with
  | Ok true => inl value
  | _ => inr value
  end.

Section SanitizeLoops.
Context (sanitize : TypeSignature -> Value -> option (Value * bool)).

(** The loops over the items of a list and over the fields of a tuple type *)
Fixpoint sanitize_items (item_type : TypeSignature) (sanitized_items : list Value)
    (did_sanitize_children : bool) (l : list Value) : option (list Value * bool) :=
  match l with
  | [] => Some (sanitized_items, did_sanitize_children)
  | item :: l =>
      r ← sanitize item_type item;
      sanitize_items item_type (sanitized_items ++ [r.1]) (did_sanitize_children || r.2) l
  end.

Fixpoint sanitize_fields (sanitized_tuple_entries : DataMap) (did_sanitize_children : bool)
    (tuple_data_map : DataMap) (type_map : TypeMap) : option (DataMap * bool) :=
  match type_map with
  | [] => Some (sanitized_tuple_entries, did_sanitize_children)
  | (key, expect_key_type) :: type_map =>
      f ← map_remove key tuple_data_map;
      r ← sanitize expect_key_type f.1;
      sanitize_fields (sanitized_tuple_entries ++ [(key, r.1)]) (did_sanitize_children || r.2)
        f.2 type_map
  end.
End SanitizeLoops.

(** The final check of a sanitized composite value *)
Definition admitted_output (epoch : StacksEpochId) (expected : TypeSignature) (output : Value)
    (did_sanitize : bool) : option (Value * bool) :=
  b ← ok (admits epoch expected output);
  if (b : bool) then Some (output, did_sanitize) else None.

(** Recursion is on the expected type, whose components the calls descend to. *)
Fixpoint sanitize_value (epoch : StacksEpochId) (expected : TypeSignature) (value : Value) :
  option (Value * bool) :=
  if negb (value_sanitizing epoch) then Some (value, false)
  else match value with
  | Sequence (List_ data _) =>
      match expected with
      | SequenceType (ListType (mkListTypeData max_len item_type _)) =>
          len ← ok (list_len data);
          if len >? max_len then None
          else
            r ← sanitize_items (sanitize_value epoch) item_type [] false data;
            output ← ok (cons_list_unsanitized r.1);
            admitted_output epoch expected output r.2
      | _ => None
      end
  | Tuple (mkTuple _ data_map) =>
      match expected with
      | TupleType (mkTupleType type_map _) =>
          r ← sanitize_fields (sanitize_value epoch) [] false data_map type_map;
          if negb (zlen r.1 =? zlen type_map) then None
          else
            let did_sanitize_tuple := r.2 || negb (zlen type_map =? zlen data_map) in
            t ← ok (tuple_from_data r.1);
            admitted_output epoch expected (Tuple t) did_sanitize_tuple
      | _ => None
      end
  | Optional opt_data =>
      match expected with
      | OptionalType inner_type =>
          match opt_data with
          | None => Some (value_none, false)
          | Some some_data =>
              r ← sanitize_value epoch inner_type some_data;
              output ← ok (value_some r.1);
              admitted_output epoch expected output r.2
          end
      | _ => None
      end
  | Response response_ok response_data =>
      match expected with
      | ResponseType ok_type err_type =>
          r ← if (response_ok : bool) then sanitize_value epoch ok_type response_data
              else sanitize_value epoch err_type response_data;
          output ← ok (if response_ok then value_okay r.1 else value_error r.1);
          admitted_output epoch expected output r.2
      | _ => None
      end
  | _ =>
      match sanitize_leaf_value epoch expected value with
      | inl value => Some (value, false)
      | inr _ => None
      end
  end.

Definition sanitize_value_or_return (epoch : StacksEpochId) (expected : TypeSignature)
    (value : Value) : Value + Value :=
  if negb (value_sanitizing epoch) then inl value
  else match value with
  | Int _ | UInt _ | Bool _ | Principal _ | CallableContract _ _
  | Sequence (Buffer _) | Sequence (String_ _) => sanitize_leaf_value epoch expected value
  | _ =>
      match sanitize_value epoch expected value with
      | Some (sanitized, _) => inl sanitized
      | None => inr value
      end
  end.

(** [Value::cons_list] *)
Fixpoint sanitize_all (epoch : StacksEpochId) (item_type : TypeSignature) (l : list Value) :
  option (list Value) :=
  match l with
  | [] => Some []
  | item :: l =>
      r ← sanitize_value epoch item_type item;
      items ← sanitize_all epoch item_type l;
      Some (r.1 :: items)
  end.

Definition cons_list (list_data : list Value) (epoch : StacksEpochId) : TypeR Value :=
  type_sig ← construct_parent_list_type list_data;
  list_data ← ok_or (sanitize_all epoch (get_list_item_type type_sig) list_data)
                TE_ListTypeMismatch;
  Ok (Sequence (List_ list_data type_sig)).

(** ** Overlong contract names *)

Definition has_overlong_contract_name (p : PrincipalData) : bool :=
  match p with
  | Contract c => name_len (contract_name c) >? CONTRACT_MAX_NAME_LENGTH
  | Standard _ => false
  end.

Section AnyOverlong.
Context (check : Value -> TypeR bool).
Fixpoint any_overlong (l : list Value) : TypeR bool :=
  match l with
  | [] => Ok false
  | v :: l => b ← check v; if (b : bool) then Ok true else any_overlong l
  end.
Fixpoint any_field_overlong (l : DataMap) : TypeR bool :=
  match l with
  | [] => Ok false
  | (_, v) :: l => b ← check v; if (b : bool) then Ok true else any_field_overlong l
  end.
End AnyOverlong.

Fixpoint contains_overlong_contract_name_at_depth (self : Value) (depth : Z) : TypeR bool :=
  if depth >? MAX_TYPE_DEPTH then Err TE_TypeSignatureTooDeep
  else
    let child_depth := depth + 1 in
    let check v := contains_overlong_contract_name_at_depth v child_depth in
    match self with
    | Principal principal => Ok (has_overlong_contract_name principal)
    | CallableContract c _ => Ok (name_len (contract_name c) >? CONTRACT_MAX_NAME_LENGTH)
    | Optional (Some inner) | Response _ inner => check inner
    | Tuple (mkTuple _ data_map) => any_field_overlong check data_map
    | Sequence (List_ data _) => any_overlong check data
    | _ => Ok false
    end.

Definition contains_overlong_contract_name (self : Value) : TypeR bool :=
  contains_overlong_contract_name_at_depth self 1.

(** ** Sequences *)

Definition seq_len (s : SequenceData) : Z :=
  match s with
  | Buffer data | String_ (CharASCII data) => zlen data
  | List_ data _ => zlen data
  | String_ (CharUTF8 data) => zlen data
  end.

Definition is_list (s : SequenceData) : bool :=
  match s with List_ _ _ => true | _ => false end.

Definition element_size (s : SequenceData) : TypeR Z :=
  match s with
  | Buffer _ => sig_size BUFFER_MIN
  | List_ _ list_type => sig_size (get_list_item_type list_type)
  | String_ (CharASCII _) => sig_size STRING_ASCII_MIN
  | String_ (CharUTF8 _) => sig_size STRING_UTF8_MIN
  end.

Definition charged_element_size (epoch : StacksEpochId) (s : SequenceData) : TypeR Z :=
  match s with
  | List_ _ list_type => charged_size epoch (get_list_item_type list_type)
  | _ => element_size s
  end.

(** Indexing a vector, [v[i]] *)
Definition index {A} (l : list A) (i : Z) : TypeR A := expect_some (l !! Z.to_nat i).

Definition element_at (s : SequenceData) (i : Z) : TypeR (option Value) :=
  if seq_len s <=? i then Ok None
  else
    result ← match s with
             | Buffer data => b ← index data i; Ok (buff_from_byte b)
             | List_ data _ => index data i
             | String_ (CharASCII data) => b ← index data i; string_ascii_from_bytes [b]
             | String_ (CharUTF8 data) =>
                 c ← index data i; Ok (Sequence (String_ (CharUTF8 [c])))
             end;
    Ok (Some result).

(** Assignment to a vector, [v[i] = x] *)
Definition assign {A} (l : list A) (i : Z) (x : A) : TypeR (list A) :=
  _ ← index l i; Ok (<[Z.to_nat i := x]> l).

Definition replace_at (epoch : StacksEpochId) (s : SequenceData) (i : Z) (element : Value) :
  TypeR Value :=
  _ ← if is_list s then Ok tt
      else match element with
           | Sequence data =>
               if negb (seq_len data =? 1)
               then Err (TE_SequenceElementArityMismatch 1 (seq_len data)) else Ok tt
           | _ => Err TE_ExpectedSequenceValue
           end;
  if i >=? seq_len s then Err TE_ValueOutOfBounds
  else
    new_seq_data ←
      match s, element with
      | Buffer data, Sequence (Buffer elem) =>
          b ← index elem 0; data ← assign data i b; Ok (Buffer data)
      | List_ data list_type, elem =>
          b ← admits epoch (get_list_item_type list_type) elem;
          if negb b then Err TE_ListTypeMismatch
          else data ← assign data i elem; Ok (List_ data list_type)
      | String_ (CharASCII data), Sequence (String_ (CharASCII elem)) =>
          b ← index elem 0; data ← assign data i b; Ok (String_ (CharASCII data))
      | String_ (CharUTF8 data), Sequence (String_ (CharUTF8 elem)) =>
          b ← index elem 0; data ← assign data i b; Ok (String_ (CharUTF8 data))
      | s, element =>
          t ← sequence_type_signature s; Err (TE_TypeMismatchValue t element)
      end;
    value_some (Sequence new_seq_data).

(** The position of the first entry that the test accepts *)
Fixpoint position {A} (test : A -> bool) (i : Z) (l : list A) : option Z :=
  match l with
  | [] => None
  | x :: l => if test x then Some i else position test (i + 1) l
  end.

(** The search for a one-element sequence in a sequence of the same kind *)
Definition find_single {A} `{EqDecision A} (data to_find_vec : list A) : option Z :=
  match to_find_vec with
  | [x] => position (fun entry => bool_decide (entry = x)) 0 data
  | _ => None
  end.

Definition contains (s : SequenceData) (to_find : Value) : TypeR (option Z) :=
  match s with
  | Buffer data =>
      match to_find with
      | Sequence (Buffer to_find_vec) => Ok (find_single data to_find_vec)
      | _ => Err (TE_TypeMismatchValue BUFFER_MIN to_find)
      end
  | List_ data _ => Ok (position (fun entry => value_eqb entry to_find) 0 data)
  | String_ (CharASCII data) =>
      match to_find with
      | Sequence (String_ (CharASCII to_find_vec)) => Ok (find_single data to_find_vec)
      | _ => Err (TE_TypeMismatchValue STRING_ASCII_MIN to_find)
      end
  | String_ (CharUTF8 data) =>
      match to_find with
      | Sequence (String_ (CharUTF8 to_find_vec)) => Ok (find_single data to_find_vec)
      | _ => Err (TE_TypeMismatchValue STRING_UTF8_MIN to_find)
      end
  end.

(** [ListData::append] *)
Fixpoint append_sanitized (epoch : StacksEpochId) (entry_type : TypeSignature)
    (data : list Value) (other : list Value) : TypeR (list Value) :=
  match other with
  | [] => Ok data
  | item :: other =>
      r ← ok_or (sanitize_value epoch entry_type item) TE_ListTypeMismatch;
      append_sanitized epoch entry_type (data ++ [r.1]) other
  end.

Definition list_append (epoch : StacksEpochId) (data : list Value) (list_type : ListTypeData)
    (other_data : list Value) (other_type : ListTypeData) : TypeR (list Value * ListTypeData) :=
  entry_type ← factor_out_no_type epoch (get_list_item_type list_type)
                 (get_list_item_type other_type);
  let max_len := get_max_len list_type + get_max_len other_type in
  data ← append_sanitized epoch entry_type data other_data;
  list_type ← new_list entry_type max_len;
  Ok (data, list_type).

(** [SequenceData::concat]; the sequence it was called on is dropped on error *)
Definition seq_concat (epoch : StacksEpochId) (s other_seq : SequenceData) : TypeR SequenceData :=
  let check_len := checks_concat_result_size epoch in
  match s, other_seq with
  | List_ data list_type, List_ other_data other_type =>
      r ← list_append epoch data list_type other_data other_type;
      Ok (List_ r.1 r.2)
  | Buffer data, Buffer other_data =>
      _ ← if check_len then BufferLength_try_from (zlen data + zlen other_data) else Ok 0;
      Ok (Buffer (data ++ other_data))
  | String_ (CharASCII data), String_ (CharASCII other_data) =>
      _ ← if check_len then BufferLength_try_from (zlen data + zlen other_data) else Ok 0;
      Ok (String_ (CharASCII (data ++ other_data)))
  | String_ (CharUTF8 data), String_ (CharUTF8 other_data) =>
      _ ← if check_len then StringUTF8Length_try_from (zlen data + zlen other_data) else Ok 0;
      Ok (String_ (CharUTF8 (data ++ other_data)))
  | _, _ =>
      t ← sequence_type_signature s;
      t' ← sequence_type_signature other_seq;
      Err (TE_TypeMismatch t t')
  end.

(** [data[left..right].to_vec()], or the empty vector for an empty range *)
Definition slice_data {A} (data : list A) (left right : Z) : TypeR (list A) :=
  if left =? right then Ok []
  else if (left <=? right) && (right <=? zlen data)
  then Ok (take (Z.to_nat (right - left)) (drop (Z.to_nat left) data))
  else Panic.

Definition slice (epoch : StacksEpochId) (s : SequenceData) (left_position right_position : Z) :
  TypeR Value :=
  match s with
  | Buffer data => data ← slice_data data left_position right_position; buff_from data
  | List_ data _ => data ← slice_data data left_position right_position; cons_list data epoch
  | String_ (CharASCII data) =>
      data ← slice_data data left_position right_position; string_ascii_from_bytes data
  | String_ (CharUTF8 data) =>
      data ← slice_data data left_position right_position;
      Ok (Sequence (String_ (CharUTF8 data)))
  end.

(** *** Filtering in place *)

Inductive RetainValuesError (E : Type) :=
| RetainInternal (e : ClarityTypeError)
| RetainPredicate (e : E).
Arguments RetainInternal {E} e.
Arguments RetainPredicate {E} e.

(** [slice::swap] *)
Definition swap {A} (i j : nat) (l : list A) : list A :=
  match l !! i, l !! j with
  | Some x, Some y => <[i := y]> (<[j := x]> l)
  | _, _ => l
  end.

Section TryRetain.
Context {S E A : Type} (to_value : A -> TypeR Value) (predicate : Value -> M S E bool).
Abbreviation RetainM := (M S (RetainValuesError E)).

(** [n] elements remain to be read, starting at [read]. *)
Fixpoint retain_loop (n read write : nat) (data : list A) : RetainM (list A * nat) :=
  match n with
  | O => mret (data, write)
  | Datatypes.S n' =>
      x ← lift (expect_some (data !! read));
      value ← lift (map_err RetainInternal (to_value x));
      keep ← mmap_err RetainPredicate (predicate value);
      if (keep : bool) then
        let data := if (write =? read)%nat then data else swap write read data in
        retain_loop n' (Datatypes.S read) (Datatypes.S write) data
      else retain_loop n' (Datatypes.S read) write data
  end.

Definition retain_inner (data : list A) : RetainM (list A) :=
  r ← retain_loop (length data) 0 0 data;
  mret (take r.2 r.1).
End TryRetain.

(** [SequencedValue::to_value] of the four kinds *)
Definition byte_to_value (b : Z) : TypeR Value := Ok (buff_from_byte b).
Definition item_to_value (v : Value) : TypeR Value := Ok v.
Definition ascii_to_value (b : Z) : TypeR Value := string_ascii_from_bytes [b].
Definition char_to_value (c : list Z) : TypeR Value := string_utf8_from_bytes c.

Definition try_retain {S E} (predicate : Value -> M S E bool) (s : SequenceData) :
  M S (RetainValuesError E) SequenceData :=
  match s with
  | Buffer data => data ← retain_inner byte_to_value predicate data; mret (Buffer data)
  | List_ data list_type =>
      data ← retain_inner item_to_value predicate data; mret (List_ data list_type)
  | String_ (CharASCII data) =>
      data ← retain_inner ascii_to_value predicate data; mret (String_ (CharASCII data))
  | String_ (CharUTF8 data) =>
      data ← retain_inner char_to_value predicate data; mret (String_ (CharUTF8 data))
  end.

(** [SequenceIter::next], drained: the values of a sequence in order *)
Definition seq_values (s : SequenceData) : list (TypeR Value) :=
  match s with
  | Buffer data => byte_to_value <$> data
  | List_ data _ => item_to_value <$> data
  | String_ (CharASCII data) => ascii_to_value <$> data
  | String_ (CharUTF8 data) => char_to_value <$> data
  end.

(** ** Filtering in place is filtering *)

Section RetainIsFilter.
Context {S E A : Type} (to_value : A -> TypeR Value) (predicate : Value -> M S E bool).
Abbreviation RetainM := (M S (RetainValuesError E)).

(** The reference: ask the predicate about every element in order and collect
    the elements it keeps. *)
Fixpoint mfilter (l : list A) : RetainM (list A) :=
  match l with
  | [] => mret []
  | x :: l =>
      value ← lift (map_err RetainInternal (to_value x));
      keep ← mmap_err RetainPredicate (predicate value);
      rest ← mfilter l;
      mret (if (keep : bool) then x :: rest else rest)
  end.

Lemma swap_spec (write read : nat) (data : list A) x :
  (write <= read)%nat -> data !! read = Some x ->
  let data' := if (write =? read)%nat then data else swap write read data in
  take (Datatypes.S write) data' = take write data ++ [x] /\
  drop (Datatypes.S read) data' = drop (Datatypes.S read) data /\ length data' = length data.
Proof.
  intros Hle Hx. pose proof (lookup_lt_Some _ _ _ Hx).
  destruct (Nat.eqb_spec write read) as [-> | Hne]; cbn zeta.
  { by erewrite take_S_r. }
  unfold swap. destruct (lookup_lt_is_Some_2 data write ltac:(lia)) as [y Hy]. rewrite Hy, Hx.
  split_and!.
  - erewrite take_S_r; [| apply list_lookup_insert_eq; rewrite length_insert; lia].
    rewrite take_insert_ge by lia. by rewrite take_insert_ge by lia.
  - by rewrite !drop_insert_lt by lia.
  - by rewrite !length_insert.
Qed.

Lemma retain_loop_filter n read write data s :
  (write <= read)%nat -> (read + n = length data)%nat ->
  (r ← retain_loop to_value predicate n read write data; mret (take r.2 r.1)) s =
  (kept ← mfilter (drop read data); mret (take write data ++ kept)) s.
Proof.
  revert read write data s. induction n as [| n IH]; intros read write data s Hle Hn.
  { rewrite drop_ge by lia. unfold mbind, M_bind, mret, M_ret. cbn. by rewrite app_nil_r. }
  destruct (lookup_lt_is_Some_2 data read ltac:(lia)) as [x Hx].
  rewrite (drop_S _ _ _ Hx). cbn [retain_loop mfilter]. rewrite !M_bind_assoc.
  rewrite (M_bind_eval _ _ s x s) by (by rewrite Hx). rewrite M_bind_assoc. apply M_bind_ext. intros value s1. rewrite !M_bind_assoc.
  apply M_bind_ext. intros keep s2. rewrite M_bind_assoc.
  destruct (swap_spec write read data x Hle Hx) as (Ht & Hd & Hl).
  destruct keep.
  - rewrite IH, Ht, Hd by lia. apply M_bind_ext. intros kept s3. cbn.
    by rewrite <- (assoc_L (++)).
  - rewrite IH by lia. by apply M_bind_ext.
Qed.

Lemma retain_inner_filter data s :
  retain_inner to_value predicate data s = mfilter data s.
Proof.
  unfold retain_inner. rewrite retain_loop_filter, drop_0, take_0 by lia. cbn [app].
  unfold mbind, M_bind, mret, M_ret. by destruct (mfilter data s) as [[a | e |] s1].
Qed.
End RetainIsFilter.

(** ** Values that agree with their types

    A value that holds no callable, whose annotations are valid types that
    admit what the value holds, and whose wrappers and sequences are within
    the limits of the constructors. *)

Definition admitted (t : TypeSignature) (v : Value) : bool :=
  match admits Epoch21 t v with Ok true => true | _ => false end.

Definition valid_data (t : TypeSignature) : bool := valid_type t && data_type t.

Fixpoint typed (v : Value) : bool :=
  match v with
  | Sequence (Buffer data) => zlen data <=? MAX_VALUE_SIZE
  | Sequence (String_ (CharASCII data)) =>
      (zlen data <=? MAX_VALUE_SIZE) && forallb is_clarity_ascii data
  | Sequence (String_ (CharUTF8 data)) =>
      (zlen data <=? MAX_UTF8_VALUE_SIZE)
      && forallb (fun c => bool_decide (utf8_chars c = Some [c])) data
  | Sequence (List_ data lt) =>
      valid_data (SequenceType (ListType lt)) && (zlen data <=? get_max_len lt)
      && forallb (fun x => typed x && admitted (get_list_item_type lt) x) data
  | Tuple (mkTuple ty m) =>
      valid_data (TupleType ty) && bool_decide (m.*1 = (get_type_map ty).*1)
      && forallb (fun e => typed e.2 &&
           match field_type ty e.1 with Some t => admitted t e.2 | None => false end) m
  | Optional (Some x) => typed x && is_ok (value_some x)
  | Response _ x => typed x && is_ok (value_okay x)
  | CallableContract _ _ => false
  | _ => true
  end.

(** ** The constructors do not panic *)

Lemma panic_free_type_of v : panic_free (type_of v).
Proof.
  induction v using value_induction; cbn [type_of];
    unfold sequence_type_signature, BufferLength_try_from, StringUTF8Length_try_from;
    panic_free.
Qed.
#[export] Hint Resolve panic_free_type_of : panic_free.

Lemma panic_free_check_wrapped v : panic_free (check_wrapped v).
Proof. unfold check_wrapped, value_size, value_depth, sig_size. panic_free. Qed.

Lemma panic_free_admits t v : panic_free (admits Epoch21 t v).
Proof.
  unfold admits. apply panic_free_bind; [panic_free | intros s _].
  change (admits_type Epoch21 t s) with (admits_type_v2_1 t s). panic_free.
Qed.
#[export] Hint Resolve panic_free_check_wrapped panic_free_admits : panic_free.

Lemma panic_free_list_with_type l lt : panic_free (list_with_type Epoch21 l lt).
Proof.
  assert (panic_free (all_admitted Epoch21 (get_list_item_type lt) l)) by (induction l; cbn; panic_free).
  unfold list_with_type. panic_free.
Qed.

Lemma panic_free_cons_list_unsanitized l : panic_free (cons_list_unsanitized l).
Proof.
  unfold cons_list_unsanitized, construct_parent_list_type.
  apply panic_free_bind; [| panic_free].
  apply panic_free_parent_list_type_from_iter; [intros; unfold least_supertype_v2_1; panic_free |].
  apply Forall_fmap, Forall_true. intros v. apply panic_free_type_of.
Qed.

Lemma panic_free_tuple_from_data m : panic_free (tuple_from_data m).
Proof.
  assert (forall ts ds, panic_free (collect_data ts ds m))
    by (induction m as [| [k x] m IH]; intros; cbn; panic_free).
  unfold tuple_from_data. panic_free.
Qed.

Lemma panic_free_tuple_from_data_typed m ty b : panic_free (tuple_from_data_typed Epoch21 m ty b).
Proof.
  assert (forall ds, panic_free (collect_typed Epoch21 ty b ds m))
    by (induction m as [| [k x] m IH]; intros; cbn; panic_free).
  assert (forall ds ts, panic_free (types_of_fields ts ds))
    by (induction ds as [| [k x] ds IH]; intros; cbn; panic_free).
  unfold tuple_from_data_typed. panic_free.
Qed.
#[export] Hint Resolve panic_free_list_with_type panic_free_cons_list_unsanitized
  panic_free_tuple_from_data panic_free_tuple_from_data_typed : panic_free.

Lemma admitted_spec t v :
  admitted t v = true <-> exists s, type_of v = Ok s /\ adm t s.
Proof.
  unfold admitted, admits, adm.
  destruct (type_of v) as [s | |]; cbn; [| split; [done | by intros (? & ? & _)] ..].
  change (admits_type Epoch21 t s) with (admits_type_v2_1 t s).
  destruct (admits_type_v2_1 t s) as [[] | |] eqn:E; (split; [intros; by exists s |]); try done;
    intros (? & [= <-] & ?); congruence.
Qed.

Lemma typed_list data lt :
  typed (Sequence (List_ data lt)) = true <->
  valid_type (SequenceType (ListType lt)) = true /\
  data_type (SequenceType (ListType lt)) = true /\
  zlen data <= get_max_len lt /\
  Forall (fun x => typed x = true /\ admitted (get_list_item_type lt) x = true) data.
Proof.
  cbn [typed]. unfold valid_data. rewrite !andb_true_iff, Z.leb_le, forallb_True_iff_Forall.
  setoid_rewrite andb_true_iff. tauto.
Qed.

Lemma typed_tuple ty m :
  typed (Tuple (mkTuple ty m)) = true <->
  valid_type (TupleType ty) = true /\ data_type (TupleType ty) = true /\
  m.*1 = (get_type_map ty).*1 /\
  Forall (fun e => typed e.2 = true /\
    exists t, field_type ty e.1 = Some t /\ admitted t e.2 = true) m.
Proof.
  cbn [typed]. unfold valid_data. rewrite !andb_true_iff, bool_decide_eq_true, forallb_True_iff_Forall.
  assert (forall e : ClarityName * Value,
    (typed e.2 && match field_type ty e.1 with Some t => admitted t e.2 | None => false end = true) <->
    (typed e.2 = true /\ exists t, field_type ty e.1 = Some t /\ admitted t e.2 = true)) as Hiff.
  { intros e. rewrite andb_true_iff. destruct (field_type ty e.1); naive_solver. }
  setoid_rewrite Hiff. tauto.
Qed.

(** What the wrappers check of a value whose type is known *)
Lemma check_wrapped_Ok v t :
  type_of v = Ok t -> valid_type t = true ->
  is_ok (check_wrapped v) = true <-> new_option t = Ok (OptionalType t).
Proof.
  intros Ht Hv. unfold check_wrapped, value_size, value_depth. rewrite Ht. cbn.
  destruct (valid_inner_size t Hv) as (s & Hs & _). unfold sig_size. rewrite Hs. cbn.
  rewrite new_option_Ok. unfold WRAPPER_VALUE_SIZE.
  destruct (Z.gtb_spec (s + 1) MAX_VALUE_SIZE); cbn; [naive_solver lia |].
  destruct (Z.gtb_spec (depth t + 1) MAX_TYPE_DEPTH); cbn; naive_solver lia.
Qed.

Lemma value_some_Ok x v : value_some x = Ok v <-> v = Optional (Some x) /\ is_ok (check_wrapped x) = true.
Proof. unfold value_some. destruct (check_wrapped x); naive_solver. Qed.
Lemma value_okay_Ok x v : value_okay x = Ok v <-> v = Response true x /\ is_ok (check_wrapped x) = true.
Proof. unfold value_okay. destruct (check_wrapped x); naive_solver. Qed.
Lemma value_error_Ok x v : value_error x = Ok v <-> v = Response false x /\ is_ok (check_wrapped x) = true.
Proof. unfold value_error. destruct (check_wrapped x); naive_solver. Qed.

Lemma typed_some x :
  typed (Optional (Some x)) = true <-> typed x = true /\ is_ok (check_wrapped x) = true.
Proof.
  cbn [typed]. rewrite andb_true_iff. unfold value_some. by destruct (check_wrapped x).
Qed.
Lemma typed_response c x :
  typed (Response c x) = true <-> typed x = true /\ is_ok (check_wrapped x) = true.
Proof.
  cbn [typed]. rewrite andb_true_iff. unfold value_okay. by destruct (check_wrapped x).
Qed.

Lemma new_response_of_option t :
  new_option t = Ok (OptionalType t) ->
  new_response t NoType = Ok (ResponseType t NoType) /\
  new_response NoType t = Ok (ResponseType NoType t).
Proof.
  intros (_ & Hd & s & Hs & Hlt)%new_option_Ok.
  split; apply new_response_Ok; split_and!; try done.
  - exists s, 1. split_and!; [done | done | done | ints].
  - exists 1, s. split_and!; [done | done | ints | done].
Qed.

(** A typed value has a type, and that type is valid. *)
Lemma typed_type_of v :
  typed v = true -> exists t, type_of v = Ok t /\ valid_type t = true /\ data_type t = true.
Proof.
  induction v as [| | | data | data lt _ | [data | data] | | ty m _ | | v IH | c v IH |] using value_induction;
    intros Hv; try discriminate Hv; try (by eexists).
  - cbn in Hv. apply Z.leb_le in Hv. cbn. unfold BufferLength_try_from.
    destruct (Z.gtb_spec (zlen data) MAX_VALUE_SIZE); [lia |].
    destruct (Z.ltb_spec (zlen data) 0); [unfold zlen in *; lia |]. cbn.
    eexists. split; [done |]. split; [apply in_range_spec; lia | done].
  - apply typed_list in Hv as (Hv & Hd & _). by eexists.
  - cbn in Hv. apply andb_true_iff in Hv as [Hv%Z.leb_le _]. cbn. unfold StringUTF8Length_try_from.
    destruct (Z.gtb_spec (zlen data) MAX_UTF8_VALUE_SIZE); [lia |].
    destruct (Z.ltb_spec (zlen data) 0); [unfold zlen in *; lia |]. cbn.
    eexists. split; [done |]. split; [apply in_range_spec; lia | done].
  - cbn in Hv. apply andb_true_iff in Hv as [Hv%Z.leb_le _]. cbn. unfold BufferLength_try_from.
    destruct (Z.gtb_spec (zlen data) MAX_VALUE_SIZE); [lia |].
    destruct (Z.ltb_spec (zlen data) 0); [unfold zlen in *; lia |]. cbn.
    eexists. split; [done |]. split; [apply in_range_spec; lia | done].
  - apply typed_tuple in Hv as (Hv & Hd & _). by eexists.
  - apply typed_some in Hv as [Hv Hw]. destruct (IH Hv) as (t & Ht & Hvt & Hd).
    apply (check_wrapped_Ok v t) in Hw; [| done..]. cbn. rewrite Ht. cbn. rewrite Hw. cbn.
    eexists. split; [done |]. split; [by apply valid_option | by apply data_option; right].
  - apply typed_response in Hv as [Hv Hw]. destruct (IH Hv) as (t & Ht & Hvt & Hd).
    apply (check_wrapped_Ok v t) in Hw; [| done..]. apply new_response_of_option in Hw as [H1 H2].
    cbn [type_of]. rewrite Ht. cbn [mbind result_bind]. destruct c; rewrite ?H1, ?H2; eexists; (split; [done |]);
      (split; [by apply valid_response | apply data_response]).
    + split_and!; [by right | by left | by intros [-> _]].
    + split_and!; [by left | by right | by intros [_ ->]].
Qed.

(** ** The loops of sanitization as traversals *)

Lemma sanitize_items_mapM sanitize e acc b l :
  sanitize_items sanitize e acc b l =
  (rs ← mapM (sanitize e) l; Some (acc ++ rs.*1, b || existsb snd rs)).
Proof.
  revert acc b. induction l as [| x l IH]; intros acc b; cbn.
  { by rewrite app_nil_r, orb_false_r. }
  destruct (sanitize e x) as [[v fl] |]; cbn; [| done]. rewrite IH.
  destruct (mapM (sanitize e) l) as [rs |]; cbn; [| done].
  by rewrite <- (assoc_L (++)), orb_assoc.
Qed.

Lemma map_remove_Some {A} name (m : list (string * A)) :
  match map_remove name m with
  | Some (a, m') => assoc name m = Some a /\
      (forall n, n <> name -> assoc n m' = assoc n m)
  | None => assoc name m = None
  end.
Proof.
  induction m as [| [n a] m IH]; cbn; [done |]. destruct (String.eqb_spec name n) as [-> | Hne].
  { split; [done |]. intros n' Hn'. by destruct (String.eqb_spec n' n). }
  destruct (map_remove name m) as [[b m'] |]; [| done]. destruct IH as [? IH].
  split; [done |]. intros n' Hn'. cbn. destruct (String.eqb n' n); [done | by apply IH].
Qed.

(** The sanitized value of one field of the tuple type *)
Definition sanitize_field (sanitize : TypeSignature -> Value -> option (Value * bool))
    (m : DataMap) (f : ClarityName * TypeSignature) : option (Value * bool) :=
  v ← assoc f.1 m; sanitize f.2 v.

Lemma mapM_ext' {A B} (f g : A -> option B) (l : list A) :
  Forall (fun x => f x = g x) l -> mapM f l = mapM g l.
Proof. induction 1 as [| x l Hx _ IH]; cbn; [done |]. by rewrite Hx, IH. Qed.

Lemma sanitize_fields_mapM sanitize acc b m tm :
  NoDup tm.*1 ->
  sanitize_fields sanitize acc b m tm =
  (rs ← mapM (sanitize_field sanitize m) tm;
   Some (acc ++ zip tm.*1 rs.*1, b || existsb snd rs)).
Proof.
  revert acc b m. induction tm as [| [name t] tm IH]; intros acc b m Hnd; cbn.
  { by rewrite app_nil_r, orb_false_r. }
  rewrite fmap_cons in Hnd. apply NoDup_cons in Hnd as [Hni Hnd].
  change (sanitize_field sanitize m (name, t)) with (v ← assoc name m; sanitize t v).
  pose proof (map_remove_Some name m) as Hr. destruct (map_remove name m) as [[v m'] |]; cbn.
  2:{ by rewrite Hr. }
  destruct Hr as [-> Hr]. cbn. destruct (sanitize t v) as [[x fl] |]; cbn; [| done].
  rewrite IH by done. rewrite (mapM_ext' _ (sanitize_field sanitize m)).
  2:{ apply Forall_forall. intros [n' t'] Hin. unfold sanitize_field. cbn. rewrite Hr; [done |].
      intros ->. apply Hni, list_elem_of_fmap. by exists (name, t'). }
  destruct (mapM (sanitize_field sanitize m) tm) as [rs |]; cbn; [| done].
  by rewrite <- (assoc_L (++)), orb_assoc.
Qed.

Lemma Forall2_with_l {A B} (P : A -> Prop) (R Q : A -> B -> Prop) l k :
  Forall P l -> Forall2 R l k -> (forall x y, P x -> R x y -> Q x y) -> Forall2 Q l k.
Proof.
  intros HP HR HQ. induction HR as [| x y l k Hxy _ IH]; [constructor |].
  apply Forall_cons in HP as [? ?]. constructor; auto.
Qed.

(** ** Tuples built from values *)

(** A type map that gives each value of a data map its type *)
Definition types_fields (tm : TypeMap) (dm : DataMap) : Prop :=
  Forall2 (fun ft fv => ft.1 = fv.1 /\ type_of fv.2 = Ok ft.2) tm dm.

Lemma types_fields_insert name t v tm dm :
  type_of v = Ok t -> types_fields tm dm ->
  types_fields (map_insert name t tm) (map_insert name v dm).
Proof.
  intros Ht Hf. induction Hf as [| [n ft] [n' fv] tm dm [Hn Hfv] Hf IH]; cbn in *.
  { by repeat constructor. }
  subst n'. destruct (cmp name n); repeat constructor; done.
Qed.

Lemma types_fields_keys tm dm : types_fields tm dm -> tm.*1 = dm.*1.
Proof. induction 1 as [| ? ? ? ? [? _] _ IH]; cbn; [done |]. by f_equal. Qed.

Lemma types_fields_assoc tm dm name v :
  types_fields tm dm -> (name, v) ∈ dm ->
  exists t, (name, t) ∈ tm /\ type_of v = Ok t.
Proof.
  induction 1 as [| [n t] [n' v'] tm dm [Hn Hv] _ IH]; [by intros ?%elem_of_nil |].
  cbn in *. subst n'. rewrite elem_of_cons. intros [[= -> ->] | Hin].
  - exists t. split; [by left | done].
  - destruct (IH Hin) as (t' & ? & ?). exists t'. split; [by right | done].
Qed.

Lemma collect_data_spec tm dm data tm' dm' :
  types_fields tm dm -> ordered tm.*1 = true ->
  collect_data tm dm data = Ok (tm', dm') ->
  types_fields tm' dm' /\ ordered tm'.*1 = true /\
  (forall P : ClarityName * Value -> Prop, Forall P dm -> Forall P data -> Forall P dm').
Proof.
  revert tm dm. induction data as [| [name v] data IH]; intros tm dm Hf Ho; cbn [collect_data].
  { intros [= <- <-]. done. }
  intros (t & Ht & Hc)%result_bind_Ok. destruct (assoc name tm); [done |].
  apply IH in Hc as (? & ? & HP); [| by apply types_fields_insert | by apply map_insert_ordered].
  split_and!; [done | done |]. intros P Hdm Hdata. apply Forall_cons in Hdata as [? ?].
  apply HP; [by apply map_insert_Forall | done].
Qed.

(** A tuple of typed values is typed. *)
Lemma tuple_from_data_typed_value data t :
  Forall (fun e => typed e.2 = true) data -> tuple_from_data data = Ok t ->
  typed (Tuple t) = true.
Proof.
  intros Hd ([tm dm] & Hc & (ty & Ht & [= <-])%result_bind_Ok)%result_bind_Ok. cbn in Ht.
  apply collect_data_spec in Hc as (Hf & Ho & HP); [| constructor | done].
  specialize (HP _ (List.Forall_nil _) Hd). cbn [snd]. pose proof HP as HPf. rewrite Forall_forall in HPf.
  pose proof Ht as (_ & _ & size & _ & ->)%tuple_try_from_map_Ok.
  assert (Forall (fun f => valid_type f.2 = true /\ data_type f.2 = true) tm) as Htm.
  { clear -Hf HP. induction Hf as [| [n t] [n' v] tm dm [Hn Hv] _ IH]; [constructor |].
    apply Forall_cons in HP as [Hvt HP]. cbn in *. constructor; [| by apply IH].
    destruct (typed_type_of v Hvt) as (t' & ? & ? & ?). by assert (t' = t) as -> by congruence. }
  assert (valid_type (TupleType (mkTupleType tm size)) = true) as Hv.
  { apply (tuple_try_from_map_valid tm); [| done | done]. eapply Forall_impl; [exact Htm |]. by intros ? [? ?]. }
  apply typed_tuple. split_and!; [done | | symmetry; exact (types_fields_keys _ _ Hf) |].
  { apply data_tuple. eapply Forall_impl; [exact Htm |]. by intros ? [? ?]. }
  apply Forall_forall. intros [name v] Hin. split; [by apply (HPf _ Hin) |].
  destruct (types_fields_assoc _ _ _ _ Hf Hin) as (t & Hint & Htv). exists t. cbn.
  split; [by apply elem_of_assoc |]. apply admitted_spec. exists t. split; [done |].
  rewrite Forall_forall in Htm. destruct (Htm _ Hint) as [? ?]. by apply adm_refl.
Qed.

(** ** Lists built from values *)

Lemma types_of_list (l : list Value) :
  Forall (fun v => typed v = true) l ->
  exists ts, type_of <$> l = Ok <$> ts /\
    Forall2 (fun v t => type_of v = Ok t /\ valid_type t = true /\ data_type t = true) l ts.
Proof.
  induction 1 as [| v l Hv _ (ts & Ht & IH)]; [by exists [] |].
  destruct (typed_type_of v Hv) as (t & Htv & ? & ?). exists (t :: ts). rewrite !fmap_cons, Htv, Ht.
  split; [done |]. by constructor.
Qed.

(** Items below a common bound make a typed list. *)
Lemma cons_list_unsanitized_typed d l v :
  valid_type d = true -> Forall (fun x => typed x = true /\ admitted d x = true) l ->
  cons_list_unsanitized l = Ok v -> typed v = true.
Proof.
  intros Hd Hl (lt & Hlt & [= <-])%result_bind_Ok.
  destruct (types_of_list l) as (ts & Hts & Hf); [by eapply Forall_impl; [exact Hl |]; intros ? [? ?] |].
  unfold construct_parent_list_type, zlen in Hlt. rewrite Hts in Hlt.
  assert (length l = length ts) as Hlen by (by apply Forall2_length in Hf). rewrite Hlen in Hlt.
  apply (parent_list_type_bounds _ (data_below d)) in Hlt as (? & ? & Hn & Ha).
  - apply typed_list. unfold zlen. split_and!; [done | done | lia |].
    apply Forall_forall. intros x Hin. rewrite Forall_forall in Hl. destruct (Hl x Hin) as [Hx _].
    split; [done |]. apply list_elem_of_lookup in Hin as (i & Hi).
    destruct (Forall2_lookup_l _ _ _ _ _ Hf Hi) as (t & Ht & Htx & _).
    apply admitted_spec. exists t. split; [done |].
    rewrite Forall_lookup in Ha. by apply (Ha i).
  - intros t (? & ? & _). done.
  - intros a b c. by apply runtime_joins_bound.
  - apply Forall_lookup. intros i t Ht. destruct (Forall2_lookup_r _ _ _ _ _ Hf Ht) as (x & Hx & Htx & ? & ?).
    split_and!; [done | done |]. rewrite Forall_lookup in Hl. destruct (Hl i x Hx) as [_ Hax].
    apply admitted_spec in Hax as (t' & ? & ?). by assert (t' = t) as -> by congruence.
Qed.

(** ** Sanitization *)

Lemma sanitizing_modern epoch : value_sanitizing epoch = true -> epoch_ltb epoch Epoch21 = false.
Proof. by destruct epoch. Qed.

Lemma admits_admitted epoch t v :
  epoch_ltb epoch Epoch21 = false -> admits epoch t v = Ok true <-> admitted t v = true.
Proof.
  intros He. rewrite admitted_spec. unfold admits, adm.
  destruct (type_of v) as [s | |]; cbn; [| split; [done | by intros (? & ? & _)] ..].
  unfold admits_type. rewrite He. split; [intros; by exists s | by intros (? & [= <-] & ?)].
Qed.

Lemma admitted_output_Some epoch t v fl v' fl' :
  epoch_ltb epoch Epoch21 = false ->
  admitted_output epoch t v fl = Some (v', fl') <-> v' = v /\ fl' = fl /\ admitted t v = true.
Proof.
  intros He. unfold admitted_output. rewrite <- (admits_admitted epoch) by done.
  destruct (admits epoch t v) as [[] | |]; cbn; naive_solver.
Qed.

Lemma ok_Some {E A} (r : result E A) a : ok r = Some a <-> r = Ok a.
Proof. destruct r; naive_solver. Qed.

(** What sanitization promises of its output *)
Definition sanitized (epoch : StacksEpochId) (t : TypeSignature) (v v' : Value) (fl : bool) : Prop :=
  typed v' = true /\ admitted t v' = true /\ fl = negb (value_eqb v v') /\
  sanitize_value epoch t v' = Some (v', false).

Definition sanitizes (epoch : StacksEpochId) (t : TypeSignature) : Prop :=
  forall v v' fl, typed v = true -> sanitize_value epoch t v = Some (v', fl) ->
    sanitized epoch t v v' fl.

Lemma mapM_self {A} (f : A -> option (A * bool)) (l : list A) :
  Forall (fun x => f x = Some (x, false)) l -> mapM f l = Some ((fun x => (x, false)) <$> l).
Proof. induction 1 as [| x l Hx _ IH]; cbn; [done |]. by rewrite Hx; cbn; rewrite IH. Qed.

Lemma existsb_false_pairs {A} (l : list A) : existsb snd ((fun x => (x, false)) <$> l) = false.
Proof. by induction l. Qed.

Lemma fst_false_pairs {A} (l : list A) : ((fun x => (x, false)) <$> l).*1 = l.
Proof. rewrite <- list_fmap_compose. apply list_fmap_id. Qed.

Lemma existsb_cleared {A} (rs : list (A * bool)) :
  existsb snd ((fun r => (r.1, false)) <$> rs) = false.
Proof. by induction rs. Qed.

(** Flags and equality of the items of a list *)
Lemma flags_items (l : list Value) (rs : list (Value * bool)) t t' :
  Forall2 (fun x r => r.2 = negb (value_eqb x r.1)) l rs ->
  existsb snd rs = negb (value_eqb (Sequence (List_ l t)) (Sequence (List_ rs.*1 t'))).
Proof.
  cbn. induction 1 as [| x [y fl] l rs Hx _ IH]; cbn in *; [done |].
  rewrite IH, Hx. by destruct (value_eqb x y).
Qed.

Definition is_leaf (v : Value) : bool :=
  match v with
  | Sequence (List_ _ _) | Tuple _ | Optional _ | Response _ _ => false
  | _ => true
  end.

Lemma sanitize_leaf epoch t v :
  value_sanitizing epoch = true -> is_leaf v = true ->
  sanitize_value epoch t v = if admitted t v then Some (v, false) else None.
Proof.
  intros Hs Hl. pose proof (sanitizing_modern _ Hs) as Hm.
  assert (sanitize_value epoch t v =
    match sanitize_leaf_value epoch t v with inl v => Some (v, false) | inr _ => None end) as ->.
  { by destruct t, v as [| | | [| |] | | | | |]; try discriminate Hl; cbn [sanitize_value]; rewrite Hs. }
  unfold sanitize_leaf_value. pose proof (admits_admitted epoch t v Hm) as Ha.
  destruct (admits epoch t v) as [[] | |]; destruct (admitted t v); naive_solver.
Qed.

(** Fields given in order end up in the map as they are. *)
Lemma collect_data_ordered tm dm data tm' dm' :
  Forall (fun k => Forall (fun k' => cmp k k' = Lt) data.*1) dm.*1 -> ordered data.*1 = true ->
  collect_data tm dm data = Ok (tm', dm') -> dm' = dm ++ data.
Proof.
  revert tm dm. induction data as [| [name v] data IH]; intros tm dm Hb Ho; cbn [collect_data].
  { intros [= <- <-]. by rewrite app_nil_r. }
  rewrite fmap_cons, ordered_cons in Ho. destruct Ho as [Hl Ho].
  intros (t & Ht & Hc)%result_bind_Ok. destruct (assoc name tm); [done |].
  rewrite (map_insert_snoc name v dm) in Hc.
  2:{ eapply Forall_impl; [exact Hb |]. intros k Hk. rewrite fmap_cons, Forall_cons in Hk. tauto. }
  apply IH in Hc as ->; [by rewrite <- (assoc_L (++)) | | done].
  rewrite fmap_app. apply Forall_app. split; [| by repeat constructor].
  eapply Forall_impl; [exact Hb |]. intros k Hk. rewrite fmap_cons, Forall_cons in Hk. tauto.
Qed.

Lemma tuple_from_data_ordered data t :
  ordered data.*1 = true -> tuple_from_data data = Ok t -> exists ty, t = mkTuple ty data.
Proof.
  intros Ho ([tm dm] & Hc & (ty & _ & [= <-])%result_bind_Ok)%result_bind_Ok.
  apply collect_data_ordered in Hc as ->; [| constructor | done]. by exists ty.
Qed.

(** Flags and equality of the fields of a tuple *)
Lemma flags_fields (dm : DataMap) (rs : list (Value * bool)) ty ty' :
  Forall2 (fun e r => r.2 = negb (value_eqb e.2 r.1)) dm rs ->
  existsb snd rs = negb (value_eqb (Tuple (mkTuple ty dm)) (Tuple (mkTuple ty' (zip dm.*1 rs.*1)))).
Proof.
  cbn. induction 1 as [| [n x] [y fl] dm rs Hx _ IH]; cbn in *; [done |].
  rewrite IH, Hx, bool_decide_true by done. by destruct (value_eqb x y).
Qed.

Lemma value_eqb_tuple_length a b ty ty' :
  length a <> length b -> value_eqb (Tuple (mkTuple ty a)) (Tuple (mkTuple ty' b)) = false.
Proof.
  intros Hl. apply not_true_iff_false. rewrite value_eqb_tuple. intros Hf%Forall2_length. done.
Qed.

Section Composites.
Context (epoch : StacksEpochId) (Hs : value_sanitizing epoch = true).

Lemma sanitize_list n e size data lt :
  sanitize_value epoch (SequenceType (ListType (mkListTypeData n e size))) (Sequence (List_ data lt)) =
  (len ← ok (list_len data);
   if len >? n then None
   else
     rs ← mapM (sanitize_value epoch e) data;
     output ← ok (cons_list_unsanitized rs.*1);
     admitted_output epoch (SequenceType (ListType (mkListTypeData n e size))) output
       (existsb snd rs)).
Proof.
  cbn [sanitize_value]. rewrite Hs. cbn [negb].
  destruct (ok (list_len data)) as [len |]; cbn [mbind option_bind]; [| done].
  destruct (len >? n); [done |]. rewrite sanitize_items_mapM.
  by destruct (mapM (sanitize_value epoch e) data).
Qed.

Lemma sanitize_tuple tm size ty dm :
  NoDup tm.*1 ->
  sanitize_value epoch (TupleType (mkTupleType tm size)) (Tuple (mkTuple ty dm)) =
  (rs ← mapM (sanitize_field (sanitize_value epoch) dm) tm;
   t ← ok (tuple_from_data (zip tm.*1 rs.*1));
   admitted_output epoch (TupleType (mkTupleType tm size)) (Tuple t)
     (existsb snd rs || negb (zlen tm =? zlen dm))).
Proof.
  intros Hnd. cbn [sanitize_value]. rewrite Hs. cbn [negb]. rewrite sanitize_fields_mapM by done.
  destruct (mapM (sanitize_field (sanitize_value epoch) dm) tm) as [rs |] eqn:E; cbn [mbind option_bind]; [| done].
  cbn [fst snd app orb]. unfold zlen at 1 2. apply mapM_Some, Forall2_length in E.
  rewrite length_zip_with_l by (rewrite !length_fmap; lia). rewrite length_fmap, Z.eqb_refl. done.
Qed.

Lemma sanitize_some t x :
  sanitize_value epoch (OptionalType t) (Optional (Some x)) =
  (r ← sanitize_value epoch t x;
   output ← ok (value_some r.1);
   admitted_output epoch (OptionalType t) output r.2).
Proof. cbn [sanitize_value]. by rewrite Hs. Qed.

Lemma sanitize_none t :
  sanitize_value epoch (OptionalType t) (Optional None) = Some (value_none, false).
Proof. cbn [sanitize_value]. by rewrite Hs. Qed.

Lemma sanitize_response t s c x :
  sanitize_value epoch (ResponseType t s) (Response c x) =
  (r ← sanitize_value epoch (if c then t else s) x;
   output ← ok (if c then value_okay r.1 else value_error r.1);
   admitted_output epoch (ResponseType t s) output r.2).
Proof. cbn [sanitize_value]. rewrite Hs. by destruct c. Qed.

Lemma sanitizes_list n e size :
  valid_type e = true -> sanitizes epoch e ->
  forall data lt v' fl, typed (Sequence (List_ data lt)) = true ->
    sanitize_value epoch (SequenceType (ListType (mkListTypeData n e size)))
      (Sequence (List_ data lt)) = Some (v', fl) ->
    sanitized epoch (SequenceType (ListType (mkListTypeData n e size))) (Sequence (List_ data lt)) v' fl.
Proof.
  intros He IH data lt v' fl (_ & _ & _ & Hd)%typed_list. pose proof (sanitizing_modern _ Hs) as Hm.
  rewrite sanitize_list. intros (len & Hlen%ok_Some & Hr)%bind_Some.
  destruct (len >? n) eqn:En; [done |]. apply bind_Some in Hr as (rs & Hrs & (o & Ho%ok_Some & Hr)%bind_Some).
  apply admitted_output_Some in Hr as (-> & -> & Ha); [| done].
  pose proof Ho as (lt' & Hlt' & [= <-])%result_bind_Ok. apply mapM_Some in Hrs.
  assert (Forall2 (fun x r => sanitized epoch e x r.1 r.2) data rs) as Hf.
  { apply (Forall2_with_l _ _ _ _ _ Hd Hrs). intros x [y b] [Hx _] Hy. by apply IH. }
  assert (Forall (fun y => sanitize_value epoch e y = Some (y, false)) rs.*1) as Hid.
  { apply Forall_fmap. apply (Forall2_Forall_r _ _ _ _ Hf). apply Forall_forall. by intros ? _ ? (_ & _ & _ & ?). }
  split_and!.
  - apply (cons_list_unsanitized_typed e rs.*1); [done | | done]. apply Forall_fmap.
    apply (Forall2_Forall_r _ _ _ _ Hf). apply Forall_forall. by intros ? _ ? (? & ? & _).
  - done.
  - apply flags_items. eapply Forall2_impl; [exact Hf |]. by intros x r (_ & _ & ? & _).
  - rewrite sanitize_list. unfold list_len in *. rewrite length_fmap, <- (Forall2_length _ _ _ Hf), Hlen.
    cbn [ok mbind option_bind]. rewrite En, mapM_self by done. cbn [mbind option_bind].
    rewrite fst_false_pairs, existsb_false_pairs, Ho. cbn [ok mbind option_bind].
    by apply admitted_output_Some.
Qed.
(** Every field of the type was found in the value and sanitized. *)
Definition fields_sanitized (tm : TypeMap) (dm : DataMap) (rs : list (Value * bool)) : Prop :=
  Forall2 (fun f r => exists v, assoc f.1 dm = Some v /\ sanitized epoch f.2 v r.1 r.2) tm rs.

Lemma fields_sanitized_keys tm dm rs :
  fields_sanitized tm dm rs -> ordered tm.*1 = true -> ordered dm.*1 = true ->
  length tm = length dm -> dm.*1 = tm.*1.
Proof.
  intros Hf Ho Hod Hl. symmetry. apply ordered_perm; [done | done |].
  apply submseteq_length_Permutation; [| rewrite !length_fmap; lia].
  apply NoDup_submseteq; [by apply ordered_NoDup |]. intros n ([n' t] & -> & Hin)%list_elem_of_fmap.
  apply list_elem_of_lookup in Hin as (i & Hi).
  destruct (Forall2_lookup_l _ _ _ _ _ Hf Hi) as (r & _ & v & Hv%assoc_elem_of & _).
  apply list_elem_of_fmap. by exists (n', v).
Qed.

Lemma fields_sanitized_flags tm dm rs ty ty' :
  fields_sanitized tm dm rs -> ordered tm.*1 = true -> ordered dm.*1 = true ->
  existsb snd rs || negb (zlen tm =? zlen dm) =
  negb (value_eqb (Tuple (mkTuple ty dm)) (Tuple (mkTuple ty' (zip tm.*1 rs.*1)))).
Proof.
  intros Hf Ho Hod. pose proof (Forall2_length _ _ _ Hf) as Hlen.
  unfold zlen. destruct (Z.eqb_spec (Z.of_nat (length tm)) (Z.of_nat (length dm))) as [Hl | Hl].
  - apply Nat2Z.inj in Hl. pose proof (fields_sanitized_keys _ _ _ Hf Ho Hod Hl) as Hk.
    rewrite orb_false_r, <- Hk. apply flags_fields. apply Forall2_same_length_lookup. split; [exact (eq_trans (eq_sym Hl) Hlen) |].
    intros i [n v] r Hi Hr. destruct (Forall2_lookup_r _ _ _ _ _ Hf Hr) as ([n' t] & Hi' & v' & Hv' & Hsan).
    assert (n = n') as <-.
    { assert (dm.*1 !! i = Some n) as H1 by (by rewrite list_lookup_fmap, Hi).
      rewrite Hk, list_lookup_fmap, Hi' in H1. by injection H1. }
    cbn in Hv'. rewrite (elem_of_assoc n v) in Hv'; [| done | by eapply list_elem_of_lookup_2].
    injection Hv' as <-. by destruct Hsan as (_ & _ & ? & _).
  - rewrite orb_true_r, value_eqb_tuple_length; [done |].
    rewrite length_zip_with_l; rewrite !length_fmap; lia.
Qed.

Lemma fields_sanitized_again tm dm rs :
  fields_sanitized tm dm rs -> ordered tm.*1 = true ->
  mapM (sanitize_field (sanitize_value epoch) (zip tm.*1 rs.*1)) tm =
  Some ((fun r => (r.1, false)) <$> rs).
Proof.
  intros Hf Ho. pose proof (Forall2_length _ _ _ Hf) as Hlen. apply mapM_Some.
  apply Forall2_fmap_r, Forall2_same_length_lookup. split; [done |].
  intros i [n t] r Hi Hr. destruct (Forall2_lookup_r _ _ _ _ _ Hf Hr) as (f & Hi' & v & Hv & Hsan).
  simplify_eq. unfold sanitize_field. cbn.
  rewrite (elem_of_assoc n r.1).
  - by destruct Hsan as (_ & _ & _ & ?).
  - by rewrite fst_zip by (rewrite !length_fmap; lia).
  - apply list_elem_of_lookup. exists i. rewrite lookup_zip_with, !list_lookup_fmap, Hi, Hr. done.
Qed.

Lemma sanitizes_tuple tm size :
  Forall (fun f => sanitizes epoch f.2) tm -> ordered tm.*1 = true ->
  forall ty dm v' fl, typed (Tuple (mkTuple ty dm)) = true ->
    sanitize_value epoch (TupleType (mkTupleType tm size)) (Tuple (mkTuple ty dm)) = Some (v', fl) ->
    sanitized epoch (TupleType (mkTupleType tm size)) (Tuple (mkTuple ty dm)) v' fl.
Proof.
  intros IH Ho ty dm v' fl (Hvt & _ & Hk & Hd)%typed_tuple. pose proof (sanitizing_modern _ Hs) as Hm.
  assert (ordered dm.*1 = true) as Hod.
  { destruct ty as [tm' size']. apply valid_tuple_parts in Hvt as [_ Hot]. exact (eq_trans (f_equal ordered Hk) Hot). }
  rewrite sanitize_tuple by (by apply ordered_NoDup).
  intros (rs & Hrs & (t & Ht%ok_Some & Hr)%bind_Some)%bind_Some.
  apply admitted_output_Some in Hr as (-> & -> & Ha); [| done]. apply mapM_Some in Hrs.
  assert (fields_sanitized tm dm rs) as Hf.
  { apply (Forall2_with_l _ _ _ _ _ IH Hrs). intros [n t'] [y b] Hsan (v & Hv & Hy)%bind_Some. cbn in *.
    exists v. split; [done |]. apply Hsan; [| done]. rewrite Forall_forall in Hd.
    by apply (Hd (n, v)), assoc_elem_of. }
  pose proof (Forall2_length _ _ _ Hf) as Hlen.
  assert ((zip tm.*1 rs.*1).*1 = tm.*1) as Hzk by (rewrite fst_zip by (rewrite !length_fmap; lia); done).
  pose proof Ht as (ty' & ->)%tuple_from_data_ordered; [| by rewrite Hzk].
  split_and!; [| done | by apply fields_sanitized_flags |].
  - eapply tuple_from_data_typed_value; [| exact Ht]. apply Forall_forall. intros [n y] Hin.
    apply list_elem_of_lookup in Hin as (i & Hi). apply lookup_zip_Some in Hi as (_ & Hi).
    apply list_lookup_fmap_Some in Hi as (r & -> & Hi).
    destruct (Forall2_lookup_r _ _ _ _ _ Hf Hi) as (? & _ & ? & _ & ? & _). done.
  - rewrite sanitize_tuple by (by apply ordered_NoDup). rewrite (fields_sanitized_again tm dm) by done.
    cbn [mbind option_bind]. rewrite <- list_fmap_compose. change (fst ∘ (fun r : Value * bool => (r.1, false))) with (@fst Value bool).
    rewrite Ht. cbn [ok mbind option_bind]. apply admitted_output_Some; [done |].
    split_and!; [done | | done]. unfold zlen. rewrite length_zip_with_l by (rewrite !length_fmap; lia).
    by rewrite length_fmap, Z.eqb_refl, orb_false_r, existsb_cleared.
Qed.
End Composites.

Lemma sanitizes_all epoch t :
  value_sanitizing epoch = true -> valid_type t = true -> sanitizes epoch t.
Proof.
  intros Hs. pose proof (sanitizing_modern _ Hs) as Hm.
  induction t as [| | | | |n|s|n e sz IH|m sz IH|t IH|t s IH IH'|c|l|r] using type_induction;
    intros Hv v v' fl Ht Hsan.
  all: destruct (is_leaf v) eqn:El;
    [rewrite sanitize_leaf in Hsan by done; destruct (admitted _ v) eqn:Ea; [injection Hsan as <- <- | done];
     split_and!; [done | done | by rewrite value_eqb_refl | by rewrite sanitize_leaf, Ea by done] |].
  all: destruct v as [| | | [| data lt |] | | [ty dm] | [x |] | c' x |]; try discriminate El.
  all: try (by cbn [sanitize_value] in Hsan; rewrite Hs in Hsan).
  - apply valid_list in Hv as (Hv & _). by apply (sanitizes_list epoch Hs n e sz); [| apply IH | |].
  - apply valid_tuple_parts in Hv as [Hv Ho].
    apply (sanitizes_tuple epoch Hs m sz); [| done | done | done].
    eapply Forall_impl; [exact (Forall_with _ _ _ Hv IH) |]. done.
  - apply valid_option in Hv as (Hv & _). apply typed_some in Ht as [Ht _].
    rewrite sanitize_some in Hsan by done. apply bind_Some in Hsan as ([y b] & Hy & (o & Ho%ok_Some & Hr)%bind_Some).
    apply admitted_output_Some in Hr as (-> & -> & Ha); [| done].
    destruct (IH Hv x y b Ht Hy) as (H1 & H2 & H3 & H4). cbn [fst] in *. pose proof Ho as (-> & Hw)%value_some_Ok.
    split_and!; [by apply typed_some | done | done |]. rewrite sanitize_some, H4 by done. cbn [mbind option_bind fst].
    rewrite Ho. cbn [ok mbind option_bind]. by apply admitted_output_Some.
  - rewrite sanitize_none in Hsan by done. injection Hsan as <- <-.
    split_and!; [done | | done | by rewrite sanitize_none]. by apply (admitted_spec (OptionalType t)); eexists.
  - apply valid_response in Hv as (Hv & Hv' & _). apply typed_response in Ht as [Ht _].
    rewrite sanitize_response in Hsan by done. apply bind_Some in Hsan as ([y b] & Hy & (o & Ho%ok_Some & Hr)%bind_Some).
    apply admitted_output_Some in Hr as (-> & -> & Ha); [| done].
    cbn [fst snd] in *. assert (sanitized epoch (if c' then t else s) x y b) as (H1 & H2 & H3 & H4).
    { destruct c'; [by apply IH | by apply IH']. }
    assert (o = Response c' y /\ is_ok (check_wrapped y) = true) as [-> Hw].
    { destruct c'; [by apply value_okay_Ok | by apply value_error_Ok]. }
    split_and!; [by apply typed_response | done | by destruct c' |].
    rewrite sanitize_response, H4 by done. cbn [mbind option_bind fst].
    rewrite Ho. cbn [ok mbind option_bind]. by apply admitted_output_Some.
Qed.

(** ** UTF-8 *)

(** The characters found in a byte string are characters on their own and make
    up the string. *)
Lemma utf8_chars_spec bytes cs :
  utf8_chars bytes = Some cs ->
  concat cs = bytes /\ Forall (fun c => utf8_chars c = Some [c]) cs.
Proof.
  revert bytes cs. enough (forall n bytes cs, (length bytes <= n)%nat -> utf8_chars bytes = Some cs ->
    concat cs = bytes /\ Forall (fun c => utf8_chars c = Some [c]) cs) as H by (intros; by eapply (H (length bytes))).
  induction n as [| n IH]; intros bytes cs Hn Hc.
  { destruct bytes; [by injection Hc as <- | cbn in Hn; lia]. }
  destruct bytes as [| b0 r0]; [by injection Hc as <- |]. cbn [length] in Hn.
  assert (forall pre rest, (length rest <= n)%nat -> utf8_chars pre = Some [pre] ->
    (cs' ← utf8_chars rest; Some (pre :: cs')) = Some cs ->
    concat cs = pre ++ rest /\ Forall (fun c => utf8_chars c = Some [c]) cs) as Hstep.
  { intros pre rest Hr Hp (cs' & Hcs' & [= <-])%bind_Some. destruct (IH rest cs' Hr Hcs') as [<- ?].
    split; [done | by constructor]. }
  cbn in Hc. destruct (in_range 0 127 b0) eqn:E0.
  { apply (Hstep [b0]); [lia | cbn; by rewrite E0 | done]. }
  destruct r0 as [| b1 r1]; [done |]. cbn [length] in Hn.
  destruct (in_range 194 223 b0 && utf8_cont b1) eqn:E1.
  { apply (Hstep [b0; b1]); [lia | cbn; by rewrite E0, E1 | done]. }
  destruct r1 as [| b2 r2]; [done |]. cbn [length] in Hn.
  match type of Hc with (if ?c then _ else _) = _ => destruct c eqn:E2 end.
  { apply (Hstep [b0; b1; b2]); [lia | cbn; by rewrite E0, E1, E2 | done]. }
  destruct r2 as [| b3 r3]; [done |]. cbn [length] in Hn.
  match type of Hc with (if ?c then _ else _) = _ => destruct c eqn:E3 end; [| done].
  apply (Hstep [b0; b1; b2; b3]); [lia | cbn; by rewrite E0, E1, E2, E3 | done].
Qed.

(** ** Constructors build typed values *)

Lemma buff_from_typed data v : buff_from data = Ok v -> typed v = true.
Proof.
  unfold buff_from, BufferLength_try_from.
  destruct (Z.gtb_spec (zlen data) MAX_VALUE_SIZE); [done |]. destruct (zlen data <? 0); [done |].
  intros [= <-]. by apply Z.leb_le.
Qed.

Lemma string_ascii_typed data v : string_ascii_from_bytes data = Ok v -> typed v = true.
Proof.
  unfold string_ascii_from_bytes, BufferLength_try_from.
  destruct (Z.gtb_spec (zlen data) MAX_VALUE_SIZE); [done |]. destruct (zlen data <? 0); [done |]. cbn.
  destruct (filter _ data) eqn:Ef; [intros [= <-] | done].
  cbn. apply andb_true_iff. split; [by apply Z.leb_le |]. apply forallb_True_iff_Forall.
  apply Forall_forall. intros b Hb. destruct (is_clarity_ascii b) eqn:E; [done |].
  assert (b ∈ filter (fun b => is_clarity_ascii b = false) data) as Hin by (by apply list_elem_of_filter).
  rewrite Ef in Hin. by apply elem_of_nil in Hin.
Qed.

Lemma string_utf8_typed data v : string_utf8_from_bytes data = Ok v -> typed v = true.
Proof.
  unfold string_utf8_from_bytes. intros (cs & Hcs%ok_or_Ok & Hr)%result_bind_Ok.
  unfold StringUTF8Length_try_from in Hr.
  destruct (Z.gtb_spec (zlen cs) MAX_UTF8_VALUE_SIZE); [done |]. destruct (zlen cs <? 0); [done |].
  injection Hr as <-. cbn. apply andb_true_iff. split; [by apply Z.leb_le |].
  apply forallb_True_iff_Forall. apply utf8_chars_spec in Hcs as [_ Hf].
  eapply Forall_impl; [exact Hf |]. intros c. cbn. by rewrite bool_decide_eq_true.
Qed.

Lemma all_admitted_Forall epoch t l u :
  epoch_ltb epoch Epoch21 = false -> all_admitted epoch t l = Ok u ->
  Forall (fun x => admitted t x = true) l.
Proof.
  intros He. induction l as [| x l IH]; cbn; [constructor |].
  intros (b & Hb & Hr)%result_bind_Ok. destruct b; [| done].
  constructor; [by apply (admits_admitted epoch) | by apply IH].
Qed.

Lemma list_with_type_typed epoch data lt v :
  epoch_ltb epoch Epoch21 = false -> valid_data (SequenceType (ListType lt)) = true ->
  Forall (fun x => typed x = true) data -> list_with_type epoch data lt = Ok v -> typed v = true.
Proof.
  intros He [Hv Hd]%andb_true_iff Hf. unfold list_with_type.
  destruct (Z.ltb_spec (get_max_len lt) (zlen data)); [done |].
  intros (u & Hu & [= <-])%result_bind_Ok. apply all_admitted_Forall in Hu; [| done].
  apply typed_list. split_and!; [done | done | done |]. by apply Forall_and.
Qed.

Lemma collect_typed_spec epoch expected behavior dm data dm' :
  epoch_ltb epoch Epoch21 = false ->
  collect_typed epoch expected behavior dm data = Ok dm' ->
  ordered dm.*1 = true ->
  Forall (fun e => exists t, field_type expected e.1 = Some t /\ admitted t e.2 = true) dm ->
  ordered dm'.*1 = true /\
  Forall (fun e => exists t, field_type expected e.1 = Some t /\ admitted t e.2 = true) dm' /\
  (forall P : ClarityName * Value -> Prop, Forall P dm -> Forall P data -> Forall P dm').
Proof.
  intros He. revert dm. induction data as [| [name v] data IH]; intros dm; cbn [collect_typed].
  { intros [= <-] ? ?. done. }
  intros (t & Ht%ok_or_Ok & (b & Hb & Hr)%result_bind_Ok)%result_bind_Ok Ho Hf.
  destruct b; [| done]. cbn in Hr. apply admits_admitted in Hb; [| done].
  assert (collect_typed epoch expected behavior (map_insert name v dm) data = Ok dm') as Hc.
  { destruct (assoc name dm); [| done]. by destruct (allow_duplicate_fields behavior). }
  apply IH in Hc as (? & ? & HP); [| by apply map_insert_ordered | apply map_insert_Forall; [done | by exists t]].
  split_and!; [done | done |]. intros P Hdm [? ?]%Forall_cons. apply HP; [by apply map_insert_Forall | done].
Qed.

(** From Epoch 4.1 a typed tuple has exactly the declared fields. *)
Lemma tuple_from_data_typed_exact epoch data expected t :
  epoch_ltb epoch Epoch21 = false -> valid_data (TupleType expected) = true ->
  Forall (fun e => typed e.2 = true) data ->
  tuple_from_data_typed epoch data expected EXACT_FIELD_SET = Ok t -> typed (Tuple t) = true.
Proof.
  intros He [Hv Hd]%andb_true_iff Hf. unfold tuple_from_data_typed.
  intros (dm & Hc & Hr)%result_bind_Ok. cbn [allow_missing_fields EXACT_FIELD_SET negb andb] in Hr.
  destruct (Z.eqb_spec (zlen dm) (tuple_type_len expected)) as [Hl | Hl].
  2:{ cbn in Hr. run_M. discriminate. }
  injection Hr as <-. apply collect_typed_spec in Hc as (Ho & Hfd & HP); [| done | done | constructor].
  specialize (HP _ (List.Forall_nil _) Hf). destruct expected as [tm size].
  apply typed_tuple. split_and!; [done | done | | by apply Forall_and].
  apply valid_tuple_parts in Hv as [_ Hot]. apply ordered_perm; [done | done |].
  unfold zlen, tuple_type_len in Hl. cbn in Hl |- *.
  apply submseteq_length_Permutation; [| rewrite !length_fmap; lia].
  apply NoDup_submseteq; [by apply ordered_NoDup |]. intros n ([n' v] & -> & Hin)%list_elem_of_fmap.
  rewrite Forall_forall in Hfd. destruct (Hfd _ Hin) as (t & Ht%assoc_elem_of & _).
  apply list_elem_of_fmap. by exists (n', t).
Qed.

(** *** Lists whose items are sanitized *)

Lemma fold_entry_types_pred (join : TypeSignature -> TypeSignature -> TypeR TypeSignature)
    (Q : TypeSignature -> Prop) children o t :
  (forall a b c, Q a -> Q b -> join a b = Ok c -> Q c) ->
  (forall t0, o = Some t0 -> Q t0) -> Forall Q children ->
  fold_entry_types join o (Ok <$> children) = Ok t -> forall t0, t = Some t0 -> Q t0.
Proof.
  intros Hj Ho Hc. revert o Ho. induction Hc as [| c cs Hc _ IH]; intros o Ho.
  { by intros [= <-]. }
  cbn [fmap list_fmap fold_entry_types]. cbn. intros (t1 & Ht1 & Hf)%result_bind_Ok.
  apply (IH (Some t1)); [| done]. intros t2 [= <-]. destruct o as [t0 |]; [| by injection Ht1 as <-].
  specialize (Ho t0 eq_refl). destruct (type_eqb t0 c); [by injection Ht1 as <- | by apply (Hj t0 c)].
Qed.

Lemma runtime_joins_data a b c :
  valid_type a = true /\ data_type a = true -> valid_type b = true /\ data_type b = true ->
  least_supertype_v2_1 a b = Ok c -> valid_type c = true /\ data_type c = true.
Proof.
  intros [Hva Hda] [Hvb Hdb] Hc. split; [by apply (least_supertype_v2_1_valid false a b) |].
  pose proof (supertype_bounds false _ _ _ Hva Hvb (or_intror Hda) (or_intror Hdb) Hc) as Hbd.
  by apply bounds_inv in Hbd as (? & _ & _).
Qed.

Lemma construct_parent_list_type_valid l lt :
  Forall (fun v => typed v = true) l -> construct_parent_list_type l = Ok lt ->
  valid_type (SequenceType (ListType lt)) = true /\
  data_type (SequenceType (ListType lt)) = true /\ get_max_len lt = zlen l.
Proof.
  intros Hl. destruct (types_of_list l Hl) as (ts & Hts & Hf).
  unfold construct_parent_list_type, parent_list_type_from_iter. rewrite Hts.
  intros (t & Ht & Hr)%result_bind_Ok.
  assert (Forall (fun t => valid_type t = true /\ data_type t = true) ts) as Hq.
  { apply (Forall2_Forall_r _ _ _ _ Hf). apply Forall_forall. by intros ? _ ? (_ & ? & ?). }
  pose proof (fold_entry_types_pred _ _ ts None t runtime_joins_data ltac:(done) Hq Ht) as Hq'.
  destruct t as [t |].
  - destruct (Hq' t eq_refl) as [Hv Hd].
    apply result_bind_Ok in Hr as (n & (-> & Hn)%ok_or_Ok%checked_Some & Hr).
    split; [by eapply new_list_valid |]. apply new_list_Ok in Hr as (_ & size & _ & ->).
    split; [apply data_list; by left | done].
  - injection Hr as <-. split_and!; [done | done |]. destruct l as [| x l]; [done |].
    exfalso. apply Forall2_length in Hf. destruct ts as [| t0 ts]; [done |]. clear -Ht.
    cbn in Ht. revert t0 Ht. induction ts as [| t1 ts IH]; intros t0 Ht; [done |].
    cbn in Ht. apply result_bind_Ok in Ht as (t2 & _ & Ht). by apply (IH t2).
Qed.

Lemma valid_list_item lt :
  valid_type (SequenceType (ListType lt)) = true -> valid_type (get_list_item_type lt) = true.
Proof. destruct lt as [n e size]. by intros (? & _)%valid_list. Qed.

Lemma sanitize_all_typed epoch t l l' :
  value_sanitizing epoch = true -> valid_type t = true ->
  Forall (fun v => typed v = true) l -> sanitize_all epoch t l = Some l' ->
  length l' = length l /\ Forall (fun v => typed v = true /\ admitted t v = true) l'.
Proof.
  intros Hs Ht Hl. revert l'. induction Hl as [| v l Hv _ IH]; intros l'; cbn.
  { by intros [= <-]. }
  intros ([x b] & Hx & (xs & Hxs & [= <-])%bind_Some)%bind_Some.
  destruct (IH xs Hxs) as [? ?]. destruct (sanitizes_all epoch t Hs Ht v x b Hv Hx) as (? & ? & _).
  split; [cbn; lia | by constructor].
Qed.

Lemma cons_list_typed epoch l v :
  value_sanitizing epoch = true -> Forall (fun v => typed v = true) l ->
  cons_list l epoch = Ok v -> typed v = true.
Proof.
  intros Hs Hl (lt & Hlt & (l' & Hl'%ok_or_Ok & [= <-])%result_bind_Ok)%result_bind_Ok.
  destruct (construct_parent_list_type_valid l lt Hl Hlt) as (Hv & Hd & Hn).
  destruct (sanitize_all_typed epoch _ l l' Hs (valid_list_item _ Hv) Hl Hl') as [Hlen Hf].
  apply typed_list. unfold zlen in *. split_and!; [done | done | lia | done].
Qed.

Lemma append_sanitized_app epoch t data other data' :
  append_sanitized epoch t data other = Ok data' ->
  exists l, sanitize_all epoch t other = Some l /\ data' = data ++ l.
Proof.
  revert data. induction other as [| x other IH]; intros data; cbn.
  { intros [= <-]. exists []. by rewrite app_nil_r. }
  intros (r & Hr%ok_or_Ok & Ha)%result_bind_Ok. rewrite Hr. cbn.
  apply IH in Ha as (l & -> & ->). exists (r.1 :: l). cbn. by rewrite <- (assoc_L (++)).
Qed.

Lemma factor_out_bounds epoch a b c :
  epoch_ltb epoch Epoch21 = false ->
  valid_type a = true -> valid_type b = true -> opt_data a -> opt_data b ->
  factor_out_no_type epoch a b = Ok c ->
  valid_type c = true /\ opt_data c /\ opt_adm c a /\ (c = NoType -> a = NoType /\ b = NoType).
Proof.
  intros He Hva Hvb Hda Hdb. unfold factor_out_no_type, factor_out_no_type_with.
  destruct (is_no_type a) eqn:Ea.
  { intros [= <-]. apply is_no_type_eq in Ea as ->. split_and!; [done | done | by left | done]. }
  destruct (is_no_type b) eqn:Eb.
  { intros [= <-]. split_and!; [done | done | by apply opt_adm_refl | by intros ->]. }
  unfold least_supertype. rewrite He. unfold least_supertype_v2_1. intros Hc.
  destruct (supertype_bounds false a b c Hva Hvb Hda Hdb Hc) as (? & ? & ? & _).
  split_and!; [by apply (least_supertype_v2_1_valid false a b) | done..].
Qed.

Lemma admitted_mono t t' v :
  valid_type t = true -> data_type t = true -> adm t' t -> typed v = true ->
  admitted t v = true -> admitted t' v = true.
Proof.
  intros Hv Hd Ha Ht (s & Hs & Has)%admitted_spec. apply admitted_spec. exists s. split; [done |].
  destruct (typed_type_of v Ht) as (s' & ? & ? & ?). assert (s' = s) as -> by congruence.
  by apply (adm_trans t' t s).
Qed.

(** Every entry takes at least a byte, so lengths stay far below [u32::MAX]. *)
Lemma valid_list_length n e size :
  valid_type (SequenceType (ListType (mkListTypeData n e size))) = true -> 0 <= n <= MAX_VALUE_SIZE.
Proof.
  intros (He & Hn & (_ & s & Hs & [= ->])%new_list_Ok)%valid_list.
  apply list_compute_inner_size_Some in Hs as (es & ts & Hes & Hts & _ & _ & -> & Hle).
  destruct (inner_min_size_le e He es Hes) as (mn & _ & ?). apply list_type_size_nonneg in Hts.
  unfold is_u32 in Hn. nia.
Qed.

Lemma list_append_typed epoch data lt other lt' r :
  value_sanitizing epoch = true ->
  typed (Sequence (List_ data lt)) = true -> typed (Sequence (List_ other lt')) = true ->
  list_append epoch data lt other lt' = Ok r ->
  typed (Sequence (List_ r.1 r.2)) = true /\ length r.1 = (length data + length other)%nat.
Proof.
  intros Hs (Hv & Hd & Hn & Hf)%typed_list (Hv' & Hd' & Hn' & Hf')%typed_list.
  pose proof (sanitizing_modern _ Hs) as Hm. destruct lt as [n e size], lt' as [n' e' size'].
  unfold list_append. cbn [get_list_item_type get_max_len] in *.
  intros (t & Ht & (d2 & (l & Hl & ->)%append_sanitized_app & (l2 & Hl2 & [= <-])%result_bind_Ok)%result_bind_Ok)%result_bind_Ok.
  pose proof (valid_list_length _ _ _ Hv). pose proof (valid_list_length _ _ _ Hv').
  apply valid_list in Hv as (Hve & _), Hv' as (Hve' & _). apply data_list in Hd, Hd'.
  destruct (factor_out_bounds epoch e e' t Hm Hve Hve') as (Hvt & Hdt & Hat & Hnt); [unfold opt_data; tauto.. | done |].
  destruct (sanitize_all_typed epoch t other l Hs Hvt) as [Hlen Hfl]; [| done |].
  { eapply Forall_impl; [exact Hf' |]. by intros ? [? ?]. }
  cbn [fst snd]. split; [| rewrite length_app; lia].
  assert (valid_type (SequenceType (ListType l2)) = true) as Hv2.
  { apply (new_list_valid t (n + n')); [done | ints | done]. }
  apply new_list_Ok in Hl2 as (_ & size2 & _ & ->). apply typed_list.
  split; [done |]. cbn [get_max_len get_list_item_type]. unfold zlen in *. rewrite length_app.
  split; [| split; [lia |]].
  - apply data_list. destruct Hdt as [-> | Hdt]; [right | by left].
    destruct (Hnt eq_refl) as [-> ->]. split; [done |].
    destruct Hd as [? | [_ ->]], Hd' as [? | [_ ->]]; done.
  - apply Forall_app. split; [| done]. destruct Hd as [Hd | [-> ->]].
    + destruct Hat as [-> | Hat]; [done |]. eapply Forall_impl; [exact Hf |].
      intros x [Hx Hax]. split; [done |]. by apply (admitted_mono e t).
    + destruct data; [constructor | cbn in Hn; lia].
Qed.

(** ** Reading and replacing elements *)

Lemma zlen_lookup {A} (l : list A) i :
  0 <= i -> (zlen l <=? i) = false -> exists x, l !! Z.to_nat i = Some x.
Proof. unfold zlen. intros Hi Hl%Z.leb_gt. apply lookup_lt_is_Some_2. lia. Qed.

Lemma string_ascii_single b :
  is_clarity_ascii b = true -> string_ascii_from_bytes [b] = Ok (Sequence (String_ (CharASCII [b]))).
Proof.
  intros Hb. unfold string_ascii_from_bytes.
  change (BufferLength_try_from (zlen [b])) with (Ok 1 : TypeR Z). cbn [mbind result_bind].
  by rewrite filter_cons_False by congruence.
Qed.

(** The element of a typed sequence at an index within it *)
Lemma element_at_lookup s i :
  typed (Sequence s) = true -> 0 <= i ->
  element_at s i =
  if seq_len s <=? i then Ok None
  else match s with
  | Buffer data => match data !! Z.to_nat i with Some b => Ok (Some (Sequence (Buffer [b]))) | None => Panic end
  | List_ data _ => match data !! Z.to_nat i with Some v => Ok (Some v) | None => Panic end
  | String_ (CharASCII data) =>
      match data !! Z.to_nat i with Some b => Ok (Some (Sequence (String_ (CharASCII [b])))) | None => Panic end
  | String_ (CharUTF8 data) =>
      match data !! Z.to_nat i with Some c => Ok (Some (Sequence (String_ (CharUTF8 [c])))) | None => Panic end
  end.
Proof.
  intros Ht Hi. unfold element_at, index, expect_some. destruct (seq_len s <=? i) eqn:E; [done |].
  destruct s as [data | data lt | [data | data]]; cbn in E;
    destruct (zlen_lookup data i Hi E) as (x & Hx); rewrite Hx; cbn; try done.
  cbn in Ht. apply andb_true_iff in Ht as [_ Ht]. rewrite string_ascii_single; [done |].
  rewrite forallb_True_iff_Forall, Forall_lookup in Ht. by apply (Ht (Z.to_nat i)).
Qed.

Lemma assign_Ok {A} (l : list A) i x l' :
  assign l i x = Ok l' -> l' = <[Z.to_nat i := x]> l /\ (Z.to_nat i < length l)%nat.
Proof.
  unfold assign, index. intros (y & Hy%expect_some_Ok & [= <-])%result_bind_Ok.
  split; [done | by eapply lookup_lt_Some].
Qed.

Lemma lookup_assigned {A} (l : list A) i j (x : A) :
  0 <= i -> 0 <= j -> (Z.to_nat i < length l)%nat ->
  <[Z.to_nat i := x]> l !! Z.to_nat j = if j =? i then Some x else l !! Z.to_nat j.
Proof.
  intros Hi Hj Hl. destruct (Z.eqb_spec j i) as [-> | Hne].
  - by apply list_lookup_insert_eq.
  - apply list_lookup_insert_ne. lia.
Qed.

Lemma zlen_insert {A} (l : list A) i x : zlen (<[i := x]> l) = zlen l.
Proof. unfold zlen. by rewrite length_insert. Qed.

(** The new sequence of [replace_at], before it is wrapped *)
Definition replaced (s : SequenceData) (i : Z) (element : Value) (s' : SequenceData) : Prop :=
  match s, element with
  | Buffer data, Sequence (Buffer [b]) => s' = Buffer (<[Z.to_nat i := b]> data)
  | List_ data lt, elem =>
      s' = List_ (<[Z.to_nat i := elem]> data) lt /\ admitted (get_list_item_type lt) elem = true
  | String_ (CharASCII data), Sequence (String_ (CharASCII [b])) =>
      s' = String_ (CharASCII (<[Z.to_nat i := b]> data))
  | String_ (CharUTF8 data), Sequence (String_ (CharUTF8 [c])) =>
      s' = String_ (CharUTF8 (<[Z.to_nat i := c]> data))
  | _, _ => False
  end.

Lemma zlen_single {A} (l : list A) : zlen l = 1 -> exists x, l = [x].
Proof. unfold zlen. destruct l as [| x [| y l]]; cbn; intros; [lia | by exists x | lia]. Qed.

Lemma replace_at_Ok epoch s i element v :
  epoch_ltb epoch Epoch21 = false -> 0 <= i ->
  replace_at epoch s i element = Ok v ->
  i < seq_len s /\ exists s', v = Optional (Some (Sequence s')) /\ replaced s i element s' /\
    is_ok (check_wrapped (Sequence s')) = true.
Proof.
  intros He Hi. unfold replace_at. intros (u & Hu & Hr)%result_bind_Ok.
  destruct (i >=? seq_len s) eqn:Eb; [done |]. rewrite Z.geb_leb, Z.leb_gt in Eb. split; [done |].
  apply result_bind_Ok in Hr as (s' & Hs' & (-> & Hw)%value_some_Ok). exists s'. split; [done |].
  split; [| done].
  destruct s as [data | data lt | [data | data]]; cbn in Hu.
  - destruct element as [| | | [elem | |] | | | | |]; try discriminate Hu; try discriminate Hs';
      try (by apply result_bind_Ok in Hs' as (? & _ & ?)).
    cbn in Hu. destruct (Z.eqb_spec (zlen elem) 1) as [(b & ->)%zlen_single |]; [| done].
    change (index [b] 0) with (Ok b : TypeR _) in Hs'. cbn in Hs'. apply result_bind_Ok in Hs' as (d & (-> & _)%assign_Ok & [= <-]). done.
  - apply result_bind_Ok in Hs' as (b & Hb & Hs'). destruct b; [| done].
    cbn in Hs'. apply result_bind_Ok in Hs' as (d & (-> & _)%assign_Ok & [= <-]).
    cbn. split; [done |]. by apply (admits_admitted epoch).
  - destruct element as [| | | [| | [elem | elem]] | | | | |]; try discriminate Hu; try discriminate Hs';
      try (by apply result_bind_Ok in Hs' as (? & _ & ?)).
    cbn in Hu. destruct (Z.eqb_spec (zlen elem) 1) as [(b & ->)%zlen_single |]; [| done].
    change (index [b] 0) with (Ok b : TypeR _) in Hs'. cbn in Hs'. apply result_bind_Ok in Hs' as (d & (-> & _)%assign_Ok & [= <-]). done.
  - destruct element as [| | | [| | [elem | elem]] | | | | |]; try discriminate Hu; try discriminate Hs';
      try (by apply result_bind_Ok in Hs' as (? & _ & ?)).
    cbn in Hu. destruct (Z.eqb_spec (zlen elem) 1) as [(b & ->)%zlen_single |]; [| done].
    change (index [b] 0) with (Ok b : TypeR _) in Hs'. cbn in Hs'. apply result_bind_Ok in Hs' as (d & (-> & _)%assign_Ok & [= <-]). done.
Qed.

Lemma replaced_typed s i element s' :
  typed (Sequence s) = true -> typed element = true -> replaced s i element s' ->
  typed (Sequence s') = true /\ seq_len s' = seq_len s.
Proof.
  intros Hs He Hr.
  destruct s as [data | data lt | [data | data]]; cbn in Hr.
  - destruct element as [| | | [[| b [|]] | |] | | | | |]; try done. subst s'. cbn in *.
    by rewrite zlen_insert.
  - destruct Hr as [-> Ha]. apply typed_list in Hs as (? & ? & ? & Hf). cbn [seq_len]. rewrite zlen_insert.
    split; [| done]. apply typed_list. rewrite zlen_insert. split_and!; try done.
    apply Forall_insert; [done | by split].
  - destruct element as [| | | [| | [[| c [|]] | ?]] | | | | |]; try done. subst s'. cbn in *.
    rewrite zlen_insert. split; [| done]. apply andb_true_iff in Hs as [-> Hs], He as [_ He].
    rewrite andb_true_r in He. cbn [andb]. rewrite forallb_True_iff_Forall in Hs |- *.
    by apply Forall_insert.
  - destruct element as [| | | [| | [? | [| c [|]]]] | | | | |]; try done. subst s'. cbn in *.
    rewrite zlen_insert. split; [| done]. apply andb_true_iff in Hs as [-> Hs], He as [_ He].
    rewrite andb_true_r in He. cbn [andb]. rewrite forallb_True_iff_Forall in Hs |- *.
    by apply Forall_insert.
Qed.

(** ** Searching *)

Lemma position_Some {A} (test : A -> bool) i l k :
  position test i l = Some k <->
  exists n x, k = i + Z.of_nat n /\ l !! n = Some x /\ test x = true /\
    Forall (fun y => test y = false) (take n l).
Proof.
  revert i. induction l as [| x l IH]; intros i; cbn [position].
  { split; [done |]. by intros (n & y & _ & ? & _). }
  destruct (test x) eqn:E.
  - split; [intros [= <-] |].
    + exists O, x. split_and!; [lia | done | done | constructor].
    + intros (n & y & -> & Hy & Ht & Hf). destruct n as [| n]; [f_equal; lia |].
      cbn in Hf. apply Forall_cons in Hf as [? _]. congruence.
  - rewrite IH. split.
    + intros (n & y & -> & Hy & Ht & Hf). exists (S n), y. cbn. split_and!; [lia | done | done |].
      by constructor.
    + intros (n & y & -> & Hy & Ht & Hf). destruct n as [| n]; [cbn in Hy; congruence |].
      cbn in Hf, Hy. apply Forall_cons in Hf as [_ Hf]. exists n, y. split_and!; [lia | done..].
Qed.

Lemma position_None {A} (test : A -> bool) i l :
  position test i l = None <-> Forall (fun y => test y = false) l.
Proof.
  revert i. induction l as [| x l IH]; intros i; cbn [position]; [by split |].
  rewrite Forall_cons, <- (IH (i + 1)). destruct (test x); [| tauto].
  split; [done | by intros [? _]].
Qed.

(** ** Theorems *)

(** [type_of], [size] and [depth] succeed on every typed value: the type is
    valid, the size within the limit up to a length prefix, the depth within its
    limit. None of the [InvariantViolation] errors of the value layer is
    reachable from typed values. *)
Theorem typed_values_have_valid_types v :
  typed v = true ->
  exists t s d, type_of v = Ok t /\ valid_type t = true /\
    value_size v = Ok s /\ 0 <= s <= MAX_VALUE_SIZE + SEQUENCE_LENGTH_PREFIX /\
    value_depth v = Ok d /\ 1 <= d <= MAX_TYPE_DEPTH.
Proof.
  intros Hv. destruct (typed_type_of v Hv) as (t & Ht & Hvt & _).
  destruct (valid_inner_size t Hvt) as (s & Hs & ? & _).
  exists t, s, (depth t). unfold value_size, value_depth, sig_size. rewrite Ht. cbn. rewrite Hs.
  split_and!; try done; try lia; [apply depth_pos | by apply valid_depth].
Qed.


(** [try_retain], which filters in place by swapping kept elements to the
    front in a single pass, is filtering: for every predicate, with whatever
    state and errors it has, it returns the elements that the predicate keeps,
    in order, asks about the same elements in the same order, and fails when
    and as the plain filter does. *)
Theorem try_retain_is_filter {S E} (predicate : Value -> M S E bool) s st :
  try_retain predicate s st =
  match s with
  | Buffer data => (l ← mfilter byte_to_value predicate data; mret (Buffer l)) st
  | List_ data lt => (l ← mfilter item_to_value predicate data; mret (List_ l lt)) st
  | String_ (CharASCII data) =>
      (l ← mfilter ascii_to_value predicate data; mret (String_ (CharASCII l))) st
  | String_ (CharUTF8 data) =>
      (l ← mfilter char_to_value predicate data; mret (String_ (CharUTF8 l))) st
  end.
Proof.
  destruct s as [data | data lt | [data | data]]; apply M_bind_cong, retain_inner_filter.
Qed.

(** Since Epoch 2.1, replacing an element of a typed sequence by a typed
    value gives a typed sequence of the same length that holds the new element
    at the index and the old ones everywhere else, wrapped in [some]; the index
    was within the sequence. *)
Theorem replace_at_updates_element epoch s i element v :
  epoch_ltb epoch Epoch21 = false -> 0 <= i ->
  typed (Sequence s) = true -> typed element = true ->
  replace_at epoch s i element = Ok v ->
  i < seq_len s /\ typed v = true /\
  exists s', v = Optional (Some (Sequence s')) /\ seq_len s' = seq_len s /\
    element_at s' i = Ok (Some element) /\
    (forall j, 0 <= j -> j <> i -> element_at s' j = element_at s j).
Proof.
  intros He Hi Hs Ht Hr. destruct (replace_at_Ok epoch s i element v He Hi Hr) as (Hlt & s' & -> & Hrep & Hw).
  destruct (replaced_typed s i element s' Hs Ht Hrep) as [Hs' Hlen].
  split; [done |]. split; [by apply typed_some |]. exists s'. split; [done |]. split; [done |].
  assert (forall j, 0 <= j -> element_at s' j =
    if j =? i then Ok (Some element) else element_at s j) as Hat.
  { intros j Hj. rewrite (element_at_lookup s'), (element_at_lookup s), Hlen by done.
    assert ((seq_len s <=? i) = false) as Hle by (apply Z.leb_gt; lia).
    destruct s as [data | data lt | [data | data]]; cbn in Hrep, Hlt; unfold zlen in Hlt;
      [destruct element as [| | | [[| b [|]] | |] | | | | |]; try done |
       destruct Hrep as [-> _] |
       destruct element as [| | | [| | [[| c [|]] | ?]] | | | | |]; try done |
       destruct element as [| | | [| | [? | [| c [|]]]] | | | | |]; try done]; subst;
      rewrite lookup_assigned by lia; (destruct (Z.eqb_spec j i) as [-> |]; [by rewrite Hle | done]). }
  rewrite !Hat, Z.eqb_refl by done. split; [done |].
  intros j Hj Hne. by rewrite Hat, (proj2 (Z.eqb_neq j i)).
Qed.

(** ** Witnesses *)

(** A list of tuples, one of which has a field that the list's type lacks *)
Definition narrow_item : Value :=
  match tuple_from_data [("a", Int 1)] with Ok t => Tuple t | _ => value_none end.
Definition wide_item : Value :=
  match tuple_from_data [("b", Bool true); ("a", Int 2)] with Ok t => Tuple t | _ => value_none end.

Lemma typed_values_have_valid_types_witness :
  typed wide_item = true /\
  exists t s d, type_of wide_item = Ok t /\ valid_type t = true /\
    value_size wide_item = Ok s /\ 0 <= s <= MAX_VALUE_SIZE + SEQUENCE_LENGTH_PREFIX /\
    value_depth wide_item = Ok d /\ 1 <= d <= MAX_TYPE_DEPTH.
Proof. split; [by vm_compute |]. apply typed_values_have_valid_types. by vm_compute. Defined.


Lemma replace_at_updates_element_witness :
  exists v, replace_at Epoch30 (Buffer [1; 2; 3]) 1 (buff_from_byte 9) = Ok v /\
    1 < 3 /\ typed v = true /\
    exists s', v = Optional (Some (Sequence s')) /\ seq_len s' = 3 /\
      element_at s' 1 = Ok (Some (buff_from_byte 9)) /\
      (forall j, 0 <= j -> j <> 1 -> element_at s' j = element_at (Buffer [1; 2; 3]) j).
Proof.
  eexists. split; [by vm_compute |].
  apply (replace_at_updates_element Epoch30 (Buffer [1; 2; 3]) 1 (buff_from_byte 9)); by vm_compute.
Defined.
