(* ===== verification/Expressions.v ===== *)
(** * Clarity expressions and reserved names

    The syntax tree that the interpreter walks ([SymbolicExpression] of
    [clarity-types/src/representations.rs]; ids and source spans, which
    evaluation does not read, are left out), the language versions of
    [clarity-types/src/version.rs], the enumerations of reserved names with the
    versions that have them ([functions/mod.rs], [functions/define.rs],
    [variables.rs] and [types/mod.rs] of [clarity/src/vm]), the rendering of
    values and expressions, and the checks on the shape of arguments and
    binding lists with their errors. *)

From Stdlib Require Import Ascii.
From S2P Require Import Prelude.
From S2P Require Import Bytes.
From S2P Require Import BoundedString.
From S2P Require Import Epochs.
From S2P Require Import Values.
From S2P Require Import Types.
From S2P Require Import C32.
From S2P Require Import Serialization.
From S2P Require Import VmErrors.
From S2P Require Import TypedValues.

(** ** Versions of the language *)

Inductive ClarityVersion :=
| Clarity1 | Clarity2 | Clarity3 | Clarity4 | Clarity5 | Clarity6 | Clarity7.

#[export] Instance ClarityVersion_eq_dec : EqDecision ClarityVersion.
Proof. solve_decision. Defined.

Definition version_number (v : ClarityVersion) : Z :=
  match v with
  | Clarity1 => 1 | Clarity2 => 2 | Clarity3 => 3 | Clarity4 => 4 | Clarity5 => 5
  | Clarity6 => 6 | Clarity7 => 7
  end.

Definition version_leb (a b : ClarityVersion) : bool := version_number a <=? version_number b.

Definition ClarityVersion_ALL : list ClarityVersion :=
  [Clarity1; Clarity2; Clarity3; Clarity4; Clarity5; Clarity6; Clarity7].

Definition default_for_epoch {E} (epoch_id : StacksEpochId) : result E ClarityVersion :=
  match epoch_id with
  | Epoch10 => Panic
  | Epoch20 | Epoch2_05 => Ok Clarity1
  | Epoch21 | Epoch22 | Epoch23 | Epoch24 | Epoch25 => Ok Clarity2
  | Epoch30 | Epoch31 | Epoch32 => Ok Clarity3
  | Epoch33 => Ok Clarity4
  | Epoch34 => Ok Clarity5
  | Epoch40 => Ok Clarity6
  | Epoch41 => Ok Clarity7
  end.

Definition supports_callables (v : ClarityVersion) : bool := version_leb Clarity2 v.
Definition uses_secp256r1_double_hashing (v : ClarityVersion) : bool := version_leb v Clarity4.
Definition protects_logn_cost_fn (v : ClarityVersion) : bool := version_leb Clarity5 v.
Definition supports_variadic_concat (v : ClarityVersion) : bool := version_leb Clarity6 v.

(** ** Named enumerations

    [define_named_enum!] and [define_versioned_named_enum!] of
    [stacks-common/src/util/macros.rs]: the names of an enumeration are
    distinct, so the match on a name is a search. *)

Class NamedEnum (T : Type) := { enum_name : T -> string; enum_all : list T }.

Class VersionedEnum (T : Type) `{NamedEnum T} := {
  enum_min : T -> ClarityVersion;
  enum_max : T -> option ClarityVersion;
}.

Definition lookup_by_name {T} `{NamedEnum T} (name : string) : option T :=
  List.find (fun v => String.eqb (enum_name v) name) enum_all.

Definition lookup_by_name_at_version {T} `{VersionedEnum T} (name : string)
    (version : ClarityVersion) : option T :=
  v ← lookup_by_name name;
  if version_leb (enum_min v) version
     && match enum_max v with Some max_v => version_leb version max_v | None => true end
  then Some v else None.

(** [functions/mod.rs] *)
Module NativeFunctions.
Inductive t :=
| Add | Subtract | Multiply | Divide | CmpGeq | CmpLeq | CmpLess | CmpGreater | ToInt | ToUInt
| Modulo | Power | Sqrti | Log2 | BitwiseXor | And | Or | Not | Equals | If | Let | Map | Fold
| Append | Concat | AsMaxLen | Len | ElementAt | ElementAtAlias | IndexOf | IndexOfAlias
| BuffToIntLe | BuffToUIntLe | BuffToIntBe | BuffToUIntBe | IsStandard | PrincipalDestruct
| PrincipalConstruct | StringToInt | StringToUInt | IntToAscii | IntToUtf8 | ListCons
| FetchVar | SetVar | FetchEntry | SetEntry | InsertEntry | DeleteEntry | TupleCons | TupleGet
| TupleMerge | Begin | Hash160 | Sha256 | Sha512 | Sha512Trunc256 | Keccak256
| Secp256k1Recover | Secp256k1Verify | Print | ContractCall | AsContract | ContractOf
| PrincipalOf | AtBlock | GetBlockInfo | GetBurnBlockInfo | ConsError | ConsOkay | ConsSome
| DefaultTo | Asserts | UnwrapRet | UnwrapErrRet | Unwrap | UnwrapErr | Match | TryRet | IsOkay
| IsNone | IsErr | IsSome | Filter | GetTokenBalance | GetAssetOwner | TransferToken
| TransferAsset | MintAsset | MintToken | GetTokenSupply | BurnToken | BurnAsset
| GetStxBalance | StxTransfer | StxTransferMemo | StxBurn | StxGetAccount | BitwiseAnd
| BitwiseOr | BitwiseNot | BitwiseLShift | BitwiseRShift | BitwiseXor2 | Slice
| ToConsensusBuff | FromConsensusBuff | ReplaceAt | GetStacksBlockInfo | GetTenureInfo
| ContractHash | ToAscii | RestrictAssets | AsContractSafe | AllowanceWithStx | AllowanceWithFt
| AllowanceWithNft | AllowanceWithStacking | AllowanceWithStaking | AllowanceWithPox
| AllowanceAll | Secp256r1Verify | VerifyMerkleProof | GetBitcoinTxOutput | Ed25519Verify
| Secp256k1Decompress.

Definition get_name (v : t) : string :=
  match v with
  | Add => "+" | Subtract => "-" | Multiply => "*" | Divide => "/" | CmpGeq => ">="
  | CmpLeq => "<=" | CmpLess => "<" | CmpGreater => ">" | ToInt => "to-int"
  | ToUInt => "to-uint" | Modulo => "mod" | Power => "pow" | Sqrti => "sqrti" | Log2 => "log2"
  | BitwiseXor => "xor" | And => "and" | Or => "or" | Not => "not" | Equals => "is-eq"
  | If => "if" | Let => "let" | Map => "map" | Fold => "fold" | Append => "append"
  | Concat => "concat" | AsMaxLen => "as-max-len?" | Len => "len" | ElementAt => "element-at"
  | ElementAtAlias => "element-at?" | IndexOf => "index-of" | IndexOfAlias => "index-of?"
  | BuffToIntLe => "buff-to-int-le" | BuffToUIntLe => "buff-to-uint-le"
  | BuffToIntBe => "buff-to-int-be" | BuffToUIntBe => "buff-to-uint-be"
  | IsStandard => "is-standard" | PrincipalDestruct => "principal-destruct?"
  | PrincipalConstruct => "principal-construct?" | StringToInt => "string-to-int?"
  | StringToUInt => "string-to-uint?" | IntToAscii => "int-to-ascii"
  | IntToUtf8 => "int-to-utf8" | ListCons => "list" | FetchVar => "var-get"
  | SetVar => "var-set" | FetchEntry => "map-get?" | SetEntry => "map-set"
  | InsertEntry => "map-insert" | DeleteEntry => "map-delete" | TupleCons => "tuple"
  | TupleGet => "get" | TupleMerge => "merge" | Begin => "begin" | Hash160 => "hash160"
  | Sha256 => "sha256" | Sha512 => "sha512" | Sha512Trunc256 => "sha512/256"
  | Keccak256 => "keccak256" | Secp256k1Recover => "secp256k1-recover?"
  | Secp256k1Verify => "secp256k1-verify" | Print => "print" | ContractCall => "contract-call?"
  | AsContract => "as-contract" | ContractOf => "contract-of" | PrincipalOf => "principal-of?"
  | AtBlock => "at-block" | GetBlockInfo => "get-block-info?"
  | GetBurnBlockInfo => "get-burn-block-info?" | ConsError => "err" | ConsOkay => "ok"
  | ConsSome => "some" | DefaultTo => "default-to" | Asserts => "asserts!"
  | UnwrapRet => "unwrap!" | UnwrapErrRet => "unwrap-err!" | Unwrap => "unwrap-panic"
  | UnwrapErr => "unwrap-err-panic" | Match => "match" | TryRet => "try!" | IsOkay => "is-ok"
  | IsNone => "is-none" | IsErr => "is-err" | IsSome => "is-some" | Filter => "filter"
  | GetTokenBalance => "ft-get-balance" | GetAssetOwner => "nft-get-owner?"
  | TransferToken => "ft-transfer?" | TransferAsset => "nft-transfer?"
  | MintAsset => "nft-mint?" | MintToken => "ft-mint?" | GetTokenSupply => "ft-get-supply"
  | BurnToken => "ft-burn?" | BurnAsset => "nft-burn?" | GetStxBalance => "stx-get-balance"
  | StxTransfer => "stx-transfer?" | StxTransferMemo => "stx-transfer-memo?"
  | StxBurn => "stx-burn?" | StxGetAccount => "stx-account" | BitwiseAnd => "bit-and"
  | BitwiseOr => "bit-or" | BitwiseNot => "bit-not" | BitwiseLShift => "bit-shift-left"
  | BitwiseRShift => "bit-shift-right" | BitwiseXor2 => "bit-xor" | Slice => "slice?"
  | ToConsensusBuff => "to-consensus-buff?" | FromConsensusBuff => "from-consensus-buff?"
  | ReplaceAt => "replace-at?" | GetStacksBlockInfo => "get-stacks-block-info?"
  | GetTenureInfo => "get-tenure-info?" | ContractHash => "contract-hash?"
  | ToAscii => "to-ascii?" | RestrictAssets => "restrict-assets?"
  | AsContractSafe => "as-contract?" | AllowanceWithStx => "with-stx"
  | AllowanceWithFt => "with-ft" | AllowanceWithNft => "with-nft"
  | AllowanceWithStacking => "with-stacking" | AllowanceWithStaking => "with-staking"
  | AllowanceWithPox => "with-pox" | AllowanceAll => "with-all-assets-unsafe"
  | Secp256r1Verify => "secp256r1-verify" | VerifyMerkleProof => "verify-merkle-proof"
  | GetBitcoinTxOutput => "get-bitcoin-tx-output?" | Ed25519Verify => "ed25519-verify"
  | Secp256k1Decompress => "secp256k1-decompress?"
  end.

Definition ALL : list t :=
  [Add; Subtract; Multiply; Divide; CmpGeq; CmpLeq; CmpLess; CmpGreater; ToInt; ToUInt;
   Modulo; Power; Sqrti; Log2; BitwiseXor; And; Or; Not; Equals; If; Let; Map; Fold; Append;
   Concat; AsMaxLen; Len; ElementAt; ElementAtAlias; IndexOf; IndexOfAlias; BuffToIntLe;
   BuffToUIntLe; BuffToIntBe; BuffToUIntBe; IsStandard; PrincipalDestruct;
   PrincipalConstruct; StringToInt; StringToUInt; IntToAscii; IntToUtf8; ListCons; FetchVar;
   SetVar; FetchEntry; SetEntry; InsertEntry; DeleteEntry; TupleCons; TupleGet; TupleMerge;
   Begin; Hash160; Sha256; Sha512; Sha512Trunc256; Keccak256; Secp256k1Recover;
   Secp256k1Verify; Print; ContractCall; AsContract; ContractOf; PrincipalOf; AtBlock;
   GetBlockInfo; GetBurnBlockInfo; ConsError; ConsOkay; ConsSome; DefaultTo; Asserts;
   UnwrapRet; UnwrapErrRet; Unwrap; UnwrapErr; Match; TryRet; IsOkay; IsNone; IsErr; IsSome;
   Filter; GetTokenBalance; GetAssetOwner; TransferToken; TransferAsset; MintAsset;
   MintToken; GetTokenSupply; BurnToken; BurnAsset; GetStxBalance; StxTransfer;
   StxTransferMemo; StxBurn; StxGetAccount; BitwiseAnd; BitwiseOr; BitwiseNot; BitwiseLShift;
   BitwiseRShift; BitwiseXor2; Slice; ToConsensusBuff; FromConsensusBuff; ReplaceAt;
   GetStacksBlockInfo; GetTenureInfo; ContractHash; ToAscii; RestrictAssets; AsContractSafe;
   AllowanceWithStx; AllowanceWithFt; AllowanceWithNft; AllowanceWithStacking;
   AllowanceWithStaking; AllowanceWithPox; AllowanceAll; Secp256r1Verify; VerifyMerkleProof;
   GetBitcoinTxOutput; Ed25519Verify; Secp256k1Decompress].

Definition min_version (v : t) : ClarityVersion :=
  match v with
  | ElementAtAlias | IndexOfAlias | BuffToIntLe | BuffToUIntLe | BuffToIntBe | BuffToUIntBe
  | IsStandard | PrincipalDestruct | PrincipalConstruct | StringToInt | StringToUInt
  | IntToAscii | IntToUtf8 | GetBurnBlockInfo | StxTransferMemo | StxGetAccount
  | BitwiseAnd | BitwiseOr | BitwiseNot | BitwiseLShift | BitwiseRShift | BitwiseXor2
  | Slice | ToConsensusBuff | FromConsensusBuff | ReplaceAt => Clarity2
  | GetStacksBlockInfo | GetTenureInfo => Clarity3
  | ContractHash | ToAscii | RestrictAssets | AsContractSafe | AllowanceWithStx
  | AllowanceWithFt | AllowanceWithNft | AllowanceWithStacking | AllowanceAll
  | Secp256r1Verify => Clarity4
  | AllowanceWithStaking | AllowanceWithPox | VerifyMerkleProof | GetBitcoinTxOutput
  | Ed25519Verify | Secp256k1Decompress => Clarity6
  | _ => Clarity1
  end.

Definition max_version (v : t) : option ClarityVersion :=
  match v with
  | GetBlockInfo => Some Clarity2
  | AsContract => Some Clarity3
  | AtBlock => Some Clarity4
  | AllowanceWithStacking => Some Clarity5
  | _ => None
  end.
End NativeFunctions.

#[export] Instance NativeFunctions_enum : NamedEnum NativeFunctions.t :=
  {| enum_name := NativeFunctions.get_name; enum_all := NativeFunctions.ALL |}.
#[export] Instance NativeFunctions_versioned : VersionedEnum NativeFunctions.t :=
  {| enum_min := NativeFunctions.min_version; enum_max := NativeFunctions.max_version |}.

(** [variables.rs] *)
Module NativeVariables.
Inductive t :=
| ContractCaller | TxSender | BlockHeight | BurnBlockHeight | NativeNone | NativeTrue
| NativeFalse | TotalLiquidMicroSTX | Regtest | TxSponsor | Mainnet | ChainId
| StacksBlockHeight | TenureHeight | StacksBlockTime | CurrentContract.

Definition get_name (v : t) : string :=
  match v with
  | ContractCaller => "contract-caller" | TxSender => "tx-sender"
  | BlockHeight => "block-height" | BurnBlockHeight => "burn-block-height"
  | NativeNone => "none" | NativeTrue => "true" | NativeFalse => "false"
  | TotalLiquidMicroSTX => "stx-liquid-supply" | Regtest => "is-in-regtest"
  | TxSponsor => "tx-sponsor?" | Mainnet => "is-in-mainnet" | ChainId => "chain-id"
  | StacksBlockHeight => "stacks-block-height" | TenureHeight => "tenure-height"
  | StacksBlockTime => "stacks-block-time" | CurrentContract => "current-contract"
  end.

Definition ALL : list t :=
  [ContractCaller; TxSender; BlockHeight; BurnBlockHeight; NativeNone; NativeTrue;
   NativeFalse; TotalLiquidMicroSTX; Regtest; TxSponsor; Mainnet; ChainId; StacksBlockHeight;
   TenureHeight; StacksBlockTime; CurrentContract].

Definition min_version (v : t) : ClarityVersion :=
  match v with
  | TxSponsor | Mainnet | ChainId => Clarity2
  | StacksBlockHeight | TenureHeight => Clarity3
  | StacksBlockTime | CurrentContract => Clarity4
  | _ => Clarity1
  end.

Definition max_version (v : t) : option ClarityVersion :=
  match v with
  | BlockHeight => Some Clarity2
  | _ => None
  end.
End NativeVariables.

#[export] Instance NativeVariables_enum : NamedEnum NativeVariables.t :=
  {| enum_name := NativeVariables.get_name; enum_all := NativeVariables.ALL |}.
#[export] Instance NativeVariables_versioned : VersionedEnum NativeVariables.t :=
  {| enum_min := NativeVariables.min_version; enum_max := NativeVariables.max_version |}.

(** [functions/define.rs] *)
Module DefineFunctions.
Inductive t :=
| Constant | PrivateFunction | PublicFunction | ReadOnlyFunction | Map | PersistedVariable
| FungibleToken | NonFungibleToken | Trait | UseTrait | ImplTrait.

Definition get_name (v : t) : string :=
  match v with
  | Constant => "define-constant" | PrivateFunction => "define-private"
  | PublicFunction => "define-public" | ReadOnlyFunction => "define-read-only"
  | Map => "define-map" | PersistedVariable => "define-data-var"
  | FungibleToken => "define-fungible-token" | NonFungibleToken => "define-non-fungible-token"
  | Trait => "define-trait" | UseTrait => "use-trait" | ImplTrait => "impl-trait"
  end.

Definition ALL : list t :=
  [Constant; PrivateFunction; PublicFunction; ReadOnlyFunction; Map; PersistedVariable;
   FungibleToken; NonFungibleToken; Trait; UseTrait; ImplTrait].
End DefineFunctions.

#[export] Instance DefineFunctions_enum : NamedEnum DefineFunctions.t :=
  {| enum_name := DefineFunctions.get_name; enum_all := DefineFunctions.ALL |}.

(** [types/mod.rs] *)
Module BlockInfoProperty.
Inductive t :=
| Time | VrfSeed | HeaderHash | IdentityHeaderHash | BurnchainHeaderHash | MinerAddress
| MinerSpendWinner | MinerSpendTotal | BlockReward.

Definition get_name (v : t) : string :=
  match v with
  | Time => "time" | VrfSeed => "vrf-seed" | HeaderHash => "header-hash"
  | IdentityHeaderHash => "id-header-hash" | BurnchainHeaderHash => "burnchain-header-hash"
  | MinerAddress => "miner-address" | MinerSpendWinner => "miner-spend-winner"
  | MinerSpendTotal => "miner-spend-total" | BlockReward => "block-reward"
  end.

Definition ALL : list t :=
  [Time; VrfSeed; HeaderHash; IdentityHeaderHash; BurnchainHeaderHash; MinerAddress;
   MinerSpendWinner; MinerSpendTotal; BlockReward].

Definition min_version (v : t) : ClarityVersion :=
  match v with
  | MinerSpendWinner | MinerSpendTotal | BlockReward => Clarity2
  | _ => Clarity1
  end.

Definition max_version (v : t) : option ClarityVersion :=
  match v with
  | _ => None
  end.
End BlockInfoProperty.

#[export] Instance BlockInfoProperty_enum : NamedEnum BlockInfoProperty.t :=
  {| enum_name := BlockInfoProperty.get_name; enum_all := BlockInfoProperty.ALL |}.
#[export] Instance BlockInfoProperty_versioned : VersionedEnum BlockInfoProperty.t :=
  {| enum_min := BlockInfoProperty.min_version; enum_max := BlockInfoProperty.max_version |}.

(** [types/mod.rs] *)
Module BurnBlockInfoProperty.
Inductive t :=
| HeaderHash | PoxAddrs.

Definition get_name (v : t) : string :=
  match v with
  | HeaderHash => "header-hash" | PoxAddrs => "pox-addrs"
  end.

Definition ALL : list t :=
  [HeaderHash; PoxAddrs].
End BurnBlockInfoProperty.

#[export] Instance BurnBlockInfoProperty_enum : NamedEnum BurnBlockInfoProperty.t :=
  {| enum_name := BurnBlockInfoProperty.get_name; enum_all := BurnBlockInfoProperty.ALL |}.

(** [types/mod.rs] *)
Module StacksBlockInfoProperty.
Inductive t :=
| IndexHeaderHash | HeaderHash | Time.

Definition get_name (v : t) : string :=
  match v with
  | IndexHeaderHash => "id-header-hash" | HeaderHash => "header-hash" | Time => "time"
  end.

Definition ALL : list t :=
  [IndexHeaderHash; HeaderHash; Time].
End StacksBlockInfoProperty.

#[export] Instance StacksBlockInfoProperty_enum : NamedEnum StacksBlockInfoProperty.t :=
  {| enum_name := StacksBlockInfoProperty.get_name; enum_all := StacksBlockInfoProperty.ALL |}.

(** [types/mod.rs] *)
Module TenureInfoProperty.
Inductive t :=
| Time | VrfSeed | BurnchainHeaderHash | MinerAddress | MinerSpendWinner | MinerSpendTotal
| BlockReward.

Definition get_name (v : t) : string :=
  match v with
  | Time => "time" | VrfSeed => "vrf-seed" | BurnchainHeaderHash => "burnchain-header-hash"
  | MinerAddress => "miner-address" | MinerSpendWinner => "miner-spend-winner"
  | MinerSpendTotal => "miner-spend-total" | BlockReward => "block-reward"
  end.

Definition ALL : list t :=
  [Time; VrfSeed; BurnchainHeaderHash; MinerAddress; MinerSpendWinner; MinerSpendTotal;
   BlockReward].
End TenureInfoProperty.

#[export] Instance TenureInfoProperty_enum : NamedEnum TenureInfoProperty.t :=
  {| enum_name := TenureInfoProperty.get_name; enum_all := TenureInfoProperty.ALL |}.

(** ** Expressions *)

Inductive TraitDefinition :=
| Defined_ (t : TraitIdentifier)
| Imported (t : TraitIdentifier).

Inductive SymbolicExpression :=
| AtomValue (v : Value)
| Atom (name : ClarityName)
| ExprList (l : list SymbolicExpression)
| LiteralValue (v : Value)
| Field (t : TraitIdentifier)
| TraitReference (name : ClarityName) (t : TraitDefinition).

Definition match_list (e : SymbolicExpression) : option (list SymbolicExpression) :=
  match e with ExprList l => Some l | _ => None end.
Definition match_atom (e : SymbolicExpression) : option ClarityName :=
  match e with Atom name => Some name | _ => None end.
Definition match_literal_value (e : SymbolicExpression) : option Value :=
  match e with LiteralValue v => Some v | _ => None end.
Definition match_field (e : SymbolicExpression) : option TraitIdentifier :=
  match e with Field t => Some t | _ => None end.

(** [std::ascii::escape_default] *)
Definition escape_default (b : Z) : string :=
  let c := ascii_of_nat (Z.to_nat b) in
  let backslash := ascii_of_nat 92 in
  if b =? 9 then String backslash "t"
  else if b =? 13 then String backslash "r"
  else if b =? 10 then String backslash "n"
  else if (b =? 39) || (b =? 34) || (b =? 92) then String backslash (String c "")
  else if (32 <=? b) && (b <=? 126) then String c ""
  else String backslash (String "x" (to_hex [b])).

Definition quoted (s : string) : string :=
  String (ascii_of_nat 34) (s +:+ String (ascii_of_nat 34) "").

Definition ascii_to_string (data : list Z) : string :=
  quoted (foldl (fun s b => s +:+ escape_default b) "" data).

(** A character of one byte is shown as such; a character has a byte at least. *)
Definition utf8_char_to_string (c : list Z) : string :=
  match c with
  | [b] => escape_default b
  | _ => String (ascii_of_nat 92) ("u{" +:+ to_hex c +:+ "}")
  end.

Definition utf8_to_string (data : list (list Z)) : string :=
  "u" +:+ quoted (foldl (fun s c => s +:+ utf8_char_to_string c) "" data).

Section Rendering.
Context `{Sha256}.

Section Items.
Context (render : Value -> string).
Definition items_to_string (data : list Value) : string :=
  match data with
  | [] => ""
  | v :: rest => foldl (fun s x => s +:+ " " +:+ render x) (render v) rest
  end.
End Items.

(** [Display for Value] *)
Fixpoint value_to_string (v : Value) : string :=
  match v with
  | Int i => pretty i
  | UInt u => "u" +:+ pretty u
  | Bool b => if b then "true" else "false"
  | Tuple (mkTuple _ data_map) =>
      foldl (fun s f => s +:+ " (" +:+ f.1 +:+ " " +:+ value_to_string f.2 +:+ ")") "(tuple" data_map
      +:+ ")"
  | Principal p => principal_to_string p
  | Optional (Some x) => "(some " +:+ value_to_string x +:+ ")"
  | Optional None => "none"
  | Response true x => "(ok " +:+ value_to_string x +:+ ")"
  | Response false x => "(err " +:+ value_to_string x +:+ ")"
  | Sequence (Buffer data) => "0x" +:+ to_hex data
  | Sequence (String_ (CharASCII data)) => ascii_to_string data
  | Sequence (String_ (CharUTF8 data)) => utf8_to_string data
  | Sequence (List_ data _) => "(" +:+ items_to_string value_to_string data +:+ ")"
  | CallableContract c (Some t) =>
      "(" +:+ contract_to_string c +:+ " as <" +:+ trait_to_string t +:+ ">)"
  | CallableContract c None => contract_to_string c
  end.

(** [Display for SymbolicExpression] *)
Fixpoint expr_to_string (e : SymbolicExpression) : string :=
  match e with
  | ExprList l => foldl (fun s x => s +:+ " " +:+ expr_to_string x) "(" l +:+ " )"
  | Atom name => name
  | AtomValue v | LiteralValue v => value_to_string v
  | TraitReference name _ => "<" +:+ name +:+ ">"
  | Field t => "<" +:+ trait_to_string t +:+ ">"
  end.
End Rendering.

(** ** Errors shared with the static checks *)

Inductive SyntaxBindingErrorType := BindLet | BindEval | BindTupleCons.

Inductive SyntaxBindingError :=
| NotList (t : SyntaxBindingErrorType) (i : Z)
| InvalidBindingLength (t : SyntaxBindingErrorType) (i : Z)
| NotAtom (t : SyntaxBindingErrorType) (i : Z).

Inductive CommonCheckErrorKind :=
| CC_Cost (e : CostErrors)
| CC_ClarityType (e : ClarityTypeError)
| CC_ExpectedName
| CC_UnknownTypeName (name : string)
| CC_DefineFunctionBadSignature
| CC_BadSyntaxBinding (e : SyntaxBindingError)
| CC_RequiresAtLeastArguments (expected found : Z)
| CC_RequiresAtMostArguments (expected found : Z)
| CC_IncorrectArgumentCount (expected found : Z)
| CC_TooManyFunctionParameters (found allowed : Z)
| CC_ExpectedTraitIdentifier
| CC_DefineTraitBadSignature
| CC_DefineTraitDuplicateMethod (name : string)
| CC_TraitTooManyMethods (found allowed : Z).

(** [{:?}] of the derived [Debug] *)
Definition binding_type_debug (t : SyntaxBindingErrorType) : string :=
  match t with BindLet => "Let" | BindEval => "Eval" | BindTupleCons => "TupleCons" end.
Definition binding_error_to_string (e : SyntaxBindingError) : string :=
  match e with
  | NotList t i => "NotList(" +:+ binding_type_debug t +:+ ", " +:+ pretty i +:+ ")"
  | InvalidBindingLength t i =>
      "InvalidLength(" +:+ binding_type_debug t +:+ ", " +:+ pretty i +:+ ")"
  | NotAtom t i => "NotAtom(" +:+ binding_type_debug t +:+ ", " +:+ pretty i +:+ ")"
  end.

Definition runtime_check_from_cost (err : CostErrors) : RuntimeCheckErrorKind :=
  match err with
  | CE_CostOverflow => RC_CostOverflow
  | CE_CostBalanceExceeded a b => RC_CostBalanceExceeded a b
  | CE_MemoryBalanceExceeded a b => RC_MemoryBalanceExceeded a b
  | CE_CostComputationFailed s => RC_CostComputationFailed s
  | CE_CostContractLoadFailure => RC_CostComputationFailed "Failed to load cost contract"
  | CE_InterpreterFailure => RC_Unreachable "Unexpected interpreter failure in cost computation"
  | CE_Expect s => RC_Unreachable (bounded_format s)
  end.

Section Conversions.
Context `{Sha256} `{DebugText}.

Definition runtime_check_from_common (err : CommonCheckErrorKind) : RuntimeCheckErrorKind :=
  match err with
  | CC_Cost e => runtime_check_from_cost e
  | CC_ClarityType e => runtime_check_from_type e
  | CC_IncorrectArgumentCount expected args => RC_IncorrectArgumentCount expected args
  | CC_RequiresAtLeastArguments expected args =>
      RC_Unreachable (bounded_format ("Requires at least args: " +:+ pretty expected +:+ " got "
                                      +:+ pretty args))
  | CC_RequiresAtMostArguments expected args =>
      RC_Unreachable (bounded_format ("Requires at most args: " +:+ pretty expected +:+ " got "
                                      +:+ pretty args))
  | CC_TooManyFunctionParameters found allowed =>
      RC_Unreachable (bounded_format ("Too many function params: found " +:+ pretty found
                                      +:+ ", allowed " +:+ pretty allowed))
  | CC_ExpectedName => RC_Unreachable "Expected name"
  | CC_DefineFunctionBadSignature => RC_Unreachable "Define function bad signature"
  | CC_ExpectedTraitIdentifier => RC_Unreachable "Expected trait identifier"
  | CC_DefineTraitDuplicateMethod s =>
      RC_Unreachable (bounded_format ("Define trait duplicate method: " +:+ s))
  | CC_TraitTooManyMethods found allowed =>
      RC_Unreachable (bounded_format ("Trait too many methods: found " +:+ pretty found
                                      +:+ ", allowed " +:+ pretty allowed))
  | CC_DefineTraitBadSignature => RC_Unreachable "Define trait bad signature"
  | CC_BadSyntaxBinding e =>
      RC_Unreachable (bounded_format ("Bad syntax binding: " +:+ binding_error_to_string e))
  | CC_UnknownTypeName name => RC_Unreachable (bounded_format ("Unknown type name: " +:+ name))
  end.

Definition vm_from_common (err : CommonCheckErrorKind) : VmExecutionError :=
  RuntimeCheck (runtime_check_from_common err).
End Conversions.

(** ** Checks on the shape of arguments *)

Definition check_argument_count {A} (expected : Z) (args : list A)
    : result CommonCheckErrorKind unit :=
  if zlen args =? expected then Ok tt else Err (CC_IncorrectArgumentCount expected (zlen args)).

Definition check_arguments_at_least {A} (expected : Z) (args : list A)
    : result CommonCheckErrorKind unit :=
  if zlen args <? expected then Err (CC_RequiresAtLeastArguments expected (zlen args)) else Ok tt.

Definition check_arguments_at_most {A} (expected : Z) (args : list A)
    : result CommonCheckErrorKind unit :=
  if expected <? zlen args then Err (CC_RequiresAtMostArguments expected (zlen args)) else Ok tt.

(** A binding list is a list of pairs of a name and an expression. The handler
    is called on each pair before the next one is looked at. *)
Section Bindings.
Context {S E : Type} (from : CommonCheckErrorKind -> E) (binding_error_type : SyntaxBindingErrorType).
Context (handler : ClarityName -> SymbolicExpression -> M S E unit).

Fixpoint handle_bindings_from (i : Z) (bindings : list SymbolicExpression) : M S E unit :=
  match bindings with
  | [] => mret tt
  | binding :: rest =>
      binding_expression ←
        lift (ok_or (match_list binding)
                (from (CC_BadSyntaxBinding (NotList binding_error_type i))));
      match binding_expression with
      | [name_sexp; var_sexp] =>
          var_name ←
            lift (ok_or (match_atom name_sexp)
                    (from (CC_BadSyntaxBinding (NotAtom binding_error_type i))));
          handler var_name var_sexp;;
          handle_bindings_from (i + 1) rest
      | _ => throw (from (CC_BadSyntaxBinding (InvalidBindingLength binding_error_type i)))
      end
  end.

Definition handle_binding_list (bindings : list SymbolicExpression) : M S E unit :=
  handle_bindings_from 0 bindings.
End Bindings.
