(* ===== verification/Deserialization.v ===== *)
(** * Consensus deserialization of Clarity values

    The reading half of [clarity-types/src/types/serialization.rs]: a loop over
    an explicit stack of unfinished composite values that decodes a value from
    a bounded reader, checks it against an expected type and drops tuple
    fields that the type lacks; and the entry points built on it. *)

From Stdlib Require Import Ascii.
From S2P Require Import Prelude.
From S2P Require Import Bytes.
From S2P Require Import BTree.
From S2P Require Import Epochs.
From S2P Require Import Values.
From S2P Require Import Types.
From S2P Require Import Supertypes.
From S2P Require Import Serialization.
From S2P Require Import TypedValues.

(** ** The bounded reader: [BoundReader] over a byte slice *)

Record BoundReader := mkBoundReader {
  fd : list Z;
  max_len : Z;
  read_so_far : Z;
}.

Definition from_reader (bytes : list Z) (max : Z) : BoundReader := mkBoundReader bytes max 0.
Definition num_read (r : BoundReader) : Z := read_so_far r.

Abbreviation ReadM := (M BoundReader SerializationError).

Definition unexpected_eof : SerializationError := IOError "failed to fill whole buffer".

(** The bytes the reader can still deliver *)
Definition available (r : BoundReader) : nat :=
  Z.to_nat (Z.min (zlen (fd r)) (max_len r - read_so_far r)).

Definition advance (k : nat) (r : BoundReader) : BoundReader :=
  mkBoundReader (drop k (fd r)) (max_len r) (read_so_far r + Z.of_nat k).

(** [Read::read_exact]: reads until the buffer is full or a read returns no
    bytes; what was read before an error stays read. *)
Definition read_exact (n : nat) : ReadM (list Z) := fun r =>
  let k := Nat.min n (available r) in
  (if (k =? n)%nat then Ok (take n (fd r)) else Err unexpected_eof, advance k r).

(** [From<ClarityTypeError>] and [From<&str>] for [SerializationError] *)
Definition type_error {A} (r : TypeR A) : ReadM A := lift (map_err BadTypeError r).
Definition message {A B} (msg : string) (r : TypeR A) (f : A -> B) : ReadM B :=
  lift (match r with Ok a => Ok (f a) | Err _ => Err (DeserializationFailure msg) | Panic => Panic end).
Definition fail {A} (msg : string) : ReadM A := throw (DeserializationFailure msg).

(** ** Names and principals *)

Definition is_letter (b : Z) : bool := in_range 65 90 b || in_range 97 122 b.
Definition is_digit (b : Z) : bool := in_range 48 57 b.
Definition one_of (chars : string) (b : Z) : bool := existsb (Z.eqb b) (as_bytes chars).

(** [CLARITY_NAME_REGEX] with [MAX_STRING_LEN]:
    [^[a-zA-Z]([a-zA-Z0-9]|[-_!?+<>=/*])*$|^[-+=/*]$|^[<>]=?$] *)
Definition is_clarity_name (bs : list Z) : bool :=
  (Z.of_nat (length bs) <=? MAX_STRING_LEN) &&
  match bs with
  | [] => false
  | b :: rest =>
      is_letter b && forallb (fun c => is_letter c || is_digit c || one_of "-_!?+<>=/*" c) rest
      || one_of "-+=/*" b && bool_decide (rest = [])
      || one_of "<>" b && (bool_decide (rest = []) || bool_decide (rest = as_bytes "="))
  end.

(** [CONTRACT_NAME_REGEX] with [MAX_STRING_LEN]:
    [^([a-zA-Z](([a-zA-Z0-9]|[-_])){0,127})$|^__transient$] *)
Definition is_contract_name (bs : list Z) : bool :=
  (Z.of_nat (length bs) <=? MAX_STRING_LEN) &&
  match bs with
  | [] => false
  | b :: rest =>
      is_letter b && forallb (fun c => is_letter c || is_digit c || one_of "-_" c) rest
      || bool_decide (bs = as_bytes "__transient")
  end.

(** [ClarityName::deserialize_read], [ContractName::deserialize_read] *)
Definition name_deserialize_read (legal : list Z -> bool) : ReadM string :=
  len ← read_exact 1;
  let len := from_be_bytes len in
  if len >? MAX_STRING_LEN then fail "String too long"
  else
    data ← read_exact (Z.to_nat len);
    match utf8_chars data with
    | None => fail "Non-UTF8 string data"
    | Some _ => if legal data then mret (string_of_bytes data) else fail "Illegal Clarity string"
    end.

Definition clarity_name_deserialize_read : ReadM ClarityName := name_deserialize_read is_clarity_name.
Definition contract_name_deserialize_read : ReadM ContractName := name_deserialize_read is_contract_name.

Definition spd_deserialize_read : ReadM StandardPrincipalData :=
  version ← read_exact 1;
  data ← read_exact 20;
  lift (match StandardPrincipalData_new (from_be_bytes version) data with
        | Ok p => Ok p
        | Err _ => Err UnexpectedSerialization
        | Panic => Panic
        end).

(** [TypePrefix::from_u8] *)
Definition prefix_from_u8 (v : Z) : option TypePrefix :=
  match v with
  | 0 => Some PrefixInt
  | 1 => Some PrefixUInt
  | 2 => Some PrefixBuffer
  | 3 => Some PrefixBoolTrue
  | 4 => Some PrefixBoolFalse
  | 5 => Some PrefixPrincipalStandard
  | 6 => Some PrefixPrincipalContract
  | 7 => Some PrefixResponseOk
  | 8 => Some PrefixResponseErr
  | 9 => Some PrefixOptionalNone
  | 10 => Some PrefixOptionalSome
  | 11 => Some PrefixList
  | 12 => Some PrefixTuple
  | 13 => Some PrefixStringASCII
  | 14 => Some PrefixStringUTF8
  | _ => None
  end.

(** [PrincipalData::inner_consensus_deserialize] *)
Definition principal_inner_consensus_deserialize : ReadM PrincipalData :=
  header ← read_exact 1;
  match prefix_from_u8 (from_be_bytes header) with
  | Some PrefixPrincipalStandard => p ← spd_deserialize_read; mret (Standard p)
  | Some PrefixPrincipalContract =>
      issuer ← spd_deserialize_read;
      name ← contract_name_deserialize_read;
      mret (Contract (mkQualifiedContract issuer name))
  | _ => fail "Bad principal prefix"
  end.

(** ** The stack *)

Inductive ContractNameLimit := Legacy | Enforced.

Definition limit_from_epoch (epoch : StacksEpochId) : ContractNameLimit :=
  if enforces_contract_name_length_limit epoch then Enforced else Legacy.

Definition DESERIALIZATION_TYPE_CHECK_EPOCH : StacksEpochId := Epoch21.
Definition SANITIZATION_READ_BOUND : Z := 15000000.
Definition UNSANITIZED_DEPTH_CHECK : Z := 16.

Inductive DeserializeStackItem :=
| SList (items : list Value) (expected_len : Z) (expected_type : option ListTypeData)
| STuple (items : DataMap) (expected_len processed_entries : Z)
         (expected_type : option TupleTypeSignature) (next_name : ClarityName) (next_sanitize : bool)
| SOptionSome (inner_expected_type : option TypeSignature)
| SResponseOk (inner_expected_type : option TypeSignature)
| SResponseErr (inner_expected_type : option TypeSignature)
| STopLevel (expected_type : option TypeSignature).

Definition next_expected_type (item : DeserializeStackItem) :
  result SerializationError (option TypeSignature) :=
  match item with
  | SList _ _ expected_type => Ok (get_list_item_type <$> expected_type)
  | STuple _ _ _ expected_type next_name next_sanitize =>
      match expected_type with
      | None => Ok None
      | Some some_tuple =>
          if next_sanitize then Ok None
          else
            t ← ok_or (field_type some_tuple next_name) (DeserializeExpected (TupleType some_tuple));
            Ok (Some t)
      end
  | SOptionSome t | SResponseOk t | SResponseErr t | STopLevel t => Ok t
  end.

(** ** [TypeSignature::max_serialized_size] *)

(** The loop over the fields of a tuple type *)
Fixpoint add_serialized_sizes (size : TypeSignature -> TypeR Z) (total_size : Z)
    (type_map : TypeMap) : TypeR Z :=
  match type_map with
  | [] => Ok total_size
  | (key, value) :: type_map =>
      value_size ← size value;
      total_size ← ok_or (x ← u32_checked_add total_size 1;
                          x ← u32_checked_add x (name_len key);
                          u32_checked_add x value_size) TE_ValueTooLarge;
      add_serialized_sizes size total_size type_map
  end.

Fixpoint max_serialized_size (t : TypeSignature) : TypeR Z :=
  max_output_size ←
    match t with
    | NoType => Err TE_CouldNotDetermineSerializationType
    | IntType => Ok 16
    | UIntType => Ok 16
    | BoolType => Ok 0
    | SequenceType (ListType (mkListTypeData max_len entry_type _)) =>
        n ← max_serialized_size entry_type;
        ok_or (x ← u32_checked_mul max_len n; u32_checked_add x 4) TE_ValueTooLarge
    | SequenceType (BufferType buff_length) => ok_or (u32_checked_add buff_length 4) TE_ValueTooLarge
    | SequenceType (StringType (ASCII length)) => ok_or (u32_checked_add length 4) TE_ValueTooLarge
    | SequenceType (StringType (UTF8 length)) =>
        ok_or (x ← u32_checked_mul length 4; u32_checked_add x 4) TE_ValueTooLarge
    | PrincipalType | CallableType _ | TraitReferenceType _ => Ok (MAX_STRING_LEN + 21 + 1)
    | TupleType (mkTupleType type_map _) => add_serialized_sizes max_serialized_size 4 type_map
    | OptionalType some_type =>
        match max_serialized_size some_type with
        | Ok size => Ok size
        | Err TE_CouldNotDetermineSerializationType => Ok 0
        | Err e => Err e
        | Panic => Panic
        end
    | ResponseType ok_type err_type =>
        ok ← (match max_serialized_size ok_type with
              | Ok size => Ok (size, false)
              | Err TE_CouldNotDetermineSerializationType => Ok (0, true)
              | Err e => Err e
              | Panic => Panic
              end : TypeR (Z * bool));
        let '(ok_type_max_size, no_ok_type) := (ok : Z * bool) in
        err_type_max_size ←
          match max_serialized_size err_type with
          | Ok size => Ok size
          | Err TE_CouldNotDetermineSerializationType =>
              if no_ok_type then Err TE_CouldNotDetermineSerializationType else Ok 0
          | Err e => Err e
          | Panic => Panic
          end;
        Ok (Z.max ok_type_max_size err_type_max_size)
    | ListUnionType _ => Err TE_CouldNotDetermineSerializationType
    end;
  ok_or (u32_checked_add max_output_size 1) TE_ValueTooLarge.

(** ** The decoding loop *)

(** [check_match!] *)
Definition check_match (item : option TypeSignature) (pattern : TypeSignature -> bool) : ReadM unit :=
  match item with
  | None => mret tt
  | Some x => if pattern x then mret tt else throw (DeserializeExpected x)
  end.

Definition i128_from_be_bytes (bs : list Z) : Z :=
  let u := from_be_bytes bs in if u <=? i128_max then u else u - 2 ^ 128.

Definition read_u32 : ReadM Z := bs ← read_exact 4; mret (from_be_bytes bs).

(** The test of a length against an expected type of buffers or strings *)
Definition fits_buffer (len : Z) (t : TypeSignature) : bool :=
  match t with SequenceType (BufferType expected_len) => len <=? expected_len | _ => false end.
Definition fits_ascii (len : Z) (t : TypeSignature) : bool :=
  match t with SequenceType (StringType (ASCII expected_len)) => len <=? expected_len | _ => false end.
Definition fits_utf8 (value : TypeR Value) (t : TypeSignature) : bool :=
  match t, value with
  | SequenceType (StringType (UTF8 expected_len)), Ok (Sequence (String_ (CharUTF8 data))) =>
      zlen data <=? expected_len
  | _, _ => false
  end.

(** The type expected of the contents of a wrapper *)
Definition contained_type (inner : TypeSignature -> option TypeSignature)
    (expected_type : option TypeSignature) : ReadM (option TypeSignature) :=
  match expected_type with
  | None => mret None
  | Some x =>
      match inner x with
      | Some t => mret (Some t)
      | None => throw (DeserializeExpected x)
      end
  end.

Definition is_int_type (t : TypeSignature) : bool := match t with IntType => true | _ => false end.
Definition is_uint_type (t : TypeSignature) : bool := match t with UIntType => true | _ => false end.
Definition is_bool_type (t : TypeSignature) : bool := match t with BoolType => true | _ => false end.
Definition is_principal_type (t : TypeSignature) : bool :=
  match t with PrincipalType => true | _ => false end.
Definition is_optional_type (t : TypeSignature) : bool :=
  match t with OptionalType _ => true | _ => false end.

Definition some_type (t : TypeSignature) : option TypeSignature :=
  match t with OptionalType some_type => Some some_type | _ => None end.
Definition response_type (committed : bool) (t : TypeSignature) : option TypeSignature :=
  match t with
  | ResponseType ok_type err_type => Some (if committed then ok_type else err_type)
  | _ => None
  end.

Section Decoder.
Context (sanitize : bool) (behavior : TupleFieldsBehavior) (contract_name_limit : ContractNameLimit).

(** Whether the next field is absent from the expected type and to be dropped *)
Definition elided (expected_type : option TupleTypeSignature) (key : ClarityName) : bool :=
  sanitize && match expected_type with
              | Some ty => bool_decide (field_type ty key = None)
              | None => false
              end.

Definition finished_list (expected_type : option ListTypeData) (items : list Value) : ReadM Value :=
  message "Illegal list type"
    (match expected_type with
     | Some list_type => list_with_type DESERIALIZATION_TYPE_CHECK_EPOCH items list_type
     | None => cons_list_unsanitized items
     end) id.

Definition finished_tuple (expected_type : option TupleTypeSignature) (items : DataMap) : ReadM Value :=
  message "Illegal tuple type"
    (match expected_type with
     | Some tuple_type =>
         tuple_from_data_typed DESERIALIZATION_TYPE_CHECK_EPOCH items tuple_type behavior
     | None => tuple_from_data items
     end) Tuple.

Definition finished_wrapper (value : TypeR Value) : ReadM Value := message "Value too large" value id.

(** [let item = match prefix { ... }?]: a finished item, or the frame that
    [stack.push] pushes before [continue]. *)
Definition Item : Type := Value + DeserializeStackItem.
Definition item (v : Value) : ReadM Item := mret (inl v).
Definition push (frame : DeserializeStackItem) : ReadM Item := mret (inr frame).

Definition read_buffer (expected_type : option TypeSignature) : ReadM Value :=
  buffer_len ← read_u32;
  buffer_len ← type_error (BufferLength_try_from buffer_len);
  check_match expected_type (fits_buffer buffer_len);;
  data ← read_exact (Z.to_nat buffer_len);
  message "Bad buffer" (buff_from data) id.

Definition read_string_ascii (expected_type : option TypeSignature) : ReadM Value :=
  buffer_len ← read_u32;
  buffer_len ← type_error (BufferLength_try_from buffer_len);
  check_match expected_type (fits_ascii buffer_len);;
  data ← read_exact (Z.to_nat buffer_len);
  message "Bad string" (string_ascii_from_bytes data) id.

Definition read_string_utf8 (expected_type : option TypeSignature) : ReadM Value :=
  total_len ← read_u32;
  total_len ← type_error (BufferLength_try_from total_len);
  data ← read_exact (Z.to_nat total_len);
  let value := string_utf8_from_bytes data in
  check_match expected_type (fits_utf8 value);;
  message "Illegal string_utf8 type" value id.

Definition read_contract : ReadM Value :=
  issuer ← spd_deserialize_read;
  name ← contract_name_deserialize_read;
  match contract_name_limit with
  | Enforced =>
      if name_len name >? CONTRACT_MAX_NAME_LENGTH then fail "Contract name too long"
      else mret (Principal (Contract (mkQualifiedContract issuer name)))
  | Legacy => mret (Principal (Contract (mkQualifiedContract issuer name)))
  end.

Definition read_list (expected_type : option TypeSignature) : ReadM Item :=
  len ← read_u32;
  if len >? MAX_VALUE_SIZE then fail "Illegal list type"
  else
    list_type ←
      match expected_type with
      | None => mret None
      | Some (SequenceType (ListType list_type) as x) =>
          if len >? get_max_len list_type then throw (DeserializeExpected x)
          else mret (Some list_type)
      | Some x => throw (DeserializeExpected x)
      end;
    if len >? 0 then push (SList [] len list_type)
    else v ← finished_list list_type []; item v.

Definition read_tuple (expected_type : option TypeSignature) : ReadM Item :=
  len ← read_u32;
  if len >? MAX_VALUE_SIZE then fail "Illegal tuple type"
  else
    tuple_type ←
      match expected_type with
      | None => mret None
      | Some (TupleType tuple_type as x) =>
          if if sanitize then len <? tuple_type_len tuple_type
             else negb (len =? tuple_type_len tuple_type)
          then throw (DeserializeExpected x)
          else mret (Some tuple_type)
      | Some x => throw (DeserializeExpected x)
      end;
    if len >? 0 then
      first_key ← clarity_name_deserialize_read;
      push (STuple [] len 0 tuple_type first_key (elided tuple_type first_key))
    else v ← finished_tuple tuple_type []; item v.

(** The branches of the match *)
Definition read_body (expected_type : option TypeSignature) (prefix : TypePrefix) : ReadM Item :=
  match prefix with
  | PrefixInt =>
      check_match expected_type is_int_type;;
      buffer ← read_exact 16;
      item (Int (i128_from_be_bytes buffer))
  | PrefixUInt =>
      check_match expected_type is_uint_type;;
      buffer ← read_exact 16;
      item (UInt (from_be_bytes buffer))
  | PrefixBuffer => v ← read_buffer expected_type; item v
  | PrefixBoolTrue => check_match expected_type is_bool_type;; item (Bool true)
  | PrefixBoolFalse => check_match expected_type is_bool_type;; item (Bool false)
  | PrefixPrincipalStandard =>
      check_match expected_type is_principal_type;;
      p ← spd_deserialize_read;
      item (Principal (Standard p))
  | PrefixPrincipalContract =>
      check_match expected_type is_principal_type;;
      v ← read_contract; item v
  | PrefixResponseOk => t ← contained_type (response_type true) expected_type; push (SResponseOk t)
  | PrefixResponseErr => t ← contained_type (response_type false) expected_type; push (SResponseErr t)
  | PrefixOptionalNone => check_match expected_type is_optional_type;; item value_none
  | PrefixOptionalSome => t ← contained_type some_type expected_type; push (SOptionSome t)
  | PrefixList => read_list expected_type
  | PrefixTuple => read_tuple expected_type
  | PrefixStringASCII => v ← read_string_ascii expected_type; item v
  | PrefixStringUTF8 => v ← read_string_utf8 expected_type; item v
  end.

Definition read_item (expected_type : option TypeSignature) : ReadM Item :=
  header ← read_exact 1;
  prefix ← lift (ok_or (prefix_from_u8 (from_be_bytes header))
                       (DeserializationFailure "Bad type prefix"));
  read_body expected_type prefix.

(** One turn of the loop that hands a finished item to the top frame: the
    frame is completed and popped, or keeps waiting for its next item. *)
Definition finish_frame (item : Value) (frame : DeserializeStackItem) : ReadM Item :=
  match frame with
  | STopLevel _ => mret (inl item)
  | SList items expected_len expected_type =>
      let items := items ++ [item] in
      if expected_len <=? zlen items
      then v ← finished_list expected_type items; mret (inl v)
      else mret (inr (SList items expected_len expected_type))
  | STuple items expected_len processed_entries expected_type next_name next_sanitize =>
      let push_entry :=
        if sanitize then
          match expected_type with Some _ => negb next_sanitize | None => true end
        else true in
      let processed_entries := processed_entries + 1 in
      let pushed := if push_entry then items ++ [(next_name, item)] else items in
      if expected_len <=? processed_entries then
        match expected_type with
        | Some tuple_type => ensure (zlen pushed =? tuple_type_len tuple_type)
                                    (DeserializeExpected (TupleType tuple_type))
        | None => mret tt
        end;;
        v ← finished_tuple expected_type pushed; mret (inl v)
      else
        key ← clarity_name_deserialize_read;
        mret (inr (STuple pushed expected_len processed_entries expected_type key
                          (elided expected_type key)))
  | SOptionSome _ => v ← finished_wrapper (value_some item); mret (inl v)
  | SResponseOk _ => v ← finished_wrapper (value_okay item); mret (inl v)
  | SResponseErr _ => v ← finished_wrapper (value_error item); mret (inl v)
  end.

(** [while let Some(item) = finished_item.take()]: the value that the function
    returns, or the stack with which the outer loop goes on. The top of the
    stack is the head of the list. *)
Fixpoint finish_items (item : Value) (stack : list DeserializeStackItem) :
  ReadM (Value + list DeserializeStackItem) :=
  match stack with
  | [] => fail "Deserializer processed item, but deserializer stack does not expect another value"
  | STopLevel _ :: _ => mret (inl item)
  | frame :: stack =>
      x ← finish_frame item frame;
      match x with
      | inl item => finish_items item stack
      | inr frame => mret (inr (frame :: stack))
      end
  end.

Definition depth_check : Z := if sanitize then MAX_TYPE_DEPTH else UNSANITIZED_DEPTH_CHECK.

(** The outer loop; [Panic] only when the fuel runs out. *)
Fixpoint deserialize_loop (fuel : nat) (stack : list DeserializeStackItem) : ReadM Value :=
  match fuel with
  | O => panic
  | S fuel =>
      match stack with
      | [] => fail "Invalid data: stack ran out before finishing parsing"
      | frame :: rest =>
          if zlen stack >? depth_check then throw (BadTypeError TE_TypeSignatureTooDeep)
          else
            expected_type ← lift (next_expected_type frame);
            x ← read_item expected_type;
            match x with
            | inr frame => deserialize_loop fuel (frame :: stack)
            | inl item =>
                y ← finish_items item stack;
                match y with
                | inl v => mret v
                | inr stack => deserialize_loop fuel stack
                end
            end
      end
  end.

(** Every turn of the outer loop reads a byte. *)
Definition inner_deserialize_read (top_expected_type : option TypeSignature) : ReadM Value :=
  fun r => deserialize_loop (S (available r)) [STopLevel top_expected_type] r.
End Decoder.

(** ** Entry points *)

(** Reading from a byte slice: the state is the unread part of the slice. *)
Definition deserialize_read_count_with_options (expected_type : option TypeSignature)
    (sanitize : bool) (behavior : TupleFieldsBehavior) (limit : ContractNameLimit) :
  M (list Z) SerializationError (Value * Z) := fun bytes =>
  let bound :=
    match expected_type with
    | Some _ => if sanitize then SANITIZATION_READ_BOUND else BOUND_VALUE_SERIALIZATION_BYTES
    | None => BOUND_VALUE_SERIALIZATION_BYTES
    end in
  let '(value, bound_reader) :=
    inner_deserialize_read sanitize behavior limit expected_type (from_reader bytes bound) in
  (v ← value; Ok (v, num_read bound_reader), fd bound_reader).

Definition deserialize_read_count (expected_type : option TypeSignature) (sanitize : bool) :
  M (list Z) SerializationError (Value * Z) :=
  deserialize_read_count_with_options expected_type sanitize LEGACY Legacy.

Definition deserialize_read (expected_type : option TypeSignature) (sanitize : bool) :
  M (list Z) SerializationError Value :=
  x ← deserialize_read_count expected_type sanitize; mret x.1.

Definition try_deserialize_bytes (bytes : list Z) (expected : TypeSignature) (sanitize : bool) :
  result SerializationError Value :=
  fst (deserialize_read (Some expected) sanitize bytes).

Definition try_deserialize_bytes_at_epoch (bytes : list Z) (expected : TypeSignature)
    (epoch : StacksEpochId) : result SerializationError Value :=
  x ← fst (deserialize_read_count_with_options (Some expected) (value_sanitizing epoch)
             (behavior_from_epoch epoch) Legacy bytes);
  Ok x.1.

Definition bad_hex {A} (r : result HexError A) : result SerializationError A :=
  map_err (fun _ => DeserializationFailure "Bad hex string") r.

Definition try_deserialize_hex (hex : string) (expected : TypeSignature) (sanitize : bool) :
  result SerializationError Value :=
  data ← bad_hex (hex_bytes hex); try_deserialize_bytes data expected sanitize.

Definition try_deserialize_hex_at_epoch (hex : string) (expected : TypeSignature)
    (epoch : StacksEpochId) : result SerializationError Value :=
  data ← bad_hex (hex_bytes hex); try_deserialize_bytes_at_epoch data expected epoch.

Definition try_deserialize_bytes_exact_at_epoch (bytes : list Z) (expected : TypeSignature)
    (epoch : StacksEpochId) : result SerializationError Value :=
  x ← fst (deserialize_read_count_with_options (Some expected) (value_sanitizing epoch)
             (behavior_from_epoch epoch) (limit_from_epoch epoch) bytes);
  if negb (x.2 =? zlen bytes) then Err LeftoverBytesInDeserialization else Ok x.1.

Definition try_deserialize_bytes_untyped (bytes : list Z) : result SerializationError Value :=
  fst (deserialize_read None false bytes).

Definition strip_0x (hex : string) : string :=
  match hex with
  | String "0" (String "x" rest) => rest
  | _ => hex
  end.

Definition try_deserialize_hex_untyped (hex : string) : result SerializationError Value :=
  data ← bad_hex (hex_bytes (strip_0x hex)); try_deserialize_bytes_untyped data.

(** ** What reading consumes

    [consumes k m]: when [m] succeeds, at least [k] of the bytes that were
    available are gone. *)

Definition consumes {A} (k : nat) (m : ReadM A) : Prop :=
  forall r a r', m r = (Ok a, r') -> (available r' + k <= available r)%nat.

Create HintDb consumes.

Lemma available_advance k r : available (advance k r) = (available r - k)%nat.
Proof. unfold available, zlen. cbn. rewrite length_drop. lia. Qed.

Lemma advance_advance j k r : advance j (advance k r) = advance (k + j) r.
Proof. unfold advance. cbn. rewrite drop_drop. f_equal. lia. Qed.

Lemma consumes_read_exact n : consumes n (read_exact n).
Proof.
  intros r a r'. unfold read_exact. destruct (_ =? n)%nat eqn:E; [| done].
  apply Nat.eqb_eq in E. intros [= _ <-]. rewrite available_advance. lia.
Qed.

Lemma consumes_bind {A B} j k n (m : ReadM A) (f : A -> ReadM B) :
  (n <= j + k)%nat -> consumes j m -> (forall a, consumes k (f a)) -> consumes n (m ≫= f).
Proof.
  intros Hn Hm Hf r b r'. unfold mbind, M_bind. destruct (m r) as [[a | e |] r1] eqn:E; [| done ..].
  intros H. specialize (Hm _ _ _ E). specialize (Hf _ _ _ _ H). lia.
Qed.

Lemma consumes_ret {A} (a : A) : consumes 0 (mret a : ReadM A).
Proof. intros r b r' [= _ <-]. lia. Qed.

Lemma consumes_lift {A} (x : result SerializationError A) : consumes 0 (lift x : ReadM A).
Proof. intros r b r' [= _ <-]. lia. Qed.

Lemma consumes_throw {A} e k : consumes k (throw e : ReadM A).
Proof. intros r a r'. done. Qed.

Lemma consumes_then {A B} k (m : ReadM A) (f : A -> ReadM B) :
  consumes k m -> (forall a, consumes 0 (f a)) -> consumes k (m ≫= f).
Proof. intros. eapply consumes_bind; [| done ..]. lia. Qed.

Lemma consumes_after {A B} k (m : ReadM A) (f : A -> ReadM B) :
  consumes 0 m -> (forall a, consumes k (f a)) -> consumes k (m ≫= f).
Proof. intros. eapply consumes_bind; [| done ..]. lia. Qed.

Lemma consumes_weaken {A} j k (m : ReadM A) : (k <= j)%nat -> consumes j m -> consumes k m.
Proof. intros Hk H r a r' Hm. specialize (H _ _ _ Hm). lia. Qed.

Lemma consumes_read_some n : consumes 0 (read_exact n).
Proof. apply (consumes_weaken n); [lia | apply consumes_read_exact]. Qed.

#[export] Hint Resolve consumes_ret consumes_lift consumes_throw consumes_read_some : consumes.

(** Descends through a reading function all of whose steps consume nothing
    in particular. *)
Ltac consumes_nothing :=
  repeat (first
    [ solve [auto with consumes]
    | apply consumes_after; [| intros]
    | case_match ]).

Lemma consumes_name legal : consumes 0 (name_deserialize_read legal).
Proof. unfold name_deserialize_read, fail. consumes_nothing. Qed.
Lemma consumes_spd : consumes 0 spd_deserialize_read.
Proof. unfold spd_deserialize_read. consumes_nothing. Qed.
Lemma consumes_check_match t p : consumes 0 (check_match t p).
Proof. unfold check_match. consumes_nothing. Qed.
Lemma consumes_contained_type f t : consumes 0 (contained_type f t).
Proof. unfold contained_type. consumes_nothing. Qed.
#[export] Hint Resolve consumes_name consumes_spd consumes_check_match consumes_contained_type : consumes.

Section Consumption.
Context (sanitize : bool) (behavior : TupleFieldsBehavior) (limit : ContractNameLimit).

Lemma consumes_read_item t : consumes 1 (read_item sanitize behavior limit t).
Proof.
  unfold read_item, read_body. apply consumes_then; [apply consumes_read_exact | intros header].
  apply consumes_after; [auto with consumes | intros [] ];
    unfold read_buffer, read_string_ascii, read_string_utf8, read_contract, read_list, read_tuple,
      item, push, read_u32, finished_list, finished_tuple, message, type_error, fail,
      clarity_name_deserialize_read, contract_name_deserialize_read;
    consumes_nothing.
Qed.

Lemma consumes_finish_frame v frame : consumes 0 (finish_frame sanitize behavior v frame).
Proof.
  unfold finish_frame, finished_list, finished_tuple, finished_wrapper, message, ensure,
    clarity_name_deserialize_read. consumes_nothing.
Qed.

Lemma consumes_finish_items v stack : consumes 0 (finish_items sanitize behavior v stack).
Proof.
  revert v. induction stack as [| f stack IH]; intros v; cbn [finish_items]; [apply consumes_throw |].
  destruct f; [.. | apply consumes_ret];
    (apply consumes_after; [apply consumes_finish_frame | intros [|]; [apply IH | apply consumes_ret]]).
Qed.
End Consumption.

(** ** The specification: recursive descent

    What the loop with its explicit stack computes, as a recursion on the
    nesting depth that is left. *)

Section RecursiveDescent.
Context (sanitize : bool) (behavior : TupleFieldsBehavior) (limit : ContractNameLimit).

(** The items that a frame still waits for *)
Definition missing (frame : DeserializeStackItem) : nat :=
  match frame with
  | SList items expected_len _ => Z.to_nat (expected_len - zlen items)
  | STuple _ expected_len processed_entries _ _ _ => Z.to_nat (expected_len - processed_entries)
  | _ => 1
  end.

Fixpoint complete (decode : result SerializationError (option TypeSignature) -> ReadM Value)
    (n : nat) (frame : DeserializeStackItem) : ReadM Value :=
  match n with
  | O => panic
  | S n =>
      v ← decode (next_expected_type frame);
      x ← finish_frame sanitize behavior v frame;
      match x with
      | inl v => mret v
      | inr frame => complete decode n frame
      end
  end.

Fixpoint decode (depth : nat) (expected : result SerializationError (option TypeSignature)) :
  ReadM Value :=
  match depth with
  | O => throw (BadTypeError TE_TypeSignatureTooDeep)
  | S depth =>
      expected_type ← lift expected;
      x ← read_item sanitize behavior limit expected_type;
      match x with
      | inl v => mret v
      | inr frame => complete (decode depth) (missing frame) frame
      end
  end.

(** *** Frames *)

Definition composite (frame : DeserializeStackItem) : Prop :=
  match frame with STopLevel _ => False | _ => True end /\ missing frame <> O.

Lemma zlen_snoc {A} (l : list A) x : zlen (l ++ [x]) = zlen l + 1.
Proof. unfold zlen. rewrite length_app. cbn. lia. Qed.

Lemma finish_frame_waits v f f' r r' :
  finish_frame sanitize behavior v f r = (Ok (inr f'), r') ->
  composite f' /\ missing f = S (missing f').
Proof.
  destruct f as [items n ty | items n k ty key b | | | | ]; cbn [finish_frame missing].
  - case_match eqn:E; [by intros (? & ? & _ & [=])%M_bind_Ok |].
    intros [= <- _]. rewrite zlen_snoc in *. unfold composite. cbn [missing]. rewrite zlen_snoc. lia.
  - case_match eqn:E; [by intros (? & ? & _ & (? & ? & _ & [=])%M_bind_Ok)%M_bind_Ok |].
    intros (key' & r1 & _ & [= <- _])%M_bind_Ok. unfold composite. cbn [missing]. lia.
  - by intros (? & ? & _ & [=])%M_bind_Ok.
  - by intros (? & ? & _ & [=])%M_bind_Ok.
  - by intros (? & ? & _ & [=])%M_bind_Ok.
  - done.
Qed.

(** [yields P m]: whatever [m] returns satisfies [P]. *)
Definition yields {A} (P : A -> Prop) (m : ReadM A) : Prop :=
  forall r a r', m r = (Ok a, r') -> P a.

Lemma yields_bind {A B} (P : B -> Prop) (m : ReadM A) (f : A -> ReadM B) :
  (forall a, yields P (f a)) -> yields P (m ≫= f).
Proof. intros Hf r b r' (a & r1 & _ & H)%M_bind_Ok. by apply Hf in H. Qed.

Lemma yields_ret {A} (P : A -> Prop) a : P a -> yields P (mret a).
Proof. by intros Ha r b r' [= <- _]. Qed.

Lemma yields_throw {A} (P : A -> Prop) e : yields P (throw e).
Proof. by intros r a r'. Qed.

Lemma read_item_pushes t :
  yields (fun x => match x with inr f => composite f | inl _ => True end)
    (read_item sanitize behavior limit t).
Proof.
  assert (Hitem : forall v, yields (fun x => match x with inr f => composite f | inl _ => True end) (item v))
    by (intros v; by apply yields_ret).
  unfold read_item, read_body. apply yields_bind. intros h. apply yields_bind.
  intros []; unfold read_list, read_tuple, fail, push;
    repeat (first [ apply Hitem | apply yields_throw
                  | apply yields_ret; unfold composite; cbn [missing]; unfold zlen; cbn [length];
                    split; [done | lia]
                  | apply yields_bind; intros | case_match ]).
Qed.

(** *** The loop *)

Lemma finish_items_cons v f stack r :
  composite f ->
  finish_items sanitize behavior v (f :: stack) r =
  (x ← finish_frame sanitize behavior v f;
   match x with
   | inl v => finish_items sanitize behavior v stack
   | inr f => mret (inr (f :: stack))
   end) r.
Proof. by destruct f; intros [? _]. Qed.

Definition run (stack : list DeserializeStackItem) : ReadM Value :=
  fun r => deserialize_loop sanitize behavior limit (S (available r)) stack r.

(** What follows a turn of the outer loop *)
Definition resume (y : Value + list DeserializeStackItem) : ReadM Value :=
  match y with inl v => mret v | inr stack => run stack end.

(** Fuel above the bytes available is as good as any. *)
Lemma deserialize_loop_fuel fuel stack r :
  (available r < fuel)%nat -> deserialize_loop sanitize behavior limit fuel stack r = run stack r.
Proof.
  unfold run. remember (S (available r)) as n eqn:Hn.
  assert (Ha : (available r < n)%nat) by lia. clear Hn.
  revert n stack r Ha. induction fuel as [| fuel IH]; intros n stack r Ha Hr; [lia |].
  destruct n as [| n]; [lia |]. cbn [deserialize_loop]. destruct stack as [| f stack]; [done |].
  case_match; [done |]. unfold mbind, M_bind, lift.
  destruct (next_expected_type f) as [t | |]; [| done ..].
  destruct (read_item sanitize behavior limit t r) as [[x | |] r1] eqn:E; [| done ..].
  apply consumes_read_item in E. destruct x as [v | f'].
  - destruct (finish_items sanitize behavior v (f :: stack) r1) as [[[v' | stack'] | |] r2] eqn:E2; [done | | done ..].
    apply consumes_finish_items in E2. apply IH; lia.
  - apply IH; lia.
Qed.

Lemma run_cons f stack r :
  run (f :: stack) r =
  (if zlen (f :: stack) >? depth_check sanitize then throw (BadTypeError TE_TypeSignatureTooDeep)
   else
     t ← lift (next_expected_type f);
     x ← read_item sanitize behavior limit t;
     match x with
     | inl v => finish_items sanitize behavior v (f :: stack) ≫= resume
     | inr f' => run (f' :: f :: stack)
     end) r.
Proof.
  unfold run at 1. cbn [deserialize_loop]. case_match; [done |]. unfold mbind, M_bind, lift.
  destruct (next_expected_type f) as [t | |]; [| done ..].
  destruct (read_item sanitize behavior limit t r) as [[[v | f'] | |] r1] eqn:E; [| | done ..];
    apply consumes_read_item in E.
  - destruct (finish_items sanitize behavior v (f :: stack) r1) as [[[v' | stack'] | |] r2] eqn:E2; try done.
    apply consumes_finish_items in E2. apply deserialize_loop_fuel. lia.
  - apply deserialize_loop_fuel. lia.
Qed.

(** A frame on top of the stack is completed by recursive descent before the
    frames below it are touched. *)
Lemma run_completes depth f stack r :
  (forall f r, run (f :: stack) r =
     (decode depth (next_expected_type f) ≫=
      fun v => finish_items sanitize behavior v (f :: stack) ≫= resume) r) ->
  composite f ->
  run (f :: stack) r =
  (complete (decode depth) (missing f) f ≫=
   fun v => finish_items sanitize behavior v stack ≫= resume) r.
Proof.
  intros Hrun. remember (missing f) as n eqn:Hn. revert f r Hn.
  induction n as [| n IH]; intros f r Hn [Htop Hm]; [by destruct Hm |].
  rewrite Hrun. cbn [complete]. rewrite M_bind_assoc. apply M_bind_ext. intros v r1.
  rewrite (M_bind_cong _ _ _ _ (finish_items_cons v f stack r1 (conj Htop Hm))), !M_bind_assoc.
  apply M_bind_ext_run. intros [v' | f'] r2 E; [done |].
  apply finish_frame_waits in E as [Hc Hf]. apply IH; [lia | done].
Qed.

Lemma run_decodes depth f stack r :
  Z.of_nat depth = depth_check sanitize + 1 - zlen (f :: stack) ->
  run (f :: stack) r =
  (decode depth (next_expected_type f) ≫=
   fun v => finish_items sanitize behavior v (f :: stack) ≫= resume) r.
Proof.
  revert f stack r. induction depth as [| depth IH]; intros f stack r Hd; rewrite run_cons.
  { case_match eqn:E; [done | lia]. }
  case_match eqn:E; [lia |]. cbn [decode]. rewrite M_bind_assoc. apply M_bind_ext. intros t r1.
  rewrite M_bind_assoc. apply M_bind_ext_run. intros [v | f'] r2 Ei; [done |].
  apply read_item_pushes in Ei. apply run_completes; [| done].
  intros f'' r3. apply IH. unfold zlen in *. cbn [length] in *. lia.
Qed.
End RecursiveDescent.

(** ** Totality

    [tame m r]: run on [r], [m] does not panic, and what it reads is a prefix
    of the bytes available. *)

Definition tame {A} (m : ReadM A) (r : BoundReader) : Prop :=
  panic_free (fst (m r)) /\ exists k, (k <= available r)%nat /\ snd (m r) = advance k r.

Create HintDb tame.

Lemma advance_0 r : advance 0 r = r.
Proof. destruct r. unfold advance. cbn. f_equal. lia. Qed.

Lemma tame_stays {A} (x : result SerializationError A) r : panic_free x -> tame (lift x) r.
Proof. split; [done |]. exists 0%nat. rewrite advance_0. split; [lia | done]. Qed.

Lemma tame_ret {A} (a : A) r : tame (mret a : ReadM A) r.
Proof. by apply (tame_stays (Ok a)). Qed.

Lemma tame_throw {A} e r : tame (throw e : ReadM A) r.
Proof. by apply (tame_stays (Err e)). Qed.

Lemma tame_read_exact n r : tame (read_exact n) r.
Proof.
  split; [unfold read_exact; by case_match |].
  exists (Nat.min n (available r)). split; [lia | done].
Qed.

Lemma tame_bind {A B} (m : ReadM A) (f : A -> ReadM B) r :
  tame m r -> (forall a r1, m r = (Ok a, r1) -> tame (f a) r1) -> tame (m ≫= f) r.
Proof.
  intros [Hp (k & Hk & Hr)] Hf. unfold tame, mbind, M_bind.
  destruct (m r) as [[a | e |] r1]; cbn in *; [| by split; eauto | done].
  destruct (Hf a r1 eq_refl) as [? (j & Hj & ->)]. subst r1. split; [done |].
  exists (k + j)%nat. rewrite available_advance in Hj. rewrite advance_advance. split; [lia | done].
Qed.

Lemma tame_message {A B} msg (x : TypeR A) (f : A -> B) r : panic_free x -> tame (message msg x f) r.
Proof. intros Hx. apply tame_stays. by destruct x. Qed.

#[export] Hint Resolve tame_ret tame_throw tame_read_exact tame_stays tame_message : tame.
#[export] Hint Extern 1 (panic_free _) => panic_free : tame.

Ltac tame :=
  repeat (first
    [ solve [auto with tame]
    | apply tame_bind; [| intros]
    | case_match ]).

Lemma tame_name legal r : tame (name_deserialize_read legal) r.
Proof. unfold name_deserialize_read, fail. tame. Qed.
Lemma tame_spd r : tame spd_deserialize_read r.
Proof. unfold spd_deserialize_read, StandardPrincipalData_new. tame. Qed.
Lemma tame_check_match t p r : tame (check_match t p) r.
Proof. unfold check_match. tame. Qed.
Lemma tame_contained_type f t r : tame (contained_type f t) r.
Proof. unfold contained_type. tame. Qed.
#[export] Hint Resolve tame_name tame_spd tame_check_match tame_contained_type : tame.

Lemma panic_free_utf8 bs : panic_free (string_utf8_from_bytes bs).
Proof. unfold string_utf8_from_bytes, StringUTF8Length_try_from. panic_free. Qed.
#[export] Hint Resolve panic_free_utf8 : panic_free.

Section Totality.
Context (sanitize : bool) (behavior : TupleFieldsBehavior) (limit : ContractNameLimit).

Lemma tame_read_item t r : tame (read_item sanitize behavior limit t) r.
Proof.
  unfold read_item, read_body. apply tame_bind; [auto with tame | intros header r1 _].
  apply tame_bind; [auto with tame | intros [] r2 _ ];
    unfold read_buffer, read_string_ascii, read_string_utf8, read_contract, read_list, read_tuple,
      item, push, read_u32, finished_list, finished_tuple, type_error, fail, buff_from,
      string_ascii_from_bytes, BufferLength_try_from,
      clarity_name_deserialize_read, contract_name_deserialize_read, DESERIALIZATION_TYPE_CHECK_EPOCH;
    tame.
Qed.

Lemma tame_finish_frame v frame r : tame (finish_frame sanitize behavior v frame) r.
Proof.
  unfold finish_frame, finished_list, finished_tuple, finished_wrapper, ensure,
    value_some, value_okay, value_error,
    clarity_name_deserialize_read, DESERIALIZATION_TYPE_CHECK_EPOCH. tame.
Qed.

Lemma panic_free_next_expected_type f : panic_free (next_expected_type f).
Proof. unfold next_expected_type. panic_free. Qed.

Lemma tame_complete dec f r :
  (forall e r, panic_free e -> tame (dec e) r) -> composite f ->
  tame (complete sanitize behavior dec (missing f) f) r.
Proof.
  intros Hdec. remember (missing f) as n eqn:Hn. revert f r Hn.
  induction n as [| n IH]; intros f r Hn [Htop Hm]; [by destruct Hm |]. cbn [complete].
  apply tame_bind; [apply Hdec, panic_free_next_expected_type | intros v r1 _].
  apply tame_bind; [apply tame_finish_frame | intros [v' | f'] r2 E]; [apply tame_ret |].
  apply finish_frame_waits in E as [Hc Hf]. apply IH; [lia | done].
Qed.

Lemma tame_decode depth e r : panic_free e -> tame (decode sanitize behavior limit depth e) r.
Proof.
  revert e r. induction depth as [| depth IH]; intros e r He; cbn [decode]; [apply tame_throw |].
  apply tame_bind; [by apply tame_stays | intros t r1 _].
  apply tame_bind; [apply tame_read_item | intros [v | f] r2 Ei]; [apply tame_ret |].
  apply tame_complete; [done |]. by apply read_item_pushes in Ei.
Qed.

Lemma consumes_decode depth e : consumes 1 (decode sanitize behavior limit depth e).
Proof.
  revert e. induction depth as [| depth IH]; intros e; cbn [decode]; [apply consumes_throw |].
  apply consumes_after; [apply consumes_lift | intros t].
  apply consumes_then; [apply consumes_read_item | intros [v | f]]; [apply consumes_ret |].
  generalize (missing f) as n. intros n. revert f. induction n as [| n IHn]; intros f; cbn [complete]; [done |].
  apply consumes_after; [apply (consumes_weaken 1); [lia | apply IH] | intros v].
  apply consumes_after; [apply consumes_finish_frame | intros [|]; [apply consumes_ret | apply IHn]].
Qed.
End Totality.

(** ** Locality

    [local m]: what [m] returns does not depend on the bytes after those it
    reads. *)

Definition extend (s : list Z) (r : BoundReader) : BoundReader :=
  mkBoundReader (fd r ++ s) (max_len r) (read_so_far r).

Definition local {A} (m : ReadM A) : Prop :=
  forall r a r' s, m r = (Ok a, r') -> m (extend s r) = (Ok a, extend s r').

Create HintDb local.

Lemma local_ret {A} (a : A) : local (mret a : ReadM A).
Proof. by intros r b r' s [= <- <-]. Qed.
Lemma local_lift {A} (x : result SerializationError A) : local (lift x : ReadM A).
Proof. by intros r b r' s [= -> <-]. Qed.
Lemma local_throw {A} e : local (throw e : ReadM A).
Proof. by intros r a r' s. Qed.
Lemma local_panic {A} : local (panic : ReadM A).
Proof. by intros r a r' s. Qed.
Lemma local_message {A B} msg (x : TypeR A) (f : A -> B) : local (message msg x f).
Proof. apply local_lift. Qed.

Lemma local_bind {A B} (m : ReadM A) (f : A -> ReadM B) :
  local m -> (forall a, local (f a)) -> local (m ≫= f).
Proof.
  intros Hm Hf r b r' s (a & r1 & Ha & Hb)%M_bind_Ok.
  rewrite (M_bind_eval _ _ _ _ _ (Hm _ _ _ s Ha)). by apply Hf.
Qed.

Lemma local_read_exact n : local (read_exact n).
Proof.
  intros r a r' s. unfold read_exact. destruct (_ =? n)%nat eqn:E; [| done].
  apply Nat.eqb_eq in E. intros [= <- <-].
  assert (n <= length (fd r) /\ n <= available r)%nat as [Hl Ha] by (unfold available, zlen in *; lia).
  assert (n <= available (extend s r))%nat by (unfold available, zlen in *; cbn; rewrite length_app; lia).
  rewrite !Nat.min_l, Nat.eqb_refl by done. cbn. rewrite take_app_le by done. f_equal.
  unfold advance, extend. cbn. by rewrite drop_app_le.
Qed.

#[export] Hint Resolve local_ret local_lift local_throw local_panic local_message local_read_exact : local.

Ltac local :=
  repeat (first
    [ solve [auto with local]
    | apply local_bind; [| intros]
    | case_match ]).

Lemma local_name legal : local (name_deserialize_read legal).
Proof. unfold name_deserialize_read, fail. local. Qed.
Lemma local_spd : local spd_deserialize_read.
Proof. unfold spd_deserialize_read. local. Qed.
Lemma local_check_match t p : local (check_match t p).
Proof. unfold check_match. local. Qed.
Lemma local_contained_type f t : local (contained_type f t).
Proof. unfold contained_type. local. Qed.
#[export] Hint Resolve local_name local_spd local_check_match local_contained_type : local.

Section Locality.
Context (sanitize : bool) (behavior : TupleFieldsBehavior) (limit : ContractNameLimit).

Lemma local_read_item t : local (read_item sanitize behavior limit t).
Proof.
  unfold read_item, read_body. apply local_bind; [auto with local | intros header].
  apply local_bind; [auto with local | intros [] ];
    unfold read_buffer, read_string_ascii, read_string_utf8, read_contract, read_list, read_tuple,
      item, push, read_u32, finished_list, finished_tuple, type_error, fail,
      clarity_name_deserialize_read, contract_name_deserialize_read;
    local.
Qed.

Lemma local_finish_frame v frame : local (finish_frame sanitize behavior v frame).
Proof.
  unfold finish_frame, finished_list, finished_tuple, finished_wrapper, ensure,
    clarity_name_deserialize_read. local.
Qed.

Lemma local_decode depth e : local (decode sanitize behavior limit depth e).
Proof.
  revert e. induction depth as [| depth IH]; intros e; cbn [decode]; [apply local_throw |].
  apply local_bind; [apply local_lift | intros t].
  apply local_bind; [apply local_read_item | intros [v | f]]; [apply local_ret |].
  generalize (missing f) as n. intros n. revert f. induction n as [| n IHn]; intros f; cbn [complete];
    [apply local_panic |].
  apply local_bind; [apply IH | intros v].
  apply local_bind; [apply local_finish_frame | intros [|]; [apply local_ret | apply IHn]].
Qed.
End Locality.

Lemma inner_deserialize_read_decodes sanitize behavior limit expected fuel r :
  (available r < fuel)%nat ->
  deserialize_loop sanitize behavior limit fuel [STopLevel expected] r =
  decode sanitize behavior limit (Z.to_nat (depth_check sanitize)) (Ok expected) r.
Proof.
  intros Hf. rewrite deserialize_loop_fuel by done.
  rewrite (run_decodes _ _ _ (Z.to_nat (depth_check sanitize))) by by destruct sanitize.
  cbn [next_expected_type]. unfold mbind, M_bind.
  by destruct (decode _ _ _ _ _ r) as [[v | |] r1].
Qed.

Definition read_bound (expected_type : option TypeSignature) (sanitize : bool) : Z :=
  match expected_type with
  | Some _ => if sanitize then SANITIZATION_READ_BOUND else BOUND_VALUE_SERIALIZATION_BYTES
  | None => BOUND_VALUE_SERIALIZATION_BYTES
  end.

Lemma deserialize_read_count_run expected sanitize behavior limit bytes :
  deserialize_read_count_with_options expected sanitize behavior limit bytes =
  let '(x, r) := decode sanitize behavior limit (Z.to_nat (depth_check sanitize)) (Ok expected)
                   (from_reader bytes (read_bound expected sanitize)) in
  (v ← x; Ok (v, num_read r), fd r).
Proof.
  unfold deserialize_read_count_with_options, inner_deserialize_read.
  rewrite inner_deserialize_read_decodes by lia. done.
Qed.

Lemma deserialize_consumes expected sanitize behavior limit bytes :
  let '(x, rest) := deserialize_read_count_with_options expected sanitize behavior limit bytes in
  exists consumed, bytes = consumed ++ rest /\
    zlen consumed <= read_bound expected sanitize /\
    match x with
    | Ok (_, n) => n = zlen consumed /\ 0 < n
    | Err _ => True
    | Panic => False
    end.
Proof.
  rewrite deserialize_read_count_run. set (r := from_reader bytes _).
  pose proof (tame_decode sanitize behavior limit (Z.to_nat (depth_check sanitize)) (Ok expected) r
                (panic_free_Ok _)) as [Hp (k & Hk & Hr)].
  destruct (decode _ _ _ _ _ r) as [x r'] eqn:E. cbn in Hp, Hr. subst r'.
  exists (take k bytes). unfold available, zlen in Hk. cbn -[read_bound] in Hk.
  assert (0 <= read_bound expected sanitize) by by destruct expected, sanitize.
  split_and!; [exact (eq_sym (take_drop k bytes)) | unfold zlen; rewrite length_take; lia |].
  destruct x as [v | |]; [| done ..]. apply consumes_decode in E. rewrite available_advance in E.
  unfold available, zlen in *. cbn -[read_bound] in *. rewrite length_take. lia.
Qed.

(** More input does not change a result. *)
Lemma deserialize_local expected sanitize behavior limit bytes x rest s :
  deserialize_read_count_with_options expected sanitize behavior limit bytes = (Ok x, rest) ->
  deserialize_read_count_with_options expected sanitize behavior limit (bytes ++ s) = (Ok x, rest ++ s).
Proof.
  rewrite !deserialize_read_count_run. change (from_reader (bytes ++ s) ?b) with (extend s (from_reader bytes b)).
  destruct (decode _ _ _ _ _ (from_reader bytes _)) as [[v | |] r] eqn:E; [| done ..].
  rewrite (local_decode _ _ _ _ _ _ _ _ s E). cbn. by intros [= <- <-].
Qed.

(** ** Theorems *)

(** C7: The decoding loop with its explicit stack of unfinished lists, tuples,
    optionals and responses computes what a recursive descent over the grammar
    of values computes, on every input, with every expected type and mode, for
    every amount of fuel above the number of bytes available; the recursion
    is bounded by the depth limit, so the loop ends. *)
Theorem decoder_is_recursive_descent sanitize behavior limit expected fuel r :
  (available r < fuel)%nat ->
  deserialize_loop sanitize behavior limit fuel [STopLevel expected] r =
  decode sanitize behavior limit (Z.to_nat (depth_check sanitize)) (Ok expected) r.
Proof. apply inner_deserialize_read_decodes. Qed.

(** C30: Decoding is total on arbitrary bytes: it returns a value or an error
    and never panics; what it consumed is a prefix of the input, of exactly the
    reported length, no longer than the read bound, and not empty when there
    is a value. *)
Theorem decoding_is_total expected sanitize behavior limit bytes :
  let '(x, rest) := deserialize_read_count_with_options expected sanitize behavior limit bytes in
  exists consumed, bytes = consumed ++ rest /\
    zlen consumed <= read_bound expected sanitize /\
    match x with
    | Ok (_, n) => n = zlen consumed /\ 0 < n
    | Err _ => True
    | Panic => False
    end.
Proof. apply deserialize_consumes. Qed.

(** ** Witnesses *)

Lemma decoder_is_recursive_descent_witness :
  fst (deserialize_loop true LEGACY Legacy 50 [STopLevel None] (from_reader [10; 3; 255] 100))
  = Ok (Optional (Some (Bool true))).
Proof. rewrite decoder_is_recursive_descent by (vm_compute; lia). reflexivity. Defined.
