(* ===== verification/ValueRoundTrip.v ===== *)
(** * What is written can be read back

    The two halves of [clarity-types/src/types/serialization.rs] together: the
    length of a serialized value against its size and against
    [max_serialized_size], and the value that the decoder makes of it. *)

From Stdlib Require Import Ascii.
From S2P Require Import Prelude.
From S2P Require Import Bytes.
From S2P Require Import BTree.
From S2P Require Import Epochs.
From S2P Require Import Values.
From S2P Require Import Types.
From S2P Require Import Supertypes.
From S2P Require Import Serialization.
From S2P Require Import TypedValues.
From S2P Require Import Deserialization.

(** Proves a property of every element of a list from properties of its
    elements. *)
Ltac by_elements :=
  repeat match goal with H : Forall _ _ |- _ => rewrite Forall_forall in H end;
  apply Forall_forall.

(** ** Values whose leaves are well formed

    Integers and bytes in range, 20-byte hashes with a five-bit version, legal
    names: what Rust's types guarantee of them. *)

Definition all_bytes (bs : list Z) : bool := forallb (in_range 0 255) bs.

Definition principal_ok (p : StandardPrincipalData) : bool :=
  in_range 0 31 (spd_version p) && (length (spd_bytes p) =? 20)%nat && all_bytes (spd_bytes p).

Definition name_allowed (limit : ContractNameLimit) (name : ContractName) : bool :=
  match limit with Enforced => name_len name <=? CONTRACT_MAX_NAME_LENGTH | Legacy => true end.

Fixpoint wire_ok (limit : ContractNameLimit) (v : Value) : bool :=
  match v with
  | Int i => in_range i128_min i128_max i
  | UInt u => in_range 0 u128_max u
  | Bool _ | Optional None | Sequence (String_ _) => true
  | Sequence (Buffer data) => all_bytes data
  | Principal (Standard p) => principal_ok p
  | Principal (Contract c) =>
      principal_ok (issuer c) && is_contract_name (as_bytes (contract_name c))
      && name_allowed limit (contract_name c)
  | CallableContract _ _ => false
  | Optional (Some x) | Response _ x => wire_ok limit x
  | Sequence (List_ data _) => forallb (wire_ok limit) data
  | Tuple (mkTuple _ m) =>
      forallb (fun e => is_clarity_name (as_bytes e.1) && wire_ok limit e.2) m
  end.

Lemma wire_ok_list limit data lt :
  wire_ok limit (Sequence (List_ data lt)) = true <-> Forall (fun x => wire_ok limit x = true) data.
Proof. apply forallb_True_iff_Forall. Qed.

Lemma wire_ok_tuple limit ty m :
  wire_ok limit (Tuple (mkTuple ty m)) = true <->
  Forall (fun e => is_clarity_name (as_bytes e.1) = true /\ wire_ok limit e.2 = true) m.
Proof. cbn [wire_ok]. rewrite forallb_True_iff_Forall. apply Forall_iff. intros e. apply andb_true_iff. Qed.

(** ** Reading known bytes

    [reads m bs a]: on any input that starts with [bs] and a bound that allows
    them, [m] reads exactly [bs] and returns [a]. *)

Definition reads {A} (m : ReadM A) (bs : list Z) (a : A) : Prop :=
  forall r rest, fd r = bs ++ rest -> zlen bs <= max_len r - read_so_far r ->
  m r = (Ok a, advance (length bs) r).

Lemma reads_ret {A} (a : A) : reads (mret a) [] a.
Proof. intros r rest _ _. cbn [length]. by rewrite advance_0. Qed.

Lemma reads_lift {A} (a : A) : reads (lift (Ok a)) [] a.
Proof. apply reads_ret. Qed.

Lemma reads_bind {A B} (m : ReadM A) (f : A -> ReadM B) bs bs' a b :
  reads m bs a -> reads (f a) bs' b -> reads (m ≫= f) (bs ++ bs') b.
Proof.
  intros Hm Hf r rest Hr Hb. unfold zlen in *. rewrite length_app in Hb.
  rewrite <- app_assoc in Hr.
  assert (Z.of_nat (length bs) <= max_len r - read_so_far r) as Hb1 by lia.
  rewrite (M_bind_eval _ _ _ _ _ (Hm r (bs' ++ rest) Hr Hb1)).
  rewrite (Hf _ rest); [by rewrite advance_advance, length_app | |].
  - cbn. by rewrite Hr, drop_app_length.
  - unfold zlen. cbn. lia.
Qed.

(** Steps that read nothing, and last steps *)
Lemma reads_step {A B} (m : ReadM A) (f : A -> ReadM B) bs a b :
  reads m [] a -> reads (f a) bs b -> reads (m ≫= f) bs b.
Proof. intros Hm Hf. exact (reads_bind m f [] bs a b Hm Hf). Qed.

Lemma reads_last {A B} (m : ReadM A) (f : A -> ReadM B) bs a b :
  reads m bs a -> reads (f a) [] b -> reads (m ≫= f) bs b.
Proof. intros Hm Hf. rewrite <- (app_nil_r bs). by apply (reads_bind m f bs [] a b). Qed.

Lemma reads_cons {A B} (m : ReadM A) (f : A -> ReadM B) x bs a b :
  reads m [x] a -> reads (f a) bs b -> reads (m ≫= f) (x :: bs) b.
Proof. apply (reads_bind m f [x] bs). Qed.

Lemma reads_exact bs n : length bs = n -> reads (read_exact n) bs bs.
Proof.
  intros <- r rest Hr Hb. unfold read_exact, zlen in *.
  replace (Nat.min (length bs) (available r)) with (length bs).
  - by rewrite Nat.eqb_refl, Hr, take_app_length.
  - unfold available, zlen. rewrite Hr, length_app. lia.
Qed.

Lemma reads_u32 n : is_u32 n -> reads read_u32 (to_be_bytes 4 n) n.
Proof.
  intros Hn. unfold read_u32. eapply reads_last; [by apply reads_exact |].
  rewrite from_to_be_bytes; [apply reads_ret | cbn; ints].
Qed.

Lemma check_match_reads t p : (forall x, t = Some x -> p x = true) -> reads (check_match t p) [] tt.
Proof.
  intros H. unfold check_match. destruct t as [x |]; [rewrite (H x eq_refl) |]; apply reads_ret.
Qed.

Lemma message_reads {A B} msg (x : TypeR A) (f : A -> B) a : x = Ok a -> reads (message msg x f) [] (f a).
Proof. intros ->. apply reads_lift. Qed.

(** *** Integers and names *)

Lemma i128_from_to_be_bytes i :
  i128_min <= i <= i128_max -> i128_from_be_bytes (to_be_bytes 16 i) = i.
Proof.
  intros Hi. unfold i128_from_be_bytes. rewrite to_be_bytes_mod. change (256 ^ Z.of_nat 16) with (2 ^ 128).
  rewrite from_to_be_bytes by (change (256 ^ Z.of_nat 16) with (2 ^ 128); by apply Z.mod_pos_bound).
  unfold i128_min, i128_max in *. destruct (Z.leb_spec 0 i).
  - rewrite Z.mod_small by lia. destruct (Z.leb_spec i (2 ^ 127 - 1)); lia.
  - replace (i mod 2 ^ 128) with (i + 2 ^ 128)
      by (rewrite <- (Z.mod_add i 1) by done; rewrite Z.mod_small; lia).
    destruct (Z.leb_spec (i + 2 ^ 128) (2 ^ 127 - 1)); lia.
Qed.

Definition ascii_only (bs : list Z) : Prop := Forall (fun b => 0 <= b <= 127) bs.

Lemma forallb_in_range lo hi bs :
  forallb (in_range lo hi) bs = true -> Forall (fun b => lo <= b <= hi) bs.
Proof. rewrite forallb_True_iff_Forall. intros H. eapply Forall_impl; [exact H |]. intros b. apply in_range_spec. Qed.

Lemma one_of_ascii chars b :
  forallb (in_range 0 127) (as_bytes chars) = true -> one_of chars b = true -> 0 <= b <= 127.
Proof.
  rewrite forallb_forall. intros Ha (x & Hx & ->%Z.eqb_eq)%existsb_exists.
  by apply in_range_spec, Ha.
Qed.

Ltac char_classes :=
  unfold is_letter, is_digit in *;
  repeat match goal with
  | H : _ || _ = true |- _ => apply orb_prop in H as [H | H]
  | H : one_of _ _ = true |- _ => apply one_of_ascii in H; [| reflexivity]
  end; ints.

(** The characters of names *)
Definition name_char (b : Z) : bool := is_letter b || is_digit b || one_of "-_!?+<>=/*" b.

Lemma name_char_of s b : forallb (one_of "-_!?+<>=/*") (as_bytes s) = true -> one_of s b = true -> name_char b = true.
Proof.
  intros Hs Hb. unfold name_char. apply orb_true_iff. right. unfold one_of in Hb at 1.
  apply existsb_exists in Hb as (x & Hx & ->%Z.eqb_eq). rewrite forallb_forall in Hs. by apply Hs.
Qed.

Lemma legal_name_chars bs :
  is_clarity_name bs = true \/ is_contract_name bs = true -> Forall (fun b => name_char b = true) bs.
Proof.
  assert (Hb : forall b, is_letter b = true -> name_char b = true) by (intros b E; unfold name_char; by rewrite E).
  intros [H | H]; unfold is_clarity_name, is_contract_name in H;
    apply andb_true_iff in H as [_ H]; destruct bs as [| b rest]; [done | | done |].
  - repeat (apply orb_prop in H as [H | H]); apply andb_true_iff in H as [Hc H].
    + constructor; [by apply Hb |]. by apply forallb_True_iff_Forall in H.
    + apply bool_decide_eq_true in H as ->. constructor; [by eapply name_char_of, Hc | constructor].
    + apply orb_prop in H as [->%bool_decide_eq_true | ->%bool_decide_eq_true];
        (constructor; [by eapply name_char_of, Hc |]); by repeat constructor.
  - apply orb_prop in H as [[Hc H]%andb_true_iff | ->%bool_decide_eq_true]; [| by repeat constructor].
    constructor; [by apply Hb |]. apply forallb_True_iff_Forall in H. eapply Forall_impl; [exact H |].
    intros c Hx. cbv beta in Hx. apply orb_prop in Hx as [Hx | Hx]; [unfold name_char; by rewrite Hx |].
    by eapply name_char_of, Hx.
Qed.

Lemma legal_name_ascii bs :
  is_clarity_name bs = true \/ is_contract_name bs = true -> ascii_only bs /\ zlen bs <= MAX_STRING_LEN.
Proof.
  intros H. split.
  - eapply Forall_impl; [exact (legal_name_chars bs H) |]. intros c Hc. unfold name_char in Hc. char_classes.
  - destruct H as [H | H]; unfold is_clarity_name, is_contract_name in H;
      apply andb_true_iff in H as [Hl _]; by apply Z.leb_le in Hl.
Qed.

Lemma utf8_chars_ascii bs : ascii_only bs -> utf8_chars bs = Some ((fun b => [b]) <$> bs).
Proof.
  induction 1 as [| b bs Hb _ IH]; [done |]. cbn.
  rewrite (proj2 (in_range_spec 0 127 b)) by lia. by rewrite IH.
Qed.

Lemma name_reads legal name :
  (forall bs, legal bs = true -> ascii_only bs /\ zlen bs <= MAX_STRING_LEN) ->
  legal (as_bytes name) = true -> reads (name_deserialize_read legal) (name_bytes name) name.
Proof.
  intros Hlegal Hn. destruct (Hlegal _ Hn) as [Ha Hl]. unfold zlen in Hl. rewrite as_bytes_length in Hl.
  unfold name_deserialize_read, name_bytes. eapply reads_cons; [by apply reads_exact |].
  cbn [from_be_bytes fold_left]. rewrite Z.add_0_l.
  destruct (Z.gtb_spec (Z.of_nat (String.length name)) MAX_STRING_LEN); [lia |].
  eapply reads_last; [apply reads_exact; rewrite as_bytes_length; lia |].
  rewrite utf8_chars_ascii, Hn, string_of_as_bytes by done. apply reads_ret.
Qed.

(** ** Values that fit a type, annotations included

    What the decoder builds for an expected type: its own type is no larger
    and no deeper than the expected one. *)

Definition smaller (s t : TypeSignature) : Prop :=
  exists x y, inner_size s = Some x /\ inner_size t = Some y /\ 0 <= x <= y /\ depth s <= depth t.

Lemma smaller_refl t : valid_type t = true -> smaller t t.
Proof.
  intros Hv. destruct (valid_inner_size t Hv) as (x & Hx & ? & _). exists x, x. split_and!; done || lia.
Qed.

Lemma smaller_none t : valid_type t = true -> smaller NoType t.
Proof.
  intros Hv. destruct (valid_inner_size t Hv) as (x & Hx & ? & _).
  destruct (inner_min_size_le t Hv x Hx) as (mn & _ & ?). pose proof (depth_pos t).
  exists 1, x. split_and!; done || lia.
Qed.

Lemma smaller_option s t :
  valid_type (OptionalType t) = true -> smaller s t ->
  new_option s = Ok (OptionalType s) /\ smaller (OptionalType s) (OptionalType t).
Proof.
  intros [_ (_ & Hdt & y' & Hy' & Hlt)%new_option_Ok]%valid_option (x & y & Hx & Hy & Hle & Hd).
  assert (y' = y) as -> by congruence. split.
  - apply new_option_Ok. split_and!; [done | lia |]. exists x. split; [done | lia].
  - exists (x + WRAPPER_VALUE_SIZE), (y + WRAPPER_VALUE_SIZE). cbn [inner_size depth]. rewrite Hx, Hy. cbn.
    split_and!; try (apply checked_Some); ints.
Qed.

Lemma smaller_response s f t e :
  valid_type (ResponseType t e) = true -> smaller s t -> smaller f e ->
  new_response s f = Ok (ResponseType s f) /\ smaller (ResponseType s f) (ResponseType t e).
Proof.
  intros (_ & _ & (_ & Hdt & Hde & y & y' & Hy & Hy' & ? & ?)%new_response_Ok)%valid_response
    (x & y0 & Hx & Hy0 & Hle & Hd) (x' & y0' & Hx' & Hy0' & Hle' & Hd').
  assert (y0 = y) as -> by congruence. assert (y0' = y') as -> by congruence. split.
  - apply new_response_Ok. split_and!; [done | lia | lia |]. exists x, x'. split_and!; done || lia.
  - exists (Z.max x x' + WRAPPER_VALUE_SIZE), (Z.max y y' + WRAPPER_VALUE_SIZE).
    cbn [inner_size depth]. rewrite Hx, Hx', Hy, Hy'. cbn.
    split_and!; try (apply checked_Some); ints.
Qed.

Definition within (t : TypeSignature) (v : Value) : Prop :=
  typed v = true /\ exists s, type_of v = Ok s /\ adm t s /\ smaller s t.

Lemma within_admitted t v : within t v -> typed v = true /\ admitted t v = true.
Proof. intros (Hv & s & Hs & Ha & _). split; [done |]. apply admitted_spec. by exists s. Qed.

Lemma within_self t v : typed v = true -> type_of v = Ok t -> valid_data t = true -> within t v.
Proof.
  intros Hv Ht [Hval Hd]%andb_true_iff. split; [done |]. exists t.
  split_and!; [done | by apply adm_refl | by apply smaller_refl].
Qed.

Lemma within_data t v s : within t v -> type_of v = Ok s -> valid_type s = true /\ data_type s = true.
Proof. intros [Hv _] Hs. destruct (typed_type_of v Hv) as (s' & ? & ? & ?). by assert (s' = s) as -> by congruence. Qed.

Lemma within_none t : valid_type (OptionalType t) = true -> within (OptionalType t) value_none.
Proof.
  intros Hv. split; [done |]. exists (OptionalType NoType). split_and!; [done | done |].
  apply smaller_option; [done |]. apply smaller_none. by apply valid_option in Hv as [? _].
Qed.

Lemma within_some t v :
  within t v -> valid_type (OptionalType t) = true ->
  value_some v = Ok (Optional (Some v)) /\ within (OptionalType t) (Optional (Some v)).
Proof.
  intros Hw Hval. destruct (Hw) as (Hv & s & Hs & Ha & Hb).
  destruct (within_data t v s Hw Hs) as [Hvs Hds].
  destruct (smaller_option s t Hval Hb) as [Hopt Hbo].
  assert (is_ok (check_wrapped v) = true) as Hc by by apply (check_wrapped_Ok v s).
  split; [by apply value_some_Ok |]. split; [by apply typed_some |].
  exists (OptionalType s). cbn [type_of]. rewrite Hs. cbn. rewrite Hopt.
  split_and!; [done | | done]. apply adm_option; by right.
Qed.

Lemma within_response (c : bool) t e v :
  within (if c then t else e) v -> valid_type (ResponseType t e) = true ->
  (if c then value_okay v else value_error v) = Ok (Response c v) /\
  within (ResponseType t e) (Response c v).
Proof.
  intros Hw Hval. destruct (Hw) as (Hv & s & Hs & Ha & Hb).
  destruct (within_data _ v s Hw Hs) as [Hvs Hds].
  pose proof Hval as (Hvt & Hve & _)%valid_response.
  assert (exists sk fk, (if c then sk = s /\ fk = NoType else sk = NoType /\ fk = s) /\
    smaller sk t /\ smaller fk e) as (sk & fk & Hsf & Hbs & Hbf).
  { destruct c; [exists s, NoType | exists NoType, s]; split_and!; try done; by apply smaller_none. }
  destruct (smaller_response sk fk t e Hval Hbs Hbf) as [Hresp Hbr].
  assert (is_ok (check_wrapped v) = true) as Hc.
  { apply (check_wrapped_Ok v s); [done .. |]. apply new_option_Ok.
    apply new_response_Ok in Hresp as (_ & ? & ? & x & y & Hx & Hy & ? & ?).
    split; [done |]. destruct c, Hsf as [-> ->]; eauto. }
  split; [destruct c; [by apply value_okay_Ok | by apply value_error_Ok] |].
  split; [by apply typed_response |]. exists (ResponseType sk fk). cbn [type_of]. rewrite Hs.
  cbn -[new_response].
  split_and!; [destruct c, Hsf as [-> ->]; by rewrite Hresp | | done].
  apply adm_response; [| destruct c, Hsf as [-> ->]; (split; [by (left + right) | by (left + right)])].
  apply data_response. destruct c, Hsf as [-> ->]; (split_and!; [by (left + right) .. |]);
    intros [? ?]; by subst.
Qed.

Lemma smaller_flat s t :
  valid_type s = true -> valid_type t = true -> data_type s = true -> adm t s ->
  match s with
  | SequenceType (ListType _) | TupleType _ | OptionalType _ | ResponseType _ _ => false
  | _ => true
  end = true -> smaller s t.
Proof.
  intros Hs Ht Hd Ha Hflat. pose proof (adm_inv t s Hd Ha) as Hinv.
  destruct s as [| | | |[n|l|[n|n]]| |?|?|? ?|c|l|i]; try done;
    try (subst t; by apply smaller_refl);
    destruct Hinv as (k & -> & Hk); cbn in Hs, Ht; apply in_range_spec in Hs, Ht.
  - exists (SEQUENCE_LENGTH_PREFIX + n), (SEQUENCE_LENGTH_PREFIX + k).
    split_and!; cbn [inner_size depth]; try (apply checked_Some); ints.
  - exists (SEQUENCE_LENGTH_PREFIX + n), (SEQUENCE_LENGTH_PREFIX + k).
    split_and!; cbn [inner_size depth]; try (apply checked_Some); ints.
  - change MAX_UTF8_VALUE_SIZE with 262144 in *.
    exists (UTF8_CHAR_SIZE * n + SEQUENCE_LENGTH_PREFIX), (UTF8_CHAR_SIZE * k + SEQUENCE_LENGTH_PREFIX).
    split_and!; [| | ints | ints | done]; cbn [inner_size]; apply bind_Some.
    + exists (UTF8_CHAR_SIZE * n). split; apply checked_Some; ints.
    + exists (UTF8_CHAR_SIZE * k). split; apply checked_Some; ints.
Qed.

Lemma leaf_within t v :
  is_leaf v = true -> typed v = true -> valid_data t = true -> admitted t v = true -> within t v.
Proof.
  intros Hl Hv [Hval Hd]%andb_true_iff (s & Hs & Ha)%admitted_spec. split; [done |].
  exists s. split_and!; [done | done |].
  destruct (typed_type_of v Hv) as (s' & Hs' & Hvs & Hds).
  assert (s' = s) as -> by congruence. apply smaller_flat; try done.
  destruct v as [| | |[data | | [data | data]]| | | | | ]; try done;
    try (injection Hs as <-; done); by apply result_bind_Ok in Hs as (n & _ & [= <-]).
Qed.

(** ** UTF-8 strings, character by character *)

Lemma utf8_chars_cons c rest :
  utf8_chars c = Some [c] ->
  (length c <= 4)%nat /\ utf8_chars (c ++ rest) = (cs ← utf8_chars rest; Some (c :: cs)).
Proof.
  destruct c as [| b0 r0]; [done |]. cbn [utf8_chars app].
  destruct (in_range 0 127 b0) eqn:E0.
  { intros (cs & _ & [= Hc Hcs])%bind_Some. subst. split; [cbn; lia | done]. }
  destruct r0 as [| b1 r1]; [done |]. cbn [app].
  destruct (in_range 194 223 b0 && utf8_cont b1) eqn:E1.
  { intros (cs & _ & [= Hc Hcs])%bind_Some. subst. split; [cbn; lia | done]. }
  destruct r1 as [| b2 r2]; [done |]. cbn [app]. case_match eqn:E2.
  { intros (cs & _ & [= Hc Hcs])%bind_Some. subst. split; [cbn; lia | done]. }
  destruct r2 as [| b3 r3]; [done |]. cbn [app]. case_match eqn:E3; [| done].
  intros (cs & _ & [= Hc Hcs])%bind_Some. subst. split; [cbn; lia | done].
Qed.

Lemma utf8_chars_concat data :
  Forall (fun c => utf8_chars c = Some [c]) data ->
  utf8_chars (concat data) = Some data /\ zlen (concat data) <= 4 * zlen data.
Proof.
  unfold zlen. induction 1 as [| c data Hc _ [IH IHl]]; [done |].
  destruct (utf8_chars_cons c (concat data) Hc) as [Hl He]. cbn [concat].
  rewrite He, IH, length_app. cbn [length]. split; [done | lia].
Qed.

Lemma typed_utf8 data :
  typed (Sequence (String_ (CharUTF8 data))) = true ->
  utf8_chars (concat data) = Some data /\ zlen data <= MAX_UTF8_VALUE_SIZE /\
  zlen (concat data) <= MAX_VALUE_SIZE.
Proof.
  cbn [typed]. rewrite andb_true_iff, Z.leb_le, forallb_True_iff_Forall.
  setoid_rewrite bool_decide_eq_true. intros [Hl Hd].
  apply utf8_chars_concat in Hd as [Hd Hc]. split_and!; [done | done |].
  change MAX_UTF8_VALUE_SIZE with 262144 in Hl. unfold MAX_VALUE_SIZE. lia.
Qed.

(** ** Lists and tuples of admitted items *)

Lemma list_with_type_Ok data lt :
  Forall (fun x => admitted (get_list_item_type lt) x = true) data -> zlen data <= get_max_len lt ->
  list_with_type Epoch21 data lt = Ok (Sequence (List_ data lt)).
Proof.
  intros Hd Hl. unfold list_with_type. destruct (Z.ltb_spec (get_max_len lt) (zlen data)); [lia |].
  assert (all_admitted Epoch21 (get_list_item_type lt) data = Ok tt) as ->; [| done].
  clear Hl H. induction Hd as [| x data Hx _ IH]; [done |]. cbn [all_admitted].
  apply (admits_admitted Epoch21) in Hx; [| done]. by rewrite Hx, IH.
Qed.

Lemma collect_typed_ordered ty behavior acc m :
  Forall (fun k => Forall (fun k' => cmp k k' = Lt) m.*1) acc.*1 -> ordered m.*1 = true ->
  Forall (fun e => exists t, field_type ty e.1 = Some t /\ admitted t e.2 = true) m ->
  collect_typed Epoch21 ty behavior acc m = Ok (acc ++ m).
Proof.
  intros Hb Ho Hm. revert acc Hb Ho.
  induction Hm as [| [k x] m (t & Ht & Hx) _ IH]; intros acc Hb Ho; [by rewrite app_nil_r |].
  cbn [collect_typed]. cbn in Ht, Hx. rewrite Ht. cbn -[admits].
  apply (admits_admitted Epoch21) in Hx; [| done]. rewrite Hx. cbn -[admits].
  rewrite fmap_cons, ordered_cons in Ho. destruct Ho as [Hl Ho].
  assert (Forall (fun k' => cmp k' k = Lt) acc.*1) as Hk.
  { eapply Forall_impl; [exact Hb |]. intros k' H'. rewrite fmap_cons, Forall_cons in H'. tauto. }
  assert (assoc k acc = None) as ->.
  { apply assoc_None. intros Hin. rewrite Forall_forall in Hk. specialize (Hk k Hin).
    rewrite cmp_refl in Hk. done. }
  rewrite (map_insert_snoc k x acc Hk), IH; [by rewrite <- (assoc_L (++)) | | done].
  rewrite fmap_app. apply Forall_app. split; [| by repeat constructor].
  eapply Forall_impl; [exact Hb |]. intros k' H'. rewrite fmap_cons, Forall_cons in H'. tauto.
Qed.

Lemma tuple_from_data_typed_Ok ty behavior m :
  valid_type (TupleType ty) = true -> m.*1 = (get_type_map ty).*1 ->
  Forall (fun e => exists t, field_type ty e.1 = Some t /\ admitted t e.2 = true) m ->
  tuple_from_data_typed Epoch21 m ty behavior = Ok (mkTuple ty m).
Proof.
  intros Hv Hk Hm. unfold tuple_from_data_typed.
  rewrite (collect_typed_ordered ty behavior [] m); [| constructor | | done].
  - cbn. replace (zlen m =? tuple_type_len ty) with true; [by rewrite andb_false_r |].
    symmetry. apply Z.eqb_eq. unfold zlen, tuple_type_len.
    by rewrite <- (length_fmap fst), Hk, length_fmap.
  - rewrite Hk. destruct ty as [tm size]. by apply valid_tuple in Hv as (_ & ? & _).
Qed.

(** *** The size of a tuple type as a sum *)

Fixpoint field_sum (f : TypeSignature -> option Z) (m : TypeMap) : Z :=
  match m with
  | [] => 0
  | (n, t) :: m => default 0 (f t) + name_len n + field_sum f m
  end.

Lemma name_len_nonneg n : 0 <= name_len n.
Proof. unfold name_len. lia. Qed.

Lemma add_fields_sum f m total s : add_fields f total m = Some s -> s = total + field_sum f m.
Proof.
  revert total. induction m as [| [n t] m IH]; intros total; cbn; [intros [= <-]; lia |].
  intros (x & -> & (y & Hy%checked_Some & (z & Hz%checked_Some & H%IH)%bind_Some)%bind_Some)%bind_Some.
  cbn. lia.
Qed.

Lemma field_sum_nonneg f m :
  (forall t x, f t = Some x -> 0 <= x) -> 0 <= field_sum f m.
Proof.
  intros Hf. induction m as [| [n t] m IH]; cbn; [lia |]. pose proof (name_len_nonneg n).
  destruct (f t) as [x |] eqn:E; [apply Hf in E |]; cbn; lia.
Qed.

Lemma valid_size_pos t : valid_type t = true -> exists x, inner_size t = Some x /\ 1 <= x.
Proof.
  intros Hv. destruct (valid_inner_size t Hv) as (x & Hx & _).
  destruct (inner_min_size_le t Hv x Hx) as (mn & _ & ?). exists x. split; [done | lia].
Qed.

Lemma valid_tuple_size m size :
  valid_type (TupleType (mkTupleType m size)) = true ->
  0 < zlen m /\ 4 * zlen m + field_sum inner_size m <= size /\ size <= MAX_VALUE_SIZE.
Proof.
  intros (Hv & _ & (Hne & _ & s & Hs & [= ->])%tuple_try_from_map_Ok)%valid_tuple.
  apply tuple_compute_inner_size_Some in Hs as (Hle & h & ts & tot & Hh & Hts & Htot%checked_Some & Hadd).
  apply add_fields_sum in Hadd.
  unfold tuple_compute_type_size, tuple_compute_type_size_with in Hts. rewrite Hh in Hts. cbn in Hts.
  apply bind_Some in Hts as (ts' & Hts'%add_fields_sum & [-> _]%capped_Some).
  apply bind_Some in Hh as (n & [-> _]%checked_Some & [-> _]%checked_Some).
  pose proof (field_sum_nonneg inner_type_size m inner_type_size_nonneg).
  unfold zlen. destruct m; [done |]. cbn [length] in *. lia.
Qed.

Lemma valid_tuple_length ty :
  valid_type (TupleType ty) = true -> 0 < tuple_type_len ty <= MAX_VALUE_SIZE.
Proof.
  destruct ty as [m size]. intros Hval. pose proof Hval as (Hv & _ & _)%valid_tuple.
  apply valid_tuple_size in Hval. change (tuple_type_len (mkTupleType m size)) with (zlen m).
  enough (0 <= field_sum inner_size m) by lia. clear Hval.
  induction Hv as [| [n t] m Ht _ IH]; [done |]. cbn. cbn in Ht.
  destruct (valid_size_pos t Ht) as (x & -> & ?). pose proof (name_len_nonneg n). cbn. lia.
Qed.

(** *** What admission says of lists and tuples *)

Lemma Forall_choose {A B} (R : A -> B -> Prop) l :
  Forall (fun x => exists y, R x y) l -> exists k, Forall2 R l k.
Proof. induction 1 as [| x l (y & Hy) _ (k & Hk)]; [by exists [] | exists (y :: k); by constructor]. Qed.

Lemma admitted_list t data lt0 :
  typed (Sequence (List_ data lt0)) = true -> admitted t (Sequence (List_ data lt0)) = true ->
  valid_data t = true ->
  exists lt, t = SequenceType (ListType lt) /\ zlen data <= get_max_len lt /\
    Forall (fun x => typed x = true /\ admitted (get_list_item_type lt) x = true /\
      valid_data (get_list_item_type lt) = true) data.
Proof.
  intros (Hv0 & Hd0 & Hn & Hf)%typed_list (s & [= <-] & Ha)%admitted_spec [Hv Hd]%andb_true_iff.
  destruct (adm_inv _ _ Hd0 Ha) as (lt & ->). exists lt. split; [done |].
  destruct lt as [n e size], lt0 as [n0 e0 size0]. cbn [get_max_len get_list_item_type] in *.
  pose proof (valid_list_length _ _ _ Hv). pose proof Hv as (Hve & _)%valid_list.
  pose proof Hv0 as (Hve0 & _)%valid_list.
  apply adm_list in Ha as [-> | [Hle Hae]].
  { assert (data = []) as -> by (apply length_zero_iff_nil; unfold zlen in Hn; lia).
    unfold zlen. cbn. split; [lia | constructor]. }
  split; [lia |]. apply data_list in Hd as [Hd | [-> _]]; [| by apply adm_none_l in Hae].
  apply data_list in Hd0 as [Hd0 | [-> _]]; [| by apply adm_none_r in Hae].
  eapply Forall_impl; [exact Hf |]. intros x [Hx Hxa]. unfold valid_data. rewrite Hve, Hd.
  split_and!; [done | | done]. by apply (admitted_mono e0 e).
Qed.

Lemma admitted_tuple t m ty0 :
  typed (Tuple (mkTuple ty0 m)) = true -> admitted t (Tuple (mkTuple ty0 m)) = true ->
  valid_data t = true ->
  exists ty, t = TupleType ty /\ m.*1 = (get_type_map ty).*1 /\
    Forall (fun e => typed e.2 = true /\ exists t, field_type ty e.1 = Some t /\
      (e.1, t) ∈ get_type_map ty /\ admitted t e.2 = true /\ valid_data t = true) m.
Proof.
  intros (Hv0 & Hd0 & Hk & Hf)%typed_tuple (s & [= <-] & Ha)%admitted_spec [Hv Hd]%andb_true_iff.
  destruct (adm_inv _ _ Hd0 Ha) as (ty & ->). exists ty. split; [done |].
  destruct ty as [tm size], ty0 as [tm0 size0]. unfold field_type in *. cbn [get_type_map] in *.
  apply adm_tuple in Ha as [Hlen Ha].
  pose proof Hv as (Hvf & Ho & _)%valid_tuple. pose proof Hv0 as (Hvf0 & Ho0 & _)%valid_tuple.
  apply data_tuple in Hd, Hd0.
  assert (tm.*1 = tm0.*1) as Hkeys.
  { apply ordered_perm; [done | done |]. apply submseteq_length_Permutation; [| rewrite !length_fmap; lia].
    apply NoDup_submseteq; [by apply ordered_NoDup |]. intros n ([n' u] & -> & Hin)%list_elem_of_fmap.
    rewrite Forall_forall in Ha. destruct (Ha _ Hin) as (u' & Hu'%assoc_elem_of & _).
    apply list_elem_of_fmap. by exists (n', u'). }
  split; [congruence |].
  by_elements. intros [n x] Hin. destruct (Hf _ Hin) as (Hx & u0 & Hu0 & Hxa). cbn in Hu0, Hxa. split; [done |].
  assert (n ∈ tm.*1) as ([n' u] & Hn & Hu)%list_elem_of_fmap.
  { rewrite Hkeys, <- Hk. apply list_elem_of_fmap. by exists (n, x). }
  cbn in Hn. subst n'. exists u.
  destruct (Ha _ Hu) as (u1 & Hu1 & Hau). cbn in Hu1, Hau. assert (u1 = u0) as -> by congruence.
  apply assoc_elem_of in Hu0. pose proof (Hvf _ Hu). pose proof (Hd _ Hu).
  unfold valid_data. cbn in *. split_and!; [by apply elem_of_assoc | done | | by apply andb_true_iff].
  apply (admitted_mono u0 u); [exact (Hvf0 _ Hu0) | exact (Hd0 _ Hu0) | done | done | done].
Qed.

(** ** Decoding what was serialized *)

Section RoundTrip.
Context (sanitize : bool) (behavior : TupleFieldsBehavior) (limit : ContractNameLimit).

Abbreviation read_item := (read_item sanitize behavior limit).
Abbreviation decode := (decode sanitize behavior limit).
Abbreviation complete := (complete sanitize behavior).
Abbreviation finish_frame := (finish_frame sanitize behavior).

Lemma decode_item d t bs v :
  reads (read_item t) bs (inl v) -> reads (decode (S d) (Ok t)) bs v.
Proof.
  intros H. cbn [Deserialization.decode]. eapply reads_step; [apply reads_lift |].
  eapply reads_last; [exact H | apply reads_ret].
Qed.

Lemma decode_frame d t bs bs' f v :
  reads (read_item t) bs (inr f) -> reads (complete (decode d) (missing f) f) bs' v ->
  reads (decode (S d) (Ok t)) (bs ++ bs') v.
Proof.
  intros H H'. cbn [Deserialization.decode]. eapply reads_step; [apply reads_lift |].
  eapply reads_bind; [exact H | exact H'].
Qed.

(** A frame that waits for one item *)
Lemma complete_single d f t x bs v :
  missing f = 1%nat -> next_expected_type f = Ok t ->
  reads (decode d (Ok t)) bs x -> reads (finish_frame x f) [] (inl v) ->
  reads (complete (decode d) (missing f) f) bs v.
Proof.
  intros -> Ht Hx Hv. cbn [Deserialization.complete]. rewrite Ht. eapply reads_last; [exact Hx |].
  eapply reads_step; [exact Hv | apply reads_ret].
Qed.

(** [round t v]: decoding the bytes of [v] as a [t] gives [v] back, annotated
    with types that fit [t]. *)
Definition round (t : TypeSignature) (v : Value) : Prop :=
  forall d, depth t <= Z.of_nat d ->
  exists v', reads (decode d (Ok (Some t))) (value_bytes v) v' /\
    value_eqb v v' = true /\ within t v'.

Lemma depth_fuel t d : depth t <= Z.of_nat d -> exists d', d = S d'.
Proof. intros Hd. pose proof (depth_pos t). destruct d; [lia | by eexists]. Qed.

Lemma read_item_prefix p t bs x :
  reads (read_body sanitize behavior limit t p) bs x -> reads (read_item t) (prefix_u8 p :: bs) x.
Proof.
  intros H. eapply reads_cons; [by apply reads_exact |].
  eapply reads_step; [| exact H]. destruct p; apply reads_lift.
Qed.

Lemma round_leaf t v :
  within t v -> reads (read_item (Some t)) (value_bytes v) (inl v) -> round t v.
Proof.
  intros Hw Hr d (d' & ->)%depth_fuel. exists v.
  split_and!; [by apply decode_item | apply value_eqb_refl | done].
Qed.

Lemma spd_reads p : principal_ok p = true -> reads spd_deserialize_read (spd_bytes_of p) p.
Proof.
  intros [[Hv Hl]%andb_true_iff _]%andb_true_iff. apply in_range_spec in Hv. apply Nat.eqb_eq in Hl.
  unfold spd_deserialize_read, spd_bytes_of. eapply reads_cons; [by apply reads_exact |].
  eapply reads_last; [by apply reads_exact |]. unfold StandardPrincipalData_new.
  cbn [from_be_bytes fold_left]. rewrite Z.add_0_l.
  destruct (Z.leb_spec 32 (spd_version p)); [lia |]. destruct p. apply reads_lift.
Qed.

Lemma contract_reads c :
  wire_ok limit (Principal (Contract c)) = true ->
  reads (read_contract limit) (contract_bytes c) (Principal (Contract c)).
Proof.
  cbn [wire_ok]. intros [[Hp Hn]%andb_true_iff Hl]%andb_true_iff.
  unfold read_contract, contract_bytes. eapply reads_bind; [by apply spd_reads |].
  eapply reads_last; [apply name_reads; [| done] |].
  { intros bs Hbs. apply legal_name_ascii. by right. }
  unfold name_allowed in Hl. destruct c as [i n], limit; [apply reads_ret |].
  cbn [contract_name] in Hl |- *.
  destruct (Z.gtb_spec (name_len n) CONTRACT_MAX_NAME_LENGTH); [lia |]. apply reads_ret.
Qed.

Lemma length_ok n : 0 <= n <= MAX_VALUE_SIZE -> BufferLength_try_from n = Ok n.
Proof.
  intros Hn. unfold BufferLength_try_from.
  destruct (Z.gtb_spec n MAX_VALUE_SIZE), (Z.ltb_spec n 0); lia || done.
Qed.

(** A length, checked against a type, and the bytes it announces *)
Lemma sequence_reads {A} msg (t : option TypeSignature) (p : Z -> TypeSignature -> bool)
    (make : list Z -> TypeR A) data v :
  zlen data <= MAX_VALUE_SIZE -> (forall x, t = Some x -> p (zlen data) x = true) ->
  make data = Ok v ->
  reads (len ← read_u32;
         len ← type_error (BufferLength_try_from len);
         check_match t (p len);;
         data ← read_exact (Z.to_nat len);
         message msg (make data) id)
        (to_be_bytes 4 (zlen data) ++ data) v.
Proof.
  intros Hl Hp Hv. unfold zlen in *.
  eapply reads_bind; [apply reads_u32; ints |].
  eapply reads_step; [rewrite length_ok by lia; apply reads_lift |].
  eapply reads_step; [by apply check_match_reads |].
  eapply reads_last; [apply reads_exact; lia |]. by apply (message_reads msg _ id).
Qed.

Lemma utf8_reads data len :
  typed (Sequence (String_ (CharUTF8 data))) = true -> zlen data <= len ->
  reads (read_string_utf8 (Some (SequenceType (StringType (UTF8 len)))))
    (to_be_bytes 4 (zlen (concat data)) ++ concat data) (Sequence (String_ (CharUTF8 data))).
Proof.
  intros (Hu & Hn & Hl)%typed_utf8 Hlen.
  assert (string_utf8_from_bytes (concat data) = Ok (Sequence (String_ (CharUTF8 data)))) as Hv.
  { unfold string_utf8_from_bytes. rewrite Hu. cbn. unfold StringUTF8Length_try_from.
    destruct (Z.gtb_spec (zlen data) MAX_UTF8_VALUE_SIZE); [lia |].
    destruct (Z.ltb_spec (zlen data) 0); [unfold zlen in *; lia | done]. }
  unfold read_string_utf8, zlen in *.
  eapply reads_bind; [apply reads_u32; ints |].
  eapply reads_step; [rewrite length_ok by lia; apply reads_lift |].
  eapply reads_last; [apply reads_exact; lia |]. rewrite Hv.
  eapply reads_step; [apply check_match_reads; intros x [= <-]; cbn; unfold zlen; by apply Z.leb_le |].
  by apply (message_reads _ _ id).
Qed.

Lemma ascii_from_bytes data :
  typed (Sequence (String_ (CharASCII data))) = true ->
  string_ascii_from_bytes data = Ok (Sequence (String_ (CharASCII data))).
Proof.
  cbn [typed]. rewrite andb_true_iff, Z.leb_le, forallb_True_iff_Forall. intros [Hl Ha].
  unfold string_ascii_from_bytes. rewrite length_ok by (unfold zlen in *; lia). cbn.
  replace (filter _ data) with ([] : list Z); [done |]. symmetry.
  induction Ha as [| b data Hb _ IH]; [done |].
  rewrite filter_cons_False by (by rewrite Hb). apply IH. unfold zlen in *. cbn [length] in Hl. lia.
Qed.

Lemma leaf_reads t v :
  is_leaf v = true -> typed v = true -> wire_ok limit v = true -> admitted t v = true ->
  reads (read_item (Some t)) (value_bytes v) (inl v).
Proof.
  intros Hl Hv Hw (s & Hs & Ha)%admitted_spec.
  destruct (typed_type_of v Hv) as (s' & Hs' & _ & Hds).
  assert (s' = s) as -> by congruence. pose proof (adm_inv t s Hds Ha) as Hinv. clear Hs' Ha Hds.
  assert (forall p, prefix_of v = p -> forall bs, value_bytes v = prefix_u8 p :: bs ->
    reads (read_body sanitize behavior limit (Some t) p) bs (inl v) ->
    reads (read_item (Some t)) (value_bytes v) (inl v)) as Hpre.
  { intros p _ bs ->. apply read_item_prefix. }
  destruct v as [i | u | [] |[data | | [data | data]]| [p | c] | | | | ]; try done;
    (eapply Hpre; [reflexivity | reflexivity |]); clear Hpre; cbn [read_body];
    try (injection Hs as <-; subst t; eapply reads_step; [apply check_match_reads; by intros ? [= <-] |]);
    try (apply result_bind_Ok in Hs as (n & Hn%map_err_Ok & [= <-]); destruct Hinv as (k & -> & Hk)).
  - eapply reads_last; [by apply reads_exact |]. rewrite i128_from_to_be_bytes; [apply reads_ret |].
    by apply in_range_spec.
  - eapply reads_last; [by apply reads_exact |]. rewrite from_to_be_bytes; [apply reads_ret |].
    apply in_range_spec in Hw. change (256 ^ Z.of_nat 16) with (2 ^ 128). unfold u128_max in Hw. lia.
  - apply reads_ret.
  - apply reads_ret.
  - cbn [typed] in Hv. apply Z.leb_le in Hv. rewrite length_ok in Hn by (unfold zlen in *; lia).
    injection Hn as <-. eapply reads_last; [| apply reads_ret].
    eapply (sequence_reads _ _ fits_buffer buff_from); [done | intros x [= <-]; by apply Z.leb_le |].
    unfold buff_from. by rewrite length_ok by (unfold zlen in *; lia).
  - pose proof (typed_utf8 data Hv) as (_ & Hn' & _). unfold StringUTF8Length_try_from in Hn.
    repeat case_match; try done. injection Hn as <-.
    eapply reads_last; [by apply utf8_reads | apply reads_ret].
  - pose proof Hv as [Hl' _]%andb_true_iff. apply Z.leb_le in Hl'.
    rewrite length_ok in Hn by (unfold zlen in *; lia).
    injection Hn as <-. eapply reads_last; [| apply reads_ret].
    eapply (sequence_reads _ _ fits_ascii string_ascii_from_bytes);
      [done | intros x [= <-]; by apply Z.leb_le | by apply ascii_from_bytes].
  - eapply reads_last; [by apply spd_reads | apply reads_ret].
  - eapply reads_last; [by apply contract_reads | apply reads_ret].
Qed.

Lemma complete_list d lt len items rest rest' :
  Forall2 (fun x x' => reads (decode d (Ok (Some (get_list_item_type lt)))) (value_bytes x) x') rest rest' ->
  rest <> [] -> len = zlen (items ++ rest) -> len <= get_max_len lt ->
  Forall (fun x => admitted (get_list_item_type lt) x = true) (items ++ rest') ->
  reads (complete (decode d) (length rest) (SList items len (Some lt)))
    (concat (map value_bytes rest)) (Sequence (List_ (items ++ rest') lt)).
Proof.
  intros Hrest. revert items. induction Hrest as [| x x' rest rest' Hx Hrest IH]; intros items Hne Hlen Hmax Hadm;
    [done |].
  cbn [Deserialization.complete length map concat].
  eapply reads_bind; [exact Hx |]. cbn [Deserialization.finish_frame].
  rewrite zlen_snoc. unfold zlen in *. rewrite length_app in Hlen. cbn [length] in Hlen.
  destruct rest as [| y rest].
  - apply Forall2_nil_inv_l in Hrest as ->. destruct (Z.leb_spec len (Z.of_nat (length items) + 1)); [| cbn in *; lia].
    apply (reads_step _ _ _ (inl (Sequence (List_ (items ++ [x']) lt)))); [| apply reads_ret].
    eapply reads_step; [| apply reads_ret].
    unfold finished_list. eapply (message_reads _ _ id). apply list_with_type_Ok; [done |].
    unfold zlen. rewrite length_app. cbn in *. lia.
  - destruct (Z.leb_spec len (Z.of_nat (length items) + 1)); [cbn in *; lia |].
    eapply reads_step; [apply reads_ret |].
    rewrite (assoc_L (++) items [x'] rest' : items ++ x' :: rest' = (items ++ [x']) ++ rest') in *.
    apply IH; [done | rewrite !length_app; cbn in *; lia | done | done].
Qed.

Lemma round_list d lt data data' :
  Forall2 (fun x x' => reads (decode d (Ok (Some (get_list_item_type lt)))) (value_bytes x) x') data data' ->
  zlen data <= get_max_len lt <= MAX_VALUE_SIZE ->
  Forall (fun x => admitted (get_list_item_type lt) x = true) data' ->
  forall lt0, reads (decode (S d) (Ok (Some (SequenceType (ListType lt)))))
    (value_bytes (Sequence (List_ data lt0))) (Sequence (List_ data' lt)).
Proof.
  intros Hdata Hlen Hadm lt0. cbn [value_bytes prefix_of].
  assert (reads (read_u32) (to_be_bytes 4 (zlen data)) (zlen data)) as Hu.
  { apply reads_u32. unfold zlen in *. ints. }
  destruct (decide (data = [])) as [-> | Hne].
  - apply Forall2_nil_inv_l in Hdata as ->. apply decode_item, read_item_prefix. cbn [read_body].
    unfold read_list. rewrite app_nil_r. eapply reads_last; [exact Hu |].
    cbn -[finished_list get_max_len]. change (zlen []) with 0 in *.
    destruct (Z.gtb_spec 0 (get_max_len lt)); [lia |].
    eapply reads_step; [apply reads_ret |]. eapply reads_step; [| apply reads_ret].
    eapply (message_reads _ _ id). apply list_with_type_Ok; [done |]. apply Hlen.
  - rewrite app_comm_cons. eapply decode_frame.
    + apply read_item_prefix. cbn [read_body]. unfold read_list. eapply reads_last; [exact Hu |].
      destruct (Z.gtb_spec (zlen data) MAX_VALUE_SIZE); [lia |].
      destruct (Z.gtb_spec (zlen data) (get_max_len lt)); [lia |].
      eapply reads_step; [apply reads_ret |].
      destruct (Z.gtb_spec (zlen data) 0); [apply reads_ret |].
      destruct data; [done |]. unfold zlen in *. cbn [length] in *. lia.
    + cbn [missing]. replace (Z.to_nat (zlen data - zlen [])) with (length data) by (unfold zlen; cbn; lia).
      apply (complete_list d lt (zlen data) [] data data'); try done. lia.
Qed.

(** An entry of a tuple and what is decoded for it *)
Definition entry_reads (d : nat) (ty : TupleTypeSignature) (e e' : ClarityName * Value) : Prop :=
  e.1 = e'.1 /\ is_clarity_name (as_bytes e.1) = true /\
  exists t, field_type ty e.1 = Some t /\ reads (decode d (Ok (Some t))) (value_bytes e.2) e'.2.

Definition entry_bytes (e : ClarityName * Value) : list Z := name_bytes e.1 ++ value_bytes e.2.

Lemma elided_field ty k t : field_type ty k = Some t -> elided sanitize (Some ty) k = false.
Proof. intros Ht. unfold elided. rewrite Ht. by rewrite andb_false_r. Qed.

Lemma key_reads k : is_clarity_name (as_bytes k) = true ->
  reads clarity_name_deserialize_read (name_bytes k) k.
Proof. intros Hk. apply name_reads; [| done]. intros bs Hbs. apply legal_name_ascii. by left. Qed.

Lemma complete_tuple d ty len items p k x x' rest rest' :
  Forall2 (entry_reads d ty) ((k, x) :: rest) ((k, x') :: rest') ->
  len = p + Z.of_nat (length ((k, x) :: rest)) ->
  zlen (items ++ (k, x') :: rest') = tuple_type_len ty ->
  tuple_from_data_typed Epoch21 (items ++ (k, x') :: rest') ty behavior
    = Ok (mkTuple ty (items ++ (k, x') :: rest')) ->
  reads (complete (decode d) (length ((k, x) :: rest)) (STuple items len p (Some ty) k false))
    (value_bytes x ++ concat (map entry_bytes rest)) (Tuple (mkTuple ty (items ++ (k, x') :: rest'))).
Proof.
  revert items p k x x' rest'. induction rest as [| [k1 x1] rest IH];
    intros items p k x x' rest' ((_ & Hk & t & Ht & Hx) & Hrest)%Forall2_cons Hlen Hty Hfin;
    cbn [fst snd] in *; cbn [length Deserialization.complete next_expected_type];
    rewrite Ht; (eapply reads_bind; [exact Hx |]); cbn [Deserialization.finish_frame];
    replace (if sanitize then negb false else true) with true by by destruct sanitize.
  - apply Forall2_nil_inv_l in Hrest as ->. cbn [length] in Hlen.
    destruct (Z.leb_spec len (p + 1)); [| lia].
    apply (reads_step _ _ _ (inl (Tuple (mkTuple ty (items ++ [(k, x')]))))); [| apply reads_ret].
    eapply reads_step; [rewrite Hty, Z.eqb_refl; apply reads_ret |].
    eapply reads_step; [by apply (message_reads _ _ Tuple) | apply reads_ret].
  - apply Forall2_cons_inv_l in Hrest as ([k1' x1'] & rest1 & He & Hrest & ->).
    pose proof He as (Hk1 & Hn1 & t1 & Ht1 & _). cbn in Hk1, Hn1, Ht1. subst k1'. cbn [length] in Hlen.
    destruct (Z.leb_spec len (p + 1)); [lia |].
    rewrite (assoc_L (++) items [(k, x')] ((k1, x1') :: rest1) :
      items ++ (k, x') :: (k1, x1') :: rest1 = (items ++ [(k, x')]) ++ (k1, x1') :: rest1) in *.
    cbn [map concat]. unfold entry_bytes at 1. cbn [fst snd]. rewrite <- app_assoc.
    eapply reads_bind; [eapply reads_last; [by apply key_reads | apply reads_ret] |].
    rewrite (elided_field ty k1 t1) by done.
    apply IH; [by constructor | cbn [length]; lia | done | done].
Qed.

Lemma round_tuple d ty m m' ty0 :
  valid_type (TupleType ty) = true ->
  Forall2 (entry_reads d ty) m m' -> m'.*1 = (get_type_map ty).*1 ->
  Forall (fun e => exists t, field_type ty e.1 = Some t /\ admitted t e.2 = true) m' ->
  reads (decode (S d) (Ok (Some (TupleType ty)))) (value_bytes (Tuple (mkTuple ty0 m)))
    (Tuple (mkTuple ty m')).
Proof.
  intros Hv Hm Hk Hadm. pose proof (valid_tuple_length ty Hv) as Hlen.
  assert (zlen m' = tuple_type_len ty) as Hl'.
  { unfold zlen, tuple_type_len. by rewrite <- (length_fmap fst), Hk, length_fmap. }
  assert (zlen m = tuple_type_len ty) as Hl by (unfold zlen in *; by rewrite (Forall2_length _ _ _ Hm)).
  pose proof (tuple_from_data_typed_Ok ty behavior m' Hv Hk Hadm) as Hfin.
  destruct Hm as [| [k x] [k' x'] rest rest' He Hrest]; [unfold zlen in *; cbn in *; lia |].
  pose proof He as (Hkk & Hn & t & Ht & _). cbn in Hkk, Hn, Ht. subst k'.
  assert (value_bytes (Tuple (mkTuple ty0 ((k, x) :: rest))) =
    (prefix_u8 PrefixTuple :: to_be_bytes 4 (tuple_type_len ty) ++ name_bytes k) ++
    (value_bytes x ++ concat (map entry_bytes rest))) as ->.
  { rewrite <- Hl. cbn [value_bytes map concat]. cbn [app]. f_equal. rewrite <- !app_assoc.
    do 4 f_equal. apply map_ext. by intros []. }
  eapply decode_frame.
  - apply read_item_prefix. cbn [read_body]. unfold read_tuple.
    eapply reads_bind; [apply reads_u32; ints |].
    destruct (Z.gtb_spec (tuple_type_len ty) MAX_VALUE_SIZE); [lia |]. rewrite Z.ltb_irrefl, Z.eqb_refl.
    eapply reads_step; [destruct sanitize; apply reads_ret |].
    destruct (Z.gtb_spec (tuple_type_len ty) 0); [| lia].
    eapply reads_last; [by apply key_reads | apply reads_ret].
  - rewrite (elided_field ty k t) by done. cbn [missing]. rewrite <- Hl, Z.sub_0_r.
    unfold zlen. rewrite Nat2Z.id.
    apply (complete_tuple d ty _ [] 0 k x x' rest rest'); [by constructor | done | done | done].
Qed.

Definition rounds (v : Value) : Prop :=
  typed v = true -> wire_ok limit v = true ->
  forall t, valid_data t = true -> admitted t v = true -> round t v.

Lemma rounds_leaf v : is_leaf v = true -> rounds v.
Proof. intros Hl Hv Hw t Ht Ha. apply round_leaf; [by apply leaf_within | by apply leaf_reads]. Qed.

Lemma rounds_list data lt0 : Forall rounds data -> rounds (Sequence (List_ data lt0)).
Proof.
  intros IH Hv Hw t Ht Ha d Hd. destruct (admitted_list t data lt0 Hv Ha Ht) as (lt & -> & Hn & Hf).
  destruct (depth_fuel _ _ Hd) as (d' & ->). apply wire_ok_list in Hw.
  assert (depth (get_list_item_type lt) <= Z.of_nat d') as Hde by (destruct lt; cbn in Hd |- *; lia).
  assert (Forall (fun x => exists x', reads (decode d' (Ok (Some (get_list_item_type lt)))) (value_bytes x) x' /\
    value_eqb x x' = true /\ within (get_list_item_type lt) x') data) as (data' & Hd')%Forall_choose.
  { by_elements. intros x Hx. destruct (Hf x Hx) as (? & ? & ?).
    by apply (IH x Hx); auto. }
  assert (Forall (within (get_list_item_type lt)) data') as Hwi.
  { clear - Hd'. induction Hd' as [| ? ? ? ? (_ & _ & ?)]; by constructor. }
  pose proof Ht as [Hvt Hdt]%andb_true_iff.
  assert (0 <= get_max_len lt <= MAX_VALUE_SIZE) by (destruct lt; exact (valid_list_length _ _ _ Hvt)).
  exists (Sequence (List_ data' lt)). split_and!.
  - apply round_list; [| lia |].
    + eapply Forall2_impl; [exact Hd' |]. naive_solver.
    + eapply Forall_impl; [exact Hwi |]. by intros x [_ ?]%within_admitted.
  - apply value_eqb_list. eapply Forall2_impl; [exact Hd' |]. naive_solver.
  - apply within_self; [| done | done]. apply typed_list. split_and!; [done | done | |].
    + unfold zlen in *. by rewrite <- (Forall2_length _ _ _ Hd').
    + eapply Forall_impl; [exact Hwi |]. apply within_admitted.
Qed.

Lemma rounds_tuple ty0 m : Forall (fun e => rounds e.2) m -> rounds (Tuple (mkTuple ty0 m)).
Proof.
  intros IH Hv Hw t Ht Ha d Hd. destruct (admitted_tuple t m ty0 Hv Ha Ht) as (ty & -> & Hk & Hf).
  destruct (depth_fuel _ _ Hd) as (d' & ->). apply wire_ok_tuple in Hw.
  pose proof Ht as [Hvt Hdt]%andb_true_iff.
  assert (Forall (fun f => depth f.2 <= Z.of_nat d') (get_type_map ty)) as Hdf.
  { destruct ty as [tm size]. apply (depth_tuple_le tm size (Z.of_nat d')); lia. }
  assert (Forall (fun e => exists e', entry_reads d' ty e e' /\ value_eqb e.2 e'.2 = true /\
    exists t, field_type ty e.1 = Some t /\ within t e'.2) m) as (m' & Hm')%Forall_choose.
  { by_elements. intros [n x] Hx.
    destruct (Hf _ Hx) as (Hxt & u & Hu & Hin & Hxa & Hvu), (Hw _ Hx) as [Hn Hxw].
    destruct (IH _ Hx Hxt Hxw u Hvu Hxa d' (Hdf _ Hin)) as (x' & Hr & He & Hwi).
    exists (n, x'). unfold entry_reads. cbn in *. split_and!; eauto. }
  assert (m'.*1 = m.*1) as Hkeys.
  { clear - Hm'. induction Hm' as [| e e' m m' ((He & _) & _) _ IH]; [done |]. cbn. congruence. }
  assert (Forall (fun e => typed e.2 = true /\ exists t, field_type ty e.1 = Some t /\ admitted t e.2 = true) m') as Hwi.
  { clear - Hm'. induction Hm' as [| e e' m m' ((He & _) & _ & u & Hu & Hwi) _ IH]; constructor; [| done].
    apply within_admitted in Hwi as [? ?]. rewrite <- He. eauto. }
  exists (Tuple (mkTuple ty m')). split_and!.
  - apply round_tuple; [done | | congruence |].
    + eapply Forall2_impl; [exact Hm' |]. naive_solver.
    + eapply Forall_impl; [exact Hwi |]. naive_solver.
  - apply value_eqb_tuple. eapply Forall2_impl; [exact Hm' |]. unfold entry_reads. naive_solver.
  - apply within_self; [| done | done]. apply typed_tuple. split_and!; [done | done | congruence | done].
Qed.

(** Admission of wrapped values, taken apart *)
Lemma admitted_some t x :
  typed (Optional (Some x)) = true -> admitted t (Optional (Some x)) = true -> valid_data t = true ->
  exists u, t = OptionalType u /\ typed x = true /\ admitted u x = true /\ valid_data u = true.
Proof.
  intros Hv (s & Hs & Ha)%admitted_spec [Hvt Hdt]%andb_true_iff.
  destruct (typed_type_of _ Hv) as (s' & Hs' & Hvs & Hds). assert (s' = s) as -> by congruence.
  apply typed_some in Hv as [Hx _]. destruct (typed_type_of _ Hx) as (u0 & Hu0 & Hvu0 & Hdu0).
  cbn [type_of] in Hs. rewrite Hu0 in Hs. apply map_err_Ok in Hs. apply new_option_Ok in Hs as (-> & _).
  destruct (adm_inv _ _ Hds Ha) as (u & ->). exists u.
  apply adm_option in Ha as [-> | Ha]; [done | | by right].
  apply valid_option in Hvt as [Hvu _]. apply data_option in Hdt as [-> | Hdu]; [by apply adm_none_l in Ha |].
  split_and!; [done | done | apply admitted_spec; eauto | by apply andb_true_iff].
Qed.

Lemma admitted_response t (c : bool) x :
  typed (Response c x) = true -> admitted t (Response c x) = true -> valid_data t = true ->
  exists u w, t = ResponseType u w /\ typed x = true /\ admitted (if c then u else w) x = true /\
    valid_data (if c then u else w) = true.
Proof.
  intros Hv (s & Hs & Ha)%admitted_spec [Hvt Hdt]%andb_true_iff.
  destruct (typed_type_of _ Hv) as (s' & Hs' & Hvs & Hds). assert (s' = s) as -> by congruence.
  apply typed_response in Hv as [Hx _]. destruct (typed_type_of _ Hx) as (u0 & Hu0 & Hvu0 & Hdu0).
  cbn [type_of] in Hs. rewrite Hu0 in Hs. apply map_err_Ok in Hs.
  assert (s = if c then ResponseType u0 NoType else ResponseType NoType u0) as ->.
  { destruct c; by apply new_response_Ok in Hs as (-> & _). }
  assert (exists u w, t = ResponseType u w) as (u & w & ->) by (destruct c; exact (adm_inv _ _ Hds Ha)).
  exists u, w. pose proof Hvt as (Hvu & Hvw & _)%valid_response.
  pose proof Hdt as (Hdu & Hdw & _)%data_response.
  assert (opt_adm (if c then u else w) u0 /\ valid_type (if c then u else w) = true /\
    opt_data (if c then u else w)) as ([-> | Hau] & Hvc & [Hn | Hdc]).
  { destruct c; apply adm_response in Ha as [? ?]; done. }
  1-3: try done; rewrite Hn in Hau; by apply adm_none_l in Hau.
  split_and!; [done | done | apply admitted_spec; eauto | by apply andb_true_iff].
Qed.

Lemma rounds_some x : rounds x -> rounds (Optional (Some x)).
Proof.
  intros IH Hv Hw t Ht Ha d Hd. destruct (admitted_some t x Hv Ha Ht) as (u & -> & Hx & Hxa & Hvu).
  destruct (depth_fuel _ _ Hd) as (d' & ->). pose proof Ht as [Hvt _]%andb_true_iff.
  destruct (IH Hx Hw u Hvu Hxa d') as (x' & Hr & He & Hwi); [cbn in Hd; lia |].
  destruct (within_some u x' Hwi Hvt) as [Hval Hwo].
  exists (Optional (Some x')). split_and!; [| done | done].
  apply (decode_frame d' _ [prefix_u8 PrefixOptionalSome] _ (SOptionSome (Some u))).
  - apply read_item_prefix. eapply reads_step; [apply reads_ret | apply reads_ret].
  - eapply complete_single; [done | done | exact Hr |].
    eapply reads_step; [by apply (message_reads _ _ id) | apply reads_ret].
Qed.

Lemma rounds_response c x : rounds x -> rounds (Response c x).
Proof.
  intros IH Hv Hw t Ht Ha d Hd. destruct (admitted_response t c x Hv Ha Ht) as (u & w & -> & Hx & Hxa & Hvu).
  destruct (depth_fuel _ _ Hd) as (d' & ->). pose proof Ht as [Hvt _]%andb_true_iff.
  destruct (IH Hx Hw _ Hvu Hxa d') as (x' & Hr & He & Hwi); [destruct c; cbn in Hd; lia |].
  destruct (within_response c u w x' Hwi Hvt) as [Hval Hwo].
  exists (Response c x'). split_and!; [| cbn; by destruct c | done].
  destruct c.
  - apply (decode_frame d' _ [prefix_u8 PrefixResponseOk] _ (SResponseOk (Some u))).
    + apply read_item_prefix. eapply reads_step; [apply reads_ret | apply reads_ret].
    + eapply complete_single; [done | done | exact Hr |].
      eapply reads_step; [by apply (message_reads _ _ id) | apply reads_ret].
  - apply (decode_frame d' _ [prefix_u8 PrefixResponseErr] _ (SResponseErr (Some w))).
    + apply read_item_prefix. eapply reads_step; [apply reads_ret | apply reads_ret].
    + eapply complete_single; [done | done | exact Hr |].
      eapply reads_step; [by apply (message_reads _ _ id) | apply reads_ret].
Qed.

Lemma rounds_none : rounds (Optional None).
Proof.
  intros Hv Hw t [Hvt Hdt]%andb_true_iff (s & [= <-] & Ha)%admitted_spec.
  destruct (adm_inv _ (OptionalType NoType) eq_refl Ha) as (u & ->).
  apply round_leaf; [by apply within_none |].
  apply (read_item_prefix PrefixOptionalNone). eapply reads_step; [apply reads_ret | apply reads_ret].
Qed.

Lemma values_round v : rounds v.
Proof.
  induction v using value_induction; try by apply rounds_leaf.
  - by apply rounds_list.
  - by apply rounds_tuple.
  - apply rounds_none.
  - by apply rounds_some.
  - by apply rounds_response.
Qed.
End RoundTrip.

(** ** How long a serialized value can be

    [LengthBound B]: [B t n] promises enough room in [n] bytes for each way to
    build a value of type [t], given enough room for its parts. *)

Inductive fields_room (B : TypeSignature -> Z -> Prop) : TypeMap -> Z -> Prop :=
| room_nil n : 0 <= n -> fields_room B [] n
| room_cons k t m b n n' :
    B t b -> fields_room B m n -> 1 + name_len k + b + n <= n' -> fields_room B ((k, t) :: m) n'.

Class LengthBound (B : TypeSignature -> Z -> Prop) := {
  bound_int n : B IntType n -> 17 <= n;
  bound_uint n : B UIntType n -> 17 <= n;
  bound_bool n : B BoolType n -> 1 <= n;
  bound_principal n : B PrincipalType n -> 151 <= n;
  bound_buffer k n : B (SequenceType (BufferType k)) n -> 5 + k <= n;
  bound_ascii k n : B (SequenceType (StringType (ASCII k))) n -> 5 + k <= n;
  bound_utf8 k n : B (SequenceType (StringType (UTF8 k))) n -> 5 + 4 * k <= n;
  bound_list k e size n :
    valid_data (SequenceType (ListType (mkListTypeData k e size))) = true ->
    B (SequenceType (ListType (mkListTypeData k e size))) n ->
    5 <= n /\ (data_type e = true -> exists b, B e b /\ 0 <= b /\ 5 + k * b <= n);
  bound_tuple m size n :
    valid_data (TupleType (mkTupleType m size)) = true -> B (TupleType (mkTupleType m size)) n ->
    fields_room B m (n - 5);
  bound_option u n :
    valid_data (OptionalType u) = true -> B (OptionalType u) n ->
    1 <= n /\ (data_type u = true -> exists b, B u b /\ 1 + b <= n);
  bound_response u w n :
    valid_data (ResponseType u w) = true -> B (ResponseType u w) n ->
    (data_type u = true -> exists b, B u b /\ 1 + b <= n) /\
    (data_type w = true -> exists b, B w b /\ 1 + b <= n);
}.

Lemma zlen_be_bytes n z : zlen (to_be_bytes n z) = Z.of_nat n.
Proof. unfold zlen. by rewrite length_to_be_bytes. Qed.

(** Entries and fields of a tuple agree in order as well. *)
Lemma fields_in_order (P : Value -> TypeSignature -> Prop) (m : DataMap) (tm : TypeMap) :
  m.*1 = tm.*1 -> NoDup tm.*1 ->
  Forall (fun e => exists t, (e.1, t) ∈ tm /\ P e.2 t) m ->
  Forall2 (fun e f => e.1 = f.1 /\ P e.2 f.2) m tm.
Proof.
  revert tm. induction m as [| [k x] m IH]; intros [| [k' u] tm]; try done.
  rewrite !fmap_cons. intros [= <- Hk] [Hn Hnd]%NoDup_cons ((t & Ht & Hp) & Hm)%Forall_cons.
  assert (forall v, (k, v) ∉ tm) as Hnot.
  { intros v Hv. apply Hn, list_elem_of_fmap. by exists (k, v). }
  apply elem_of_cons in Ht as [[= ->] | Ht]; [| by apply Hnot in Ht]. constructor; [done |].
  apply IH; [done | done |]. by_elements. intros [k1 x1] Hin. destruct (Hm _ Hin) as (t & Ht & Hp1).
  exists t. split; [| done]. apply elem_of_cons in Ht as [[= -> ->] | Ht]; [| done].
  destruct Hn. rewrite <- Hk. apply list_elem_of_fmap. by exists (k, x1).
Qed.

Section Lengths.
Context {B : TypeSignature -> Z -> Prop} `{!LengthBound B}.
Context (limit : ContractNameLimit).

Definition bounded (v : Value) : Prop :=
  typed v = true -> wire_ok limit v = true ->
  forall t n, valid_data t = true -> admitted t v = true -> B t n -> zlen (value_bytes v) <= n.

Lemma name_bytes_le name :
  is_clarity_name (as_bytes name) = true \/ is_contract_name (as_bytes name) = true ->
  zlen (name_bytes name) = 1 + name_len name /\ name_len name <= MAX_STRING_LEN.
Proof.
  intros [_ Hl]%legal_name_ascii. unfold name_bytes. rewrite zlen_cons.
  unfold zlen, name_len in *. rewrite as_bytes_length in *. done.
Qed.

Lemma bounded_leaf v : is_leaf v = true -> bounded v.
Proof.
  intros Hl Hv Hw t n Ht (s & Hs & Ha)%admitted_spec Hb.
  destruct (typed_type_of v Hv) as (s' & Hs' & _ & Hds).
  assert (s' = s) as -> by congruence. pose proof (adm_inv t s Hds Ha) as Hinv. clear Hs' Ha Hds.
  destruct v as [i | u | b |[data | | [data | data]]| [p | c] | | | | ]; try done;
    try (injection Hs as <-; subst t);
    try (apply result_bind_Ok in Hs as (k0 & Hn%map_err_Ok & [= <-]); destruct Hinv as (k & -> & Hk));
    cbn [value_bytes]; rewrite zlen_cons, ?zlen_app, ?zlen_be_bytes.
  - apply bound_int in Hb. lia.
  - apply bound_uint in Hb. lia.
  - apply bound_bool in Hb. unfold zlen. cbn. lia.
  - apply bound_buffer in Hb. cbn [typed] in Hv. apply Z.leb_le in Hv.
    rewrite length_ok in Hn by (unfold zlen in *; lia). injection Hn as <-. lia.
  - apply bound_utf8 in Hb. cbn [typed] in Hv. apply andb_true_iff in Hv as [_ Hv].
    apply forallb_True_iff_Forall in Hv. setoid_rewrite bool_decide_eq_true in Hv.
    apply utf8_chars_concat in Hv as [_ Hv]. unfold StringUTF8Length_try_from in Hn.
    repeat case_match; try done. injection Hn as <-. lia.
  - apply bound_ascii in Hb. pose proof Hv as [Hl' _]%andb_true_iff. apply Z.leb_le in Hl'.
    rewrite length_ok in Hn by (unfold zlen in *; lia). injection Hn as <-. lia.
  - apply bound_principal in Hb. cbn [wire_ok] in Hw.
    apply andb_true_iff in Hw as [[_ Hw%Nat.eqb_eq]%andb_true_iff _].
    unfold spd_bytes_of. rewrite zlen_cons. unfold zlen. rewrite Hw. lia.
  - apply bound_principal in Hb. cbn [wire_ok] in Hw. apply andb_true_iff in Hw as [[Hw Hc]%andb_true_iff _].
    apply andb_true_iff in Hw as [[_ Hw%Nat.eqb_eq]%andb_true_iff _].
    destruct (name_bytes_le (contract_name c) (or_intror Hc)) as [Hnb Hnl].
    unfold contract_bytes, spd_bytes_of. rewrite zlen_app, zlen_cons, Hnb. unfold zlen. rewrite Hw.
    unfold MAX_STRING_LEN in Hnl. lia.
Qed.

Lemma bounded_list data lt0 : Forall bounded data -> bounded (Sequence (List_ data lt0)).
Proof.
  intros IH Hv Hw t n Ht Ha Hb. destruct (admitted_list t data lt0 Hv Ha Ht) as (lt & -> & Hn & Hf).
  apply wire_ok_list in Hw. destruct lt as [k e size]. cbn [get_max_len get_list_item_type] in *.
  destruct (bound_list k e size n Ht Hb) as [H5 He].
  cbn [value_bytes]. rewrite zlen_cons, zlen_app, zlen_be_bytes.
  destruct data as [| x0 data0] eqn:Ed; [unfold zlen; cbn; lia |]. rewrite <- Ed in *.
  assert (valid_data e = true) as Hve by (subst data; apply Forall_cons in Hf as [(_ & _ & ?) _]; done).
  destruct He as (b & Hbe & Hb0 & Hle); [by apply andb_true_iff in Hve as [_ ?] |].
  enough (zlen (concat (map value_bytes data)) <= zlen data * b) by nia. clear Ed Hv Ha Hn.
  induction data as [| x data IHd]; [done |]. apply Forall_cons in IH as [IHx IH], Hw as [Hwx Hw], Hf as [(Hx & Hxa & _) Hf].
  cbn [map concat]. rewrite zlen_app, zlen_cons. specialize (IHd IH Hw Hf).
  specialize (IHx Hx Hwx e b Hve Hxa Hbe). lia.
Qed.

Lemma bounded_tuple ty0 m : Forall (fun e => bounded e.2) m -> bounded (Tuple (mkTuple ty0 m)).
Proof.
  intros IH Hv Hw t n Ht Ha Hb. destruct (admitted_tuple t m ty0 Hv Ha Ht) as (ty & -> & Hk & Hf).
  apply wire_ok_tuple in Hw. destruct ty as [tm size]. cbn [get_type_map] in *.
  apply bound_tuple in Hb; [| done]. pose proof Ht as [Hvt _]%andb_true_iff.
  apply valid_tuple in Hvt as (_ & Ho%ordered_NoDup & _).
  assert (Forall2 (fun e f => e.1 = f.1 /\ typed e.2 = true /\ admitted f.2 e.2 = true /\ valid_data f.2 = true) m tm) as H2.
  { apply (fields_in_order (fun x t => typed x = true /\ admitted t x = true /\ valid_data t = true)); [done | done |].
    eapply Forall_impl; [exact Hf |]. naive_solver. }
  cbn [value_bytes]. rewrite zlen_cons, zlen_app, zlen_be_bytes.
  enough (zlen (concat (map (fun '(key, x) => name_bytes key ++ value_bytes x) m)) <= n - 5) by lia.
  clear Hv Ha Hk Hf Ho Ht. revert n Hb. induction H2 as [| [k x] [k' u] m tm (Hkk & Hx & Hxa & Hvu) _ IH2];
    intros n Hb; inversion Hb as [| ? ? ? b n' ? Hbu Hrest Hle]; subst; [done |].
  apply Forall_cons in IH as [IHx IH], Hw as [[Hn Hwx] Hw]. cbn [fst snd] in *. subst k'.
  cbn [map concat].
  destruct (name_bytes_le k (or_introl Hn)) as [Hnb _].
  rewrite !zlen_app, Hnb. specialize (IH2 IH Hw (n' + 5)). specialize (IHx Hx Hwx u b Hvu Hxa Hbu).
  replace (n' + 5 - 5) with n' in IH2 by lia. specialize (IH2 Hrest). lia.
Qed.

Lemma values_bounded v : bounded v.
Proof.
  induction v using value_induction; try by apply bounded_leaf.
  - by apply bounded_list.
  - by apply bounded_tuple.
  - intros Hv Hw t n Ht (s & [= <-] & Ha)%admitted_spec Hb.
    destruct (adm_inv _ (OptionalType NoType) eq_refl Ha) as (u & ->).
    apply bound_option in Hb as [? _]; [| done]. unfold zlen. cbn. lia.
  - intros Hv Hw t n Ht Ha Hb. destruct (admitted_some t v Hv Ha Ht) as (u & -> & Hx & Hxa & Hvu).
    pose proof Hvu as [_ Hdu]%andb_true_iff.
    destruct (bound_option u n Ht Hb) as [_ Hu]. destruct (Hu Hdu) as (b & Hbu & Hle). clear Hb.
    cbn [value_bytes]. rewrite zlen_cons. specialize (IHv Hx Hw u b Hvu Hxa Hbu). lia.
  - intros Hv Hw t n Ht Ha Hb. destruct (admitted_response t c v Hv Ha Ht) as (u & w & -> & Hx & Hxa & Hvu).
    pose proof Hvu as [_ Hdu]%andb_true_iff. apply bound_response in Hb as [Hbu Hbw]; [| done].
    assert (exists b, B (if c then u else w) b /\ 1 + b <= n) as (b & Hbc & Hle) by (destruct c; auto).
    cbn [value_bytes]. rewrite zlen_cons. specialize (IHv Hx Hw _ b Hvu Hxa Hbc). lia.
Qed.
End Lengths.

(** *** Twice the size *)

Definition twice_size (t : TypeSignature) (n : Z) : Prop :=
  valid_type t = true /\ exists x, inner_size t = Some x /\ n = 2 * x.

Lemma twice_size_intro t : valid_type t = true -> exists x, 1 <= x /\ inner_size t = Some x /\ twice_size t (2 * x).
Proof.
  intros Hv. destruct (valid_size_pos t Hv) as (x & Hx & ?). exists x. split_and!; [done | done |].
  split; [done | by exists x].
Qed.

Lemma twice_size_list k e size n :
  twice_size (SequenceType (ListType (mkListTypeData k e size))) n ->
  exists b, twice_size e b /\ 0 <= b /\ 5 + k * b <= n.
Proof.
  intros [(Hve & Hk & (_ & s & Hs & [= ->])%new_list_Ok)%valid_list (x & [= <-] & ->)].
  apply list_compute_inner_size_Some in Hs as (es & ts & Hes & Hts & _ & _ & -> & _).
  destruct (twice_size_intro e Hve) as (es' & ? & Hes' & Ht). assert (es' = es) as -> by congruence.
  exists (2 * es). split_and!; [done | lia |].
  apply bind_Some in Hts as (y & Hy%inner_type_size_nonneg & (z & Hz%checked_Some & [-> _]%capped_Some)%bind_Some).
  unfold TYPE_LENGTH_FIELD_SIZE, TYPE_DISCRIMINANT_SIZE in Hz. cbn [list_type_size]. lia.
Qed.

Lemma twice_size_fields m :
  Forall (fun f => valid_type f.2 = true) m ->
  fields_room twice_size m (zlen m + 2 * field_sum inner_size m).
Proof.
  induction 1 as [| [k t] m Ht _ IH]; [by constructor |].
  destruct (twice_size_intro t Ht) as (x & ? & Hx & Hb). eapply room_cons; [exact Hb | exact IH |].
  rewrite zlen_cons. cbn. cbn in Hx. rewrite Hx. cbn. pose proof (name_len_nonneg k). lia.
Qed.

Lemma fields_room_mono (B : TypeSignature -> Z -> Prop) m n n' : fields_room B m n -> n <= n' -> fields_room B m n'.
Proof. destruct 1; intros; [constructor; lia | eapply room_cons; [done | done | lia]]. Qed.

#[export] Instance twice_size_bound : LengthBound twice_size.
Proof.
  split.
  1-4: intros n [_ (x & [= <-] & ->)]; ints.
  1-3: intros k n [Hv%in_range_spec (x & Hx & ->)]; cbn [inner_size] in Hx.
  - apply checked_Some in Hx as [-> _]. ints.
  - apply checked_Some in Hx as [-> _]. ints.
  - apply bind_Some in Hx as (y & [-> _]%checked_Some & [-> _]%checked_Some). ints.
  - intros k e size n Hv Hb. destruct (twice_size_list k e size n Hb) as (b & ? & ? & ?).
    destruct Hb as [(_ & Hk & _)%valid_list _]. unfold is_u32 in Hk. split; [nia | eauto].
  - intros m size n [Hv Hd]%andb_true_iff [_ (x & [= <-] & ->)].
    pose proof (valid_tuple_size m size Hv) as (? & ? & _). apply valid_tuple in Hv as (Hf & _ & _).
    eapply fields_room_mono; [by apply twice_size_fields |]. cbn [tuple_type_size]. lia.
  - intros u n _ [Hv (x & Hx & ->)]. pose proof Hv as [Hvu _]%valid_option.
    destruct (twice_size_intro u Hvu) as (y & ? & Hy & Hb). cbn [inner_size] in Hx. rewrite Hy in Hx.
    apply checked_Some in Hx as [-> _]. unfold WRAPPER_VALUE_SIZE. split; [lia |].
    intros _. exists (2 * y). split; [done | lia].
  - intros u w n _ [Hv (x & Hx & ->)]. pose proof Hv as (Hvu & Hvw & _)%valid_response.
    destruct (twice_size_intro u Hvu) as (y & ? & Hy & Hb), (twice_size_intro w Hvw) as (z & ? & Hz & Hb').
    cbn [inner_size] in Hx. rewrite Hy, Hz in Hx. apply checked_Some in Hx as [-> _].
    unfold WRAPPER_VALUE_SIZE. split; intros _; [exists (2 * y) | exists (2 * z)]; (split; [done | lia]).
Qed.

(** *** [max_serialized_size] *)

(** A type in which every list type has an entry type: all types that a
    contract can declare *)
Fixpoint entry_types_known (t : TypeSignature) : bool :=
  match t with
  | SequenceType (ListType (mkListTypeData _ e _)) => negb (is_no_type e) && entry_types_known e
  | TupleType (mkTupleType m _) => forallb (fun f => entry_types_known f.2) m
  | OptionalType t => entry_types_known t
  | ResponseType t s => entry_types_known t && entry_types_known s
  | _ => true
  end.

Definition serialized_bound (t : TypeSignature) (n : Z) : Prop :=
  entry_types_known t = true /\ max_serialized_size t = Ok n.

Lemma max_serialized_nonneg t n : max_serialized_size t = Ok n -> 0 <= n.
Proof.
  intros H. assert (exists r : TypeR Z, (x ← r; ok_or (u32_checked_add x 1) TE_ValueTooLarge) = Ok n)
    as (r & (x & _ & Hx%ok_or_Ok%checked_Some)%result_bind_Ok); [| lia].
  destruct t; cbn [max_serialized_size] in H; eauto.
Qed.

Lemma add_serialized_sizes_room size total m s :
  add_serialized_sizes size total m = Ok s ->
  fields_room (fun t n => size t = Ok n) m (s - total).
Proof.
  revert total. induction m as [| [k t] m IH]; intros total; cbn [add_serialized_sizes].
  { intros [= <-]. constructor. lia. }
  intros (x & Hx & (y & Hy%ok_or_Ok & H%IH)%result_bind_Ok)%result_bind_Ok.
  apply bind_Some in Hy as (z & [-> _]%checked_Some & (z' & [-> _]%checked_Some & [-> _]%checked_Some)%bind_Some).
  eapply room_cons; [exact Hx | exact H | lia].
Qed.

Definition undetermined (r : TypeR Z) : Prop := r = Err TE_CouldNotDetermineSerializationType.

Lemma add_serialized_sizes_determined size total m :
  Forall (fun f => ~ undetermined (size f.2)) m -> ~ undetermined (add_serialized_sizes size total m).
Proof.
  unfold undetermined. intros Hm. revert total. induction Hm as [| [k t] m Ht _ IH]; intros total; [done |].
  cbn [add_serialized_sizes]. cbn in Ht. destruct (size t) as [x | e |]; cbn; [| congruence | done].
  match goal with |- context [ok_or ?o _] => destruct o; cbn; [apply IH | done] end.
Qed.

(** The size of a value that exists can be determined. *)
Lemma max_serialized_determined t :
  data_type t = true -> entry_types_known t = true -> ~ undetermined (max_serialized_size t).
Proof.
  unfold undetermined.
  assert (forall r : TypeR Z, ~ undetermined r ->
    (x ← r; ok_or (u32_checked_add x 1) TE_ValueTooLarge) <> Err TE_CouldNotDetermineSerializationType) as Hlast.
  { intros [x | e |] Hr; cbn; [by destruct (u32_checked_add x 1) | unfold undetermined in Hr; congruence | done]. }
  induction t as [| | | | |n|[n|n]|n e sz IH|m sz IH|t IH|t s IH IH'|c|l|r] using type_induction;
    intros Hd Hk; try done; cbn [max_serialized_size]; apply Hlast; unfold undetermined; clear Hlast.
  - by destruct (u32_checked_add n 4).
  - by destruct (u32_checked_add n 4).
  - by destruct (_ ≫= _).
  - cbn in Hk. apply andb_true_iff in Hk as [Hne Hk].
    apply data_list in Hd as [Hd | [-> _]]; [| done]. specialize (IH Hd Hk).
    destruct (max_serialized_size e); cbn; [by destruct (_ ≫= _) | congruence | done].
  - apply data_tuple in Hd. apply forallb_True_iff_Forall in Hk.
    apply add_serialized_sizes_determined. by_elements. intros f Hf. unfold undetermined. auto.
  - by destruct (max_serialized_size t) as [| [] |].
  - cbn in Hk. apply andb_true_iff in Hk as [Hk Hk']. apply data_response in Hd as (Hd & Hd' & Hn).
    destruct (max_serialized_size t) as [x | e |] eqn:Et; cbn; [by destruct (max_serialized_size s) as [| [] |] | | done].
    destruct e; try done. cbn. destruct Hd as [-> | Hd]; [| by specialize (IH Hd Hk)].
    destruct Hd' as [-> | Hd']; [tauto |]. specialize (IH' Hd' Hk').
    by destruct (max_serialized_size s) as [| [] |].
Qed.

Lemma fields_room_impl (B B' : TypeSignature -> Z -> Prop) m n :
  Forall (fun f => forall b, B f.2 b -> B' f.2 b) m -> fields_room B m n -> fields_room B' m n.
Proof.
  intros Hm Hr. induction Hr as [| k t m b n n' Hb Hr IH Hle]; [by constructor |].
  apply Forall_cons in Hm as [Ht Hm]. eapply room_cons; [by apply Ht | by apply IH | done].
Qed.

(** The last step of [max_serialized_size]: the byte of the prefix *)
Lemma with_prefix (r : TypeR Z) n :
  (x ← r; ok_or (u32_checked_add x 1) TE_ValueTooLarge) = Ok n -> r = Ok (n - 1).
Proof.
  intros (x & -> & [-> _]%ok_or_Ok%checked_Some)%result_bind_Ok. f_equal. lia.
Qed.

#[export] Instance serialized_bound_bound : LengthBound serialized_bound.
Proof.
  split.
  1-4: intros n [_ H]; vm_compute in H; injection H as <-; lia.
  1-2: intros k n [_ H%with_prefix%ok_or_Ok%checked_Some]; lia.
  - intros k n [_ H%with_prefix%ok_or_Ok].
    apply bind_Some in H as (y & [-> _]%checked_Some & Hn%checked_Some). lia.
  - intros k e size n [Hv Hd]%andb_true_iff [Hk H%with_prefix]. cbn in Hk. apply andb_true_iff in Hk as [_ Hk].
    apply result_bind_Ok in H as (b & Hb & Hn%ok_or_Ok).
    apply bind_Some in Hn as (y & [-> ?]%checked_Some & Hn%checked_Some).
    pose proof (max_serialized_nonneg e b Hb).
    split; [lia |]. intros _. exists b. split_and!; [by split | done | lia].
  - intros m size n _ [Hk H%with_prefix%add_serialized_sizes_room].
    eapply fields_room_mono; [| exact (Z.le_refl _)]. replace (n - 5) with (n - 1 - 4) by lia.
    eapply fields_room_impl; [| exact H]. cbn in Hk. apply forallb_True_iff_Forall in Hk.
    eapply Forall_impl; [exact Hk |]. intros f Hf b Hb. by split.
  - intros u n _ [Hk H]. cbn [max_serialized_size] in H. apply with_prefix in H.
    destruct (max_serialized_size u) as [b | e |] eqn:E; [| | done].
    + injection H as H. pose proof (max_serialized_nonneg u b E). split; [lia |].
      intros _. exists b. split; [by split | lia].
    + destruct e; try done. injection H as H. split; [lia |]. intros Hd.
      by destruct (max_serialized_determined u Hd Hk).
  - intros u w n _ [Hk H]. cbn [max_serialized_size] in H. apply with_prefix in H.
    cbn in Hk. apply andb_true_iff in Hk as [Hk Hk'].
    apply result_bind_Ok in H as ([x no] & Hx & (y & Hy & [= Hn])%result_bind_Ok).
    split; intros Hd.
    + pose proof (max_serialized_determined u Hd Hk) as Hu.
      destruct (max_serialized_size u) as [b | [] |] eqn:E; try done; try by destruct Hu.
      injection Hx as -> _. exists x. split; [by split | lia].
    + pose proof (max_serialized_determined w Hd Hk') as Hw.
      destruct (max_serialized_size w) as [b | [] |] eqn:E; try done; try by destruct Hw.
      injection Hy as ->. exists y. split; [by split | lia].
Qed.

(** ** The bytes are bytes *)

Lemma all_bytes_ok bs : all_bytes bs = true -> bytes_ok bs.
Proof.
  intros H%forallb_in_range. eapply Forall_impl; [exact H |]. unfold is_byte. intros b ?. lia.
Qed.

Lemma ascii_only_ok bs : ascii_only bs -> bytes_ok bs.
Proof. intros H. eapply Forall_impl; [exact H |]. unfold is_byte. intros b ?. cbn in *. lia. Qed.

(** The length that the first byte of a character announces *)
Ltac utf8_class :=
  unfold utf8_tail, utf8_cont, in_range in *; cbn [length];
  repeat match goal with |- context [if ?x <? ?y then _ else _] => destruct (Z.ltb_spec x y) end;
  first [reflexivity | lia].

Lemma utf8_char_spec c : utf8_chars c = Some [c] -> bytes_ok c /\ utf8_char c.
Proof.
  assert (forall b tail, length tail = utf8_tail b -> utf8_char (b :: tail)) as Hc
    by (intros b tail ?; by exists b, tail).
  unfold bytes_ok, is_byte, utf8_cont in *. destruct c as [| b0 r0]; [done |]. cbn [utf8_chars].
  destruct (in_range 0 127 b0) eqn:E0.
  { intros (cs & _ & [= <- _])%bind_Some. split; [repeat constructor; ints | apply Hc]. utf8_class. }
  destruct r0 as [| b1 r1]; [done |].
  destruct (in_range 194 223 b0 && utf8_cont b1) eqn:E1.
  { intros (cs & _ & [= <- _])%bind_Some. unfold utf8_cont in E1.
    split; [repeat constructor; ints | apply Hc]. utf8_class. }
  destruct r1 as [| b2 r2]; [done |]. case_match eqn:E2.
  { intros (cs & _ & [= <- _])%bind_Some. unfold utf8_cont, in_range in *.
    split; [repeat constructor; lia | apply Hc]. utf8_class. }
  destruct r2 as [| b3 r3]; [done |]. case_match eqn:E3; [| done].
  intros (cs & _ & [= <- _])%bind_Some. unfold utf8_cont, in_range in *.
  split; [repeat constructor; lia | apply Hc]. utf8_class.
Qed.

Lemma name_bytes_ok name :
  is_clarity_name (as_bytes name) = true \/ is_contract_name (as_bytes name) = true ->
  bytes_ok (name_bytes name) /\ name_fits name.
Proof.
  intros [Ha Hl]%legal_name_ascii. unfold name_bytes, name_fits, zlen, MAX_STRING_LEN in *.
  rewrite as_bytes_length in Hl. split; [constructor; [unfold is_byte; lia | by apply ascii_only_ok] | ints].
Qed.

Lemma spd_bytes_ok p : principal_ok p = true -> bytes_ok (spd_bytes_of p).
Proof.
  intros [[Hv _]%andb_true_iff Hb]%andb_true_iff. apply in_range_spec in Hv.
  constructor; [unfold is_byte; lia | by apply all_bytes_ok].
Qed.

Lemma contract_ok limit c :
  wire_ok limit (Principal (Contract c)) = true -> bytes_ok (contract_bytes c) /\ name_fits (contract_name c).
Proof.
  intros [[Hp Hn]%andb_true_iff _]%andb_true_iff.
  destruct (name_bytes_ok (contract_name c) (or_intror Hn)). split; [| done].
  apply Forall_app. split; [by apply spd_bytes_ok | done].
Qed.

(** What is written for a typed value: its lengths fit, and its bytes are
    bytes. *)
Lemma wire_writes limit v :
  typed v = true -> wire_ok limit v = true -> sized v /\ bytes_ok (value_bytes v).
Proof.
  assert (forall p, is_byte (prefix_u8 p)) as Hp by (intros []; unfold is_byte; cbn; lia).
  induction v as [i|u|b|data|data lt IH|c|p|ty m IH| |v IH|c v IH|c t] using value_induction; intros Hv Hw;
    cbn [value_bytes]; try (split; [done | constructor; [apply Hp | by apply to_be_bytes_ok]]).
  - split; [done | constructor; [apply Hp | constructor]].
  - cbn [typed] in Hv. apply Z.leb_le in Hv. split; [done |]. constructor; [apply Hp |].
    apply Forall_app. split; [apply to_be_bytes_ok | by apply all_bytes_ok].
  - apply typed_list in Hv as (Hvt & _ & Hl & Hf). apply wire_ok_list in Hw.
    assert (Forall (fun x => sized x /\ bytes_ok (value_bytes x)) data) as [Hs Hb]%Forall_and.
    { by_elements. intros x Hx. destruct (Hf x Hx). by apply (IH x Hx); auto. }
    destruct lt as [n e size]. pose proof (valid_list_length n e size Hvt).
    split; [apply sized_list; split; [unfold zlen in *; cbn in Hl; ints | done] |].
    constructor; [apply Hp |]. apply Forall_app. split; [apply to_be_bytes_ok |].
    apply Forall_concat, Forall_map. done.
  - destruct c as [data | data]; cbn [value_bytes].
    + pose proof (typed_utf8 data Hv) as (_ & _ & Hl). split; [cbn; unfold zlen in Hl; ints |].
      constructor; [apply Hp |]. apply Forall_app. split; [apply to_be_bytes_ok |].
      cbn [typed] in Hv. apply andb_true_iff in Hv as [_ Hv]. apply forallb_True_iff_Forall in Hv.
      apply Forall_concat. eapply Forall_impl; [exact Hv |]. by intros c [? _]%bool_decide_eq_true%utf8_char_spec.
    + cbn [typed] in Hv. apply andb_true_iff in Hv as [Hl%Z.leb_le Hv]. split; [done |].
      constructor; [apply Hp |]. apply Forall_app. split; [apply to_be_bytes_ok |].
      apply forallb_True_iff_Forall in Hv. eapply Forall_impl; [exact Hv |]. intros b Hb. cbn in Hb.
      unfold is_clarity_ascii, is_ascii_alphanumeric, is_ascii_punctuation, is_ascii_whitespace, in_range in Hb.
      unfold is_byte. lia.
  - destruct p as [p | c]; [| destruct (contract_ok limit c Hw)]; (split; [done | constructor; [apply Hp |]]);
      [by apply spd_bytes_ok | done].
  - apply typed_tuple in Hv as (Hvt & _ & Hk & Hf). apply wire_ok_tuple in Hw.
    assert (Forall (fun e => (name_fits e.1 /\ sized e.2) /\ bytes_ok (name_bytes e.1 ++ value_bytes e.2)) m)
      as [Hs Hb]%Forall_and.
    { by_elements. intros e He. destruct (Hf e He) as [Ht _], (Hw e He) as [Hn Hwe].
      destruct (IH e He Ht Hwe), (name_bytes_ok e.1 (or_introl Hn)). split; [done |]. by apply Forall_app. }
    pose proof (valid_tuple_length ty Hvt).
    assert (zlen m = tuple_type_len ty).
    { unfold zlen, tuple_type_len. by rewrite <- (length_fmap fst), Hk, length_fmap. }
    split; [apply sized_tuple; split; [unfold zlen in *; ints | done] |].
    constructor; [apply Hp |]. apply Forall_app. split; [apply to_be_bytes_ok |].
    apply Forall_concat, Forall_map. eapply Forall_impl; [exact Hb |]. by intros [].
  - split; [done | constructor; [apply Hp | constructor]].
  - apply typed_some in Hv as [Hv _]. destruct (IH Hv Hw). split; [done | by constructor].
  - apply typed_response in Hv as [Hv _]. destruct (IH Hv Hw). split; [done | by constructor].
  - done.
Qed.

(** Such values are written injectively. *)
Lemma wire_wf limit v : typed v = true -> wire_ok limit v = true -> wf_value v.
Proof.
  intros Hv Hw. pose proof (wire_writes limit v Hv Hw) as [Hs _]. revert Hv Hw Hs.
  induction v as [i|u|b|data|data lt IH|c|p|ty m IH| |v IH|c v IH|c t] using value_induction; intros Hv Hw Hs;
    try (split; [done |]; cbn in Hw; cbn; unfold is_i128, is_u128; ints).
  - apply typed_list in Hv as (_ & _ & _ & Hf). apply wire_ok_list in Hw.
    apply sized_list in Hs as [Hl Hs]. apply wf_value_list. split; [done |].
    by_elements. intros x Hx. destruct (Hf x Hx). by apply IH; auto.
  - split; [done |]. destruct c as [data | data]; [| done]. cbn [typed] in Hv.
    apply andb_true_iff in Hv as [_ Hv]. apply forallb_True_iff_Forall in Hv.
    eapply Forall_impl; [exact Hv |]. by intros c [_ ?]%bool_decide_eq_true%utf8_char_spec.
  - split; [done |]. destruct p as [p | p]; cbn in Hw; unfold principal_ok in Hw; cbn; unfold hash_sized;
      rewrite ?andb_true_iff in Hw; destruct_and!; by apply Nat.eqb_eq.
  - apply typed_tuple in Hv as (_ & _ & _ & Hf). apply wire_ok_tuple in Hw.
    apply sized_tuple in Hs as [Hl Hs]. apply wf_value_tuple. split; [done |].
    by_elements. intros x Hx. destruct (Hf x Hx), (Hs x Hx), (Hw x Hx). split; [done |]. by apply IH.
  - apply typed_some in Hv as [Hv _]. by destruct (IH Hv Hw Hs).
  - apply typed_response in Hv as [Hv _]. by destruct (IH Hv Hw Hs).
Qed.

Lemma value_bytes_inj limit v w :
  typed v = true -> wire_ok limit v = true -> typed w = true -> wire_ok limit w = true ->
  value_bytes v = value_bytes w -> value_eqb v w = true.
Proof.
  intros ? ? ? ? E. apply (values_decode v w [] []); [by eapply wire_wf .. | by rewrite E].
Qed.

(** ** Theorems *)

Lemma serialized_length_le limit v t :
  typed v = true -> wire_ok limit v = true -> valid_data t = true -> admitted t v = true ->
  (forall x, inner_size t = Some x -> zlen (value_bytes v) <= 2 * x) /\
  (forall n, entry_types_known t = true -> max_serialized_size t = Ok n -> zlen (value_bytes v) <= n).
Proof.
  intros Hv Hw Ht Ha. split.
  - intros x Hx. apply (values_bounded (B := twice_size) limit v Hv Hw t (2 * x) Ht Ha).
    apply andb_true_iff in Ht as [? _]. split; [done | by exists x].
  - intros n Hk Hn. by apply (values_bounded (B := serialized_bound) limit v Hv Hw t n Ht Ha).
Qed.

Lemma flat_serialized_size t :
  is_flat_sequence t = true -> valid_type t = true ->
  exists n, max_serialized_size t = Ok n /\ n <= MAX_VALUE_SIZE + 5 /\ entry_types_known t = true.
Proof.
  destruct t as [| | | |[k|l|[k|k]]| |?|?|? ?|c|l|i]; try done; intros _ Hv; cbn in Hv; apply in_range_spec in Hv.
  1-2: exists (k + 4 + 1); cbn [max_serialized_size]; unfold u32_checked_add;
    rewrite (proj2 (checked_Some 0 u32_max (k + 4) (k + 4))) by ints; cbn -[Z.add];
    rewrite (proj2 (checked_Some 0 u32_max (k + 4 + 1) (k + 4 + 1))) by ints; split_and!; [done | lia | done].
  - change MAX_UTF8_VALUE_SIZE with 262144 in Hv. exists (k * 4 + 4 + 1).
    cbn [max_serialized_size]. unfold u32_checked_add, u32_checked_mul.
    rewrite (proj2 (checked_Some 0 u32_max (k * 4) (k * 4))) by ints. cbn -[Z.add Z.mul].
    rewrite (proj2 (checked_Some 0 u32_max (k * 4 + 4) (k * 4 + 4))) by ints. cbn -[Z.add Z.mul].
    rewrite (proj2 (checked_Some 0 u32_max (k * 4 + 4 + 1) (k * 4 + 4 + 1))) by ints.
    unfold MAX_VALUE_SIZE. split_and!; [done | lia | done].
Qed.

Lemma serialized_within_bound limit v :
  typed v = true -> wire_ok limit v = true -> zlen (value_bytes v) <= BOUND_VALUE_SERIALIZATION_BYTES.
Proof.
  intros Hv Hw. destruct (typed_type_of v Hv) as (t & Ht & Hvt & Hdt).
  assert (admitted t v = true) as Ha by (apply admitted_spec; exists t; split; [done | by apply adm_refl]).
  assert (valid_data t = true) as Hval by by apply andb_true_iff.
  destruct (serialized_length_le limit v t Hv Hw Hval Ha) as [H2 Hm].
  unfold BOUND_VALUE_SERIALIZATION_BYTES. destruct (is_flat_sequence t) eqn:E.
  - destruct (flat_serialized_size t E Hvt) as (n & Hn & Hle & Hk). specialize (Hm n Hk Hn).
    unfold MAX_VALUE_SIZE in *. lia.
  - destruct (valid_inner_size t Hvt) as (x & Hx & _ & Hle). specialize (H2 x Hx). specialize (Hle E). lia.
Qed.

Lemma decode_serialized sanitize behavior limit v t :
  typed v = true -> wire_ok limit v = true -> valid_data t = true -> admitted t v = true ->
  depth t <= depth_check sanitize ->
  exists v', value_eqb v v' = true /\ within t v' /\
    forall rest, deserialize_read_count_with_options (Some t) sanitize behavior limit (value_bytes v ++ rest)
      = (Ok (v', zlen (value_bytes v)), rest).
Proof.
  intros Hv Hw Ht Ha Hd.
  destruct (values_round sanitize behavior limit v Hv Hw t Ht Ha (Z.to_nat (depth_check sanitize)))
    as (v' & Hr & He & Hwi); [pose proof (depth_pos t); lia |].
  exists v'. split_and!; [done | done |]. intros rest. rewrite deserialize_read_count_run.
  assert (zlen (value_bytes v) <= read_bound (Some t) sanitize).
  { pose proof (serialized_within_bound limit v Hv Hw). unfold read_bound, SANITIZATION_READ_BOUND.
    unfold BOUND_VALUE_SERIALIZATION_BYTES, MAX_VALUE_SIZE in *. destruct sanitize; lia. }
  rewrite (Hr _ rest) by (cbn -[read_bound]; done || lia). cbn. unfold num_read, zlen. cbn.
  by rewrite drop_app_length.
Qed.

Lemma sanitizing_depth epoch t :
  valid_data t = true -> value_sanitizing epoch = true \/ depth t <= UNSANITIZED_DEPTH_CHECK ->
  depth t <= depth_check (value_sanitizing epoch).
Proof.
  intros [Hv _]%andb_true_iff Hd. pose proof (valid_depth t Hv). unfold depth_check.
  destruct (value_sanitizing epoch); [done | by destruct Hd].
Qed.

Lemma stored_reads epoch v t :
  value_sanitizing epoch = true \/ depth t <= UNSANITIZED_DEPTH_CHECK ->
  typed v = true -> wire_ok Legacy v = true -> valid_data t = true -> admitted t v = true ->
  exists v', try_deserialize_hex_at_epoch (to_hex (value_bytes v)) t epoch = Ok v' /\
    value_eqb v v' = true /\ typed v' = true /\ admitted t v' = true.
Proof.
  intros Hep Hv Hw Ht Ha. destruct (wire_writes Legacy v Hv Hw) as [_ Hb].
  destruct (decode_serialized (value_sanitizing epoch) (behavior_from_epoch epoch) Legacy v t Hv Hw Ht Ha
    (sanitizing_depth epoch t Ht Hep)) as (v' & He & Hwi & Hdec).
  specialize (Hdec []). rewrite app_nil_r in Hdec. apply within_admitted in Hwi as [? ?].
  exists v'. split_and!; [| done ..].
  unfold try_deserialize_hex_at_epoch. rewrite hex_bytes_to_hex by done. cbn.
  unfold try_deserialize_bytes_at_epoch. by rewrite Hdec.
Qed.

(** C18: What the database stores is read back: for every typed value and every
    type that admits it, in sanitizing epochs (before those, for types nested
    at most 16 deep), serializing the value to hex and deserializing that as
    the type succeeds, and gives an equal value, typed, that the type admits;
    this is so whatever the annotations on the value's lists and tuples, which
    are not stored. *)
Theorem stored_value_reads_back epoch v t :
  value_sanitizing epoch = true \/ depth t <= UNSANITIZED_DEPTH_CHECK ->
  typed v = true -> wire_ok Legacy v = true -> valid_data t = true -> admitted t v = true ->
  exists hex v', serialize_to_hex v = Ok hex /\
    try_deserialize_hex_at_epoch hex t epoch = Ok v' /\
    value_eqb v v' = true /\ typed v' = true /\ admitted t v' = true.
Proof.
  intros Hep Hv Hw Ht Ha. destruct (wire_writes Legacy v Hv Hw) as [Hs _].
  destruct (stored_reads epoch v t Hep Hv Hw Ht Ha) as (v' & ?). exists (to_hex (value_bytes v)), v'.
  split; [| done]. unfold serialize_to_hex. by rewrite serialize_to_vec_bytes.
Qed.


(** The serialization of a typed value is never longer than twice the size
    of any type that admits it, fits the bound within which values are read
    back, and, when every list type in it has an entry type, is no longer than
    the [max_serialized_size] from which the type checker derives the type of
    [to-consensus-buff?]. *)
Theorem serialized_length_bounds limit v t :
  typed v = true -> wire_ok limit v = true -> valid_data t = true -> admitted t v = true ->
  exists bytes, serialize_to_vec v = Ok bytes /\
    zlen bytes <= BOUND_VALUE_SERIALIZATION_BYTES /\
    (forall x, sig_size t = Ok x -> zlen bytes <= 2 * x) /\
    (forall n, entry_types_known t = true -> max_serialized_size t = Ok n -> zlen bytes <= n).
Proof.
  intros Hv Hw Ht Ha. destruct (wire_writes limit v Hv Hw) as [Hs _].
  destruct (serialized_length_le limit v t Hv Hw Ht Ha) as [H2 Hm].
  exists (value_bytes v). split_and!; [by apply serialize_to_vec_bytes | by apply (serialized_within_bound limit) | | done].
  intros x Hx%sig_size_Ok. by apply H2.
Qed.

(** The condition on lists is needed: the code takes an optional of the empty
    list, whose entry type is not known, for one that has no [some] value. *)
Lemma some_empty_list_exceeds_max_size :
  let t := OptionalType (SequenceType (ListType empty_list)) in
  let v := Optional (Some (Sequence (List_ [] empty_list))) in
  typed v = true /\ valid_data t = true /\ type_of v = Ok t /\
  max_serialized_size t = Ok 1 /\ serialize_to_vec v = Ok [10; 11; 0; 0; 0; 0].
Proof. by vm_compute. Qed.

(** ** Witnesses *)

Definition tagged_type : TypeSignature :=
  match tuple_try_from_map [("ids", SequenceType (ListType (mkListTypeData 4 UIntType 70)));
                            ("owner", OptionalType PrincipalType)] with
  | Ok t => TupleType t
  | _ => NoType
  end.

Definition tagged_value : Value :=
  match tuple_from_data [("owner", Optional None);
                         ("ids", Sequence (List_ [UInt 7; UInt 9] (mkListTypeData 2 UIntType 38)))] with
  | Ok t => Tuple t
  | _ => Bool false
  end.

Lemma tagged_ok :
  typed tagged_value = true /\ wire_ok Legacy tagged_value = true /\
  valid_data tagged_type = true /\ admitted tagged_type tagged_value = true.
Proof. by vm_compute. Qed.

Lemma stored_value_reads_back_witness :
  exists hex v', serialize_to_hex tagged_value = Ok hex /\
    try_deserialize_hex_at_epoch hex tagged_type Epoch30 = Ok v' /\
    value_eqb tagged_value v' = true /\ typed v' = true /\ admitted tagged_type v' = true.
Proof.
  destruct tagged_ok as (? & ? & ? & ?). apply stored_value_reads_back; [by left | done ..].
Defined.


Lemma serialized_length_bounds_witness :
  exists bytes, serialize_to_vec tagged_value = Ok bytes /\
    zlen bytes <= BOUND_VALUE_SERIALIZATION_BYTES.
Proof.
  destruct tagged_ok as (? & ? & ? & ?).
  destruct (serialized_length_bounds Legacy tagged_value tagged_type) as (bytes & Hb & Hl & _); [done .. |].
  by exists bytes.
Defined.
