(* ===== verification/DecodedValues.v ===== *)
(** * Values decoded from untrusted bytes

    The decoder of [clarity-types/src/types/serialization.rs], run on arbitrary
    bytes with an expected type, in the epochs that require the exact fields
    of a tuple: whatever it accepts is a well-formed value of that type. *)

From Stdlib Require Import Ascii.
From S2P Require Import Prelude.
From S2P Require Import Bytes.
From S2P Require Import BTree.
From S2P Require Import Epochs.
From S2P Require Import Values.
From S2P Require Import Types.
From S2P Require Import Supertypes.
From S2P Require Import Serialization.
From S2P Require Import TypedValues.
From S2P Require Import Deserialization.
From S2P Require Import ValueRoundTrip.

(** ** Postconditions of reading functions *)

Lemma yields_seq {A B} (Q : A -> Prop) (P : B -> Prop) (m : ReadM A) (f : A -> ReadM B) :
  yields Q m -> (forall a, Q a -> yields P (f a)) -> yields P (m ≫= f).
Proof. intros Hm Hf r b r' (a & r1 & Ha & Hb)%M_bind_Ok. exact (Hf a (Hm _ _ _ Ha) _ _ _ Hb). Qed.

Lemma yields_lift {A} (P : A -> Prop) x : (forall a, x = Ok a -> P a) -> yields P (lift x).
Proof. intros Hx r a r' [= Ha _]. auto. Qed.

Lemma yields_read_exact n : yields (fun bs => length bs = n) (read_exact n).
Proof.
  intros r bs r'. unfold read_exact. destruct (_ =? n)%nat eqn:E; [| done].
  apply Nat.eqb_eq in E. intros [= <- _]. unfold available, zlen in E. rewrite length_take. lia.
Qed.

Lemma yields_check_match t p : yields (fun _ => p t = true) (check_match (Some t) p).
Proof. unfold check_match. destruct (p t) eqn:E; [by apply yields_ret | apply yields_throw]. Qed.

Lemma yields_message {A B} (P : B -> Prop) msg (x : TypeR A) (f : A -> B) :
  (forall a, x = Ok a -> P (f a)) -> yields P (message msg x f).
Proof. intros Hx. apply yields_lift. intros b. destruct x as [a | |]; [| done ..]. intros [= <-]. auto. Qed.

Lemma yields_impl {A} (P Q : A -> Prop) (m : ReadM A) : yields P m -> (forall a, P a -> Q a) -> yields Q m.
Proof. intros Hm HPQ r a r' H. eauto. Qed.

Lemma yields_checked {A} (P : A -> Prop) t p (m : ReadM A) :
  (p t = true -> yields P m) -> yields P (check_match (Some t) p;; m).
Proof.
  intros Hm. eapply yields_seq; [apply yields_check_match |]. cbv beta. intros _ Hp. by apply Hm.
Qed.

(** ** Values of a type *)

Definition of_type (t : TypeSignature) (v : Value) : Prop := typed v = true /\ admitted t v = true.

Lemma of_own_type t v : typed v = true -> type_of v = Ok t -> of_type t v.
Proof.
  intros Hv Ht. split; [done |]. destruct (typed_type_of v Hv) as (s & Hs & ? & ?).
  assert (s = t) as -> by congruence. apply admitted_spec. exists t. split; [done | by apply adm_refl].
Qed.

Lemma of_type_some t v w : of_type t v -> value_some v = Ok w -> of_type (OptionalType t) w.
Proof.
  intros [Hv (s & Hs & Ha)%admitted_spec] [-> Hc]%value_some_Ok.
  assert (typed (Optional (Some v)) = true) as Hw by by apply typed_some.
  split; [done |]. destruct (typed_type_of _ Hw) as (s' & Hs' & _). apply admitted_spec. exists s'. split; [done |].
  destruct (typed_type_of v Hv) as (s0 & Hs0 & _ & Hd0). assert (s0 = s) as -> by congruence.
  cbn [type_of] in Hs'. rewrite Hs in Hs'. apply map_err_Ok in Hs'. apply new_option_Ok in Hs' as [-> _].
  apply adm_option; by right.
Qed.

Lemma of_type_response (c : bool) t e v w :
  of_type (if c then t else e) v -> (if c then value_okay v else value_error v) = Ok w ->
  of_type (ResponseType t e) w.
Proof.
  intros [Hv (s & Hs & Ha)%admitted_spec] Hw.
  assert (w = Response c v /\ is_ok (check_wrapped v) = true) as [-> Hc].
  { destruct c; [by apply value_okay_Ok in Hw | by apply value_error_Ok in Hw]. }
  assert (typed (Response c v) = true) as Ht by by apply typed_response.
  split; [done |]. destruct (typed_type_of _ Ht) as (s' & Hs' & _ & Hd'). apply admitted_spec. exists s'. split; [done |].
  destruct (typed_type_of v Hv) as (s0 & Hs0 & _ & Hd0). assert (s0 = s) as -> by congruence.
  cbn [type_of] in Hs'. rewrite Hs in Hs'. apply map_err_Ok in Hs'.
  destruct c; apply new_response_Ok in Hs' as [-> _]; apply adm_response; try done; split; by (left + right).
Qed.

(** ** The decoder *)

Section Sound.
Context (sanitize : bool) (limit : ContractNameLimit).

Abbreviation read_body := (read_body sanitize EXACT_FIELD_SET limit).
Abbreviation finish_frame := (finish_frame sanitize EXACT_FIELD_SET).

(** A frame that waits for the items of a value of type [t] *)
Definition frame_ok (t : TypeSignature) (f : DeserializeStackItem) : Prop :=
  match f with
  | SList items _ o =>
      exists lt, o = Some lt /\ t = SequenceType (ListType lt) /\ Forall (fun x => typed x = true) items
  | STuple items _ _ o _ next_sanitize =>
      exists ty, o = Some ty /\ t = TupleType ty /\ Forall (fun e => typed e.2 = true) items /\
        (next_sanitize = true -> sanitize = true)
  | SOptionSome o => exists u, o = Some u /\ t = OptionalType u
  | SResponseOk o => exists u w, o = Some u /\ t = ResponseType u w
  | SResponseErr o => exists u w, o = Some w /\ t = ResponseType u w
  | STopLevel _ => False
  end.

Definition item_ok (t : TypeSignature) (x : Item) : Prop :=
  match x with inl v => of_type t v | inr f => frame_ok t f end.

Lemma elided_sanitizes o k : elided sanitize o k = true -> sanitize = true.
Proof. unfold elided. by destruct sanitize. Qed.

Lemma finished_list_ok lt items :
  valid_data (SequenceType (ListType lt)) = true -> Forall (fun x => typed x = true) items ->
  yields (of_type (SequenceType (ListType lt))) (finished_list (Some lt) items).
Proof.
  intros Hv Hi. apply yields_message. intros v Hl.
  assert (typed v = true) by by apply (list_with_type_typed Epoch21 items lt).
  apply of_own_type; [done |]. unfold list_with_type in Hl. case_match; [done |].
  by apply result_bind_Ok in Hl as (_ & _ & [= <-]).
Qed.

Lemma finished_tuple_ok ty items :
  valid_data (TupleType ty) = true -> Forall (fun e => typed e.2 = true) items ->
  yields (of_type (TupleType ty)) (finished_tuple EXACT_FIELD_SET (Some ty) items).
Proof.
  intros Hv Hi. apply yields_message. intros v Hl.
  assert (typed (Tuple v) = true) by by apply (tuple_from_data_typed_exact Epoch21 items ty).
  apply of_own_type; [done |]. apply result_bind_Ok in Hl as (dm & _ & Hl). case_match.
  - by apply result_bind_Ok in Hl as (? & _ & (? & _ & [=])%result_bind_Ok).
  - by injection Hl as <-.
Qed.

Lemma finish_frame_ok t f v o' :
  valid_data t = true -> frame_ok t f ->
  next_expected_type f = Ok o' -> (forall u, o' = Some u -> of_type u v) ->
  yields (item_ok t) (finish_frame v f).
Proof.
  intros Ht Hf Ho Hv. destruct f as [items n o | items n k o key b | o | o | o |]; [.. | done];
    cbn [frame_ok Deserialization.finish_frame next_expected_type] in *.
  - destruct Hf as (lt & -> & -> & Hi). injection Ho as <-. destruct (Hv _ eq_refl) as [Hvt _].
    assert (Forall (fun x => typed x = true) (items ++ [v])) by (apply Forall_app; by repeat constructor).
    case_match; [| apply yields_ret; cbn; eauto].
    eapply yields_seq; [by apply finished_list_ok | intros w Hw; by apply yields_ret].
  - destruct Hf as (ty & -> & -> & Hi & Hb).
    assert (Forall (fun e => typed e.2 = true)
      (if (if sanitize then negb b else true) then items ++ [(key, v)] else items)) as Hp.
    { destruct b; [by rewrite (Hb eq_refl) |]. apply result_bind_Ok in Ho as (u & _ & [= <-]).
      destruct (Hv u eq_refl) as [Hvt _]. destruct sanitize; apply Forall_app; by repeat constructor. }
    destruct (n <=? k + 1).
    + apply yields_bind. intros _.
      eapply yields_seq; [by apply finished_tuple_ok | intros w Hw; by apply yields_ret].
    + apply yields_bind. intros key'. apply yields_ret. cbn. exists ty. split_and!; [done .. |].
      apply elided_sanitizes.
  - destruct Hf as (u & -> & ->). injection Ho as <-. eapply yields_seq; [| intros w Hw; by apply yields_ret].
    apply yields_message. intros w Hw. eapply of_type_some; [by apply Hv | done].
  - destruct Hf as (u & w & -> & ->). injection Ho as <-. eapply yields_seq; [| intros x Hx; by apply yields_ret].
    apply yields_message. intros x Hx. apply (of_type_response true u w v); [by apply Hv | done].
  - destruct Hf as (u & w & -> & ->). injection Ho as <-. eapply yields_seq; [| intros x Hx; by apply yields_ret].
    apply yields_message. intros x Hx. apply (of_type_response false u w v); [by apply Hv | done].
Qed.

Lemma sequence_ok msg (fits : Z -> TypeSignature -> bool) (make : list Z -> TypeR Value)
    (wrap : list Z -> Value) t :
  (forall data v, make data = Ok v -> typed v = true /\ v = wrap data) ->
  (forall data, zlen data <= MAX_VALUE_SIZE -> fits (zlen data) t = true -> admitted t (wrap data) = true) ->
  yields (of_type t)
    (len ← read_u32;
     len ← type_error (BufferLength_try_from len);
     check_match (Some t) (fits len);;
     data ← read_exact (Z.to_nat len);
     message msg (make data) id).
Proof.
  intros Hmake Hfits. apply yields_bind. intros n0.
  eapply yields_seq; [apply (yields_lift (fun n => 0 <= n <= MAX_VALUE_SIZE)) |].
  { intros n Hlen%map_err_Ok. unfold BufferLength_try_from in Hlen. repeat case_match; try done.
    injection Hlen as <-. lia. }
  intros n Hn. eapply (yields_seq (fun _ => fits n t = true)); [apply yields_check_match | intros ? Hfit].
  eapply yields_seq; [apply yields_read_exact | intros data Hdata].
  apply yields_message. intros v [Ht ->]%Hmake. split; [done |].
  cbv beta in Hn, Hdata. assert (zlen data = n) as <- by (unfold zlen; lia). apply Hfits; [lia | done].
Qed.

Lemma read_buffer_ok t : yields (of_type t) (read_buffer (Some t)).
Proof.
  apply (sequence_ok _ fits_buffer buff_from (fun data => Sequence (Buffer data))).
  - intros data v Hv. split; [by apply (buff_from_typed data) |]. by apply result_bind_Ok in Hv as (_ & _ & [= <-]).
  - intros data Hl Hfit. destruct t as [| | | |[k| |]| | | | | | |]; try done.
    apply admitted_spec. eexists. cbn [type_of sequence_type_signature].
    rewrite length_ok by (unfold zlen in *; lia). split; [done |]. unfold adm. cbn in *. by rewrite Hfit.
Qed.

Lemma read_string_ascii_ok t : yields (of_type t) (read_string_ascii (Some t)).
Proof.
  apply (sequence_ok _ fits_ascii string_ascii_from_bytes (fun data => Sequence (String_ (CharASCII data)))).
  - intros data v Hv. split; [by apply (string_ascii_typed data) |].
    apply result_bind_Ok in Hv as (_ & _ & Hv). case_match; [| done]. by injection Hv as <-.
  - intros data Hl Hfit. destruct t as [| | | |[| |[k|k]]| | | | | | |]; try done.
    apply admitted_spec. eexists. cbn [type_of sequence_type_signature].
    rewrite length_ok by (unfold zlen in *; lia). split; [done |]. unfold adm. cbn in *. by rewrite Hfit.
Qed.

Lemma read_string_utf8_ok t : yields (of_type t) (read_string_utf8 (Some t)).
Proof.
  unfold read_string_utf8. apply yields_bind. intros n0. apply yields_bind. intros n.
  apply yields_bind. intros data. cbv zeta.
  eapply yields_seq; [apply yields_check_match | cbv beta; intros ? Hfit]. apply yields_message.
  intros v Hv. unfold id.
  pose proof (string_utf8_typed data v Hv) as Ht. split; [done |]. rewrite Hv in Hfit.
  apply result_bind_Ok in Hv as (cs & _ & (m & Hm & [= <-])%result_bind_Ok).
  destruct t as [| | | |[| |[k|k]]| | | | | | |]; try done. cbn in Hfit.
  apply admitted_spec. eexists. cbn [type_of sequence_type_signature]. rewrite Hm. split; [done |].
  unfold StringUTF8Length_try_from in Hm. repeat case_match; try done. injection Hm as <-.
  unfold adm. cbn. by rewrite Hfit.
Qed.

Lemma read_list_ok t :
  valid_type t = true -> opt_data t -> yields (item_ok t) (read_list (Some t)).
Proof.
  intros Hv Hd. unfold read_list. apply yields_bind. intros n. case_match; [apply yields_throw |].
  destruct t as [| | | |[k|lt|s]| |ty|t|t s|c|l|i];
    try (apply (yields_seq (fun _ => False)); [apply yields_throw | done]).
  eapply (yields_seq (fun o => o = Some lt)); [case_match; [apply yields_throw | by apply yields_ret] |].
  intros o ->. assert (valid_data (SequenceType (ListType lt)) = true) by by apply andb_true_iff; destruct Hd.
  case_match; [apply yields_ret; cbn; exists lt; split_and!; done |].
  eapply yields_seq; [by apply finished_list_ok | intros v Hvv; by apply yields_ret].
Qed.

Lemma read_tuple_ok t :
  valid_type t = true -> opt_data t -> yields (item_ok t) (read_tuple sanitize EXACT_FIELD_SET (Some t)).
Proof.
  intros Hv Hd. unfold read_tuple. apply yields_bind. intros n. case_match; [apply yields_throw |].
  destruct t as [| | | |[k|lt|s]| |ty|t|t s|c|l|i];
    try (apply (yields_seq (fun _ => False)); [apply yields_throw | done]).
  eapply (yields_seq (fun o => o = Some ty)); [case_match; [apply yields_throw | by apply yields_ret] |].
  intros o ->. assert (valid_data (TupleType ty) = true) by by apply andb_true_iff; destruct Hd.
  case_match.
  - apply yields_bind. intros key. apply yields_ret. cbn. exists ty. split_and!; [done .. |].
    apply elided_sanitizes.
  - eapply yields_seq; [by apply finished_tuple_ok | intros v Hvv; by apply yields_ret].
Qed.

Lemma contained_type_ok inner t :
  yields (fun o => exists u, o = Some u /\ inner t = Some u) (contained_type inner (Some t)).
Proof. unfold contained_type. destruct (inner t) eqn:E; [apply yields_ret; eauto | apply yields_throw]. Qed.

Lemma read_body_ok t p :
  valid_type t = true -> opt_data t -> yields (item_ok t) (read_body (Some t) p).
Proof.
  intros Hv Hd.
  assert (forall m, yields (of_type t) m -> yields (item_ok t) (v ← m; item v)) as Hitem.
  { intros m Hm. eapply yields_seq; [exact Hm | intros v Hvv; by apply yields_ret]. }
  assert (forall v, of_type t v -> yields (item_ok t) (item v)) as Hret by (intros v Hvv; by apply yields_ret).
  destruct p; cbn [Deserialization.read_body];
    try (apply yields_checked; intros Hp; destruct t; try discriminate Hp).
  - apply yields_bind. intros. by apply Hret.
  - apply yields_bind. intros. by apply Hret.
  - apply Hitem, read_buffer_ok.
  - by apply Hret.
  - by apply Hret.
  - apply yields_bind. intros. by apply Hret.
  - unfold read_contract. apply Hitem. repeat (apply yields_bind; intros).
    repeat case_match; by (apply yields_ret || apply yields_throw).
  - eapply yields_seq; [apply contained_type_ok | intros o (u & -> & Hu)].
    apply yields_ret. destruct t; try done. injection Hu as <-. cbn. eauto.
  - eapply yields_seq; [apply contained_type_ok | intros o (u & -> & Hu)].
    apply yields_ret. destruct t; try done. injection Hu as <-. cbn. eauto.
  - apply Hret. split; [done |]. apply admitted_spec. eexists. split; [done |]. by apply adm_option; left.
  - eapply yields_seq; [apply contained_type_ok | intros o (u & -> & Hu)].
    apply yields_ret. destruct t; try done. injection Hu as <-. cbn. eauto.
  - by apply read_list_ok.
  - by apply read_tuple_ok.
  - apply Hitem, read_string_ascii_ok.
  - apply Hitem, read_string_utf8_ok.
Qed.

(** The type expected of the next item of a frame *)
Lemma next_expected_ok t f u :
  valid_data t = true -> frame_ok t f -> next_expected_type f = Ok (Some u) ->
  valid_type u = true /\ opt_data u.
Proof.
  intros [Hv Hd]%andb_true_iff Hf Hu. destruct f as [items n o | items n k o key b | o | o | o |]; cbn in Hf, Hu.
  - destruct Hf as ([k e size] & -> & -> & _). injection Hu as <-. apply valid_list in Hv as (? & _).
    split; [done |]. apply data_list in Hd as [? | [? _]]; by (left + right).
  - destruct Hf as ([m size] & -> & -> & _). destruct b; [done |].
    apply result_bind_Ok in Hu as (u' & Hu'%ok_or_Ok%assoc_elem_of & [= <-]).
    apply valid_tuple in Hv as (Hv & _). apply data_tuple in Hd.
    rewrite Forall_forall in Hv. rewrite Forall_forall in Hd. split; [exact (Hv _ Hu') | right; exact (Hd _ Hu')].
  - destruct Hf as (w & -> & ->). injection Hu as <-. apply valid_option in Hv as (? & _).
    by apply data_option in Hd.
  - destruct Hf as (w & w' & -> & ->). injection Hu as <-. apply valid_response in Hv as (? & ? & _).
    by apply data_response in Hd as (? & ? & _).
  - destruct Hf as (w & w' & -> & ->). injection Hu as <-. apply valid_response in Hv as (? & ? & _).
    by apply data_response in Hd as (? & ? & _).
  - done.
Qed.

Lemma frame_data t f : valid_type t = true -> opt_data t -> frame_ok t f -> valid_data t = true.
Proof.
  intros Hv [-> | Hd] Hf; [| by apply andb_true_iff]. destruct f; cbn in Hf; naive_solver.
Qed.

(** What is promised of a value decoded against an expectation *)
Definition expected_ok (e : result SerializationError (option TypeSignature)) (v : Value) : Prop :=
  exists o, e = Ok o /\ forall u, o = Some u -> valid_type u = true -> opt_data u -> of_type u v.

Lemma complete_ok dec n t f :
  valid_data t = true -> frame_ok t f -> (forall e, yields (expected_ok e) (dec e)) ->
  yields (of_type t) (complete sanitize EXACT_FIELD_SET dec n f).
Proof.
  intros Ht Hf Hdec. revert f Hf. induction n as [| n IH]; intros f Hf; cbn [complete]; [by intros ? ? ? |].
  eapply yields_seq; [apply Hdec | intros v (o & Ho & Hv)].
  eapply yields_seq; [apply (finish_frame_ok t f v o Ht Hf Ho) | intros [w | f'] Hx].
  - intros u ->. destruct (next_expected_ok t f u Ht Hf Ho). by apply Hv.
  - by apply yields_ret.
  - by apply IH.
Qed.

Lemma decode_ok d e : yields (expected_ok e) (decode sanitize EXACT_FIELD_SET limit d e).
Proof.
  revert e. induction d as [| d IH]; intros e; cbn [decode]; [apply yields_throw |].
  eapply yields_seq; [apply (yields_lift (fun o => e = Ok o)); auto | intros o ->].
  intros r v r' H. exists o. split; [done |]. intros t -> Hv Hd. revert r v r' H.
  change (yields (of_type t) (x ← read_item sanitize EXACT_FIELD_SET limit (Some t);
    match x with inl v => mret v | inr f => complete sanitize EXACT_FIELD_SET
      (decode sanitize EXACT_FIELD_SET limit d) (missing f) f end)).
  eapply (yields_seq (item_ok t)).
  - unfold read_item. apply yields_bind. intros h. apply yields_bind. intros p. by apply read_body_ok.
  - intros [v | f] Hx; [by apply yields_ret |].
    apply complete_ok; [by apply (frame_data t f) | done | apply IH].
Qed.
End Sound.

(** ** Theorems *)

(** C19: In the epochs that require the exact fields of a tuple, whatever
    [from-consensus-buff?] accepts from untrusted bytes is a well-formed value
    of the expected type, to the end of the input: typed in all its parts and
    admitted by the type. *)
Theorem untrusted_bytes_decode_to_type epoch bytes t v :
  enforces_exact_typed_tuple_field_set epoch = true -> valid_data t = true ->
  try_deserialize_bytes_exact_at_epoch bytes t epoch = Ok v ->
  typed v = true /\ admitted t v = true.
Proof.
  intros He [Hv Hd]%andb_true_iff. unfold try_deserialize_bytes_exact_at_epoch, behavior_from_epoch. rewrite He.
  intros ([w n] & Hw & Hn)%result_bind_Ok. cbn in Hn. case_match; [done |]. injection Hn as <-.
  rewrite deserialize_read_count_run in Hw.
  destruct (decode _ _ _ _ _ _) as [[x | |] r] eqn:E; cbn in Hw; [| done ..]. injection Hw as <- _.
  apply decode_ok in E as (o & [= <-] & Ho). apply (Ho t); [done | done | by right].
Qed.

(** Before those epochs a tuple with a repeated field stands for one that lacks
    another. *)
Lemma legacy_tuple_lacks_field :
  let t := match tuple_try_from_map [("a", BoolType); ("b", BoolType)] with Ok t => TupleType t | _ => NoType end in
  match try_deserialize_bytes_exact_at_epoch [12; 0; 0; 0; 2; 1; 97; 3; 1; 97; 4] t Epoch30 with
  | Ok v => typed v = false
  | _ => False
  end.
Proof. by vm_compute. Qed.

(** ** Witnesses *)

Lemma untrusted_bytes_decode_to_type_witness :
  exists v, try_deserialize_bytes_exact_at_epoch [10; 3] (OptionalType BoolType) Epoch41 = Ok v /\
    typed v = true /\ admitted (OptionalType BoolType) v = true.
Proof.
  exists (Optional (Some (Bool true))). split; [by vm_compute |].
  apply (untrusted_bytes_decode_to_type Epoch41 [10; 3]); by vm_compute.
Defined.
