(* ===== verification/Sanitization.v ===== *)
(** * Sanitization accepts every value of the type

    [Value::sanitize_value] of [clarity-types/src/types/mod.rs] rebuilds a
    value bottom up, inferring the types of lists and tuples anew. Here: on a
    value that the expected type admits it always succeeds, reports no change,
    and returns an equal value. The rebuilt parts have types that [fits] the
    expected one, and types that fit a common type have a supertype that still
    fits it, so that no inferred type is too large or too deep. *)

From S2P Require Import Prelude.
From S2P Require Import BTree.
From S2P Require Import Epochs.
From S2P Require Import Values.
From S2P Require Import Types.
From S2P Require Import Supertypes.
From S2P Require Import Serialization.
From S2P Require Import TypedValues.
From S2P Require Import Deserialization.
From S2P Require Import ValueRoundTrip.

(** ** Types below a type, part by part *)

Inductive fits : TypeSignature -> TypeSignature -> Prop :=
| fits_none t : fits NoType t
| fits_same t :
    match t with IntType | UIntType | BoolType | PrincipalType => True | _ => False end -> fits t t
| fits_buffer n n' : n <= n' -> fits (SequenceType (BufferType n)) (SequenceType (BufferType n'))
| fits_ascii n n' : n <= n' ->
    fits (SequenceType (StringType (ASCII n))) (SequenceType (StringType (ASCII n')))
| fits_utf8 n n' : n <= n' ->
    fits (SequenceType (StringType (UTF8 n))) (SequenceType (StringType (UTF8 n')))
| fits_list n e sz n' e' sz' : n <= n' -> fits e e' ->
    fits (SequenceType (ListType (mkListTypeData n e sz)))
      (SequenceType (ListType (mkListTypeData n' e' sz')))
| fits_tuple m sz m' sz' : Forall2 (fun f f' => f.1 = f'.1 /\ fits f.2 f'.2) m m' ->
    fits (TupleType (mkTupleType m sz)) (TupleType (mkTupleType m' sz'))
| fits_option t t' : fits t t' -> fits (OptionalType t) (OptionalType t')
| fits_response t e t' e' : fits t t' -> fits e e' -> fits (ResponseType t e) (ResponseType t' e').

(** No larger, as a value and as a type, and no deeper *)
Definition lighter (s t : TypeSignature) : Prop :=
  smaller s t /\
  forall k, inner_type_size t = Some k -> exists j, inner_type_size s = Some j /\ 0 <= j <= k.

Lemma type_size_pos t k : valid_type t = true -> inner_type_size t = Some k -> 1 <= k.
Proof.
  intros Hv. destruct t as [| | | |[n|[n e sz]|[n|n]]| |[m sz]|t|t s|[|]|l|t]; cbn;
    try (intros [= <-]; ints).
  - intros H%list_type_size_lower. lia.
  - apply valid_tuple in Hv as (_ & _ & [Hne _]%tuple_try_from_map_Ok).
    intros (h & Hh & (x & Hx & [-> _]%capped_Some)%bind_Some)%bind_Some.
    apply map_header_lower in Hh; [| done].
    destruct (add_fields_mono inner_type_size inner_type_size m h h x) as (y & Hy & ?); [| lia | done |].
    + apply Forall_forall. intros f _ v Hf. exists v. apply inner_type_size_nonneg in Hf as ?. naive_solver lia.
    + assert (y = x) by congruence. lia.
  - intros (x & Hx%inner_type_size_nonneg & ?)%bind_Some. ints.
  - intros (x & Hx%inner_type_size_nonneg & (y & Hy%inner_type_size_nonneg & (z & Hz & ?)%bind_Some)%bind_Some)%bind_Some.
    ints.
Qed.

Lemma lighter_none t : valid_type t = true -> lighter NoType t.
Proof.
  intros Hv. split; [by apply smaller_none |]. intros k Hk. exists 1. split; [done |].
  apply type_size_pos in Hk; [lia | done].
Qed.

Lemma lighter_refl t : valid_type t = true -> lighter t t.
Proof.
  intros Hv. split; [by apply smaller_refl |]. intros k Hk. exists k.
  split; [done |]. apply inner_type_size_nonneg in Hk. lia.
Qed.

Lemma option_lighter s t :
  valid_type (OptionalType t) = true -> lighter s t ->
  new_option s = Ok (OptionalType s) /\ lighter (OptionalType s) (OptionalType t).
Proof.
  intros Hv [Hs Hts]. destruct (smaller_option s t Hv Hs) as [Ho Hso]. split; [exact Ho |]. split; [exact Hso |].
  intros k (x & Hx & Hk)%bind_Some. destruct (Hts x Hx) as (y & Hy & ?). exists (y + 1).
  cbn [inner_type_size]. rewrite Hy. cbn. split; [apply checked_Some |]; ints.
Qed.

Lemma response_lighter s f t e :
  valid_type (ResponseType t e) = true -> lighter s t -> lighter f e ->
  new_response s f = Ok (ResponseType s f) /\ lighter (ResponseType s f) (ResponseType t e).
Proof.
  intros Hv [Hs Hts] [Hf Htf]. destruct (smaller_response s f t e Hv Hs Hf) as [Hr Hsr].
  split; [exact Hr |]. split; [exact Hsr |].
  intros k (x & Hx & (y & Hy & (z & Hz & Hk)%bind_Some)%bind_Some)%bind_Some.
  destruct (Hts x Hx) as (x' & Hx' & ?), (Htf y Hy) as (y' & Hy' & ?). exists (x' + y' + 1).
  cbn [inner_type_size]. rewrite Hx', Hy'. cbn. split; [| ints].
  apply bind_Some. exists (x' + y'). split; apply checked_Some; ints.
Qed.

Lemma list_lighter n e n' e' sz' :
  valid_type (SequenceType (ListType (mkListTypeData n' e' sz'))) = true -> lighter e e' ->
  0 <= n <= n' ->
  exists sz, new_list e n = Ok (mkListTypeData n e sz) /\
    lighter (SequenceType (ListType (mkListTypeData n e sz)))
      (SequenceType (ListType (mkListTypeData n' e' sz'))).
Proof.
  intros (_ & ? & (Hd & x & Hx & [= ->])%new_list_Ok)%valid_list [(es & es' & Hes & Hes' & ? & ?) Hts] Hn.
  apply list_compute_inner_size_Some in Hx as (es0 & ts' & ? & Hts' & Hmul & Hu & -> & Hle).
  assert (es0 = es') as -> by congruence.
  pose proof Hts' as (k & Hk & (k1 & Hk1 & [-> ?]%capped_Some)%bind_Some)%bind_Some.
  destruct (Hts k Hk) as (j & Hj & ?).
  assert (list_compute_type_size e = Some (j + 5)) as Htse.
  { unfold list_compute_type_size, list_compute_type_size_with. rewrite Hj. cbn.
    apply bind_Some. exists (j + 5). split; [apply checked_Some | apply capped_Some]; ints. }
  assert (0 <= es * n <= es' * n') by nia.
  exists (es * n + (j + 5)). split.
  - apply new_list_Ok. split; [lia |]. eexists. split; [| done].
    apply list_compute_inner_size_Some. exists es, (j + 5). split_and!; try done; ints.
  - split.
    + exists (es * n + (j + 5)), (es' * n' + k1). cbn [inner_size list_type_size depth].
      split_and!; try done; ints.
    + intros k' Hk'. change (list_compute_type_size e' = Some k') in Hk'. exists (j + 5). split; [done |]. rewrite Hts' in Hk'. injection Hk' as <-. ints.
Qed.

(** ** Tuples *)

Definition fields_lighter (m m' : TypeMap) : Prop :=
  Forall2 (fun f f' => f.1 = f'.1 /\ lighter f.2 f'.2) m m'.

Lemma fields_lighter_keys m m' : fields_lighter m m' -> m.*1 = m'.*1.
Proof. induction 1 as [| ? ? ? ? [? _] _ IH]; [done |]. rewrite !fmap_cons. congruence. Qed.

Lemma add_fields_lighter (f : TypeSignature -> option Z) m m' a b y :
  Forall2 (fun e e' => e.1 = e'.1 /\
    forall v, f e'.2 = Some v -> exists u, f e.2 = Some u /\ 0 <= u <= v) m m' ->
  0 <= a <= b -> add_fields f b m' = Some y ->
  exists x, add_fields f a m = Some x /\ 0 <= x <= y.
Proof.
  intros Hm. revert a b. induction Hm as [| [n t] [n' t'] m m' [Hn Ht] _ IH]; intros a b Hab; cbn.
  { naive_solver lia. }
  cbn in Hn, Ht. subst n'.
  intros (v & Hv & (b1 & Hb1 & (b2 & Hb2 & Hy)%bind_Some)%bind_Some)%bind_Some.
  destruct (Ht v Hv) as (u & -> & ?). unfold u32_checked_add in *.
  apply checked_Some in Hb1 as [-> ?], Hb2 as [-> ?]. pose proof (name_len_nonneg n).
  destruct (IH (a + u + name_len n) (b + v + name_len n)) as (x & Hx & ?); [lia | done |].
  exists x. split; [| done]. cbn. apply bind_Some. exists (a + u). split; [apply checked_Some; ints |].
  apply bind_Some. exists (a + u + name_len n). split; [apply checked_Some; ints | done].
Qed.

Lemma tuple_type_size_lighter m m' k :
  fields_lighter m m' -> tuple_compute_type_size m' = Some k ->
  exists j, tuple_compute_type_size m = Some j /\ 0 <= j <= k.
Proof.
  intros Hm (h & Hh & (x & Hx & [-> ?]%capped_Some)%bind_Some)%bind_Some.
  pose proof (map_header_nonneg _ _ Hh).
  destruct (add_fields_lighter inner_type_size m m' h h x) as (j & Hj & ?); [| lia | done |].
  { eapply Forall2_impl; [exact Hm |]. intros ? ? [? [_ ?]]. done. }
  exists j. split; [| lia]. unfold tuple_compute_type_size, tuple_compute_type_size_with, map_header in *.
  rewrite (Forall2_length _ _ _ Hm), Hh. cbn. rewrite Hj. apply capped_Some. lia.
Qed.

Lemma tuple_lighter m m' sz' :
  valid_type (TupleType (mkTupleType m' sz')) = true -> fields_lighter m m' ->
  exists sz, tuple_try_from_map m = Ok (mkTupleType m sz) /\
    lighter (TupleType (mkTupleType m sz)) (TupleType (mkTupleType m' sz')).
Proof.
  intros (_ & _ & (Hne & Hd & x & Hx & [= ->])%tuple_try_from_map_Ok)%valid_tuple Hm.
  apply tuple_compute_inner_size_Some in Hx as (Hle & h & ts' & total & Hh & Hts' & Htot & Hsum).
  destruct (tuple_type_size_lighter m m' ts' Hm Hts') as (ts & Hts & ?).
  pose proof (map_header_nonneg _ _ Hh). apply checked_Some in Htot as [-> ?].
  destruct (add_fields_lighter inner_size m m' (h + ts) (h + ts') x) as (y & Hy & ?); [| lia | done |].
  { eapply Forall2_impl; [exact Hm |]. intros f f' [? [(a & b & Ha & Hb & ? & _) _]]. split; [done |].
    intros v Hv. exists a. split; [done |]. assert (v = b) as -> by congruence. lia. }
  exists y. split.
  - apply tuple_try_from_map_Ok. split_and!.
    + intros ->. by apply Forall2_nil_inv_l in Hm as ->.
    + apply Forall_lookup. intros i f Hf. destruct (Forall2_lookup_l _ _ _ _ _ Hm Hf) as (f' & Hf' & _ & (_ & _ & _ & _ & _ & ?) & _).
      rewrite Forall_lookup in Hd. specialize (Hd i f' Hf'). cbn in *. lia.
    + exists y. split; [| done]. apply tuple_compute_inner_size_Some. split; [lia |].
      exists h, ts, (h + ts). unfold map_header in *. rewrite (Forall2_length _ _ _ Hm).
      split_and!; [done | done | apply checked_Some; ints | done].
  - split.
    + exists y, x. split_and!; [done | done | lia | lia |].
      cbn [depth]. enough (foldl (fun max field => Z.max max (depth field.2)) 0 m
        <= foldl (fun max field => Z.max max (depth field.2)) 0 m') by lia.
      assert (forall a b, a <= b -> foldl (fun max field => Z.max max (depth field.2)) a m
        <= foldl (fun max field => Z.max max (depth field.2)) b m') as Hfold; [| by apply Hfold].
      clear - Hm. induction Hm as [| f f' m m' [_ [(_ & _ & _ & _ & _ & ?) _]] _ IH]; intros a b ?; cbn; [done |].
      apply IH. lia.
    + intros k Hk. change (tuple_compute_type_size m' = Some k) in Hk. exists ts. rewrite Hts' in Hk. injection Hk as <-. done.
Qed.

(** Types that fit are lighter. *)
Lemma fits_lighter t :
  valid_type t = true -> forall s, valid_type s = true -> fits s t -> lighter s t.
Proof.
  induction t as [| | | | |n|st|n e sz IH|m sz IH|t IH|t e IH IH'|c|l|r] using type_induction;
    intros Hv s Hs Hf; inversion Hf; subst; try (by apply lighter_none); try done;
    try (by apply lighter_refl).
  1-3: split; [| intros k [= <-]; eexists; split; [done | ints]];
    apply smaller_flat; try done; unfold adm; cbn; f_equal; lia.
  - pose proof Hs as (Hve & Hn & Hl)%valid_list. pose proof Hv as (Hve' & _)%valid_list.
    destruct (list_lighter n0 e0 n e sz) as (z & Hz & Hlt); [done | by apply IH | unfold is_u32 in Hn; lia |].
    by assert (sz0 = z) as -> by congruence.
  - pose proof Hs as (Hvm & _ & Hl)%valid_tuple. pose proof Hv as (Hvm' & _)%valid_tuple.
    destruct (tuple_lighter m0 m sz) as (z & Hz & Hlt); [done | | by assert (sz0 = z) as -> by congruence].
    match goal with H : Forall2 _ _ _ |- _ => rename H into Hfm end.
    apply Forall2_same_length_lookup. split; [by eapply Forall2_length |]. intros i f f' Hi Hi'.
    destruct (Forall2_lookup_lr _ _ _ _ _ _ Hfm Hi Hi') as [? ?]. split; [done |].
    rewrite Forall_lookup in IH, Hvm, Hvm'. by apply (IH i f' Hi'); [apply (Hvm' i) | apply (Hvm i) |].
  - pose proof Hs as (Hvt & Ho)%valid_option. pose proof Hv as (Hvt' & _)%valid_option.
    by apply option_lighter; [| apply IH].
  - pose proof Hs as (Hvt & Hve & Ho)%valid_response. pose proof Hv as (Hvt' & Hve' & _)%valid_response.
    by apply response_lighter; [| apply IH | apply IH'].
Qed.

(** ** Supertypes of types that fit *)

Lemma join_fields_total join mismatch types_a types_b out :
  Forall (fun f => exists b c, assoc f.1 types_b = Some b /\ join f.2 b = Ok c) types_a ->
  exists out', join_fields join mismatch out types_a types_b = Ok out'.
Proof.
  intros Hf. revert out. induction Hf as [| [n t] m (b & c & Hb & Hc) _ IH]; intros out; cbn; [by eexists |].
  cbn in Hb, Hc. rewrite Hb. cbn. rewrite Hc. apply IH.
Qed.

Definition fields_fit (m m' : TypeMap) : Prop :=
  Forall2 (fun f f' => f.1 = f'.1 /\ fits f.2 f'.2) m m'.

Lemma fields_fit_keys m m' : fields_fit m m' -> m.*1 = m'.*1.
Proof. induction 1 as [| ? ? ? ? [? _] _ IH]; [done |]. rewrite !fmap_cons. congruence. Qed.

Lemma fields_fit_lighter m m' :
  Forall (fun f => valid_type f.2 = true) m -> Forall (fun f => valid_type f.2 = true) m' ->
  fields_fit m m' -> fields_lighter m m'.
Proof.
  intros Hv Hv' Hm. induction Hm as [| f f' m m' [? ?] _ IH]; [constructor |].
  apply Forall_cons in Hv as [? ?], Hv' as [? ?]. constructor; [| by apply IH].
  split; [done |]. by apply fits_lighter.
Qed.

Definition joins_fit (t : TypeSignature) : Prop :=
  valid_type t = true -> forall a b, valid_type a = true -> valid_type b = true ->
  fits a t -> fits b t -> exists c, least_supertype_v2_1_impl false a b = Ok c /\ fits c t.

Lemma joins_fit_valid t a b :
  joins_fit t -> valid_type t = true -> valid_type a = true -> valid_type b = true ->
  fits a t -> fits b t ->
  exists c, least_supertype_v2_1_impl false a b = Ok c /\ fits c t /\ valid_type c = true.
Proof.
  intros IH Ht Ha Hb Hfa Hfb. destruct (IH Ht a b Ha Hb Hfa Hfb) as (c & Hc & Hfc).
  exists c. split_and!; [done | done |]. by apply (least_supertype_v2_1_valid false a b).
Qed.

Lemma lists_join_fit na ea sa nb eb sb n e sz :
  joins_fit e ->
  valid_type (SequenceType (ListType (mkListTypeData n e sz))) = true ->
  valid_type (SequenceType (ListType (mkListTypeData na ea sa))) = true ->
  valid_type (SequenceType (ListType (mkListTypeData nb eb sb))) = true ->
  na <= n -> nb <= n -> fits ea e -> fits eb e ->
  exists c, least_supertype_v2_1_impl false (SequenceType (ListType (mkListTypeData na ea sa)))
      (SequenceType (ListType (mkListTypeData nb eb sb))) = Ok c /\
    fits c (SequenceType (ListType (mkListTypeData n e sz))).
Proof.
  intros IH Hv (Hva & Hna & _)%valid_list (Hvb & Hnb & _)%valid_list Hla Hlb Hfa Hfb.
  pose proof Hv as (Hve & _)%valid_list.
  destruct (joins_fit_valid e ea eb IH Hve Hva Hvb Hfa Hfb) as (c & Hc & Hfc & Hvc).
  assert (exists entry, join_entries (least_supertype_v2_1_impl false) na nb ea eb = Ok entry /\
    fits entry e /\ valid_type entry = true) as (entry & He & Hfe & Hvn).
  { unfold join_entries. destruct (na =? 0); [by eauto |]. destruct (nb =? 0); eauto. }
  destruct (list_lighter (Z.max na nb) entry n e sz) as (z & Hz & _);
    [done | by apply fits_lighter | unfold is_u32 in *; lia |].
  cbn [least_supertype_v2_1_impl]. rewrite He. cbn. unfold list_of. rewrite Hz. cbn.
  eexists. split; [done |]. constructor; [lia | done].
Qed.

Lemma tuples_join_fit ma sa mb sb m sz :
  Forall (fun f => joins_fit f.2) m ->
  valid_type (TupleType (mkTupleType m sz)) = true ->
  valid_type (TupleType (mkTupleType ma sa)) = true ->
  valid_type (TupleType (mkTupleType mb sb)) = true ->
  fields_fit ma m -> fields_fit mb m ->
  exists c, least_supertype_v2_1_impl false (TupleType (mkTupleType ma sa)) (TupleType (mkTupleType mb sb)) = Ok c /\
    fits c (TupleType (mkTupleType m sz)).
Proof.
  intros IH Hv (Hva & Hoa & _)%valid_tuple (Hvb & Hob & _)%valid_tuple Hfa Hfb.
  pose proof Hv as (Hvm & _)%valid_tuple.
  assert (Forall2 (fun f f' => f.1 = f'.1 /\ exists b c, assoc f.1 mb = Some b /\
    least_supertype_v2_1_impl false f.2 b = Ok c /\ fits c f'.2 /\ valid_type c = true) ma m) as Hj.
  { apply Forall2_same_length_lookup. split; [by eapply Forall2_length |]. intros i f f' Hi Hi'.
    destruct (Forall2_lookup_lr _ _ _ _ _ _ Hfa Hi Hi') as [Hn Hff]. split; [done |].
    destruct (Forall2_lookup_r _ _ _ _ _ Hfb Hi') as ([nb b] & Hb & Hnb & Hfb'). cbn in Hnb, Hfb'.
    rewrite Forall_lookup in IH, Hva, Hvm. pose proof Hvb as Hvb'. rewrite Forall_lookup in Hvb'.
    destruct (joins_fit_valid f'.2 f.2 b) as (c & Hc & Hfc & Hvc);
      [by eapply IH | by eapply Hvm | by eapply Hva | exact (Hvb' _ _ Hb) | done | done |].
    exists b, c. split_and!; try done. apply elem_of_assoc; [done |].
    rewrite Hn, <- Hnb. by eapply list_elem_of_lookup_2. }
  destruct (join_fields_total (least_supertype_v2_1_impl false)
    (TE_TypeMismatch (TupleType (mkTupleType ma sa)) (TupleType (mkTupleType mb sb))) ma mb []) as (mo & Hmo).
  { apply Forall_lookup. intros i f Hi. destruct (Forall2_lookup_l _ _ _ _ _ Hj Hi) as (_ & _ & _ & b & c & ? & ? & _). eauto. }
  pose proof (join_fields_spec _ _ _ _ _ Hoa Hmo) as [Hjo Hko].
  assert (fields_fit mo m /\ Forall (fun f => valid_type f.2 = true) mo) as [Hfo Hvo].
  { clear - Hj Hjo. revert mo Hjo. induction Hj as [| f f' ma m (Hn & b & c & Hb & Hc & Hfc & Hvc) _ IH];
      intros mo Hjo; [apply Forall2_nil_inv_l in Hjo as ->; by split; constructor |].
    apply Forall2_cons_inv_l in Hjo as (fo & mo' & (Hno & b' & Hb' & Hc') & Hjo & ->).
    assert (fo.2 = c) as Hoc by congruence. destruct (IH _ Hjo) as [? ?].
    split; constructor; try done; [| by rewrite Hoc]. split; [congruence | by rewrite Hoc]. }
  destruct (tuple_lighter mo m sz Hv) as (z & Hz & _); [by apply fields_fit_lighter |].
  cbn [least_supertype_v2_1_impl andb]. rewrite Hmo. cbn. rewrite Hz. cbn.
  eexists. split; [done |]. by constructor.
Qed.

Lemma fits_join t : joins_fit t.
Proof.
  induction t as [| | | | |n|st|n e sz IH|m sz IH|t IH|t e IH IH'|c|l|r] using type_induction;
    intros Hv a b Ha Hb Hfa Hfb.
  all: destruct (decide (a = NoType)) as [-> | Hna];
    [exists b; split; [apply supertype_none_l | done] |].
  all: destruct (decide (b = NoType)) as [-> | Hnb];
    [exists a; split; [apply supertype_none_r | done] |].
  all: inversion Hfa; subst; try done; inversion Hfb; subst; try done.
  1-4: by eexists; split; [done | constructor].
  - eexists. split; [done |]. constructor. destruct (_ >? _); lia.
  - eexists. split; [done |]. constructor. destruct (_ >? _); lia.
  - eexists. split; [done |]. constructor. destruct (_ >? _); lia.
  - by apply lists_join_fit.
  - by apply tuples_join_fit.
  - pose proof Ha as [Hva _]%valid_option. pose proof Hb as [Hvb _]%valid_option.
    pose proof Hv as [Hvt _]%valid_option.
    destruct (joins_fit_valid t t0 t1) as (c & Hc & Hfc & Hvc); [done .. |].
    destruct (option_lighter c t Hv) as [Ho _]; [by apply fits_lighter |].
    cbn [least_supertype_v2_1_impl]. rewrite Hc. cbn. rewrite Ho.
    eexists. split; [done | by constructor].
  - pose proof Ha as (Hva & Hva' & _)%valid_response. pose proof Hb as (Hvb & Hvb' & _)%valid_response.
    pose proof Hv as (Hvt & Hve & _)%valid_response.
    destruct (joins_fit_valid t t0 t1) as (c & Hc & Hfc & Hvc); [done .. |].
    destruct (joins_fit_valid e e0 e1) as (d & Hd & Hfd & Hvd); [done .. |].
    destruct (response_lighter c d t e Hv) as [Ho _]; [by apply fits_lighter .. |].
    cbn [least_supertype_v2_1_impl]. rewrite Hc. cbn. rewrite Hd. cbn. rewrite Ho.
    eexists. split; [done | by constructor].
Qed.

(** ** Types that fit are admitted *)

Lemma fits_adm t :
  valid_type t = true -> forall s, valid_type s = true -> data_type s = true -> fits s t -> adm t s.
Proof.
  induction t as [| | | | |n|st|n e sz IH|m sz IH|t IH|t e IH IH'|c|l|r] using type_induction;
    intros Hv s Hs Hd Hf; inversion Hf; subst; try done.
  1-3: unfold adm; cbn; f_equal; lia.
  - apply valid_list in Hs as (Hve & _), Hv as (Hve' & _).
    apply adm_list. apply data_list in Hd as [Hd | [_ ->]]; [right | by left]. split; [done |]. by apply IH.
  - apply valid_tuple in Hs as (Hvs & Ho & _), Hv as (Hvt & _).
    match goal with H : Forall2 _ _ _ |- _ => rename H into Hfm end.
    apply adm_tuple. split; [symmetry; by eapply Forall2_length |]. apply data_tuple in Hd.
    apply Forall_lookup. intros i f' Hi'. destruct (Forall2_lookup_r _ _ _ _ _ Hfm Hi') as (f & Hi & Hn & Hff).
    exists f.2. rewrite Forall_lookup in IH, Hvs, Hvt, Hd. split.
    + apply elem_of_assoc; [done |]. rewrite <- Hn. apply list_elem_of_lookup. exists i. by destruct f.
    + by apply (IH i f'); [| apply (Hvt i) | apply (Hvs i) | apply (Hd i) |].
  - apply data_option in Hd as Hd'. apply adm_option; [done |]. destruct Hd' as [-> | Hdt]; [by left | right].
    apply valid_option in Hs as [? _], Hv as [? _]. by apply IH.
  - apply adm_response; [done |]. apply data_response in Hd as (Hdt & Hde & _).
    apply valid_response in Hs as (? & ? & _), Hv as (? & ? & _).
    split; [destruct Hdt as [-> | ?] | destruct Hde as [-> | ?]]; try (by left); right; auto.
Qed.

(** ** Sanitizing a value that the type admits *)

Section Total.
Context (epoch : StacksEpochId) (Hs : value_sanitizing epoch = true).

(** [v'] is what [v] is sanitized to for [t]. *)
Definition sanitizes_to (t : TypeSignature) (v v' : Value) : Prop :=
  sanitize_value epoch t v = Some (v', false) /\ value_eqb v v' = true /\ typed v' = true /\
  exists s, type_of v' = Ok s /\ fits s t.

Definition sanitizable (v : Value) : Prop :=
  typed v = true -> forall t, valid_data t = true -> admitted t v = true ->
  exists v', sanitizes_to t v v'.

Lemma sanitizes_to_admitted t v' :
  valid_type t = true -> typed v' = true -> (exists s, type_of v' = Ok s /\ fits s t) ->
  admitted t v' = true.
Proof.
  intros Ht Hv' (s & Hsv & Hf). destruct (typed_type_of v' Hv') as (s' & ? & ? & ?).
  assert (s' = s) as -> by congruence. apply admitted_spec. exists s. split; [done |]. by apply fits_adm.
Qed.

Lemma sanitized_output t v' fl :
  valid_type t = true -> typed v' = true -> (exists s, type_of v' = Ok s /\ fits s t) ->
  admitted_output epoch t v' fl = Some (v', fl).
Proof.
  intros Ht Hv' Hf. apply admitted_output_Some; [by apply sanitizing_modern |].
  split_and!; [done | done |]. by apply sanitizes_to_admitted.
Qed.

Lemma sanitizable_leaf v : is_leaf v = true -> sanitizable v.
Proof.
  intros Hl Hv t Ht Ha. exists v. split_and!;
    [by rewrite sanitize_leaf, Ha | apply value_eqb_refl | done |].
  destruct (typed_type_of v Hv) as (s & Hsv & _ & Hd). exists s. split; [done |].
  apply admitted_spec in Ha as (s' & Hs' & Ha). assert (s' = s) as -> by congruence.
  pose proof (adm_inv t s Hd Ha) as Hinv. clear Hs' Ha.
  destruct v as [| | | [data | data lt | [data | data]] | | | | |]; try discriminate Hl; try discriminate Hv;
    try (injection Hsv as <-; subst t; by constructor);
    apply result_bind_Ok in Hsv as (n & _ & [= <-]);
    destruct Hinv as (k & -> & Hk); by constructor.
Qed.

Lemma sanitizable_some x : sanitizable x -> sanitizable (Optional (Some x)).
Proof.
  intros IH Hv t Ht Ha. destruct (admitted_some t x Hv Ha Ht) as (u & -> & Hx & Hxa & Hvu).
  destruct (IH Hx u Hvu Hxa) as (x' & Hsan & He & Hv' & s & Hsx & Hf).
  pose proof Ht as [Hvt _]%andb_true_iff. destruct (typed_type_of x' Hv') as (s' & ? & Hvs & Hds).
  assert (s' = s) as -> by congruence.
  destruct (option_lighter s u Hvt) as [Ho _].
  { apply fits_lighter; [by apply valid_option in Hvt as [? _] | done | done]. }
  assert (is_ok (check_wrapped x') = true) as Hc by by apply (check_wrapped_Ok x' s).
  assert (typed (Optional (Some x')) = true) as Hvo by by apply typed_some.
  assert (exists s, type_of (Optional (Some x')) = Ok s /\ fits s (OptionalType u)) as Hfo.
  { exists (OptionalType s). cbn [type_of]. rewrite Hsx. cbn. rewrite Ho. split; [done | by constructor]. }
  exists (Optional (Some x')). split_and!; [| done | done | done].
  rewrite sanitize_some, Hsan by done. cbn [mbind option_bind fst snd].
  rewrite (proj2 (value_some_Ok x' _) (conj eq_refl Hc)). by apply sanitized_output.
Qed.

Lemma sanitizable_response c x : sanitizable x -> sanitizable (Response c x).
Proof.
  intros IH Hv t Ht Ha. destruct (admitted_response t c x Hv Ha Ht) as (u & w & -> & Hx & Hxa & Hvu).
  destruct (IH Hx _ Hvu Hxa) as (x' & Hsan & He & Hv' & s & Hsx & Hf).
  pose proof Ht as [Hvt _]%andb_true_iff. destruct (typed_type_of x' Hv') as (s' & ? & Hvs & Hds).
  assert (s' = s) as -> by congruence. pose proof Hvt as (Hvu' & Hvw & _)%valid_response.
  assert (fits (if c then ResponseType s NoType else ResponseType NoType s) (ResponseType u w)) as Hfr
    by (destruct c; by repeat constructor).
  assert (new_option s = Ok (OptionalType s)) as Ho.
  { destruct (response_lighter (if c then s else NoType) (if c then NoType else s) u w Hvt)
      as [(_ & ? & ? & y & z & Hy & Hz & ? & ?)%new_response_Ok _];
      [destruct c; [by apply fits_lighter | by apply lighter_none] |
       destruct c; [by apply lighter_none | by apply fits_lighter] |].
    apply new_option_Ok. split; [done |]. destruct c; eauto. }
  assert (is_ok (check_wrapped x') = true) as Hc by by apply (check_wrapped_Ok x' s).
  assert (typed (Response c x') = true) as Hvo by by apply typed_response.
  assert (exists s, type_of (Response c x') = Ok s /\ fits s (ResponseType u w)) as Hfo.
  { exists (if c then ResponseType s NoType else ResponseType NoType s). split; [| done].
    destruct (new_response_of_option s Ho) as [H1 H2]. cbn [type_of]. rewrite Hsx. cbn [mbind result_bind].
    destruct c; by rewrite ?H1, ?H2. }
  exists (Response c x'). split_and!; [| cbn; by destruct c | done | done].
  rewrite sanitize_response, Hsan by done. cbn [mbind option_bind fst snd].
  replace (if c then value_okay x' else value_error x') with (Ok (Response c x') : TypeR Value).
  - by apply sanitized_output.
  - destruct c; symmetry; [by apply value_okay_Ok | by apply value_error_Ok].
Qed.

Lemma sanitizable_none : sanitizable (Optional None).
Proof.
  intros Hv t [Hvt _]%andb_true_iff (s & [= <-] & Ha)%admitted_spec.
  destruct (adm_inv _ (OptionalType NoType) eq_refl Ha) as (u & ->).
  exists (Optional None). split_and!; [by apply sanitize_none | done | done |].
  exists (OptionalType NoType). split; [done |]. by repeat constructor.
Qed.

(** The type inferred for a list of items whose types fit *)
Lemma fold_entry_types_fit e c cs :
  valid_type e = true -> Forall (fun t => valid_type t = true /\ fits t e) (c :: cs) ->
  exists t, fold_entry_types least_supertype_v2_1 (Some c) (Ok <$> cs) = Ok (Some t) /\
    valid_type t = true /\ fits t e.
Proof.
  intros He. revert c. induction cs as [| d cs IH]; intros c [[Hvc Hfc] Hcs]%Forall_cons.
  { exists c. done. }
  apply Forall_cons in Hcs as [[Hvd Hfd] Hcs]. cbn [fmap list_fmap fold_entry_types mbind result_bind].
  destruct (type_eqb c d); cbn [mbind result_bind].
  - apply IH. by constructor.
  - destruct (joins_fit_valid e c d) as (t & Ht & Hft & Hvt); [apply fits_join | done .. |].
    change (least_supertype_v2_1 c d = Ok t) in Ht. rewrite Ht. cbn [mbind result_bind]. apply IH. by constructor.
Qed.

Lemma inferred_list_fits n e sz (l : list Value) :
  valid_type (SequenceType (ListType (mkListTypeData n e sz))) = true -> zlen l <= n ->
  Forall (fun x => typed x = true /\ exists s, type_of x = Ok s /\ fits s e) l ->
  exists lt, cons_list_unsanitized l = Ok (Sequence (List_ l lt)) /\
    fits (SequenceType (ListType lt)) (SequenceType (ListType (mkListTypeData n e sz))).
Proof.
  intros Hv Hn Hl. pose proof Hv as (Hve & Hnu & _)%valid_list.
  destruct (types_of_list l) as (ts & Hts & Hf2); [by eapply Forall_impl; [exact Hl |]; intros ? [? ?] |].
  assert (Forall (fun t => valid_type t = true /\ fits t e) ts) as Hft.
  { apply Forall_lookup. intros i t Hi. destruct (Forall2_lookup_r _ _ _ _ _ Hf2 Hi) as (x & Hx & Hxt & ? & _).
    rewrite Forall_lookup in Hl. destruct (Hl i x Hx) as (_ & s & Hs' & Hfs).
    assert (t = s) as -> by congruence. done. }
  unfold cons_list_unsanitized, construct_parent_list_type, parent_list_type_from_iter. rewrite Hts.
  destruct ts as [| c cs].
  { apply Forall2_nil_inv_r in Hf2 as ->. exists empty_list. split; [done |].
    constructor; [unfold is_u32 in Hnu; lia | constructor]. }
  destruct (fold_entry_types_fit e c cs Hve Hft) as (t & Ht & Hvt & Hfe).
  destruct (list_lighter (zlen l) t n e sz Hv) as (z & Hz & _);
    [by apply fits_lighter | unfold zlen in *; lia |].
  exists (mkListTypeData (zlen l) t z). split; [| by constructor].
  cbn [fmap list_fmap fold_entry_types mbind result_bind]. change (Ok <$> cs) with (Ok <$> cs : list (TypeR TypeSignature)).
  rewrite Ht. cbn [mbind result_bind].
  rewrite (proj2 (checked_Some 0 u32_max (zlen l) (zlen l))) by (unfold zlen, is_u32 in *; lia).
  cbn [ok_or mbind result_bind]. by rewrite Hz.
Qed.

Lemma sanitizable_list data lt : Forall sanitizable data -> sanitizable (Sequence (List_ data lt)).
Proof.
  intros IH Hv t Ht Ha. destruct (admitted_list t data lt Hv Ha Ht) as ([n e sz] & -> & Hn & Hf).
  cbn [get_max_len get_list_item_type] in *.
  pose proof Ht as [Hvt _]%andb_true_iff. pose proof Hvt as (Hve & Hnu & _)%valid_list.
  assert (Forall (fun x => exists x', sanitizes_to e x x') data) as (data' & Hd')%Forall_choose.
  { by_elements. intros x Hx. destruct (Hf x Hx) as (? & ? & ?). by apply (IH x Hx). }
  assert (Forall (fun x => typed x = true /\ exists s, type_of x = Ok s /\ fits s e) data') as Hl'.
  { clear - Hd'. induction Hd' as [| ? ? ? ? (_ & _ & ? & ?)]; by constructor. }
  pose proof (Forall2_length _ _ _ Hd') as Hlen.
  destruct (inferred_list_fits n e sz data' Hvt) as (lt' & Hlt' & Hfl); [unfold zlen in *; lia | done |].
  assert (typed (Sequence (List_ data' lt')) = true) as Hvl.
  { apply (cons_list_unsanitized_typed e data'); [done | | done]. eapply Forall_impl; [exact Hl' |].
    intros x [? ?]. split; [done |]. by apply sanitizes_to_admitted. }
  exists (Sequence (List_ data' lt')). split_and!; [| | done | by eexists].
  - rewrite sanitize_list by done.
    assert (ok (list_len data) = Some (zlen data)) as ->.
    { unfold list_len, zlen, is_u32 in *. apply ok_Some, ok_or_Ok, checked_Some. lia. }
    cbn [mbind option_bind]. destruct (Z.gtb_spec (zlen data) n); [lia |].
    assert (mapM (sanitize_value epoch e) data = Some ((fun x => (x, false)) <$> data')) as ->.
    { apply mapM_Some, Forall2_fmap_r. eapply Forall2_impl; [exact Hd' |]. by intros x x' [? _]. }
    cbn [mbind option_bind]. rewrite fst_false_pairs, existsb_false_pairs, Hlt'. cbn [ok mbind option_bind].
    by apply sanitized_output; [| | eexists].
  - apply value_eqb_list. eapply Forall2_impl; [exact Hd' |]. by intros x x' (_ & ? & _).
Qed.

Lemma collect_data_total tm dm (data : DataMap) :
  NoDup data.*1 -> Forall (fun e => assoc e.1 tm = None /\ exists t, type_of e.2 = Ok t) data ->
  exists maps, collect_data tm dm data = Ok maps.
Proof.
  revert tm dm. induction data as [| [name v] data IH]; intros tm dm Hnd Hf; [by eexists |].
  rewrite fmap_cons in Hnd. apply NoDup_cons in Hnd as [Hni Hnd].
  apply Forall_cons in Hf as [[Ha [t Ht]] Hf]. cbn in Ha, Ht, Hni. cbn [collect_data]. rewrite Ht.
  cbn [mbind result_bind]. rewrite Ha. apply IH; [done |].
  by_elements. intros [n x] Hin. destruct (Hf _ Hin) as [Hn ?]. split; [| done]. cbn in *.
  rewrite map_insert_assoc. destruct (String.eqb_spec n name) as [-> |]; [| done].
  exfalso. apply Hni, list_elem_of_fmap. by exists (name, x).
Qed.

Lemma inferred_tuple_fits (m : DataMap) tm sz :
  valid_type (TupleType (mkTupleType tm sz)) = true ->
  Forall2 (fun e f => e.1 = f.1 /\ typed e.2 = true /\ exists s, type_of e.2 = Ok s /\ fits s f.2) m tm ->
  exists ty, tuple_from_data m = Ok (mkTuple ty m) /\ fits (TupleType ty) (TupleType (mkTupleType tm sz)).
Proof.
  intros Hv Hm. pose proof Hv as (Hvf & Ho & _)%valid_tuple.
  assert (m.*1 = tm.*1) as Hk.
  { clear - Hm. induction Hm as [| ? ? ? ? [? _] _ IH]; [done |]. rewrite !fmap_cons. congruence. }
  destruct (collect_data_total [] [] m) as [[tm' m'] Hc].
  { rewrite Hk. by apply ordered_NoDup. }
  { apply Forall_lookup. intros i e Hi. split; [done |].
    destruct (Forall2_lookup_l _ _ _ _ _ Hm Hi) as (_ & _ & _ & _ & s & ? & _). eauto. }
  pose proof Hc as ->%collect_data_ordered; [| constructor | by rewrite Hk].
  pose proof Hc as (Htf & _ & _)%collect_data_spec; [| constructor | done]. cbn [app] in *.
  assert (fields_fit tm' tm /\ Forall (fun f => valid_type f.2 = true) tm') as [Hff Hvf'].
  { split; [apply Forall2_same_length_lookup; split |].
    - etrans; by eapply Forall2_length.
    - intros i f' f Hi' Hi. destruct (Forall2_lookup_r _ _ _ _ _ Hm Hi) as (e & He & Hn & _ & s & Hs' & Hfs).
      destruct (Forall2_lookup_l _ _ _ _ _ Htf Hi') as (e' & He' & Hn' & Ht'). simplify_eq.
      split; [congruence |]. by assert (f'.2 = s) as -> by congruence.
    - apply Forall_lookup. intros i f' Hi'. destruct (Forall2_lookup_l _ _ _ _ _ Htf Hi') as (e & He & _ & Ht).
      destruct (Forall2_lookup_l _ _ _ _ _ Hm He) as (_ & _ & _ & Hte & _).
      destruct (typed_type_of _ Hte) as (s & ? & ? & _). by assert (f'.2 = s) as -> by congruence. }
  destruct (tuple_lighter tm' tm sz Hv) as (z & Hz & _); [by apply fields_fit_lighter |].
  exists (mkTupleType tm' z). split; [| by constructor].
  unfold tuple_from_data. rewrite Hc. cbn. by rewrite Hz.
Qed.

Lemma sanitize_fields_choice (m0 m : DataMap) (tm : TypeMap) :
  Forall (fun e => assoc e.1 m0 = Some e.2) m ->
  Forall2 (fun e f => e.1 = f.1 /\ exists x', sanitizes_to f.2 e.2 x') m tm ->
  exists m' : DataMap, Forall2 (fun e e' => e.1 = e'.1 /\ value_eqb e.2 e'.2 = true) m m' /\
    Forall2 (fun e' f => e'.1 = f.1 /\ typed e'.2 = true /\ exists s, type_of e'.2 = Ok s /\ fits s f.2) m' tm /\
    Forall2 (fun f e' => sanitize_field (sanitize_value epoch) m0 f = Some (e'.2, false)) tm m'.
Proof.
  intros Hself Hm. induction Hm as [| e f m tm (Hn & x' & Hs1 & Hs2 & Hs3 & Hs4) _ IH]; [by exists [] |].
  apply Forall_cons in Hself as [Hse Hself]. destruct (IH Hself) as (m' & ? & ? & ?).
  exists ((e.1, x') :: m'). split_and!; constructor; try done.
  unfold sanitize_field. by rewrite <- Hn, Hse.
Qed.

Lemma sanitizable_tuple ty m : Forall (fun e => sanitizable e.2) m -> sanitizable (Tuple (mkTuple ty m)).
Proof.
  intros IH Hv t Ht Ha. destruct (admitted_tuple t m ty Hv Ha Ht) as ([tm sz] & -> & Hk & Hf).
  cbn [get_type_map] in *. pose proof Ht as [Hvt _]%andb_true_iff.
  pose proof Hvt as (Hvf & Ho & _)%valid_tuple.
  assert (Forall2 (fun e f => e.1 = f.1 /\ exists x', sanitizes_to f.2 e.2 x') m tm) as Hm.
  { apply Forall2_same_length_lookup. split; [by rewrite <- (length_fmap fst m), Hk, length_fmap |].
    intros i e [n u] Hi Hi'. assert (e.1 = n) as Hn.
    { assert (m.*1 !! i = Some e.1) as H1 by (by rewrite list_lookup_fmap, Hi).
      rewrite Hk, list_lookup_fmap, Hi' in H1. by injection H1. }
    split; [done |]. rewrite Forall_lookup in IH, Hf. destruct (Hf i e Hi) as (He & u' & Hu' & _ & ? & ?).
    unfold field_type in Hu'. cbn in Hu'. rewrite Hn, (elem_of_assoc n u) in Hu'; [| done | by eapply list_elem_of_lookup_2].
    injection Hu' as <-. by apply (IH i e Hi He). }
  destruct (sanitize_fields_choice m m tm) as (m' & He & Hfit & Hsan); [| done |].
  { apply Forall_forall. intros [n x] Hin. cbn. apply elem_of_assoc; [by rewrite Hk | done]. }
  destruct (inferred_tuple_fits m' tm sz Hvt Hfit) as (ty' & Hty' & Hfty).
  assert (typed (Tuple (mkTuple ty' m')) = true) as Hvl.
  { apply (tuple_from_data_typed_value m'); [| done]. apply Forall_lookup. intros i e Hi.
    by destruct (Forall2_lookup_l _ _ _ _ _ Hfit Hi) as (_ & _ & _ & ? & _). }
  exists (Tuple (mkTuple ty' m')). split_and!; [| by apply value_eqb_tuple | done | by eexists].
  rewrite sanitize_tuple by (done || by apply ordered_NoDup).
  assert (mapM (sanitize_field (sanitize_value epoch) m) tm = Some ((fun e => (e.2, false)) <$> m')) as ->.
  { apply mapM_Some, Forall2_fmap_r. done. }
  cbn [mbind option_bind].
  assert (zip tm.*1 ((fun e : ClarityName * Value => (e.2, false)) <$> m').*1 = m') as ->.
  { rewrite <- list_fmap_compose. change (fst ∘ (fun e : ClarityName * Value => (e.2, false))) with (@snd ClarityName Value).
    clear - Hfit. induction Hfit as [| [n x] [n' u] m' tm [Hn _] _ IH]; [done |]. cbn in *. by rewrite IH, Hn. }
  rewrite Hty'. cbn [ok mbind option_bind].
  assert (existsb snd ((fun e : ClarityName * Value => (e.2, false)) <$> m') || negb (zlen tm =? zlen m) = false) as ->.
  { unfold zlen. rewrite (Forall2_length _ _ _ Hm), Z.eqb_refl, orb_false_r. clear. by induction m'. }
  by apply sanitized_output; [| | eexists].
Qed.

Lemma values_sanitizable v : sanitizable v.
Proof.
  induction v using value_induction; try by apply sanitizable_leaf.
  - by apply sanitizable_list.
  - by apply sanitizable_tuple.
  - apply sanitizable_none.
  - by apply sanitizable_some.
  - by apply sanitizable_response.
Qed.
End Total.

(** C20: From Epoch 2.4 on, sanitizing a typed value for a valid type of data
    succeeds on every value that the type admits, and leaves it as it is in the
    sense of Rust's [PartialEq]. Whenever it succeeds, also on values that have
    to be changed, the result is typed and admitted, the flag says exactly
    whether the value changed, and sanitizing once more changes nothing. *)
Theorem sanitization_exact epoch t v :
  value_sanitizing epoch = true -> valid_data t = true -> typed v = true ->
  (admits epoch t v = Ok true -> exists v', sanitize_value epoch t v = Some (v', false)) /\
  (forall v' did_sanitize, sanitize_value epoch t v = Some (v', did_sanitize) ->
     typed v' = true /\ admits epoch t v' = Ok true /\
     did_sanitize = negb (value_eqb v v') /\ sanitize_value epoch t v' = Some (v', false)).
Proof.
  intros Hs Ht Hv. pose proof (sanitizing_modern _ Hs) as Hm. split.
  - intros Ha. apply admits_admitted in Ha; [| done].
    destruct (values_sanitizable epoch Hs v Hv t Ht Ha) as (v' & ? & _). by exists v'.
  - intros v' fl Hsan. apply andb_true_iff in Ht as [Ht _].
    destruct (sanitizes_all epoch t Hs Ht v v' fl Hv Hsan) as (? & ? & ? & ?).
    split_and!; try done. by apply admits_admitted.
Qed.

(** A tuple with a field that the type lacks, and one of the type *)
Lemma sanitization_exact_witness :
  (exists v', sanitize_value Epoch30 narrow_tuple wide_item = Some (v', true) /\
     typed v' = true /\ admits Epoch30 narrow_tuple v' = Ok true /\
     true = negb (value_eqb wide_item v') /\
     sanitize_value Epoch30 narrow_tuple v' = Some (v', false)) /\
  exists v', sanitize_value Epoch30 narrow_tuple narrow_item = Some (v', false).
Proof.
  split.
  - eexists. split; [by vm_compute |].
    apply (sanitization_exact Epoch30 narrow_tuple wide_item); by vm_compute.
  - apply (sanitization_exact Epoch30 narrow_tuple narrow_item); by vm_compute.
Defined.
