(* ===== verification/ContractData.v ===== *)
(** * What contracts store: data variables, maps, tokens

    [clarity/src/vm/database/clarity_db.rs]: reading and writing Clarity values
    ([put_value], [get_value]), data variables, data maps, fungible and
    non-fungible tokens with their metadata, the liquid STX supply, account
    nonces and the per-block entries; [get_value] and [deserialize_value] of
    [clarity/src/vm/database/key_value_wrapper.rs]; the metadata records of
    [clarity/src/vm/database/structures.rs].

    The operations run on any store that offers [ContractStore]; the rollback
    wrapper offers it. [serde_json] is the class [SerdeJson]. *)

From S2P Require Import Prelude.
From S2P Require Import Bytes.
From S2P Require Import BoundedString.
From S2P Require Import Epochs.
From S2P Require Import Values.
From S2P Require Import Types.
From S2P Require Import RollbackStore.
From S2P Require Import C32.
From S2P Require Import STXBalance.
From S2P Require Import Database.
From S2P Require Import Serialization.
From S2P Require Import VmErrors.
From S2P Require Import TypedValues.
From S2P Require Import Deserialization.

(** ** Records *)

Record ValueResult := mkValueResult { vr_value : Value; serialized_byte_len : Z }.

Record FungibleTokenMetadata := mkFungibleToken { total_supply : option Z }.
Record NonFungibleTokenMetadata := mkNonFungibleToken { nft_key_type : TypeSignature }.
Record DataMapMetadata := mkDataMap { dm_key_type : TypeSignature; dm_value_type : TypeSignature }.
Record DataVariableMetadata := mkDataVariable { dv_value_type : TypeSignature }.

(** ** JSON

    [serde_json::to_string] and [serde_json::from_str] *)
Class SerdeJson (A : Type) := {
  json_to_string : A -> string;
  json_from_str : string -> option A;
}.

(** The integer types whose renderings are read back; integers are [Z]. *)
Definition u128 : Type := Z.
Definition u64 : Type := Z.
#[export] Typeclasses Opaque u128 u64.

(** Reading back what was written *)
Class SerdeJsonLaws (A : Type) `{SerdeJson A} (in_domain : A -> Prop) :=
  json_round_trip a : in_domain a -> json_from_str (json_to_string a) = Some a.

(** The implementation that [clarity_serializable!] gives *)
Definition deserialize_json {A} `{SerdeJson A} (json : string) : result VmExecutionError A :=
  ok_or (json_from_str json) (err_expect "Failed to deserialize vm.Value").

(** ** Values in the rollback wrapper *)

Definition byte_len_of_serialization (serialized : string) : Z :=
  Z.of_nat (String.length serialized) / 2.

(** [Value::none().serialize_to_vec().unwrap().len()] *)
Definition NONE_SERIALIZATION_LEN : Z :=
  match serialize_to_vec value_none with Ok bytes => zlen bytes | _ => 0 end.

Definition deserialize_value (value_hex : string) (expected : TypeSignature)
    (epoch : StacksEpochId) : result SerializationError ValueResult :=
  let serialized_byte_len := Z.of_nat (String.length value_hex) / 2 in
  value ← try_deserialize_hex_at_epoch value_hex expected epoch;
  Ok (mkValueResult value serialized_byte_len).

(** [Some(x)] deserialized, [None] kept *)
Definition deserialize_stored (stored : option string) (expected : TypeSignature)
    (epoch : StacksEpochId) : result SerializationError (option ValueResult) :=
  match stored with
  | Some x => v ← deserialize_value x expected epoch; Ok (Some v)
  | None => Ok None
  end.

Section WrapperValues.
Context {B : Type} `{ClarityBackingStore B}.

Definition wrapper_get_value (key : string) (expected : TypeSignature) (epoch : StacksEpochId)
    : M (RollbackWrapper B) SerializationError (option ValueResult) := fun w =>
  match stack w with
  | [] =>
      (Err (DeserializationFailure "ERROR: Clarity VM attempted GET on non-nested context."), w)
  | _ =>
      match pending (query_pending_data w) (lookup_map w) key with
      | Some x => (deserialize_stored (Some x) expected epoch, w)
      | None =>
          (stored_data ←
             mmap_err (fun _ => DeserializationFailure "ERROR: Clarity backing store failure")
               (on_store (bs_get_data key));
           lift (deserialize_stored stored_data expected epoch)) w
      end
  end.
End WrapperValues.

(** What the database needs of its store besides keys and data *)
Class ContractStore (S : Type) := {
  cs_get_value :
    string -> TypeSignature -> StacksEpochId -> M S SerializationError (option ValueResult);
  cs_insert_metadata : QualifiedContractIdentifier -> string -> string -> M S VmInternalError unit;
  cs_get_metadata : QualifiedContractIdentifier -> string -> M S VmExecutionError (option string);
  cs_has_metadata_entry : QualifiedContractIdentifier -> string -> S -> bool;
}.

#[export] Instance RollbackWrapper_ContractStore B `{ClarityBackingStore B} :
  ContractStore (RollbackWrapper B) := {
  cs_get_value := wrapper_get_value;
  cs_insert_metadata := insert_metadata;
  cs_get_metadata := get_metadata;
  cs_has_metadata_entry := has_metadata_entry;
}.

(** ** The database *)

Section Ops.
Context `{Sha256} `{DebugText} {S : Type} `{KVStore S} `{ContractStore S}.
Context `{SerdeJson u128} `{SerdeJson u64} `{SerdeJson PrincipalData}.
Context `{SerdeJson FungibleTokenMetadata} `{SerdeJson NonFungibleTokenMetadata}.
Context `{SerdeJson DataMapMetadata} `{SerdeJson DataVariableMetadata}.

Abbreviation DbM := (M S VmExecutionError).

(** [?] on a result of the type system *)
Definition type_result {A} (r : TypeR A) : DbM A := lift (map_err vm_from_type r).

(** *** Values *)

Definition filling_buffer_failed (e : SerializationError) : VmExecutionError :=
  err_expect "IOError filling byte buffer.".

Definition put_value_with_size (key : string) (value : Value) (epoch : StacksEpochId) : DbM Z :=
  let sanitize := value_sanitizing epoch in
  '(serialized, pre_sanitized_size) ←
    (if sanitize then
       value_size ← lift (map_err (fun e => err_expect (serialization_error_to_string e))
                            (serialized_size value));
       t ← type_result (type_of value);
       '(sanitized_value, did_sanitize) ←
         lift (ok_or (sanitize_value epoch t value) (RuntimeCheck RC_CouldNotDetermineType));
       bytes ← lift (map_err filling_buffer_failed (serialize_to_vec sanitized_value));
       mret (bytes, if did_sanitize : bool then Some value_size else None)
     else
       bytes ← lift (map_err filling_buffer_failed (serialize_to_vec value));
       mret (bytes, None)) : DbM (list Z * option Z);
  let size := zlen serialized in
  let hex_serialized := to_hex serialized in
  kv_put key hex_serialized;;
  mret (default size pre_sanitized_size).

Definition put_value (key : string) (value : Value) (epoch : StacksEpochId) : DbM unit :=
  put_value_with_size key value epoch;; mret tt.

Definition get_value (key : string) (expected : TypeSignature) (epoch : StacksEpochId)
    : DbM (option ValueResult) :=
  mmap_err (fun e => Internal (VI_DBError (serialization_error_to_string e)))
    (cs_get_value key expected epoch).

(** *** Metadata *)

Definition db_insert_metadata {A} `{SerdeJson A} (contract_identifier : QualifiedContractIdentifier)
    (key : string) (data : A) : DbM unit :=
  s ← get;
  if cs_has_metadata_entry contract_identifier key s then
    throw (err_expect ("Metadata entry '" +:+ key +:+ "' already exists for contract: "
                       +:+ contract_to_string contract_identifier))
  else mmap_err Internal (cs_insert_metadata contract_identifier key (json_to_string data)).

Definition fetch_metadata {A} `{SerdeJson A} (contract_identifier : QualifiedContractIdentifier)
    (key : string) : DbM (option A) :=
  x_opt ← cs_get_metadata contract_identifier key;
  match x_opt with
  | None => mret None
  | Some x => out ← lift (deserialize_json x); mret (Some out)
  end.

Definition map_no_contract_as_none {A} (res : DbM (option A)) : DbM (option A) := fun s =>
  match res s with
  | (Err (RuntimeCheck (RC_NoSuchContract _)), s') => (Ok None, s')
  | r => r
  end.

(** [.ok_or(RuntimeCheckErrorKind::Unreachable(..).into())] on the entry *)
Definition load_metadata {A} `{SerdeJson A} (contract_identifier : QualifiedContractIdentifier)
    (key : string) (missing : string) : DbM A :=
  o ← map_no_contract_as_none (fetch_metadata contract_identifier key);
  lift (ok_or o (RuntimeCheck (RC_Unreachable (bounded_format missing)))).

(** *** Data variables *)

Definition create_variable (contract_identifier : QualifiedContractIdentifier)
    (variable_name : string) (value_type : TypeSignature) : DbM DataVariableMetadata :=
  let variable_data := mkDataVariable value_type in
  let key := make_metadata_key ST_VariableMeta variable_name in
  db_insert_metadata contract_identifier key variable_data;;
  mret variable_data.

Definition load_variable (contract_identifier : QualifiedContractIdentifier)
    (variable_name : string) : DbM DataVariableMetadata :=
  let key := make_metadata_key ST_VariableMeta variable_name in
  load_metadata contract_identifier key ("No such data variable: " +:+ variable_name).

(** [if !t.admits(&self.get_clarity_epoch_version()?, value)? { return Err(..) }] *)
Definition check_admits (t : TypeSignature) (value : Value) : DbM unit :=
  epoch ← get_clarity_epoch_version;
  ok ← type_result (admits epoch t value);
  if ok : bool then mret tt
  else throw (RuntimeCheck (RC_TypeValueError t (to_error_string value))).

Definition set_variable (contract_identifier : QualifiedContractIdentifier)
    (variable_name : string) (value : Value) (variable_descriptor : DataVariableMetadata)
    (epoch : StacksEpochId) : DbM ValueResult :=
  check_admits (dv_value_type variable_descriptor) value;;
  let key := make_key_for_trip contract_identifier ST_Variable variable_name in
  size ← put_value_with_size key value epoch;
  mret (mkValueResult (Bool true) size).

Definition lookup_variable (contract_identifier : QualifiedContractIdentifier)
    (variable_name : string) (variable_descriptor : DataVariableMetadata)
    (epoch : StacksEpochId) : DbM Value :=
  let key := make_key_for_trip contract_identifier ST_Variable variable_name in
  result ← get_value key (dv_value_type variable_descriptor) epoch;
  match result with
  | None => mret value_none
  | Some data => mret (vr_value data)
  end.

Definition lookup_variable_unknown_descriptor
    (contract_identifier : QualifiedContractIdentifier) (variable_name : string)
    (epoch : StacksEpochId) : DbM Value :=
  descriptor ← load_variable contract_identifier variable_name;
  lookup_variable contract_identifier variable_name descriptor epoch.

Definition lookup_variable_with_size (contract_identifier : QualifiedContractIdentifier)
    (variable_name : string) (variable_descriptor : DataVariableMetadata)
    (epoch : StacksEpochId) : DbM ValueResult :=
  let key := make_key_for_trip contract_identifier ST_Variable variable_name in
  result ← get_value key (dv_value_type variable_descriptor) epoch;
  match result with
  | None => mret (mkValueResult value_none NONE_SERIALIZATION_LEN)
  | Some data => mret data
  end.

(** *** Data maps *)

Definition create_map (contract_identifier : QualifiedContractIdentifier) (map_name : string)
    (key_type value_type : TypeSignature) : DbM DataMapMetadata :=
  let data := mkDataMap key_type value_type in
  let key := make_metadata_key ST_DataMapMeta map_name in
  db_insert_metadata contract_identifier key data;;
  mret data.

Definition load_map (contract_identifier : QualifiedContractIdentifier) (map_name : string)
    : DbM DataMapMetadata :=
  let key := make_metadata_key ST_DataMapMeta map_name in
  load_metadata contract_identifier key ("No such map: " +:+ map_name).

Definition make_key_for_data_map_entry_serialized
    (contract_identifier : QualifiedContractIdentifier) (map_name key_value_serialized : string)
    : string :=
  make_key_for_quad contract_identifier ST_DataMap map_name key_value_serialized.

(** [value.serialize_to_hex().map_err(..)?] *)
Definition hex_of_value (value : Value) : DbM string :=
  lift (map_err filling_buffer_failed (serialize_to_hex value)).

Definition make_key_for_data_map_entry (contract_identifier : QualifiedContractIdentifier)
    (map_name : string) (key_value : Value) : DbM string :=
  hex ← hex_of_value key_value;
  mret (make_key_for_data_map_entry_serialized contract_identifier map_name hex).

Definition fetch_entry (contract_identifier : QualifiedContractIdentifier) (map_name : string)
    (key_value : Value) (map_descriptor : DataMapMetadata) (epoch : StacksEpochId) : DbM Value :=
  check_admits (dm_key_type map_descriptor) key_value;;
  key ← make_key_for_data_map_entry contract_identifier map_name key_value;
  stored_type ← type_result (new_option (dm_value_type map_descriptor));
  result ← get_value key stored_type epoch;
  match result with
  | None => mret value_none
  | Some data => mret (vr_value data)
  end.

Definition fetch_entry_unknown_descriptor (contract_identifier : QualifiedContractIdentifier)
    (map_name : string) (key_value : Value) (epoch : StacksEpochId) : DbM Value :=
  descriptor ← load_map contract_identifier map_name;
  fetch_entry contract_identifier map_name key_value descriptor epoch.

(** [a.checked_add(b).ok_or_else(..)?] on the sizes of a key and a value *)
Definition add_sizes (a b : Z) : DbM Z :=
  lift (ok_or (u64_checked_add a b) (err_expect "Overflowed Clarity key/value size")).

Definition fetch_entry_with_size (contract_identifier : QualifiedContractIdentifier)
    (map_name : string) (key_value : Value) (map_descriptor : DataMapMetadata)
    (epoch : StacksEpochId) : DbM ValueResult :=
  check_admits (dm_key_type map_descriptor) key_value;;
  key_serialized ← hex_of_value key_value;
  let key := make_key_for_data_map_entry_serialized contract_identifier map_name key_serialized in
  stored_type ← type_result (new_option (dm_value_type map_descriptor));
  result ← get_value key stored_type epoch;
  match result with
  | None => mret (mkValueResult value_none (byte_len_of_serialization key_serialized))
  | Some (mkValueResult value serialized_byte_len) =>
      len ← add_sizes serialized_byte_len (byte_len_of_serialization key_serialized);
      mret (mkValueResult value len)
  end.

Definition data_map_entry_exists (key : string) (expected_value : TypeSignature)
    (epoch : StacksEpochId) : DbM bool :=
  o ← get_value key expected_value epoch;
  match o with
  | None => mret false
  | Some value => mret (negb (value_eqb (vr_value value) value_none))
  end.

Definition inner_set_entry (contract_identifier : QualifiedContractIdentifier)
    (map_name : string) (key_value value : Value) (return_if_exists : bool)
    (map_descriptor : DataMapMetadata) (epoch : StacksEpochId) : DbM ValueResult :=
  check_admits (dm_key_type map_descriptor) key_value;;
  check_admits (dm_value_type map_descriptor) value;;
  key_serialized ← hex_of_value key_value;
  let key_serialized_byte_len := byte_len_of_serialization key_serialized in
  let key := make_key_for_quad contract_identifier ST_DataMap map_name key_serialized in
  stored_type ← type_result (new_option (dm_value_type map_descriptor));
  exists_ ← (if return_if_exists then data_map_entry_exists key stored_type epoch else mret false);
  if exists_ : bool then mret (mkValueResult (Bool false) key_serialized_byte_len)
  else
    placed_value ← type_result (value_some value);
    placed_size ← put_value_with_size key placed_value epoch;
    len ← add_sizes key_serialized_byte_len placed_size;
    mret (mkValueResult (Bool true) len).

Definition set_entry (contract_identifier : QualifiedContractIdentifier) (map_name : string)
    (key value : Value) (map_descriptor : DataMapMetadata) (epoch : StacksEpochId)
    : DbM ValueResult :=
  inner_set_entry contract_identifier map_name key value false map_descriptor epoch.

Definition insert_entry (contract_identifier : QualifiedContractIdentifier) (map_name : string)
    (key value : Value) (map_descriptor : DataMapMetadata) (epoch : StacksEpochId)
    : DbM ValueResult :=
  inner_set_entry contract_identifier map_name key value true map_descriptor epoch.

Definition set_entry_unknown_descriptor (contract_identifier : QualifiedContractIdentifier)
    (map_name : string) (key value : Value) (epoch : StacksEpochId) : DbM Value :=
  descriptor ← load_map contract_identifier map_name;
  data ← set_entry contract_identifier map_name key value descriptor epoch;
  mret (vr_value data).

Definition insert_entry_unknown_descriptor (contract_identifier : QualifiedContractIdentifier)
    (map_name : string) (key value : Value) (epoch : StacksEpochId) : DbM Value :=
  descriptor ← load_map contract_identifier map_name;
  data ← insert_entry contract_identifier map_name key value descriptor epoch;
  mret (vr_value data).

Definition delete_entry (contract_identifier : QualifiedContractIdentifier) (map_name : string)
    (key_value : Value) (map_descriptor : DataMapMetadata) (epoch : StacksEpochId)
    : DbM ValueResult :=
  check_admits (dm_key_type map_descriptor) key_value;;
  key_serialized ← hex_of_value key_value;
  let key_serialized_byte_len := byte_len_of_serialization key_serialized in
  let key := make_key_for_quad contract_identifier ST_DataMap map_name key_serialized in
  stored_type ← type_result (new_option (dm_value_type map_descriptor));
  exists_ ← data_map_entry_exists key stored_type epoch;
  if negb exists_ then mret (mkValueResult (Bool false) key_serialized_byte_len)
  else
    put_value key value_none epoch;;
    len ← add_sizes key_serialized_byte_len NONE_SERIALIZATION_LEN;
    mret (mkValueResult (Bool true) len).

(** *** Fungible tokens *)

(** [put_data] and [get_data] of a type with [clarity_serializable!] *)
Definition put_json {A} `{SerdeJson A} (key : string) (value : A) : DbM unit :=
  db_put_data json_to_string key value.
Definition get_json {A} `{SerdeJson A} (key : string) : DbM (option A) :=
  db_get_data deserialize_json key.

Definition create_fungible_token (contract_identifier : QualifiedContractIdentifier)
    (token_name : string) (total_supply : option Z) : DbM FungibleTokenMetadata :=
  let data := mkFungibleToken total_supply in
  let key := make_metadata_key ST_FungibleTokenMeta token_name in
  db_insert_metadata contract_identifier key data;;
  let supply_key := make_key_for_trip contract_identifier ST_CirculatingSupply token_name in
  put_json (A := u128) supply_key 0;;
  mret data.

Definition load_ft (contract_identifier : QualifiedContractIdentifier) (token_name : string)
    : DbM FungibleTokenMetadata :=
  let key := make_metadata_key ST_FungibleTokenMeta token_name in
  load_metadata contract_identifier key ("No such FT: " +:+ token_name).

Definition supply_not_tracked : VmExecutionError :=
  err_expect "ERROR: Clarity VM failed to track token supply.".

Definition get_ft_supply (contract_identifier : QualifiedContractIdentifier) (token_name : string)
    : DbM Z :=
  let key := make_key_for_trip contract_identifier ST_CirculatingSupply token_name in
  supply ← get_json (A := u128) key;
  lift (ok_or supply supply_not_tracked).

Definition checked_increase_token_supply (contract_identifier : QualifiedContractIdentifier)
    (token_name : string) (amount : Z) (descriptor : FungibleTokenMetadata) : DbM unit :=
  let key := make_key_for_trip contract_identifier ST_CirculatingSupply token_name in
  supply ← get_json (A := u128) key;
  current_supply ← lift (ok_or supply supply_not_tracked);
  new_supply ← lift (ok_or (u128_checked_add current_supply amount)
                       (vm_from_runtime RE_ArithmeticOverflow));
  (match total_supply descriptor with
   | Some total_supply =>
       ensure (negb (new_supply >? total_supply))
         (vm_from_runtime (RE_SupplyOverflow new_supply total_supply))
   | None => mret tt
   end);;
  put_json (A := u128) key new_supply.

Definition checked_decrease_token_supply (contract_identifier : QualifiedContractIdentifier)
    (token_name : string) (amount : Z) : DbM unit :=
  let key := make_key_for_trip contract_identifier ST_CirculatingSupply token_name in
  supply ← get_json (A := u128) key;
  current_supply ← lift (ok_or supply supply_not_tracked);
  if amount >? current_supply
  then throw (vm_from_runtime (RE_SupplyUnderflow current_supply amount))
  else put_json (A := u128) key (current_supply - amount).

Definition get_ft_balance (contract_identifier : QualifiedContractIdentifier)
    (token_name : string) (principal : PrincipalData) (descriptor : option FungibleTokenMetadata)
    : DbM Z :=
  (match descriptor with
   | None => load_ft contract_identifier token_name;; mret tt
   | Some _ => mret tt
   end);;
  let key := make_key_for_quad contract_identifier ST_FungibleToken token_name
               (json_to_string principal) in
  result ← get_json (A := u128) key;
  match result with
  | None => mret 0
  | Some balance => mret balance
  end.

Definition set_ft_balance (contract_identifier : QualifiedContractIdentifier)
    (token_name : string) (principal : PrincipalData) (balance : Z) : DbM unit :=
  let key := make_key_for_quad contract_identifier ST_FungibleToken token_name
               (json_to_string principal) in
  put_json (A := u128) key balance.

(** *** Non-fungible tokens *)

Definition create_non_fungible_token (contract_identifier : QualifiedContractIdentifier)
    (token_name : string) (key_type : TypeSignature) : DbM NonFungibleTokenMetadata :=
  let data := mkNonFungibleToken key_type in
  let key := make_metadata_key ST_NonFungibleTokenMeta token_name in
  db_insert_metadata contract_identifier key data;;
  mret data.

Definition load_nft (contract_identifier : QualifiedContractIdentifier) (token_name : string)
    : DbM NonFungibleTokenMetadata :=
  let key := make_metadata_key ST_NonFungibleTokenMeta token_name in
  load_metadata contract_identifier key ("No such NFT: " +:+ token_name).

Definition get_nft_key_type (contract_identifier : QualifiedContractIdentifier)
    (asset_name : string) : DbM TypeSignature :=
  descriptor ← load_nft contract_identifier asset_name;
  mret (nft_key_type descriptor).

Definition get_nft_owner (contract_identifier : QualifiedContractIdentifier)
    (asset_name : string) (asset : Value) (key_type : TypeSignature) : DbM PrincipalData :=
  check_admits key_type asset;;
  hex ← hex_of_value asset;
  let key := make_key_for_quad contract_identifier ST_NonFungibleToken asset_name hex in
  epoch ← get_clarity_epoch_version;
  stored_type ← lift (map_err (fun _ => err_expect "Unexpected type failure")
                        (new_option PrincipalType));
  value ← get_value key stored_type epoch;
  owner ←
    match value with
    | Some owner =>
        lift (map_err (fun _ => err_expect "Expected an optional")
                (expect_optional (vr_value owner)))
    | None => throw (vm_from_runtime RE_NoSuchToken)
    end;
  match owner with
  | Some value =>
      lift (map_err (fun _ => err_expect "Expected principal.") (expect_principal value))
  | None => throw (vm_from_runtime RE_NoSuchToken)
  end.

Definition set_nft_owner (contract_identifier : QualifiedContractIdentifier)
    (asset_name : string) (asset : Value) (principal : PrincipalData) (key_type : TypeSignature)
    (epoch : StacksEpochId) : DbM unit :=
  check_admits key_type asset;;
  hex ← hex_of_value asset;
  let key := make_key_for_quad contract_identifier ST_NonFungibleToken asset_name hex in
  value ← type_result (value_some (Principal principal));
  put_value key value epoch.

Definition burn_nft (contract_identifier : QualifiedContractIdentifier) (asset_name : string)
    (asset : Value) (key_type : TypeSignature) (epoch : StacksEpochId) : DbM unit :=
  check_admits key_type asset;;
  hex ← hex_of_value asset;
  let key := make_key_for_quad contract_identifier ST_NonFungibleToken asset_name hex in
  put_value key value_none epoch.

(** *** The liquid supply of STX *)

Definition ustx_liquid_supply_key : string := "_stx-data::ustx_liquid_supply".

Definition get_total_liquid_ustx : DbM Z :=
  epoch ← get_clarity_epoch_version;
  v ← mmap_err (fun _ => err_expect "FATAL: failed to load ustx_liquid_supply Clarity key")
        (get_value ustx_liquid_supply_key UIntType epoch);
  match v with
  | Some v => lift (map_err (fun _ => err_expect "Expected u128") (expect_u128 (vr_value v)))
  | None => mret 0
  end.

Definition set_ustx_liquid_supply (set_to : Z) : DbM unit :=
  mmap_err (fun _ => err_expect "FATAL: Failed to store STX liquid supply")
    (put_value ustx_liquid_supply_key (UInt set_to) Epoch21).

Definition increment_ustx_liquid_supply (incr_by : Z) : DbM unit :=
  current ← get_total_liquid_ustx;
  next ← lift (ok_or (u128_checked_add current incr_by) (vm_from_runtime RE_ArithmeticOverflow));
  set_ustx_liquid_supply next.

Definition decrement_ustx_liquid_supply (decr_by : Z) : DbM unit :=
  current ← get_total_liquid_ustx;
  next ← lift (ok_or (u128_checked_sub current decr_by) (vm_from_runtime RE_ArithmeticUnderflow));
  set_ustx_liquid_supply next.

(** *** Nonces, block time, tenure height *)

Definition get_account_nonce (principal : PrincipalData) : DbM Z :=
  result ← get_json (A := u64) (make_key_for_account_nonce principal);
  mret (default 0 result).

Definition set_account_nonce (principal : PrincipalData) (nonce : Z) : DbM unit :=
  put_json (A := u64) (make_key_for_account_nonce principal) nonce.

Definition TENURE_HEIGHT_KEY : string := "_stx-data::tenure_height".
Definition CLARITY_STORAGE_BLOCK_TIME_KEY : string := "_stx-data::clarity_storage::block_time".

Definition setup_block_metadata (block_time : option Z) : DbM unit :=
  epoch ← get_clarity_epoch_version;
  if uses_marfed_block_time epoch then
    block_time ← lift (ok_or block_time
                         (err_expect "FATAL: Marfed block time not provided to Clarity DB setup"));
    put_json (A := u64) CLARITY_STORAGE_BLOCK_TIME_KEY block_time
  else mret tt.

Definition get_current_block_time : DbM Z :=
  o ← get_json (A := u64) CLARITY_STORAGE_BLOCK_TIME_KEY;
  match o with
  | Some value => mret value
  | None => throw (vm_from_runtime RE_BlockTimeNotAvailable)
  end.

(** Heights are [u32]s, which convert to themselves. *)
Definition get_tenure_height (env : DbEnv) : DbM Z :=
  epoch ← get_clarity_epoch_version;
  if epoch_ltb epoch Epoch30 then mret (current_block_height env)
  else
    o ← db_get_data u32_deserialize TENURE_HEIGHT_KEY;
    lift (ok_or o (err_expect "No tenure height in stored Clarity state")).

Definition set_tenure_height (height : Z) : DbM unit :=
  epoch ← get_clarity_epoch_version;
  if epoch_ltb epoch Epoch30 then
    throw (err_expect "Setting tenure height in Clarity state is not supported before epoch 3.0")
  else db_put_data u32_serialize TENURE_HEIGHT_KEY height.
End Ops.
