(* ===== verification/Contexts.v ===== *)
(** * Contract contexts, local contexts and the call stack

    The state of [clarity/src/vm/contexts.rs] that describes what is being
    executed: [ContractContext] (what a contract has defined), [LocalContext]
    (the variables in scope), [CallStack] (the functions being applied) and
    [InvocationContext] (on whose behalf); with them [DefinedFunction] and
    [FunctionIdentifier] of [callables.rs] and [FunctionSignature] of
    [types/signatures.rs]. Hash maps are [gmap]s. A local context owns a copy
    of its parent, which the code borrows. *)

From S2P Require Import Prelude.
From S2P Require Import BTree.
From S2P Require Import Epochs.
From S2P Require Import Values.
From S2P Require Import Types.
From S2P Require Import C32.
From S2P Require Import AssetMap.
From S2P Require Import Serialization.
From S2P Require Import VmErrors.
From S2P Require Import TypedValues.
From S2P Require Import Expressions.
From S2P Require Import ContractData.

#[export] Instance TraitIdentifier_countable : Countable TraitIdentifier.
Proof.
  refine (inj_countable' (fun t => (trait_name t, trait_contract t))
            (fun '(n, c) => mkTraitIdentifier n c) _); by intros [].
Defined.

(** ** Functions *)

Record FunctionSignature := mkFunctionSignature {
  sig_args : list TypeSignature;
  sig_returns : TypeSignature;
}.

Definition sig_canonicalize (epoch : StacksEpochId) (s : FunctionSignature) : FunctionSignature :=
  mkFunctionSignature (canonicalize epoch <$> sig_args s) (canonicalize epoch (sig_returns s)).

(** Each argument of the function admits the type that the trait declares. *)
Fixpoint args_comply (epoch : StacksEpochId) (expected args : list TypeSignature) : TypeR bool :=
  match expected, args with
  | expected_arg :: expected, arg :: args =>
      ok ← admits_type epoch arg expected_arg;
      if ok : bool then args_comply epoch expected args else Ok false
  | _, _ => Ok true
  end.

Definition check_args_trait_compliance (epoch : StacksEpochId) (s : FunctionSignature)
    (args : list TypeSignature) : TypeR bool :=
  if negb (zlen args =? zlen (sig_args s)) then Ok false else args_comply epoch (sig_args s) args.

Inductive DefineType := ReadOnly | Public | Private.

#[export] Instance DefineType_eq_dec : EqDecision DefineType.
Proof. solve_decision. Defined.

(** A [FunctionIdentifier] is its rendering. *)
Definition new_native_function (name : string) : string := "_native_:" +:+ name.
Definition new_user_function (name context : string) : string := context +:+ ":" +:+ name.

Record DefinedFunction := mkDefinedFunction {
  df_identifier : string;
  df_name : ClarityName;
  df_arg_types : list TypeSignature;
  define_type : DefineType;
  df_arguments : list ClarityName;
  df_body : SymbolicExpression;
}.

Definition DefinedFunction_new (arguments : list (ClarityName * TypeSignature))
    (body : SymbolicExpression) (define_type : DefineType) (name : ClarityName)
    (context_name : string) : DefinedFunction :=
  mkDefinedFunction (new_user_function name context_name) name arguments.*2 define_type
    arguments.*1 body.

Definition df_is_read_only (f : DefinedFunction) : bool := bool_decide (define_type f = ReadOnly).
Definition is_public (f : DefinedFunction) : bool :=
  match define_type f with Public | ReadOnly => true | Private => false end.

(** [arg_types] and [arguments] have the same length. *)
Definition df_canonicalize_types (epoch : StacksEpochId) (f : DefinedFunction) : DefinedFunction :=
  mkDefinedFunction (df_identifier f) (df_name f) (canonicalize epoch <$> df_arg_types f)
    (define_type f) (df_arguments f) (df_body f).

(** ** Contract contexts *)

Definition TraitSignatures : Type := list (ClarityName * FunctionSignature).

Record ContractContext := mkContractContext {
  cc_identifier : QualifiedContractIdentifier;
  cc_variables : gmap ClarityName Value;
  cc_functions : gmap ClarityName DefinedFunction;
  defined_traits : gmap ClarityName TraitSignatures;
  implemented_traits : gset TraitIdentifier;
  persisted_names : gset ClarityName;
  meta_data_map : gmap ClarityName DataMapMetadata;
  meta_data_var : gmap ClarityName DataVariableMetadata;
  meta_nft : gmap ClarityName NonFungibleTokenMetadata;
  meta_ft : gmap ClarityName FungibleTokenMetadata;
  data_size : Z;
  clarity_version : ClarityVersion;
  is_deploying : bool;
}.

Definition ContractContext_new (contract_identifier : QualifiedContractIdentifier)
    (clarity_version : ClarityVersion) : ContractContext :=
  mkContractContext contract_identifier ∅ ∅ ∅ ∅ ∅ ∅ ∅ ∅ ∅ 0 clarity_version false.

Section Setters.
Implicit Types c : ContractContext.
Definition set_cc_variables x c := mkContractContext (cc_identifier c) x (cc_functions c)
  (defined_traits c) (implemented_traits c) (persisted_names c) (meta_data_map c) (meta_data_var c)
  (meta_nft c) (meta_ft c) (data_size c) (clarity_version c) (is_deploying c).
Definition set_cc_functions x c := mkContractContext (cc_identifier c) (cc_variables c) x
  (defined_traits c) (implemented_traits c) (persisted_names c) (meta_data_map c) (meta_data_var c)
  (meta_nft c) (meta_ft c) (data_size c) (clarity_version c) (is_deploying c).
Definition set_defined_traits x c := mkContractContext (cc_identifier c) (cc_variables c)
  (cc_functions c) x (implemented_traits c) (persisted_names c) (meta_data_map c) (meta_data_var c)
  (meta_nft c) (meta_ft c) (data_size c) (clarity_version c) (is_deploying c).
Definition set_implemented_traits x c := mkContractContext (cc_identifier c) (cc_variables c)
  (cc_functions c) (defined_traits c) x (persisted_names c) (meta_data_map c) (meta_data_var c)
  (meta_nft c) (meta_ft c) (data_size c) (clarity_version c) (is_deploying c).
Definition set_persisted_names x c := mkContractContext (cc_identifier c) (cc_variables c)
  (cc_functions c) (defined_traits c) (implemented_traits c) x (meta_data_map c) (meta_data_var c)
  (meta_nft c) (meta_ft c) (data_size c) (clarity_version c) (is_deploying c).
Definition set_meta_data_map x c := mkContractContext (cc_identifier c) (cc_variables c)
  (cc_functions c) (defined_traits c) (implemented_traits c) (persisted_names c) x (meta_data_var c)
  (meta_nft c) (meta_ft c) (data_size c) (clarity_version c) (is_deploying c).
Definition set_meta_data_var x c := mkContractContext (cc_identifier c) (cc_variables c)
  (cc_functions c) (defined_traits c) (implemented_traits c) (persisted_names c) (meta_data_map c) x
  (meta_nft c) (meta_ft c) (data_size c) (clarity_version c) (is_deploying c).
Definition set_meta_nft x c := mkContractContext (cc_identifier c) (cc_variables c)
  (cc_functions c) (defined_traits c) (implemented_traits c) (persisted_names c) (meta_data_map c)
  (meta_data_var c) x (meta_ft c) (data_size c) (clarity_version c) (is_deploying c).
Definition set_meta_ft x c := mkContractContext (cc_identifier c) (cc_variables c)
  (cc_functions c) (defined_traits c) (implemented_traits c) (persisted_names c) (meta_data_map c)
  (meta_data_var c) (meta_nft c) x (data_size c) (clarity_version c) (is_deploying c).
Definition set_data_size x c := mkContractContext (cc_identifier c) (cc_variables c)
  (cc_functions c) (defined_traits c) (implemented_traits c) (persisted_names c) (meta_data_map c)
  (meta_data_var c) (meta_nft c) (meta_ft c) x (clarity_version c) (is_deploying c).
Definition set_is_deploying x c := mkContractContext (cc_identifier c) (cc_variables c)
  (cc_functions c) (defined_traits c) (implemented_traits c) (persisted_names c) (meta_data_map c)
  (meta_data_var c) (meta_nft c) (meta_ft c) (data_size c) (clarity_version c) x.
End Setters.

(** [functions::lookup_reserved_functions] finds a callable for every native
    function of the version, so only its domain matters here. *)
Definition is_reserved (name : string) (version : ClarityVersion) : bool :=
  bool_decide (is_Some (lookup_by_name_at_version (T := NativeFunctions.t) name version))
  || bool_decide (is_Some (lookup_by_name_at_version (T := NativeVariables.t) name version)).

Definition is_shadowable_reserved (name : string) (version : ClarityVersion) : bool :=
  is_reserved name version
  && existsb (fun v => negb (version_leb version v) && negb (is_reserved name v)) ClarityVersion_ALL.

Section Names.
Context (c : ContractContext) (name : string).

Definition cc_lookup_variable : option Value := cc_variables c !! name.
Definition cc_lookup_function : option DefinedFunction := cc_functions c !! name.
Definition lookup_trait_definition : option TraitSignatures := defined_traits c !! name.

Definition is_name_defined_by_contract : bool :=
  bool_decide (is_Some (cc_variables c !! name)) || bool_decide (is_Some (cc_functions c !! name))
  || bool_decide (name ∈ persisted_names c) || bool_decide (is_Some (defined_traits c !! name)).

Definition is_name_used : bool :=
  is_reserved name (clarity_version c) || is_name_defined_by_contract.
End Names.

Definition is_explicitly_implementing_trait (c : ContractContext) (t : TraitIdentifier) : bool :=
  bool_decide (t ∈ implemented_traits c).

Section Loading.
Context `{Sha256} `{DebugText} `{HashMapIter}.

Definition sanitize_variable (epoch : StacksEpochId) (value : Value) : result VmExecutionError Value :=
  t ← map_err vm_from_type (type_of value);
  '(sanitized, _) ← ok_or (sanitize_value epoch t value) (RuntimeCheck RC_CouldNotDetermineType);
  Ok sanitized.

Fixpoint sanitize_variables (epoch : StacksEpochId) (l : list (ClarityName * Value))
    (variables : gmap ClarityName Value) : result VmExecutionError (gmap ClarityName Value) :=
  match l with
  | [] => Ok variables
  | (name, value) :: l =>
      sanitized ← sanitize_variable epoch value;
      sanitize_variables epoch l (<[name := sanitized]> variables)
  end.

(** [ContractContext::canonicalize_types] *)
Definition cc_canonicalize_types (epoch : StacksEpochId) (c : ContractContext)
    : result VmExecutionError ContractContext :=
  let c := set_cc_functions (df_canonicalize_types epoch <$> cc_functions c) c in
  let c := set_defined_traits
             ((fun t : TraitSignatures => prod_map id (sig_canonicalize epoch) <$> t)
              <$> defined_traits c) c in
  if uses_pre_sanitized_variables epoch then
    variables ← sanitize_variables epoch (iter (cc_variables c)) (cc_variables c);
    Ok (set_cc_variables variables c)
  else Ok c.
End Loading.

(** ** Local contexts *)

Definition MAX_CONTEXT_DEPTH : Z := 256.

Record CallableData := mkCallableData {
  callable_contract : QualifiedContractIdentifier;
  callable_trait : option TraitIdentifier;
}.

Inductive LocalContext := mkLocalContext {
  lc_parent : option LocalContext;
  lc_variables : gmap ClarityName Value;
  callable_contracts : gmap ClarityName CallableData;
  lc_depth : Z;
}.

Definition LocalContext_new : LocalContext := mkLocalContext None ∅ ∅ 0.

Definition local_extend (c : LocalContext) : result VmExecutionError LocalContext :=
  if MAX_CONTEXT_DEPTH <=? lc_depth c then Err (vm_from_runtime RE_MaxContextDepthReached)
  else Ok (mkLocalContext (Some c) ∅ ∅ (lc_depth c + 1)).

Fixpoint lc_lookup_variable (c : LocalContext) (name : string) : option Value :=
  match lc_variables c !! name with
  | Some value => Some value
  | None =>
      match c with
      | mkLocalContext (Some parent) _ _ _ => lc_lookup_variable parent name
      | mkLocalContext None _ _ _ => None
      end
  end.

Fixpoint lookup_callable_contract (c : LocalContext) (name : string) : option CallableData :=
  match callable_contracts c !! name with
  | Some found => Some found
  | None =>
      match c with
      | mkLocalContext (Some parent) _ _ _ => lookup_callable_contract parent name
      | mkLocalContext None _ _ _ => None
      end
  end.

Definition insert_variable (name : ClarityName) (v : Value) (c : LocalContext) : LocalContext :=
  mkLocalContext (lc_parent c) (<[name := v]> (lc_variables c)) (callable_contracts c) (lc_depth c).
Definition insert_callable (name : ClarityName) (d : CallableData) (c : LocalContext) : LocalContext :=
  mkLocalContext (lc_parent c) (lc_variables c) (<[name := d]> (callable_contracts c)) (lc_depth c).

(** ** The call stack

    The vector of frames is a list whose head is the last element. *)

Record CallStack := mkCallStack {
  frames : list string;
  tracked : gset string;
  apply_depth : Z;
}.

Definition CallStack_new : CallStack := mkCallStack [] ∅ 0.

Definition stack_depth (c : CallStack) : Z := u64_saturating_add (zlen (frames c)) (apply_depth c).

Definition stack_contains (function : string) (c : CallStack) : bool :=
  bool_decide (function ∈ tracked c).

Definition stack_insert (function : string) (track : bool) (c : CallStack) : CallStack :=
  mkCallStack (function :: frames c) (if track then {[function]} ∪ tracked c else tracked c)
    (apply_depth c).

Definition incr_apply_depth (c : CallStack) : CallStack :=
  mkCallStack (frames c) (tracked c) (apply_depth c + 1).
Definition decr_apply_depth (c : CallStack) : CallStack :=
  mkCallStack (frames c) (tracked c) (apply_depth c - 1).

Definition remove_from_empty : VmExecutionError :=
  Internal (VI_InvariantViolation "Tried to remove item from empty call stack.").

Definition stack_remove (function : string) (track : bool) : M CallStack VmExecutionError unit := fun c =>
  match frames c with
  | [] => (Err remove_from_empty, c)
  | removed :: rest =>
      let c := mkCallStack rest (tracked c) (apply_depth c) in
      if negb (String.eqb removed function) then (Err remove_from_empty, c)
      else if track && negb (bool_decide (function ∈ tracked c)) then
        (Err (Internal (VI_InvariantViolation
           "Tried to remove tracked function from call stack, but could not find in current context.")), c)
      else (Ok tt, mkCallStack rest (if track then tracked c ∖ {[function]} else tracked c)
                     (apply_depth c))
  end.

(** Without the developer mode a trace is empty. *)
Definition make_stack_trace (c : CallStack) : list string := [].

Definition MAX_CALL_STACK_DEPTH : Z := 128.
Definition MAX_CALL_STACK_DEPTH_LEGACY : Z := 64.
Definition max_call_stack_depth_for_epoch (epoch_id : StacksEpochId) : Z :=
  if epoch_leb Epoch34 epoch_id then MAX_CALL_STACK_DEPTH else MAX_CALL_STACK_DEPTH_LEGACY.

(** ** Invocations *)

Record InvocationContext := mkInvocation {
  contract_context : ContractContext;
  ic_sender : option PrincipalData;
  ic_caller : option PrincipalData;
  ic_sponsor : option PrincipalData;
}.

Definition with_principal (ic : InvocationContext) (sender : PrincipalData) : InvocationContext :=
  mkInvocation (contract_context ic) (Some sender) (Some sender) (ic_sponsor ic).
Definition with_caller (ic : InvocationContext) (caller : PrincipalData) : InvocationContext :=
  mkInvocation (contract_context ic) (ic_sender ic) (Some caller) (ic_sponsor ic).
Definition with_contract_context (ic : InvocationContext) (c : ContractContext) : InvocationContext :=
  mkInvocation c (ic_sender ic) (ic_caller ic) (ic_sponsor ic).

Definition ic_version (ic : InvocationContext) : ClarityVersion :=
  clarity_version (contract_context ic).
