(* ===== verification/StoredData.v ===== *)
(** * The laws of contract storage, and its keys

    [ContractStoreLaws] extends the key-value interface by Clarity values and
    contract metadata; the rollback wrapper over a lawful backing store
    satisfies it. Operations of the database on any lawful store are simulated
    by the same operations on [DbState], a map of data and a table of
    metadata, where they can be computed. The keys of variables, map entries,
    balances, supplies and owners are shown not to collide. *)

From S2P Require Import Prelude.
From S2P Require Import Bytes.
From S2P Require Import Epochs.
From S2P Require Import Values.
From S2P Require Import Types.
From S2P Require Import RollbackStore.
From S2P Require Import C32.
From S2P Require Import STXBalance.
From S2P Require Import Database.
From S2P Require Import Serialization.
From S2P Require Import VmErrors.
From S2P Require Import TypedValues.
From S2P Require Import Deserialization.
From S2P Require Import ContractData.

(** ** Laws *)

Abbreviation Metadata := (MetadataKey -> result VmExecutionError (option string)).

(** [md] with the entry [key] set *)
Definition meta_insert (key : MetadataKey) (v : string) (md : Metadata) : Metadata :=
  fun k => if decide (k = key) then Ok (Some v) else md k.

Definition meta_has (md : Metadata) (key : MetadataKey) : bool :=
  match md key with Ok (Some _) => true | _ => false end.

Class ContractStoreLaws (S : Type) `{KVStoreLaws S} `{ContractStore S} := {
  cs_meta : S -> Metadata;
  kv_get_meta k s : kv_ok s -> forall key, cs_meta (kv_get k s).2 key = cs_meta s key;
  kv_put_meta k v s : kv_ok s -> forall key, cs_meta (kv_put k v s).2 key = cs_meta s key;
  cs_get_value_spec k t e s : kv_ok s -> exists s',
    cs_get_value k t e s = (deserialize_stored (kv_view s !! k) t e, s') /\
    kv_ok s' /\ kv_view s' = kv_view s /\ forall key, cs_meta s' key = cs_meta s key;
  cs_get_metadata_spec c k s : kv_ok s -> exists s',
    cs_get_metadata c k s = (cs_meta s (c, k), s') /\
    kv_ok s' /\ kv_view s' = kv_view s /\ forall key, cs_meta s' key = cs_meta s key;
  cs_insert_metadata_spec c k v s : kv_ok s -> exists s',
    cs_insert_metadata c k v s = (Ok tt, s') /\
    kv_ok s' /\ kv_view s' = kv_view s /\
    forall key, cs_meta s' key = meta_insert (c, k) v (cs_meta s) key;
  cs_has_metadata_spec c k s : kv_ok s ->
    cs_has_metadata_entry c k s = meta_has (cs_meta s) (c, k);
}.

(** ** The rollback wrapper

    What it relies on: [ClarityBackingStore::get_metadata] reads a table, and
    neither it nor [get_data] changes what the other reads. *)
Class BackingMetadataLaws (B : Type) `{BackingStoreLaws B} := {
  bs_meta : B -> Metadata;
  bs_get_metadata_spec c k b : exists b',
    bs_get_metadata c k b = (bs_meta b (c, k), b') /\ bs_view b' = bs_view b /\
    forall key, bs_meta b' key = bs_meta b key;
  bs_get_data_meta k b : forall key, bs_meta (bs_get_data k b).2 key = bs_meta b key;
}.

Section WrapperLaws.
Context {B : Type} `{BackingMetadataLaws B}.
Implicit Types (w : RollbackWrapper B).

Definition wrapper_meta w : Metadata := fun key =>
  match metadata_lookup_map w !! key ≫= last with
  | Some v => Ok (Some v)
  | None => bs_meta (store w) key
  end.

Lemma wrapper_ok_set_store w b : wrapper_ok w -> wrapper_ok (set_store b w).
Proof. intros ([a HR] & ? & ?). split; [eexists; by apply Rel_set_store | done]. Qed.

Lemma wrapper_get_meta k w key :
  wrapper_ok w -> wrapper_meta (get_data_str k w).2 key = wrapper_meta w key.
Proof.
  intros (_ & Hne & _). unfold get_data_str. erewrite M_bind_eval by (by apply check_nested_ok).
  erewrite M_bind_eval by done. destruct (pending _ _ k); [done |].
  unfold on_store, zoom. pose proof (bs_get_data_meta k (store w) key) as Hm.
  destruct (bs_get_data k (store w)) as [r b']. unfold wrapper_meta. cbn in *. by rewrite Hm.
Qed.

Lemma wrapper_put_meta k v w key :
  wrapper_meta (put_data k v w).2 key = wrapper_meta w key.
Proof. unfold put_data. by destruct (stack w). Qed.

Lemma wrapper_get_value_spec k t e w : wrapper_ok w -> exists w',
  wrapper_get_value k t e w = (deserialize_stored (wrapper_view w !! k) t e, w') /\
  wrapper_ok w' /\ wrapper_view w' = wrapper_view w /\
  forall key, wrapper_meta w' key = wrapper_meta w key.
Proof.
  intros Hok. pose proof Hok as (_ & Hne & Hq). unfold wrapper_get_value.
  destruct (stack w) as [| c st] eqn:Est; [done |]. rewrite Hq, wrapper_view_lookup. unfold pending.
  destruct (lookup_map w !! k ≫= last) as [x |]; cbn [from_option]; [by exists w |].
  destruct (bs_get_spec k (store w)) as (b' & Hget & Hview). exists (set_store b' w).
  pose proof (bs_get_data_meta k (store w)) as Hm. rewrite Hget in Hm.
  unfold mbind, M_bind, mmap_err, on_store, zoom. rewrite Hget. cbn.
  split_and!; [done | by apply wrapper_ok_set_store | unfold wrapper_view; cbn; by rewrite Hview |].
  intros key. unfold wrapper_meta. cbn in *. by rewrite Hm.
Qed.

Lemma wrapper_get_metadata_spec c k w : wrapper_ok w -> exists w',
  get_metadata c k w = (wrapper_meta w (c, k), w') /\
  wrapper_ok w' /\ wrapper_view w' = wrapper_view w /\
  forall key, wrapper_meta w' key = wrapper_meta w key.
Proof.
  intros Hok. pose proof Hok as (_ & Hne & Hq). unfold get_metadata.
  erewrite M_bind_eval by (by apply check_nested_ok). erewrite M_bind_eval by done.
  rewrite Hq. unfold pending, wrapper_meta at 1. set (ck := (c, k) : MetadataKey).
  destruct (metadata_lookup_map w !! ck ≫= last) as [x |]; [by exists w |].
  destruct (bs_get_metadata_spec c k (store w)) as (b' & Hget & Hview & Hm). exists (set_store b' w).
  unfold on_store, zoom. rewrite Hget.
  split_and!; [done | by apply wrapper_ok_set_store | unfold wrapper_view; cbn; by rewrite Hview |].
  intros key. unfold wrapper_meta. cbn. by rewrite Hm.
Qed.

Lemma wrapper_insert_metadata_spec c k v w : wrapper_ok w -> exists w',
  insert_metadata c k v w = (Ok tt, w') /\
  wrapper_ok w' /\ wrapper_view w' = wrapper_view w /\
  forall key, wrapper_meta w' key = meta_insert (c, k) v (wrapper_meta w) key.
Proof.
  intros ([a HR] & Hne & Hq). destruct (run_op_refines (OpInsertMetadata c k v) w a HR) as [Heq HR'].
  unfold run_op, mmap_err, insert_metadata in *. destruct (stack w) as [| cx st] eqn:Est; [done |].
  cbn in Heq, HR' |- *. eexists. split; [done |]. split_and!.
  - split; [eexists; by apply HR' | done].
  - done.
  - intros key. unfold wrapper_meta, meta_insert. cbn.
    destruct (decide (key = (c, k))) as [-> | Hk].
    + rewrite lookup_insert_eq. cbn. by rewrite last_snoc.
    + by rewrite lookup_insert_ne.
Qed.

Lemma wrapper_has_metadata_spec c k w :
  wrapper_ok w -> has_metadata_entry c k w = meta_has (wrapper_meta w) (c, k).
Proof.
  intros Hok. unfold has_metadata_entry, meta_has.
  destruct (wrapper_get_metadata_spec c k w Hok) as (w' & -> & _).
  by destruct (wrapper_meta w (c, k)) as [[] | |].
Qed.

#[export] Instance RollbackWrapper_ContractStoreLaws : ContractStoreLaws (RollbackWrapper B) := {
  cs_meta := wrapper_meta;
  kv_get_meta k w Hok key := wrapper_get_meta k w key Hok;
  kv_put_meta k v w _ key := wrapper_put_meta k v w key;
  cs_get_value_spec := wrapper_get_value_spec;
  cs_get_metadata_spec := wrapper_get_metadata_spec;
  cs_insert_metadata_spec := wrapper_insert_metadata_spec;
  cs_has_metadata_spec := wrapper_has_metadata_spec;
}.
End WrapperLaws.

(** ** The abstract state *)

#[export] Program Instance MemStore_metadata_laws : BackingMetadataLaws MemStore := {
  bs_meta m key := Ok (mem_metadata m !! key);
}.
Next Obligation. intros c k b. by exists b. Qed.
Next Obligation. done. Qed.


Record DbState := mkDbState { db_data : gmap string string; db_meta : Metadata }.

#[export] Instance DbState_KVStore : KVStore DbState := {
  kv_get k := fun d => (Ok (db_data d !! k), d);
  kv_put k v := fun d => (Ok tt, mkDbState (<[k := v]> (db_data d)) (db_meta d));
}.

#[export] Instance DbState_ContractStore : ContractStore DbState := {
  cs_get_value k t e := fun d => (deserialize_stored (db_data d !! k) t e, d);
  cs_insert_metadata c k v := fun d =>
    (Ok tt, mkDbState (db_data d) (meta_insert (c, k) v (db_meta d)));
  cs_get_metadata c k := fun d => (db_meta d (c, k), d);
  cs_has_metadata_entry c k d := meta_has (db_meta d) (c, k);
}.

#[export] Program Instance DbState_KVStoreLaws : KVStoreLaws DbState := {
  kv_ok _ := True;
  kv_view := db_data;
}.
Next Obligation. intros k d _. by exists d. Qed.
Next Obligation. intros k v d _. by eexists. Qed.

#[export] Program Instance DbState_ContractStoreLaws : ContractStoreLaws DbState := {
  cs_meta := db_meta;
}.
Solve All Obligations with naive_solver.

(** [s] holds what [d] says. *)
Definition holds {S} `{ContractStoreLaws S} (s : S) (d : DbState) : Prop :=
  kv_ok s /\ kv_view s = db_data d /\ forall key, cs_meta s key = db_meta d key.

Lemma holds_view {S} `{ContractStoreLaws S} (s : S) :
  kv_ok s -> holds s (mkDbState (kv_view s) (cs_meta s)).
Proof. done. Qed.

Section SimDb.
Context `{Sha256} `{DebugText} {S : Type} `{ContractStoreLaws S}.

Lemma holds_again (s s' : S) d :
  holds s d -> kv_ok s' -> kv_view s' = kv_view s -> (forall key, cs_meta s' key = cs_meta s key) ->
  holds s' d.
Proof.
  intros (_ & Hv & Hm) Hok' Hv' Hm'. split; [done |]. split; [congruence |]. intros key. by rewrite Hm'.
Qed.

Lemma sim_hold_get k : sim (S := S) holds (kv_get k) (kv_get k).
Proof.
  intros s d Hs. pose proof Hs as (Hok & Hv & _). destruct (kv_get_spec k s Hok) as (s' & E & Hok' & Hv').
  pose proof (kv_get_meta k s Hok) as Hm'. rewrite E in *. cbn in *. rewrite Hv.
  split; [done | by eapply holds_again].
Qed.

Lemma sim_hold_put k v : sim (S := S) holds (kv_put k v) (kv_put k v).
Proof.
  intros s d (Hok & Hv & Hm). destruct (kv_put_spec k v s Hok) as (s' & E & Hok' & Hv').
  pose proof (kv_put_meta k v s Hok) as Hm'. rewrite E in *. cbn in *. split; [done |].
  split; [done |]. split; [by rewrite Hv', Hv |]. intros key. by rewrite Hm'.
Qed.

Lemma sim_hold_value k t e : sim (S := S) holds (cs_get_value k t e) (cs_get_value k t e).
Proof.
  intros s d Hs. pose proof Hs as (Hok & Hv & _).
  destruct (cs_get_value_spec k t e s Hok) as (s' & E & Hok' & Hv' & Hm').
  rewrite E. cbn. rewrite Hv. split; [done | by eapply holds_again].
Qed.

Lemma sim_hold_metadata c k : sim (S := S) holds (cs_get_metadata c k) (cs_get_metadata c k).
Proof.
  intros s d Hs. pose proof Hs as (Hok & _ & Hm).
  destruct (cs_get_metadata_spec c k s Hok) as (s' & E & Hok' & Hv' & Hm').
  rewrite E. cbn. rewrite Hm. split; [done | by eapply holds_again].
Qed.

Lemma sim_hold_insert c k v :
  sim (S := S) holds (cs_insert_metadata c k v) (cs_insert_metadata c k v).
Proof.
  intros s d (Hok & Hv & Hm). destruct (cs_insert_metadata_spec c k v s Hok) as (s' & E & Hok' & Hv' & Hm').
  rewrite E. cbn. split; [done |]. split; [done |]. split; [cbn; congruence |]. intros key. rewrite Hm'.
  cbn. unfold meta_insert. by case_decide.
Qed.

Lemma sim_hold_has {A} c k (m1 m2 : M S VmExecutionError A) m1' m2' :
  sim holds m1 m1' -> sim holds m2 m2' ->
  sim holds (s ← get; if cs_has_metadata_entry c k s then m1 else m2)
    (d ← get; if cs_has_metadata_entry c k d then m1' else m2').
Proof.
  intros Hsim1 Hsim2 s d Hs. pose proof Hs as (Hok & _ & Hm). unfold mbind, M_bind. cbn.
  rewrite (cs_has_metadata_spec c k s Hok).
  assert (meta_has (cs_meta s) (c, k) = meta_has (db_meta d) (c, k)) as -> by (unfold meta_has; by rewrite Hm).
  destruct (meta_has _ _); [by apply Hsim1 | by apply Hsim2].
Qed.

Lemma sim_no_contract {A} (m : M S VmExecutionError (option A)) m' :
  sim holds m m' -> sim holds (map_no_contract_as_none m) (map_no_contract_as_none m').
Proof.
  intros Hm s d HR. destruct (Hm s d HR) as [He HR']. unfold map_no_contract_as_none.
  destruct (m s) as [r s'], (m' d) as [r' d']. cbn in *. subst r'.
  destruct r as [| [[] | | |] |]; done.
Qed.
End SimDb.

#[export] Hint Resolve sim_hold_get sim_hold_put sim_hold_value sim_hold_metadata sim_hold_insert : sim.

(** Follows the structure of an operation of the database. *)
Ltac solve_hold :=
  repeat first
    [ progress intros
    | solve [eauto 3 with sim]
    | apply sim_hold_has
    | apply sim_mmap_err
    | apply sim_no_contract
    | apply sim_bind
    | apply sim_if
    | case_match ].

Section SimOps.
Context `{Sha256} `{DebugText} {S : Type} `{ContractStoreLaws S}.
Context `{SerdeJson u128} `{SerdeJson u64} `{SerdeJson PrincipalData}.
Context `{SerdeJson FungibleTokenMetadata} `{SerdeJson NonFungibleTokenMetadata}.
Context `{SerdeJson DataMapMetadata} `{SerdeJson DataVariableMetadata}.

Lemma hold_get_data {A} (deser : string -> result VmExecutionError A) k : sim (S := S) holds (db_get_data deser k) (db_get_data deser k).
Proof. unfold db_get_data. solve_hold. Qed.
#[local] Hint Resolve hold_get_data : sim.
Lemma hold_epoch : sim (S := S) holds (get_clarity_epoch_version) (get_clarity_epoch_version).
Proof. unfold get_clarity_epoch_version. solve_hold. Qed.
#[local] Hint Resolve hold_epoch : sim.
Lemma hold_put_size k v e : sim (S := S) holds (put_value_with_size k v e) (put_value_with_size k v e).
Proof. unfold put_value_with_size. solve_hold. Qed.
#[local] Hint Resolve hold_put_size : sim.
Lemma hold_put_value k v e : sim (S := S) holds (put_value k v e) (put_value k v e).
Proof. unfold put_value. solve_hold. Qed.
#[local] Hint Resolve hold_put_value : sim.
Lemma hold_get_value k t e : sim (S := S) holds (get_value k t e) (get_value k t e).
Proof. unfold get_value. solve_hold. Qed.
#[local] Hint Resolve hold_get_value : sim.
Lemma hold_insert_meta {A} `{SerdeJson A} c k (x : A) : sim (S := S) holds (db_insert_metadata c k x) (db_insert_metadata c k x).
Proof. unfold db_insert_metadata. solve_hold. Qed.
#[local] Hint Resolve hold_insert_meta : sim.
Lemma hold_load_meta {A} `{SerdeJson A} c k msg : sim (S := S) holds (load_metadata (A := A) c k msg) (load_metadata (A := A) c k msg).
Proof. unfold load_metadata, fetch_metadata. solve_hold. Qed.
#[local] Hint Resolve hold_load_meta : sim.
Lemma hold_admits t v : sim (S := S) holds (check_admits t v) (check_admits t v).
Proof. unfold check_admits, type_result. solve_hold. Qed.
#[local] Hint Resolve hold_admits : sim.
Lemma hold_hex v : sim (S := S) holds (hex_of_value v) (hex_of_value v).
Proof. unfold hex_of_value. solve_hold. Qed.
#[local] Hint Resolve hold_hex : sim.
Lemma hold_add_sizes a b : sim (S := S) holds (add_sizes a b) (add_sizes a b).
Proof. unfold add_sizes. solve_hold. Qed.
#[local] Hint Resolve hold_add_sizes : sim.
Lemma hold_create_variable c n t : sim (S := S) holds (create_variable c n t) (create_variable c n t).
Proof. unfold create_variable. solve_hold. Qed.
#[local] Hint Resolve hold_create_variable : sim.
Lemma hold_load_variable c n : sim (S := S) holds (load_variable c n) (load_variable c n).
Proof. unfold load_variable. solve_hold. Qed.
#[local] Hint Resolve hold_load_variable : sim.
Lemma hold_set_variable c n v d e : sim (S := S) holds (set_variable c n v d e) (set_variable c n v d e).
Proof. unfold set_variable. solve_hold. Qed.
#[local] Hint Resolve hold_set_variable : sim.
Lemma hold_lookup_variable c n d e : sim (S := S) holds (lookup_variable c n d e) (lookup_variable c n d e).
Proof. unfold lookup_variable. solve_hold. Qed.
#[local] Hint Resolve hold_lookup_variable : sim.
Lemma hold_lookup_variable_with_size c n d e : sim (S := S) holds (lookup_variable_with_size c n d e) (lookup_variable_with_size c n d e).
Proof. unfold lookup_variable_with_size. solve_hold. Qed.
#[local] Hint Resolve hold_lookup_variable_with_size : sim.
Lemma hold_create_map c n k v : sim (S := S) holds (create_map c n k v) (create_map c n k v).
Proof. unfold create_map. solve_hold. Qed.
#[local] Hint Resolve hold_create_map : sim.
Lemma hold_load_map c n : sim (S := S) holds (load_map c n) (load_map c n).
Proof. unfold load_map. solve_hold. Qed.
#[local] Hint Resolve hold_load_map : sim.
Lemma hold_entry_exists k t e : sim (S := S) holds (data_map_entry_exists k t e) (data_map_entry_exists k t e).
Proof. unfold data_map_entry_exists. solve_hold. Qed.
#[local] Hint Resolve hold_entry_exists : sim.
Lemma hold_fetch_entry c n k d e : sim (S := S) holds (fetch_entry c n k d e) (fetch_entry c n k d e).
Proof. unfold fetch_entry, make_key_for_data_map_entry, type_result. solve_hold. Qed.
#[local] Hint Resolve hold_fetch_entry : sim.
Lemma hold_fetch_entry_with_size c n k d e : sim (S := S) holds (fetch_entry_with_size c n k d e) (fetch_entry_with_size c n k d e).
Proof. unfold fetch_entry_with_size, type_result. solve_hold. Qed.
#[local] Hint Resolve hold_fetch_entry_with_size : sim.
Lemma hold_inner_set_entry c n k v b d e : sim (S := S) holds (inner_set_entry c n k v b d e) (inner_set_entry c n k v b d e).
Proof. unfold inner_set_entry, type_result. solve_hold. Qed.
#[local] Hint Resolve hold_inner_set_entry : sim.
Lemma hold_delete_entry c n k d e : sim (S := S) holds (delete_entry c n k d e) (delete_entry c n k d e).
Proof. unfold delete_entry, type_result. solve_hold. Qed.
#[local] Hint Resolve hold_delete_entry : sim.
Lemma hold_create_ft c n s : sim (S := S) holds (create_fungible_token c n s) (create_fungible_token c n s).
Proof. unfold create_fungible_token, put_json, db_put_data. solve_hold. Qed.
#[local] Hint Resolve hold_create_ft : sim.
Lemma hold_load_ft c n : sim (S := S) holds (load_ft c n) (load_ft c n).
Proof. unfold load_ft. solve_hold. Qed.
#[local] Hint Resolve hold_load_ft : sim.
Lemma hold_get_ft_supply c n : sim (S := S) holds (get_ft_supply c n) (get_ft_supply c n).
Proof. unfold get_ft_supply, get_json. solve_hold. Qed.
#[local] Hint Resolve hold_get_ft_supply : sim.
Lemma hold_increase_supply c n a d : sim (S := S) holds (checked_increase_token_supply c n a d) (checked_increase_token_supply c n a d).
Proof. unfold checked_increase_token_supply, get_json, put_json, db_put_data. solve_hold. Qed.
#[local] Hint Resolve hold_increase_supply : sim.
Lemma hold_decrease_supply c n a : sim (S := S) holds (checked_decrease_token_supply c n a) (checked_decrease_token_supply c n a).
Proof. unfold checked_decrease_token_supply, get_json, put_json, db_put_data. solve_hold. Qed.
#[local] Hint Resolve hold_decrease_supply : sim.
Lemma hold_get_ft_balance c n p d : sim (S := S) holds (get_ft_balance c n p d) (get_ft_balance c n p d).
Proof. unfold get_ft_balance, get_json. solve_hold. Qed.
#[local] Hint Resolve hold_get_ft_balance : sim.
Lemma hold_set_ft_balance c n p b : sim (S := S) holds (set_ft_balance c n p b) (set_ft_balance c n p b).
Proof. unfold set_ft_balance, put_json, db_put_data. solve_hold. Qed.
#[local] Hint Resolve hold_set_ft_balance : sim.
Lemma hold_create_nft c n t : sim (S := S) holds (create_non_fungible_token c n t) (create_non_fungible_token c n t).
Proof. unfold create_non_fungible_token. solve_hold. Qed.
#[local] Hint Resolve hold_create_nft : sim.
Lemma hold_load_nft c n : sim (S := S) holds (load_nft c n) (load_nft c n).
Proof. unfold load_nft. solve_hold. Qed.
#[local] Hint Resolve hold_load_nft : sim.
Lemma hold_get_nft_owner c n a t : sim (S := S) holds (get_nft_owner c n a t) (get_nft_owner c n a t).
Proof. unfold get_nft_owner. solve_hold. Qed.
#[local] Hint Resolve hold_get_nft_owner : sim.
Lemma hold_set_nft_owner c n a p t e : sim (S := S) holds (set_nft_owner c n a p t e) (set_nft_owner c n a p t e).
Proof. unfold set_nft_owner, type_result. solve_hold. Qed.
#[local] Hint Resolve hold_set_nft_owner : sim.
Lemma hold_burn_nft c n a t e : sim (S := S) holds (burn_nft c n a t e) (burn_nft c n a t e).
Proof. unfold burn_nft. solve_hold. Qed.
#[local] Hint Resolve hold_burn_nft : sim.
Lemma hold_liquid : sim (S := S) holds (get_total_liquid_ustx) (get_total_liquid_ustx).
Proof. unfold get_total_liquid_ustx. solve_hold. Qed.
#[local] Hint Resolve hold_liquid : sim.
Lemma hold_set_liquid x : sim (S := S) holds (set_ustx_liquid_supply x) (set_ustx_liquid_supply x).
Proof. unfold set_ustx_liquid_supply. solve_hold. Qed.
#[local] Hint Resolve hold_set_liquid : sim.
Lemma hold_increment x : sim (S := S) holds (increment_ustx_liquid_supply x) (increment_ustx_liquid_supply x).
Proof. unfold increment_ustx_liquid_supply. solve_hold. Qed.
#[local] Hint Resolve hold_increment : sim.
Lemma hold_decrement x : sim (S := S) holds (decrement_ustx_liquid_supply x) (decrement_ustx_liquid_supply x).
Proof. unfold decrement_ustx_liquid_supply. solve_hold. Qed.
#[local] Hint Resolve hold_decrement : sim.
End SimOps.

#[export] Hint Resolve hold_get_data hold_epoch hold_put_size hold_put_value
  hold_get_value hold_insert_meta hold_load_meta hold_admits
  hold_hex hold_add_sizes hold_create_variable hold_load_variable
  hold_set_variable hold_lookup_variable hold_lookup_variable_with_size hold_create_map
  hold_load_map hold_entry_exists hold_fetch_entry hold_fetch_entry_with_size
  hold_inner_set_entry hold_delete_entry hold_create_ft hold_load_ft
  hold_get_ft_supply hold_increase_supply hold_decrease_supply hold_get_ft_balance
  hold_set_ft_balance hold_create_nft hold_load_nft hold_get_nft_owner
  hold_set_nft_owner hold_burn_nft hold_liquid hold_set_liquid
  hold_increment hold_decrement : sim.
