(* ===== verification/StoredKeys.v ===== *)
(** * The keys of what contracts store do not collide

    A key of the database is text: the contract, the kind of datum, the name
    it was declared with and, for entries, the rendering of the entry's key,
    separated by colons. [Location] is the datum a key stands for; different
    data of well-formed contracts have different keys, none of which is a key
    the database uses for itself. *)

From Stdlib Require Import Ascii.
From S2P Require Import Prelude.
From S2P Require Import Bytes.
From S2P Require Import Values.
From S2P Require Import C32.
From S2P Require Import Database.
From S2P Require Import Serialization.
From S2P Require Import Deserialization.
From S2P Require Import ValueRoundTrip.
From S2P Require Import ContractData.

(** ** Text without a character *)

Definition lacks (x : ascii) (s : string) : Prop :=
  Forall (fun c => c <> x) (String.list_ascii_of_string s).

Lemma lacks_app x s t : lacks x (s +:+ t) <-> lacks x s /\ lacks x t.
Proof.
  unfold lacks. induction s as [| c s IH]; [by split; [| intros []] |].
  change (String c s +:+ t) with (String c (s +:+ t)). cbn [String.list_ascii_of_string].
  rewrite !Forall_cons, IH. tauto.
Qed.

Lemma lacks_split x a1 a2 n1 n2 :
  lacks x a1 -> lacks x a2 -> a1 +:+ String x n1 = a2 +:+ String x n2 -> a1 = a2 /\ n1 = n2.
Proof.
  unfold lacks. revert a2. induction a1 as [| c a1 IH]; intros [| c2 a2] H1 H2 E;
    cbn in *; inversion_clear H1; inversion_clear H2; injection E; intros; subst;
    by first [done | destruct (IH a2) as [-> ->]].
Qed.

Lemma lacks_bytes (x : ascii) s :
  Forall (fun b => b <> Z.of_nat (nat_of_ascii x)) (as_bytes s) -> lacks x s.
Proof.
  unfold lacks, as_bytes. rewrite Forall_map. intros Hs.
  eapply Forall_impl; [exact Hs |]. by intros c Hc ->.
Qed.

(** Names allow letters, digits and punctuation other than a colon. *)
Lemma name_lacks_colon name :
  is_clarity_name (as_bytes name) = true \/ is_contract_name (as_bytes name) = true ->
  lacks ":"%char name.
Proof.
  intros H%legal_name_chars. apply lacks_bytes. eapply Forall_impl; [exact H |]. by intros b Hb ->.
Qed.

(** ** Contracts *)

Definition wf_contract (c : QualifiedContractIdentifier) : Prop :=
  wf_standard (issuer c) /\ is_contract_name (as_bytes (contract_name c)) = true.

Section Keys.
Context `{Sha256}.

Lemma c32_char_no_colon d : 0 <= d < 32 -> c32_char d <> ":"%char.
Proof.
  intros Hd. assert (Forall (fun x => c32_char x <> ":"%char) (seqZ 0 32)) as Hall
    by (by repeat constructor).
  rewrite Forall_forall in Hall. apply Hall, elem_of_seqZ. lia.
Qed.

Lemma contract_lacks_colon c : wf_contract c -> lacks ":"%char (contract_to_string c).
Proof.
  intros [Hi Hn]. unfold contract_to_string. apply lacks_app. split.
  - rewrite to_address_eq by done. destruct Hi as (Hv & Hb & _).
    constructor; [done |]. apply Forall_forall. intros x Hx.
    cbn in Hx. apply elem_of_cons in Hx as [-> | Hx]; [by apply c32_char_no_colon |].
    apply c32_encode_chars in Hx as (d & Hd & ->); [by apply c32_char_no_colon |].
    apply Forall_app_2; [done | apply checksum_bytes].
  - apply lacks_app. split; [by repeat constructor |]. apply name_lacks_colon. by right.
Qed.

Lemma contract_to_string_inj c d :
  wf_contract c -> wf_contract d -> contract_to_string c = contract_to_string d -> c = d.
Proof.
  intros [Hc _] [Hd _] E. apply (principal_to_string_inj (Contract c) (Contract d)) in E; [| done ..].
  by injection E.
Qed.

(** ** Keys *)

(** What [make_key_for_trip] and [make_key_for_quad] have in common *)
Definition data_key (c : QualifiedContractIdentifier) (t : StoreType) (rest : string) : string :=
  "vm::" +:+ contract_to_string c +:+ "::" +:+ pretty (store_type_u8 t) +:+ "::" +:+ rest.

Lemma kind_lacks_colon t : lacks ":"%char (pretty (store_type_u8 t)).
Proof. by destruct t; repeat constructor. Qed.

Lemma kind_inj t u : pretty (store_type_u8 t) = pretty (store_type_u8 u) -> t = u.
Proof. destruct t, u; try done; intros E; by vm_compute in E. Qed.

Lemma data_key_inj c d t u r r' :
  wf_contract c -> wf_contract d -> data_key c t r = data_key d u r' -> c = d /\ t = u /\ r = r'.
Proof.
  intros Hc Hd E. unfold data_key in E. apply string_app_inj_l in E.
  apply lacks_split in E as [E1 E]; [| by apply contract_lacks_colon ..].
  injection E as E. apply lacks_split in E as [E2 E]; [| apply kind_lacks_colon ..].
  injection E as ->. split_and!; [by apply contract_to_string_inj | by apply kind_inj | done].
Qed.

(** The data that contracts store *)
Inductive Location :=
| LVariable (c : QualifiedContractIdentifier) (name : string)
| LEntry (c : QualifiedContractIdentifier) (name : string) (key_hex : string)
| LBalance (c : QualifiedContractIdentifier) (name : string) (account : string)
| LSupply (c : QualifiedContractIdentifier) (name : string)
| LOwner (c : QualifiedContractIdentifier) (name : string) (asset_hex : string).

Definition location_key (l : Location) : string :=
  match l with
  | LVariable c name => make_key_for_trip c ST_Variable name
  | LEntry c name hex => make_key_for_quad c ST_DataMap name hex
  | LBalance c name account => make_key_for_quad c ST_FungibleToken name account
  | LSupply c name => make_key_for_trip c ST_CirculatingSupply name
  | LOwner c name hex => make_key_for_quad c ST_NonFungibleToken name hex
  end.

Definition wf_location (l : Location) : Prop :=
  match l with
  | LVariable c name | LEntry c name _ | LBalance c name _ | LSupply c name | LOwner c name _ =>
      wf_contract c /\ is_clarity_name (as_bytes name) = true
  end.

Lemma location_data_key l : exists c t r, location_key l = data_key c t r /\ (wf_location l -> wf_contract c).
Proof. by destruct l; do 3 eexists; (split; [reflexivity | intros []]). Qed.

(** Different data have different keys. *)
Lemma location_key_inj l l' :
  wf_location l -> wf_location l' -> location_key l = location_key l' -> l = l'.
Proof.
  destruct l, l'; intros [Hc Hn] [Hd Hm] E;
    apply (data_key_inj _ _ _ _ _ _ Hc Hd) in E as (-> & Ht & Hr); try discriminate Ht;
    try (by rewrite Hr);
    apply lacks_split in Hr as [-> Hr]; try (apply name_lacks_colon; by left); by injection Hr as ->.
Qed.

(** No datum of a contract is kept under a key of the database's own. *)
Lemma location_key_own l :
  location_key l <> clarity_state_epoch_key /\ location_key l <> ustx_liquid_supply_key /\
  forall p t, location_key l <> make_key_for_account p t.
Proof. by destruct l. Qed.
End Keys.
