(* ===== verification/ContractStorage.v ===== *)
(** * Data variables and maps behave as the contract's author sees them

    Sequences of the operations behind [var-set], [var-get], [map-set],
    [map-insert], [map-get?] and [map-delete] on any lawful store refine
    [Storage]: a value per variable and per key of a map, without
    serialization, sanitization, key rendering or rollback. *)

From S2P Require Import Prelude.
From S2P Require Import Bytes.
From S2P Require Import Epochs.
From S2P Require Import Values.
From S2P Require Import Types.
From S2P Require Import Supertypes.
From S2P Require Import RollbackStore.
From S2P Require Import C32.
From S2P Require Import STXBalance.
From S2P Require Import Database.
From S2P Require Import Serialization.
From S2P Require Import VmErrors.
From S2P Require Import TypedValues.
From S2P Require Import Deserialization.
From S2P Require Import ValueRoundTrip.
From S2P Require Import Sanitization.
From S2P Require Import ContractData.
From S2P Require Import StoredData.
From S2P Require Import StoredKeys.

(** ** Cells: a value under a key *)

Definition wire_len (v : Value) : Z := zlen (value_bytes v).

(** A value that a datum of type [t] can be set to *)
Definition storable (t : TypeSignature) (v : Value) : Prop :=
  typed v = true /\ wire_ok Legacy v = true /\ admitted t v = true.

(** A type whose values epoch [e] reads back *)
Definition readable (e : StacksEpochId) (t : TypeSignature) : Prop :=
  valid_data t = true /\ (value_sanitizing e = true \/ Types.depth t <= UNSANITIZED_DEPTH_CHECK).

Definition cell (m : gmap string string) (key : string) (t : TypeSignature) (o : option Value) : Prop :=
  match o with
  | Some v => m !! key = Some (to_hex (value_bytes v)) /\ storable t v
  | None => m !! key = None
  end.

Definition result_eq (r r' : ValueResult) : Prop :=
  value_eqb (vr_value r) (vr_value r') = true /\ serialized_byte_len r = serialized_byte_len r'.

Lemma wire_len_bounds v :
  typed v = true -> wire_ok Legacy v = true -> 0 <= wire_len v <= 2097152.
Proof.
  intros Hv Hw. pose proof (serialized_within_bound Legacy v Hv Hw) as Hb.
  unfold wire_len, zlen in *. change BOUND_VALUE_SERIALIZATION_BYTES with 2097152 in Hb. lia.
Qed.

Lemma hex_byte_len bs : Z.of_nat (String.length (to_hex bs)) / 2 = zlen bs.
Proof.
  change (to_hex bs) with (hex_of_bytes bs). rewrite length_hex_of_bytes. unfold zlen.
  rewrite Nat2Z.inj_mul, Z.mul_comm. by apply Z.div_mul.
Qed.

Lemma to_hex_inj bs bs' : bytes_ok bs -> bytes_ok bs' -> to_hex bs = to_hex bs' -> bs = bs'.
Proof.
  intros Hb Hb' E. apply (f_equal hex_bytes) in E. rewrite !hex_bytes_to_hex in E by done. by injection E.
Qed.

Section Cells.
Context `{Sha256} `{DebugText}.

Definition set_data (key : string) (v : Value) (d : DbState) : DbState :=
  mkDbState (<[key := to_hex (value_bytes v)]> (db_data d)) (db_meta d).

(** Writing a storable value writes its bytes, sanitized or not. *)
Lemma put_value_run key v e d :
  typed v = true -> wire_ok Legacy v = true ->
  put_value_with_size key v e d = (Ok (wire_len v), set_data key v d).
Proof.
  intros Hv Hw. destruct (wire_writes Legacy v Hv Hw) as [Hs _].
  unfold put_value_with_size. destruct (value_sanitizing e) eqn:He.
  - destruct (typed_type_of v Hv) as (t & Ht & Hvt & Hdt).
    assert (admitted t v = true) as Ha by (apply admitted_spec; exists t; split; [done | by apply adm_refl]).
    destruct (values_sanitizable e He v Hv t (proj2 (andb_true_iff _ _) (conj Hvt Hdt)) Ha)
      as (v' & Hsan & Heq & _).
    rewrite serialized_size_eq by done.
    pose proof (wire_len_bounds v Hv Hw) as Hb. unfold wire_len, zlen in Hb.
    destruct (Z.leb_spec (Z.of_nat (length (value_bytes v))) u32_max); [| ints].
    unfold type_result. rewrite Ht. unfold mbind, M_bind. cbn -[sanitize_value serialize_to_vec value_bytes].
    rewrite Hsan. cbn -[sanitize_value serialize_to_vec value_bytes].
    rewrite serialize_to_vec_bytes by (by eapply value_eqb_sized). cbn -[value_bytes].
    by rewrite <- (value_eqb_bytes v v').
  - rewrite serialize_to_vec_bytes by done. done.
Qed.

(** What a cell holds is read. *)
Definition found (o : option Value) (r : option ValueResult) : Prop :=
  match o, r with
  | Some v, Some x => result_eq (mkValueResult v (wire_len v)) x
  | None, None => True
  | _, _ => False
  end.

Lemma get_cell key t e o d :
  readable e t -> cell (db_data d) key t o ->
  exists r, get_value key t e d = (Ok r, d) /\ found o r.
Proof.
  intros [Ht Hr] Hc. unfold get_value, mmap_err. cbn [cs_get_value DbState_ContractStore].
  destruct o as [v |]; cbn in Hc.
  - destruct Hc as [-> (Hv & Hw & Ha)].
    destruct (stored_reads e v t Hr Hv Hw Ht Ha) as (v' & Hd & Heq & _).
    unfold deserialize_stored, deserialize_value. rewrite Hd. cbn -[to_hex value_bytes]. rewrite hex_byte_len.
    by eexists.
  - rewrite Hc. by eexists.
Qed.

Lemma check_admits_run t v d e :
  db_data d !! clarity_state_epoch_key = Some (u32_serialize (epoch_as_u32 e)) ->
  epoch_ltb e Epoch21 = false -> admitted t v = true ->
  check_admits t v d = (Ok tt, d).
Proof.
  intros Hd He Ha.
  assert (get_clarity_epoch_version d = (Ok e, d)) as Hep.
  { unfold get_clarity_epoch_version, db_get_data, mbind, M_bind. cbn -[u32_serialize].
    rewrite Hd. by destruct e. }
  unfold check_admits. rewrite (M_bind_eval _ _ _ _ _ Hep).
  apply (admits_admitted e) in Ha; [| done]. unfold type_result. rewrite Ha. done.
Qed.

Lemma hex_run v (d : DbState) :
  typed v = true -> wire_ok Legacy v = true ->
  hex_of_value v d = (Ok (to_hex (value_bytes v)), d).
Proof.
  intros Hv Hw. destruct (wire_writes Legacy v Hv Hw) as [Hs _].
  unfold hex_of_value, serialize_to_hex. by rewrite serialize_to_vec_bytes.
Qed.

Lemma add_sizes_run a b (d : DbState) : 0 <= a <= 2097152 -> 0 <= b <= 2097152 -> add_sizes a b d = (Ok (a + b), d).
Proof.
  intros Ha Hb. unfold add_sizes, u64_checked_add.
  by rewrite (proj2 (checked_Some 0 u64_max (a + b) (a + b))) by ints.
Qed.

End Cells.

(** ** Declarations, operations and what they mean *)

(** The types that a contract declared its variables and maps with *)
Record Declarations := mkDeclarations {
  variable_type : QualifiedContractIdentifier -> string -> TypeSignature;
  key_type : QualifiedContractIdentifier -> string -> TypeSignature;
  value_type : QualifiedContractIdentifier -> string -> TypeSignature;
}.

Inductive DataOp :=
| VarSet (c : QualifiedContractIdentifier) (n : string) (v : Value)
| VarGet (c : QualifiedContractIdentifier) (n : string)
| MapSet (c : QualifiedContractIdentifier) (n : string) (k v : Value)
| MapInsert (c : QualifiedContractIdentifier) (n : string) (k v : Value)
| MapGet (c : QualifiedContractIdentifier) (n : string) (k : Value)
| MapDelete (c : QualifiedContractIdentifier) (n : string) (k : Value).

(** The value of a variable, if it was set; the value of an entry, [Some None]
    for one that was deleted *)
Record Storage := mkStorage {
  st_variable : QualifiedContractIdentifier -> string -> option Value;
  st_entry : QualifiedContractIdentifier -> string -> Value -> option (option Value);
}.

Definition set_st_variable c n v (st : Storage) : Storage :=
  mkStorage (fun c' n' => if decide (c' = c /\ n' = n) then Some v else st_variable st c' n')
    (st_entry st).

Definition set_st_entry c n k o (st : Storage) : Storage :=
  mkStorage (st_variable st)
    (fun c' n' k' => if decide (c' = c /\ n' = n /\ value_eqb k k' = true) then Some o
                     else st_entry st c' n' k').

(** What an operation answers, with the length that it is charged for *)
Definition spec_op (op : DataOp) (st : Storage) : ValueResult * Storage :=
  match op with
  | VarSet c n v => (mkValueResult (Bool true) (wire_len v), set_st_variable c n v st)
  | VarGet c n =>
      (match st_variable st c n with
       | Some v => mkValueResult v (wire_len v)
       | None => mkValueResult value_none (wire_len value_none)
       end, st)
  | MapSet c n k v =>
      (mkValueResult (Bool true) (wire_len k + wire_len (Optional (Some v))),
       set_st_entry c n k (Some v) st)
  | MapInsert c n k v =>
      match st_entry st c n k with
      | Some (Some _) => (mkValueResult (Bool false) (wire_len k), st)
      | _ => (mkValueResult (Bool true) (wire_len k + wire_len (Optional (Some v))),
              set_st_entry c n k (Some v) st)
      end
  | MapGet c n k =>
      (match st_entry st c n k with
       | Some o => mkValueResult (Optional o) (wire_len (Optional o) + wire_len k)
       | None => mkValueResult value_none (wire_len k)
       end, st)
  | MapDelete c n k =>
      match st_entry st c n k with
      | Some (Some _) =>
          (mkValueResult (Bool true) (wire_len k + wire_len value_none), set_st_entry c n k None st)
      | _ => (mkValueResult (Bool false) (wire_len k), st)
      end
  end.

Fixpoint spec_ops (ops : list DataOp) (st : Storage) : list ValueResult * Storage :=
  match ops with
  | [] => ([], st)
  | op :: ops =>
      let '(r, st) := spec_op op st in let '(rs, st) := spec_ops ops st in (r :: rs, st)
  end.

(** The operations of the database *)
Section Run.
Context `{Sha256} `{DebugText} {S : Type} `{KVStore S} `{ContractStore S}.
Context (D : Declarations) (e : StacksEpochId).

Definition variable_descriptor c n : DataVariableMetadata := mkDataVariable (variable_type D c n).
Definition map_descriptor c n : DataMapMetadata := mkDataMap (key_type D c n) (value_type D c n).

Definition run_data_op (op : DataOp) : M S VmExecutionError ValueResult :=
  match op with
  | VarSet c n v => set_variable c n v (variable_descriptor c n) e
  | VarGet c n => lookup_variable_with_size c n (variable_descriptor c n) e
  | MapSet c n k v => set_entry c n k v (map_descriptor c n) e
  | MapInsert c n k v => insert_entry c n k v (map_descriptor c n) e
  | MapGet c n k => fetch_entry_with_size c n k (map_descriptor c n) e
  | MapDelete c n k => delete_entry c n k (map_descriptor c n) e
  end.

Fixpoint run_data_ops (ops : list DataOp) : M S VmExecutionError (list ValueResult) :=
  match ops with
  | [] => mret []
  | op :: ops => r ← run_data_op op; rs ← run_data_ops ops; mret (r :: rs)
  end.
End Run.

(** Operations that pass the type checker: names and values are well formed,
    values have the declared types. *)
Definition op_ok (D : Declarations) (op : DataOp) : Prop :=
  match op with
  | VarSet c n v => wf_location (LVariable c n) /\ storable (variable_type D c n) v
  | VarGet c n => wf_location (LVariable c n)
  | MapSet c n k v | MapInsert c n k v =>
      wf_location (LEntry c n "") /\ storable (key_type D c n) k /\
      storable (OptionalType (value_type D c n)) (Optional (Some v))
  | MapGet c n k | MapDelete c n k =>
      wf_location (LEntry c n "") /\ storable (key_type D c n) k
  end.

Definition declarations_ok (D : Declarations) (e : StacksEpochId) : Prop :=
  forall c n, readable e (variable_type D c n) /\ readable e (OptionalType (value_type D c n)).

Definition entry_key `{Sha256} c n (k : Value) : string :=
  location_key (LEntry c n (to_hex (value_bytes k))).

(** The data of a store hold [st]. *)
Definition stores `{Sha256} (D : Declarations) (st : Storage) (m : gmap string string) : Prop :=
  (forall c n, wf_location (LVariable c n) ->
     cell m (location_key (LVariable c n)) (variable_type D c n) (st_variable st c n)) /\
  (forall c n k, wf_location (LEntry c n "") -> storable (key_type D c n) k ->
     cell m (entry_key c n k) (OptionalType (value_type D c n)) (Optional <$> st_entry st c n k)).

(** Keys of variables and entries *)
Definition data_location (l : Location) : bool :=
  match l with LVariable _ _ | LEntry _ _ _ => true | _ => false end.

Definition others_kept `{Sha256} (m m' : gmap string string) : Prop :=
  forall key, (forall l, data_location l = true -> location_key l <> key) -> m' !! key = m !! key.

Definition epoch_stored (m : gmap string string) (e : StacksEpochId) : Prop :=
  m !! clarity_state_epoch_key = Some (u32_serialize (epoch_as_u32 e)).

(** ** Each operation *)

Section Refinement.
Context `{Sha256} `{DebugText}.
Context (D : Declarations) (e ed : StacksEpochId).
Context (HD : declarations_ok D e) (Hed : epoch_ltb ed Epoch21 = false).

Lemma stores_set_variable c n v st m :
  wf_location (LVariable c n) -> storable (variable_type D c n) v -> stores D st m ->
  stores D (set_st_variable c n v st)
    (<[location_key (LVariable c n) := to_hex (value_bytes v)]> m).
Proof.
  intros Hl Hv [Hvar Hent]. split.
  - intros c' n' Hl'. cbn [st_variable set_st_variable]. case_decide as E.
    + destruct E as [-> ->]. split; [apply lookup_insert_eq | done].
    + unfold cell. rewrite lookup_insert_ne; [by apply Hvar |].
      intros [= -> ->]%location_key_inj; [by apply E | done | done].
  - intros c' n' k Hl' Hk. unfold cell, entry_key. rewrite lookup_insert_ne; [by apply Hent |].
    by intros [=]%location_key_inj.
Qed.

Lemma entry_key_inj c n k c' n' k' t t' :
  wf_location (LEntry c n "") -> storable t k -> wf_location (LEntry c' n' "") -> storable t' k' ->
  entry_key c n k = entry_key c' n' k' -> c' = c /\ n' = n /\ value_eqb k k' = true.
Proof.
  unfold entry_key. intros Hl (Hk & Hwk & _) Hl' (Hk' & Hwk' & _) [= -> -> Ehex]%location_key_inj; [| done | done].
  split_and!; [done | done |]. apply (value_bytes_inj Legacy); [done .. |].
  apply to_hex_inj; [by eapply wire_writes .. | done].
Qed.

Lemma stores_set_entry c n k o st m :
  wf_location (LEntry c n "") -> storable (key_type D c n) k ->
  storable (OptionalType (value_type D c n)) (Optional o) -> stores D st m ->
  stores D (set_st_entry c n k o st) (<[entry_key c n k := to_hex (value_bytes (Optional o))]> m).
Proof.
  intros Hl Hk Ho [Hvar Hent]. split.
  - intros c' n' Hl'. unfold cell, entry_key. rewrite lookup_insert_ne; [by apply Hvar |].
    by intros [=]%location_key_inj.
  - intros c' n' k' Hl' Hk'. cbn [st_entry set_st_entry]. case_decide as E.
    + destruct E as (-> & -> & Ek). split; [| done]. unfold entry_key.
      rewrite <- (value_eqb_bytes k k' Ek). apply lookup_insert_eq.
    + unfold cell. rewrite lookup_insert_ne; [by apply Hent |].
      intros Ekey. apply E. by eapply entry_key_inj.
Qed.

Lemma others_kept_insert l v m : data_location l = true -> others_kept m (<[location_key l := v]> m).
Proof. intros Hl key Hkey. apply lookup_insert_ne. by apply Hkey. Qed.

Lemma others_kept_refl m : others_kept m m.
Proof. by intros key _. Qed.

(** The operation [op] on [d] does what it means on [st]. *)
Definition refines (op : DataOp) (st : Storage) (d : DbState) : Prop :=
  exists r d', run_data_op D e op d = (Ok r, d') /\ result_eq (spec_op op st).1 r /\
    stores D (spec_op op st).2 (db_data d') /\ others_kept (db_data d) (db_data d') /\
    db_meta d' = db_meta d.

Lemma result_eq_refl r : result_eq r r.
Proof. split; [apply value_eqb_refl | done]. Qed.

Lemma refines_write op st d r l v :
  data_location l = true ->
  run_data_op D e op d = (Ok r, set_data (location_key l) v d) -> (spec_op op st).1 = r ->
  stores D (spec_op op st).2 (db_data (set_data (location_key l) v d)) -> refines op st d.
Proof.
  intros Hl Hrun <- Hst. eexists _, _. split; [exact Hrun |].
  split_and!; [apply result_eq_refl | done | by apply others_kept_insert | done].
Qed.

Lemma refines_read op st d r :
  run_data_op D e op d = (Ok r, d) -> result_eq (spec_op op st).1 r -> (spec_op op st).2 = st ->
  stores D st (db_data d) -> refines op st d.
Proof.
  intros Hrun Hr Heq Hst. exists r, d. split_and!; [done | done | by rewrite Heq | apply others_kept_refl | done].
Qed.

Context (st : Storage) (d : DbState).
Context (Hep : epoch_stored (db_data d) ed) (Hst : stores D st (db_data d)).

Lemma var_set_refines c n v :
  wf_location (LVariable c n) -> storable (variable_type D c n) v -> refines (VarSet c n v) st d.
Proof.
  intros Hl Hs. pose proof Hs as (Hv & Hw & Ha).
  apply (refines_write _ _ _ (mkValueResult (Bool true) (wire_len v)) (LVariable c n) v); [done | | done |].
  - cbn [run_data_op]. unfold set_variable. cbn [dv_value_type variable_descriptor].
    rewrite (M_bind_eval _ _ _ _ _ (check_admits_run _ v d ed Hep Hed Ha)).
    by rewrite (M_bind_eval _ _ _ _ _ (put_value_run _ v e d Hv Hw)).
  - by apply stores_set_variable.
Qed.

Lemma var_get_refines c n : wf_location (LVariable c n) -> refines (VarGet c n) st d.
Proof.
  intros Hl. destruct (get_cell _ _ _ _ _ (proj1 (HD c n)) (proj1 Hst c n Hl)) as (r & Hget & Hf).
  exists (default (mkValueResult value_none NONE_SERIALIZATION_LEN) r), d.
  split_and!; [| | done | apply others_kept_refl | done].
  - cbn [run_data_op]. unfold lookup_variable_with_size. rewrite (M_bind_eval _ _ _ _ _ Hget). by destruct r.
  - cbn [spec_op fst]. destruct (st_variable st c n), r; cbn in Hf; done.
Qed.

(** *** Entries of maps *)

Lemma stored_type_run c n (s : DbState) :
  type_result (new_option (value_type D c n)) s = (Ok (OptionalType (value_type D c n)), s).
Proof.
  destruct (HD c n) as [_ [Hv _]]. apply andb_true_iff in Hv as [Hv _]. cbn in Hv.
  apply andb_true_iff in Hv as [_ Hv]. unfold type_result.
  destruct (new_option (value_type D c n)) as [t | |] eqn:E; [| done ..].
  by apply new_option_Ok in E as [-> _].
Qed.

Lemma entry_found c n k :
  wf_location (LEntry c n "") -> storable (key_type D c n) k ->
  exists r, get_value (entry_key c n k) (OptionalType (value_type D c n)) e d = (Ok r, d) /\
    found (Optional <$> st_entry st c n k) r.
Proof. intros Hl Hk. apply get_cell; [apply HD | by apply (proj2 Hst)]. Qed.

Definition present (o : option (option Value)) : bool :=
  match o with Some (Some _) => true | _ => false end.

Lemma entry_exists_run c n k :
  wf_location (LEntry c n "") -> storable (key_type D c n) k ->
  data_map_entry_exists (entry_key c n k) (OptionalType (value_type D c n)) e d
  = (Ok (present (st_entry st c n k)), d).
Proof.
  intros Hl Hk. destruct (entry_found c n k Hl Hk) as (r & Hget & Hf).
  unfold data_map_entry_exists. rewrite (M_bind_eval _ _ _ _ _ Hget).
  destruct (st_entry st c n k) as [[v |] |], r as [[w len] |]; cbn in Hf; try done;
    destruct Hf as [Hf _]; cbn in Hf; by destruct w as [| | | | | | [x |] | |].
Qed.

Lemma length_none : NONE_SERIALIZATION_LEN = wire_len value_none.
Proof. done. Qed.

(** The steps before a map operation touches the entry *)
Lemma key_steps {A} c n k (f : string -> TypeSignature -> M DbState VmExecutionError A) :
  storable (key_type D c n) k ->
  (check_admits (key_type D c n) k;;
   hex ← hex_of_value k;
   t ← type_result (new_option (value_type D c n));
   f hex t) d
  = f (to_hex (value_bytes k)) (OptionalType (value_type D c n)) d.
Proof.
  intros (Hk & Hw & Ha). rewrite (M_bind_eval _ _ _ _ _ (check_admits_run _ k d ed Hep Hed Ha)).
  rewrite (M_bind_eval _ _ _ _ _ (hex_run k d Hk Hw)).
  by rewrite (M_bind_eval _ _ _ _ _ (stored_type_run c n d)).
Qed.

Lemma byte_len_key k : byte_len_of_serialization (to_hex (value_bytes k)) = wire_len k.
Proof. apply hex_byte_len. Qed.

Lemma map_get_refines c n k :
  wf_location (LEntry c n "") -> storable (key_type D c n) k -> refines (MapGet c n k) st d.
Proof.
  intros Hl Hk. destruct (entry_found c n k Hl Hk) as (r & Hget & Hf).
  pose proof (proj2 Hst c n k Hl Hk) as Hcell.
  pose proof Hk as (Hkt & Hkw & _). pose proof (wire_len_bounds k Hkt Hkw) as Hbk.
  exists (match r with Some x => mkValueResult (vr_value x) (serialized_byte_len x + wire_len k)
          | None => mkValueResult value_none (wire_len k) end), d.
  split_and!; [| | done | apply others_kept_refl | done].
  - cbn [run_data_op]. unfold fetch_entry_with_size. cbn [dm_key_type dm_value_type map_descriptor].
    rewrite (key_steps c n k (fun hex t => _)) by done.
    rewrite (M_bind_eval _ _ _ _ _ Hget), byte_len_key.
    destruct r as [[w len] |]; [| done]. destruct (st_entry st c n k) as [o |]; [| done].
    destruct Hf as [_ Hlen], Hcell as [_ (Ho & How & _)]. cbn -[wire_len] in Hlen. subst len.
    by rewrite (M_bind_eval _ _ _ _ _ (add_sizes_run _ _ d (wire_len_bounds _ Ho How) Hbk)).
  - cbn [spec_op fst]. destruct (st_entry st c n k) as [o |], r as [[w len] |]; try done.
    destruct Hf as [Hf Hlen]. cbn -[wire_len] in Hlen. subst len. by split.
Qed.

Lemma put_entry_run c n k v :
  storable (key_type D c n) k -> storable (OptionalType (value_type D c n)) (Optional (Some v)) ->
  (placed_value ← type_result (value_some v);
   placed_size ← put_value_with_size (entry_key c n k) placed_value e;
   len ← add_sizes (wire_len k) placed_size;
   mret (mkValueResult (Bool true) len)) d
  = (Ok (mkValueResult (Bool true) (wire_len k + wire_len (Optional (Some v)))),
     set_data (entry_key c n k) (Optional (Some v)) d).
Proof.
  intros (Hkt & Hkw & _) (Hv & Hw & _).
  assert (type_result (value_some v) d = (Ok (Optional (Some v)), d)) as Hsome.
  { pose proof (proj1 (typed_some v) Hv) as [_ Hc]. unfold type_result.
    by rewrite (proj2 (value_some_Ok v (Optional (Some v)))). }
  rewrite (M_bind_eval _ _ _ _ _ Hsome), (M_bind_eval _ _ _ _ _ (put_value_run _ _ e d Hv Hw)).
  by rewrite (M_bind_eval _ _ _ _ _ (add_sizes_run _ _ _ (wire_len_bounds k Hkt Hkw) (wire_len_bounds _ Hv Hw))).
Qed.

Lemma value_admitted c n v :
  storable (OptionalType (value_type D c n)) (Optional (Some v)) -> admitted (value_type D c n) v = true.
Proof.
  intros (Hv & _ & Ha). destruct (HD c n) as [_ [Hvd _]].
  by destruct (admitted_some _ v Hv Ha Hvd) as (u & [= <-] & _ & ? & _).
Qed.

Lemma inner_set_run c n k v b :
  wf_location (LEntry c n "") -> storable (key_type D c n) k ->
  storable (OptionalType (value_type D c n)) (Optional (Some v)) ->
  inner_set_entry c n k v b (map_descriptor D c n) e d
  = if b && present (st_entry st c n k) then (Ok (mkValueResult (Bool false) (wire_len k)), d)
    else (Ok (mkValueResult (Bool true) (wire_len k + wire_len (Optional (Some v)))),
          set_data (entry_key c n k) (Optional (Some v)) d).
Proof.
  intros Hl Hk Hv. pose proof Hk as (Hkt & Hkw & Hka). unfold inner_set_entry.
  cbn [dm_key_type dm_value_type map_descriptor].
  rewrite (M_bind_eval _ _ _ _ _ (check_admits_run _ k d ed Hep Hed Hka)).
  rewrite (M_bind_eval _ _ _ _ _ (check_admits_run _ v d ed Hep Hed (value_admitted c n v Hv))).
  rewrite (M_bind_eval _ _ _ _ _ (hex_run k d Hkt Hkw)), byte_len_key.
  rewrite (M_bind_eval _ _ _ _ _ (stored_type_run c n d)).
  destruct b.
  - rewrite (M_bind_eval _ _ _ _ _ (entry_exists_run c n k Hl Hk)).
    destruct (present _); [done | by apply put_entry_run].
  - by apply put_entry_run.
Qed.

Lemma map_set_refines c n k v (b : bool) op :
  op = (if b then MapInsert c n k v else MapSet c n k v) ->
  wf_location (LEntry c n "") -> storable (key_type D c n) k ->
  storable (OptionalType (value_type D c n)) (Optional (Some v)) -> refines op st d.
Proof.
  intros -> Hl Hk Hv. pose proof (inner_set_run c n k v b Hl Hk Hv) as Hrun.
  destruct (b && present (st_entry st c n k)) eqn:E.
  - destruct b; [| done]. cbn in E. eapply refines_read; [exact Hrun | | | done]; cbn [spec_op];
      destruct (st_entry st c n k) as [[x |] |]; try done; apply result_eq_refl.
  - assert (spec_op (if b then MapInsert c n k v else MapSet c n k v) st =
      (mkValueResult (Bool true) (wire_len k + wire_len (Optional (Some v))),
       set_st_entry c n k (Some v) st)) as Hspec.
    { destruct b; [| done]. cbn [spec_op]. by destruct (st_entry st c n k) as [[x |] |]. }
    apply (refines_write _ _ _ (mkValueResult (Bool true) (wire_len k + wire_len (Optional (Some v))))
             (LEntry c n (to_hex (value_bytes k))) (Optional (Some v)));
      [done | destruct b; exact Hrun | by rewrite Hspec |]. rewrite Hspec. by apply stores_set_entry.
Qed.

Lemma map_delete_refines c n k :
  wf_location (LEntry c n "") -> storable (key_type D c n) k -> refines (MapDelete c n k) st d.
Proof.
  intros Hl Hk. pose proof Hk as (Hkt & Hkw & _).
  assert (run_data_op D e (MapDelete c n k) d =
    if present (st_entry st c n k)
    then (Ok (mkValueResult (Bool true) (wire_len k + wire_len value_none)), set_data (entry_key c n k) value_none d)
    else (Ok (mkValueResult (Bool false) (wire_len k)), d)) as Hrun.
  { cbn [run_data_op]. unfold delete_entry. cbn [dm_key_type dm_value_type map_descriptor].
    rewrite (key_steps c n k (fun hex t => _)) by done.
    rewrite (M_bind_eval _ _ _ _ _ (entry_exists_run c n k Hl Hk)), byte_len_key.
    destruct (present _); [| done]. cbn [negb].
    assert (put_value (entry_key c n k) value_none e d = (Ok tt, set_data (entry_key c n k) value_none d)) as Hput.
    { unfold put_value. by rewrite (M_bind_eval _ _ _ _ _ (put_value_run _ value_none e d eq_refl eq_refl)). }
    rewrite (M_bind_eval _ _ _ _ _ Hput), length_none.
    by rewrite (M_bind_eval _ _ _ _ _ (add_sizes_run _ _ _ (wire_len_bounds k Hkt Hkw)
      (wire_len_bounds value_none eq_refl eq_refl))). }
  assert (admitted (OptionalType (value_type D c n)) value_none = true) as Hnone.
  { apply admitted_spec. exists (OptionalType NoType). split; [done |]. unfold adm.
    by destruct (value_type D c n). }
  destruct (st_entry st c n k) as [[x |] |] eqn:E; cbn [present] in Hrun.
  - eapply (refines_write _ _ _ _ (LEntry c n (to_hex (value_bytes k))) value_none); [done | exact Hrun | |];
      cbn [spec_op]; rewrite E; [done |]. by apply (stores_set_entry c n k None).
  - eapply refines_read; [exact Hrun | | | done]; cbn [spec_op]; rewrite E; [apply result_eq_refl | done].
  - eapply refines_read; [exact Hrun | | | done]; cbn [spec_op]; rewrite E; [apply result_eq_refl | done].
Qed.

Lemma data_op_refines op : op_ok D op -> refines op st d.
Proof.
  destruct op as [c n v | c n | c n k v | c n k v | c n k | c n k]; cbn [op_ok]; intros Hop; destruct_and?.
  - by apply var_set_refines.
  - by apply var_get_refines.
  - by apply (map_set_refines c n k v false).
  - by apply (map_set_refines c n k v true).
  - by apply map_get_refines.
  - by apply map_delete_refines.
Qed.
End Refinement.

(** ** Sequences of operations *)

Section Sequences.
Context `{Sha256} `{DebugText}.

Lemma epoch_kept m m' e : others_kept m m' -> epoch_stored m e -> epoch_stored m' e.
Proof.
  unfold epoch_stored. intros Ho <-. apply Ho. intros l _. apply location_key_own.
Qed.

Lemma data_ops_refine D e ed ops :
  declarations_ok D e -> epoch_ltb ed Epoch21 = false -> Forall (op_ok D) ops ->
  forall st d, epoch_stored (db_data d) ed -> stores D st (db_data d) ->
  exists rs d', run_data_ops D e ops d = (Ok rs, d') /\
    Forall2 result_eq (spec_ops ops st).1 rs /\ stores D (spec_ops ops st).2 (db_data d') /\
    others_kept (db_data d) (db_data d').
Proof.
  intros HD Hed. induction 1 as [| op ops Hop _ IH]; intros st d Hep Hst.
  - exists [], d. by split_and!.
  - destruct (data_op_refines D e ed HD Hed st d Hep Hst op Hop) as (r & d1 & Hrun & Hr & Hst1 & Ho & _).
    destruct (IH (spec_op op st).2 d1 (epoch_kept _ _ _ Ho Hep) Hst1) as (rs & d2 & Hruns & Hrs & Hst2 & Ho2).
    exists (r :: rs), d2. cbn [run_data_ops spec_ops].
    rewrite (M_bind_eval _ _ _ _ _ Hrun), (M_bind_eval _ _ _ _ _ Hruns).
    destruct (spec_op op st) as [r' st1]. cbn [fst snd] in *. destruct (spec_ops ops st1) as [rs' st2].
    split_and!; [done | by constructor | done |]. intros key Hkey. by rewrite Ho2, Ho.
Qed.

Lemma hold_data_ops {S} `{ContractStoreLaws S} D e ops :
  sim (S := S) holds (run_data_ops D e ops) (run_data_ops D e ops).
Proof.
  induction ops as [| op ops IH]; cbn [run_data_ops]; [apply sim_ret |].
  apply sim_bind; [| intros r; apply sim_bind; [exact IH | intros; apply sim_ret]].
  destruct op; cbn [run_data_op]; eauto with sim; unfold set_entry, insert_entry; eauto with sim.
Qed.

(** C13: What a contract stores is what it reads: on any lawful store, every
    sequence of data-variable and data-map operations, with arguments of the
    declared types, succeeds and answers as the abstract storage does, one value
    per variable and per map key up to equality of values, for all contracts and
    names at once; the lengths it reports for charging are those of the
    serializations, and nothing but variables and entries is touched. *)
Theorem contract_storage_refines {S} `{ContractStoreLaws S} D e ed ops st (s : S) :
  kv_ok s -> declarations_ok D e -> epoch_ltb ed Epoch21 = false -> Forall (op_ok D) ops ->
  epoch_stored (kv_view s) ed -> stores D st (kv_view s) ->
  exists rs s', run_data_ops D e ops s = (Ok rs, s') /\ kv_ok s' /\
    Forall2 result_eq (spec_ops ops st).1 rs /\ stores D (spec_ops ops st).2 (kv_view s') /\
    others_kept (kv_view s) (kv_view s').
Proof.
  intros Hok HD Hed Hops Hep Hst.
  destruct (data_ops_refine D e ed ops HD Hed Hops st (mkDbState (kv_view s) (cs_meta s)) Hep Hst)
    as (rs & d' & Hrun & Hrs & Hst' & Ho).
  destruct (hold_data_ops D e ops s _ (holds_view s Hok)) as [Hres Hd]. rewrite Hrun in Hres, Hd.
  destruct (run_data_ops D e ops s) as [r s']. cbn in Hres, Hd. subst r.
  destruct Hd as (Hok' & Hv & _). exists rs, s'. by rewrite Hv.
Qed.
End Sequences.

(** ** A contract that runs *)

Definition uint_declarations : Declarations :=
  mkDeclarations (fun _ _ => UIntType) (fun _ _ => UIntType) (fun _ _ => UIntType).

Definition no_storage : Storage := mkStorage (fun _ _ => None) (fun _ _ _ => None).

Definition storage_ops : list DataOp :=
  [VarSet sample_contract "x" (UInt 5); VarGet sample_contract "x"; VarGet sample_contract "y";
   MapInsert sample_contract "m" (UInt 1) (UInt 9); MapInsert sample_contract "m" (UInt 1) (UInt 8);
   MapGet sample_contract "m" (UInt 1); MapDelete sample_contract "m" (UInt 1);
   MapGet sample_contract "m" (UInt 1)].

(** A wrapper over a store that holds the epoch, inside a context *)
Definition epoch_30_store : RollbackWrapper MemStore :=
  (run_ops [OpNest] (RollbackWrapper_new
     (mkMemStore {[clarity_state_epoch_key := u32_serialize (epoch_as_u32 Epoch30)]} ∅))).2.

Lemma no_storage_stored `{Sha256} D v :
  stores D no_storage {[clarity_state_epoch_key := v]}.
Proof.
  assert (forall l, ({[clarity_state_epoch_key := v]} : gmap string string) !! location_key l = None) as Hl.
  { intros l. apply lookup_singleton_ne. intros E. by apply (proj1 (location_key_own l)). }
  split; intros; apply Hl.
Qed.

Lemma sample_contract_wf : wf_contract sample_contract.
Proof. split; [| reflexivity]. split; [cbn; lia |]. split; [by repeat constructor | reflexivity]. Qed.

Lemma storage_ops_ok : Forall (op_ok uint_declarations) storage_ops.
Proof.
  pose proof sample_contract_wf.
  repeat (apply Forall_cons; split; [unfold op_ok, wf_location, storable; split_and!; first [assumption | reflexivity] |]). constructor.
Qed.

Lemma epoch_30_store_ok :
  kv_ok epoch_30_store /\
  kv_view epoch_30_store = {[clarity_state_epoch_key := u32_serialize (epoch_as_u32 Epoch30)]}.
Proof.
  split; [| apply map_eq; intros k; etransitivity; [apply wrapper_view_lookup |];
            change (lookup_map epoch_30_store) with (∅ : gmap string (list string)); by rewrite lookup_empty].
  split; [| split; [discriminate | reflexivity]].
  eapply (reachable_well_formed _ [OpNest]). reflexivity.
Qed.

Lemma contract_storage_refines_witness :
  exists rs s', @run_data_ops zero_sha256 plain_text _ _ _ uint_declarations Epoch30 storage_ops epoch_30_store
      = (Ok rs, s') /\
    Forall2 result_eq
      [mkValueResult (Bool true) 17; mkValueResult (UInt 5) 17; mkValueResult value_none 1;
       mkValueResult (Bool true) 35; mkValueResult (Bool false) 17;
       mkValueResult (Optional (Some (UInt 9))) 35; mkValueResult (Bool true) 18;
       mkValueResult value_none 18] rs.
Proof.
  destruct (@contract_storage_refines zero_sha256 plain_text _ _ _ _ _ uint_declarations Epoch30 Epoch30
    storage_ops no_storage epoch_30_store) as (rs & s' & Hrun & _ & Hrs & _).
  - apply epoch_30_store_ok.
  - intros c n. split; (split; [reflexivity | by left]).
  - reflexivity.
  - exact storage_ops_ok.
  - rewrite (proj2 epoch_30_store_ok). apply lookup_singleton_eq.
  - rewrite (proj2 epoch_30_store_ok). apply no_storage_stored.
  - exists rs, s'. split; [exact Hrun |]. vm_compute in Hrs. exact Hrs.
Defined.
