(* ===== verification/Arithmetic.v ===== *)
(** * Arithmetic of Clarity integers

    [clarity/src/vm/functions/arithmetic.rs]: the native functions on [int]
    and [uint], and the comparisons. The macros that instantiate the operations
    for [i128] and [u128] are one set of definitions over the bounds of the
    type. Checked exponentiation follows the loop of Rust's standard library;
    the square root is that of the [integer-sqrt] crate, a parameter. *)

From S2P Require Import Prelude.
From S2P Require Import Bytes.
From S2P Require Import BoundedString.
From S2P Require Import BTree.
From S2P Require Import Epochs.
From S2P Require Import Values.
From S2P Require Import Types.
From S2P Require Import C32.
From S2P Require Import Serialization.
From S2P Require Import VmErrors.
From S2P Require Import TypedValues.

(** ** Operations of an integer type *)

Record IntOps := mkIntOps { op_min : Z; op_max : Z; make_value : Z -> Value }.

Definition U128Ops : IntOps := mkIntOps 0 u128_max UInt.
Definition I128Ops : IntOps := mkIntOps i128_min i128_max Int.

(** [IntegerSquareRoot::integer_sqrt_checked] *)
Class IntegerSquareRoot := {
  integer_sqrt_checked : Z -> option Z;
  integer_sqrt_spec n r :
    integer_sqrt_checked n = Some r <-> 0 <= n /\ 0 <= r /\ r * r <= n < (r + 1) * (r + 1);
}.

Abbreviation VmR := (result VmExecutionError).

Section Ops.
Context (ops : IntOps).

(** The value of the type with the low 128 bits of [z] *)
Definition wrapping (z : Z) : Z := (z - op_min ops) mod 2 ^ 128 + op_min ops.

Definition checked_add (a b : Z) : option Z := checked (op_min ops) (op_max ops) (a + b).
Definition checked_sub (a b : Z) : option Z := checked (op_min ops) (op_max ops) (a - b).
Definition checked_mul (a b : Z) : option Z := checked (op_min ops) (op_max ops) (a * b).
Definition checked_neg (a : Z) : option Z := checked (op_min ops) (op_max ops) (- a).
Definition checked_div (a b : Z) : option Z :=
  if b =? 0 then None else checked (op_min ops) (op_max ops) (Z.quot a b).
(** The remainder overflows when the quotient does. *)
Definition checked_rem (a b : Z) : option Z :=
  if b =? 0 then None
  else if in_range (op_min ops) (op_max ops) (Z.quot a b) then Some (Z.rem a b) else None.

(** The loop of [checked_pow], by the binary digits of the exponent *)
Fixpoint pow_loop (base acc : Z) (exp : positive) : option Z :=
  match exp with
  | xH => checked_mul acc base
  | xO exp => base ← checked_mul base base; pow_loop base acc exp
  | xI exp =>
      acc ← checked_mul acc base; base ← checked_mul base base; pow_loop base acc exp
  end.

Definition checked_pow (base exp : Z) : option Z :=
  match exp with
  | Zpos exp => pow_loop base 1 exp
  | _ => Some 1
  end.

(** [leading_zeros] of a number of 128 bits *)
Definition leading_zeros (n : Z) : Z := if n =? 0 then 128 else 127 - Z.log2 n.

(** [Iterator::try_fold] *)
Fixpoint try_fold {A B} (f : B -> A -> option B) (acc : B) (l : list A) : option B :=
  match l with
  | [] => Some acc
  | x :: l => acc ← f acc x; try_fold f acc l
  end.

Definition op_xor (x y : Z) : VmR Value := Ok (make_value ops (Z.lxor x y)).
Definition op_bitwise_xor2 (args : list Z) : VmR Value := Ok (make_value ops (foldl Z.lxor 0 args)).
(** [args[0]]: panics when there is none *)
Definition op_bitwise_and (args : list Z) : VmR Value :=
  match args with
  | [] => Panic
  | first :: rest => Ok (make_value ops (foldl Z.land first rest))
  end.
Definition op_bitwise_or (args : list Z) : VmR Value := Ok (make_value ops (foldl Z.lor 0 args)).
Definition op_bitwise_not (x : Z) : VmR Value := Ok (make_value ops (wrapping (Z.lnot x))).

Definition op_add (args : list Z) : VmR Value :=
  result ← ok_or (try_fold checked_add 0 args) (vm_from_runtime RE_ArithmeticOverflow);
  Ok (make_value ops result).

Definition op_sub (args : list Z) : VmR Value :=
  match args with
  | [] => Err (RuntimeCheck (RC_IncorrectArgumentCount 1 0))
  | [first] =>
      result ← ok_or (checked_neg first) (vm_from_runtime RE_ArithmeticUnderflow);
      Ok (make_value ops result)
  | first :: rest =>
      result ← ok_or (try_fold checked_sub first rest) (vm_from_runtime RE_ArithmeticUnderflow);
      Ok (make_value ops result)
  end.

Definition op_mul (args : list Z) : VmR Value :=
  result ← ok_or (try_fold checked_mul 1 args) (vm_from_runtime RE_ArithmeticOverflow);
  Ok (make_value ops result).

Definition op_div (args : list Z) : VmR Value :=
  match args with
  | [] => Err (RuntimeCheck (RC_IncorrectArgumentCount 1 0))
  | first :: rest =>
      result ← ok_or (try_fold checked_div first rest) (vm_from_runtime RE_DivisionByZero);
      Ok (make_value ops result)
  end.

Definition op_modulo (numerator denominator : Z) : VmR Value :=
  result ← ok_or (checked_rem numerator denominator) (vm_from_runtime RE_DivisionByZero);
  Ok (make_value ops result).

Definition op_pow (base power : Z) : VmR Value :=
  if (base =? 0) && (power =? 0) then Ok (make_value ops 1)
  else if base =? 1 then Ok (make_value ops 1)
  else if base =? 0 then Ok (make_value ops 0)
  else if power =? 1 then Ok (make_value ops base)
  else if (power <? 0) || (power >? u32_max) then
    Err (vm_from_runtime (RE_Arithmetic "Power argument to (pow ...) must be a u32 integer"))
  else
    result ← ok_or (checked_pow base power) (vm_from_runtime RE_ArithmeticOverflow);
    Ok (make_value ops result).

Definition op_sqrti `{IntegerSquareRoot} (n : Z) : VmR Value :=
  match integer_sqrt_checked n with
  | Some result => Ok (make_value ops result)
  | None => Err (vm_from_runtime (RE_Arithmetic "sqrti must be passed a positive integer"))
  end.

Definition op_log2 (n : Z) : VmR Value :=
  if n <? 1 then Err (vm_from_runtime (RE_Arithmetic "log2 must be passed a positive integer"))
  else Ok (make_value ops (16 * 8 - 1 - leading_zeros n)).
End Ops.

(** ** Native functions *)

Section Natives.
Context `{Sha256} `{DebugText}.

Definition union_error (x : Value) : VmExecutionError :=
  RuntimeCheck (RC_UnionTypeValueError [IntType; UIntType] (to_error_string x)).

(** [type_force_binary_arithmetic!], [type_force_unary_arithmetic!],
    [type_force_variadic_arithmetic!] *)
Definition type_force_binary_arithmetic (function : IntOps -> Z -> Z -> VmR Value) (x y : Value)
    : VmR Value :=
  match x, y with
  | Int x, Int y => function I128Ops x y
  | UInt x, UInt y => function U128Ops x y
  | x, _ => Err (union_error x)
  end.

Definition type_force_unary_arithmetic (function : IntOps -> Z -> VmR Value) (x : Value)
    : VmR Value :=
  match x with
  | Int x => function I128Ops x
  | UInt x => function U128Ops x
  | x => Err (union_error x)
  end.

Definition type_value_error (expected : TypeSignature) (v : Value) : VmExecutionError :=
  RuntimeCheck (RC_TypeValueError expected (to_error_string v)).

Definition int_arg (x : Value) : VmR Z :=
  match x with Int value => Ok value | _ => Err (type_value_error IntType x) end.
Definition uint_arg (x : Value) : VmR Z :=
  match x with UInt value => Ok value | _ => Err (type_value_error UIntType x) end.

(** [collect] into a [Result]: the first error *)
Fixpoint collect_args (f : Value -> VmR Z) (args : list Value) : VmR (list Z) :=
  match args with
  | [] => Ok []
  | x :: args => z ← f x; l ← collect_args f args; Ok (z :: l)
  end.

Definition type_force_variadic_arithmetic (function : IntOps -> list Z -> VmR Value)
    (args : list Value) : VmR Value :=
  match args with
  | [] => Err (RuntimeCheck (RC_IncorrectArgumentCount 1 0))
  | first :: _ =>
      match first with
      | Int _ => checked_args ← collect_args int_arg args; function I128Ops checked_args
      | UInt _ => checked_args ← collect_args uint_arg args; function U128Ops checked_args
      | _ => Err (union_error first)
      end
  end.

Definition native_xor (a b : Value) : VmR Value := type_force_binary_arithmetic op_xor a b.
Definition native_bitwise_xor (args : list Value) : VmR Value :=
  type_force_variadic_arithmetic op_bitwise_xor2 args.
Definition native_bitwise_and (args : list Value) : VmR Value :=
  type_force_variadic_arithmetic op_bitwise_and args.
Definition native_bitwise_or (args : list Value) : VmR Value :=
  type_force_variadic_arithmetic op_bitwise_or args.
Definition native_bitwise_not (a : Value) : VmR Value :=
  type_force_unary_arithmetic op_bitwise_not a.
Definition native_add (args : list Value) : VmR Value := type_force_variadic_arithmetic op_add args.
Definition native_sub (args : list Value) : VmR Value := type_force_variadic_arithmetic op_sub args.
Definition native_mul (args : list Value) : VmR Value := type_force_variadic_arithmetic op_mul args.
Definition native_div (args : list Value) : VmR Value := type_force_variadic_arithmetic op_div args.
Definition native_pow (a b : Value) : VmR Value := type_force_binary_arithmetic op_pow a b.
Definition native_sqrti `{IntegerSquareRoot} (n : Value) : VmR Value :=
  type_force_unary_arithmetic (fun ops => op_sqrti ops) n.
Definition native_log2 (n : Value) : VmR Value := type_force_unary_arithmetic op_log2 n.
Definition native_mod (a b : Value) : VmR Value := type_force_binary_arithmetic op_modulo a b.

(** [TypeSignature::type_of(&input)?] in the message *)
Definition union_type_error (input : Value) : VmR Value :=
  t ← map_err vm_from_type (type_of input);
  Err (RuntimeCheck (RC_Unreachable (bounded_format ("Union type error " +:+ type_to_string t)))).

Definition native_bitwise_left_shift (input pos : Value) : VmR Value :=
  match pos with
  | UInt u128_val =>
      let shamt := Z.land u128_val 127 in
      match input with
      | Int input => Ok (Int (wrapping I128Ops (Z.shiftl input shamt)))
      | UInt input => Ok (UInt (wrapping U128Ops (Z.shiftl input shamt)))
      | _ => union_type_error input
      end
  | _ => Err (type_value_error UIntType pos)
  end.

Definition native_bitwise_right_shift (input pos : Value) : VmR Value :=
  match pos with
  | UInt u128_val =>
      let shamt := Z.land u128_val 127 in
      match input with
      | Int input => Ok (Int (Z.shiftr input shamt))
      | UInt input => Ok (UInt (Z.shiftr input shamt))
      | _ => union_type_error input
      end
  | _ => Err (type_value_error UIntType pos)
  end.

Definition native_to_uint (input : Value) : VmR Value :=
  match input with
  | Int int_val =>
      uint_val ← ok_or (checked 0 u128_max int_val) (vm_from_runtime RE_ArithmeticUnderflow);
      Ok (UInt uint_val)
  | _ => Err (type_value_error IntType input)
  end.

Definition native_to_int (input : Value) : VmR Value :=
  match input with
  | UInt uint_val =>
      int_val ← ok_or (checked i128_min i128_max uint_val) (vm_from_runtime RE_ArithmeticOverflow);
      Ok (Int int_val)
  | _ => Err (type_value_error UIntType input)
  end.

(** *** Comparisons *)

Inductive CompareOp := Greater | Less | Leq | Geq.

(** [make_comparison_ops!] *)
Definition compare_with {A} `{TotalOrd A} (op : CompareOp) (x y : A) : VmR Value :=
  Ok (Bool (match op, cmp x y with
            | Greater, Gt | Less, Lt | Leq, (Lt | Eq) | Geq, (Gt | Eq) => true
            | _, _ => false
            end)).

Definition type_force_binary_comparison_v1 (op : CompareOp) (x y : Value) : VmR Value :=
  match x, y with
  | Int x, Int y => compare_with op x y
  | UInt x, UInt y => compare_with op x y
  | _, _ => Err (union_error x)
  end.

Definition type_force_binary_comparison_v2 (op : CompareOp) (x y : Value) : VmR Value :=
  match x, y with
  | Int x, Int y => compare_with op x y
  | UInt x, UInt y => compare_with op x y
  | Sequence (String_ (CharASCII x)), Sequence (String_ (CharASCII y)) => compare_with op x y
  | Sequence (String_ (CharUTF8 x)), Sequence (String_ (CharUTF8 y)) => compare_with op x y
  | Sequence (Buffer x), Sequence (Buffer y) => compare_with op x y
  | _, _ =>
      Err (RuntimeCheck (RC_UnionTypeValueError
             [IntType; UIntType; STRING_ASCII_MAX; STRING_UTF8_MAX; BUFFER_MAX] (to_error_string x)))
  end.
End Natives.

(** ** Exponentiation *)

Definition in_ops (ops : IntOps) (z : Z) : Prop := op_min ops <= z <= op_max ops.
Definition out_of (ops : IntOps) (z : Z) : Prop := z < op_min ops \/ op_max ops < z.

(** The two integer types of Clarity *)
Definition clarity_ops (ops : IntOps) : Prop := ops = U128Ops \/ ops = I128Ops.

Lemma clarity_ops_bounds ops :
  clarity_ops ops ->
  op_max ops - op_min ops = 2 ^ 128 - 1 /\ op_min ops <= 0 /\ 2 ^ 127 <= op_max ops + 1 /\
  (op_min ops = 0 \/ op_max ops + 1 = 2 ^ 127).
Proof. by intros [-> | ->]; cbn; vm_compute; intuition congruence. Qed.

(** No integer squares to 2^127, the number of values on one side of 0. *)
Lemma square_not_pow b : b * b <> 2 ^ 127.
Proof.
  change (2 ^ 127) with 170141183460469231731687303715884105728.
  destruct (Z_le_gt_dec (Z.abs b) 13043817825332782212); nia.
Qed.

Lemma out_of_times ops z k : clarity_ops ops -> out_of ops z -> 1 <= k -> out_of ops (z * k).
Proof. intros Hops%clarity_ops_bounds Hz Hk. unfold out_of in *. nia. Qed.

Lemma square_out ops b acc n :
  clarity_ops ops -> in_ops ops b -> in_ops ops acc -> b <> 0 -> acc <> 0 ->
  out_of ops (b * b) -> 0 < n -> out_of ops (acc * (b * b) ^ n).
Proof.
  intros Hops%clarity_ops_bounds Hb Hacc Hb0 Hacc0 Hout Hn.
  pose proof (square_not_pow b). unfold in_ops, out_of in *.
  assert (b * b <= (b * b) ^ n).
  { rewrite <- (Z.pow_1_r (b * b)) at 1. apply Z.pow_le_mono_r; nia. }
  set (p := (b * b) ^ n) in *. assert (2 ^ 127 < p \/ op_min ops = 0 /\ op_max ops < p) as Hp by lia.
  destruct Hp as [Hp | Hp]; nia.
Qed.

Lemma pow_loop_spec ops exp : clarity_ops ops -> forall base acc,
  in_ops ops base -> in_ops ops acc -> base <> 0 -> acc <> 0 ->
  pow_loop ops base acc exp = checked (op_min ops) (op_max ops) (acc * base ^ Zpos exp).
Proof.
  intros Hops. induction exp as [exp IH | exp IH |]; intros base acc Hb Ha Hb0 Ha0; cbn [pow_loop];
    unfold checked_mul.
  - assert (acc * base ^ Zpos exp~1 = acc * base * (base * base) ^ Zpos exp) as ->.
    { rewrite Pos2Z.inj_xI, Z.pow_add_r, Z.pow_mul_r, Z.pow_2_r, Z.pow_1_r by lia. lia. }
    destruct (checked _ _ (acc * base)) as [acc' |] eqn:E1; cbn.
    + apply checked_Some in E1 as [-> Ha'].
      destruct (checked _ _ (base * base)) as [base' |] eqn:E2; cbn.
      * apply checked_Some in E2 as [-> Hb']. apply IH; [done | done | nia | nia].
      * apply checked_None in E2. symmetry. apply checked_None.
        apply (square_out ops base (acc * base)); [done .. | nia | done | lia].
    + apply checked_None in E1. symmetry. apply checked_None. apply out_of_times; [done | done |].
      assert (0 < (base * base) ^ Zpos exp) by (apply Z.pow_pos_nonneg; nia). lia.
  - assert (acc * base ^ Zpos exp~0 = acc * (base * base) ^ Zpos exp) as ->.
    { rewrite Pos2Z.inj_xO, Z.pow_mul_r, Z.pow_2_r by lia. lia. }
    destruct (checked _ _ (base * base)) as [base' |] eqn:E2; cbn.
    + apply checked_Some in E2 as [-> Hb']. apply IH; [done | done | nia | done].
    + apply checked_None in E2. symmetry. apply checked_None. by apply (square_out ops base acc).
  - by rewrite Z.pow_1_r.
Qed.

Lemma checked_pow_spec ops base exp :
  clarity_ops ops -> in_ops ops base -> base <> 0 -> 0 <= exp ->
  checked_pow ops base exp = checked (op_min ops) (op_max ops) (base ^ exp).
Proof.
  intros Hops Hb Hb0 He. pose proof (clarity_ops_bounds ops Hops) as Hbd.
  destruct exp as [| exp | exp]; [| | lia].
  - cbn. symmetry. apply checked_Some. lia.
  - cbn [checked_pow]. rewrite pow_loop_spec, Z.mul_1_l; [done | done | done | unfold in_ops; lia | done | lia].
Qed.

(** ** What the native functions compute *)

(** The mathematical result when the type has it, otherwise the error *)
Definition exact (ops : IntOps) (z : Z) (err : RuntimeError) : VmR Value :=
  if in_range (op_min ops) (op_max ops) z then Ok (make_value ops z) else Err (vm_from_runtime err).

Lemma exact_checked ops z err :
  (result ← ok_or (checked (op_min ops) (op_max ops) z) (vm_from_runtime err);
   Ok (make_value ops result)) = exact ops z err.
Proof. unfold exact, checked. by destruct (in_range _ _ z). Qed.

Lemma exact_Ok ops z err : in_ops ops z -> exact ops z err = Ok (make_value ops z).
Proof. intros Hz. unfold exact. by rewrite (proj2 (in_range_spec _ _ _)). Qed.

Section Exact.
Context `{Sha256} `{DebugText} (ops : IntOps) (Hops : clarity_ops ops).

Lemma binary_run f x y :
  type_force_binary_arithmetic f (make_value ops x) (make_value ops y) = f ops x y.
Proof. by destruct Hops as [-> | ->]. Qed.

Lemma unary_run f x : type_force_unary_arithmetic f (make_value ops x) = f ops x.
Proof. by destruct Hops as [-> | ->]. Qed.

Lemma variadic_run f x l :
  type_force_variadic_arithmetic f (make_value ops <$> x :: l) = f ops (x :: l).
Proof.
  assert (forall k, collect_args int_arg (Int <$> k) = Ok k) as Hi
    by (induction k as [| a k IH]; [done | cbn; by rewrite IH]).
  assert (forall k, collect_args uint_arg (UInt <$> k) = Ok k) as Hu
    by (induction k as [| a k IH]; [done | cbn; by rewrite IH]).
  specialize (Hi (x :: l)). specialize (Hu (x :: l)). unfold type_force_variadic_arithmetic.
  destruct Hops as [-> | ->]; cbn [fmap list_fmap make_value U128Ops I128Ops] in *.
  - by rewrite Hu.
  - by rewrite Hi.
Qed.

Lemma pow_run x y :
  in_ops ops x -> 0 <= y <= u32_max -> op_pow ops x y = exact ops (x ^ y) RE_ArithmeticOverflow.
Proof.
  intros Hx Hy. pose proof (clarity_ops_bounds ops Hops) as Hb. unfold op_pow.
  destruct (Z.eqb_spec x 0) as [-> |]; cbn [andb].
  - destruct (Z.eqb_spec y 0) as [-> |]; cbn [Z.eqb];
      [| rewrite Z.pow_0_l by lia]; symmetry; apply exact_Ok; unfold in_ops; lia.
  - destruct (Z.eqb_spec x 1) as [-> |].
    { rewrite Z.pow_1_l by lia. symmetry. apply exact_Ok. unfold in_ops. lia. }
    destruct (Z.eqb_spec y 1) as [-> |]; [rewrite Z.pow_1_r; symmetry; by apply exact_Ok |].
    destruct (Z.ltb_spec y 0); [lia |]. destruct (Z.gtb_spec y u32_max); [lia |]. cbn [orb].
    rewrite checked_pow_spec by (done || lia). apply exact_checked.
Qed.

Lemma try_fold_sum acc l :
  ops = U128Ops -> in_ops ops acc -> Forall (in_ops ops) l ->
  try_fold (checked_add ops) acc l = checked (op_min ops) (op_max ops) (acc + foldr Z.add 0 l).
Proof.
  intros -> Hacc Hl. revert acc Hacc. induction Hl as [| x l Hx Hl IH]; intros acc Hacc; cbn [try_fold foldr].
  - symmetry. apply checked_Some. unfold in_ops in *. lia.
  - assert (0 <= foldr Z.add 0 l) by (clear -Hl; induction Hl; unfold in_ops in *; cbn in *; lia).
    unfold checked_add. unfold in_ops in *. cbn [op_min op_max U128Ops] in *.
    destruct (checked 0 u128_max (acc + x)) as [a |] eqn:E; cbn.
    + apply checked_Some in E as [-> ?]. rewrite IH by done. f_equal. lia.
    + apply checked_None in E. symmetry. apply checked_None. lia.
Qed.
End Exact.


(** Division overflows only at the least [int] divided by minus one, and is
    then reported as a division by zero; so is the remainder, which is zero. *)
Lemma least_int_divided `{Sha256} `{DebugText} :
  native_div [Int i128_min; Int (-1)] = Err (vm_from_runtime RE_DivisionByZero) /\
  native_mod (Int i128_min) (Int (-1)) = Err (vm_from_runtime RE_DivisionByZero) /\
  Z.rem i128_min (-1) = 0.
Proof. done. Qed.

(** ** Results have their type *)

(** An integer value within its type *)
Definition in_type (v : Value) : Prop :=
  match v with Int z => is_i128 z | UInt z => is_u128 z | Bool _ => True | _ => False end.

Lemma in_type_make ops z : clarity_ops ops -> in_type (make_value ops z) <-> in_ops ops z.
Proof. by intros [-> | ->]. Qed.

Lemma wrapping_in ops z : clarity_ops ops -> in_ops ops (wrapping ops z).
Proof.
  intros Hops%clarity_ops_bounds. unfold in_ops, wrapping.
  pose proof (Z.mod_pos_bound (z - op_min ops) (2 ^ 128)). lia.
Qed.

(** A number is in range when the bits above the type's are all zero or, for
    [int], all one. *)
Lemma in_ops_shift ops z :
  clarity_ops ops ->
  in_ops ops z <-> (ops = U128Ops /\ Z.shiftr z 128 = 0) \/
                   (ops = I128Ops /\ (Z.shiftr z 127 = 0 \/ Z.shiftr z 127 = -1)).
Proof.
  intros Hops. rewrite !Z.shiftr_div_pow2 by lia.
  pose proof (Z.div_mod z (2 ^ 128)). pose proof (Z.mod_pos_bound z (2 ^ 128)).
  pose proof (Z.div_mod z (2 ^ 127)). pose proof (Z.mod_pos_bound z (2 ^ 127)).
  unfold in_ops. destruct Hops as [-> | ->]; cbn [op_min op_max U128Ops I128Ops];
    unfold u128_max, i128_max, i128_min; (split; [intros Hz | intros [[[=] Hz] | [[=] Hz]]]); try lia.
  - left. split; [done |]. nia.
  - right. split; [done |]. nia.
Qed.

Lemma bitwise_in ops x y :
  clarity_ops ops -> in_ops ops x -> in_ops ops y ->
  in_ops ops (Z.lxor x y) /\ in_ops ops (Z.land x y) /\ in_ops ops (Z.lor x y).
Proof.
  intros Hops. rewrite !in_ops_shift, !Z.shiftr_lxor, !Z.shiftr_land, !Z.shiftr_lor by done.
  intros [[-> Ex] | [-> Ex]] [[Hy Ey] | [Hy Ey]]; try discriminate Hy.
  - rewrite Ex, Ey. by split_and!; left.
  - split_and!; right; (split; [done |]);
      destruct Ex as [-> | ->], Ey as [-> | ->]; cbn; tauto.
Qed.

Lemma foldl_in ops (f : Z -> Z -> Z) x l :
  (forall a b, in_ops ops a -> in_ops ops b -> in_ops ops (f a b)) ->
  in_ops ops x -> Forall (in_ops ops) l -> in_ops ops (foldl f x l).
Proof. intros Hf Hx Hl. revert x Hx. induction Hl; cbn; auto. Qed.

Lemma try_fold_in ops (f : Z -> Z -> option Z) x l r :
  (forall a b c, in_ops ops a -> f a b = Some c -> in_ops ops c) ->
  in_ops ops x -> try_fold f x l = Some r -> in_ops ops r.
Proof.
  intros Hf. revert x. induction l as [| y l IH]; intros x Hx; cbn; [by intros [= <-] |].
  intros (c & Hc & Hr)%bind_Some. eapply IH; [by eapply Hf | done].
Qed.

Lemma shiftr_in ops x k : clarity_ops ops -> in_ops ops x -> 0 <= k -> in_ops ops (Z.shiftr x k).
Proof.
  intros Hops%clarity_ops_bounds Hx Hk. unfold in_ops in *. rewrite Z.shiftr_div_pow2 by done.
  pose proof (Z.pow_pos_nonneg 2 k ltac:(lia) Hk). pose proof (Z.div_mod x (2 ^ k)).
  pose proof (Z.mod_pos_bound x (2 ^ k)). nia.
Qed.

Section Closed.
Context `{Sha256} `{DebugText}.

(** The functions of the arguments' type that the natives dispatch to *)
Definition keeps_type {A} (ok : A -> IntOps -> Prop) (f : IntOps -> A -> VmR Value) : Prop :=
  forall ops a v, clarity_ops ops -> ok a ops -> f ops a = Ok v -> in_type v.

Lemma collect_ok f g args l :
  (forall x z, f x = Ok z -> x = g z) -> collect_args f args = Ok l -> args = g <$> l.
Proof.
  intros Hf. revert l. induction args as [| x args IH]; intros l; cbn; [by intros [= <-] |].
  intros (z & Hz & (k & Hk & [= <-])%result_bind_Ok)%result_bind_Ok.
  rewrite (Hf x z Hz), (IH k Hk). done.
Qed.

Lemma variadic_keeps f args v :
  keeps_type (fun l ops => Forall (in_ops ops) l) f -> Forall in_type args ->
  type_force_variadic_arithmetic f args = Ok v -> in_type v.
Proof.
  intros Hf Hargs. unfold type_force_variadic_arithmetic.
  assert (forall ops g l, clarity_ops ops -> g = make_value ops -> args = g <$> l -> f ops l = Ok v -> in_type v) as Hrun.
  { intros ops g l Hops -> -> Hr. eapply Hf; [exact Hops | | exact Hr]. rewrite Forall_fmap in Hargs.
    eapply Forall_impl; [exact Hargs |]. intros z Hz. by apply (in_type_make ops z Hops). }
  destruct args as [| first rest]; [done |].
  destruct first; try done; intros (l & Hl & Hr)%result_bind_Ok.
  - eapply (Hrun I128Ops Int l); [by right | done | | done]. eapply collect_ok; [| exact Hl].
    intros [] z [= ->]; done.
  - eapply (Hrun U128Ops UInt l); [by left | done | | done]. eapply collect_ok; [| exact Hl].
    intros [] z [= ->]; done.
Qed.

Lemma binary_keeps f a b v :
  (forall ops x y w, clarity_ops ops -> in_ops ops x -> in_ops ops y -> f ops x y = Ok w -> in_type w) ->
  in_type a -> in_type b -> type_force_binary_arithmetic f a b = Ok v -> in_type v.
Proof.
  intros Hf Ha Hb. destruct a, b; try done; cbn in *; apply Hf; first [by left | by right | assumption].
Qed.

Lemma unary_keeps f a v :
  (forall ops x w, clarity_ops ops -> in_ops ops x -> f ops x = Ok w -> in_type w) ->
  in_type a -> type_force_unary_arithmetic f a = Ok v -> in_type v.
Proof. intros Hf Ha. destruct a; try done; cbn in *; apply Hf; first [by left | by right | assumption]. Qed.

Ltac keep_checked :=
  match goal with
  | Hr : (result ← ok_or ?o _; _) = Ok _ |- _ =>
      let E := fresh "E" in destruct o eqn:E; cbn in Hr; [injection Hr as <- | discriminate Hr]
  end.

Lemma checked_in ops z r : checked (op_min ops) (op_max ops) z = Some r -> in_ops ops r.
Proof. by intros [-> ?]%checked_Some. Qed.

Lemma quot_in ops x y r : checked_div ops x y = Some r -> in_ops ops r.
Proof. unfold checked_div. destruct (y =? 0); [done |]. apply checked_in. Qed.

Lemma rem_in ops x y :
  clarity_ops ops -> in_ops ops x -> y <> 0 -> in_ops ops (Z.rem x y).
Proof.
  intros Hops%clarity_ops_bounds Hx Hy. unfold in_ops in *.
  destruct (Z_le_gt_dec 0 x).
  - pose proof (Z.rem_nonneg x y). pose proof (Z.rem_le x (Z.abs y)).
    rewrite Z.rem_abs_r in * by done. lia.
  - pose proof (Z.rem_nonpos x y).
    pose proof (Z.rem_le (- x) (Z.abs y)). rewrite Z.rem_abs_r, Z.rem_opp_l in * by lia. lia.
Qed.

Lemma zero_one_in ops : clarity_ops ops -> in_ops ops 0 /\ in_ops ops 1.
Proof. intros Hops%clarity_ops_bounds. unfold in_ops. lia. Qed.

Lemma variadic_in_type args v :
  Forall in_type args ->
  native_add args = Ok v \/ native_sub args = Ok v \/ native_mul args = Ok v \/
  native_div args = Ok v \/ native_bitwise_xor args = Ok v \/
  native_bitwise_and args = Ok v \/ native_bitwise_or args = Ok v -> in_type v.
Proof.
  intros Hargs [E | [E | [E | [E | [E | [E | E]]]]]]; revert E; apply variadic_keeps; try done;
    intros ops l w Hops Hl Hr; destruct (zero_one_in ops Hops).
  - unfold op_add in Hr. keep_checked. apply in_type_make; [done |].
    eapply try_fold_in; [| | exact E]; [by intros a b c _ ?%checked_in | done].
  - unfold op_sub in Hr. destruct l as [| x [| y l]]; [done | |]; keep_checked;
      (apply in_type_make; [done |]); [by eapply checked_in |].
    apply Forall_cons in Hl as [Hx _]. eapply try_fold_in; [| exact Hx | exact E].
    by intros a b c _ ?%checked_in.
  - unfold op_mul in Hr. keep_checked. apply in_type_make; [done |].
    eapply try_fold_in; [| | exact E]; [by intros a b c _ ?%checked_in | done].
  - unfold op_div in Hr. destruct l as [| x l]; [done |]. keep_checked. apply in_type_make; [done |].
    apply Forall_cons in Hl as [Hx _]. eapply try_fold_in; [| exact Hx | exact E].
    by intros a b c _ ?%quot_in.
  - injection Hr as <-. apply in_type_make; [done |]. apply foldl_in; [| done | done]. intros; by apply bitwise_in.
  - destruct l as [| x l]; [done |]. injection Hr as <-. apply in_type_make; [done |].
    apply Forall_cons in Hl as [Hx Hl]. apply foldl_in; [| done | done]. intros; by apply bitwise_in.
  - injection Hr as <-. apply in_type_make; [done |]. apply foldl_in; [| done | done]. intros; by apply bitwise_in.
Qed.

Lemma binary_in_type a b v :
  in_type a -> in_type b ->
  native_mod a b = Ok v \/ native_pow a b = Ok v \/ native_xor a b = Ok v \/
  native_bitwise_left_shift a b = Ok v \/ native_bitwise_right_shift a b = Ok v -> in_type v.
Proof.
  intros Ha Hb [E | [E | [E | [E | E]]]].
  - revert E. apply binary_keeps; try done. intros ops x y w Hops Hx Hy Hr. unfold op_modulo in Hr.
    keep_checked. apply in_type_make; [done |]. unfold checked_rem in E.
    destruct (Z.eqb_spec y 0); [done |]. destruct (in_range _ _ _); [injection E as <- | done]. by apply rem_in.
  - revert E. apply binary_keeps; try done. intros ops x y w Hops Hx Hy Hr. destruct (zero_one_in ops Hops).
    destruct (decide (0 <= y <= u32_max)).
    + rewrite pow_run in Hr by done. unfold exact in Hr. destruct (in_range _ _ _) eqn:Er; [| done].
      injection Hr as <-. apply in_type_make; [done |]. by apply in_range_spec in Er.
    + unfold op_pow in Hr. destruct (x =? 0); cbn [andb] in Hr.
      { destruct (y =? 0), (x =? 1); injection Hr as <-; by apply in_type_make. }
      destruct (x =? 1); [injection Hr as <-; by apply in_type_make |].
      destruct (y =? 1); [injection Hr as <-; by apply in_type_make |].
      destruct (Z.ltb_spec y 0), (Z.gtb_spec y u32_max); try done. lia.
  - revert E. apply binary_keeps; try done. intros ops x y w Hops Hx Hy [= <-].
    apply in_type_make; [done |]. by apply bitwise_in.
  - unfold native_bitwise_left_shift in E. destruct b; try done. destruct a; try done; injection E as <-.
    + apply (in_type_make I128Ops); [by right |]. apply wrapping_in. by right.
    + apply (in_type_make U128Ops); [by left |]. apply wrapping_in. by left.
  - unfold native_bitwise_right_shift in E. destruct b as [| z | | | | | | |]; try done.
    assert (0 <= Z.land z 127) by (apply Z.land_nonneg; right; lia).
    destruct a; try done; injection E as <-.
    + apply (in_type_make I128Ops); [by right |]. by apply shiftr_in; [right | | done].
    + apply (in_type_make U128Ops); [by left |]. by apply shiftr_in; [left | | done].
Qed.

Lemma unary_in_type `{IntegerSquareRoot} a v :
  in_type a ->
  native_sqrti a = Ok v \/ native_log2 a = Ok v \/ native_bitwise_not a = Ok v \/
  native_to_int a = Ok v \/ native_to_uint a = Ok v -> in_type v.
Proof.
  intros Ha [E | [E | [E | [E | E]]]].
  - revert E. apply unary_keeps; [| done]. intros ops x w Hops Hx. unfold op_sqrti.
    destruct (integer_sqrt_checked x) as [r |] eqn:Er; [| done]. intros [= <-].
    apply in_type_make; [done |]. apply integer_sqrt_spec in Er.
    apply clarity_ops_bounds in Hops. unfold in_ops in *. nia.
  - revert E. apply unary_keeps; [| done]. intros ops x w Hops Hx. unfold op_log2, leading_zeros.
    destruct (Z.ltb_spec x 1); [done |]. destruct (Z.eqb_spec x 0); [lia |]. intros [= <-].
    apply in_type_make; [done |]. pose proof (Z.log2_nonneg x). pose proof (Z.log2_le_lin x ltac:(lia)).
    apply clarity_ops_bounds in Hops. unfold in_ops in *. lia.
  - revert E. apply unary_keeps; [| done]. intros ops x w Hops Hx [= <-].
    apply in_type_make; [done |]. by apply wrapping_in.
  - unfold native_to_int in E. destruct a; try done. keep_checked. apply (checked_in I128Ops _ _ E0).
  - unfold native_to_uint in E. destruct a; try done. keep_checked. apply (checked_in U128Ops _ _ E0).
Qed.

(** Integer results have their type: whatever integers the arithmetic,
    bitwise, shift and conversion functions are given, a result is an integer
    within the bounds of its type. *)
Theorem arithmetic_results_in_type `{IntegerSquareRoot} v :
  (forall args, Forall in_type args ->
     native_add args = Ok v \/ native_sub args = Ok v \/ native_mul args = Ok v \/
     native_div args = Ok v \/ native_bitwise_xor args = Ok v \/
     native_bitwise_and args = Ok v \/ native_bitwise_or args = Ok v -> in_type v) /\
  (forall a b, in_type a -> in_type b ->
     native_mod a b = Ok v \/ native_pow a b = Ok v \/ native_xor a b = Ok v \/
     native_bitwise_left_shift a b = Ok v \/ native_bitwise_right_shift a b = Ok v -> in_type v) /\
  (forall a, in_type a ->
     native_sqrti a = Ok v \/ native_log2 a = Ok v \/ native_bitwise_not a = Ok v \/
     native_to_int a = Ok v \/ native_to_uint a = Ok v -> in_type v).
Proof.
  split_and!.
  - intros args Ha. by apply variadic_in_type.
  - intros a b Ha Hb. by apply binary_in_type.
  - intros a Ha. by apply unary_in_type.
Qed.
End Closed.

#[export] Program Instance Z_square_root : IntegerSquareRoot := {
  integer_sqrt_checked n := if n <? 0 then None else Some (Z.sqrt n);
}.
Next Obligation.
  intros n r. cbv beta. destruct (Z.ltb_spec n 0) as [Hn | Hn]; [naive_solver lia |].
  pose proof (Z.sqrt_nonneg n). split.
  - intros [= <-]. pose proof (Z.sqrt_spec n Hn) as Hs. cbv zeta in Hs. rewrite <- !Z.add_1_r in Hs. done.
  - intros (_ & Hr & Hs). f_equal. apply Z.sqrt_unique. by rewrite <- !Z.add_1_r.
Qed.


Lemma arithmetic_results_in_type_witness : in_type (UInt 5).
Proof.
  destruct (@arithmetic_results_in_type zero_sha256 plain_text _ (UInt 5)) as [Hadd _].
  apply (Hadd [UInt 2; UInt 3]); [by repeat constructor; vm_compute | by left].
Defined.
