(* ===== verification/Natives.v ===== *)
(** * Native functions on values

    The functions of [clarity/src/vm/functions] that the interpreter calls with
    their arguments evaluated: on booleans and options ([boolean.rs],
    [options.rs]), tuples and sequences ([tuples.rs], [sequences.rs]) and the
    conversions between integers, strings and buffers ([conversions.rs]); also
    [native_begin] and [native_eq] of [mod.rs]. The arithmetic is in
    Arithmetic. *)

From S2P Require Import Prelude.
From S2P Require Import Bytes.
From S2P Require Import BoundedString.
From S2P Require Import BTree.
From S2P Require Import Epochs.
From S2P Require Import Values.
From S2P Require Import Types.
From S2P Require Import C32.
From S2P Require Import BitcoinTx.
From S2P Require Import Serialization.
From S2P Require Import VmErrors.
From S2P Require Import TypedValues.
From S2P Require Import Expressions.
From S2P Require Import Deserialization.
From S2P Require Import Arithmetic.

Section Natives.
Context `{Sha256} `{DebugText}.

Abbreviation VmR := (result VmExecutionError).

Definition unreachable_format (msg : string) : VmExecutionError :=
  RuntimeCheck (RC_Unreachable (bounded_format msg)).

(** [bounded_format!("..{}", TypeSignature::type_of(v)?)] in an error *)
Definition unexpected_type {A} (msg : string) (v : Value) : VmR A :=
  t ← map_err vm_from_type (type_of v);
  Err (unreachable_format (msg +:+ type_to_string t)).

Definition expected_sequence {A} (v : Value) : VmR A := unexpected_type "Expected sequence: " v.
Definition expected_tuple {A} (v : Value) : VmR A := unexpected_type "Expected tuple: " v.

(** ** [boolean.rs] *)

Definition type_force_bool (value : Value) : VmR bool :=
  match value with Bool b => Ok b | _ => Err (type_value_error BoolType value) end.

Definition native_not (input : Value) : VmR Value :=
  value ← type_force_bool input; Ok (Bool (negb value)).

(** ** [options.rs] *)

Definition expected_wrapper {A} (v : Value) : VmR A :=
  Err (unreachable_format ("Expected optional or response value: " +:+ value_to_string v)).
Definition expected_response {A} (v : Value) : VmR A :=
  Err (unreachable_format ("Expected response value: " +:+ value_to_string v)).
Definition expected_option {A} (v : Value) : VmR A :=
  Err (unreachable_format ("Expected option value: " +:+ value_to_string v)).

Definition inner_unwrap (to_unwrap : Value) : VmR (option Value) :=
  match to_unwrap with
  | Optional data => Ok data
  | Response committed data => Ok (if committed then Some data else None)
  | _ => expected_wrapper to_unwrap
  end.

Definition inner_unwrap_err (to_unwrap : Value) : VmR (option Value) :=
  match to_unwrap with
  | Response committed data => Ok (if committed then None else Some data)
  | _ => expected_response to_unwrap
  end.

(** [and_then] on what was inside *)
Definition or_fail (opt_value : VmR (option Value)) (e : VmExecutionError) : VmR Value :=
  o ← opt_value; ok_or o e.

Definition native_unwrap (input : Value) : VmR Value :=
  or_fail (inner_unwrap input) (vm_from_runtime RE_UnwrapFailure).
Definition native_unwrap_or_ret (input thrown : Value) : VmR Value :=
  or_fail (inner_unwrap input) (EarlyReturn (UnwrapFailed thrown)).
Definition native_unwrap_err (input : Value) : VmR Value :=
  or_fail (inner_unwrap_err input) (vm_from_runtime RE_UnwrapFailure).
Definition native_unwrap_err_or_ret (input thrown : Value) : VmR Value :=
  or_fail (inner_unwrap_err input) (EarlyReturn (UnwrapFailed thrown)).

Definition native_try_ret (input : Value) : VmR Value :=
  match input with
  | Optional (Some data) => Ok data
  | Optional None => Err (EarlyReturn (UnwrapFailed value_none))
  | Response true data => Ok data
  | Response false data =>
      short_return_val ←
        map_err (fun _ => Internal (VI_Expect
          "BUG: Failed to construct new response type from old response type")) (value_error data);
      Err (EarlyReturn (UnwrapFailed short_return_val))
  | _ => expected_wrapper input
  end.

Definition is_some (input : Value) : VmR bool :=
  match input with
  | Optional data => Ok (bool_decide (is_Some data))
  | _ => expected_option input
  end.

Definition is_okay (input : Value) : VmR bool :=
  match input with Response committed _ => Ok committed | _ => expected_response input end.

Definition native_some (input : Value) : VmR Value := map_err vm_from_type (value_some input).
Definition native_okay (input : Value) : VmR Value := map_err vm_from_type (value_okay input).
Definition native_error (input : Value) : VmR Value := map_err vm_from_type (value_error input).
Definition native_is_some (input : Value) : VmR Value := b ← is_some input; Ok (Bool b).
Definition native_is_none (input : Value) : VmR Value := b ← is_some input; Ok (Bool (negb b)).
Definition native_is_okay (input : Value) : VmR Value := b ← is_okay input; Ok (Bool b).
Definition native_is_err (input : Value) : VmR Value := b ← is_okay input; Ok (Bool (negb b)).

Definition native_default_to (default input : Value) : VmR Value :=
  match input with
  | Optional (Some data) => Ok data
  | Optional None => Ok default
  | _ => expected_option input
  end.

(** ** [mod.rs] *)

Fixpoint eq_args (epoch : StacksEpochId) (first : Value) (arg_type : TypeSignature) (args : list Value)
    : VmR Value :=
  match args with
  | [] => Ok (Bool true)
  | x :: args =>
      t ← map_err vm_from_type (type_of x);
      arg_type ← map_err vm_from_type (least_supertype epoch t arg_type);
      if value_eqb x first then eq_args epoch first arg_type args else Ok (Bool false)
  end.

Definition eq_values (epoch : StacksEpochId) (args : list Value) : VmR Value :=
  match args with
  | first :: _ :: _ =>
      arg_type ← map_err vm_from_type (type_of first);
      eq_args epoch first arg_type args
  | _ => Ok (Bool true)
  end.

(** [args.pop()] *)
Definition native_begin (args : list Value) : VmR Value :=
  ok_or (last args) (RuntimeCheck (RC_Unreachable "Requires at least args: 1 got 0")).

(** The types [BUFFER_1], [BUFFER_20], ... *)
Definition BUFFER (n : Z) : TypeSignature := SequenceType (BufferType n).

Definition buff_to_array (n : nat) (value : Value) : option (list Z) :=
  match value with
  | Sequence (Buffer data) => if (length data =? n)%nat then Some data else None
  | _ => None
  end.

Definition buff_to_vec (value : Value) (max_size : Z) : option (list Z) :=
  match value with
  | Sequence (Buffer data) => if zlen data <=? max_size then Some data else None
  | _ => None
  end.

(** The coercions with their error *)
Definition expect_array (n : nat) (value : Value) : VmR (list Z) :=
  ok_or (buff_to_array n value) (type_value_error (BUFFER (Z.of_nat n)) value).
Definition expect_uint (value : Value) : VmR Z :=
  match value with UInt v => Ok v | _ => Err (type_value_error UIntType value) end.

(** ** [tuples.rs] *)

Definition tuple_arg (v : Value) : VmR TupleData :=
  match v with Tuple t => Ok t | _ => expected_tuple v end.

Definition tuple_merge (base update : Value) : VmR Value :=
  initial_values ← tuple_arg base;
  new_values ← tuple_arg update;
  combined ← map_err vm_from_type (tuple_shallow_merge initial_values new_values);
  Ok (Tuple combined).

(** ** [sequences.rs] *)

Definition native_len (sequence : Value) : VmR Value :=
  match sequence with
  | Sequence s => Ok (UInt (seq_len s))
  | _ => expected_sequence sequence
  end.

Definition native_index_of (sequence to_find : Value) : VmR Value :=
  match sequence with
  | Sequence s =>
      o ← map_err vm_from_type (contains s to_find);
      match o with
      | Some index => map_err vm_from_type (value_some (UInt index))
      | None => Ok value_none
      end
  | _ => expected_sequence sequence
  end.

(** [usize::try_from] of a [u128] *)
Definition usize_index (i : Z) : option Z := checked 0 u64_max i.

Definition native_element_at (sequence index : Value) : VmR Value :=
  match sequence with
  | Sequence s =>
      match index with
      | UInt index_u128 =>
          match usize_index index_u128 with
          | Some i =>
              o ← map_err (fun _ => Internal (VI_Expect "Sequence data constructed with invalid data."))
                    (element_at s i);
              match o with
              | Some result => map_err vm_from_type (value_some result)
              | None => Ok value_none
              end
          | None => Ok value_none
          end
      | _ => Err (type_value_error UIntType index)
      end
  | _ => expected_sequence sequence
  end.

(** ** [conversions.rs] *)

Inductive EndianDirection := LittleEndian | BigEndian.

(** The buffer is padded to sixteen bytes on the side of its high bytes. *)
Definition buff_to_int_generic (value : Value) (direction : EndianDirection)
    (conversion_fn : list Z -> Value) : VmR Value :=
  match value with
  | Sequence (Buffer data) =>
      len ← map_err (fun _ => Internal (VI_Expect "Data length should be valid"))
              (buffer_length (length data));
      if 16 <? len then Err (type_value_error (BUFFER 16) value)
      else
        let zeros := repeat 0 (16 - length data) in
        Ok (conversion_fn
              (match direction with LittleEndian => data ++ zeros | BigEndian => zeros ++ data end))
  | _ => Err (type_value_error (BUFFER 16) value)
  end.

(** [i128::from_be_bytes] and the like *)
Definition i128_from (u : Z) : Z := if u <=? i128_max then u else u - 2 ^ 128.

Definition native_buff_to_int_le (value : Value) : VmR Value :=
  buff_to_int_generic value LittleEndian (fun buffer => Int (i128_from (from_le_bytes buffer))).
Definition native_buff_to_uint_le (value : Value) : VmR Value :=
  buff_to_int_generic value LittleEndian (fun buffer => UInt (from_le_bytes buffer)).
Definition native_buff_to_int_be (value : Value) : VmR Value :=
  buff_to_int_generic value BigEndian (fun buffer => Int (i128_from (from_be_bytes buffer))).
Definition native_buff_to_uint_be (value : Value) : VmR Value :=
  buff_to_int_generic value BigEndian (fun buffer => UInt (from_be_bytes buffer)).

(** [str::parse] to an integer: a sign, then digits *)
Fixpoint parse_digits (acc : Z) (bytes : list Z) : option Z :=
  match bytes with
  | [] => Some acc
  | b :: bytes => if in_range 48 57 b then parse_digits (acc * 10 + (b - 48)) bytes else None
  end.

Definition parse_nat (bytes : list Z) : option Z :=
  match bytes with [] => None | _ => parse_digits 0 bytes end.

Definition parse_i128 (bytes : list Z) : option Z :=
  z ← match bytes with
      | 45 :: digits => z ← parse_nat digits; Some (- z)
      | 43 :: digits => parse_nat digits
      | _ => parse_nat bytes
      end;
  checked i128_min i128_max z.

Definition parse_u128 (bytes : list Z) : option Z :=
  z ← match bytes with 43 :: digits => parse_nat digits | _ => parse_nat bytes end;
  checked 0 u128_max z.

Definition native_string_to_int_generic (value : Value) (string_to_value_fn : list Z -> VmR Value)
    : VmR Value :=
  let from_utf8 bytes :=
    match utf8_chars bytes with Some _ => string_to_value_fn bytes | None => Ok value_none end in
  match value with
  | Sequence (String_ (CharASCII data)) => from_utf8 data
  | Sequence (String_ (CharUTF8 data)) => from_utf8 (mjoin data)
  | _ =>
      Err (RuntimeCheck (RC_UnionTypeValueError [STRING_ASCII_MAX; STRING_UTF8_MAX]
                           (to_error_string value)))
  end.

Definition some_checked (v : Value) : VmR Value :=
  map_err (fun e => RuntimeCheck (runtime_check_from_type e)) (value_some v).

Definition safe_convert_string_to_int (bytes : list Z) : VmR Value :=
  match parse_i128 bytes with Some val => some_checked (Int val) | None => Ok value_none end.
Definition safe_convert_string_to_uint (bytes : list Z) : VmR Value :=
  match parse_u128 bytes with Some val => some_checked (UInt val) | None => Ok value_none end.

Definition native_string_to_int (value : Value) : VmR Value :=
  native_string_to_int_generic value safe_convert_string_to_int.
Definition native_string_to_uint (value : Value) : VmR Value :=
  native_string_to_int_generic value safe_convert_string_to_uint.

Definition native_int_to_string_generic (value : Value) (bytes_to_value_fn : list Z -> TypeR Value)
    : VmR Value :=
  match value with
  | Int int_value =>
      map_err (fun _ => Internal (VI_Expect "Unexpected error converting Int to string."))
        (bytes_to_value_fn (as_bytes (pretty int_value)))
  | UInt uint_value =>
      map_err (fun _ => Internal (VI_Expect "Unexpected error converting UInt to string."))
        (bytes_to_value_fn (as_bytes (pretty uint_value)))
  | _ =>
      Err (RuntimeCheck (RC_UnionTypeValueError [IntType; UIntType] (to_error_string value)))
  end.

Definition native_int_to_ascii (value : Value) : VmR Value :=
  native_int_to_string_generic value string_ascii_from_bytes.
Definition native_int_to_utf8 (value : Value) : VmR Value :=
  native_int_to_string_generic value string_utf8_from_bytes.

Definition convert_string_to_ascii_ok (s : string) : VmR Value :=
  ascii_value ← map_err (fun _ => Internal (VI_Expect "Unexpected error converting string to ASCII"))
                  (string_ascii_from_bytes (as_bytes s));
  map_err vm_from_type (value_okay ascii_value).

Definition convert_utf8_to_ascii (bytes : list Z) : VmR Value :=
  match string_ascii_from_bytes bytes with
  | Ok ascii_value => map_err vm_from_type (value_okay ascii_value)
  | Err _ => Ok (err_uint 1)
  | Panic => Panic
  end.

Definition MAX_TO_ASCII_BUFFER_LEN : Z := (MAX_VALUE_SIZE - 5 - 2) / 2.
Definition TO_ASCII_BUFFER_MAX : TypeSignature := SequenceType (BufferType MAX_TO_ASCII_BUFFER_LEN).

(** [to-ascii?] on its argument *)
Definition to_ascii (value : Value) : VmR Value :=
  match value with
  | Int num => convert_string_to_ascii_ok (pretty num)
  | UInt num => convert_string_to_ascii_ok ("u" +:+ pretty num)
  | Bool b => convert_string_to_ascii_ok (if b then "true" else "false")
  | Principal principal_data => convert_string_to_ascii_ok (principal_to_string principal_data)
  | Sequence (Buffer data) => convert_string_to_ascii_ok ("0x" +:+ to_hex data)
  | Sequence (String_ (CharUTF8 data)) =>
      let flattened_bytes := mjoin data in
      match utf8_chars flattened_bytes with
      | Some _ => convert_utf8_to_ascii flattened_bytes
      | None => Ok (err_uint 1)
      end
  | _ =>
      Err (RuntimeCheck
             (RC_UnionTypeValueError
                [IntType; UIntType; BoolType; PrincipalType; TO_ASCII_BUFFER_MAX; STRING_UTF8_MAX]
                (to_error_string value)))
  end.

(** Whatever does not fit a buffer is [none]. *)
Definition to_consensus_buff (value : Value) : VmR Value :=
  clar_buff_serialized ←
    map_err (fun _ => Internal (VI_Expect "FATAL: failed to serialize to vec"))
      (serialize_to_vec value);
  match buff_from clar_buff_serialized with
  | Ok x =>
      match value_some x with
      | Ok y => Ok y
      | Err _ => Ok value_none
      | Panic => Panic
      end
  | Err _ => Ok value_none
  | Panic => Panic
  end.

(** [from-consensus-buff?] on the bytes of its argument *)
Definition from_consensus_bytes (epoch : StacksEpochId) (type_arg : TypeSignature) (input_bytes : list Z)
    : VmR Value :=
  match try_deserialize_bytes_exact_at_epoch input_bytes type_arg epoch with
  | Ok result =>
      ok ← map_err vm_from_type (admits epoch type_arg result);
      if ok : bool then map_err vm_from_type (value_some result) else Ok value_none
  | Err UnexpectedSerialization =>
      if treats_unexpected_serialization_as_none epoch then Ok value_none
      else Err (RuntimeCheck (RC_Unreachable "UnexpectedSerialization"))
  | Err _ => Ok value_none
  | Panic => Panic
  end.
End Natives.
