(* ===== verification/BitcoinNatives.v ===== *)
(** * Bitcoin transactions and Merkle proofs in Clarity

    [clarity/src/vm/functions/bitcoin.rs]: [get-bitcoin-tx-output?], which
    parses a transaction and returns one of its outputs, and
    [verify-merkle-proof]. The theorems relate the verifier to the tree that
    Bitcoin builds over the transactions of a block: the proofs read off the
    tree are accepted, and whatever is accepted against the root of a tree is
    the leaf of that tree, or exhibits a collision of the hash function. *)

From stdpp Require Import list.
From S2P Require Import Prelude.
From S2P Require Import Bytes.
From S2P Require Import BoundedString.
From S2P Require Import BTree.
From S2P Require Import Values.
From S2P Require Import Types.
From S2P Require Import C32.
From S2P Require Import BitcoinTx.
From S2P Require Import Serialization.
From S2P Require Import VmErrors.
From S2P Require Import TypedValues.
From S2P Require Import Expressions.
From S2P Require Import Arithmetic.
From S2P Require Import Natives.

Section Bitcoin.
Context `{Sha256} `{DebugText}.

Abbreviation VmR := (result VmExecutionError).

Definition VERIFY_MERKLE_PROOF_MAX_DEPTH : Z := 24.
Definition GET_BITCOIN_TX_OUTPUT_MAX_SCRIPT_LEN : Z := 1024.

(** ** Outputs of transactions *)

Inductive ParseTxError := InvalidTx | VoutOutOfRange | ScriptTooLarge.

Definition as_error_code (e : ParseTxError) : Z :=
  match e with InvalidTx => 1 | VoutOutOfRange => 2 | ScriptTooLarge => 3 end.

Definition parse_tx_output (raw : list Z) (vout : Z) : result ParseTxError (list Z * Z * list Z) :=
  tx ← map_err (fun _ => InvalidTx) (btc_deserialize transaction_codec raw);
  txout ← ok_or (output tx !! Z.to_nat vout) VoutOutOfRange;
  let script_bytes := script_pubkey txout in
  if GET_BITCOIN_TX_OUTPUT_MAX_SCRIPT_LEN <? zlen script_bytes then Err ScriptTooLarge
  else Ok (script_bytes, tx_value txout, txid tx).

(** The lengths that the costs of the two functions are measured in *)
Definition cost_input_get_bitcoin_tx_output (args : list Value) : VmR Z :=
  Ok (match args with Sequence (Buffer data) :: _ => zlen data | _ => 0 end).

Definition cost_input_verify_merkle_proof (args : list Value) : VmR Z :=
  Ok (match args !! 4%nat with Some (Sequence (List_ data _)) => zlen data | _ => 0 end).

Definition tx_output_tuple (script : list Z) (amount : Z) (txid : list Z) : VmR Value :=
  script ← map_err vm_from_type (buff_from script);
  txid ← map_err vm_from_type (buff_from txid);
  tuple ← map_err (fun _ => Internal (VI_Expect "FATAL: failed to build get-bitcoin-tx-output? result tuple"))
            (tuple_from_data [("script", script); ("amount", UInt amount); ("txid", txid)]);
  map_err vm_from_type (value_okay (Tuple tuple)).

Definition native_get_bitcoin_tx_output (tx_value vout_value : Value) : VmR Value :=
  match tx_value with
  | Sequence (Buffer tx_bytes) =>
      vout ← expect_uint vout_value;
      match checked 0 u64_max vout with
      | None => map_err vm_from_type (value_error (UInt (as_error_code VoutOutOfRange)))
      | Some vout_u64 =>
          match parse_tx_output tx_bytes vout_u64 with
          | Ok (script, amount, txid) => tx_output_tuple script amount txid
          | Err e => Ok (err_uint (as_error_code e))
          | Panic => Panic
          end
      end
  | _ => Err (type_value_error BUFFER_MAX tx_value)
  end.

(** ** Merkle proofs *)

(** [ceil(log2(tx_count))] *)
Definition canonical_merkle_depth (tx_count : Z) : Z :=
  if tx_count <=? 1 then 0 else Z.log2 (tx_count - 1) + 1.

Definition hash_pair (l r : list Z) : list Z := sha256d (l ++ r).

(** The loop over the siblings: the hash it ends with, or [None] at a sibling
    that no tree with these rows has. *)
Fixpoint climb (cur : list Z) (idx row_count : Z) (siblings : list (list Z)) : VmR (option (list Z)) :=
  match siblings with
  | [] => Ok (Some cur)
  | sibling :: siblings =>
      let sibling_idx := Z.lor idx 1 in
      if (if row_count <=? sibling_idx
          then (Z.land row_count 1 =? 0) || negb (idx =? row_count - 1) || negb (bool_decide (sibling = cur))
          else bool_decide (sibling = cur))
      then Ok None
      else
        let cur := if Z.land idx 1 =? 1 then hash_pair sibling cur else hash_pair cur sibling in
        rounded ← expect_some (checked 0 u128_max (row_count + 1));
        climb cur (Z.shiftr idx 1) (Z.shiftr rounded 1) siblings
  end.

Definition verify_merkle (leaf root : list Z) (tx_index tx_count : Z) (siblings : list (list Z))
    : VmR bool :=
  if (tx_count =? 0) || (tx_count <=? tx_index) then Ok false
  else if negb (zlen siblings =? canonical_merkle_depth tx_count) then Ok false
  else
    top ← climb leaf tx_index tx_count siblings;
    Ok (match top with Some cur => bool_decide (cur = root) | None => false end).

Definition native_verify_merkle_proof (args : list Value) : VmR Value :=
  match args with
  | [leaf_value; root_value; tx_index_value; tx_count_value; siblings_value] =>
      leaf ← expect_array 32 leaf_value;
      root ← expect_array 32 root_value;
      tx_index ← expect_uint tx_index_value;
      tx_count ← expect_uint tx_count_value;
      match siblings_value with
      | Sequence (List_ data _) =>
          match mapM (buff_to_array 32) data with
          | Some siblings => b ← verify_merkle leaf root tx_index tx_count siblings; Ok (Bool b)
          | None => Ok (Bool false)
          end
      | other =>
          expected ← map_err (fun _ => Internal (VI_Expect "FATAL: failed to build (list 24 (buff 32)) type"))
                       (list_of (BUFFER 32) VERIFY_MERKLE_PROOF_MAX_DEPTH);
          Err (type_value_error expected other)
      end
  | _ => Err (Internal (VI_Expect "verify-merkle-proof received wrong arity"))
  end.
End Bitcoin.

(** ** The tree over the transactions of a block *)

Section Tree.
Context `{Sha256} `{DebugText}.
Implicit Types row siblings : list (list Z).

(** Every pair of hashes is hashed; the last one of an odd row with itself. *)
Fixpoint next_row row : list (list Z) :=
  match row with
  | a :: b :: row => hash_pair a b :: next_row row
  | [a] => [hash_pair a a]
  | [] => []
  end.

Inductive merkle_root : list (list Z) -> list Z -> Prop :=
| root_one h : merkle_root [h] h
| root_row row root : (2 <= length row)%nat -> merkle_root (next_row row) root -> merkle_root row root.

(** The other hash of the pair that has the [i]-th of a row *)
Definition sibling_of row (i : nat) : option (list Z) :=
  if Nat.odd i then row !! (i - 1)%nat
  else match row !! (i + 1)%nat with Some s => Some s | None => row !! i end.

(** The siblings on the way from a leaf to the root *)
Inductive auth_path : list (list Z) -> nat -> list (list Z) -> Prop :=
| path_one h : auth_path [h] 0 []
| path_row row i s siblings :
    (2 <= length row)%nat -> sibling_of row i = Some s ->
    auth_path (next_row row) (Nat.div2 i) siblings -> auth_path row i (s :: siblings).

(** No pair of a row has the same hash twice: Bitcoin rejects the blocks whose
    tree does. *)
Inductive clean : list (list Z) -> Prop :=
| clean_one h : clean [h]
| clean_row row :
    (2 <= length row)%nat ->
    (forall k a b, row !! (2 * k)%nat = Some a -> row !! (2 * k + 1)%nat = Some b -> a <> b) ->
    clean (next_row row) -> clean row.

Definition is_hash (h : list Z) : Prop := length h = 32%nat.

(** Two different pairs of hashes with the same hash *)
Definition collision : Prop :=
  exists x y, x <> y /\ length x = 64%nat /\ length y = 64%nat /\ sha256d x = sha256d y.

(** *** Rows *)

Lemma row_ind (P : list (list Z) -> Prop) :
  P [] -> (forall a, P [a]) -> (forall a b row, P row -> P (a :: b :: row)) -> forall row, P row.
Proof.
  intros Hnil Hone Htwo. fix IH 1. intros [| a [| b row]]; [done | done |]. apply Htwo, IH.
Qed.

Lemma length_next_row row : length (next_row row) = Nat.div2 (S (length row)).
Proof. induction row as [| a | a b row IH] using row_ind; [done | done |]. cbn. by rewrite IH. Qed.

Lemma next_row_lookup row k a :
  row !! (2 * k)%nat = Some a ->
  next_row row !! k = Some (hash_pair a (default a (row !! (2 * k + 1)%nat))).
Proof.
  revert k. induction row as [| c | c b row IH] using row_ind; intros k.
  - done.
  - destruct k as [| k]; [by intros [= ->] |].
    replace (2 * S k)%nat with (S (S (2 * k))) by lia. done.
  - destruct k as [| k]; [by intros [= ->] |].
    replace (2 * S k)%nat with (S (S (2 * k))) by lia. cbn [next_row]. apply IH.
Qed.

Lemma is_hash_pair l r : is_hash (hash_pair l r).
Proof. apply sha256_length. Qed.

Lemma next_row_hashes row : Forall is_hash (next_row row).
Proof. induction row using row_ind; cbn; repeat constructor; auto using is_hash_pair. Qed.
Lemma hash_pair_inj l r l' r' :
  is_hash l -> is_hash r -> is_hash l' -> is_hash r' ->
  hash_pair l r = hash_pair l' r' -> (l = l' /\ r = r') \/ collision.
Proof.
  unfold is_hash. intros Hl Hr Hl' Hr' Heq. destruct (decide (l ++ r = l' ++ r')) as [E | N].
  - left. apply app_inj_1 in E; [done | congruence].
  - right. exists (l ++ r), (l' ++ r'). rewrite !length_app. split_and!; [done | lia | lia | done].
Qed.

(** *** Levels *)

Lemma depth_next n :
  (2 <= n)%nat ->
  canonical_merkle_depth (Z.of_nat n) = canonical_merkle_depth (Z.of_nat (Nat.div2 (S n))) + 1.
Proof.
  intros Hn. rewrite Nat.div2_div. unfold canonical_merkle_depth.
  destruct (Z.leb_spec (Z.of_nat n) 1); [lia |].
  destruct (decide (n = 2%nat)) as [-> | Hn2]; [done |].
  rewrite Nat2Z.inj_div, Nat2Z.inj_succ. change (Z.of_nat 2) with 2.
  pose proof (Z.div_mod (Z.succ (Z.of_nat n)) 2). pose proof (Z.mod_pos_bound (Z.succ (Z.of_nat n)) 2).
  destruct (Z.leb_spec (Z.succ (Z.of_nat n) / 2) 1); [lia |]. f_equal.
  replace (Z.succ (Z.of_nat n) / 2 - 1) with (Z.shiftr (Z.of_nat n - 1) 1).
  - rewrite Z.log2_shiftr by lia. pose proof (Z.log2_le_mono 2 (Z.of_nat n - 1)). cbn in *. lia.
  - rewrite Z.shiftr_div_pow2 by lia. change (2 ^ 1) with 2.
    symmetry. replace (Z.succ (Z.of_nat n)) with (Z.of_nat n - 1 + 1 * 2) by lia.
    rewrite Z.div_add by lia. lia.
Qed.

Lemma path_depth row i siblings :
  auth_path row i siblings -> zlen siblings = canonical_merkle_depth (zlen row).
Proof.
  unfold zlen. induction 1 as [| row i s siblings Hlen _ _ IH]; [done |].
  rewrite (depth_next (length row)) by done. rewrite <- length_next_row, <- IH. cbn [length]. lia.
Qed.

(** *** One step of the verifier *)

Lemma land_one n : Z.land (Z.of_nat n) 1 = if Nat.odd n then 1 else 0.
Proof.
  change 1 with (Z.ones 1) at 1. rewrite Z.land_ones by lia. change (2 ^ 1) with 2.
  destruct (Nat.Even_or_Odd n) as [[k ->] | [k ->]].
  - rewrite Nat.odd_even, Nat2Z.inj_mul, Z.mul_comm, Z.mod_mul by lia. done.
  - rewrite Nat.odd_odd, Nat2Z.inj_add, Nat2Z.inj_mul, Z.add_comm, Z.mul_comm, Z.mod_add by lia. done.
Qed.

Lemma lor_one n : Z.lor (Z.of_nat n) 1 = Z.of_nat n + (if Nat.odd n then 0 else 1).
Proof. pose proof (Z.add_lor_land (Z.of_nat n) 1) as E. rewrite land_one in E. destruct (Nat.odd n); lia. Qed.

Lemma shiftr_one n : Z.shiftr (Z.of_nat n) 1 = Z.of_nat (Nat.div2 n).
Proof. rewrite Z.shiftr_div_pow2, Nat.div2_div, Nat2Z.inj_div by lia. done. Qed.

(** The check of a sibling, on the positions of the row *)
Definition fits row (i : nat) (cur s : list Z) : bool :=
  if Nat.odd i || (i + 1 <? length row)%nat then negb (bool_decide (s = cur)) else bool_decide (s = cur).

Lemma climb_step cur row i s siblings :
  (i < length row)%nat ->
  climb cur (Z.of_nat i) (zlen row) (s :: siblings) =
  if fits row i cur s then
    rounded ← expect_some (checked 0 u128_max (zlen row + 1));
    climb (if Nat.odd i then hash_pair s cur else hash_pair cur s)
      (Z.of_nat (Nat.div2 i)) (zlen (next_row row)) siblings
  else Ok None.
Proof.
  intros Hi. cbn [climb]. unfold fits, zlen.
  rewrite lor_one, !land_one, shiftr_one, length_next_row. 
  assert (Hround : forall {A} (k : Z -> VmR A), 
    (r ← expect_some (checked 0 u128_max (Z.of_nat (length row) + 1)); k (Z.shiftr r 1)) =
    (_ ← expect_some (checked 0 u128_max (Z.of_nat (length row) + 1));
     k (Z.of_nat (Nat.div2 (S (length row)))))).
  { intros A k. destruct (checked _ _ _) as [r |] eqn:Hr; [| done].
    apply checked_Some in Hr as [-> _]. rewrite <- shiftr_one, Nat2Z.inj_succ. done. }
  rewrite (Hround _ (fun rc => climb _ _ rc siblings)). clear Hround.
  rewrite Z.leb_antisym.
  destruct (Nat.odd i) eqn:Hodd; cbn [orb].
  - destruct (Z.ltb_spec (Z.of_nat i + 0) (Z.of_nat (length row))); [| lia]. cbn [negb].
    by destruct (bool_decide (s = cur)).
  - destruct (Nat.ltb_spec (i + 1) (length row)) as [Hlt | Hge].
    + destruct (Z.ltb_spec (Z.of_nat i + 1) (Z.of_nat (length row))); [| lia]. cbn [negb].
      by destruct (bool_decide (s = cur)).
    + destruct (Z.ltb_spec (Z.of_nat i + 1) (Z.of_nat (length row))); [lia |]. cbn [negb].
      replace (length row) with (S i) by lia. rewrite Nat.odd_succ, <- Nat.negb_odd, Hodd. cbn [negb].
      rewrite (proj2 (Z.eqb_eq (Z.of_nat i) _)) by lia. by destruct (bool_decide (s = cur)).
Qed.

Lemma parent_lookup row i :
  (i < length row)%nat -> exists a b,
    row !! i = Some (if Nat.odd i then b else a) /\
    sibling_of row i = Some (if Nat.odd i then a else b) /\
    next_row row !! Nat.div2 i = Some (hash_pair a b) /\
    (Nat.odd i || (i + 1 <? length row)%nat = false -> a = b) /\
    (Nat.odd i || (i + 1 <? length row)%nat = true ->
       row !! (2 * Nat.div2 i)%nat = Some a /\ row !! (2 * Nat.div2 i + 1)%nat = Some b).
Proof.
  intros Hi. pose proof (Nat.div2_odd i) as Hdiv. unfold sibling_of.
  set (k := Nat.div2 i) in *.
  destruct (lookup_lt_is_Some_2 row (2 * k)) as [a Ha]; [destruct (Nat.odd i); cbn in Hdiv; lia |].
  pose proof (next_row_lookup _ _ _ Ha) as Hnext.
  destruct (Nat.odd i) eqn:Hodd; cbn [orb Nat.b2n] in *.
  - destruct (lookup_lt_is_Some_2 row i Hi) as [b Hb]. rewrite <- Hdiv in Hnext |- *. rewrite Hb in Hnext.
    exists a, b. replace (i - 1)%nat with (2 * k)%nat by lia. done.
  - assert (i = 2 * k)%nat as Hik by lia. rewrite <- Hik in *.
    destruct (Nat.ltb_spec (i + 1) (length row)) as [Hlt | Hge].
    + destruct (lookup_lt_is_Some_2 row (i + 1) Hlt) as [b Hb]. rewrite Hb in Hnext |- *.
      by exists a, b.
    + rewrite (lookup_ge_None_2 row (i + 1)) in Hnext |- * by lia. by exists a, a.
Qed.

Lemma sibling_hash row i s : sibling_of row i = Some s -> Forall is_hash row -> is_hash s.
Proof.
  unfold sibling_of. intros Hs Hrow. repeat case_match; simplify_eq; by eapply Forall_lookup_1.
Qed.

Lemma parent_lt row i : (i < length row)%nat -> (Nat.div2 i < length (next_row row))%nat.
Proof.
  intros Hi. rewrite length_next_row, !Nat.div2_div.
  pose proof (Nat.div_mod_eq i 2). pose proof (Nat.div_mod_eq (S (length row)) 2).
  pose proof (Nat.mod_upper_bound i 2). pose proof (Nat.mod_upper_bound (S (length row)) 2). lia.
Qed.

Lemma climb_sound row root siblings i cur :
  merkle_root row root -> zlen siblings = canonical_merkle_depth (zlen row) -> (i < length row)%nat ->
  Forall is_hash row -> is_hash cur -> Forall is_hash siblings ->
  climb cur (Z.of_nat i) (zlen row) siblings = Ok (Some root) ->
  (row !! i = Some cur /\ auth_path row i siblings) \/ collision.
Proof.
  intros Hroot. revert siblings i cur.
  induction Hroot as [h | row root Hlen Hroot IH]; intros siblings i cur Hd Hi Hrow Hcur Hsib Hclimb.
  - destruct siblings as [| s siblings]; [| done].
    cbn in Hi, Hclimb. injection Hclimb as ->. replace i with 0%nat by lia. left. split; [done | constructor].
  - unfold zlen in Hd. rewrite (depth_next (length row)), <- length_next_row in Hd by done.
    destruct siblings as [| s siblings].
    { assert (0 <= canonical_merkle_depth (Z.of_nat (length (next_row row)))); [| cbn in Hd; lia].
      unfold canonical_merkle_depth. case_match; [lia |].
      pose proof (Z.log2_nonneg (Z.of_nat (length (next_row row)) - 1)). lia. }
    rewrite climb_step in Hclimb by done. destruct (fits row i cur s); [| done].
    apply result_bind_Ok in Hclimb as (r & _ & Hclimb).
    apply Forall_cons in Hsib as [Hs Hsib].
    apply IH in Hclimb as [[Hnext Hpath] | Hcol];
      [| by right | unfold zlen; cbn [length] in Hd; lia | | apply next_row_hashes
       | destruct (Nat.odd i); apply is_hash_pair | done].
    + destruct (parent_lookup row i Hi) as (a & b & Hat & Hsibling & Hpar & _ & _).
      rewrite Hpar in Hnext. injection Hnext as Hnext.
      assert (is_hash a /\ is_hash b) as [Ha Hb].
      { pose proof (sibling_hash _ _ _ Hsibling Hrow) as Hs'.
        pose proof (Forall_lookup_1 _ _ _ _ Hrow Hat) as Hi'. by destruct (Nat.odd i). }
      destruct (Nat.odd i).
      * apply hash_pair_inj in Hnext as [[-> ->] | Hcol]; [left | by right | done..].
        split; [done |]. by econstructor.
      * apply hash_pair_inj in Hnext as [[-> ->] | Hcol]; [left | by right | done..].
        split; [done |]. by econstructor.
    + by apply parent_lt.
Qed.

Lemma climb_complete row root siblings i cur :
  clean row -> merkle_root row root -> auth_path row i siblings -> row !! i = Some cur ->
  zlen row < u128_max ->
  climb cur (Z.of_nat i) (zlen row) siblings = Ok (Some root).
Proof.
  intros Hclean. revert root siblings i cur.
  induction Hclean as [h | row Hlen Hdist Hclean IH]; intros root siblings i cur Hroot Hpath Hcur Hmax.
  - inversion Hroot; subst; [| cbn in *; lia]. inversion Hpath; subst; [| cbn in *; lia].
    by injection Hcur as ->.
  - inversion Hroot; subst; [cbn in *; lia |].
    inversion Hpath as [| ? ? s sibs _ Hs Hrest]; subst; [cbn in *; lia |].
    pose proof (lookup_lt_Some _ _ _ Hcur) as Hi. rewrite climb_step by done.
    destruct (parent_lookup row i Hi) as (a & b & Hat & Hsibling & Hpar & Hdup & Hpair).
    rewrite Hat in Hcur. rewrite Hsibling in Hs. injection Hcur as <-. injection Hs as <-.
    assert (Hfits : fits row i (if Nat.odd i then b else a) (if Nat.odd i then a else b) = true).
    { unfold fits. destruct (Nat.odd i || (i + 1 <? length row)%nat) eqn:Hin.
      - destruct (Hpair eq_refl) as [Ha Hb]. pose proof (Hdist _ _ _ Ha Hb) as Hne.
        rewrite bool_decide_eq_false_2; [done |]. by destruct (Nat.odd i).
      - rewrite (Hdup eq_refl). apply bool_decide_eq_true_2. by destruct (Nat.odd i). }
    rewrite Hfits. destruct (checked 0 u128_max (zlen row + 1)) as [r |] eqn:Hr;
      [| apply checked_None in Hr; unfold zlen in *; lia].
    cbn [expect_some]. eapply IH; [done | done | by destruct (Nat.odd i) |].
    unfold zlen in *. rewrite length_next_row, Nat.div2_div. 
    pose proof (Nat.div_mod_eq (S (length row)) 2). lia.
Qed.


Lemma path_exists row i : clean row -> (i < length row)%nat -> exists siblings, auth_path row i siblings.
Proof.
  intros Hclean. revert i. induction Hclean as [h | row Hlen _ _ IH]; intros i Hi.
  - exists []. cbn in Hi. replace i with 0%nat by lia. constructor.
  - destruct (IH _ (parent_lt _ _ Hi)) as [siblings Hpath].
    destruct (parent_lookup row i Hi) as (a & b & _ & Hs & _). eexists. by econstructor.
Qed.

(** C39: Every transaction of a block has a proof that [verify-merkle-proof]
    accepts, the path of the tree from its position: provided that no pair of
    the tree repeats a hash, as in the blocks that Bitcoin accepts. *)
Theorem merkle_proof_complete leaves root leaf (i : nat) :
  clean leaves -> merkle_root leaves root -> leaves !! i = Some leaf -> zlen leaves < u128_max ->
  exists siblings, auth_path leaves i siblings /\
    verify_merkle leaf root (Z.of_nat i) (zlen leaves) siblings = Ok true.
Proof.
  intros Hclean Hroot Hleaf Hmax. pose proof (lookup_lt_Some _ _ _ Hleaf) as Hi.
  destruct (path_exists _ _ Hclean Hi) as [siblings Hpath]. exists siblings. split; [done |].
  unfold verify_merkle. rewrite (proj2 (orb_false_iff _ _)).
  2: { unfold zlen. split; [apply Z.eqb_neq | apply Z.leb_gt]; lia. }
  rewrite (path_depth _ _ _ Hpath), Z.eqb_refl. cbn [negb].
  rewrite (climb_complete leaves root) by done. cbn. by rewrite bool_decide_eq_true_2.
Qed.
End Tree.

(** A block with two transactions *)
Definition two_leaves : list (list Z) := [repeat 1 32; repeat 2 32].


Lemma merkle_proof_complete_witness :
  let _ := zero_sha256 in
  exists siblings, auth_path two_leaves 1 siblings /\
    verify_merkle (repeat 2 32) (hash_pair (repeat 1 32) (repeat 2 32)) 1 2 siblings = Ok true.
Proof.
  intros sha.
  apply (merkle_proof_complete two_leaves (hash_pair (repeat 1 32) (repeat 2 32)) (repeat 2 32) 1).
  - apply clean_row; [cbn; lia | | apply clean_one].
    intros [| k] a b; [by intros [= <-] [= <-] |]. cbn. rewrite Nat.add_succ_r. done.
  - apply root_row; [cbn; lia | apply root_one].
  - reflexivity.
  - reflexivity.
Defined.
