(* ===== verification/PostConditions.v ===== *)
(** * Post-conditions: what a transaction is allowed to move

    [crates/stacks-transactions/src/lib.rs]: the checks that reject conditions
    an epoch does not support yet, and the check of a transaction's declared
    post-conditions against the asset map of what it moved. The condition types
    are those of [stacks-codec/src/transaction.rs]. The text of a failure
    reason is not modelled: a reason is a constructor with what the message
    shows. *)

From S2P Require Import Prelude.
From S2P Require Import Epochs.
From S2P Require Import Values.
From S2P Require Import AssetMap.
From S2P Require Import Serialization.

(** ** Conditions *)

Inductive TransactionPostConditionMode := Allow | Deny | Originator.

Inductive FungibleConditionCode := SentEq | SentGt | SentGe | SentLt | SentLe.

Definition fungible_check (code : FungibleConditionCode)
    (amount_sent_condition amount_sent : Z) : bool :=
  match code with
  | SentEq => amount_sent =? amount_sent_condition
  | SentGt => amount_sent >? amount_sent_condition
  | SentGe => amount_sent >=? amount_sent_condition
  | SentLt => amount_sent <? amount_sent_condition
  | SentLe => amount_sent <=? amount_sent_condition
  end.

Inductive NonfungibleConditionCode := Sent | NotSent | MaybeSent.

Fixpoint was_sent (nft_sent_condition : Value) (nfts_sent : list Value) : bool :=
  match nfts_sent with
  | [] => false
  | asset_sent :: rest =>
      if value_eqb asset_sent nft_sent_condition then true else was_sent nft_sent_condition rest
  end.

Definition nonfungible_check (code : NonfungibleConditionCode)
    (nft_sent_condition : Value) (nfts_sent : list Value) : bool :=
  match code with
  | Sent => was_sent nft_sent_condition nfts_sent
  | NotSent => negb (was_sent nft_sent_condition nfts_sent)
  | MaybeSent => true
  end.

Inductive PoxConditionCode := NotPerformed | MaybePerformed | Performed.

Definition pox_check (code : PoxConditionCode) (performed : bool) : bool :=
  match code with
  | NotPerformed => negb performed
  | MaybePerformed => true
  | Performed => performed
  end.

Definition fungible_code_from_u8 (b : Z) : option FungibleConditionCode :=
  match b with
  | 1 => Some SentEq | 2 => Some SentGt | 3 => Some SentGe | 4 => Some SentLt
  | 5 => Some SentLe | _ => None
  end.
Definition nonfungible_code_from_u8 (b : Z) : option NonfungibleConditionCode :=
  match b with 16 => Some Sent | 17 => Some NotSent | 18 => Some MaybeSent | _ => None end.
Definition pox_code_from_u8 (b : Z) : option PoxConditionCode :=
  match b with
  | 48 => Some NotPerformed | 49 => Some MaybePerformed | 50 => Some Performed | _ => None
  end.

Record StacksAddress := mkStacksAddress { addr_version : Z; addr_bytes : list Z }.

(** [StandardPrincipalData::from(StacksAddress)] *)
Definition spd_from_address {E} (addr : StacksAddress) : result E StandardPrincipalData :=
  expect_ok (StandardPrincipalData_new (addr_version addr) (addr_bytes addr)).

Inductive PostConditionPrincipal :=
| PCOrigin
| PCStandard (addr : StacksAddress)
| PCContract (addr : StacksAddress) (name : ContractName).

Definition to_principal_data {E} (p : PostConditionPrincipal) (origin_principal : PrincipalData)
    : result E PrincipalData :=
  match p with
  | PCOrigin => mret origin_principal
  | PCStandard addr => p ← spd_from_address addr; mret (Standard p)
  | PCContract addr name =>
      p ← spd_from_address addr; mret (Contract (mkQualifiedContract p name))
  end.

Record AssetInfo := mkAssetInfo {
  info_contract_address : StacksAddress;
  info_contract_name : ContractName;
  info_asset_name : ClarityName;
}.

(** The [AssetIdentifier] built from an [AssetInfo] *)
Definition asset_id_of {E} (info : AssetInfo) : result E AssetIdentifier :=
  p ← spd_from_address (info_contract_address info);
  mret (mkAssetIdentifier (mkQualifiedContract p (info_contract_name info))
          (info_asset_name info)).

Inductive TransactionPostCondition :=
| PostSTX (p : PostConditionPrincipal) (code : FungibleConditionCode) (amount : Z)
| PostFungible (p : PostConditionPrincipal) (asset : AssetInfo) (code : FungibleConditionCode)
    (amount : Z)
| PostNonfungible (p : PostConditionPrincipal) (asset : AssetInfo) (value : Value)
    (code : NonfungibleConditionCode)
| PostStaking (p : PostConditionPrincipal) (code : FungibleConditionCode) (amount : Z)
| PostPox (p : PostConditionPrincipal) (code : PoxConditionCode).

(** ** Support by epoch *)

Inductive UnsupportedPostCondition := OriginatorMode | NftMaybeSent | StakingOrPox.

(** [matches!] patterns *)
Definition is_maybe_sent (pc : TransactionPostCondition) : bool :=
  match pc with PostNonfungible _ _ _ MaybeSent => true | _ => false end.
Definition is_staking_or_pox (pc : TransactionPostCondition) : bool :=
  match pc with PostStaking _ _ _ | PostPox _ _ => true | _ => false end.

Definition check_post_conditions_supported_in_epoch
    (post_conditions : list TransactionPostCondition) (mode : TransactionPostConditionMode)
    (epoch_id : StacksEpochId) : result UnsupportedPostCondition unit :=
  _ ← (if negb (supports_sip040_post_conditions epoch_id) then
         if (match mode with Originator => true | _ => false end) then Err OriginatorMode
         else if existsb is_maybe_sent post_conditions then Err NftMaybeSent else Ok tt
       else Ok tt);
  if negb (supports_staking_post_conditions epoch_id)
     && existsb is_staking_or_pox post_conditions
  then Err StakingOrPox else Ok tt.

(** ** The check *)

Inductive FailureReason :=
| FailSTX (owner : PrincipalData) (condition : Z) (code : FungibleConditionCode) (sent : Z)
| FailFungible (asset : AssetIdentifier) (owner : PrincipalData) (condition : Z)
    (code : FungibleConditionCode) (sent : Z)
| FailNonfungible (asset : AssetIdentifier) (owner : PrincipalData) (value : Value)
    (code : NonfungibleConditionCode) (sent : nat)
| FailStaking (owner : PrincipalData) (condition : Z) (code : FungibleConditionCode) (staked : Z)
| FailPox (owner : PrincipalData) (code : PoxConditionCode) (performed : bool)
| UncheckedNftValue (asset : AssetIdentifier) (value : Value) (owner : PrincipalData)
| UncheckedNft (asset : AssetIdentifier) (owner : PrincipalData)
| NoNftChecks (asset : AssetIdentifier) (owner : PrincipalData)
| UncheckedFungible (asset : AssetIdentifier) (owner : PrincipalData)
| UncheckedStaking (amount : Z) (owner : PrincipalData)
| UncheckedPox (owner : PrincipalData).

(** How the function stops early: [return Ok(Some(reason))], or [?] on a value
    that does not serialize *)
Inductive Stop :=
| Return (reason : FailureReason)
| SerError (e : SerializationError).

(** The mutable collections of the function *)
Record Checked := mkChecked {
  checked_fungible_assets : gmap PrincipalData (gset AssetIdentifier);
  checked_nonfungible_assets : gmap PrincipalData (gmap AssetIdentifier (list Value));
  checked_staking : gset PrincipalData;
  checked_pox : gset PrincipalData;
}.

Definition set_checked_fungible x (c : Checked) : Checked :=
  mkChecked x (checked_nonfungible_assets c) (checked_staking c) (checked_pox c).
Definition set_checked_nonfungible x (c : Checked) : Checked :=
  mkChecked (checked_fungible_assets c) x (checked_staking c) (checked_pox c).
Definition set_checked_staking x (c : Checked) : Checked :=
  mkChecked (checked_fungible_assets c) (checked_nonfungible_assets c) x (checked_pox c).
Definition set_checked_pox x (c : Checked) : Checked :=
  mkChecked (checked_fungible_assets c) (checked_nonfungible_assets c) (checked_staking c) x.

Abbreviation CheckM := (M Checked Stop).

(** [for x in l { body }] *)
Fixpoint for_each {S E A} (body : A -> M S E unit) (l : list A) : M S E unit :=
  match l with
  | [] => mret tt
  | x :: l => body x;; for_each body l
  end.

(** [HashableClarityValue::try_from]: the value, once it is known to serialize *)
Definition hashable (v : Value) : CheckM Value :=
  _ ← lift (map_err SerError (serialize_to_vec v)); mret v.

(** A [HashSet<HashableClarityValue>] is the list of its elements, compared
    with the equality of values. *)
Definition set_contains (s : list Value) (v : Value) : bool := existsb (fun x => value_eqb x v) s.
Definition set_insert (v : Value) (s : list Value) : list Value :=
  if set_contains s v then s else v :: s.

Definition enforce_unchecked_assets_for_principal (mode : TransactionPostConditionMode)
    (origin_principal principal : PrincipalData) : bool :=
  match mode with
  | Allow => false
  | Deny => true
  | Originator => bool_decide (principal = origin_principal)
  end.

Section Check.
Context `{HashMapIter}.
Context (post_condition_mode : TransactionPostConditionMode) (origin_principal : PrincipalData)
  (am : AssetMap) (epoch_id : StacksEpochId).

(** One iteration of the loop over the post-conditions *)
Definition check_postcondition (postcond : TransactionPostCondition) : CheckM unit :=
  match postcond with
  | PostSTX principal condition_code amount_sent_condition =>
      account_principal ← lift (to_principal_data principal origin_principal);
      let amount_transferred := default 0 (get_stx account_principal am) in
      let amount_burned := default 0 (get_stx_burned account_principal am) in
      amount_sent ← lift (expect_some (u128_checked_add amount_transferred amount_burned));
      ensure (fungible_check condition_code amount_sent_condition amount_sent)
        (Return (FailSTX account_principal amount_sent_condition condition_code amount_sent));;
      modify (fun c =>
        let asset_ids := default ∅ (checked_fungible_assets c !! account_principal) in
        let asset_ids := if amount_transferred >? 0
          then {[AssetIdentifier_STX]} ∪ asset_ids else asset_ids in
        let asset_ids := if amount_burned >? 0
          then {[AssetIdentifier_STX_burned]} ∪ asset_ids else asset_ids in
        set_checked_fungible (<[account_principal := asset_ids]> (checked_fungible_assets c)) c)
  | PostFungible principal asset_info condition_code amount_sent_condition =>
      account_principal ← lift (to_principal_data principal origin_principal);
      asset_id ← lift (asset_id_of asset_info);
      let amount_sent := default 0 (get_fungible_tokens account_principal asset_id am) in
      ensure (fungible_check condition_code amount_sent_condition amount_sent)
        (Return (FailFungible asset_id account_principal amount_sent_condition condition_code
                   amount_sent));;
      modify (fun c =>
        set_checked_fungible
          (entry_or_default ∅ (fun asset_ids => {[asset_id]} ∪ asset_ids) account_principal
             (checked_fungible_assets c)) c)
  | PostNonfungible principal asset_info asset_value condition_code =>
      account_principal ← lift (to_principal_data principal origin_principal);
      asset_id ← lift (asset_id_of asset_info);
      let assets_sent := default [] (get_nonfungible_tokens account_principal asset_id am) in
      ensure (nonfungible_check condition_code asset_value assets_sent)
        (Return (FailNonfungible asset_id account_principal asset_value condition_code
                   (length assets_sent)));;
      value ← hashable asset_value;
      modify (fun c =>
        set_checked_nonfungible
          (entry_or_default ∅ (entry_or_default [] (set_insert value) asset_id)
             account_principal (checked_nonfungible_assets c)) c)
  | PostStaking principal condition_code amount_staked_condition =>
      account_principal ← lift (to_principal_data principal origin_principal);
      let amount_staked := default 0 (get_stacking account_principal am) in
      ensure (fungible_check condition_code amount_staked_condition amount_staked)
        (Return (FailStaking account_principal amount_staked_condition condition_code
                   amount_staked));;
      modify (fun c => set_checked_staking ({[account_principal]} ∪ checked_staking c) c)
  | PostPox principal condition_code =>
      account_principal ← lift (to_principal_data principal origin_principal);
      let performed := did_pox_action account_principal am in
      ensure (pox_check condition_code performed)
        (Return (FailPox account_principal condition_code performed));;
      modify (fun c => set_checked_pox ({[account_principal]} ∪ checked_pox c) c)
  end.

(** One entry of the table of what moved *)
Definition check_moved (principal : PrincipalData)
    (entry : AssetIdentifier * AssetMapEntry) : CheckM unit :=
  let '(asset_identifier, asset_entry) := entry in
  c ← get;
  match asset_entry with
  | EntryAsset values =>
      match checked_nonfungible_assets c !! principal with
      | Some checked_nft_asset_map =>
          match checked_nft_asset_map !! asset_identifier with
          | Some nfts =>
              for_each (fun v =>
                hashed ← hashable v;
                ensure (set_contains nfts hashed)
                  (Return (UncheckedNftValue asset_identifier v principal))) values
          | None => throw (Return (UncheckedNft asset_identifier principal))
          end
      | None => throw (Return (NoNftChecks asset_identifier principal))
      end
  | _ =>
      match checked_fungible_assets c !! principal with
      | Some checked_ft_asset_ids =>
          ensure (bool_decide (asset_identifier ∈ checked_ft_asset_ids))
            (Return (UncheckedFungible asset_identifier principal))
      | None => throw (Return (UncheckedFungible asset_identifier principal))
      end
  end.

Definition enforced (principal : PrincipalData) : bool :=
  enforce_unchecked_assets_for_principal post_condition_mode origin_principal principal.

Definition check_all (post_conditions : list TransactionPostCondition) : CheckM unit :=
  for_each check_postcondition post_conditions;;
  for_each (fun '(principal, assets) =>
    if negb (enforced principal) then mret tt
    else for_each (check_moved principal) (iter assets)) (iter (to_table am));;
  if supports_staking_post_conditions epoch_id then
    c ← get;
    for_each (fun '(principal, amount_staked) =>
      if amount_staked =? 0 then mret tt
      else if negb (enforced principal) then mret tt
      else ensure (bool_decide (principal ∈ checked_staking c))
             (Return (UncheckedStaking amount_staked principal))) (iter (get_all_stacking am));;
    for_each (fun '(principal, _) =>
      if negb (enforced principal) then mret tt
      else ensure (bool_decide (principal ∈ checked_pox c))
             (Return (UncheckedPox principal)))
      (iter (gset_to_gmap tt (get_all_pox_actions am)))
  else mret tt.

Definition check_transaction_postconditions (post_conditions : list TransactionPostCondition)
    : result SerializationError (option FailureReason) :=
  match (check_all post_conditions (mkChecked ∅ ∅ ∅ ∅)).1 with
  | Ok _ => Ok None
  | Err (Return reason) => Ok (Some reason)
  | Err (SerError e) => Err e
  | Panic => Panic
  end.
End Check.

(** ** Specification *)

Definition address_ok (addr : StacksAddress) : Prop := addr_version addr < 32.

Definition address_principal (addr : StacksAddress) : StandardPrincipalData :=
  mkStandardPrincipal (addr_version addr) (addr_bytes addr).

Definition principal_ok (p : PostConditionPrincipal) : Prop :=
  match p with PCOrigin => True | PCStandard addr | PCContract addr _ => address_ok addr end.

Definition asset_of (info : AssetInfo) : AssetIdentifier :=
  mkAssetIdentifier
    (mkQualifiedContract (address_principal (info_contract_address info)) (info_contract_name info))
    (info_asset_name info).

(** Addresses are what a [StacksAddress] can be, and values can be written. *)
Definition postcondition_ok (pc : TransactionPostCondition) : Prop :=
  match pc with
  | PostSTX p _ _ | PostStaking p _ _ | PostPox p _ => principal_ok p
  | PostFungible p info _ _ => principal_ok p /\ address_ok (info_contract_address info)
  | PostNonfungible p info v _ =>
      principal_ok p /\ address_ok (info_contract_address info) /\ sized v
  end.

Definition moved_ok (am : AssetMap) : Prop :=
  (forall p, 0 <= default 0 (get_stx p am) + default 0 (get_stx_burned p am) <= u128_max) /\
  (forall p x values, get_nonfungible_tokens p x am = Some values -> Forall sized values).

Section Spec.
Context (mode : TransactionPostConditionMode) (origin : PrincipalData) (am : AssetMap)
  (epoch_id : StacksEpochId).

Definition principal_of (p : PostConditionPrincipal) : PrincipalData :=
  match p with
  | PCOrigin => origin
  | PCStandard addr => Standard (address_principal addr)
  | PCContract addr name => Contract (mkQualifiedContract (address_principal addr) name)
  end.

(** What a condition asks for, of the amounts and values that moved *)
Definition holds (pc : TransactionPostCondition) : bool :=
  match pc with
  | PostSTX p code amount =>
      fungible_check code amount
        (default 0 (get_stx (principal_of p) am) + default 0 (get_stx_burned (principal_of p) am))
  | PostFungible p info code amount =>
      fungible_check code amount (default 0 (get_fungible_tokens (principal_of p) (asset_of info) am))
  | PostNonfungible p info value code =>
      nonfungible_check code value
        (default [] (get_nonfungible_tokens (principal_of p) (asset_of info) am))
  | PostStaking p code amount =>
      fungible_check code amount (default 0 (get_stacking (principal_of p) am))
  | PostPox p code => pox_check code (did_pox_action (principal_of p) am)
  end.

(** Which movements a condition speaks about *)
Definition covers_fungible (pc : TransactionPostCondition) (p : PrincipalData)
    (x : AssetIdentifier) : Prop :=
  match pc with
  | PostSTX q _ _ =>
      principal_of q = p /\
      ((x = AssetIdentifier_STX /\ 0 < default 0 (get_stx p am)) \/
       (x = AssetIdentifier_STX_burned /\ 0 < default 0 (get_stx_burned p am)))
  | PostFungible q info _ _ => principal_of q = p /\ asset_of info = x
  | _ => False
  end.

Definition covers_nft (pc : TransactionPostCondition) (p : PrincipalData)
    (x : AssetIdentifier) (covers : Value -> Prop) : Prop :=
  match pc with
  | PostNonfungible q info value _ => principal_of q = p /\ asset_of info = x /\ covers value
  | _ => False
  end.

Definition covers_staking (pc : TransactionPostCondition) (p : PrincipalData) : Prop :=
  match pc with PostStaking q _ _ => principal_of q = p | _ => False end.

Definition covers_pox (pc : TransactionPostCondition) (p : PrincipalData) : Prop :=
  match pc with PostPox q _ => principal_of q = p | _ => False end.

Definition entry_covered (pcs : list TransactionPostCondition) (p : PrincipalData)
    (x : AssetIdentifier) (entry : AssetMapEntry) : Prop :=
  match entry with
  | EntryAsset values =>
      Exists (fun pc => covers_nft pc p x (fun _ => True)) pcs /\
      Forall (fun v => Exists (fun pc => covers_nft pc p x (fun v' => value_eqb v' v = true)) pcs)
        values
  | _ => Exists (fun pc => covers_fungible pc p x) pcs
  end.

(** Whose movements must be declared *)
Definition must_declare (p : PrincipalData) : Prop :=
  match mode with Allow => False | Deny => True | Originator => p = origin end.

Definition accepted `{HashMapIter} (pcs : list TransactionPostCondition) : Prop :=
  Forall (fun pc => holds pc = true) pcs /\
  (forall p x entry, must_declare p -> lookup2 (to_table am) (p, x) = Some entry ->
     entry_covered pcs p x entry) /\
  (supports_staking_post_conditions epoch_id = true ->
     (forall p amount, must_declare p -> get_stacking p am = Some amount -> amount <> 0 ->
        Exists (fun pc => covers_staking pc p) pcs) /\
     (forall p, must_declare p -> did_pox_action p am = true ->
        Exists (fun pc => covers_pox pc p) pcs)).
End Spec.

(** ** Loops that check

    [decides m P u]: [m] either passes, when [P] holds of the collections, and
    updates them by [u], or returns a reason. *)

Definition decides (m : CheckM unit) (P : Checked -> bool) (u : Checked -> Checked) : Prop :=
  forall c, if P c then m c = (Ok tt, u c) else exists r c', m c = (Err (Return r), c').

Lemma decides_ret : decides (mret tt) (fun _ => true) id.
Proof. done. Qed.

Lemma decides_ensure b r : decides (ensure b (Return r)) (fun _ => b) id.
Proof. intros c. destruct b; [done | by eexists _, _]. Qed.

Lemma decides_throw r u : decides (throw (Return r)) (fun _ => false) u.
Proof. intros c. by eexists _, _. Qed.

Lemma decides_modify u : decides (modify u) (fun _ => true) u.
Proof. done. Qed.

Lemma decides_bind m k P Q u u' :
  decides m P u -> decides k Q u' ->
  decides (m;; k) (fun c => P c && Q (u c)) (fun c => u' (u c)).
Proof.
  intros Hm Hk c. specialize (Hm c). destruct (P c); cbn.
  - rewrite (M_bind_eval _ _ _ _ _ Hm). apply Hk.
  - destruct Hm as (r & c' & E). rewrite (M_bind_Err _ _ _ _ _ E). by eexists _, _.
Qed.

Lemma decides_get (k : Checked -> CheckM unit) P u :
  (forall c, decides (k c) (P c) u) -> decides (c ← get; k c) (fun c => P c c) u.
Proof. intros Hk c. exact (Hk c c). Qed.

Lemma decides_lift {A} (r : result Stop A) a (k : A -> CheckM unit) P u :
  r = Ok a -> decides (k a) P u -> decides (x ← lift r; k x) P u.
Proof. intros -> Hk c. apply Hk. Qed.

Lemma decides_same m P P' u : (forall c, P c = P' c) -> decides m P u -> decides m P' u.
Proof. intros HP Hm c. rewrite <- HP. apply Hm. Qed.

(** A loop whose iterations update the collections unconditionally *)
Lemma decides_loop {A} (body : A -> CheckM unit) (P : A -> bool) (u : A -> Checked -> Checked) l :
  Forall (fun x => decides (body x) (fun _ => P x) (u x)) l ->
  decides (for_each body l) (fun _ => forallb P l) (fun c => foldl (fun c x => u x c) c l).
Proof.
  induction 1 as [| x l Hx _ IH]; [apply decides_ret |]. cbn.
  exact (decides_bind _ _ _ _ _ _ Hx IH).
Qed.

(** A loop that only tests *)
Lemma decides_test {A} (body : A -> CheckM unit) (P : A -> Checked -> bool) l :
  Forall (fun x => decides (body x) (P x) id) l ->
  decides (for_each body l) (fun c => forallb (fun x => P x c) l) id.
Proof.
  induction 1 as [| x l Hx _ IH]; [apply decides_ret |]. cbn.
  exact (decides_bind _ _ _ _ _ _ Hx IH).
Qed.

(** ** The loop over the conditions *)

Section Conditions.
Context (origin : PrincipalData) (am : AssetMap).

(** What a condition that holds adds to the collections *)
Definition note (pc : TransactionPostCondition) (c : Checked) : Checked :=
  match pc with
  | PostSTX q _ _ =>
      let p := principal_of origin q in
      let ids := default ∅ (checked_fungible_assets c !! p) in
      let ids := if default 0 (get_stx p am) >? 0 then {[AssetIdentifier_STX]} ∪ ids else ids in
      let ids := if default 0 (get_stx_burned p am) >? 0
                 then {[AssetIdentifier_STX_burned]} ∪ ids else ids in
      set_checked_fungible (<[p := ids]> (checked_fungible_assets c)) c
  | PostFungible q info _ _ =>
      set_checked_fungible
        (entry_or_default ∅ (fun ids => {[asset_of info]} ∪ ids) (principal_of origin q)
           (checked_fungible_assets c)) c
  | PostNonfungible q info value _ =>
      set_checked_nonfungible
        (entry_or_default ∅ (entry_or_default [] (set_insert value) (asset_of info))
           (principal_of origin q) (checked_nonfungible_assets c)) c
  | PostStaking q _ _ =>
      set_checked_staking ({[principal_of origin q]} ∪ checked_staking c) c
  | PostPox q _ => set_checked_pox ({[principal_of origin q]} ∪ checked_pox c) c
  end.

Lemma spd_from_address_ok {E} addr :
  address_ok addr -> spd_from_address (E := E) addr = Ok (address_principal addr).
Proof.
  intros Ha. unfold spd_from_address, StandardPrincipalData_new.
  by rewrite (proj2 (Z.leb_gt _ _) Ha).
Qed.

Lemma to_principal_data_ok {E} p :
  principal_ok p -> to_principal_data (E := E) p origin = Ok (principal_of origin p).
Proof. destruct p; cbn; intros; [done | |]; by rewrite spd_from_address_ok. Qed.

Lemma asset_id_of_ok {E} info :
  address_ok (info_contract_address info) -> asset_id_of (E := E) info = Ok (asset_of info).
Proof. intros. unfold asset_id_of. by rewrite spd_from_address_ok. Qed.

Lemma decides_hashable v (k : Value -> CheckM unit) P u :
  sized v -> decides (k v) P u -> decides (x ← hashable v; k x) P u.
Proof.
  intros Hv Hk. unfold hashable. intros c. specialize (Hk c).
  assert (E : (_ ← lift (map_err SerError (serialize_to_vec v)); mret v : CheckM Value) c
              = (Ok v, c)) by (by rewrite (serialize_to_vec_bytes v Hv)).
  by rewrite (M_bind_eval _ _ _ _ _ E).
Qed.

Lemma decides_then_modify b r u :
  decides (ensure b (Return r);; modify u) (fun _ => b) u.
Proof.
  eapply decides_same; [| exact (decides_bind _ _ _ _ _ _ (decides_ensure b r) (decides_modify u))].
  intros c. apply andb_true_r.
Qed.

Lemma decides_postcondition pc :
  postcondition_ok pc -> moved_ok am ->
  decides (check_postcondition origin am pc) (fun _ => holds origin am pc) (note pc).
Proof.
  intros Hpc [Hsum _].
  destruct pc as [p code n | p info code n | p info v code | p code n | p code];
    cbn [check_postcondition holds note postcondition_ok] in *.
  - eapply decides_lift; [by apply to_principal_data_ok |]. cbv zeta.
    eapply decides_lift; [| apply decides_then_modify].
    apply expect_some_Ok, checked_Some. split; [done | apply Hsum].
  - destruct Hpc as [Hp Hi]. eapply decides_lift; [by apply to_principal_data_ok |].
    eapply decides_lift; [by apply asset_id_of_ok |]. apply decides_then_modify.
  - destruct Hpc as (Hp & Hi & Hv). eapply decides_lift; [by apply to_principal_data_ok |].
    eapply decides_lift; [by apply asset_id_of_ok |]. cbv zeta.
    eapply decides_same; [| eapply decides_bind; [apply decides_ensure |
      apply decides_hashable, decides_modify; done]].
    intros c. apply andb_true_r.
  - eapply decides_lift; [by apply to_principal_data_ok |]. apply decides_then_modify.
  - eapply decides_lift; [by apply to_principal_data_ok |]. apply decides_then_modify.
Qed.

(** ** What the collections contain *)

Definition fungible_checked (c : Checked) p x : Prop :=
  exists ids, checked_fungible_assets c !! p = Some ids /\ x ∈ ids.
Definition nft_known (c : Checked) p x : Prop :=
  is_Some (lookup2 (checked_nonfungible_assets c) (p, x)).
Definition nft_checked (c : Checked) p x v : Prop :=
  exists s, lookup2 (checked_nonfungible_assets c) (p, x) = Some s /\ set_contains s v = true.
Definition notes (pcs : list TransactionPostCondition) (c : Checked) : Checked :=
  foldl (fun c pc => note pc c) c pcs.

Lemma fungible_entry (m : gmap PrincipalData (gset AssetIdentifier)) p q x ids :
  (exists s, <[q := ids]> m !! p = Some s /\ x ∈ s) <->
  (q <> p /\ exists s, m !! p = Some s /\ x ∈ s) \/ (q = p /\ x ∈ ids).
Proof.
  destruct (decide (q = p)) as [-> | Hne].
  - rewrite lookup_insert_eq. naive_solver.
  - rewrite lookup_insert_ne by done. naive_solver.
Qed.

Lemma elem_of_default (m : gmap PrincipalData (gset AssetIdentifier)) p x :
  x ∈ default ∅ (m !! p) <-> exists s, m !! p = Some s /\ x ∈ s.
Proof. destruct (m !! p); cbn; [naive_solver |]. split; [set_solver | naive_solver]. Qed.

Lemma elem_of_add_if (b : bool) (y x : AssetIdentifier) (ids : gset AssetIdentifier) :
  x ∈ (if b then {[y]} ∪ ids else ids) <-> x ∈ ids \/ (b = true /\ x = y).
Proof. destruct b; set_solver. Qed.

Lemma note_fungible pc c p x :
  fungible_checked (note pc c) p x <-> fungible_checked c p x \/ covers_fungible origin am pc p x.
Proof.
  unfold fungible_checked. destruct pc as [q code n | q info code n | | |];
    cbn [note covers_fungible]; try (by cbn; tauto); unfold entry_or_default; cbn.
  - rewrite fungible_entry, !elem_of_add_if, elem_of_default, !Z.gtb_lt.
    destruct (decide (principal_of origin q = p)) as [-> |]; naive_solver.
  - rewrite fungible_entry, elem_of_union, elem_of_singleton, elem_of_default.
    destruct (decide (principal_of origin q = p)) as [-> |]; naive_solver.
Qed.

Lemma lookup2_entry (m : gmap PrincipalData (gmap AssetIdentifier (list Value))) f p q x y :
  lookup2 (entry_or_default ∅ (entry_or_default [] f y) q m) (p, x)
  = if decide ((q, y) = (p, x)) then Some (f (default [] (lookup2 m (p, x))))
    else lookup2 m (p, x).
Proof.
  unfold lookup2, entry_or_default. cbn. case_decide as E; simplify_eq.
  - rewrite lookup_insert_eq. cbn. rewrite lookup_insert_eq. by destruct (m !! p).
  - destruct (decide (q = p)) as [-> |]; [| by rewrite lookup_insert_ne].
    rewrite lookup_insert_eq. cbn. rewrite lookup_insert_ne by congruence.
    by destruct (m !! p); cbn; rewrite ?lookup_empty.
Qed.

Lemma set_contains_insert w s v :
  set_contains (set_insert w s) v = true <->
  set_contains s v = true \/ value_eqb w v = true.
Proof.
  unfold set_insert. destruct (set_contains s w) eqn:E; cbn.
  - split; [tauto |]. intros [? | Hw]; [done |]. unfold set_contains in *.
    apply existsb_exists in E as (x & Hin & Hx). apply existsb_exists.
    exists x. split; [done |]. by eapply value_eqb_trans.
  - rewrite orb_true_iff. tauto.
Qed.

Lemma note_nft_known pc c p x :
  nft_known (note pc c) p x <->
  nft_known c p x \/ covers_nft origin pc p x (fun _ => True).
Proof.
  unfold nft_known. destruct pc as [| | q info v code | |]; cbn [note covers_nft];
    try (by cbn; tauto). cbn. rewrite lookup2_entry. case_decide; simplify_eq.
  - split; [tauto | by eexists].
  - split; [tauto |]. intros [? | (? & ? & _)]; [done | congruence].
Qed.

Lemma note_nft_checked pc c p x v :
  nft_checked (note pc c) p x v <->
  nft_checked c p x v \/ covers_nft origin pc p x (fun v' => value_eqb v' v = true).
Proof.
  unfold nft_checked. destruct pc as [| | q info w code | |]; cbn [note covers_nft];
    try (by cbn; tauto). cbn. rewrite lookup2_entry. case_decide; simplify_eq.
  - transitivity (set_contains (set_insert w (default []
      (lookup2 (checked_nonfungible_assets c) (principal_of origin q, asset_of info)))) v = true);
      [naive_solver |].
    rewrite set_contains_insert. destruct (lookup2 _ _) as [s |]; cbn; naive_solver.
  - split; [tauto |]. intros [? | (? & ? & _)]; [done | congruence].
Qed.

Lemma note_staking pc c p :
  p ∈ checked_staking (note pc c) <-> p ∈ checked_staking c \/ covers_staking origin pc p.
Proof. destruct pc; cbn; set_solver. Qed.

Lemma note_pox pc c p :
  p ∈ checked_pox (note pc c) <-> p ∈ checked_pox c \/ covers_pox origin pc p.
Proof. destruct pc; cbn; set_solver. Qed.

(** A property of the collections that each condition may add *)
Lemma notes_spec (R : Checked -> Prop) (covers : TransactionPostCondition -> Prop) pcs c :
  (forall pc c, R (note pc c) <-> R c \/ covers pc) ->
  R (notes pcs c) <-> R c \/ Exists covers pcs.
Proof.
  intros HR. unfold notes. revert c. induction pcs as [| pc pcs IH]; intros c; cbn.
  - rewrite Exists_nil. tauto.
  - rewrite IH, HR, Exists_cons. tauto.
Qed.
End Conditions.

(** ** The loops over what moved *)

Section Moved.
Context `{HashMapIter}.
Context (mode : TransactionPostConditionMode) (origin : PrincipalData) (am : AssetMap)
  (epoch_id : StacksEpochId).

(** The test that [check_moved] makes *)
Definition entry_checked (p : PrincipalData) (e : AssetIdentifier * AssetMapEntry) (c : Checked)
    : bool :=
  match e.2 with
  | EntryAsset values =>
      match lookup2 (checked_nonfungible_assets c) (p, e.1) with
      | Some nfts => forallb (set_contains nfts) values
      | None => false
      end
  | _ =>
      match checked_fungible_assets c !! p with
      | Some ids => bool_decide (e.1 ∈ ids)
      | None => false
      end
  end.

Lemma decides_moved p e :
  (forall values, e.2 = EntryAsset values -> Forall sized values) ->
  decides (check_moved p e) (entry_checked p e) id.
Proof.
  intros Hv. destruct e as [x entry]. unfold check_moved, entry_checked, lookup2.
  apply (decides_get _ (fun c _ => entry_checked p (x, entry) c)). intros c.
  unfold entry_checked, lookup2. cbn.
  destruct entry as [a | a | a | values | a].
  4: { destruct (checked_nonfungible_assets c !! p) as [m |]; cbn; [| apply decides_throw].
       destruct (m !! x) as [nfts |]; [| apply decides_throw].
       apply (decides_test _ (fun v _ => set_contains nfts v)).
       eapply Forall_impl; [by apply Hv |]. intros v Hs. cbn.
       apply decides_hashable; [done | apply decides_ensure]. }
  all: destruct (checked_fungible_assets c !! p); [apply decides_ensure | apply decides_throw].
Qed.

Definition table_checked (c : Checked) : bool :=
  forallb (fun row =>
    negb (enforced mode origin row.1) || forallb (fun e => entry_checked row.1 e c) (iter row.2))
    (iter (to_table am)).

Lemma to_table_values p x assets values :
  moved_ok am -> to_table am !! p = Some assets -> (x, EntryAsset values) ∈ iter assets ->
  Forall sized values.
Proof.
  intros [_ Hv] Hp Hx%elem_of_iter.
  assert (lookup2 (to_table am) (p, x) = Some (EntryAsset values)) as E
    by (unfold lookup2; cbn; by rewrite Hp).
  rewrite to_table_lookup in E. destruct (get_nonfungible_tokens p x am) eqn:En.
  - injection E as ->. by eapply Hv.
  - repeat case_match; simplify_eq; by destruct (get_fungible_tokens _ _ am).
Qed.

Lemma decides_table :
  moved_ok am ->
  decides (for_each (fun '(principal, assets) =>
    if negb (enforced mode origin principal) then mret tt
    else for_each (check_moved principal) (iter assets)) (iter (to_table am))) table_checked id.
Proof.
  intros Hok. apply (decides_test _ (fun row c =>
    negb (enforced mode origin row.1) || forallb (fun e => entry_checked row.1 e c) (iter row.2))).
  apply Forall_forall. intros [p assets] Hin%elem_of_iter.
  cbn [fst snd]. destruct (enforced mode origin p); cbn; [| apply decides_ret].
  apply decides_test. apply Forall_forall. intros [x entry] He. apply decides_moved.
  cbn. intros values ->. by eapply to_table_values.
Qed.

Definition staking_checked (c : Checked) : bool :=
  forallb (fun e =>
    (e.2 =? 0) || negb (enforced mode origin e.1) || bool_decide (e.1 ∈ checked_staking c))
    (iter (get_all_stacking am)) &&
  forallb (fun e =>
    negb (enforced mode origin e.1) || bool_decide (e.1 ∈ checked_pox c))
    (iter (gset_to_gmap tt (get_all_pox_actions am))).

Lemma decides_check_all pcs :
  Forall postcondition_ok pcs -> moved_ok am ->
  decides (check_all mode origin am epoch_id pcs)
    (fun c => forallb (holds origin am) pcs &&
      (table_checked (notes origin am pcs c) &&
       (negb (supports_staking_post_conditions epoch_id)
        || staking_checked (notes origin am pcs c))))
    (notes origin am pcs).
Proof.
  intros Hpcs Hok. unfold check_all.
  apply (decides_bind _ _ (fun _ => forallb (holds origin am) pcs)
           (fun c => table_checked c && (negb (supports_staking_post_conditions epoch_id)
                                         || staking_checked c)) _ id).
  { apply decides_loop. eapply Forall_impl; [done |]. intros pc Hpc.
    by apply decides_postcondition. }
  apply (decides_bind _ _ table_checked (fun c => negb (supports_staking_post_conditions epoch_id)
           || staking_checked c) id id); [by apply decides_table |].
  destruct (supports_staking_post_conditions epoch_id); cbn; [| apply decides_ret].
  apply (decides_get _ (fun c _ => staking_checked c)). intros c.
  unfold staking_checked.
  eapply decides_same; [intros c'; symmetry; reflexivity |].
  apply (decides_bind _ _ (fun _ => forallb _ _) (fun _ => forallb _ _) id id).
  - apply (decides_test _ (fun e _ => (e.2 =? 0) || negb (enforced mode origin e.1)
      || bool_decide (e.1 ∈ checked_staking c))). apply Forall_forall. intros [p amount] _.
    cbn [fst snd]. destruct (amount =? 0), (enforced mode origin p); cbn; try apply decides_ret.
    apply decides_ensure.
  - apply (decides_test _ (fun e _ => negb (enforced mode origin e.1)
      || bool_decide (e.1 ∈ checked_pox c))). apply Forall_forall. intros [p ?] _.
    cbn [fst snd]. destruct (enforced mode origin p); cbn; [apply decides_ensure | apply decides_ret].
Qed.
End Moved.

Section Acceptance.
Context `{HashMapIter}.
Context (mode : TransactionPostConditionMode) (origin : PrincipalData) (am : AssetMap)
  (epoch_id : StacksEpochId) (pcs : list TransactionPostCondition).

Abbreviation final := (notes origin am pcs (mkChecked ∅ ∅ ∅ ∅)).

Lemma enforced_iff p : enforced mode origin p = true <-> must_declare mode origin p.
Proof.
  unfold enforced. destruct mode; cbn; [done | done |]. by rewrite bool_decide_eq_true.
Qed.

Lemma implb_spec b (P : Prop) (c : bool) :
  (b = true <-> P) -> (negb b || c = true <-> (P -> c = true)).
Proof. intros Hb. destruct b; cbn; naive_solver. Qed.

Lemma final_fungible p x :
  (match checked_fungible_assets final !! p with
   | Some ids => bool_decide (x ∈ ids)
   | None => false
   end = true) <-> Exists (fun pc => covers_fungible origin am pc p x) pcs.
Proof.
  transitivity (fungible_checked final p x).
  - unfold fungible_checked. destruct (checked_fungible_assets final !! p) as [ids |].
    + rewrite bool_decide_eq_true. naive_solver.
    + naive_solver.
  - rewrite (notes_spec origin am (fun c => fungible_checked c p x)
               (fun pc => covers_fungible origin am pc p x))
      by (intros; apply note_fungible).
    split; [| by right]. intros [(ids & Hids & _) |]; [| done]. discriminate Hids.
Qed.

Lemma final_nft p x values :
  (match lookup2 (checked_nonfungible_assets final) (p, x) with
   | Some nfts => forallb (set_contains nfts) values
   | None => false
   end = true) <-> entry_covered origin am pcs p x (EntryAsset values).
Proof.
  cbn. transitivity (nft_known final p x /\ Forall (nft_checked final p x) values).
  - unfold nft_known, nft_checked.
    destruct (lookup2 (checked_nonfungible_assets final) (p, x)) as [nfts |].
    + rewrite forallb_True_iff_Forall. split; [intros Hf; split; [by eexists |] | intros [_ Hf]];
        (eapply Forall_impl; [exact Hf |]); naive_solver.
    + split; [done |]. by intros [[? ?] _].
  - rewrite (notes_spec origin am (fun c => nft_known c p x)
               (fun pc => covers_nft origin pc p x (fun _ => True)))
      by (intros; apply note_nft_known).
    assert (forall v, nft_checked final p x v <->
      Exists (fun pc => covers_nft origin pc p x (fun v' => value_eqb v' v = true)) pcs) as Hv.
    { intros v. rewrite (notes_spec origin am (fun c => nft_checked c p x v)
               (fun pc => covers_nft origin pc p x (fun v' => value_eqb v' v = true)))
        by (intros; apply note_nft_checked).
      split; [| by right]. by intros [(? & ? & _) |]. }
    rewrite (Forall_iff _ values _ Hv). split; [| tauto]. intros [[[? ?] | ?] ?]; [done | tauto].
Qed.

Lemma table_checked_iff :
  table_checked mode origin am final = true <->
  (forall p x entry, must_declare mode origin p -> lookup2 (to_table am) (p, x) = Some entry ->
     entry_covered origin am pcs p x entry).
Proof.
  unfold table_checked. rewrite forallb_forall.
  assert (forall p x entry, entry_checked p (x, entry) final = true <->
    entry_covered origin am pcs p x entry) as He.
  { intros p x entry. unfold entry_checked. cbn [fst snd].
    destruct entry; [apply final_fungible .. | apply final_nft | apply final_fungible]. }
  split.
  - intros Hall p x entry Hp (assets & Ht & Hx)%bind_Some. cbn in Ht, Hx.
    specialize (Hall (p, assets)). cbn in Hall.
    rewrite (implb_spec _ _ _ (enforced_iff p)), forallb_forall in Hall.
    apply He. apply Hall; [by apply list_elem_of_In, elem_of_iter | done |].
    by apply list_elem_of_In, elem_of_iter.
  - intros Hall [p assets] Hin%list_elem_of_In%elem_of_iter. cbn.
    rewrite (implb_spec _ _ _ (enforced_iff p)), forallb_forall.
    intros Hp [x entry] Hx%list_elem_of_In%elem_of_iter. apply He. apply Hall; [done |].
    unfold lookup2. cbn. by rewrite Hin.
Qed.

Lemma staking_checked_iff :
  staking_checked mode origin am final = true <->
  (forall p amount, must_declare mode origin p -> get_stacking p am = Some amount -> amount <> 0 ->
     Exists (fun pc => covers_staking origin pc p) pcs) /\
  (forall p, must_declare mode origin p -> did_pox_action p am = true ->
     Exists (fun pc => covers_pox origin pc p) pcs).
Proof.
  assert (forall p, p ∈ checked_staking final <-> Exists (fun pc => covers_staking origin pc p) pcs)
    as Hs.
  { intros p. rewrite (notes_spec origin am (fun c => p ∈ checked_staking c)
      (fun pc => covers_staking origin pc p)) by (intros; apply note_staking). set_solver. }
  assert (forall p, p ∈ checked_pox final <-> Exists (fun pc => covers_pox origin pc p) pcs) as Hx.
  { intros p. rewrite (notes_spec origin am (fun c => p ∈ checked_pox c)
      (fun pc => covers_pox origin pc p)) by (intros; apply note_pox). set_solver. }
  unfold staking_checked. rewrite andb_true_iff, !forallb_forall. f_equiv.
  - split.
    + intros Hall p amount Hp Hg Hne. specialize (Hall (p, amount)). cbn in Hall.
      rewrite (proj2 (Z.eqb_neq amount 0) Hne) in Hall. cbn in Hall.
      rewrite (implb_spec _ _ _ (enforced_iff p)), bool_decide_eq_true, Hs in Hall.
      apply Hall; [by apply list_elem_of_In, elem_of_iter | done].
    + intros Hall [p amount] Hin%list_elem_of_In%elem_of_iter. cbn.
      destruct (Z.eqb_spec amount 0) as [| Hne]; [done |]. cbn.
      rewrite (implb_spec _ _ _ (enforced_iff p)), bool_decide_eq_true, Hs.
      intros Hp. by eapply Hall.
  - unfold did_pox_action, get_all_pox_actions. split.
    + intros Hall p Hp Hd%bool_decide_eq_true. specialize (Hall (p, tt)). cbn in Hall.
      rewrite (implb_spec _ _ _ (enforced_iff p)), bool_decide_eq_true, Hx in Hall.
      apply Hall; [| done]. apply list_elem_of_In, elem_of_iter.
      by apply lookup_gset_to_gmap_Some.
    + intros Hall [p []] Hin%list_elem_of_In%elem_of_iter. cbn.
      apply lookup_gset_to_gmap_Some in Hin as [Hin _].
      rewrite (implb_spec _ _ _ (enforced_iff p)), bool_decide_eq_true, Hx.
      intros Hp. apply Hall; [done |]. by apply bool_decide_eq_true.
Qed.

(** C6: The post-condition check decides exactly the rule it stands for, in
    whatever order hash maps are enumerated. On valid addresses, writable
    values and amounts whose sum fits u128 it always gives a verdict, and the
    verdict is "pass" exactly when every declared condition holds of what moved
    and, for every principal the mode covers (all in Deny, the origin in
    Originator, none in Allow), each asset moved, each value of a moved
    non-fungible asset and, from Epoch 4.0 on, each non-zero staking and each
    PoX action is covered by a condition that names it. *)
Theorem postconditions_accept_iff :
  Forall postcondition_ok pcs -> moved_ok am ->
  exists verdict,
    check_transaction_postconditions mode origin am epoch_id pcs = Ok verdict /\
    (verdict = None <-> accepted mode origin am epoch_id pcs).
Proof.
  intros Hpcs Hok. unfold check_transaction_postconditions.
  pose proof (decides_check_all mode origin am epoch_id pcs Hpcs Hok (mkChecked ∅ ∅ ∅ ∅)) as Hd.
  match type of Hd with if ?b then _ else _ =>
    assert (accepted mode origin am epoch_id pcs <-> b = true) as Hiff; [| destruct b]
  end.
  { unfold accepted. rewrite <- table_checked_iff, <- staking_checked_iff.
    rewrite <- (forallb_True_iff_Forall (holds origin am)).
    rewrite <- (implb_spec (supports_staking_post_conditions epoch_id) _ _ (iff_refl _)).
    by rewrite <- !andb_true_iff. }
  - exists None. rewrite Hd. by rewrite Hiff.
  - destruct Hd as (r & c' & E). exists (Some r). rewrite E. by rewrite Hiff.
Qed.
End Acceptance.

(** ** Support by epoch *)

Definition pc_supported (e : StacksEpochId) (pc : TransactionPostCondition) : Prop :=
  match pc with
  | PostNonfungible _ _ _ MaybeSent => supports_sip040_post_conditions e = true
  | PostStaking _ _ _ | PostPox _ _ => supports_staking_post_conditions e = true
  | _ => True
  end.

Lemma existsb_false_Forall {A} (f : A -> bool) l :
  existsb f l = false <-> Forall (fun x => f x = false) l.
Proof.
  induction l as [| x l IH]; cbn; [by split |].
  rewrite orb_false_iff, IH, Forall_cons. done.
Qed.

Lemma supported_iff pcs mode e :
  check_post_conditions_supported_in_epoch pcs mode e = Ok tt <->
  (mode = Originator -> supports_sip040_post_conditions e = true) /\
  Forall (pc_supported e) pcs.
Proof.
  unfold check_post_conditions_supported_in_epoch, pc_supported.
  assert (supports_staking_post_conditions e = true -> supports_sip040_post_conditions e = true)
    by (by destruct e).
  assert (existsb is_maybe_sent pcs = false <-> Forall (fun pc => is_maybe_sent pc = false) pcs)
    as Hnft by apply existsb_false_Forall.
  assert (existsb is_staking_or_pox pcs = false <->
    Forall (fun pc => is_staking_or_pox pc = false) pcs) as Hstk by apply existsb_false_Forall.
  assert (Forall (fun pc => match pc with
      | PostNonfungible _ _ _ MaybeSent => supports_sip040_post_conditions e = true
      | PostStaking _ _ _ | PostPox _ _ => supports_staking_post_conditions e = true
      | _ => True end) pcs <->
    Forall (fun pc => is_maybe_sent pc = false \/ supports_sip040_post_conditions e = true) pcs /\
    Forall (fun pc => is_staking_or_pox pc = false \/ supports_staking_post_conditions e = true) pcs)
    as ->.
  { rewrite <- Forall_and. apply Forall_iff. intros [| | ? ? ? [] | |]; cbn; naive_solver. }
  assert (forall f b, Forall (fun pc : TransactionPostCondition => f pc = false \/ b = true) pcs <->
    (b = true \/ Forall (fun pc => f pc = false) pcs)) as Hor.
  { intros f []; [split; [by left | intros _; apply Forall_true; by right] |].
    split; [intros Hf; right | intros [| Hf]; [done |]]; (eapply Forall_impl; [exact Hf |]);
      naive_solver. }
  rewrite !Hor, <- Hnft, <- Hstk. clear.
  destruct (supports_sip040_post_conditions e), (supports_staking_post_conditions e), mode,
    (existsb is_maybe_sent pcs), (existsb is_staking_or_pox pcs); cbn; naive_solver.
Qed.

Lemma supported_later e e' pc :
  epoch_leb e e' = true -> pc_supported e pc -> pc_supported e' pc.
Proof.
  intros Hle. unfold pc_supported, supports_sip040_post_conditions,
    supports_staking_post_conditions.
  destruct pc as [| | ? ? ? [] | |]; try done; intros; by eapply epoch_leb_trans.
Qed.

(** A transaction's conditions are supported by an epoch exactly when they
    use nothing that is activated later: before 3.4 neither the Originator mode
    nor MaybeSent, before 4.0 neither staking nor PoX conditions. What one
    epoch supports all later ones support. *)
Theorem supported_postconditions_monotone pcs mode e e' :
  (check_post_conditions_supported_in_epoch pcs mode e = Ok tt <->
     (mode = Originator -> supports_sip040_post_conditions e = true) /\
     Forall (pc_supported e) pcs) /\
  (epoch_leb e e' = true -> check_post_conditions_supported_in_epoch pcs mode e = Ok tt ->
     check_post_conditions_supported_in_epoch pcs mode e' = Ok tt).
Proof.
  rewrite !supported_iff. split; [done |]. intros Hle [Hm Hf]. split.
  - intros Ho. specialize (Hm Ho). unfold supports_sip040_post_conditions in *.
    by eapply epoch_leb_trans.
  - eapply Forall_impl; [exact Hf |]. intros pc. by apply supported_later.
Qed.

(** ** Concrete instances *)

Definition sample_postconditions : list TransactionPostCondition :=
  [PostSTX PCOrigin SentLe 8;
   PostFungible PCOrigin (mkAssetInfo (mkStacksAddress 1 (replicate 20 1)) "token" "tok") SentEq 7;
   PostNonfungible PCOrigin (mkAssetInfo (mkStacksAddress 1 (replicate 20 1)) "token" "tok")
     (UInt 1) Sent;
   PostStaking PCOrigin SentLe 9; PostPox PCOrigin MaybePerformed].

Lemma sample_moved_ok : moved_ok (mkAssetMap {[sample_alice := 5]} ∅ ∅
    {[sample_alice := {[sample_token := [UInt 1]]}]} ∅ ∅).
Proof.
  split.
  - intros p. unfold get_stx, get_stx_burned. cbn [stx_map burn_map]. rewrite lookup_empty.
    destruct (decide (sample_alice = p)) as [<- |];
      [rewrite lookup_singleton_eq | rewrite lookup_singleton_ne by done]; by vm_compute.
  - intros p x values (m & Hm & Hx)%bind_Some. cbn [asset_map] in Hm.
    apply lookup_singleton_Some in Hm as [_ <-]. apply lookup_singleton_Some in Hx as [_ <-].
    by repeat constructor.
Qed.

Lemma postconditions_accept_iff_witness :
  exists verdict,
    @check_transaction_postconditions canonical_iter Deny sample_alice
      (mkAssetMap {[sample_alice := 5]} ∅ ∅
         {[sample_alice := {[sample_token := [UInt 1]]}]} ∅ ∅) Epoch40 sample_postconditions
    = Ok verdict /\
    (verdict = None <-> @accepted Deny sample_alice
      (mkAssetMap {[sample_alice := 5]} ∅ ∅
         {[sample_alice := {[sample_token := [UInt 1]]}]} ∅ ∅) Epoch40 canonical_iter
      sample_postconditions).
Proof.
  apply (@postconditions_accept_iff canonical_iter).
  - repeat constructor; vm_compute; reflexivity.
  - exact sample_moved_ok.
Defined.
