(* ===== verification/CostTables.v ===== *)
(** * Cost functions of the Clarity operations

    [clarity/src/vm/costs/cost_functions.rs] and the five tables
    [costs_1.rs] to [costs_5.rs] (with the testnet variant of the second):
    what each operation costs as a function of one input size. The trait
    [CostValues] is a record with a field per method, an implementation of it
    is a value of that record, and [eval] selects the method of a
    [ClarityCostFunction]. The tables are rows of constants over four shapes:
    a constant, [linear], [logn] and [nlogn], all saturating at [u64::MAX]. *)

From S2P Require Import Prelude.
From S2P Require Import Epochs.
From S2P Require Import Values.

(** ** Helpers *)

(** [ExecutionCost::runtime] *)
Definition cost_runtime (runtime : Z) : ExecutionCost :=
  {| write_length := 0; write_count := 0; read_length := 0; read_count := 0;
     runtime := runtime |}.

Definition linear (n a b : Z) : Z := u64_saturating_add (u64_saturating_mul a n) b.

Definition log2_error : VmExecutionError :=
  Runtime (RE_Arithmetic "log2 must be passed a positive integer") (Some []).

(** [64 - 1 - n.leading_zeros()] for a positive [u64] *)
Definition floor_log2 (n : Z) : Z := Z.log2 n.

Definition logn (n a b : Z) : result VmExecutionError Z :=
  if n <? 1 then Err log2_error
  else Ok (u64_saturating_add (u64_saturating_mul a (floor_log2 n)) b).

Definition nlogn (n a b : Z) : result VmExecutionError Z :=
  if n <? 1 then Err log2_error
  else Ok (u64_saturating_add (u64_saturating_mul a (u64_saturating_mul (floor_log2 n) n)) b).

(** [Err(RuntimeError::NotImplemented.into())] *)
Definition not_implemented : result VmExecutionError ExecutionCost :=
  Err (vm_from_runtime RE_NotImplemented).

(** ** The functions *)

Module ClarityCostFunction.
Inductive t :=
| AnalysisTypeAnnotate | AnalysisTypeCheck | AnalysisTypeLookup | AnalysisVisit
| AnalysisIterableFunc | AnalysisOptionCons | AnalysisOptionCheck | AnalysisBindName
| AnalysisListItemsCheck | AnalysisCheckTupleGet | AnalysisCheckTupleMerge
| AnalysisCheckTupleCons | AnalysisTupleItemsCheck | AnalysisCheckLet | AnalysisLookupFunction
| AnalysisLookupFunctionTypes | AnalysisLookupVariableConst | AnalysisLookupVariableDepth
| AstParse | AstCycleDetection | AnalysisStorage | AnalysisUseTraitEntry
| AnalysisGetFunctionEntry | AnalysisFetchContractEntry | LookupVariableDepth
| LookupVariableSize | LookupFunction | BindName | InnerTypeCheckCost | UserFunctionApplication
| Let | If | Asserts | Map | Filter | Len | ElementAt | IndexOf | Fold | ListCons
| TypeParseStep | TupleGet | TupleMerge | TupleCons | Add | Sub | Mul | Div | Geq | Leq | Le
| Ge | IntCast | Mod | Pow | Sqrti | Log2 | Xor | Not | Eq | Begin | Hash160 | Sha256 | Sha512
| Sha512t256 | Keccak256 | Secp256k1recover | Secp256k1verify | Print | SomeCons | OkCons
| ErrCons | DefaultTo | UnwrapRet | UnwrapErrOrRet | IsOkay | IsNone | IsErr | IsSome | Unwrap
| UnwrapErr | TryRet | Match | Or | And | Append | Concat | AsMaxLen | ContractCall
| ContractOf | PrincipalOf | AtBlock | LoadContract | CreateMap | CreateVar | CreateNft
| CreateFt | FetchEntry | SetEntry | FetchVar | SetVar | ContractStorage | BlockInfo
| StxBalance | StxTransfer | FtMint | FtTransfer | FtBalance | FtSupply | FtBurn | NftMint
| NftTransfer | NftOwner | NftBurn | PoisonMicroblock | BuffToIntLe | BuffToUIntLe
| BuffToIntBe | BuffToUIntBe | IsStandard | PrincipalDestruct | PrincipalConstruct
| StringToInt | StringToUInt | IntToAscii | IntToUtf8 | GetBurnBlockInfo | StxGetAccount
| Slice | ToConsensusBuff | FromConsensusBuff | StxTransferMemo | ReplaceAt | AsContract
| BitwiseAnd | BitwiseOr | BitwiseNot | BitwiseLShift | BitwiseRShift | ContractHash | ToAscii
| RestrictAssets | AsContractSafe | Secp256r1verify | VerifyMerkleProof | GetBitcoinTxOutput
| Ed25519verify | Secp256k1decompress | Unimplemented.

(** [get_name] *)
Definition cost_name (v : t) : string :=
  match v with
  | AnalysisTypeAnnotate => "cost_analysis_type_annotate"
  | AnalysisTypeCheck => "cost_analysis_type_check"
  | AnalysisTypeLookup => "cost_analysis_type_lookup" | AnalysisVisit => "cost_analysis_visit"
  | AnalysisIterableFunc => "cost_analysis_iterable_func"
  | AnalysisOptionCons => "cost_analysis_option_cons"
  | AnalysisOptionCheck => "cost_analysis_option_check"
  | AnalysisBindName => "cost_analysis_bind_name"
  | AnalysisListItemsCheck => "cost_analysis_list_items_check"
  | AnalysisCheckTupleGet => "cost_analysis_check_tuple_get"
  | AnalysisCheckTupleMerge => "cost_analysis_check_tuple_merge"
  | AnalysisCheckTupleCons => "cost_analysis_check_tuple_cons"
  | AnalysisTupleItemsCheck => "cost_analysis_tuple_items_check"
  | AnalysisCheckLet => "cost_analysis_check_let"
  | AnalysisLookupFunction => "cost_analysis_lookup_function"
  | AnalysisLookupFunctionTypes => "cost_analysis_lookup_function_types"
  | AnalysisLookupVariableConst => "cost_analysis_lookup_variable_const"
  | AnalysisLookupVariableDepth => "cost_analysis_lookup_variable_depth"
  | AstParse => "cost_ast_parse" | AstCycleDetection => "cost_ast_cycle_detection"
  | AnalysisStorage => "cost_analysis_storage"
  | AnalysisUseTraitEntry => "cost_analysis_use_trait_entry"
  | AnalysisGetFunctionEntry => "cost_analysis_get_function_entry"
  | AnalysisFetchContractEntry => "cost_analysis_fetch_contract_entry"
  | LookupVariableDepth => "cost_lookup_variable_depth"
  | LookupVariableSize => "cost_lookup_variable_size"
  | LookupFunction => "cost_lookup_function" | BindName => "cost_bind_name"
  | InnerTypeCheckCost => "cost_inner_type_check_cost"
  | UserFunctionApplication => "cost_user_function_application" | Let => "cost_let"
  | If => "cost_if" | Asserts => "cost_asserts" | Map => "cost_map" | Filter => "cost_filter"
  | Len => "cost_len" | ElementAt => "cost_element_at" | IndexOf => "cost_index_of"
  | Fold => "cost_fold" | ListCons => "cost_list_cons"
  | TypeParseStep => "cost_type_parse_step" | TupleGet => "cost_tuple_get"
  | TupleMerge => "cost_tuple_merge" | TupleCons => "cost_tuple_cons" | Add => "cost_add"
  | Sub => "cost_sub" | Mul => "cost_mul" | Div => "cost_div" | Geq => "cost_geq"
  | Leq => "cost_leq" | Le => "cost_le" | Ge => "cost_ge" | IntCast => "cost_int_cast"
  | Mod => "cost_mod" | Pow => "cost_pow" | Sqrti => "cost_sqrti" | Log2 => "cost_log2"
  | Xor => "cost_xor" | Not => "cost_not" | Eq => "cost_eq" | Begin => "cost_begin"
  | Hash160 => "cost_hash160" | Sha256 => "cost_sha256" | Sha512 => "cost_sha512"
  | Sha512t256 => "cost_sha512t256" | Keccak256 => "cost_keccak256"
  | Secp256k1recover => "cost_secp256k1recover" | Secp256k1verify => "cost_secp256k1verify"
  | Print => "cost_print" | SomeCons => "cost_some_cons" | OkCons => "cost_ok_cons"
  | ErrCons => "cost_err_cons" | DefaultTo => "cost_default_to"
  | UnwrapRet => "cost_unwrap_ret" | UnwrapErrOrRet => "cost_unwrap_err_or_ret"
  | IsOkay => "cost_is_okay" | IsNone => "cost_is_none" | IsErr => "cost_is_err"
  | IsSome => "cost_is_some" | Unwrap => "cost_unwrap" | UnwrapErr => "cost_unwrap_err"
  | TryRet => "cost_try_ret" | Match => "cost_match" | Or => "cost_or" | And => "cost_and"
  | Append => "cost_append" | Concat => "cost_concat" | AsMaxLen => "cost_as_max_len"
  | ContractCall => "cost_contract_call" | ContractOf => "cost_contract_of"
  | PrincipalOf => "cost_principal_of" | AtBlock => "cost_at_block"
  | LoadContract => "cost_load_contract" | CreateMap => "cost_create_map"
  | CreateVar => "cost_create_var" | CreateNft => "cost_create_nft"
  | CreateFt => "cost_create_ft" | FetchEntry => "cost_fetch_entry"
  | SetEntry => "cost_set_entry" | FetchVar => "cost_fetch_var" | SetVar => "cost_set_var"
  | ContractStorage => "cost_contract_storage" | BlockInfo => "cost_block_info"
  | StxBalance => "cost_stx_balance" | StxTransfer => "cost_stx_transfer"
  | FtMint => "cost_ft_mint" | FtTransfer => "cost_ft_transfer"
  | FtBalance => "cost_ft_balance" | FtSupply => "cost_ft_get_supply"
  | FtBurn => "cost_ft_burn" | NftMint => "cost_nft_mint" | NftTransfer => "cost_nft_transfer"
  | NftOwner => "cost_nft_owner" | NftBurn => "cost_nft_burn"
  | PoisonMicroblock => "poison_microblock" | BuffToIntLe => "cost_buff_to_int_le"
  | BuffToUIntLe => "cost_buff_to_uint_le" | BuffToIntBe => "cost_buff_to_int_be"
  | BuffToUIntBe => "cost_buff_to_uint_be" | IsStandard => "cost_is_standard"
  | PrincipalDestruct => "cost_principal_destruct"
  | PrincipalConstruct => "cost_principal_construct" | StringToInt => "cost_string_to_int"
  | StringToUInt => "cost_string_to_uint" | IntToAscii => "cost_int_to_ascii"
  | IntToUtf8 => "cost_int_to_utf8" | GetBurnBlockInfo => "cost_burn_block_info"
  | StxGetAccount => "cost_stx_account" | Slice => "cost_slice"
  | ToConsensusBuff => "cost_to_consensus_buff"
  | FromConsensusBuff => "cost_from_consensus_buff"
  | StxTransferMemo => "cost_stx_transfer_memo" | ReplaceAt => "cost_replace_at"
  | AsContract => "cost_as_contract" | BitwiseAnd => "cost_bitwise_and"
  | BitwiseOr => "cost_bitwise_or" | BitwiseNot => "cost_bitwise_not"
  | BitwiseLShift => "cost_bitwise_left_shift" | BitwiseRShift => "cost_bitwise_right_shift"
  | ContractHash => "cost_contract_hash" | ToAscii => "cost_to_ascii"
  | RestrictAssets => "cost_restrict_assets" | AsContractSafe => "cost_as_contract_safe"
  | Secp256r1verify => "cost_secp256r1verify" | VerifyMerkleProof => "cost_verify_merkle_proof"
  | GetBitcoinTxOutput => "cost_get_bitcoin_tx_output" | Ed25519verify => "cost_ed25519verify"
  | Secp256k1decompress => "cost_secp256k1decompress" | Unimplemented => "cost_unimplemented"
  end.

Definition ALL : list t :=
  [AnalysisTypeAnnotate; AnalysisTypeCheck; AnalysisTypeLookup; AnalysisVisit;
   AnalysisIterableFunc; AnalysisOptionCons; AnalysisOptionCheck; AnalysisBindName;
   AnalysisListItemsCheck; AnalysisCheckTupleGet; AnalysisCheckTupleMerge;
   AnalysisCheckTupleCons; AnalysisTupleItemsCheck; AnalysisCheckLet; AnalysisLookupFunction;
   AnalysisLookupFunctionTypes; AnalysisLookupVariableConst; AnalysisLookupVariableDepth;
   AstParse; AstCycleDetection; AnalysisStorage; AnalysisUseTraitEntry;
   AnalysisGetFunctionEntry; AnalysisFetchContractEntry; LookupVariableDepth;
   LookupVariableSize; LookupFunction; BindName; InnerTypeCheckCost; UserFunctionApplication;
   Let; If; Asserts; Map; Filter; Len; ElementAt; IndexOf; Fold; ListCons; TypeParseStep;
   TupleGet; TupleMerge; TupleCons; Add; Sub; Mul; Div; Geq; Leq; Le; Ge; IntCast; Mod; Pow;
   Sqrti; Log2; Xor; Not; Eq; Begin; Hash160; Sha256; Sha512; Sha512t256; Keccak256;
   Secp256k1recover; Secp256k1verify; Print; SomeCons; OkCons; ErrCons; DefaultTo; UnwrapRet;
   UnwrapErrOrRet; IsOkay; IsNone; IsErr; IsSome; Unwrap; UnwrapErr; TryRet; Match; Or; And;
   Append; Concat; AsMaxLen; ContractCall; ContractOf; PrincipalOf; AtBlock; LoadContract;
   CreateMap; CreateVar; CreateNft; CreateFt; FetchEntry; SetEntry; FetchVar; SetVar;
   ContractStorage; BlockInfo; StxBalance; StxTransfer; FtMint; FtTransfer; FtBalance;
   FtSupply; FtBurn; NftMint; NftTransfer; NftOwner; NftBurn; PoisonMicroblock; BuffToIntLe;
   BuffToUIntLe; BuffToIntBe; BuffToUIntBe; IsStandard; PrincipalDestruct;
   PrincipalConstruct; StringToInt; StringToUInt; IntToAscii; IntToUtf8; GetBurnBlockInfo;
   StxGetAccount; Slice; ToConsensusBuff; FromConsensusBuff; StxTransferMemo; ReplaceAt;
   AsContract; BitwiseAnd; BitwiseOr; BitwiseNot; BitwiseLShift; BitwiseRShift; ContractHash;
   ToAscii; RestrictAssets; AsContractSafe; Secp256r1verify; VerifyMerkleProof;
   GetBitcoinTxOutput; Ed25519verify; Secp256k1decompress; Unimplemented].
End ClarityCostFunction.

(** The trait *)
Record CostValues := mkCostValues {
  cost_analysis_type_annotate : Z -> result VmExecutionError ExecutionCost;
  cost_analysis_type_check : Z -> result VmExecutionError ExecutionCost;
  cost_analysis_type_lookup : Z -> result VmExecutionError ExecutionCost;
  cost_analysis_visit : Z -> result VmExecutionError ExecutionCost;
  cost_analysis_iterable_func : Z -> result VmExecutionError ExecutionCost;
  cost_analysis_option_cons : Z -> result VmExecutionError ExecutionCost;
  cost_analysis_option_check : Z -> result VmExecutionError ExecutionCost;
  cost_analysis_bind_name : Z -> result VmExecutionError ExecutionCost;
  cost_analysis_list_items_check : Z -> result VmExecutionError ExecutionCost;
  cost_analysis_check_tuple_get : Z -> result VmExecutionError ExecutionCost;
  cost_analysis_check_tuple_merge : Z -> result VmExecutionError ExecutionCost;
  cost_analysis_check_tuple_cons : Z -> result VmExecutionError ExecutionCost;
  cost_analysis_tuple_items_check : Z -> result VmExecutionError ExecutionCost;
  cost_analysis_check_let : Z -> result VmExecutionError ExecutionCost;
  cost_analysis_lookup_function : Z -> result VmExecutionError ExecutionCost;
  cost_analysis_lookup_function_types : Z -> result VmExecutionError ExecutionCost;
  cost_analysis_lookup_variable_const : Z -> result VmExecutionError ExecutionCost;
  cost_analysis_lookup_variable_depth : Z -> result VmExecutionError ExecutionCost;
  cost_ast_parse : Z -> result VmExecutionError ExecutionCost;
  cost_ast_cycle_detection : Z -> result VmExecutionError ExecutionCost;
  cost_analysis_storage : Z -> result VmExecutionError ExecutionCost;
  cost_analysis_use_trait_entry : Z -> result VmExecutionError ExecutionCost;
  cost_analysis_get_function_entry : Z -> result VmExecutionError ExecutionCost;
  cost_analysis_fetch_contract_entry : Z -> result VmExecutionError ExecutionCost;
  cost_lookup_variable_depth : Z -> result VmExecutionError ExecutionCost;
  cost_lookup_variable_size : Z -> result VmExecutionError ExecutionCost;
  cost_lookup_function : Z -> result VmExecutionError ExecutionCost;
  cost_bind_name : Z -> result VmExecutionError ExecutionCost;
  cost_inner_type_check_cost : Z -> result VmExecutionError ExecutionCost;
  cost_user_function_application : Z -> result VmExecutionError ExecutionCost;
  cost_let : Z -> result VmExecutionError ExecutionCost;
  cost_if : Z -> result VmExecutionError ExecutionCost;
  cost_asserts : Z -> result VmExecutionError ExecutionCost;
  cost_map : Z -> result VmExecutionError ExecutionCost;
  cost_filter : Z -> result VmExecutionError ExecutionCost;
  cost_len : Z -> result VmExecutionError ExecutionCost;
  cost_element_at : Z -> result VmExecutionError ExecutionCost;
  cost_index_of : Z -> result VmExecutionError ExecutionCost;
  cost_fold : Z -> result VmExecutionError ExecutionCost;
  cost_list_cons : Z -> result VmExecutionError ExecutionCost;
  cost_type_parse_step : Z -> result VmExecutionError ExecutionCost;
  cost_tuple_get : Z -> result VmExecutionError ExecutionCost;
  cost_tuple_merge : Z -> result VmExecutionError ExecutionCost;
  cost_tuple_cons : Z -> result VmExecutionError ExecutionCost;
  cost_add : Z -> result VmExecutionError ExecutionCost;
  cost_sub : Z -> result VmExecutionError ExecutionCost;
  cost_mul : Z -> result VmExecutionError ExecutionCost;
  cost_div : Z -> result VmExecutionError ExecutionCost;
  cost_geq : Z -> result VmExecutionError ExecutionCost;
  cost_leq : Z -> result VmExecutionError ExecutionCost;
  cost_le : Z -> result VmExecutionError ExecutionCost;
  cost_ge : Z -> result VmExecutionError ExecutionCost;
  cost_int_cast : Z -> result VmExecutionError ExecutionCost;
  cost_mod : Z -> result VmExecutionError ExecutionCost;
  cost_pow : Z -> result VmExecutionError ExecutionCost;
  cost_sqrti : Z -> result VmExecutionError ExecutionCost;
  cost_log2 : Z -> result VmExecutionError ExecutionCost;
  cost_xor : Z -> result VmExecutionError ExecutionCost;
  cost_not : Z -> result VmExecutionError ExecutionCost;
  cost_eq : Z -> result VmExecutionError ExecutionCost;
  cost_begin : Z -> result VmExecutionError ExecutionCost;
  cost_hash160 : Z -> result VmExecutionError ExecutionCost;
  cost_sha256 : Z -> result VmExecutionError ExecutionCost;
  cost_sha512 : Z -> result VmExecutionError ExecutionCost;
  cost_sha512t256 : Z -> result VmExecutionError ExecutionCost;
  cost_keccak256 : Z -> result VmExecutionError ExecutionCost;
  cost_secp256k1recover : Z -> result VmExecutionError ExecutionCost;
  cost_secp256k1verify : Z -> result VmExecutionError ExecutionCost;
  cost_print : Z -> result VmExecutionError ExecutionCost;
  cost_some_cons : Z -> result VmExecutionError ExecutionCost;
  cost_ok_cons : Z -> result VmExecutionError ExecutionCost;
  cost_err_cons : Z -> result VmExecutionError ExecutionCost;
  cost_default_to : Z -> result VmExecutionError ExecutionCost;
  cost_unwrap_ret : Z -> result VmExecutionError ExecutionCost;
  cost_unwrap_err_or_ret : Z -> result VmExecutionError ExecutionCost;
  cost_is_okay : Z -> result VmExecutionError ExecutionCost;
  cost_is_none : Z -> result VmExecutionError ExecutionCost;
  cost_is_err : Z -> result VmExecutionError ExecutionCost;
  cost_is_some : Z -> result VmExecutionError ExecutionCost;
  cost_unwrap : Z -> result VmExecutionError ExecutionCost;
  cost_unwrap_err : Z -> result VmExecutionError ExecutionCost;
  cost_try_ret : Z -> result VmExecutionError ExecutionCost;
  cost_match : Z -> result VmExecutionError ExecutionCost;
  cost_or : Z -> result VmExecutionError ExecutionCost;
  cost_and : Z -> result VmExecutionError ExecutionCost;
  cost_append : Z -> result VmExecutionError ExecutionCost;
  cost_concat : Z -> result VmExecutionError ExecutionCost;
  cost_as_max_len : Z -> result VmExecutionError ExecutionCost;
  cost_contract_call : Z -> result VmExecutionError ExecutionCost;
  cost_contract_of : Z -> result VmExecutionError ExecutionCost;
  cost_principal_of : Z -> result VmExecutionError ExecutionCost;
  cost_at_block : Z -> result VmExecutionError ExecutionCost;
  cost_load_contract : Z -> result VmExecutionError ExecutionCost;
  cost_create_map : Z -> result VmExecutionError ExecutionCost;
  cost_create_var : Z -> result VmExecutionError ExecutionCost;
  cost_create_nft : Z -> result VmExecutionError ExecutionCost;
  cost_create_ft : Z -> result VmExecutionError ExecutionCost;
  cost_fetch_entry : Z -> result VmExecutionError ExecutionCost;
  cost_set_entry : Z -> result VmExecutionError ExecutionCost;
  cost_fetch_var : Z -> result VmExecutionError ExecutionCost;
  cost_set_var : Z -> result VmExecutionError ExecutionCost;
  cost_contract_storage : Z -> result VmExecutionError ExecutionCost;
  cost_block_info : Z -> result VmExecutionError ExecutionCost;
  cost_stx_balance : Z -> result VmExecutionError ExecutionCost;
  cost_stx_transfer : Z -> result VmExecutionError ExecutionCost;
  cost_ft_mint : Z -> result VmExecutionError ExecutionCost;
  cost_ft_transfer : Z -> result VmExecutionError ExecutionCost;
  cost_ft_balance : Z -> result VmExecutionError ExecutionCost;
  cost_ft_get_supply : Z -> result VmExecutionError ExecutionCost;
  cost_ft_burn : Z -> result VmExecutionError ExecutionCost;
  cost_nft_mint : Z -> result VmExecutionError ExecutionCost;
  cost_nft_transfer : Z -> result VmExecutionError ExecutionCost;
  cost_nft_owner : Z -> result VmExecutionError ExecutionCost;
  cost_nft_burn : Z -> result VmExecutionError ExecutionCost;
  poison_microblock : Z -> result VmExecutionError ExecutionCost;
  cost_buff_to_int_le : Z -> result VmExecutionError ExecutionCost;
  cost_buff_to_uint_le : Z -> result VmExecutionError ExecutionCost;
  cost_buff_to_int_be : Z -> result VmExecutionError ExecutionCost;
  cost_buff_to_uint_be : Z -> result VmExecutionError ExecutionCost;
  cost_is_standard : Z -> result VmExecutionError ExecutionCost;
  cost_principal_destruct : Z -> result VmExecutionError ExecutionCost;
  cost_principal_construct : Z -> result VmExecutionError ExecutionCost;
  cost_string_to_int : Z -> result VmExecutionError ExecutionCost;
  cost_string_to_uint : Z -> result VmExecutionError ExecutionCost;
  cost_int_to_ascii : Z -> result VmExecutionError ExecutionCost;
  cost_int_to_utf8 : Z -> result VmExecutionError ExecutionCost;
  cost_burn_block_info : Z -> result VmExecutionError ExecutionCost;
  cost_stx_account : Z -> result VmExecutionError ExecutionCost;
  cost_slice : Z -> result VmExecutionError ExecutionCost;
  cost_to_consensus_buff : Z -> result VmExecutionError ExecutionCost;
  cost_from_consensus_buff : Z -> result VmExecutionError ExecutionCost;
  cost_stx_transfer_memo : Z -> result VmExecutionError ExecutionCost;
  cost_replace_at : Z -> result VmExecutionError ExecutionCost;
  cost_as_contract : Z -> result VmExecutionError ExecutionCost;
  cost_bitwise_and : Z -> result VmExecutionError ExecutionCost;
  cost_bitwise_or : Z -> result VmExecutionError ExecutionCost;
  cost_bitwise_not : Z -> result VmExecutionError ExecutionCost;
  cost_bitwise_left_shift : Z -> result VmExecutionError ExecutionCost;
  cost_bitwise_right_shift : Z -> result VmExecutionError ExecutionCost;
  cost_contract_hash : Z -> result VmExecutionError ExecutionCost;
  cost_to_ascii : Z -> result VmExecutionError ExecutionCost;
  cost_restrict_assets : Z -> result VmExecutionError ExecutionCost;
  cost_as_contract_safe : Z -> result VmExecutionError ExecutionCost;
  cost_secp256r1verify : Z -> result VmExecutionError ExecutionCost;
  cost_verify_merkle_proof : Z -> result VmExecutionError ExecutionCost;
  cost_get_bitcoin_tx_output : Z -> result VmExecutionError ExecutionCost;
  cost_ed25519verify : Z -> result VmExecutionError ExecutionCost;
  cost_secp256k1decompress : Z -> result VmExecutionError ExecutionCost;
}.

Definition eval (C : CostValues) (f : ClarityCostFunction.t) (n : Z)
    : result VmExecutionError ExecutionCost :=
  match f with
  | ClarityCostFunction.AnalysisTypeAnnotate => cost_analysis_type_annotate C n
  | ClarityCostFunction.AnalysisTypeCheck => cost_analysis_type_check C n
  | ClarityCostFunction.AnalysisTypeLookup => cost_analysis_type_lookup C n
  | ClarityCostFunction.AnalysisVisit => cost_analysis_visit C n
  | ClarityCostFunction.AnalysisIterableFunc => cost_analysis_iterable_func C n
  | ClarityCostFunction.AnalysisOptionCons => cost_analysis_option_cons C n
  | ClarityCostFunction.AnalysisOptionCheck => cost_analysis_option_check C n
  | ClarityCostFunction.AnalysisBindName => cost_analysis_bind_name C n
  | ClarityCostFunction.AnalysisListItemsCheck => cost_analysis_list_items_check C n
  | ClarityCostFunction.AnalysisCheckTupleGet => cost_analysis_check_tuple_get C n
  | ClarityCostFunction.AnalysisCheckTupleMerge => cost_analysis_check_tuple_merge C n
  | ClarityCostFunction.AnalysisCheckTupleCons => cost_analysis_check_tuple_cons C n
  | ClarityCostFunction.AnalysisTupleItemsCheck => cost_analysis_tuple_items_check C n
  | ClarityCostFunction.AnalysisCheckLet => cost_analysis_check_let C n
  | ClarityCostFunction.AnalysisLookupFunction => cost_analysis_lookup_function C n
  | ClarityCostFunction.AnalysisLookupFunctionTypes => cost_analysis_lookup_function_types C n
  | ClarityCostFunction.AnalysisLookupVariableConst => cost_analysis_lookup_variable_const C n
  | ClarityCostFunction.AnalysisLookupVariableDepth => cost_analysis_lookup_variable_depth C n
  | ClarityCostFunction.AstParse => cost_ast_parse C n
  | ClarityCostFunction.AstCycleDetection => cost_ast_cycle_detection C n
  | ClarityCostFunction.AnalysisStorage => cost_analysis_storage C n
  | ClarityCostFunction.AnalysisUseTraitEntry => cost_analysis_use_trait_entry C n
  | ClarityCostFunction.AnalysisGetFunctionEntry => cost_analysis_get_function_entry C n
  | ClarityCostFunction.AnalysisFetchContractEntry => cost_analysis_fetch_contract_entry C n
  | ClarityCostFunction.LookupVariableDepth => cost_lookup_variable_depth C n
  | ClarityCostFunction.LookupVariableSize => cost_lookup_variable_size C n
  | ClarityCostFunction.LookupFunction => cost_lookup_function C n
  | ClarityCostFunction.BindName => cost_bind_name C n
  | ClarityCostFunction.InnerTypeCheckCost => cost_inner_type_check_cost C n
  | ClarityCostFunction.UserFunctionApplication => cost_user_function_application C n
  | ClarityCostFunction.Let => cost_let C n
  | ClarityCostFunction.If => cost_if C n
  | ClarityCostFunction.Asserts => cost_asserts C n
  | ClarityCostFunction.Map => cost_map C n
  | ClarityCostFunction.Filter => cost_filter C n
  | ClarityCostFunction.Len => cost_len C n
  | ClarityCostFunction.ElementAt => cost_element_at C n
  | ClarityCostFunction.IndexOf => cost_index_of C n
  | ClarityCostFunction.Fold => cost_fold C n
  | ClarityCostFunction.ListCons => cost_list_cons C n
  | ClarityCostFunction.TypeParseStep => cost_type_parse_step C n
  | ClarityCostFunction.TupleGet => cost_tuple_get C n
  | ClarityCostFunction.TupleMerge => cost_tuple_merge C n
  | ClarityCostFunction.TupleCons => cost_tuple_cons C n
  | ClarityCostFunction.Add => cost_add C n
  | ClarityCostFunction.Sub => cost_sub C n
  | ClarityCostFunction.Mul => cost_mul C n
  | ClarityCostFunction.Div => cost_div C n
  | ClarityCostFunction.Geq => cost_geq C n
  | ClarityCostFunction.Leq => cost_leq C n
  | ClarityCostFunction.Le => cost_le C n
  | ClarityCostFunction.Ge => cost_ge C n
  | ClarityCostFunction.IntCast => cost_int_cast C n
  | ClarityCostFunction.Mod => cost_mod C n
  | ClarityCostFunction.Pow => cost_pow C n
  | ClarityCostFunction.Sqrti => cost_sqrti C n
  | ClarityCostFunction.Log2 => cost_log2 C n
  | ClarityCostFunction.Xor => cost_xor C n
  | ClarityCostFunction.Not => cost_not C n
  | ClarityCostFunction.Eq => cost_eq C n
  | ClarityCostFunction.Begin => cost_begin C n
  | ClarityCostFunction.Hash160 => cost_hash160 C n
  | ClarityCostFunction.Sha256 => cost_sha256 C n
  | ClarityCostFunction.Sha512 => cost_sha512 C n
  | ClarityCostFunction.Sha512t256 => cost_sha512t256 C n
  | ClarityCostFunction.Keccak256 => cost_keccak256 C n
  | ClarityCostFunction.Secp256k1recover => cost_secp256k1recover C n
  | ClarityCostFunction.Secp256k1verify => cost_secp256k1verify C n
  | ClarityCostFunction.Print => cost_print C n
  | ClarityCostFunction.SomeCons => cost_some_cons C n
  | ClarityCostFunction.OkCons => cost_ok_cons C n
  | ClarityCostFunction.ErrCons => cost_err_cons C n
  | ClarityCostFunction.DefaultTo => cost_default_to C n
  | ClarityCostFunction.UnwrapRet => cost_unwrap_ret C n
  | ClarityCostFunction.UnwrapErrOrRet => cost_unwrap_err_or_ret C n
  | ClarityCostFunction.IsOkay => cost_is_okay C n
  | ClarityCostFunction.IsNone => cost_is_none C n
  | ClarityCostFunction.IsErr => cost_is_err C n
  | ClarityCostFunction.IsSome => cost_is_some C n
  | ClarityCostFunction.Unwrap => cost_unwrap C n
  | ClarityCostFunction.UnwrapErr => cost_unwrap_err C n
  | ClarityCostFunction.TryRet => cost_try_ret C n
  | ClarityCostFunction.Match => cost_match C n
  | ClarityCostFunction.Or => cost_or C n
  | ClarityCostFunction.And => cost_and C n
  | ClarityCostFunction.Append => cost_append C n
  | ClarityCostFunction.Concat => cost_concat C n
  | ClarityCostFunction.AsMaxLen => cost_as_max_len C n
  | ClarityCostFunction.ContractCall => cost_contract_call C n
  | ClarityCostFunction.ContractOf => cost_contract_of C n
  | ClarityCostFunction.PrincipalOf => cost_principal_of C n
  | ClarityCostFunction.AtBlock => cost_at_block C n
  | ClarityCostFunction.LoadContract => cost_load_contract C n
  | ClarityCostFunction.CreateMap => cost_create_map C n
  | ClarityCostFunction.CreateVar => cost_create_var C n
  | ClarityCostFunction.CreateNft => cost_create_nft C n
  | ClarityCostFunction.CreateFt => cost_create_ft C n
  | ClarityCostFunction.FetchEntry => cost_fetch_entry C n
  | ClarityCostFunction.SetEntry => cost_set_entry C n
  | ClarityCostFunction.FetchVar => cost_fetch_var C n
  | ClarityCostFunction.SetVar => cost_set_var C n
  | ClarityCostFunction.ContractStorage => cost_contract_storage C n
  | ClarityCostFunction.BlockInfo => cost_block_info C n
  | ClarityCostFunction.StxBalance => cost_stx_balance C n
  | ClarityCostFunction.StxTransfer => cost_stx_transfer C n
  | ClarityCostFunction.FtMint => cost_ft_mint C n
  | ClarityCostFunction.FtTransfer => cost_ft_transfer C n
  | ClarityCostFunction.FtBalance => cost_ft_balance C n
  | ClarityCostFunction.FtSupply => cost_ft_get_supply C n
  | ClarityCostFunction.FtBurn => cost_ft_burn C n
  | ClarityCostFunction.NftMint => cost_nft_mint C n
  | ClarityCostFunction.NftTransfer => cost_nft_transfer C n
  | ClarityCostFunction.NftOwner => cost_nft_owner C n
  | ClarityCostFunction.NftBurn => cost_nft_burn C n
  | ClarityCostFunction.PoisonMicroblock => poison_microblock C n
  | ClarityCostFunction.BuffToIntLe => cost_buff_to_int_le C n
  | ClarityCostFunction.BuffToUIntLe => cost_buff_to_uint_le C n
  | ClarityCostFunction.BuffToIntBe => cost_buff_to_int_be C n
  | ClarityCostFunction.BuffToUIntBe => cost_buff_to_uint_be C n
  | ClarityCostFunction.IsStandard => cost_is_standard C n
  | ClarityCostFunction.PrincipalDestruct => cost_principal_destruct C n
  | ClarityCostFunction.PrincipalConstruct => cost_principal_construct C n
  | ClarityCostFunction.StringToInt => cost_string_to_int C n
  | ClarityCostFunction.StringToUInt => cost_string_to_uint C n
  | ClarityCostFunction.IntToAscii => cost_int_to_ascii C n
  | ClarityCostFunction.IntToUtf8 => cost_int_to_utf8 C n
  | ClarityCostFunction.GetBurnBlockInfo => cost_burn_block_info C n
  | ClarityCostFunction.StxGetAccount => cost_stx_account C n
  | ClarityCostFunction.Slice => cost_slice C n
  | ClarityCostFunction.ToConsensusBuff => cost_to_consensus_buff C n
  | ClarityCostFunction.FromConsensusBuff => cost_from_consensus_buff C n
  | ClarityCostFunction.StxTransferMemo => cost_stx_transfer_memo C n
  | ClarityCostFunction.ReplaceAt => cost_replace_at C n
  | ClarityCostFunction.AsContract => cost_as_contract C n
  | ClarityCostFunction.BitwiseAnd => cost_bitwise_and C n
  | ClarityCostFunction.BitwiseOr => cost_bitwise_or C n
  | ClarityCostFunction.BitwiseNot => cost_bitwise_not C n
  | ClarityCostFunction.BitwiseLShift => cost_bitwise_left_shift C n
  | ClarityCostFunction.BitwiseRShift => cost_bitwise_right_shift C n
  | ClarityCostFunction.ContractHash => cost_contract_hash C n
  | ClarityCostFunction.ToAscii => cost_to_ascii C n
  | ClarityCostFunction.RestrictAssets => cost_restrict_assets C n
  | ClarityCostFunction.AsContractSafe => cost_as_contract_safe C n
  | ClarityCostFunction.Secp256r1verify => cost_secp256r1verify C n
  | ClarityCostFunction.VerifyMerkleProof => cost_verify_merkle_proof C n
  | ClarityCostFunction.GetBitcoinTxOutput => cost_get_bitcoin_tx_output C n
  | ClarityCostFunction.Ed25519verify => cost_ed25519verify C n
  | ClarityCostFunction.Secp256k1decompress => cost_secp256k1decompress C n
  | ClarityCostFunction.Unimplemented => not_implemented
  end.

Definition Costs1 : CostValues := {|
  cost_analysis_type_annotate := fun n => Ok (cost_runtime (linear n 1000 1000));
  cost_analysis_type_check := fun n => Ok (cost_runtime (linear n 1000 1000));
  cost_analysis_type_lookup := fun n => Ok (cost_runtime (linear n 1000 1000));
  cost_analysis_visit := fun _ => Ok (cost_runtime 1000);
  cost_analysis_iterable_func := fun n => Ok (cost_runtime (linear n 1000 1000));
  cost_analysis_option_cons := fun _ => Ok (cost_runtime 1000);
  cost_analysis_option_check := fun _ => Ok (cost_runtime 1000);
  cost_analysis_bind_name := fun n => Ok (cost_runtime (linear n 1000 1000));
  cost_analysis_list_items_check := fun n => Ok (cost_runtime (linear n 1000 1000));
  cost_analysis_check_tuple_get := fun n => r ← logn n 1000 1000; mret (cost_runtime r);
  cost_analysis_check_tuple_merge := fun n => Ok (cost_runtime (linear n 1000 1000));
  cost_analysis_check_tuple_cons := fun n => r ← nlogn n 1000 1000; mret (cost_runtime r);
  cost_analysis_tuple_items_check := fun n => Ok (cost_runtime (linear n 1000 1000));
  cost_analysis_check_let := fun n => Ok (cost_runtime (linear n 1000 1000));
  cost_analysis_lookup_function := fun _ => Ok (cost_runtime 1000);
  cost_analysis_lookup_function_types := fun n => Ok (cost_runtime (linear n 1000 1000));
  cost_analysis_lookup_variable_const := fun _ => Ok (cost_runtime 1000);
  cost_analysis_lookup_variable_depth := fun n => r ← nlogn n 1000 1000; mret (cost_runtime r);
  cost_ast_parse := fun n => Ok (cost_runtime (linear n 10000 1000));
  cost_ast_cycle_detection := fun n => Ok (cost_runtime (linear n 1000 1000));
  cost_analysis_storage := fun n => Ok (mkExecutionCost (linear n 1 1) 1 1 1 (linear n 1000 1000));
  cost_analysis_use_trait_entry := fun n =>
    Ok (mkExecutionCost (linear n 1 1) 0 (linear n 1 1) 1 (linear n 1000 1000));
  cost_analysis_get_function_entry := fun n =>
    Ok (mkExecutionCost 0 0 (linear n 1 1) 1 (linear n 1000 1000));
  cost_analysis_fetch_contract_entry := fun n =>
    Ok (mkExecutionCost 0 0 (linear n 1 1) 1 (linear n 1000 1000));
  cost_lookup_variable_depth := fun n => Ok (cost_runtime (linear n 1000 1000));
  cost_lookup_variable_size := fun n => Ok (cost_runtime (linear n 1000 0));
  cost_lookup_function := fun _ => Ok (cost_runtime 1000);
  cost_bind_name := fun _ => Ok (cost_runtime 1000);
  cost_inner_type_check_cost := fun n => Ok (cost_runtime (linear n 1000 1000));
  cost_user_function_application := fun n => Ok (cost_runtime (linear n 1000 1000));
  cost_let := fun n => Ok (cost_runtime (linear n 1000 1000));
  cost_if := fun _ => Ok (cost_runtime 1000);
  cost_asserts := fun _ => Ok (cost_runtime 1000);
  cost_map := fun n => Ok (cost_runtime (linear n 1000 1000));
  cost_filter := fun _ => Ok (cost_runtime 1000);
  cost_len := fun _ => Ok (cost_runtime 1000);
  cost_element_at := fun _ => Ok (cost_runtime 1000);
  cost_index_of := fun n => Ok (cost_runtime (linear n 1000 1000));
  cost_fold := fun _ => Ok (cost_runtime 1000);
  cost_list_cons := fun n => Ok (cost_runtime (linear n 1000 1000));
  cost_type_parse_step := fun _ => Ok (cost_runtime 1000);
  cost_tuple_get := fun n => r ← nlogn n 1000 1000; mret (cost_runtime r);
  cost_tuple_merge := fun n => Ok (cost_runtime (linear n 1000 1000));
  cost_tuple_cons := fun n => r ← nlogn n 1000 1000; mret (cost_runtime r);
  cost_add := fun n => Ok (cost_runtime (linear n 1000 1000));
  cost_sub := fun n => Ok (cost_runtime (linear n 1000 1000));
  cost_mul := fun n => Ok (cost_runtime (linear n 1000 1000));
  cost_div := fun n => Ok (cost_runtime (linear n 1000 1000));
  cost_geq := fun _ => Ok (cost_runtime 1000);
  cost_leq := fun _ => Ok (cost_runtime 1000);
  cost_le := fun _ => Ok (cost_runtime 1000);
  cost_ge := fun _ => Ok (cost_runtime 1000);
  cost_int_cast := fun _ => Ok (cost_runtime 1000);
  cost_mod := fun _ => Ok (cost_runtime 1000);
  cost_pow := fun _ => Ok (cost_runtime 1000);
  cost_sqrti := fun _ => Ok (cost_runtime 1000);
  cost_log2 := fun _ => Ok (cost_runtime 1000);
  cost_xor := fun _ => Ok (cost_runtime 1000);
  cost_not := fun _ => Ok (cost_runtime 1000);
  cost_eq := fun n => Ok (cost_runtime (linear n 1000 1000));
  cost_begin := fun _ => Ok (cost_runtime 1000);
  cost_hash160 := fun n => Ok (cost_runtime (linear n 1000 1000));
  cost_sha256 := fun n => Ok (cost_runtime (linear n 1000 1000));
  cost_sha512 := fun n => Ok (cost_runtime (linear n 1000 1000));
  cost_sha512t256 := fun n => Ok (cost_runtime (linear n 1000 1000));
  cost_keccak256 := fun n => Ok (cost_runtime (linear n 1000 1000));
  cost_secp256k1recover := fun _ => Ok (cost_runtime 1000);
  cost_secp256k1verify := fun _ => Ok (cost_runtime 1000);
  cost_print := fun n => Ok (cost_runtime (linear n 1000 1000));
  cost_some_cons := fun _ => Ok (cost_runtime 1000);
  cost_ok_cons := fun _ => Ok (cost_runtime 1000);
  cost_err_cons := fun _ => Ok (cost_runtime 1000);
  cost_default_to := fun _ => Ok (cost_runtime 1000);
  cost_unwrap_ret := fun _ => Ok (cost_runtime 1000);
  cost_unwrap_err_or_ret := fun _ => Ok (cost_runtime 1000);
  cost_is_okay := fun _ => Ok (cost_runtime 1000);
  cost_is_none := fun _ => Ok (cost_runtime 1000);
  cost_is_err := fun _ => Ok (cost_runtime 1000);
  cost_is_some := fun _ => Ok (cost_runtime 1000);
  cost_unwrap := fun _ => Ok (cost_runtime 1000);
  cost_unwrap_err := fun _ => Ok (cost_runtime 1000);
  cost_try_ret := fun _ => Ok (cost_runtime 1000);
  cost_match := fun _ => Ok (cost_runtime 1000);
  cost_or := fun n => Ok (cost_runtime (linear n 1000 1000));
  cost_and := fun n => Ok (cost_runtime (linear n 1000 1000));
  cost_append := fun n => Ok (cost_runtime (linear n 1000 1000));
  cost_concat := fun n => Ok (cost_runtime (linear n 1000 1000));
  cost_as_max_len := fun _ => Ok (cost_runtime 1000);
  cost_contract_call := fun _ => Ok (cost_runtime 1000);
  cost_contract_of := fun _ => Ok (cost_runtime 1000);
  cost_principal_of := fun _ => Ok (cost_runtime 1000);
  cost_at_block := fun _ => Ok (mkExecutionCost 0 0 1 1 1000);
  cost_load_contract := fun n => Ok (mkExecutionCost 0 0 (linear n 1 1) 3 (linear n 1000 1000));
  cost_create_map := fun n => Ok (mkExecutionCost (linear n 1 1) 1 0 0 (linear n 1000 1000));
  cost_create_var := fun n => Ok (mkExecutionCost (linear n 1 1) 2 0 0 (linear n 1000 1000));
  cost_create_nft := fun n => Ok (mkExecutionCost (linear n 1 1) 1 0 0 (linear n 1000 1000));
  cost_create_ft := fun _ => Ok (mkExecutionCost 1 2 0 0 1000);
  cost_fetch_entry := fun n => Ok (mkExecutionCost 0 0 (linear n 1 1) 1 (linear n 1000 1000));
  cost_set_entry := fun n => Ok (mkExecutionCost (linear n 1 1) 1 0 1 (linear n 1000 1000));
  cost_fetch_var := fun n => Ok (mkExecutionCost 0 0 (linear n 1 1) 1 (linear n 1000 1000));
  cost_set_var := fun n => Ok (mkExecutionCost (linear n 1 1) 1 0 1 (linear n 1000 1000));
  cost_contract_storage := fun n => Ok (mkExecutionCost (linear n 1 1) 1 0 0 (linear n 1000 1000));
  cost_block_info := fun _ => Ok (mkExecutionCost 0 0 1 1 1000);
  cost_stx_balance := fun _ => Ok (mkExecutionCost 0 0 1 1 1000);
  cost_stx_transfer := fun _ => Ok (mkExecutionCost 1 1 1 1 1000);
  cost_ft_mint := fun _ => Ok (mkExecutionCost 1 2 1 2 1000);
  cost_ft_transfer := fun _ => Ok (mkExecutionCost 1 2 1 2 1000);
  cost_ft_balance := fun _ => Ok (mkExecutionCost 0 0 1 1 1000);
  cost_ft_get_supply := fun _ => Ok (mkExecutionCost 0 0 1 1 1000);
  cost_ft_burn := fun _ => Ok (mkExecutionCost 1 2 1 2 1000);
  cost_nft_mint := fun n => Ok (mkExecutionCost 1 1 1 1 (linear n 1000 1000));
  cost_nft_transfer := fun n => Ok (mkExecutionCost 1 1 1 1 (linear n 1000 1000));
  cost_nft_owner := fun n => Ok (mkExecutionCost 0 0 1 1 (linear n 1000 1000));
  cost_nft_burn := fun n => Ok (mkExecutionCost 1 1 1 1 (linear n 1000 1000));
  poison_microblock := fun _ => Ok (mkExecutionCost 1 1 1 1 1000);
  cost_buff_to_int_le := fun _ => not_implemented;
  cost_buff_to_uint_le := fun _ => not_implemented;
  cost_buff_to_int_be := fun _ => not_implemented;
  cost_buff_to_uint_be := fun _ => not_implemented;
  cost_is_standard := fun _ => not_implemented;
  cost_principal_destruct := fun _ => not_implemented;
  cost_principal_construct := fun _ => not_implemented;
  cost_string_to_int := fun _ => not_implemented;
  cost_string_to_uint := fun _ => not_implemented;
  cost_int_to_ascii := fun _ => not_implemented;
  cost_int_to_utf8 := fun _ => not_implemented;
  cost_burn_block_info := fun _ => not_implemented;
  cost_stx_account := fun _ => not_implemented;
  cost_slice := fun _ => not_implemented;
  cost_to_consensus_buff := fun _ => not_implemented;
  cost_from_consensus_buff := fun _ => not_implemented;
  cost_stx_transfer_memo := fun _ => not_implemented;
  cost_replace_at := fun _ => not_implemented;
  cost_as_contract := fun _ => not_implemented;
  cost_bitwise_and := fun _ => not_implemented;
  cost_bitwise_or := fun _ => not_implemented;
  cost_bitwise_not := fun _ => not_implemented;
  cost_bitwise_left_shift := fun _ => not_implemented;
  cost_bitwise_right_shift := fun _ => not_implemented;
  cost_contract_hash := fun _ => not_implemented;
  cost_to_ascii := fun _ => not_implemented;
  cost_restrict_assets := fun _ => not_implemented;
  cost_as_contract_safe := fun _ => not_implemented;
  cost_secp256r1verify := fun _ => not_implemented;
  cost_verify_merkle_proof := fun _ => not_implemented;
  cost_get_bitcoin_tx_output := fun _ => not_implemented;
  cost_ed25519verify := fun _ => not_implemented;
  cost_secp256k1decompress := fun _ => not_implemented
|}.

Definition Costs2 : CostValues := {|
  cost_analysis_type_annotate := fun n => Ok (cost_runtime (linear n 1 9));
  cost_analysis_type_check := fun n => Ok (cost_runtime (linear n 113 1));
  cost_analysis_type_lookup := fun n => Ok (cost_runtime (linear n 1 6));
  cost_analysis_visit := fun _ => Ok (cost_runtime 1);
  cost_analysis_iterable_func := fun n => Ok (cost_runtime (linear n 2 14));
  cost_analysis_option_cons := fun _ => Ok (cost_runtime 6);
  cost_analysis_option_check := fun _ => Ok (cost_runtime 3);
  cost_analysis_bind_name := fun n => Ok (cost_runtime (linear n 2 176));
  cost_analysis_list_items_check := fun n => Ok (cost_runtime (linear n 2 4));
  cost_analysis_check_tuple_get := fun n => r ← logn n 1 2; mret (cost_runtime r);
  cost_analysis_check_tuple_merge := fun n => Ok (cost_runtime (linear n 1000 1000));
  cost_analysis_check_tuple_cons := fun n => r ← nlogn n 3 5; mret (cost_runtime r);
  cost_analysis_tuple_items_check := fun n => Ok (cost_runtime (linear n 1 59));
  cost_analysis_check_let := fun n => Ok (cost_runtime (linear n 1 12));
  cost_analysis_lookup_function := fun _ => Ok (cost_runtime 20);
  cost_analysis_lookup_function_types := fun n => Ok (cost_runtime (linear n 1 28));
  cost_analysis_lookup_variable_const := fun _ => Ok (cost_runtime 15);
  cost_analysis_lookup_variable_depth := fun n => r ← nlogn n 1 34; mret (cost_runtime r);
  cost_ast_parse := fun n => Ok (cost_runtime (linear n 172 287441));
  cost_ast_cycle_detection := fun n => Ok (cost_runtime (linear n 141 72));
  cost_analysis_storage := fun n => Ok (mkExecutionCost (linear n 1 1) 1 1 1 (linear n 2 100));
  cost_analysis_use_trait_entry := fun n =>
    Ok (mkExecutionCost (linear n 1 1) 0 (linear n 1 1) 1 (linear n 9 723));
  cost_analysis_get_function_entry := fun n =>
    Ok (mkExecutionCost 0 0 (linear n 1 1) 1 (linear n 81 1303));
  cost_analysis_fetch_contract_entry := fun n =>
    Ok (mkExecutionCost 0 0 (linear n 1 1) 1 (linear n 1000 1000));
  cost_lookup_variable_depth := fun n => Ok (cost_runtime (linear n 2 14));
  cost_lookup_variable_size := fun n => Ok (cost_runtime (linear n 2 1));
  cost_lookup_function := fun _ => Ok (cost_runtime 16);
  cost_bind_name := fun _ => Ok (cost_runtime 256);
  cost_inner_type_check_cost := fun n => Ok (cost_runtime (linear n 2 9));
  cost_user_function_application := fun n => Ok (cost_runtime (linear n 26 140));
  cost_let := fun n => Ok (cost_runtime (linear n 146 862));
  cost_if := fun _ => Ok (cost_runtime 200);
  cost_asserts := fun _ => Ok (cost_runtime 170);
  cost_map := fun n => Ok (cost_runtime (linear n 1210 3314));
  cost_filter := fun _ => Ok (cost_runtime 460);
  cost_len := fun _ => Ok (cost_runtime 486);
  cost_element_at := fun _ => Ok (cost_runtime 619);
  cost_index_of := fun n => Ok (cost_runtime (linear n 1 243));
  cost_fold := fun _ => Ok (cost_runtime 483);
  cost_list_cons := fun n => Ok (cost_runtime (linear n 14 198));
  cost_type_parse_step := fun _ => Ok (cost_runtime 5);
  cost_tuple_get := fun n => r ← nlogn n 4 1780; mret (cost_runtime r);
  cost_tuple_merge := fun n => Ok (cost_runtime (linear n 4 646));
  cost_tuple_cons := fun n => r ← nlogn n 11 1101; mret (cost_runtime r);
  cost_add := fun n => Ok (cost_runtime (linear n 14 157));
  cost_sub := fun n => Ok (cost_runtime (linear n 14 157));
  cost_mul := fun n => Ok (cost_runtime (linear n 14 157));
  cost_div := fun n => Ok (cost_runtime (linear n 14 157));
  cost_geq := fun _ => Ok (cost_runtime 170);
  cost_leq := fun _ => Ok (cost_runtime 170);
  cost_le := fun _ => Ok (cost_runtime 170);
  cost_ge := fun _ => Ok (cost_runtime 170);
  cost_int_cast := fun _ => Ok (cost_runtime 170);
  cost_mod := fun _ => Ok (cost_runtime 170);
  cost_pow := fun _ => Ok (cost_runtime 170);
  cost_sqrti := fun _ => Ok (cost_runtime 170);
  cost_log2 := fun _ => Ok (cost_runtime 170);
  cost_xor := fun _ => Ok (cost_runtime 170);
  cost_not := fun _ => Ok (cost_runtime 170);
  cost_eq := fun n => Ok (cost_runtime (linear n 7 172));
  cost_begin := fun _ => Ok (cost_runtime 202);
  cost_hash160 := fun n => Ok (cost_runtime (linear n 1 201));
  cost_sha256 := fun n => Ok (cost_runtime (linear n 1 100));
  cost_sha512 := fun n => Ok (cost_runtime (linear n 1 176));
  cost_sha512t256 := fun n => Ok (cost_runtime (linear n 1 188));
  cost_keccak256 := fun n => Ok (cost_runtime (linear n 1 221));
  cost_secp256k1recover := fun _ => Ok (cost_runtime 14344);
  cost_secp256k1verify := fun _ => Ok (cost_runtime 13540);
  cost_print := fun n => Ok (cost_runtime (linear n 3 1413));
  cost_some_cons := fun _ => Ok (cost_runtime 230);
  cost_ok_cons := fun _ => Ok (cost_runtime 230);
  cost_err_cons := fun _ => Ok (cost_runtime 230);
  cost_default_to := fun _ => Ok (cost_runtime 287);
  cost_unwrap_ret := fun _ => Ok (cost_runtime 339);
  cost_unwrap_err_or_ret := fun _ => Ok (cost_runtime 339);
  cost_is_okay := fun _ => Ok (cost_runtime 287);
  cost_is_none := fun _ => Ok (cost_runtime 287);
  cost_is_err := fun _ => Ok (cost_runtime 287);
  cost_is_some := fun _ => Ok (cost_runtime 287);
  cost_unwrap := fun _ => Ok (cost_runtime 287);
  cost_unwrap_err := fun _ => Ok (cost_runtime 287);
  cost_try_ret := fun _ => Ok (cost_runtime 287);
  cost_match := fun _ => Ok (cost_runtime 287);
  cost_or := fun n => Ok (cost_runtime (linear n 3 149));
  cost_and := fun n => Ok (cost_runtime (linear n 3 149));
  cost_append := fun n => Ok (cost_runtime (linear n 71 176));
  cost_concat := fun n => Ok (cost_runtime (linear n 75 244));
  cost_as_max_len := fun _ => Ok (cost_runtime 475);
  cost_contract_call := fun _ => Ok (cost_runtime 153);
  cost_contract_of := fun _ => Ok (cost_runtime 13400);
  cost_principal_of := fun _ => Ok (cost_runtime 999);
  cost_at_block := fun _ => Ok (mkExecutionCost 0 0 1 1 210);
  cost_load_contract := fun n => Ok (mkExecutionCost 0 0 (linear n 1 1) 3 (linear n 1 157));
  cost_create_map := fun n => Ok (mkExecutionCost (linear n 1 1) 1 0 0 (linear n 1 1631));
  cost_create_var := fun n => Ok (mkExecutionCost (linear n 1 1) 2 0 0 (linear n 7 2152));
  cost_create_nft := fun n => Ok (mkExecutionCost (linear n 1 1) 1 0 0 (linear n 1 1610));
  cost_create_ft := fun _ => Ok (mkExecutionCost 1 2 0 0 1972);
  cost_fetch_entry := fun n => Ok (mkExecutionCost 0 0 (linear n 1 1) 1 (linear n 1 1539));
  cost_set_entry := fun n => Ok (mkExecutionCost (linear n 1 1) 1 0 1 (linear n 4 2204));
  cost_fetch_var := fun n => Ok (mkExecutionCost 0 0 (linear n 1 1) 1 (linear n 1 543));
  cost_set_var := fun n => Ok (mkExecutionCost (linear n 1 1) 1 0 1 (linear n 5 691));
  cost_contract_storage := fun n => Ok (mkExecutionCost (linear n 1 1) 1 0 0 (linear n 13 7982));
  cost_block_info := fun _ => Ok (mkExecutionCost 0 0 1 1 6321);
  cost_stx_balance := fun _ => Ok (mkExecutionCost 0 0 1 1 1385);
  cost_stx_transfer := fun _ => Ok (mkExecutionCost 1 1 1 1 1430);
  cost_ft_mint := fun _ => Ok (mkExecutionCost 1 2 1 2 1645);
  cost_ft_transfer := fun _ => Ok (mkExecutionCost 1 2 1 2 612);
  cost_ft_balance := fun _ => Ok (mkExecutionCost 0 0 1 1 547);
  cost_ft_get_supply := fun _ => Ok (mkExecutionCost 0 0 1 1 483);
  cost_ft_burn := fun _ => Ok (mkExecutionCost 1 2 1 2 612);
  cost_nft_mint := fun n => Ok (mkExecutionCost 1 1 1 1 (linear n 9 795));
  cost_nft_transfer := fun n => Ok (mkExecutionCost 1 1 1 1 (linear n 9 795));
  cost_nft_owner := fun n => Ok (mkExecutionCost 0 0 1 1 (linear n 9 795));
  cost_nft_burn := fun n => Ok (mkExecutionCost 1 1 1 1 (linear n 9 795));
  poison_microblock := fun _ => Ok (mkExecutionCost 1 1 1 1 29568);
  cost_buff_to_int_le := fun _ => not_implemented;
  cost_buff_to_uint_le := fun _ => not_implemented;
  cost_buff_to_int_be := fun _ => not_implemented;
  cost_buff_to_uint_be := fun _ => not_implemented;
  cost_is_standard := fun _ => not_implemented;
  cost_principal_destruct := fun _ => not_implemented;
  cost_principal_construct := fun _ => not_implemented;
  cost_string_to_int := fun _ => not_implemented;
  cost_string_to_uint := fun _ => not_implemented;
  cost_int_to_ascii := fun _ => not_implemented;
  cost_int_to_utf8 := fun _ => not_implemented;
  cost_burn_block_info := fun _ => not_implemented;
  cost_stx_account := fun _ => not_implemented;
  cost_slice := fun _ => not_implemented;
  cost_to_consensus_buff := fun _ => not_implemented;
  cost_from_consensus_buff := fun _ => not_implemented;
  cost_stx_transfer_memo := fun _ => not_implemented;
  cost_replace_at := fun _ => not_implemented;
  cost_as_contract := fun _ => not_implemented;
  cost_bitwise_and := fun _ => not_implemented;
  cost_bitwise_or := fun _ => not_implemented;
  cost_bitwise_not := fun _ => not_implemented;
  cost_bitwise_left_shift := fun _ => not_implemented;
  cost_bitwise_right_shift := fun _ => not_implemented;
  cost_contract_hash := fun _ => not_implemented;
  cost_to_ascii := fun _ => not_implemented;
  cost_restrict_assets := fun _ => not_implemented;
  cost_as_contract_safe := fun _ => not_implemented;
  cost_secp256r1verify := fun _ => not_implemented;
  cost_verify_merkle_proof := fun _ => not_implemented;
  cost_get_bitcoin_tx_output := fun _ => not_implemented;
  cost_ed25519verify := fun _ => not_implemented;
  cost_secp256k1decompress := fun _ => not_implemented
|}.

Definition Costs2Testnet : CostValues := {|
  cost_analysis_type_annotate := fun n => Ok (cost_runtime (linear n 1 9));
  cost_analysis_type_check := fun n => Ok (cost_runtime (linear n 113 1));
  cost_analysis_type_lookup := fun n => Ok (cost_runtime (linear n 1 6));
  cost_analysis_visit := fun _ => Ok (cost_runtime 1);
  cost_analysis_iterable_func := fun n => Ok (cost_runtime (linear n 2 14));
  cost_analysis_option_cons := fun _ => Ok (cost_runtime 6);
  cost_analysis_option_check := fun _ => Ok (cost_runtime 3);
  cost_analysis_bind_name := fun n => Ok (cost_runtime (linear n 2 176));
  cost_analysis_list_items_check := fun n => Ok (cost_runtime (linear n 2 4));
  cost_analysis_check_tuple_get := fun n => r ← logn n 1 2; mret (cost_runtime r);
  cost_analysis_check_tuple_merge := fun n => Ok (cost_runtime (linear n 1000 1000));
  cost_analysis_check_tuple_cons := fun n => r ← nlogn n 3 5; mret (cost_runtime r);
  cost_analysis_tuple_items_check := fun n => Ok (cost_runtime (linear n 1 59));
  cost_analysis_check_let := fun n => Ok (cost_runtime (linear n 1 12));
  cost_analysis_lookup_function := fun _ => Ok (cost_runtime 20);
  cost_analysis_lookup_function_types := fun n => Ok (cost_runtime (linear n 1 28));
  cost_analysis_lookup_variable_const := fun _ => Ok (cost_runtime 15);
  cost_analysis_lookup_variable_depth := fun n => r ← nlogn n 1 34; mret (cost_runtime r);
  cost_ast_parse := fun n => Ok (cost_runtime (linear n 172 287441));
  cost_ast_cycle_detection := fun n => Ok (cost_runtime (linear n 141 72));
  cost_analysis_storage := fun n => Ok (mkExecutionCost (linear n 1 1) 1 1 1 (linear n 2 100));
  cost_analysis_use_trait_entry := fun n =>
    Ok (mkExecutionCost (linear n 1 1) 0 (linear n 1 1) 1 (linear n 9 723));
  cost_analysis_get_function_entry := fun n =>
    Ok (mkExecutionCost 0 0 (linear n 1 1) 1 (linear n 81 1303));
  cost_analysis_fetch_contract_entry := fun n =>
    Ok (mkExecutionCost 0 0 (linear n 1 1) 1 (linear n 1000 1000));
  cost_lookup_variable_depth := fun n => Ok (cost_runtime (linear n 2 14));
  cost_lookup_variable_size := fun n => Ok (cost_runtime (linear n 2 1));
  cost_lookup_function := fun _ => Ok (cost_runtime 16);
  cost_bind_name := fun _ => Ok (cost_runtime 256);
  cost_inner_type_check_cost := fun n => Ok (cost_runtime (linear n 2 9));
  cost_user_function_application := fun n => Ok (cost_runtime (linear n 26 140));
  cost_let := fun n => Ok (cost_runtime (linear n 146 862));
  cost_if := fun _ => Ok (cost_runtime 200);
  cost_asserts := fun _ => Ok (cost_runtime 158);
  cost_map := fun n => Ok (cost_runtime (linear n 1210 3314));
  cost_filter := fun _ => Ok (cost_runtime 460);
  cost_len := fun _ => Ok (cost_runtime 486);
  cost_element_at := fun _ => Ok (cost_runtime 619);
  cost_index_of := fun n => Ok (cost_runtime (linear n 1 243));
  cost_fold := fun _ => Ok (cost_runtime 483);
  cost_list_cons := fun n => Ok (cost_runtime (linear n 14 198));
  cost_type_parse_step := fun _ => Ok (cost_runtime 5);
  cost_tuple_get := fun n => r ← nlogn n 4 1780; mret (cost_runtime r);
  cost_tuple_merge := fun n => Ok (cost_runtime (linear n 4 646));
  cost_tuple_cons := fun n => r ← nlogn n 11 1101; mret (cost_runtime r);
  cost_add := fun n => Ok (cost_runtime (linear n 12 156));
  cost_sub := fun n => Ok (cost_runtime (linear n 12 156));
  cost_mul := fun n => Ok (cost_runtime (linear n 14 157));
  cost_div := fun n => Ok (cost_runtime (linear n 14 157));
  cost_geq := fun _ => Ok (cost_runtime 166);
  cost_leq := fun _ => Ok (cost_runtime 166);
  cost_le := fun _ => Ok (cost_runtime 166);
  cost_ge := fun _ => Ok (cost_runtime 166);
  cost_int_cast := fun _ => Ok (cost_runtime 164);
  cost_mod := fun _ => Ok (cost_runtime 168);
  cost_pow := fun _ => Ok (cost_runtime 170);
  cost_sqrti := fun _ => Ok (cost_runtime 167);
  cost_log2 := fun _ => Ok (cost_runtime 161);
  cost_xor := fun _ => Ok (cost_runtime 167);
  cost_not := fun _ => Ok (cost_runtime 162);
  cost_eq := fun n => Ok (cost_runtime (linear n 7 172));
  cost_begin := fun _ => Ok (cost_runtime 202);
  cost_hash160 := fun n => Ok (cost_runtime (linear n 1 201));
  cost_sha256 := fun n => Ok (cost_runtime (linear n 1 100));
  cost_sha512 := fun n => Ok (cost_runtime (linear n 1 176));
  cost_sha512t256 := fun n => Ok (cost_runtime (linear n 1 188));
  cost_keccak256 := fun n => Ok (cost_runtime (linear n 1 221));
  cost_secp256k1recover := fun _ => Ok (cost_runtime 14344);
  cost_secp256k1verify := fun _ => Ok (cost_runtime 13540);
  cost_print := fun n => Ok (cost_runtime (linear n 3 1413));
  cost_some_cons := fun _ => Ok (cost_runtime 230);
  cost_ok_cons := fun _ => Ok (cost_runtime 230);
  cost_err_cons := fun _ => Ok (cost_runtime 230);
  cost_default_to := fun _ => Ok (cost_runtime 249);
  cost_unwrap_ret := fun _ => Ok (cost_runtime 299);
  cost_unwrap_err_or_ret := fun _ => Ok (cost_runtime 339);
  cost_is_okay := fun _ => Ok (cost_runtime 287);
  cost_is_none := fun _ => Ok (cost_runtime 287);
  cost_is_err := fun _ => Ok (cost_runtime 287);
  cost_is_some := fun _ => Ok (cost_runtime 287);
  cost_unwrap := fun _ => Ok (cost_runtime 284);
  cost_unwrap_err := fun _ => Ok (cost_runtime 264);
  cost_try_ret := fun _ => Ok (cost_runtime 256);
  cost_match := fun _ => Ok (cost_runtime 286);
  cost_or := fun n => Ok (cost_runtime (linear n 3 149));
  cost_and := fun n => Ok (cost_runtime (linear n 3 149));
  cost_append := fun n => Ok (cost_runtime (linear n 71 176));
  cost_concat := fun n => Ok (cost_runtime (linear n 75 244));
  cost_as_max_len := fun _ => Ok (cost_runtime 475);
  cost_contract_call := fun _ => Ok (cost_runtime 153);
  cost_contract_of := fun _ => Ok (cost_runtime 13400);
  cost_principal_of := fun _ => Ok (cost_runtime 39);
  cost_at_block := fun _ => Ok (mkExecutionCost 0 0 1 1 210);
  cost_load_contract := fun n => Ok (mkExecutionCost 0 0 (linear n 1 1) 3 (linear n 1 157));
  cost_create_map := fun n => Ok (mkExecutionCost (linear n 1 1) 1 0 0 (linear n 1 1631));
  cost_create_var := fun n => Ok (mkExecutionCost (linear n 1 1) 2 0 0 (linear n 7 2152));
  cost_create_nft := fun n => Ok (mkExecutionCost (linear n 1 1) 1 0 0 (linear n 1 1610));
  cost_create_ft := fun _ => Ok (mkExecutionCost 1 2 0 0 1972);
  cost_fetch_entry := fun n => Ok (mkExecutionCost 0 0 (linear n 1 1) 1 (linear n 1 1539));
  cost_set_entry := fun n => Ok (mkExecutionCost (linear n 1 1) 1 0 1 (linear n 4 2204));
  cost_fetch_var := fun n => Ok (mkExecutionCost 0 0 (linear n 1 1) 1 (linear n 1 543));
  cost_set_var := fun n => Ok (mkExecutionCost (linear n 1 1) 1 0 1 (linear n 5 691));
  cost_contract_storage := fun n => Ok (mkExecutionCost (linear n 1 1) 1 0 0 (linear n 13 7982));
  cost_block_info := fun _ => Ok (mkExecutionCost 0 0 1 1 6321);
  cost_stx_balance := fun _ => Ok (mkExecutionCost 0 0 1 1 1385);
  cost_stx_transfer := fun _ => Ok (mkExecutionCost 1 1 1 1 1430);
  cost_ft_mint := fun _ => Ok (mkExecutionCost 1 2 1 2 1645);
  cost_ft_transfer := fun _ => Ok (mkExecutionCost 1 2 1 2 612);
  cost_ft_balance := fun _ => Ok (mkExecutionCost 0 0 1 1 547);
  cost_ft_get_supply := fun _ => Ok (mkExecutionCost 0 0 1 1 483);
  cost_ft_burn := fun _ => Ok (mkExecutionCost 1 2 1 2 612);
  cost_nft_mint := fun n => Ok (mkExecutionCost 1 1 1 1 (linear n 9 795));
  cost_nft_transfer := fun n => Ok (mkExecutionCost 1 1 1 1 (linear n 9 795));
  cost_nft_owner := fun n => Ok (mkExecutionCost 0 0 1 1 (linear n 9 795));
  cost_nft_burn := fun n => Ok (mkExecutionCost 1 1 1 1 (linear n 9 795));
  poison_microblock := fun _ => Ok (mkExecutionCost 1 1 1 1 29568);
  cost_buff_to_int_le := fun _ => not_implemented;
  cost_buff_to_uint_le := fun _ => not_implemented;
  cost_buff_to_int_be := fun _ => not_implemented;
  cost_buff_to_uint_be := fun _ => not_implemented;
  cost_is_standard := fun _ => not_implemented;
  cost_principal_destruct := fun _ => not_implemented;
  cost_principal_construct := fun _ => not_implemented;
  cost_string_to_int := fun _ => not_implemented;
  cost_string_to_uint := fun _ => not_implemented;
  cost_int_to_ascii := fun _ => not_implemented;
  cost_int_to_utf8 := fun _ => not_implemented;
  cost_burn_block_info := fun _ => not_implemented;
  cost_stx_account := fun _ => not_implemented;
  cost_slice := fun _ => not_implemented;
  cost_to_consensus_buff := fun _ => not_implemented;
  cost_from_consensus_buff := fun _ => not_implemented;
  cost_stx_transfer_memo := fun _ => not_implemented;
  cost_replace_at := fun _ => not_implemented;
  cost_as_contract := fun _ => not_implemented;
  cost_bitwise_and := fun _ => not_implemented;
  cost_bitwise_or := fun _ => not_implemented;
  cost_bitwise_not := fun _ => not_implemented;
  cost_bitwise_left_shift := fun _ => not_implemented;
  cost_bitwise_right_shift := fun _ => not_implemented;
  cost_contract_hash := fun _ => not_implemented;
  cost_to_ascii := fun _ => not_implemented;
  cost_restrict_assets := fun _ => not_implemented;
  cost_as_contract_safe := fun _ => not_implemented;
  cost_secp256r1verify := fun _ => not_implemented;
  cost_verify_merkle_proof := fun _ => not_implemented;
  cost_get_bitcoin_tx_output := fun _ => not_implemented;
  cost_ed25519verify := fun _ => not_implemented;
  cost_secp256k1decompress := fun _ => not_implemented
|}.

Definition Costs3 : CostValues := {|
  cost_analysis_type_annotate := fun n => Ok (cost_runtime (linear n 1 9));
  cost_analysis_type_check := fun n => Ok (cost_runtime (linear n 113 1));
  cost_analysis_type_lookup := fun n => Ok (cost_runtime (linear n 1 4));
  cost_analysis_visit := fun _ => Ok (cost_runtime 1);
  cost_analysis_iterable_func := fun n => Ok (cost_runtime (linear n 2 14));
  cost_analysis_option_cons := fun _ => Ok (cost_runtime 5);
  cost_analysis_option_check := fun _ => Ok (cost_runtime 4);
  cost_analysis_bind_name := fun n => Ok (cost_runtime (linear n 1 59));
  cost_analysis_list_items_check := fun n => Ok (cost_runtime (linear n 2 4));
  cost_analysis_check_tuple_get := fun n => r ← logn n 1 2; mret (cost_runtime r);
  cost_analysis_check_tuple_merge := fun n => r ← nlogn n 45 49; mret (cost_runtime r);
  cost_analysis_check_tuple_cons := fun n => r ← nlogn n 3 5; mret (cost_runtime r);
  cost_analysis_tuple_items_check := fun n => Ok (cost_runtime (linear n 1 28));
  cost_analysis_check_let := fun n => Ok (cost_runtime (linear n 1 10));
  cost_analysis_lookup_function := fun _ => Ok (cost_runtime 18);
  cost_analysis_lookup_function_types := fun n => Ok (cost_runtime (linear n 1 26));
  cost_analysis_lookup_variable_const := fun _ => Ok (cost_runtime 15);
  cost_analysis_lookup_variable_depth := fun n => r ← nlogn n 1 12; mret (cost_runtime r);
  cost_ast_parse := fun n => Ok (cost_runtime (linear n 27 81));
  cost_ast_cycle_detection := fun n => Ok (cost_runtime (linear n 141 72));
  cost_analysis_storage := fun n => Ok (mkExecutionCost (linear n 1 1) 1 1 1 (linear n 2 94));
  cost_analysis_use_trait_entry := fun n =>
    Ok (mkExecutionCost (linear n 1 1) 0 (linear n 1 1) 1 (linear n 9 698));
  cost_analysis_get_function_entry := fun n =>
    Ok (mkExecutionCost 0 0 (linear n 1 1) 1 (linear n 78 1307));
  cost_analysis_fetch_contract_entry := fun n =>
    Ok (mkExecutionCost 0 0 (linear n 1 1) 1 (linear n 1 1516));
  cost_lookup_variable_depth := fun n => Ok (cost_runtime (linear n 1 1));
  cost_lookup_variable_size := fun n => Ok (cost_runtime (linear n 2 1));
  cost_lookup_function := fun _ => Ok (cost_runtime 16);
  cost_bind_name := fun _ => Ok (cost_runtime 216);
  cost_inner_type_check_cost := fun n => Ok (cost_runtime (linear n 2 5));
  cost_user_function_application := fun n => Ok (cost_runtime (linear n 26 5));
  cost_let := fun n => Ok (cost_runtime (linear n 117 178));
  cost_if := fun _ => Ok (cost_runtime 168);
  cost_asserts := fun _ => Ok (cost_runtime 128);
  cost_map := fun n => Ok (cost_runtime (linear n 1198 3067));
  cost_filter := fun _ => Ok (cost_runtime 407);
  cost_len := fun _ => Ok (cost_runtime 429);
  cost_element_at := fun _ => Ok (cost_runtime 498);
  cost_index_of := fun n => Ok (cost_runtime (linear n 1 211));
  cost_fold := fun _ => Ok (cost_runtime 460);
  cost_list_cons := fun n => Ok (cost_runtime (linear n 14 164));
  cost_type_parse_step := fun _ => Ok (cost_runtime 4);
  cost_tuple_get := fun n => r ← nlogn n 4 1736; mret (cost_runtime r);
  cost_tuple_merge := fun n => Ok (cost_runtime (linear n 4 408));
  cost_tuple_cons := fun n => r ← nlogn n 10 1876; mret (cost_runtime r);
  cost_add := fun n => Ok (cost_runtime (linear n 11 125));
  cost_sub := fun n => Ok (cost_runtime (linear n 11 125));
  cost_mul := fun n => Ok (cost_runtime (linear n 13 125));
  cost_div := fun n => Ok (cost_runtime (linear n 13 125));
  cost_geq := fun n => Ok (cost_runtime (linear n 7 128));
  cost_leq := fun n => Ok (cost_runtime (linear n 7 128));
  cost_le := fun n => Ok (cost_runtime (linear n 7 128));
  cost_ge := fun n => Ok (cost_runtime (linear n 7 128));
  cost_int_cast := fun _ => Ok (cost_runtime 135);
  cost_mod := fun _ => Ok (cost_runtime 141);
  cost_pow := fun _ => Ok (cost_runtime 143);
  cost_sqrti := fun _ => Ok (cost_runtime 142);
  cost_log2 := fun _ => Ok (cost_runtime 133);
  cost_xor := fun n => Ok (cost_runtime (linear n 15 129));
  cost_not := fun _ => Ok (cost_runtime 138);
  cost_eq := fun n => Ok (cost_runtime (linear n 7 151));
  cost_begin := fun _ => Ok (cost_runtime 151);
  cost_hash160 := fun n => Ok (cost_runtime (linear n 1 188));
  cost_sha256 := fun n => Ok (cost_runtime (linear n 1 100));
  cost_sha512 := fun n => Ok (cost_runtime (linear n 1 176));
  cost_sha512t256 := fun n => Ok (cost_runtime (linear n 1 56));
  cost_keccak256 := fun n => Ok (cost_runtime (linear n 1 127));
  cost_secp256k1recover := fun _ => Ok (cost_runtime 8655);
  cost_secp256k1verify := fun _ => Ok (cost_runtime 8349);
  cost_print := fun n => Ok (cost_runtime (linear n 15 1458));
  cost_some_cons := fun _ => Ok (cost_runtime 199);
  cost_ok_cons := fun _ => Ok (cost_runtime 199);
  cost_err_cons := fun _ => Ok (cost_runtime 199);
  cost_default_to := fun _ => Ok (cost_runtime 268);
  cost_unwrap_ret := fun _ => Ok (cost_runtime 274);
  cost_unwrap_err_or_ret := fun _ => Ok (cost_runtime 302);
  cost_is_okay := fun _ => Ok (cost_runtime 258);
  cost_is_none := fun _ => Ok (cost_runtime 214);
  cost_is_err := fun _ => Ok (cost_runtime 245);
  cost_is_some := fun _ => Ok (cost_runtime 195);
  cost_unwrap := fun _ => Ok (cost_runtime 252);
  cost_unwrap_err := fun _ => Ok (cost_runtime 248);
  cost_try_ret := fun _ => Ok (cost_runtime 240);
  cost_match := fun _ => Ok (cost_runtime 264);
  cost_or := fun n => Ok (cost_runtime (linear n 3 120));
  cost_and := fun n => Ok (cost_runtime (linear n 3 120));
  cost_append := fun n => Ok (cost_runtime (linear n 73 285));
  cost_concat := fun n => Ok (cost_runtime (linear n 37 220));
  cost_as_max_len := fun _ => Ok (cost_runtime 475);
  cost_contract_call := fun _ => Ok (cost_runtime 134);
  cost_contract_of := fun _ => Ok (cost_runtime 13400);
  cost_principal_of := fun _ => Ok (cost_runtime 984);
  cost_at_block := fun _ => Ok (mkExecutionCost 0 0 1 1 1327);
  cost_load_contract := fun n => Ok (mkExecutionCost 0 0 (linear n 1 1) 3 (linear n 1 80));
  cost_create_map := fun n => Ok (mkExecutionCost (linear n 1 1) 1 0 0 (linear n 1 1564));
  cost_create_var := fun n => Ok (mkExecutionCost (linear n 1 1) 2 0 0 (linear n 7 2025));
  cost_create_nft := fun n => Ok (mkExecutionCost (linear n 1 1) 1 0 0 (linear n 1 1570));
  cost_create_ft := fun _ => Ok (mkExecutionCost 1 2 0 0 1831);
  cost_fetch_entry := fun n => Ok (mkExecutionCost 0 0 (linear n 1 1) 1 (linear n 1 1025));
  cost_set_entry := fun n => Ok (mkExecutionCost (linear n 1 1) 1 0 1 (linear n 4 1899));
  cost_fetch_var := fun n => Ok (mkExecutionCost 0 0 (linear n 1 1) 1 (linear n 1 468));
  cost_set_var := fun n => Ok (mkExecutionCost (linear n 1 1) 1 0 1 (linear n 5 655));
  cost_contract_storage := fun n => Ok (mkExecutionCost (linear n 1 1) 1 0 0 (linear n 11 7165));
  cost_block_info := fun _ => Ok (mkExecutionCost 0 0 1 1 6321);
  cost_stx_balance := fun _ => Ok (mkExecutionCost 0 0 1 1 4294);
  cost_stx_transfer := fun _ => Ok (mkExecutionCost 1 1 1 1 4640);
  cost_ft_mint := fun _ => Ok (mkExecutionCost 1 2 1 2 1479);
  cost_ft_transfer := fun _ => Ok (mkExecutionCost 1 2 1 2 549);
  cost_ft_balance := fun _ => Ok (mkExecutionCost 0 0 1 1 479);
  cost_ft_get_supply := fun _ => Ok (mkExecutionCost 0 0 1 1 420);
  cost_ft_burn := fun _ => Ok (mkExecutionCost 1 2 1 2 549);
  cost_nft_mint := fun n => Ok (mkExecutionCost 1 1 1 1 (linear n 9 575));
  cost_nft_transfer := fun n => Ok (mkExecutionCost 1 1 1 1 (linear n 9 572));
  cost_nft_owner := fun n => Ok (mkExecutionCost 0 0 1 1 (linear n 9 795));
  cost_nft_burn := fun n => Ok (mkExecutionCost 1 1 1 1 (linear n 9 572));
  poison_microblock := fun _ => Ok (mkExecutionCost 1 1 1 1 17485);
  cost_buff_to_int_le := fun _ => Ok (cost_runtime 141);
  cost_buff_to_uint_le := fun _ => Ok (cost_runtime 141);
  cost_buff_to_int_be := fun _ => Ok (cost_runtime 141);
  cost_buff_to_uint_be := fun _ => Ok (cost_runtime 141);
  cost_is_standard := fun _ => Ok (cost_runtime 127);
  cost_principal_destruct := fun _ => Ok (cost_runtime 314);
  cost_principal_construct := fun _ => Ok (cost_runtime 398);
  cost_string_to_int := fun _ => Ok (cost_runtime 168);
  cost_string_to_uint := fun _ => Ok (cost_runtime 168);
  cost_int_to_ascii := fun _ => Ok (cost_runtime 147);
  cost_int_to_utf8 := fun _ => Ok (cost_runtime 181);
  cost_burn_block_info := fun _ => Ok (mkExecutionCost 0 0 1 1 96479);
  cost_stx_account := fun _ => Ok (mkExecutionCost 0 0 1 1 4654);
  cost_slice := fun _ => Ok (cost_runtime 448);
  cost_to_consensus_buff := fun n => Ok (cost_runtime (linear n 1 233));
  cost_from_consensus_buff := fun n => r ← nlogn n 3 185; mret (cost_runtime r);
  cost_stx_transfer_memo := fun _ => Ok (mkExecutionCost 1 1 1 1 4709);
  cost_replace_at := fun n => Ok (cost_runtime (linear n 1 561));
  cost_as_contract := fun _ => Ok (cost_runtime 138);
  cost_bitwise_and := fun n => Ok (cost_runtime (linear n 15 129));
  cost_bitwise_or := fun n => Ok (cost_runtime (linear n 15 129));
  cost_bitwise_not := fun _ => Ok (cost_runtime 147);
  cost_bitwise_left_shift := fun _ => Ok (cost_runtime 167);
  cost_bitwise_right_shift := fun _ => Ok (cost_runtime 167);
  cost_contract_hash := fun _ => not_implemented;
  cost_to_ascii := fun _ => not_implemented;
  cost_restrict_assets := fun _ => not_implemented;
  cost_as_contract_safe := fun _ => not_implemented;
  cost_secp256r1verify := fun _ => not_implemented;
  cost_verify_merkle_proof := fun _ => not_implemented;
  cost_get_bitcoin_tx_output := fun _ => not_implemented;
  cost_ed25519verify := fun _ => not_implemented;
  cost_secp256k1decompress := fun _ => not_implemented
|}.

Definition Costs4 : CostValues := {|
  cost_analysis_type_annotate := fun n => cost_analysis_type_annotate Costs3 n;
  cost_analysis_type_check := fun n => cost_analysis_type_check Costs3 n;
  cost_analysis_type_lookup := fun n => cost_analysis_type_lookup Costs3 n;
  cost_analysis_visit := fun n => cost_analysis_visit Costs3 n;
  cost_analysis_iterable_func := fun n => cost_analysis_iterable_func Costs3 n;
  cost_analysis_option_cons := fun n => cost_analysis_option_cons Costs3 n;
  cost_analysis_option_check := fun n => cost_analysis_option_check Costs3 n;
  cost_analysis_bind_name := fun n => cost_analysis_bind_name Costs3 n;
  cost_analysis_list_items_check := fun n => cost_analysis_list_items_check Costs3 n;
  cost_analysis_check_tuple_get := fun n => cost_analysis_check_tuple_get Costs3 n;
  cost_analysis_check_tuple_merge := fun n => cost_analysis_check_tuple_merge Costs3 n;
  cost_analysis_check_tuple_cons := fun n => cost_analysis_check_tuple_cons Costs3 n;
  cost_analysis_tuple_items_check := fun n => cost_analysis_tuple_items_check Costs3 n;
  cost_analysis_check_let := fun n => cost_analysis_check_let Costs3 n;
  cost_analysis_lookup_function := fun n => cost_analysis_lookup_function Costs3 n;
  cost_analysis_lookup_function_types := fun n => cost_analysis_lookup_function_types Costs3 n;
  cost_analysis_lookup_variable_const := fun n => cost_analysis_lookup_variable_const Costs3 n;
  cost_analysis_lookup_variable_depth := fun n => cost_analysis_lookup_variable_depth Costs3 n;
  cost_ast_parse := fun n => cost_ast_parse Costs3 n;
  cost_ast_cycle_detection := fun n => cost_ast_cycle_detection Costs3 n;
  cost_analysis_storage := fun n => cost_analysis_storage Costs3 n;
  cost_analysis_use_trait_entry := fun n => cost_analysis_use_trait_entry Costs3 n;
  cost_analysis_get_function_entry := fun n => cost_analysis_get_function_entry Costs3 n;
  cost_analysis_fetch_contract_entry := fun n => cost_analysis_fetch_contract_entry Costs3 n;
  cost_lookup_variable_depth := fun n => cost_lookup_variable_depth Costs3 n;
  cost_lookup_variable_size := fun n => cost_lookup_variable_size Costs3 n;
  cost_lookup_function := fun n => cost_lookup_function Costs3 n;
  cost_bind_name := fun n => cost_bind_name Costs3 n;
  cost_inner_type_check_cost := fun n => cost_inner_type_check_cost Costs3 n;
  cost_user_function_application := fun n => cost_user_function_application Costs3 n;
  cost_let := fun n => cost_let Costs3 n;
  cost_if := fun n => cost_if Costs3 n;
  cost_asserts := fun n => cost_asserts Costs3 n;
  cost_map := fun n => cost_map Costs3 n;
  cost_filter := fun n => cost_filter Costs3 n;
  cost_len := fun n => cost_len Costs3 n;
  cost_element_at := fun n => cost_element_at Costs3 n;
  cost_index_of := fun n => cost_index_of Costs3 n;
  cost_fold := fun n => cost_fold Costs3 n;
  cost_list_cons := fun n => cost_list_cons Costs3 n;
  cost_type_parse_step := fun n => cost_type_parse_step Costs3 n;
  cost_tuple_get := fun n => cost_tuple_get Costs3 n;
  cost_tuple_merge := fun n => cost_tuple_merge Costs3 n;
  cost_tuple_cons := fun n => cost_tuple_cons Costs3 n;
  cost_add := fun n => cost_add Costs3 n;
  cost_sub := fun n => cost_sub Costs3 n;
  cost_mul := fun n => cost_mul Costs3 n;
  cost_div := fun n => cost_div Costs3 n;
  cost_geq := fun n => cost_geq Costs3 n;
  cost_leq := fun n => cost_leq Costs3 n;
  cost_le := fun n => cost_le Costs3 n;
  cost_ge := fun n => cost_ge Costs3 n;
  cost_int_cast := fun n => cost_int_cast Costs3 n;
  cost_mod := fun n => cost_mod Costs3 n;
  cost_pow := fun n => cost_pow Costs3 n;
  cost_sqrti := fun n => cost_sqrti Costs3 n;
  cost_log2 := fun n => cost_log2 Costs3 n;
  cost_xor := fun n => cost_xor Costs3 n;
  cost_not := fun n => cost_not Costs3 n;
  cost_eq := fun n => cost_eq Costs3 n;
  cost_begin := fun n => cost_begin Costs3 n;
  cost_hash160 := fun n => cost_hash160 Costs3 n;
  cost_sha256 := fun n => cost_sha256 Costs3 n;
  cost_sha512 := fun n => cost_sha512 Costs3 n;
  cost_sha512t256 := fun n => cost_sha512t256 Costs3 n;
  cost_keccak256 := fun n => cost_keccak256 Costs3 n;
  cost_secp256k1recover := fun n => cost_secp256k1recover Costs3 n;
  cost_secp256k1verify := fun n => cost_secp256k1verify Costs3 n;
  cost_print := fun n => cost_print Costs3 n;
  cost_some_cons := fun n => cost_some_cons Costs3 n;
  cost_ok_cons := fun n => cost_ok_cons Costs3 n;
  cost_err_cons := fun n => cost_err_cons Costs3 n;
  cost_default_to := fun n => cost_default_to Costs3 n;
  cost_unwrap_ret := fun n => cost_unwrap_ret Costs3 n;
  cost_unwrap_err_or_ret := fun n => cost_unwrap_err_or_ret Costs3 n;
  cost_is_okay := fun n => cost_is_okay Costs3 n;
  cost_is_none := fun n => cost_is_none Costs3 n;
  cost_is_err := fun n => cost_is_err Costs3 n;
  cost_is_some := fun n => cost_is_some Costs3 n;
  cost_unwrap := fun n => cost_unwrap Costs3 n;
  cost_unwrap_err := fun n => cost_unwrap_err Costs3 n;
  cost_try_ret := fun n => cost_try_ret Costs3 n;
  cost_match := fun n => cost_match Costs3 n;
  cost_or := fun n => cost_or Costs3 n;
  cost_and := fun n => cost_and Costs3 n;
  cost_append := fun n => cost_append Costs3 n;
  cost_concat := fun n => cost_concat Costs3 n;
  cost_as_max_len := fun n => cost_as_max_len Costs3 n;
  cost_contract_call := fun n => cost_contract_call Costs3 n;
  cost_contract_of := fun n => cost_contract_of Costs3 n;
  cost_principal_of := fun n => cost_principal_of Costs3 n;
  cost_at_block := fun n => cost_at_block Costs3 n;
  cost_load_contract := fun n => cost_load_contract Costs3 n;
  cost_create_map := fun n => cost_create_map Costs3 n;
  cost_create_var := fun n => cost_create_var Costs3 n;
  cost_create_nft := fun n => cost_create_nft Costs3 n;
  cost_create_ft := fun n => cost_create_ft Costs3 n;
  cost_fetch_entry := fun n => cost_fetch_entry Costs3 n;
  cost_set_entry := fun n => cost_set_entry Costs3 n;
  cost_fetch_var := fun n => cost_fetch_var Costs3 n;
  cost_set_var := fun n => cost_set_var Costs3 n;
  cost_contract_storage := fun n => cost_contract_storage Costs3 n;
  cost_block_info := fun n => cost_block_info Costs3 n;
  cost_stx_balance := fun n => cost_stx_balance Costs3 n;
  cost_stx_transfer := fun n => cost_stx_transfer Costs3 n;
  cost_ft_mint := fun n => cost_ft_mint Costs3 n;
  cost_ft_transfer := fun n => cost_ft_transfer Costs3 n;
  cost_ft_balance := fun n => cost_ft_balance Costs3 n;
  cost_ft_get_supply := fun n => cost_ft_get_supply Costs3 n;
  cost_ft_burn := fun n => cost_ft_burn Costs3 n;
  cost_nft_mint := fun n => cost_nft_mint Costs3 n;
  cost_nft_transfer := fun n => cost_nft_transfer Costs3 n;
  cost_nft_owner := fun n => cost_nft_owner Costs3 n;
  cost_nft_burn := fun n => cost_nft_burn Costs3 n;
  poison_microblock := fun n => poison_microblock Costs3 n;
  cost_buff_to_int_le := fun n => cost_buff_to_int_le Costs3 n;
  cost_buff_to_uint_le := fun n => cost_buff_to_uint_le Costs3 n;
  cost_buff_to_int_be := fun n => cost_buff_to_int_be Costs3 n;
  cost_buff_to_uint_be := fun n => cost_buff_to_uint_be Costs3 n;
  cost_is_standard := fun n => cost_is_standard Costs3 n;
  cost_principal_destruct := fun n => cost_principal_destruct Costs3 n;
  cost_principal_construct := fun n => cost_principal_construct Costs3 n;
  cost_string_to_int := fun n => cost_string_to_int Costs3 n;
  cost_string_to_uint := fun n => cost_string_to_uint Costs3 n;
  cost_int_to_ascii := fun n => cost_int_to_ascii Costs3 n;
  cost_int_to_utf8 := fun n => cost_int_to_utf8 Costs3 n;
  cost_burn_block_info := fun n => cost_burn_block_info Costs3 n;
  cost_stx_account := fun n => cost_stx_account Costs3 n;
  cost_slice := fun n => cost_slice Costs3 n;
  cost_to_consensus_buff := fun n => cost_to_consensus_buff Costs3 n;
  cost_from_consensus_buff := fun n => cost_from_consensus_buff Costs3 n;
  cost_stx_transfer_memo := fun n => cost_stx_transfer_memo Costs3 n;
  cost_replace_at := fun n => cost_replace_at Costs3 n;
  cost_as_contract := fun n => cost_as_contract Costs3 n;
  cost_bitwise_and := fun n => cost_bitwise_and Costs3 n;
  cost_bitwise_or := fun n => cost_bitwise_or Costs3 n;
  cost_bitwise_not := fun n => cost_bitwise_not Costs3 n;
  cost_bitwise_left_shift := fun n => cost_bitwise_left_shift Costs3 n;
  cost_bitwise_right_shift := fun n => cost_bitwise_right_shift Costs3 n;
  cost_contract_hash := fun _ => Ok (mkExecutionCost 0 0 32 1 188);
  cost_to_ascii := fun n => Ok (cost_runtime (linear n 16 150));
  cost_restrict_assets := fun n => Ok (cost_runtime (linear n 125 750));
  cost_as_contract_safe := fun n => Ok (cost_runtime (linear n 125 888));
  cost_secp256r1verify := fun _ => Ok (cost_runtime 51750);
  cost_verify_merkle_proof := fun _ => not_implemented;
  cost_get_bitcoin_tx_output := fun _ => not_implemented;
  cost_ed25519verify := fun _ => not_implemented;
  cost_secp256k1decompress := fun _ => not_implemented
|}.

Definition Costs5 : CostValues := {|
  cost_analysis_type_annotate := fun n => cost_analysis_type_annotate Costs4 n;
  cost_analysis_type_check := fun n => cost_analysis_type_check Costs4 n;
  cost_analysis_type_lookup := fun n => cost_analysis_type_lookup Costs4 n;
  cost_analysis_visit := fun n => cost_analysis_visit Costs4 n;
  cost_analysis_iterable_func := fun n => cost_analysis_iterable_func Costs4 n;
  cost_analysis_option_cons := fun n => cost_analysis_option_cons Costs4 n;
  cost_analysis_option_check := fun n => cost_analysis_option_check Costs4 n;
  cost_analysis_bind_name := fun n => cost_analysis_bind_name Costs4 n;
  cost_analysis_list_items_check := fun n => cost_analysis_list_items_check Costs4 n;
  cost_analysis_check_tuple_get := fun n => cost_analysis_check_tuple_get Costs4 n;
  cost_analysis_check_tuple_merge := fun n => cost_analysis_check_tuple_merge Costs4 n;
  cost_analysis_check_tuple_cons := fun n => cost_analysis_check_tuple_cons Costs4 n;
  cost_analysis_tuple_items_check := fun n => cost_analysis_tuple_items_check Costs4 n;
  cost_analysis_check_let := fun n => cost_analysis_check_let Costs4 n;
  cost_analysis_lookup_function := fun n => cost_analysis_lookup_function Costs4 n;
  cost_analysis_lookup_function_types := fun n => cost_analysis_lookup_function_types Costs4 n;
  cost_analysis_lookup_variable_const := fun n => cost_analysis_lookup_variable_const Costs4 n;
  cost_analysis_lookup_variable_depth := fun n => cost_analysis_lookup_variable_depth Costs4 n;
  cost_ast_parse := fun n => cost_ast_parse Costs4 n;
  cost_ast_cycle_detection := fun n => cost_ast_cycle_detection Costs4 n;
  cost_analysis_storage := fun n => cost_analysis_storage Costs4 n;
  cost_analysis_use_trait_entry := fun n => cost_analysis_use_trait_entry Costs4 n;
  cost_analysis_get_function_entry := fun n => cost_analysis_get_function_entry Costs4 n;
  cost_analysis_fetch_contract_entry := fun n => cost_analysis_fetch_contract_entry Costs4 n;
  cost_lookup_variable_depth := fun n => cost_lookup_variable_depth Costs4 n;
  cost_lookup_variable_size := fun n => cost_lookup_variable_size Costs4 n;
  cost_lookup_function := fun n => cost_lookup_function Costs4 n;
  cost_bind_name := fun n => cost_bind_name Costs4 n;
  cost_inner_type_check_cost := fun n => cost_inner_type_check_cost Costs4 n;
  cost_user_function_application := fun n => cost_user_function_application Costs4 n;
  cost_let := fun n => Ok (cost_runtime (linear (Z.shiftr n 3) 1 32));
  cost_if := fun n => cost_if Costs4 n;
  cost_asserts := fun n => cost_asserts Costs4 n;
  cost_map := fun n => Ok (cost_runtime (linear (Z.shiftr n 2) 1 32));
  cost_filter := fun n => Ok (cost_runtime (linear (Z.shiftr n 2) 1 32));
  cost_len := fun _ => Ok (cost_runtime 31);
  cost_element_at := fun _ => Ok (cost_runtime 31);
  cost_index_of := fun n => Ok (cost_runtime (linear (Z.shiftr n 9) 1 38));
  cost_fold := fun n => Ok (cost_runtime (linear (Z.shiftr n 3) 1 32));
  cost_list_cons := fun n => Ok (cost_runtime (linear (Z.shiftr n 4) 1 31));
  cost_type_parse_step := fun n => cost_type_parse_step Costs4 n;
  cost_tuple_get := fun n => Ok (cost_runtime (linear (Z.shiftr n 2) 1 32));
  cost_tuple_merge := fun n => Ok (cost_runtime (linear (Z.shiftr n 2) 1 32));
  cost_tuple_cons := fun n => Ok (cost_runtime (linear (Z.shiftr n 2) 1 31));
  cost_add := fun n => Ok (cost_runtime (linear (Z.shiftr n 4) 1 31));
  cost_sub := fun n => Ok (cost_runtime (linear (Z.shiftr n 5) 1 32));
  cost_mul := fun n => Ok (cost_runtime (linear (Z.shiftr n 4) 1 31));
  cost_div := fun n => Ok (cost_runtime (linear (Z.shiftr n 5) 1 32));
  cost_geq := fun n => Ok (cost_runtime (linear (Z.shiftr n 8) 1 38));
  cost_leq := fun n => Ok (cost_runtime (linear (Z.shiftr n 8) 1 38));
  cost_le := fun n => Ok (cost_runtime (linear (Z.shiftr n 8) 1 38));
  cost_ge := fun n => Ok (cost_runtime (linear (Z.shiftr n 8) 1 38));
  cost_int_cast := fun _ => Ok (cost_runtime 31);
  cost_mod := fun _ => Ok (cost_runtime 31);
  cost_pow := fun _ => Ok (cost_runtime 31);
  cost_sqrti := fun _ => Ok (cost_runtime 31);
  cost_log2 := fun _ => Ok (cost_runtime 31);
  cost_xor := fun n => Ok (cost_runtime (linear (Z.shiftr n 4) 1 31));
  cost_not := fun _ => Ok (cost_runtime 31);
  cost_eq := fun n => Ok (cost_runtime (linear (Z.shiftr n 9) 1 38));
  cost_begin := fun n => Ok (cost_runtime (linear (Z.shiftr n 4) 1 31));
  cost_hash160 := fun n => Ok (cost_runtime (linear (Z.shiftr n 9) 1 38));
  cost_sha256 := fun n => Ok (cost_runtime (linear (Z.shiftr n 9) 1 38));
  cost_sha512 := fun n => Ok (cost_runtime (linear (Z.shiftr n 9) 1 38));
  cost_sha512t256 := fun n => Ok (cost_runtime (linear (Z.shiftr n 9) 1 38));
  cost_keccak256 := fun n => Ok (cost_runtime (linear (Z.shiftr n 9) 1 38));
  cost_secp256k1recover := fun _ => Ok (cost_runtime 38);
  cost_secp256k1verify := fun _ => Ok (cost_runtime 38);
  cost_print := fun n => Ok (cost_runtime (linear (Z.shiftr n 9) 1 31));
  cost_some_cons := fun _ => Ok (cost_runtime 31);
  cost_ok_cons := fun _ => Ok (cost_runtime 31);
  cost_err_cons := fun _ => Ok (cost_runtime 31);
  cost_default_to := fun _ => Ok (cost_runtime 31);
  cost_unwrap_ret := fun _ => Ok (cost_runtime 31);
  cost_unwrap_err_or_ret := fun _ => Ok (cost_runtime 31);
  cost_is_okay := fun _ => Ok (cost_runtime 31);
  cost_is_none := fun _ => Ok (cost_runtime 31);
  cost_is_err := fun _ => Ok (cost_runtime 31);
  cost_is_some := fun _ => Ok (cost_runtime 31);
  cost_unwrap := fun _ => Ok (cost_runtime 31);
  cost_unwrap_err := fun _ => Ok (cost_runtime 31);
  cost_try_ret := fun _ => Ok (cost_runtime 31);
  cost_match := fun _ => Ok (cost_runtime 31);
  cost_or := fun n => Ok (cost_runtime (linear (Z.shiftr n 4) 1 31));
  cost_and := fun n => Ok (cost_runtime (linear (Z.shiftr n 4) 1 31));
  cost_append := fun n => Ok (cost_runtime (linear (Z.shiftr n 4) 1 31));
  cost_concat := fun n => Ok (cost_runtime (linear (Z.shiftr n 10) 1 31));
  cost_as_max_len := fun _ => Ok (cost_runtime 31);
  cost_contract_call := fun n => cost_contract_call Costs4 n;
  cost_contract_of := fun n => cost_contract_of Costs4 n;
  cost_principal_of := fun n => cost_principal_of Costs4 n;
  cost_at_block := fun n => cost_at_block Costs4 n;
  cost_load_contract := fun n => cost_load_contract Costs4 n;
  cost_create_map := fun n => cost_create_map Costs4 n;
  cost_create_var := fun n => cost_create_var Costs4 n;
  cost_create_nft := fun n => cost_create_nft Costs4 n;
  cost_create_ft := fun n => cost_create_ft Costs4 n;
  cost_fetch_entry := fun n => Ok (mkExecutionCost 0 0 (linear n 1 1) 1 44);
  cost_set_entry := fun n => Ok (mkExecutionCost (linear n 1 1) 1 0 1 (linear (Z.shiftr n 9) 3 45));
  cost_fetch_var := fun n => Ok (mkExecutionCost 0 0 (linear n 1 1) 1 (linear (Z.shiftr n 9) 2 44));
  cost_set_var := fun n => Ok (mkExecutionCost (linear n 1 1) 1 0 1 (linear (Z.shiftr n 9) 4 45));
  cost_contract_storage := fun n => cost_contract_storage Costs4 n;
  cost_block_info := fun n => cost_block_info Costs4 n;
  cost_stx_balance := fun n => cost_stx_balance Costs4 n;
  cost_stx_transfer := fun n => cost_stx_transfer Costs4 n;
  cost_ft_mint := fun n => cost_ft_mint Costs4 n;
  cost_ft_transfer := fun n => cost_ft_transfer Costs4 n;
  cost_ft_balance := fun n => cost_ft_balance Costs4 n;
  cost_ft_get_supply := fun n => cost_ft_get_supply Costs4 n;
  cost_ft_burn := fun n => cost_ft_burn Costs4 n;
  cost_nft_mint := fun n => cost_nft_mint Costs4 n;
  cost_nft_transfer := fun n => cost_nft_transfer Costs4 n;
  cost_nft_owner := fun n => cost_nft_owner Costs4 n;
  cost_nft_burn := fun n => cost_nft_burn Costs4 n;
  poison_microblock := fun n => poison_microblock Costs4 n;
  cost_buff_to_int_le := fun _ => Ok (cost_runtime 31);
  cost_buff_to_uint_le := fun _ => Ok (cost_runtime 31);
  cost_buff_to_int_be := fun _ => Ok (cost_runtime 31);
  cost_buff_to_uint_be := fun _ => Ok (cost_runtime 31);
  cost_is_standard := fun _ => Ok (cost_runtime 31);
  cost_principal_destruct := fun _ => Ok (cost_runtime 32);
  cost_principal_construct := fun _ => Ok (cost_runtime 32);
  cost_string_to_int := fun n => Ok (cost_runtime (linear (Z.shiftr n 4) 1 31));
  cost_string_to_uint := fun n => Ok (cost_runtime (linear (Z.shiftr n 4) 1 31));
  cost_int_to_ascii := fun _ => Ok (cost_runtime 31);
  cost_int_to_utf8 := fun _ => Ok (cost_runtime 31);
  cost_burn_block_info := fun n => cost_burn_block_info Costs4 n;
  cost_stx_account := fun n => cost_stx_account Costs4 n;
  cost_slice := fun n => Ok (cost_runtime (linear (Z.shiftr n 9) 1 38));
  cost_to_consensus_buff := fun n => Ok (cost_runtime (linear (Z.shiftr n 9) 1 38));
  cost_from_consensus_buff := fun n => Ok (cost_runtime (linear (Z.shiftr n 9) 1 38));
  cost_stx_transfer_memo := fun n => cost_stx_transfer_memo Costs4 n;
  cost_replace_at := fun n => Ok (cost_runtime (linear (Z.shiftr n 9) 1 31));
  cost_as_contract := fun n => cost_as_contract Costs4 n;
  cost_bitwise_and := fun n => Ok (cost_runtime (linear (Z.shiftr n 4) 1 31));
  cost_bitwise_or := fun n => Ok (cost_runtime (linear (Z.shiftr n 4) 1 31));
  cost_bitwise_not := fun _ => Ok (cost_runtime 31);
  cost_bitwise_left_shift := fun _ => Ok (cost_runtime 31);
  cost_bitwise_right_shift := fun _ => Ok (cost_runtime 31);
  cost_contract_hash := fun n => cost_contract_hash Costs4 n;
  cost_to_ascii := fun n => Ok (cost_runtime (linear (Z.shiftr n 6) 1 32));
  cost_restrict_assets := fun n => cost_restrict_assets Costs4 n;
  cost_as_contract_safe := fun n => cost_as_contract_safe Costs4 n;
  cost_secp256r1verify := fun _ => Ok (cost_runtime 38);
  cost_verify_merkle_proof := fun n => Ok (cost_runtime (linear (Z.shiftr n 2) 1 38));
  cost_get_bitcoin_tx_output := fun n => Ok (cost_runtime (linear (Z.shiftr n 9) 1 38));
  cost_ed25519verify := fun n => Ok (cost_runtime (linear (Z.shiftr n 9) 1 39));
  cost_secp256k1decompress := fun _ => Ok (cost_runtime 39)
|}.

(** ** Versions *)

Inductive DefaultVersion :=
| VersionCosts1 | VersionCosts2 | VersionCosts2Testnet | VersionCosts3 | VersionCosts4
| VersionCosts5.

(** The implementation that [DefaultVersion::evaluate] selects *)
Definition cost_values (v : DefaultVersion) : CostValues :=
  match v with
  | VersionCosts1 => Costs1
  | VersionCosts2 => Costs2
  | VersionCosts2Testnet => Costs2Testnet
  | VersionCosts3 => Costs3
  | VersionCosts4 => Costs4
  | VersionCosts5 => Costs5
  end.

Definition COSTS_1_NAME : string := "costs".
Definition COSTS_2_NAME : string := "costs-2".
Definition COSTS_3_NAME : string := "costs-3".
Definition COSTS_4_NAME : string := "costs-4".
Definition COSTS_5_NAME : string := "costs-5".

Definition default_version_try_from (mainnet : bool) (value : QualifiedContractIdentifier)
    : result string DefaultVersion :=
  if negb (is_boot value) then Err "Not a boot contract"
  else if String.eqb (contract_name value) COSTS_1_NAME then Ok VersionCosts1
  else if String.eqb (contract_name value) COSTS_2_NAME then
    if mainnet then Ok VersionCosts2 else Ok VersionCosts2Testnet
  else if String.eqb (contract_name value) COSTS_3_NAME then Ok VersionCosts3
  else if String.eqb (contract_name value) COSTS_4_NAME then Ok VersionCosts4
  else if String.eqb (contract_name value) COSTS_5_NAME then Ok VersionCosts5
  else Err ("Unknown default contract " +:+ contract_name value).

Definition default_cost_contract_for_epoch (epoch_id : StacksEpochId) : result CostErrors string :=
  match epoch_id with
  | Epoch10 => Err (CE_Expect
      "Attempted to get default cost functions for Epoch 1.0 where Clarity does not exist")
  | Epoch20 => Ok COSTS_1_NAME
  | Epoch2_05 => Ok COSTS_2_NAME
  | Epoch21 | Epoch22 | Epoch23 | Epoch24 | Epoch25 | Epoch30 | Epoch31 | Epoch32 =>
      Ok COSTS_3_NAME
  | Epoch33 | Epoch34 => Ok COSTS_4_NAME
  | Epoch40 | Epoch41 => Ok COSTS_5_NAME
  end.

(** ** Shapes

    Every component of a cost is a monotone [u64] function of the input size;
    [well_behaved] collects what follows for a method. *)

Definition cost_ok (c : ExecutionCost) : Prop :=
  is_u64 (write_length c) /\ is_u64 (write_count c) /\ is_u64 (read_length c) /\
  is_u64 (read_count c) /\ is_u64 (runtime c).

Definition componentwise_le (c d : ExecutionCost) : Prop :=
  write_length c <= write_length d /\ write_count c <= write_count d /\
  read_length c <= read_length d /\ read_count c <= read_count d /\ runtime c <= runtime d.

Definition component (h : Z -> Z) : Prop :=
  forall n, 0 <= n -> is_u64 (h n) /\ forall m, n <= m -> h n <= h m.

Record well_behaved (g : Z -> result VmExecutionError ExecutionCost) : Prop := {
  wb_outcome n : 0 <= n ->
    match g n with
    | Ok c => cost_ok c
    | Err e => e = vm_from_runtime RE_NotImplemented \/ (e = log2_error /\ n < 1)
    | Panic => False
    end;
  wb_monotone n m c d : 0 <= n <= m -> g n = Ok c -> g m = Ok d -> componentwise_le c d;
  wb_missing n m : 0 <= n -> g n = Err (vm_from_runtime RE_NotImplemented) -> g m = g n;
}.

Lemma component_const k : is_u64 k -> component (fun _ => k).
Proof. intros Hk n Hn. by split. Qed.

Lemma saturating_component (h : Z -> Z) :
  (forall n, 0 <= n -> 0 <= h n) -> (forall n m, 0 <= n <= m -> h n <= h m) ->
  component (fun n => Z.min u64_max (h n)).
Proof.
  intros Hp Hm n Hn. specialize (Hp n Hn). assert (0 <= u64_max) by done.
  split; [unfold is_u64; split; lia |].
  intros m Hnm. specialize (Hm n m (conj Hn Hnm)). lia.
Qed.

Lemma linear_component s a b :
  0 <= s -> 0 <= a -> 0 <= b -> component (fun n => linear (Z.shiftr n s) a b).
Proof.
  intros Hs Ha Hb. unfold linear, u64_saturating_add, u64_saturating_mul.
  apply saturating_component.
  - intros n Hn. assert (0 <= Z.shiftr n s) by (by apply Z.shiftr_nonneg). unfold u64_max in *. nia.
  - intros n m [Hn Hm]. assert (Z.shiftr n s <= Z.shiftr m s).
    { rewrite !Z.shiftr_div_pow2 by done. apply Z.div_le_mono; lia. }
    nia.
Qed.

Lemma linear0_component a b : 0 <= a -> 0 <= b -> component (fun n => linear n a b).
Proof. intros Ha Hb n Hn. by apply (linear_component 0 a b ltac:(lia) Ha Hb n). Qed.

Lemma wb_cost wl wc rl rc rt :
  component wl -> component wc -> component rl -> component rc -> component rt ->
  well_behaved (fun n => Ok (mkExecutionCost (wl n) (wc n) (rl n) (rc n) (rt n))).
Proof.
  intros H1 H2 H3 H4 H5. split.
  - intros n Hn. split_and!; by (apply H1 || apply H2 || apply H3 || apply H4 || apply H5).
  - intros n m c d [Hn Hm] [= <-] [= <-].
    split_and!; cbn; by (apply H1 || apply H2 || apply H3 || apply H4 || apply H5).
  - done.
Qed.

Lemma wb_runtime rt : component rt -> well_behaved (fun n => Ok (cost_runtime (rt n))).
Proof. intros Hr. unfold cost_runtime. apply wb_cost; try done; by apply component_const. Qed.

Lemma wb_not_implemented : well_behaved (fun _ => not_implemented).
Proof. split; [by left | done | done]. Qed.

(** A runtime that needs a positive input *)
Lemma wb_guarded (h : Z -> Z) (g : Z -> result VmExecutionError Z) :
  component h -> (forall n, g n = if n <? 1 then Err log2_error else Ok (h n)) ->
  well_behaved (fun n => r ← g n; mret (cost_runtime r)).
Proof.
  intros Hh Hg. pose proof (wb_runtime h Hh) as [W1 W2 W3]. split.
  - intros n Hn. rewrite Hg. destruct (Z.ltb_spec n 1); cbn; [by right | by apply (W1 n)].
  - intros n m c d Hnm. rewrite !Hg. destruct (n <? 1), (m <? 1); cbn; try done. by apply W2.
  - intros n m Hn He. rewrite Hg in He. by destruct (n <? 1).
Qed.

Lemma log2_component a b :
  0 <= a -> 0 <= b -> component (fun n => u64_saturating_add (u64_saturating_mul a (floor_log2 n)) b).
Proof.
  intros Ha Hb. apply saturating_component; unfold u64_saturating_mul, floor_log2.
  - intros n Hn. pose proof (Z.log2_nonneg n). unfold u64_max in *. nia.
  - intros n m [Hn Hm]. pose proof (Z.log2_le_mono n m Hm). nia.
Qed.

Lemma nlog2_component a b :
  0 <= a -> 0 <= b ->
  component (fun n =>
    u64_saturating_add (u64_saturating_mul a (u64_saturating_mul (floor_log2 n) n)) b).
Proof.
  intros Ha Hb. apply saturating_component; unfold u64_saturating_mul, floor_log2.
  - intros n Hn. pose proof (Z.log2_nonneg n). assert (0 <= Z.log2 n * n) by nia.
    unfold u64_max in *. nia.
  - intros n m [Hn Hm]. pose proof (Z.log2_le_mono n m Hm). pose proof (Z.log2_nonneg n).
    assert (Z.log2 n * n <= Z.log2 m * m) by nia.
    assert (Z.min u64_max (Z.log2 n * n) <= Z.min u64_max (Z.log2 m * m)) by lia. nia.
Qed.

Lemma wb_logn a b :
  0 <= a -> 0 <= b -> well_behaved (fun n => r ← logn n a b; mret (cost_runtime r)).
Proof. intros Ha Hb. exact (wb_guarded _ _ (log2_component a b Ha Hb) (fun n => eq_refl)). Qed.

Lemma wb_nlogn a b :
  0 <= a -> 0 <= b -> well_behaved (fun n => r ← nlogn n a b; mret (cost_runtime r)).
Proof. intros Ha Hb. exact (wb_guarded _ _ (nlog2_component a b Ha Hb) (fun n => eq_refl)). Qed.

Create HintDb cost.
#[export] Hint Resolve wb_cost wb_runtime wb_not_implemented wb_logn wb_nlogn
  linear_component linear0_component component_const : cost.
#[export] Hint Extern 1 (is_u64 _) => by vm_compute : cost.
#[export] Hint Extern 1 (0 <= _) => by vm_compute : cost.

Lemma tables_well_behaved v f : well_behaved (eval (cost_values v) f).
Proof.
  destruct v; destruct f;
    cbv -[linear logn nlogn cost_runtime not_implemented mbind mret Z.shiftr result_bind result_ret];
    auto with cost.
Qed.

(** ** Properties *)

Definition implemented (v : DefaultVersion) (f : ClarityCostFunction.t) : bool :=
  match eval (cost_values v) f 1 with Ok _ => true | _ => false end.

Lemma implemented_iff v f n :
  1 <= n -> implemented v f = true <-> exists c, eval (cost_values v) f n = Ok c.
Proof.
  intros Hn. destruct (tables_well_behaved v f) as [Ho _ Hd]. unfold implemented.
  pose proof (Ho 1 ltac:(lia)) as H1. pose proof (Ho n ltac:(lia)) as H2.
  destruct (eval (cost_values v) f 1) as [c | e |] eqn:E1; [| | done].
  - destruct (eval (cost_values v) f n) as [d | e |] eqn:En; [by split; eauto | | done].
    destruct H2 as [-> | [_ ?]]; [| lia]. rewrite (Hd n 1), En in E1 by (done || lia). done.
  - destruct H1 as [-> | [_ ?]]; [| lia]. rewrite (Hd 1 n), E1 by (done || lia).
    split; [done |]. by intros [? ?].
Qed.

(** The version an epoch starts with *)
Definition version_for_epoch (mainnet : bool) (e : StacksEpochId) : option DefaultVersion :=
  match default_cost_contract_for_epoch e with
  | Ok name =>
      match default_version_try_from mainnet (boot_code_id name mainnet) with
      | Ok v => Some v
      | _ => None
      end
  | _ => None
  end.

Definition versions_in_order (mainnet : bool) : list DefaultVersion :=
  [VersionCosts1; if mainnet then VersionCosts2 else VersionCosts2Testnet;
   VersionCosts3; VersionCosts4; VersionCosts5].

Lemma implemented_next_12 f : implemented VersionCosts1 f = true -> implemented VersionCosts2 f = true.
Proof. by destruct f. Qed.
Lemma implemented_next_12t f :
  implemented VersionCosts1 f = true -> implemented VersionCosts2Testnet f = true.
Proof. by destruct f. Qed.
Lemma implemented_next_23 f : implemented VersionCosts2 f = true -> implemented VersionCosts3 f = true.
Proof. by destruct f. Qed.
Lemma implemented_next_2t3 f :
  implemented VersionCosts2Testnet f = true -> implemented VersionCosts3 f = true.
Proof. by destruct f. Qed.
Lemma implemented_next_34 f : implemented VersionCosts3 f = true -> implemented VersionCosts4 f = true.
Proof. by destruct f. Qed.
Lemma implemented_next_45 f : implemented VersionCosts4 f = true -> implemented VersionCosts5 f = true.
Proof. by destruct f. Qed.

#[local] Hint Resolve implemented_next_12 implemented_next_12t implemented_next_23
  implemented_next_2t3 implemented_next_34 implemented_next_45 : core.

Lemma implemented_later mainnet e e' v v' f :
  epoch_leb e e' = true -> version_for_epoch mainnet e = Some v ->
  version_for_epoch mainnet e' = Some v' -> implemented v f = true -> implemented v' f = true.
Proof.
  intros Hle Hv Hv' Hf. destruct mainnet, e; vm_compute in Hv; try discriminate Hv;
    injection Hv as <-; destruct e'; try discriminate Hle; vm_compute in Hv';
    injection Hv' as <-; auto 6.
Qed.

(** C34: In every version of the cost tables and for every operation, a cost is
    five u64s and grows with the input size in each of them. The only errors
    are that the version does not implement the operation, whatever the input,
    and, for the logarithmic costs, an input of zero; nothing overflows or
    panics. *)
Theorem cost_functions_bounded_monotone v f n m :
  0 <= n <= m ->
  match eval (cost_values v) f n with
  | Ok c => cost_ok c /\
      forall d, eval (cost_values v) f m = Ok d -> componentwise_le c d
  | Err e => (n < 1 /\ e = log2_error) \/
      (e = vm_from_runtime RE_NotImplemented /\
       eval (cost_values v) f m = Err (vm_from_runtime RE_NotImplemented))
  | Panic => False
  end.
Proof.
  intros Hnm. destruct (tables_well_behaved v f) as [Ho Hm Hd].
  specialize (Ho n ltac:(lia)). destruct (eval (cost_values v) f n) as [c | e |] eqn:E; [| | done].
  - split; [done |]. intros d Ed. by eapply Hm.
  - destruct Ho as [-> | [? ?]]; [right | by left]. split; [done |].
    rewrite (Hd n m), E by (done || lia). done.
Qed.

(** An operation that a version of the cost tables can price stays priced in
    the default version of every later epoch, on mainnet and testnet, and every
    epoch from 2.0 on has a default version. *)
Theorem cost_functions_never_withdrawn mainnet e e' f n c :
  epoch_leb Epoch20 e = true -> epoch_leb e e' = true -> 1 <= n ->
  exists v v', version_for_epoch mainnet e = Some v /\ version_for_epoch mainnet e' = Some v' /\
    (eval (cost_values v) f n = Ok c -> exists c', eval (cost_values v') f n = Ok c').
Proof.
  intros He Hle Hn.
  assert (forall x, epoch_leb Epoch20 x = true -> exists v, version_for_epoch mainnet x = Some v) as Hv
    by (intros [] Hx; destruct mainnet; try discriminate Hx; by eexists).
  destruct (Hv e He) as [v Ev], (Hv e' (epoch_leb_trans _ _ _ He Hle)) as [v' Ev'].
  exists v, v'. split_and!; [done .. |]. intros Ec. apply implemented_iff; [done |].
  eapply implemented_later; [done .. |]. apply (implemented_iff v f n Hn). by eexists.
Qed.

Lemma cost_functions_bounded_monotone_witness :
  cost_ok (cost_runtime 4000) /\
  forall d, eval Costs1 ClarityCostFunction.Map 9 = Ok d ->
    componentwise_le (cost_runtime 4000) d.
Proof.
  exact (cost_functions_bounded_monotone VersionCosts1 ClarityCostFunction.Map 3 9 ltac:(lia)).
Defined.

Lemma cost_functions_never_withdrawn_witness :
  exists v v', version_for_epoch true Epoch21 = Some v /\ version_for_epoch true Epoch40 = Some v' /\
    (eval (cost_values v) ClarityCostFunction.Map 5 = Ok (cost_runtime 9057) ->
     exists c', eval (cost_values v') ClarityCostFunction.Map 5 = Ok c').
Proof.
  apply (cost_functions_never_withdrawn true Epoch21 Epoch40 ClarityCostFunction.Map 5).
  - reflexivity.
  - reflexivity.
  - lia.
Defined.
