(* ===== verification/Costs.v ===== *)
(** * Execution costs and the cost tracker

    [clarity/src/vm/costs/execution_cost.rs]: the five-dimensional cost and its
    overflow-checked arithmetic, with the order in which the dimensions are
    updated (an overflow leaves the earlier ones updated). [LimitedCostTracker]
    of [clarity/src/vm/costs/mod.rs]: the running total and the memory counter
    with their limits. Evaluating the cost functions is in CostFunctions, their
    tables in CostTables. *)

From S2P Require Import Prelude.
From S2P Require Import Epochs.
From S2P Require Import Values.
From S2P Require Import CostTables.

(** ** [ExecutionCost] *)

Definition cost_ZERO : ExecutionCost := mkExecutionCost 0 0 0 0 0.
Definition cost_max_value : ExecutionCost :=
  mkExecutionCost u64_max u64_max u64_max u64_max u64_max.

Definition cost_overflow_add (a b : Z) : result CostErrors Z :=
  ok_or (u64_checked_add a b) CE_CostOverflow.
Definition cost_overflow_sub (a b : Z) : result CostErrors Z :=
  ok_or (u64_checked_sub a b) CE_CostOverflow.
Definition cost_overflow_mul (a b : Z) : result CostErrors Z :=
  ok_or (u64_checked_mul a b) CE_CostOverflow.
Definition cost_overflow_div (a b : Z) : result CostErrors Z :=
  ok_or (u64_checked_div a b) CE_CostOverflow.

Definition set_runtime x (c : ExecutionCost) : ExecutionCost :=
  mkExecutionCost (write_length c) (write_count c) (read_length c) (read_count c) x.
Definition set_read_count x (c : ExecutionCost) : ExecutionCost :=
  mkExecutionCost (write_length c) (write_count c) (read_length c) x (runtime c).
Definition set_read_length x (c : ExecutionCost) : ExecutionCost :=
  mkExecutionCost (write_length c) (write_count c) x (read_count c) (runtime c).
Definition set_write_length x (c : ExecutionCost) : ExecutionCost :=
  mkExecutionCost x (write_count c) (read_length c) (read_count c) (runtime c).
Definition set_write_count x (c : ExecutionCost) : ExecutionCost :=
  mkExecutionCost (write_length c) x (read_length c) (read_count c) (runtime c).

Abbreviation CostM := (M ExecutionCost CostErrors).

(** [self.field = self.field.op(x)?] *)
Definition update_field (rd : ExecutionCost -> Z) (wr : Z -> ExecutionCost -> ExecutionCost)
    (op : Z -> result CostErrors Z) : CostM unit :=
  c ← get; x ← lift (op (rd c)); modify (wr x).

Definition ec_add_runtime (rt : Z) : CostM unit :=
  update_field runtime set_runtime (fun x => cost_overflow_add x rt).

Definition ec_add (other : ExecutionCost) : CostM unit :=
  update_field runtime set_runtime (fun x => cost_overflow_add x (runtime other));;
  update_field read_count set_read_count (fun x => cost_overflow_add x (read_count other));;
  update_field read_length set_read_length (fun x => cost_overflow_add x (read_length other));;
  update_field write_length set_write_length (fun x => cost_overflow_add x (write_length other));;
  update_field write_count set_write_count (fun x => cost_overflow_add x (write_count other)).

Definition ec_sub (other : ExecutionCost) : CostM unit :=
  update_field runtime set_runtime (fun x => cost_overflow_sub x (runtime other));;
  update_field read_count set_read_count (fun x => cost_overflow_sub x (read_count other));;
  update_field read_length set_read_length (fun x => cost_overflow_sub x (read_length other));;
  update_field write_length set_write_length (fun x => cost_overflow_sub x (write_length other));;
  update_field write_count set_write_count (fun x => cost_overflow_sub x (write_count other)).

Definition ec_multiply (times : Z) : CostM unit :=
  update_field runtime set_runtime (fun x => cost_overflow_mul x times);;
  update_field read_count set_read_count (fun x => cost_overflow_mul x times);;
  update_field read_length set_read_length (fun x => cost_overflow_mul x times);;
  update_field write_length set_write_length (fun x => cost_overflow_mul x times);;
  update_field write_count set_write_count (fun x => cost_overflow_mul x times).

Definition ec_divide (divisor : Z) : CostM unit :=
  update_field runtime set_runtime (fun x => cost_overflow_div x divisor);;
  update_field read_count set_read_count (fun x => cost_overflow_div x divisor);;
  update_field read_length set_read_length (fun x => cost_overflow_div x divisor);;
  update_field write_length set_write_length (fun x => cost_overflow_div x divisor);;
  update_field write_count set_write_count (fun x => cost_overflow_div x divisor).

Definition exceeds (self other : ExecutionCost) : bool :=
  (runtime self >? runtime other) || (write_length self >? write_length other)
  || (write_count self >? write_count other) || (read_count self >? read_count other)
  || (read_length self >? read_length other).

Definition max_cost (first second : ExecutionCost) : ExecutionCost :=
  mkExecutionCost (Z.max (write_length first) (write_length second))
    (Z.max (write_count first) (write_count second))
    (Z.max (read_length first) (read_length second))
    (Z.max (read_count first) (read_count second)) (Z.max (runtime first) (runtime second)).

Definition is_zero (self : ExecutionCost) : bool := bool_decide (self = cost_ZERO).

Definition proportion_largest_dimension (self numerator : ExecutionCost) : Z :=
  foldl Z.max 0
    [runtime numerator / Z.max 1 (runtime self / 100);
     write_length numerator / Z.max 1 (write_length self / 100);
     write_count numerator / Z.max 1 (write_count self / 100);
     read_length numerator / Z.max 1 (read_length self / 100);
     read_count numerator / Z.max 1 (read_count self / 100)].

(** ** [LimitedCostTracker] *)

Definition CLARITY_MEMORY_LIMIT : Z := 100 * 1000 * 1000.

Record ClarityCostFunctionReference := mkCostFunctionReference {
  cost_contract_id : QualifiedContractIdentifier;
  cost_function_name : string;
}.

Inductive ClarityCostFunctionEvaluator :=
| DefaultEvaluator (r : ClarityCostFunctionReference) (f : ClarityCostFunction.t) (v : DefaultVersion)
| ClarityEvaluator (r : ClarityCostFunctionReference).

(** The hash map of evaluators is the function it computes. The cost contracts
    that a [ClarityEvaluator] would run are left out. *)
Record TrackerData := mkTrackerData {
  cost_function_references : ClarityCostFunction.t -> option ClarityCostFunctionEvaluator;
  tracker_total : ExecutionCost;
  tracker_limit : ExecutionCost;
  tracker_memory : Z;
  tracker_memory_limit : Z;
  tracker_epoch : StacksEpochId;
  tracker_mainnet : bool;
  tracker_chain_id : Z;
}.

Definition set_tracker_total x (d : TrackerData) : TrackerData :=
  mkTrackerData (cost_function_references d) x (tracker_limit d) (tracker_memory d)
    (tracker_memory_limit d) (tracker_epoch d) (tracker_mainnet d) (tracker_chain_id d).
Definition set_tracker_memory x (d : TrackerData) : TrackerData :=
  mkTrackerData (cost_function_references d) (tracker_total d) (tracker_limit d) x
    (tracker_memory_limit d) (tracker_epoch d) (tracker_mainnet d) (tracker_chain_id d).
Definition set_cost_function_references x (d : TrackerData) : TrackerData :=
  mkTrackerData x (tracker_total d) (tracker_limit d) (tracker_memory d)
    (tracker_memory_limit d) (tracker_epoch d) (tracker_mainnet d) (tracker_chain_id d).

Inductive LimitedCostTracker := Limited (data : TrackerData) | Free.

Definition new_free : LimitedCostTracker := Free.

Definition get_total (t : LimitedCostTracker) : ExecutionCost :=
  match t with Limited d => tracker_total d | Free => cost_ZERO end.
Definition set_total (total : ExecutionCost) : M LimitedCostTracker CostErrors unit :=
  t ← get;
  match t with Limited d => put (Limited (set_tracker_total total d)) | Free => panic end.
Definition get_limit (t : LimitedCostTracker) : ExecutionCost :=
  match t with Limited d => tracker_limit d | Free => cost_max_value end.
Definition get_memory (t : LimitedCostTracker) : Z :=
  match t with Limited d => tracker_memory d | Free => 0 end.
Definition get_memory_limit (t : LimitedCostTracker) : Z :=
  match t with Limited d => tracker_memory_limit d | Free => u64_max end.

Definition data_add_cost (cost : ExecutionCost) : M TrackerData CostErrors unit :=
  zoom tracker_total set_tracker_total (ec_add cost);;
  s ← get;
  if exceeds (tracker_total s) (tracker_limit s)
  then throw (CE_CostBalanceExceeded (tracker_total s) (tracker_limit s))
  else mret tt.

Definition data_add_memory (memory : Z) : M TrackerData CostErrors unit :=
  s ← get;
  memory ← lift (cost_overflow_add (tracker_memory s) memory);
  modify (set_tracker_memory memory);;
  s ← get;
  if tracker_memory s >? tracker_memory_limit s
  then throw (CE_MemoryBalanceExceeded (tracker_memory s) (tracker_memory_limit s))
  else mret tt.

Definition data_drop_memory (memory : Z) : M TrackerData CostErrors unit :=
  s ← get;
  memory ← lift (ok_or (u64_checked_sub (tracker_memory s) memory)
                   (CE_Expect "Underflowed dropped memory"));
  modify (set_tracker_memory memory).

(** [match self { Free => Ok(()), Limited(data) => op(data) }] *)
Definition on_limited (op : M TrackerData CostErrors unit) : M LimitedCostTracker CostErrors unit :=
  fun t =>
    match t with
    | Free => (Ok tt, Free)
    | Limited d => let '(r, d') := op d in (r, Limited d')
    end.

(** The trait, without the evaluation of cost functions (CostFunctions) *)
Class CostTracker (T : Type) := {
  add_cost : ExecutionCost -> M T CostErrors unit;
  add_memory : Z -> M T CostErrors unit;
  drop_memory : Z -> M T CostErrors unit;
  reset_memory : T -> T;
}.

#[export] Instance unit_CostTracker : CostTracker unit := {
  add_cost _ := mret tt;
  add_memory _ := mret tt;
  drop_memory _ := mret tt;
  reset_memory t := t;
}.

#[export] Instance LimitedCostTracker_CostTracker : CostTracker LimitedCostTracker := {
  add_cost cost := on_limited (data_add_cost cost);
  add_memory memory := on_limited (data_add_memory memory);
  drop_memory memory := on_limited (data_drop_memory memory);
  reset_memory t :=
    match t with Free => Free | Limited d => Limited (set_tracker_memory 0 d) end;
}.

(** [finally_drop_memory!]: what was reserved is released whether or not the
    body succeeded. *)
Definition finally_drop_memory {T E A} `{CostTracker T} (from_cost : CostErrors -> E)
    (used_mem : Z) (exec : M T E A) : M T E A := fun t =>
  let '(r, t1) := exec t in
  let '(d, t2) := mmap_err from_cost (drop_memory used_mem) t1 in
  match r, d with
  | Panic, _ => (Panic, t1)
  | _, Err e => (Err e, t2)
  | _, Panic => (Panic, t2)
  | _, Ok _ => (r, t2)
  end.

(** ** Arithmetic *)

Definition sum_cost (a b : ExecutionCost) : ExecutionCost :=
  mkExecutionCost (write_length a + write_length b) (write_count a + write_count b)
    (read_length a + read_length b) (read_count a + read_count b) (runtime a + runtime b).

Definition total_cost (costs : list ExecutionCost) : ExecutionCost :=
  foldr sum_cost cost_ZERO costs.

Lemma exceeds_false_iff a b : exceeds a b = false <-> componentwise_le a b.
Proof.
  unfold exceeds, componentwise_le. rewrite !orb_false_iff, !Z.gtb_ltb, !Z.ltb_ge. tauto.
Qed.

(** Adding to one dimension, then going on *)
Lemma add_field_cases rd wr x (k : CostM unit) c :
  0 <= rd c -> 0 <= x ->
  (rd c + x <= u64_max /\
   (update_field rd wr (fun y => cost_overflow_add y x);; k) c = k (wr (rd c + x) c)) \/
  (u64_max < rd c + x /\
   (update_field rd wr (fun y => cost_overflow_add y x);; k) c = (Err CE_CostOverflow, c)).
Proof.
  intros Ha Hb. unfold update_field, lift, mbind, M_bind, get, modify, cost_overflow_add,
    u64_checked_add.
  destruct (checked 0 u64_max (rd c + x)) eqn:E; cbn.
  - apply checked_Some in E as [-> ?]. left. split; [lia | done].
  - apply checked_None in E. right. split; [lia | done].
Qed.

Lemma ec_add_cases self other :
  cost_ok self -> cost_ok other ->
  (componentwise_le (sum_cost self other) cost_max_value /\
   ec_add other self = (Ok tt, sum_cost self other)) \/
  (~ componentwise_le (sum_cost self other) cost_max_value /\
   exists c, ec_add other self = (Err CE_CostOverflow, c)).
Proof.
  destruct self as [wl wc rl rc rt], other as [wl' wc' rl' rc' rt'].
  unfold cost_ok, componentwise_le, sum_cost, ec_add. cbn.
  intros ([? _] & [? _] & [? _] & [? _] & [? _]) ([? _] & [? _] & [? _] & [? _] & [? _]).
  edestruct (add_field_cases runtime set_runtime rt') as [[? ->] | [? ->]]; [done .. | |
    right; split; [cbn in *; lia | by eexists]].
  edestruct (add_field_cases read_count set_read_count rc') as [[? ->] | [? ->]]; [done .. | |
    right; split; [cbn in *; lia | by eexists]].
  edestruct (add_field_cases read_length set_read_length rl') as [[? ->] | [? ->]]; [done .. | |
    right; split; [cbn in *; lia | by eexists]].
  edestruct (add_field_cases write_length set_write_length wl') as [[? ->] | [? ->]]; [done .. | |
    right; split; [cbn in *; lia | by eexists]].
  cbn in *. unfold update_field, lift, mbind, M_bind, get, modify, cost_overflow_add,
    u64_checked_add. cbn.
  destruct (checked 0 u64_max (wc + wc')) eqn:E; cbn.
  - apply checked_Some in E as [-> ?]. left. split; [lia | done].
  - apply checked_None in E. right. split; [lia | by eexists].
Qed.

Lemma cost_ok_nonneg c : cost_ok c -> componentwise_le cost_ZERO c.
Proof. intros ([? _] & [? _] & [? _] & [? _] & [? _]). by split_and!. Qed.

Lemma sum_cost_ok a b :
  cost_ok a -> cost_ok b -> componentwise_le (sum_cost a b) cost_max_value ->
  cost_ok (sum_cost a b).
Proof.
  unfold cost_ok, componentwise_le, sum_cost, is_u64. destruct a, b. cbn. lia.
Qed.

Lemma sum_cost_assoc a b c : sum_cost (sum_cost a b) c = sum_cost a (sum_cost b c).
Proof. destruct a, b, c. unfold sum_cost. cbn. f_equal; lia. Qed.

Lemma sum_cost_zero_r a : sum_cost a cost_ZERO = a.
Proof. destruct a. unfold sum_cost. cbn. f_equal; lia. Qed.

Lemma total_cost_nonneg costs : Forall cost_ok costs -> componentwise_le cost_ZERO (total_cost costs).
Proof.
  induction 1 as [| c l Hc _ IH]; [by split_and! |]. apply cost_ok_nonneg in Hc.
  change (total_cost (c :: l)) with (sum_cost c (total_cost l)).
  unfold componentwise_le, sum_cost in *. destruct c, (total_cost l). cbn in *. lia.
Qed.

Lemma componentwise_le_trans a b c :
  componentwise_le a b -> componentwise_le b c -> componentwise_le a c.
Proof. unfold componentwise_le. lia. Qed.

(** ** Charging *)

Fixpoint charge_all {T} `{CostTracker T} (costs : list ExecutionCost) : M T CostErrors unit :=
  match costs with
  | [] => mret tt
  | c :: costs => add_cost c;; charge_all costs
  end.

Definition limit_error (limit : ExecutionCost) (e : CostErrors) : Prop :=
  e = CE_CostOverflow \/
  exists total, e = CE_CostBalanceExceeded total limit /\ exceeds total limit = true.

Lemma data_add_cost_cases cost d :
  cost_ok (tracker_total d) -> cost_ok (tracker_limit d) -> cost_ok cost ->
  (componentwise_le (sum_cost (tracker_total d) cost) (tracker_limit d) /\
   add_cost cost (Limited d)
   = (Ok tt, Limited (set_tracker_total (sum_cost (tracker_total d) cost) d))) \/
  (~ componentwise_le (sum_cost (tracker_total d) cost) (tracker_limit d) /\
   exists e t', add_cost cost (Limited d) = (Err e, t') /\ limit_error (tracker_limit d) e).
Proof.
  intros Ht Hl Hc. cbn. unfold data_add_cost.
  assert (componentwise_le (tracker_limit d) cost_max_value) as Hmax
    by (unfold cost_ok, componentwise_le, is_u64 in *; cbn; lia).
  destruct (ec_add_cases _ _ Ht Hc) as [[Hle E] | (Hn & c' & E)].
  - erewrite M_bind_eval by (by apply (zoom_eval _ _ _ _ _ _ E)).
    erewrite M_bind_eval by done. cbn.
    destruct (exceeds (sum_cost (tracker_total d) cost) (tracker_limit d)) eqn:Ex.
    + right. split; [by rewrite <- exceeds_false_iff, Ex |]. eexists _, _. split; [done |].
      right. by eexists.
    + left. by rewrite <- exceeds_false_iff.
  - right. split; [intros H; by apply Hn; eapply componentwise_le_trans |].
    erewrite M_bind_Err by (by apply (zoom_eval _ _ _ _ _ _ E)).
    eexists _, _. split; [done | by left].
Qed.

(** C33: The cost limit is enforced exactly: from a total within the limit, a
    sequence of charges is accepted if and only if, in every dimension, the
    total plus the sum of all charges is within the limit, so in particular
    whatever the order of the charges; the tracker then holds that sum.
    Otherwise the sequence stops with CostOverflow or CostBalanceExceeded. *)
Theorem cost_limit_enforced d costs :
  cost_ok (tracker_total d) -> cost_ok (tracker_limit d) -> Forall cost_ok costs ->
  componentwise_le (tracker_total d) (tracker_limit d) ->
  let final := sum_cost (tracker_total d) (total_cost costs) in
  (componentwise_le final (tracker_limit d) ->
   charge_all costs (Limited d) = (Ok tt, Limited (set_tracker_total final d))) /\
  (~ componentwise_le final (tracker_limit d) ->
   exists e t', charge_all costs (Limited d) = (Err e, t') /\ limit_error (tracker_limit d) e).
Proof.
  intros Ht Hl Hcs. revert d Ht Hl. induction Hcs as [| c costs Hc Hcs IH]; intros d Ht Hl Hle.
  - cbn. rewrite sum_cost_zero_r. split; [| done]. intros _. by destruct d.
  - cbn [charge_all total_cost foldr]. fold (total_cost costs).
    pose proof (total_cost_nonneg costs Hcs) as Hnn.
    destruct (data_add_cost_cases c d Ht Hl Hc) as [[Hle1 E] | (Hn & e & t' & E & He)].
    + rewrite (M_bind_eval _ _ _ _ _ E), <- sum_cost_assoc.
      destruct (IH (set_tracker_total (sum_cost (tracker_total d) c) d)) as [IH1 IH2]; cbn; try done.
      apply sum_cost_ok; [done .. |]. eapply componentwise_le_trans; [done |].
      unfold cost_ok, componentwise_le, is_u64 in *; cbn; lia.
    + split.
      * intros Hf. destruct Hn. eapply componentwise_le_trans; [| exact Hf].
        unfold componentwise_le, sum_cost in *. destruct (tracker_total d), c, (total_cost costs).
        cbn in *. lia.
      * intros _. rewrite (M_bind_Err _ _ _ _ _ E). by eexists _, _.
Qed.

(** ** Memory *)

Lemma data_add_memory_cases m d :
  is_u64 (tracker_memory d) -> is_u64 (tracker_memory_limit d) -> is_u64 m ->
  (tracker_memory d + m <= tracker_memory_limit d /\
   add_memory m (Limited d) = (Ok tt, Limited (set_tracker_memory (tracker_memory d + m) d))) \/
  (tracker_memory_limit d < tracker_memory d + m /\
   exists e t', add_memory m (Limited d) = (Err e, t')).
Proof.
  intros Hd Hl Hm. cbn. unfold data_add_memory, cost_overflow_add, u64_checked_add, lift, mbind,
    M_bind, get, modify.
  destruct (checked 0 u64_max (tracker_memory d + m)) eqn:E; cbn.
  - apply checked_Some in E as [-> ?].
    destruct (tracker_memory d + m >? tracker_memory_limit d) eqn:Ex; cbn.
    + right. split; [rewrite Z.gtb_ltb in Ex; ints | by eexists _, _].
    + left. split; [rewrite Z.gtb_ltb in Ex; ints | done].
  - apply checked_None in E. right. split; [unfold is_u64 in *; lia | by eexists _, _].
Qed.

Lemma data_drop_memory_eval m d :
  0 <= m <= tracker_memory d -> tracker_memory d <= u64_max ->
  drop_memory m (Limited d) = (Ok tt, Limited (set_tracker_memory (tracker_memory d - m) d)).
Proof.
  intros Hm Hd. cbn. unfold data_drop_memory, u64_checked_sub, lift, mbind, M_bind, get, modify.
  assert (checked 0 u64_max (tracker_memory d - m) = Some (tracker_memory d - m)) as ->; [| done].
  apply checked_Some. lia.
Qed.

(** Memory that an operation reserves is bounded by the limit and given
    back: when a reservation is accepted the counter is within the limit, and
    after a body that leaves the counter as it found it, [finally_drop_memory!]
    restores the counter to its value before the reservation and returns what
    the body returned, success or error. *)
Theorem memory_reservation_balanced {E A} (from_cost : CostErrors -> E) d m
    (exec : M LimitedCostTracker E A) t1 :
  is_u64 (tracker_memory d) -> is_u64 (tracker_memory_limit d) -> is_u64 m ->
  add_memory m (Limited d) = (Ok tt, t1) ->
  get_memory t1 <= get_memory_limit t1 /\
  forall r d2, exec t1 = (r, Limited d2) -> r <> Panic -> tracker_memory d2 = get_memory t1 ->
    finally_drop_memory from_cost m exec t1
    = (r, Limited (set_tracker_memory (tracker_memory d) d2)).
Proof.
  intros Hd Hl Hm Ha.
  destruct (data_add_memory_cases m d Hd Hl Hm) as [[Hle E1] | (_ & e & t' & E1)];
    rewrite E1 in Ha; [| done]. injection Ha as <-. cbn in *. split; [done |].
  intros r d2 Ex Hr Hmem. unfold finally_drop_memory. rewrite Ex. unfold mmap_err.
  unfold is_u64 in *. pose proof (data_drop_memory_eval m d2) as Hdrop.
  rewrite Hdrop by lia. replace (tracker_memory d2 - m) with (tracker_memory d) by lia.
  by destruct r.
Qed.

(** ** Concrete instances *)

Definition sample_tracker : TrackerData :=
  mkTrackerData (fun _ => None) cost_ZERO (mkExecutionCost 100 10 100 10 5000) 0
    CLARITY_MEMORY_LIMIT Epoch30 true 1.
Definition sample_costs : list ExecutionCost :=
  [cost_runtime 4000; mkExecutionCost 10 1 0 1 900; cost_runtime 100].

Lemma cost_limit_enforced_witness :
  charge_all sample_costs (Limited sample_tracker)
  = (Ok tt, Limited (set_tracker_total (mkExecutionCost 10 1 0 1 5000) sample_tracker)).
Proof.
  apply (cost_limit_enforced sample_tracker sample_costs).
  - repeat split; vm_compute; discriminate.
  - repeat split; vm_compute; discriminate.
  - repeat constructor; vm_compute; discriminate.
  - repeat split; vm_compute; discriminate.
  - repeat split; vm_compute; discriminate.
Defined.

Lemma memory_reservation_balanced_witness :
  finally_drop_memory (fun e : CostErrors => e) 30 (throw (A := unit) CE_CostOverflow)
    (Limited (set_tracker_memory 30 sample_tracker))
  = (Err CE_CostOverflow, Limited sample_tracker).
Proof.
  apply (proj2 (memory_reservation_balanced (fun e : CostErrors => e) sample_tracker 30
    (throw CE_CostOverflow) (Limited (set_tracker_memory 30 sample_tracker))
    ltac:(split; vm_compute; discriminate) ltac:(split; vm_compute; discriminate)
    ltac:(split; vm_compute; discriminate) eq_refl)
    (Err CE_CostOverflow) (set_tracker_memory 30 sample_tracker)).
  - reflexivity.
  - discriminate.
  - reflexivity.
Defined.
