(* ===== verification/Contracts.v ===== *)
(** * Contracts in the database

    What [clarity/src/vm/database/clarity_db.rs] stores of a contract: the
    commitment to its source ([key_value_wrapper.rs], [clarity_store.rs]), its
    sizes, its source and the contract context, and how a contract is loaded
    for a call. The database has no execution cache attached; the cache of
    [get_contract] is then a plain read. *)

From S2P Require Import Prelude.
From S2P Require Import Bytes.
From S2P Require Import Epochs.
From S2P Require Import Values.
From S2P Require Import RollbackStore.
From S2P Require Import NestedStore.
From S2P Require Import C32.
From S2P Require Import STXBalance.
From S2P Require Import Database.
From S2P Require Import AssetMap.
From S2P Require Import Serialization.
From S2P Require Import VmErrors.
From S2P Require Import TypedValues.
From S2P Require Import Expressions.
From S2P Require Import ContractData.
From S2P Require Import Contexts.
From S2P Require Import Costs.

(** ** The chain under the store

    [BurnStateDB], [HeadersDB] and the open block, as they appear from the
    block that the store is at *)

Class ChainBacking (B : Type) := {
  backing_env : B -> DbEnv;
  backing_open_chain_tip_height : B -> Z;
}.

Class ChainStore (S : Type) := {
  chain_env : S -> DbEnv;
  open_chain_tip_height : S -> Z;
  store_is_retargeted : S -> bool;
  store_has_pending_metadata : QualifiedContractIdentifier -> list string -> S -> bool;
  store_set_block_hash : list Z -> bool -> M S VmExecutionError (list Z);
}.

#[export] Instance RollbackWrapper_ChainStore B `{ClarityBackingStore B} `{ChainBacking B} :
  ChainStore (RollbackWrapper B) := {
  chain_env w := backing_env (store w);
  open_chain_tip_height w := backing_open_chain_tip_height (store w);
  store_is_retargeted := is_retargeted;
  store_has_pending_metadata := has_pending_metadata;
  store_set_block_hash := set_block_hash;
}.

(** [Sha512Trunc256Sum::from_data], of the [sha2] crate *)
Class Sha512Trunc256 := {
  sha512_256 : list Z -> list Z;
  sha512_256_length data : length (sha512_256 data) = 32%nat;
  sha512_256_bytes data : bytes_ok (sha512_256 data);
}.

(** ** Commitments *)

Record ContractCommitment := mkContractCommitment { commitment_hash : list Z; commitment_height : Z }.

Definition commitment_serialize (c : ContractCommitment) : string :=
  to_hex (commitment_hash c) +:+ to_hex (to_be_bytes 4 (commitment_height c)).

Definition commitment_deserialize (input : string) : result VmExecutionError ContractCommitment :=
  if negb (Nat.eqb (String.length input) 72) then Err (err_expect "Unexpected input length")
  else
    hash ← map_err (fun _ => err_expect "Hex decode fail.") (hex_bytes (String.substring 0 64 input));
    height_bytes ← map_err (fun _ => err_expect "Hex decode fail.")
                     (hex_bytes (String.substring 64 8 input));
    Ok (mkContractCommitment hash (from_be_bytes height_bytes)).

(** ** Metadata *)

Inductive ContractDataVarName := CN_Contract | CN_ContractSize | CN_ContractSrc | CN_ContractDataSize.

Definition contract_data_name (n : ContractDataVarName) : string :=
  match n with
  | CN_Contract => "contract"
  | CN_ContractSize => "contract-size"
  | CN_ContractSrc => "contract-src"
  | CN_ContractDataSize => "contract-data-size"
  end.

Definition metadata_key (n : ContractDataVarName) : string :=
  make_metadata_key ST_Contract (contract_data_name n).

Section Ops.
Context `{Sha256} `{DebugText} `{HashMapIter} `{Sha512Trunc256}.
Context {S : Type} `{KVStore S} `{ContractStore S} `{ChainStore S}.
Context `{SerdeJson u64} `{SerdeJson ContractContext}.

Abbreviation DbM := (M S VmExecutionError).

Definition make_contract_hash_key (contract : QualifiedContractIdentifier) : string :=
  "clarity-contract::" +:+ contract_to_string contract.

Definition make_contract_commitment (contract_hash : list Z) (s : S) : string :=
  commitment_serialize (mkContractCommitment contract_hash (open_chain_tip_height s)).

Definition prepare_for_contract_metadata (contract : QualifiedContractIdentifier)
    (content_hash : list Z) : DbM unit :=
  s ← get;
  kv_put (make_contract_hash_key contract) (make_contract_commitment content_hash s).

Definition get_contract_hash (contract : QualifiedContractIdentifier) : DbM (option (list Z)) :=
  o ← kv_get (make_contract_hash_key contract);
  match o with
  | Some s => cc ← lift (commitment_deserialize s); mret (Some (commitment_hash cc))
  | None => mret None
  end.

(** A string is stored as it is. *)
Definition insert_metadata_string (contract_identifier : QualifiedContractIdentifier)
    (key data : string) : DbM unit :=
  s ← get;
  if cs_has_metadata_entry contract_identifier key s then
    throw (err_expect ("Metadata entry '" +:+ key +:+ "' already exists for contract: "
                       +:+ contract_to_string contract_identifier))
  else mmap_err Internal (cs_insert_metadata contract_identifier key data).

Definition insert_contract_hash (contract_identifier : QualifiedContractIdentifier)
    (contract_content : string) : DbM unit :=
  let hash := sha512_256 (as_bytes contract_content) in
  prepare_for_contract_metadata contract_identifier hash;;
  db_insert_metadata contract_identifier (metadata_key CN_ContractSize)
    (Z.of_nat (String.length contract_content) : u64);;
  insert_metadata_string contract_identifier (metadata_key CN_ContractSrc) contract_content.

Definition missing_metadata : VmExecutionError :=
  err_expect
    "Failed to read non-consensus contract metadata, even though contract exists in MARF.".

Definition fetch_contract_entry {A} `{SerdeJson A} (contract_identifier : QualifiedContractIdentifier)
    (n : ContractDataVarName) : DbM A :=
  o ← fetch_metadata contract_identifier (metadata_key n);
  lift (ok_or o missing_metadata).

(** The sum was checked when the data size was stored. *)
Definition read_contract_size (contract_identifier : QualifiedContractIdentifier) : DbM Z :=
  contract_size ← fetch_contract_entry (A := u64) contract_identifier CN_ContractSize;
  data_size ← fetch_contract_entry (A := u64) contract_identifier CN_ContractDataSize;
  lift (expect_some (u64_checked_add data_size contract_size)).

Definition get_contract_size (contract_identifier : QualifiedContractIdentifier) : DbM Z :=
  read_contract_size contract_identifier.

Definition set_contract_data_size (contract_identifier : QualifiedContractIdentifier)
    (data_size : Z) : DbM unit :=
  contract_size ← fetch_contract_entry (A := u64) contract_identifier CN_ContractSize;
  lift (map_err vm_from_cost (cost_overflow_add contract_size data_size));;
  db_insert_metadata contract_identifier (metadata_key CN_ContractDataSize) (data_size : u64).

(** The field [is_deploying] is not serialized. *)
Definition insert_contract (contract_identifier : QualifiedContractIdentifier)
    (contract : ContractContext) : DbM unit :=
  db_insert_metadata contract_identifier (metadata_key CN_Contract) contract.

Definition has_contract (contract_identifier : QualifiedContractIdentifier) (s : S) : bool :=
  cs_has_metadata_entry contract_identifier (metadata_key CN_Contract) s.

Definition read_contract (contract_identifier : QualifiedContractIdentifier) : DbM ContractContext :=
  contract_context ← fetch_contract_entry contract_identifier CN_Contract;
  epoch ← get_clarity_epoch_version;
  lift (cc_canonicalize_types epoch contract_context).

Definition has_pending_metadata_for_contract (contract_identifier : QualifiedContractIdentifier)
    (s : S) : bool :=
  store_has_pending_metadata contract_identifier
    [metadata_key CN_Contract; metadata_key CN_ContractSize; metadata_key CN_ContractDataSize] s.

(** What would go into the cache is read all the same. *)
Definition get_contract (contract_identifier : QualifiedContractIdentifier) : DbM ContractContext :=
  contract ← read_contract contract_identifier;
  s ← get;
  (if negb (store_is_retargeted s) && negb (has_pending_metadata_for_contract contract_identifier s)
   then read_contract_size contract_identifier;; mret tt
   else mret tt);;
  mret contract.

(** [ClarityDatabase::set_block_hash] *)
Definition db_set_block_hash (bhh : list Z) (query_pending_data : bool) : DbM (list Z) :=
  store_set_block_hash bhh query_pending_data.
End Ops.
