(* ===== verification/BlockInfo.v ===== *)
(** * The chain as the database reports it

    The functions of [clarity/src/vm/database/clarity_db.rs] that answer
    questions about earlier blocks. What they consult, the traits [HeadersDB]
    and [BurnStateDB] of the same file, is implemented by the node
    ([HeadersDb]); where the database is, is given by [DbEnv]. *)

From S2P Require Import Prelude.
From S2P Require Import Bytes.
From S2P Require Import BoundedString.
From S2P Require Import BTree.
From S2P Require Import Epochs.
From S2P Require Import Values.
From S2P Require Import RollbackStore.
From S2P Require Import STXBalance.
From S2P Require Import Database.
From S2P Require Import ContractData.

(** What is asked of the two traits, besides [DbEnv] *)
Class HeadersDb := {
  stacks_block_header_hash_for_block : list Z -> StacksEpochId -> option (list Z);
  burn_header_hash_for_block : list Z -> option (list Z);
  consensus_hash_for_block : list Z -> StacksEpochId -> option (list Z);
  vrf_seed_for_block : list Z -> list Z -> StacksEpochId -> option (list Z);
  stacks_block_time_for_block : list Z -> option Z;
  burn_block_time_for_block : list Z -> option StacksEpochId -> option Z;
  miner_address_for_block : list Z -> list Z -> StacksEpochId -> option StandardPrincipalData;
  burnchain_tokens_spent_for_block : list Z -> list Z -> StacksEpochId -> option Z;
  burnchain_tokens_spent_for_winning_block : list Z -> list Z -> StacksEpochId -> option Z;
  tokens_earned_for_block : list Z -> list Z -> StacksEpochId -> option Z;
  stacks_height_for_tenure_height : list Z -> Z -> option Z;
  (** [BurnStateDB] *)
  stacks_epoch_at : Z -> option StacksEpochId;
  tip_sortition_id : option (list Z);
  sortition_id_from_consensus_hash : list Z -> option (list Z);
  burn_header_hash_at : Z -> list Z -> option (list Z);
  pox_payout_addrs_at : Z -> list Z -> option (list TupleData * Z);
}.

Section Info.
Context {S : Type} `{KVStore S} `{HeadersDb} (env : DbEnv).

Abbreviation DbM := (M S VmExecutionError).

Definition block_data {A} (o : option A) : DbM A := lift (ok_or o (err_expect "Failed to get block data.")).

Definition index_block_header_hash (block_height : Z) : DbM (list Z) :=
  get_index_block_header_hash env block_height.

Definition get_stacks_epoch_for_block (id_bhh : list Z) : DbM StacksEpochId :=
  burn_block ← lift (ok_or (get_burnchain_block_height env id_bhh)
                       (err_expect ("FATAL: no burnchain block height found for Stacks block "
                                    +:+ to_hex id_bhh)));
  block_data (stacks_epoch_at burn_block).

Definition eval_tip_block_id : DbM (list Z) :=
  index_block_header_hash (Z.max 0 (current_block_height env - 1)).

Definition get_block_height_for_tenure_height (tenure_height : Z) : DbM (option Z) :=
  current_tenure_height ← get_tenure_height env;
  if current_tenure_height <? tenure_height then mret None
  else if current_block_height env <=? tenure_height then mret None
  else
    id_bhh ← index_block_header_hash tenure_height;
    epoch ← get_stacks_epoch_for_block id_bhh;
    if negb (uses_nakamoto_blocks epoch) then mret (Some tenure_height)
    else
      query_tip ← eval_tip_block_id;
      mret (stacks_height_for_tenure_height query_tip tenure_height).

Definition get_block_header_hash (block_height : Z) : DbM (list Z) :=
  id_bhh ← index_block_header_hash block_height;
  epoch ← get_stacks_epoch_for_block id_bhh;
  block_data (stacks_block_header_hash_for_block id_bhh epoch).

Definition get_burn_block_time (block_height : Z) (id_bhh_opt : option (list Z)) : DbM Z :=
  id_bhh ← match id_bhh_opt with Some x => mret x | None => index_block_header_hash block_height end;
  epoch ← get_stacks_epoch_for_block id_bhh;
  block_data (burn_block_time_for_block id_bhh (Some epoch)).

Definition get_block_time (block_height : Z) : DbM Z :=
  id_bhh ← index_block_header_hash block_height;
  epoch ← get_stacks_epoch_for_block id_bhh;
  if negb (uses_nakamoto_blocks epoch) then get_burn_block_time block_height (Some id_bhh)
  else block_data (stacks_block_time_for_block id_bhh).

Definition get_burnchain_block_header_hash (block_height : Z) : DbM (list Z) :=
  id_bhh ← index_block_header_hash block_height;
  block_data (burn_header_hash_for_block id_bhh).

Definition get_sortition_id_for_stacks_tip : DbM (option (list Z)) :=
  epoch ← get_clarity_epoch_version;
  if negb (clarity_uses_tip_burn_block epoch) then
    let current_stacks_height := current_block_height env in
    if current_stacks_height <? 1 then mret None
    else
      parent_id_bhh ← index_block_header_hash (current_stacks_height - 1);
      epoch ← get_stacks_epoch_for_block parent_id_bhh;
      consensus_hash ← lift (ok_or (consensus_hash_for_block parent_id_bhh epoch)
        (err_expect ("FATAL: no consensus hash found for StacksBlockId " +:+ to_hex parent_id_bhh)));
      sortition_id ← lift (ok_or (sortition_id_from_consensus_hash consensus_hash)
        (err_expect ("FATAL: no SortitionID found for consensus hash " +:+ to_hex consensus_hash)));
      mret (Some sortition_id)
  else mret tip_sortition_id.

Definition get_burnchain_block_header_hash_for_burnchain_height (burnchain_block_height : Z)
    : DbM (option (list Z)) :=
  sortition_id ← get_sortition_id_for_stacks_tip;
  mret (match sortition_id with
        | Some sortition_id => burn_header_hash_at burnchain_block_height sortition_id
        | None => None
        end).

Definition get_pox_payout_addrs_for_burnchain_height (burnchain_block_height : Z)
    : DbM (option (list TupleData * Z)) :=
  sortition_id ← get_sortition_id_for_stacks_tip;
  mret (match sortition_id with
        | Some sortition_id => pox_payout_addrs_at burnchain_block_height sortition_id
        | None => None
        end).

(** The reads that are anchored at the evaluation tip *)
Definition at_tip {A} (read : list Z -> list Z -> StacksEpochId -> option A) (block_height : Z)
    (missing : string) : DbM A :=
  id_bhh ← index_block_header_hash block_height;
  query_tip ← eval_tip_block_id;
  epoch ← get_stacks_epoch_for_block id_bhh;
  lift (ok_or (read id_bhh query_tip epoch) (err_expect missing)).

Definition get_block_vrf_seed (block_height : Z) : DbM (list Z) :=
  at_tip vrf_seed_for_block block_height "Failed to get block data.".

Definition get_miner_address (block_height : Z) : DbM StandardPrincipalData :=
  at_tip miner_address_for_block block_height "Failed to get block data.".

Definition get_miner_spend_winner (block_height : Z) : DbM Z :=
  if block_height =? 0 then mret 0
  else at_tip burnchain_tokens_spent_for_winning_block block_height
         "FATAL: no winning burnchain token spend record for block".

Definition get_miner_spend_total (block_height : Z) : DbM Z :=
  if block_height =? 0 then mret 0
  else at_tip burnchain_tokens_spent_for_block block_height
         "FATAL: no total burnchain token spend record for block".

Definition MINER_REWARD_MATURITY : Z := 100.

Definition get_block_reward (block_height : Z) : DbM (option Z) :=
  if block_height =? 0 then mret None
  else
    child ← lift (expect_some (u32_checked_add block_height 1));
    if current_block_height env <=? child + MINER_REWARD_MATURITY then mret None
    else
      reward ← at_tip tokens_earned_for_block block_height "FATAL: matured block has no recorded reward";
      mret (Some reward).
End Info.
