(* ===== verification/CryptoNatives.v ===== *)
(** * Hashes, keys and signatures

    [clarity/src/vm/functions/crypto.rs] on evaluated arguments. The hash
    functions and the elliptic curves are other crates' ([Crypto]); what is
    here is how their inputs are taken from Clarity values, which inputs are
    rejected, and how addresses are derived from keys
    ([stacks-common/src/types/mod.rs], [address/mod.rs]). *)

From S2P Require Import Prelude.
From S2P Require Import Bytes.
From S2P Require Import BoundedString.
From S2P Require Import BTree.
From S2P Require Import Values.
From S2P Require Import Types.
From S2P Require Import C32.
From S2P Require Import BitcoinTx.
From S2P Require Import VmErrors.
From S2P Require Import TypedValues.
From S2P Require Import Expressions.
From S2P Require Import Arithmetic.
From S2P Require Import Natives.
From S2P Require Import Contracts.

(** The crates [sha2], [ripemd], [sha3], [secp256k1], [p256] and
    [ed25519-dalek] *)
Class Crypto := {
  ripemd160 : list Z -> list Z;
  sha512 : list Z -> list Z;
  keccak256 : list Z -> list Z;
  (** [PublicKey::from_slice] and the two forms of a key *)
  PublicKey : Type;
  parse_public_key : list Z -> option PublicKey;
  serialize_key : PublicKey -> list Z;
  serialize_uncompressed : PublicKey -> list Z;
  (** [recover_ecdsa] of a message with a compact signature and a recovery id *)
  recover_ecdsa : list Z -> list Z -> Z -> option PublicKey;
  verify_ecdsa : list Z -> list Z -> PublicKey -> bool;
  (** [Secp256r1PublicKey::verify] and [verify_digest] with the key's bytes *)
  p256_verify : list Z -> list Z -> list Z -> bool;
  p256_verify_digest : list Z -> list Z -> list Z -> bool;
  ed25519_verify : list Z -> list Z -> list Z -> bool;
  ripemd160_length data : length (ripemd160 data) = 20%nat;
}.

Section Crypto.
Context `{Sha256} `{DebugText} `{Sha512Trunc256} `{Crypto}.

Abbreviation VmR := (result VmExecutionError).

Definition hash160 (data : list Z) : list Z := ripemd160 (sha256 data).

(** [i128::to_le_bytes] *)
Definition i128_to_le_bytes (z : Z) : list Z := to_le_bytes 16 (z mod 2 ^ 128).

(** [native_hash_func!] *)
Definition native_hash_func (from_data : list Z -> list Z) (input : Value) : VmR Value :=
  bytes ← match input with
          | Int value => Ok (i128_to_le_bytes value)
          | UInt value => Ok (to_le_bytes 16 value)
          | Sequence (Buffer data) => Ok data
          | _ => Err (RuntimeCheck
                        (RC_UnionTypeValueError [IntType; UIntType; BUFFER_MAX] (to_error_string input)))
          end;
  map_err vm_from_type (buff_from (from_data bytes)).

Definition native_hash160 : Value -> VmR Value := native_hash_func hash160.
Definition native_sha256 : Value -> VmR Value := native_hash_func sha256.
Definition native_sha512 : Value -> VmR Value := native_hash_func sha512.
Definition native_sha512trunc256 : Value -> VmR Value := native_hash_func sha512_256.
Definition native_keccak256 : Value -> VmR Value := native_hash_func keccak256.

(** ** secp256k1 *)

(** [Secp256k1PublicKey]: a key read from 33 bytes is written in compressed form. *)
Record Secp256k1PublicKey := mkSecp256k1PublicKey { pk_key : PublicKey; pk_compressed : bool }.

Definition key_from_slice (data : list Z) : option Secp256k1PublicKey :=
  key ← parse_public_key data; Some (mkSecp256k1PublicKey key (zlen data =? 33)).

Definition key_to_bytes (k : Secp256k1PublicKey) : list Z :=
  if pk_compressed k then serialize_key (pk_key k) else serialize_uncompressed (pk_key k).

(** [StacksAddress::from_public_keys] of one key in the mode [SerializeP2PKH] *)
Definition p2pkh_address (version : Z) (key : Secp256k1PublicKey) : option StandardPrincipalData :=
  if 32 <=? version then None else Some (mkStandardPrincipal version (hash160 (key_to_bytes key))).

Definition address_failure : VmExecutionError :=
  Internal (VI_Expect "Failed to create address from pubkey").

Definition pubkey_to_address_v1 (pub_key : Secp256k1PublicKey) : VmR StandardPrincipalData :=
  ok_or (p2pkh_address C32_ADDRESS_VERSION_TESTNET_SINGLESIG pub_key) address_failure.

Definition pubkey_to_address_v2 (pub_key : Secp256k1PublicKey) (is_mainnet : bool)
    : VmR StandardPrincipalData :=
  ok_or (p2pkh_address
           (if is_mainnet then C32_ADDRESS_VERSION_MAINNET_SINGLESIG
            else C32_ADDRESS_VERSION_TESTNET_SINGLESIG) pub_key) address_failure.

(** [secp256k1_recover], on a signature of 65 bytes *)
Definition secp256k1_recover (message signature : list Z) : option (list Z) :=
  let rec_id := nth 64 signature 0 in
  if in_range 0 3 rec_id
  then key ← recover_ecdsa message (take 64 signature) rec_id; Some (serialize_key key)
  else None.

(** [secp256k1_verify]; the 65th byte is ignored. *)
Definition secp256k1_verify (message signature pubkey : list Z) : bool :=
  match parse_public_key pubkey with
  | Some key => verify_ecdsa message (take 64 signature) key
  | None => false
  end.

Definition secp256k1_decompress (pubkey : list Z) : option (list Z) :=
  serialize_uncompressed <$> parse_public_key pubkey.

(** An [ok] of a buffer *)
Definition okay_buff (bytes : list Z) : VmR Value :=
  b ← map_err (fun _ => Internal (VI_Expect "Failed to construct buff")) (buff_from bytes);
  map_err (fun _ => Internal (VI_Expect "Failed to construct ok")) (value_okay b).

(** [principal-of?] on its argument *)
Definition principal_of (version : ClarityVersion) (mainnet : bool) (param0 : Value) : VmR Value :=
  pub_key ← expect_array 33 param0;
  match key_from_slice pub_key with
  | Some pub_key =>
      addr ← if negb (version_leb version Clarity1) then pubkey_to_address_v2 pub_key mainnet
             else pubkey_to_address_v1 pub_key;
      map_err (fun _ => Internal (VI_Expect "Failed to construct ok"))
        (value_okay (Principal (Standard addr)))
  | None => Ok (err_uint 1)
  end.

(** The signature of [secp256k1-recover?]: [None] is [(err u2)] *)
Definition recoverable_signature (param1 : Value) : VmR (option (list Z)) :=
  match param1 with
  | Sequence (Buffer data) =>
      if 65 <? zlen data then Err (type_value_error (BUFFER 65) param1)
      else if (zlen data <? 65) || (3 <? nth 64 data 0) then Ok None
      else Ok (Some data)
  | _ => Err (type_value_error (BUFFER 65) param1)
  end.

Definition recover_key (message : list Z) (signature : option (list Z)) : VmR Value :=
  match signature with
  | None => Ok (err_uint 2)
  | Some signature =>
      match secp256k1_recover message signature with
      | Some pubkey => okay_buff pubkey
      | None => Ok (err_uint 1)
      end
  end.

(** The signature of [secp256k1-verify]: [None] is [false] *)
Definition compact_signature (param1 : Value) : VmR (option (list Z)) :=
  match param1 with
  | Sequence (Buffer data) =>
      if 65 <? zlen data then Err (type_value_error (BUFFER 65) param1)
      else if zlen data <? 64 then Ok None
      else if (zlen data =? 65) && (3 <? nth 64 data 0) then Ok None
      else Ok (Some data)
  | _ => Err (type_value_error (BUFFER 65) param1)
  end.

(** The signature of [secp256r1-verify] *)
Definition r1_signature (signature_value : Value) : VmR (option (list Z)) :=
  match signature_value with
  | Sequence (Buffer data) =>
      if zlen data <=? 64 then Ok (if zlen data =? 64 then Some data else None)
      else Err (type_value_error (BUFFER 64) signature_value)
  | _ => Err (type_value_error (BUFFER 64) signature_value)
  end.

(** [secp256r1_verify] and [secp256r1_verify_digest] *)
Definition verify_r1 (version : ClarityVersion) (message signature pubkey : list Z) : bool :=
  if uses_secp256r1_double_hashing version then p256_verify message signature pubkey
  else p256_verify_digest message signature pubkey.

Definition native_ed25519_verify (args : list Value) : VmR Value :=
  match args with
  | [message_value; signature_value; public_key_value] =>
      message ← ok_or (buff_to_vec message_value MAX_VALUE_SIZE)
                  (type_value_error BUFFER_MAX message_value);
      signature ← expect_array 64 signature_value;
      public_key ← expect_array 32 public_key_value;
      Ok (Bool (ed25519_verify message signature public_key))
  | _ => Err (Internal (VI_Expect "ed25519-verify received wrong arity"))
  end.

Definition cost_input_ed25519_verify (args : list Value) : VmR Z :=
  Ok (match args with Sequence (Buffer data) :: _ => zlen data | _ => 0 end).

Definition native_secp256k1_decompress (public_key : Value) : VmR Value :=
  public_key_bytes ← expect_array 33 public_key;
  match secp256k1_decompress public_key_bytes with
  | Some uncompressed => okay_buff uncompressed
  | None => Ok (err_uint 1)
  end.
End Crypto.
