(* ===== verification/CostFunctions.v ===== *)
(** * Evaluating cost functions

    [clarity/src/vm/costs/mod.rs]: [runtime_cost] and what it needs, the
    evaluators of the cost functions and the size of a value for the memory
    counter. A cost function is evaluated by its table (CostTables); no code
    of the repository makes the other kind of evaluator, which calls a Clarity
    contract, so that one is a parameter. *)

From S2P Require Import Prelude.
From S2P Require Import Epochs.
From S2P Require Import Values.
From S2P Require Import Types.
From S2P Require Import C32.
From S2P Require Import Serialization.
From S2P Require Import VmErrors.
From S2P Require Import TypedValues.
From S2P Require Import CostTables.
From S2P Require Import Costs.

(** The interpreter, on a cost contract *)
Class CostContracts := {
  compute_cost_in_contract :
    TrackerData -> ClarityCostFunctionReference -> list Z -> StacksEpochId ->
    result CostErrors ExecutionCost;
}.

(** [CostTracker::compute_cost] *)
Class CostFunctions (T : Type) := {
  compute_cost : T -> ClarityCostFunction.t -> list Z -> result CostErrors ExecutionCost;
}.

#[export] Instance unit_CostFunctions : CostFunctions unit :=
  {| compute_cost _ _ _ := Ok cost_ZERO |}.

Section Evaluate.
Context `{Sha256} `{DebugText}.

Definition cost_reference_to_string (r : ClarityCostFunctionReference) : string :=
  contract_to_string (cost_contract_id r) +:+ "." +:+ cost_function_name r.

(** [DefaultVersion::evaluate] *)
Definition evaluate (v : DefaultVersion) (cost_function_ref : ClarityCostFunctionReference)
    (f : ClarityCostFunction.t) (input : list Z) : result CostErrors ExecutionCost :=
  n ← ok_or (head input) (CE_Expect "Default cost function supplied with 0 args");
  map_err
    (fun e =>
       let e :=
         match e with
         | Runtime RE_NotImplemented _ =>
             RuntimeCheck (RC_UndefinedFunction (cost_function_name cost_function_ref))
         | other => other
         end in
       CE_CostComputationFailed
         ("Error evaluating result of cost function " +:+ cost_reference_to_string cost_function_ref
          +:+ ": " +:+ vm_error_to_string e))
    (eval (cost_values v) f n).

Context `{CostContracts}.

Definition data_compute_cost (data : TrackerData) (cost_function : ClarityCostFunction.t)
    (input : list Z) : result CostErrors ExecutionCost :=
  match cost_function with
  | ClarityCostFunction.Unimplemented => Err (CE_Expect "Used unimplemented cost function")
  | _ =>
      evaluator ←
        ok_or (cost_function_references data cost_function)
          (CE_CostComputationFailed
             ("CostFunction not defined: " +:+ ClarityCostFunction.cost_name cost_function));
      match evaluator with
      | DefaultEvaluator cost_function_ref clarity_cost_function default_version =>
          evaluate default_version cost_function_ref clarity_cost_function input
      | ClarityEvaluator cost_function_ref =>
          compute_cost_in_contract data cost_function_ref input (tracker_epoch data)
      end
  end.

#[export] Instance LimitedCostTracker_CostFunctions : CostFunctions LimitedCostTracker := {|
  compute_cost t cost_function input :=
    match t with
    | Free => Ok cost_ZERO
    | Limited data => data_compute_cost data cost_function input
    end;
|}.

(** The evaluators that [load_costs] makes *)
Definition default_evaluators (boot_costs_id : QualifiedContractIdentifier) (v : DefaultVersion)
    (f : ClarityCostFunction.t) : option ClarityCostFunctionEvaluator :=
  Some (DefaultEvaluator
          (mkCostFunctionReference boot_costs_id (ClarityCostFunction.cost_name f)) f v).
End Evaluate.

(** [input] is of an integer type or a length. *)
Definition runtime_cost {T} `{CostTracker T} `{CostFunctions T} (cost_function : ClarityCostFunction.t)
    (input : Z) : M T CostErrors unit :=
  size ← lift (ok_or (checked 0 u64_max input) CE_CostOverflow);
  tracker ← get;
  cost ← lift (compute_cost tracker cost_function [size]);
  add_cost cost.

(** [MemoryConsumer for Value] *)
Definition get_memory_use (epoch : StacksEpochId) (v : Value) : result CostErrors Z :=
  map_err (fun e => match e with TE_ValueTooLarge => CE_CostOverflow | _ => CE_InterpreterFailure end)
    (value_charged_size epoch v).

(** Cost of checking [t1] against [t2] *)
Definition compute_typecheck_cost {T} `{CostFunctions T} (track : T) (epoch : StacksEpochId)
    (t1 t2 : TypeSignature) : result CostErrors ExecutionCost :=
  t1_size ← map_err (fun _ => CE_CostOverflow) (charged_type_size epoch t1);
  t2_size ← map_err (fun _ => CE_CostOverflow) (charged_type_size epoch t2);
  compute_cost track ClarityCostFunction.AnalysisTypeCheck [Z.max t1_size t2_size].

(** Charges for checking [t1] against [t2] *)
Definition analysis_typecheck_cost_for_epoch {T} `{CostTracker T} `{CostFunctions T}
    (epoch : StacksEpochId) (t1 t2 : TypeSignature) : M T CostErrors unit :=
  track ← get;
  cost ← lift (compute_typecheck_cost track epoch t1 t2);
  add_cost cost.
