(* ===== verification/Allowances.v ===== *)
(** * Allowances: what a protected scope may move

    [clarity/src/vm/functions/post_conditions.rs]: the allowances of
    [restrict-assets?] and [as-contract?], and the check of what the scope moved
    against them. The check reports the least index of a violated allowance, or
    [MAX_ALLOWANCES] when something moved that no allowance is for. *)

From Stdlib Require Import Sorted.
From S2P Require Import Prelude.
From S2P Require Import Epochs.
From S2P Require Import Values.
From S2P Require Import AssetMap.
From S2P Require Import Serialization.
From S2P Require Import VmErrors.
From S2P Require Import TypedValues.
From S2P Require Import Expressions.
From S2P Require Import CostTables.
From S2P Require Import Costs.
From S2P Require Import CostFunctions.

(** [fmt::Display for ExecutionCost] and [for CostErrors] *)
Definition cost_to_string (c : ExecutionCost) : string :=
  "{" +:+ quoted "runtime" +:+ ": " +:+ pretty (runtime c)
  +:+ ", " +:+ quoted "write_len" +:+ ": " +:+ pretty (write_length c)
  +:+ ", " +:+ quoted "write_cnt" +:+ ": " +:+ pretty (write_count c)
  +:+ ", " +:+ quoted "read_len" +:+ ": " +:+ pretty (read_length c)
  +:+ ", " +:+ quoted "read_cnt" +:+ ": " +:+ pretty (read_count c) +:+ "}".

Definition cost_error_to_string (e : CostErrors) : string :=
  match e with
  | CE_CostComputationFailed s => "Cost computation failed: " +:+ s
  | CE_CostOverflow => "Cost overflow"
  | CE_CostBalanceExceeded total limit =>
      "Cost balance exceeded: total " +:+ cost_to_string total +:+ ", limit " +:+ cost_to_string limit
  | CE_MemoryBalanceExceeded used limit =>
      "Memory balance exceeded: used " +:+ pretty used +:+ ", limit " +:+ pretty limit
  | CE_CostContractLoadFailure => "Failed to load cost contract"
  | CE_InterpreterFailure => "Interpreter failure"
  | CE_Expect s => "Expectation failed: " +:+ s
  end.

(** ** Allowances *)

Inductive Allowance :=
| AllowStx (amount : Z)
| AllowFt (asset : AssetIdentifier) (amount : Z)
| AllowNft (asset : AssetIdentifier) (asset_ids : list Value)
| AllowStacking (amount : Z)
| AllowPox
| AllowAll.

(** [std::mem::size_of]: the compiler chooses the layout. *)
Class AllowanceLayout := {
  size_of_StxAllowance : Z;
  size_of_FtAllowance : Z;
  size_of_NftAllowance : Z;
  size_of_StackingAllowance : Z;
  size_of_StandardPrincipalData : Z;
}.

Definition str_len (s : string) : Z := Z.of_nat (String.length s).

(** [+] on [u64] and [usize]: an overflow panics. *)
Definition unchecked_add {E} (a b : Z) : result E Z := expect_some (u64_checked_add a b).

Fixpoint add_memory_uses (epoch : StacksEpochId) (total_size : Z) (ids : list Value)
    : result VmInternalError Z :=
  match ids with
  | [] => Ok total_size
  | id :: ids =>
      memory_use ← map_err (fun e => VI_Expect ("Failed to calculate memory use: " +:+ cost_error_to_string e))
                     (get_memory_use epoch id);
      total_size ← unchecked_add total_size memory_use;
      add_memory_uses epoch total_size ids
  end.

Definition asset_name_sizes (asset : AssetIdentifier) : Z :=
  str_len (contract_name (asset_contract asset)) + str_len (asset_name asset).

Definition size_in_bytes `{AllowanceLayout} (epoch : StacksEpochId) (a : Allowance)
    : result VmInternalError Z :=
  match a with
  | AllowStx _ => Ok size_of_StxAllowance
  | AllowFt asset _ => Ok (size_of_FtAllowance + size_of_StandardPrincipalData + asset_name_sizes asset)
  | AllowNft asset asset_ids =>
      add_memory_uses epoch
        (size_of_NftAllowance + size_of_StandardPrincipalData + asset_name_sizes asset) asset_ids
  | AllowStacking _ => Ok size_of_StackingAllowance
  | AllowPox => Ok 0
  | AllowAll => Ok 0
  end.

(** ** The check *)

Definition MAX_ALLOWANCES : Z := 128.

(** The local variables of [check_allowances] that the loop over the allowances
    fills *)
Record Budget := mkBudget {
  stx_allowances : list (Z * Z);
  ft_allowances : gmap AssetIdentifier (list (Z * Z));
  nft_allowances : gmap AssetIdentifier (Z * list Value);
  stacking_allowances : list (Z * Z);
  pox_allowance : option Z;
}.

Definition Budget_empty : Budget := mkBudget [] ∅ ∅ [] None.

Definition record_violation (earliest : option Z) (candidate : Z) : option Z :=
  match earliest with
  | Some current => if candidate <? current then Some candidate else earliest
  | None => Some candidate
  end.

(** [enumerate] *)
Fixpoint enumerate {A} (i : Z) (l : list A) : list (Z * A) :=
  match l with [] => [] | x :: l => (i, x) :: enumerate (i + 1) l end.

Definition add_allowance (i : Z) (a : Allowance) (b : Budget) : Budget :=
  match b with
  | mkBudget stx ft nft stacking pox =>
      match a with
      | AllowStx amount => mkBudget (stx ++ [(i, amount)]) ft nft stacking pox
      | AllowFt asset amount =>
          mkBudget stx (entry_or_default [] (fun l => l ++ [(i, amount)]) asset ft) nft stacking pox
      | AllowNft asset asset_ids =>
          mkBudget stx ft (entry_or_default (i, []) (fun e => (e.1, e.2 ++ asset_ids)) asset nft) stacking pox
      | AllowStacking amount => mkBudget stx ft nft (stacking ++ [(i, amount)]) pox
      | AllowPox => mkBudget stx ft nft stacking (match pox with None => Some i | Some _ => pox end)
      | AllowAll => b
      end
  end.

(** [None] when the loop returns because anything may move *)
Fixpoint collect_allowances (allowances : list (Z * Allowance)) (b : Budget) : option Budget :=
  match allowances with
  | [] => Some b
  | (_, AllowAll) :: _ => None
  | (i, a) :: allowances => collect_allowances allowances (add_allowance i a b)
  end.

(** The loop that breaks at the first allowance exceeded *)
Fixpoint record_first (moved : Z) (allowances : list (Z * Z)) (earliest : option Z) : option Z :=
  match allowances with
  | [] => earliest
  | (index, allowance) :: allowances =>
      if allowance <? moved then record_violation earliest index
      else record_first moved allowances earliest
  end.

Definition check_amount (moved : option Z) (allowances : list (Z * Z)) (earliest : option Z) : option Z :=
  match moved with
  | None => earliest
  | Some moved =>
      if is_empty allowances then record_violation earliest MAX_ALLOWANCES
      else record_first moved allowances earliest
  end.

(** The allowance for any asset of a contract *)
Definition wildcard (asset : AssetIdentifier) : AssetIdentifier :=
  mkAssetIdentifier (asset_contract asset) "*".

(** What is allowed of an asset by the allowances for which [exceeded] tells
    whether they are too little *)
Definition check_merged {B} (exceeded : B -> bool) (merged : list (Z * B)) (earliest : option Z) : option Z :=
  if is_empty merged then record_violation earliest MAX_ALLOWANCES
  else foldl (fun earliest '(index, allowance) =>
                if exceeded allowance then record_violation earliest index else earliest)
         earliest merged.

Definition check_ft (b : Budget) (earliest : option Z) (moved : AssetIdentifier * Z) : option Z :=
  let '(asset, amount_moved) := moved in
  let merged := default [] (ft_allowances b !! asset) ++ default [] (ft_allowances b !! wildcard asset) in
  check_merged (fun allowance => allowance <? amount_moved) merged earliest.

Definition contains (ids : list Value) (id : Value) : bool := existsb (fun x => value_eqb x id) ids.

Definition check_nft (b : Budget) (earliest : option Z) (moved : AssetIdentifier * list Value) : option Z :=
  let '(asset, ids_moved) := moved in
  let merged := option_list (nft_allowances b !! asset) ++ option_list (nft_allowances b !! wildcard asset) in
  check_merged (fun allowance_vec => existsb (fun id => negb (contains allowance_vec id)) ids_moved)
    merged earliest.

(** STX moved and burned together *)
Fixpoint check_combined (epoch : StacksEpochId) (total_stx_change : Z) (allowances : list (Z * Z))
    (earliest : option Z) : result VmExecutionError (option Z) :=
  match allowances with
  | [] => Ok earliest
  | (index, allowance) :: allowances =>
      if allowance <? total_stx_change then
        if handles_with_stx_combined_check epoch then Ok (record_violation earliest index)
        else match earliest with
             | None => Err (Internal (VI_Expect "Total STX movement and burn exceeds allowance"))
             | Some _ => check_combined epoch total_stx_change allowances earliest
             end
      else check_combined epoch total_stx_change allowances earliest
  end.

Section Check.
Context `{HashMapIter} (owner : PrincipalData).

(** The checks of everything but STX moved and burned together *)
Definition check_moves (b : Budget) (assets : AssetMap) : option Z :=
  let earliest := check_amount (get_stx owner assets) (stx_allowances b) None in
  let earliest := check_amount (get_stx_burned owner assets) (stx_allowances b) earliest in
  let earliest :=
    match get_all_fungible_tokens owner assets with
    | Some ft_moved => foldl (check_ft b) earliest (iter ft_moved)
    | None => earliest
    end in
  let earliest :=
    match get_all_nonfungible_tokens owner assets with
    | Some nft_moved => foldl (check_nft b) earliest (iter nft_moved)
    | None => earliest
    end in
  let earliest := check_amount (get_stacking owner assets) (stacking_allowances b) earliest in
  if did_pox_action owner assets && bool_decide (pox_allowance b = None)
  then record_violation earliest MAX_ALLOWANCES else earliest.

Definition check_allowances (allowances : list Allowance) (assets : AssetMap) (epoch : StacksEpochId)
    : result VmExecutionError (option Z) :=
  match collect_allowances (enumerate 0 allowances) Budget_empty with
  | None => Ok None
  | Some b =>
      let earliest_violation := check_moves b assets in
      total_stx_change ←
        ok_or (u128_checked_add (default 0 (get_stx owner assets)) (default 0 (get_stx_burned owner assets)))
          (Internal (VI_Expect "STX movement and burn overflowed u128"));
      if 0 <? total_stx_change
      then check_combined epoch total_stx_change (stx_allowances b) earliest_violation
      else Ok earliest_violation
  end.
End Check.

(** ** What the allowances promise *)

Section Spec.
Context (owner : PrincipalData) (allowances : list Allowance) (assets : AssetMap).

(** STX that left the owner, by transfer or by burning *)
Definition stx_out : Z :=
  default 0 (get_stx owner assets) + default 0 (get_stx_burned owner assets).

Definition for_asset (allowed asset : AssetIdentifier) : Prop := allowed = asset \/ allowed = wildcard asset.

(** The identifiers that all allowances for an asset name together *)
Definition ids_for (asset : AssetIdentifier) : list Value :=
  a ← allowances; match a with AllowNft a ids => if decide (a = asset) then ids else [] | _ => [] end.

(** Allowance [i] is exceeded. The allowances for one non-fungible token count as
    one, at the index of the first of them. *)
Definition exceeded (i : Z) (a : Allowance) : Prop :=
  match a with
  | AllowStx amount => amount < stx_out
  | AllowFt allowed amount => exists asset moved,
      get_fungible_tokens owner asset assets = Some moved /\ for_asset allowed asset /\ amount < moved
  | AllowNft allowed _ =>
      (forall j ids, (j, AllowNft allowed ids) ∈ enumerate 0 allowances -> i <= j) /\
      exists asset moved id,
        get_nonfungible_tokens owner asset assets = Some moved /\ for_asset allowed asset /\
        id ∈ moved /\ contains (ids_for allowed) id = false
  | AllowStacking amount => exists stacked, get_stacking owner assets = Some stacked /\ amount < stacked
  | AllowPox | AllowAll => False
  end.

(** Something moved that no allowance is for. *)
Definition unallowed : Prop :=
  (is_Some (get_stx owner assets) \/ is_Some (get_stx_burned owner assets)) /\
    (forall amount, AllowStx amount ∉ allowances) \/
  (exists asset, is_Some (get_fungible_tokens owner asset assets) /\
    forall allowed amount, for_asset allowed asset -> AllowFt allowed amount ∉ allowances) \/
  (exists asset, is_Some (get_nonfungible_tokens owner asset assets) /\
    forall allowed ids, for_asset allowed asset -> AllowNft allowed ids ∉ allowances) \/
  is_Some (get_stacking owner assets) /\ (forall amount, AllowStacking amount ∉ allowances) \/
  did_pox_action owner assets = true /\ AllowPox ∉ allowances.

Definition violated (i : Z) : Prop :=
  (exists a, (i, a) ∈ enumerate 0 allowances /\ exceeded i a) \/ (i = MAX_ALLOWANCES /\ unallowed).
End Spec.

(** [o] is the least index with [P], [None] when there is none. *)
Definition least (P : Z -> Prop) (o : option Z) : Prop :=
  match o with
  | None => forall i, ~ P i
  | Some i => P i /\ forall j, P j -> i <= j
  end.

Lemma least_ext (P Q : Z -> Prop) o : (forall i, P i <-> Q i) -> least P o -> least Q o.
Proof. intros HPQ. destruct o; cbn; naive_solver. Qed.

Lemma least_mono (P Q : Z -> Prop) o :
  (forall i, P i -> Q i) -> (forall i, Q i -> exists j, P j /\ j <= i) -> least P o -> least Q o.
Proof.
  intros HPQ HQP. destruct o as [i|]; cbn; [| naive_solver].
  intros [Hi Hmin]. split; [auto |]. intros j (k & Hk & ?)%HQP. apply Hmin in Hk. lia.
Qed.

Lemma record_violation_least P o c : least P o -> least (fun i => P i \/ i = c) (record_violation o c).
Proof.
  destruct o as [i|]; cbn.
  - intros [Hi Hmin]. case_match eqn:E; cbn; split; auto; intros j [Hj | ->]; auto; try apply Hmin in Hj; lia.
  - intros HP. split; [auto |]. intros j [[]%HP | ->]. lia.
Qed.

Definition over {B} (exceeded : B -> Prop) (l : list (Z * B)) (i : Z) : Prop :=
  exists b, (i, b) ∈ l /\ exceeded b.

Definition ascending {B} (l : list (Z * B)) : Prop := StronglySorted (fun x y => x.1 < y.1) l.

Lemma record_first_least moved l P o :
  ascending l -> least P o ->
  least (fun i => P i \/ over (fun allowance => allowance < moved) l i) (record_first moved l o).
Proof.
  intros Hs HP. induction Hs as [| [i a] l Hs IH Hi]; cbn.
  - revert HP. apply least_ext. unfold over. set_solver.
  - destruct (a <? moved) eqn:E.
    + eapply least_mono, record_violation_least, HP.
      * intros j [? | ->]; [auto | right; exists a; split; [set_solver | lia]].
      * intros j [? | (b & Hb & ?)]; [eauto with lia |]. exists i. split; [auto |].
        apply elem_of_cons in Hb as [[= -> ->] | Hb]; [lia |].
        rewrite Forall_forall in Hi. apply Hi in Hb. cbn in Hb. lia.
    + revert IH. apply least_ext. intros j. unfold over. setoid_rewrite elem_of_cons.
      split; [naive_solver |]. intros [? | (b & [[= -> ->] | ?] & ?)]; [auto | lia | eauto].
Qed.

Lemma check_amount_least moved l P o :
  ascending l -> least P o ->
  least (fun i => P i \/ exists n, moved = Some n /\
           (l = [] /\ i = MAX_ALLOWANCES \/ over (fun allowance => allowance < n) l i))
    (check_amount moved l o).
Proof.
  intros Hs HP. destruct moved as [n|]; cbn; [| revert HP; apply least_ext; naive_solver].
  destruct l as [| e l]; cbn [is_empty].
  - apply (record_violation_least _ _ MAX_ALLOWANCES) in HP. revert HP. apply least_ext.
    unfold over. set_solver.
  - apply (record_first_least n (e :: l)) in HP; [| done]. revert HP. apply least_ext. naive_solver.
Qed.

Lemma foldl_least {A} (f : option Z -> A -> option Z) (Q : A -> Z -> Prop) l P o :
  (forall x P o, least P o -> least (fun i => P i \/ Q x i) (f o x)) ->
  least P o -> least (fun i => P i \/ exists x, x ∈ l /\ Q x i) (foldl f o l).
Proof.
  intros Hf. revert P o. induction l as [| x l IH]; intros P o HP; cbn.
  - revert HP. apply least_ext. set_solver.
  - apply (Hf x) in HP. apply IH in HP. revert HP. apply least_ext. set_solver.
Qed.

Lemma check_merged_least {B} (exceeded : B -> bool) merged P o :
  least P o ->
  least (fun i => P i \/ (merged = [] /\ i = MAX_ALLOWANCES \/ over (fun b => exceeded b = true) merged i))
    (check_merged exceeded merged o).
Proof.
  intros HP. unfold check_merged. destruct merged as [| e l] eqn:E; cbn [is_empty]; rewrite <- ?E.
  - apply (record_violation_least _ _ MAX_ALLOWANCES) in HP. revert HP. apply least_ext.
    unfold over. set_solver.
  - eapply least_ext, (foldl_least _ (fun x j => x.1 = j /\ exceeded x.2 = true)), HP.
    2: { intros [i b] P' o' HP'. cbn. destruct (exceeded b) eqn:Eb.
         - apply (record_violation_least _ _ i) in HP'. revert HP'. apply least_ext. naive_solver.
         - revert HP'. apply least_ext. naive_solver. }
    intros i. unfold over. split.
    + intros [? | ([j b] & Hx & <- & Hb)]; [auto | right; right; eauto].
    + intros [? | [[Hn _] | (b & Hx & Hb)]]; [auto | by rewrite E in Hn | right; exists (i, b); auto].
Qed.

Lemma check_combined_least epoch total l P o :
  handles_with_stx_combined_check epoch = true -> ascending l -> least P o ->
  exists o', check_combined epoch total l o = Ok o' /\
    least (fun i => P i \/ over (fun allowance => allowance < total) l i) o'.
Proof.
  intros He Hs HP. exists (record_first total l o). split; [| by apply record_first_least].
  clear Hs HP. induction l as [| [i a] l IH]; cbn; [done |]. rewrite He. by destruct (a <? total).
Qed.

Lemma check_combined_None epoch total l o :
  check_combined epoch total l o = Ok None <->
  o = None /\ forall i, ~ over (fun allowance => allowance < total) l i.
Proof.
  induction l as [| [i a] l IH]; cbn.
  - split; [intros [= ->]; split; [done | unfold over; set_solver] | by intros [-> _]].
  - destruct (a <? total) eqn:E.
    + split.
      * destruct (handles_with_stx_combined_check epoch); [destruct o; cbn; repeat case_match; done |].
        destruct o; [| done]. intros [? _]%IH. done.
      * intros [_ Hn]. destruct (Hn i). exists a. split; [set_solver | lia].
    + rewrite IH. split; (intros [-> Hn]; split; [done |]); intros j (b & Hb & Hlt); apply (Hn j).
      * exists b. apply elem_of_cons in Hb as [[= -> ->] | ?]; [lia | done].
      * exists b. split; [set_solver | done].
Qed.

(** *** What the loop over the allowances collects *)

Definition stx_entry (x : Z * Allowance) : option (Z * Z) :=
  match x.2 with AllowStx amount => Some (x.1, amount) | _ => None end.
Definition ft_entry (asset : AssetIdentifier) (x : Z * Allowance) : option (Z * Z) :=
  match x.2 with AllowFt a amount => if decide (a = asset) then Some (x.1, amount) else None | _ => None end.
Definition nft_entry (asset : AssetIdentifier) (x : Z * Allowance) : option (Z * list Value) :=
  match x.2 with AllowNft a ids => if decide (a = asset) then Some (x.1, ids) else None | _ => None end.
Definition stacking_entry (x : Z * Allowance) : option (Z * Z) :=
  match x.2 with AllowStacking amount => Some (x.1, amount) | _ => None end.
Definition pox_entry (x : Z * Allowance) : option Z :=
  match x.2 with AllowPox => Some x.1 | _ => None end.

(** The allowances for one non-fungible token as one *)
Definition joined (l : list (Z * list Value)) : option (Z * list Value) :=
  match l with [] => None | (i, ids) :: l => Some (i, ids ++ concat l.*2) end.

Definition collects (l : list (Z * Allowance)) (b : Budget) : Prop :=
  stx_allowances b = omap stx_entry l /\
  (forall asset, default [] (ft_allowances b !! asset) = omap (ft_entry asset) l) /\
  (forall asset, nft_allowances b !! asset = joined (omap (nft_entry asset) l)) /\
  stacking_allowances b = omap stacking_entry l /\
  pox_allowance b = head (omap pox_entry l).

Lemma joined_snoc l i ids :
  joined (l ++ [(i, ids)]) =
  Some ((default (i, []) (joined l)).1, (default (i, []) (joined l)).2 ++ ids).
Proof.
  destruct l as [| [j js] l]; cbn; [by rewrite app_nil_r |].
  by rewrite fmap_app, concat_app; cbn; rewrite app_nil_r, app_assoc.
Qed.

Lemma lookup_entry_or_default {K V} `{Countable K} (d : V) f k (m : gmap K V) k' :
  entry_or_default d f k m !! k' = if decide (k = k') then Some (f (default d (m !! k))) else m !! k'.
Proof. unfold entry_or_default. destruct (decide (k = k')) as [-> | ?]; by simplify_map_eq. Qed.

Lemma add_allowance_collects l b i a :
  collects l b -> collects (l ++ [(i, a)]) (add_allowance i a b).
Proof.
  destruct b as [stx ft nft stacking pox]. unfold collects. cbn.
  intros (-> & Hft & Hnft & -> & ->). setoid_rewrite omap_app.
  destruct a as [| a n | a ids | | |]; cbn; rewrite ?app_nil_r; split_and!; try done; intros;
    rewrite ?lookup_entry_or_default; unfold ft_entry, nft_entry; cbn; rewrite ?app_nil_r;
    try done; try case_decide; subst; rewrite ?app_nil_r; try done; rewrite ?Hft, ?Hnft; try done.
  - by rewrite joined_snoc.
  - by destruct (omap pox_entry l).
Qed.

Lemma collect_allowances_Some l0 l b :
  collects l0 b -> (forall i, (i, AllowAll) ∉ l) ->
  exists b', collect_allowances l b = Some b' /\ collects (l0 ++ l) b'.
Proof.
  revert l0 b. induction l as [| [i a] l IH]; intros l0 b Hb Hall; cbn.
  - rewrite app_nil_r. eauto.
  - destruct (IH (l0 ++ [(i, a)]) (add_allowance i a b)) as (b' & E & H');
      [by apply add_allowance_collects | set_solver |].
    rewrite <- app_assoc in H'. exists b'. split; [| done].
    destruct a; try done. exfalso. apply (Hall i). set_solver.
Qed.

Lemma collect_allowances_All i l b : (i, AllowAll) ∈ l -> collect_allowances l b = None.
Proof.
  revert b. induction l as [| [j a] l IH]; intros b; [set_solver |].
  intros [[= <- <-] | Hl]%elem_of_cons; [done |]. cbn. rewrite IH by done. by destruct a.
Qed.

(** *** Enumerated allowances *)

Lemma elem_of_enumerate {A} (l : list A) k a : a ∈ l <-> exists i, (i, a) ∈ enumerate k l.
Proof.
  revert k. induction l as [| x l IH]; intros k; cbn; [set_solver |].
  rewrite elem_of_cons, (IH (k + 1)). setoid_rewrite elem_of_cons. naive_solver.
Qed.

Lemma enumerate_from {A} (l : list A) k i a : (i, a) ∈ enumerate k l -> k <= i.
Proof.
  revert k. induction l as [| x l IH]; intros k; cbn; [set_solver |].
  intros [[= -> ->] | ?%IH]%elem_of_cons; lia.
Qed.

Lemma enumerate_ascending {A} (l : list A) k : ascending (enumerate k l).
Proof.
  revert k. induction l as [| x l IH]; intros k; cbn; constructor; [apply IH |].
  apply Forall_forall. intros [i a] Hi%enumerate_from. cbn. lia.
Qed.

Lemma omap_ascending {A B} (f : Z * A -> option (Z * B)) (l : list (Z * A)) :
  (forall x y, f x = Some y -> y.1 = x.1) -> ascending l -> ascending (omap f l).
Proof.
  intros Hf Hs. induction Hs as [| x l Hs IH Hx]; cbn; [constructor |].
  destruct (f x) as [y|] eqn:E; [| done]. constructor; [done |].
  rewrite Forall_forall in Hx. apply Forall_forall. intros z (x' & Hx' & Ez)%list_elem_of_omap.
  apply Hf in E, Ez. rewrite E, Ez. by apply Hx.
Qed.

Section Parts.
Context (owner : PrincipalData) (allowances : list Allowance) (assets : AssetMap) (b : Budget).
Context (Hb : collects (enumerate 0 allowances) b).
Abbreviation l := (enumerate 0 allowances).

Lemma stx_ascending : ascending (stx_allowances b).
Proof.
  destruct Hb as (-> & _). apply omap_ascending, enumerate_ascending.
  intros [i []] y; cbn; naive_solver.
Qed.

Lemma stacking_ascending : ascending (stacking_allowances b).
Proof.
  destruct Hb as (_ & _ & _ & -> & _). apply omap_ascending, enumerate_ascending.
  intros [i []] y; cbn; naive_solver.
Qed.

Lemma elem_of_stx i n : (i, n) ∈ stx_allowances b <-> (i, AllowStx n) ∈ l.
Proof.
  destruct Hb as (-> & _). rewrite list_elem_of_omap. split; [| intros; by eexists (_, _)].
  intros ([j []] & Hx & [= <- <-]). done.
Qed.

Lemma elem_of_stacking i n : (i, n) ∈ stacking_allowances b <-> (i, AllowStacking n) ∈ l.
Proof.
  destruct Hb as (_ & _ & _ & -> & _). rewrite list_elem_of_omap. split; [| intros; by eexists (_, _)].
  intros ([j []] & Hx & [= <- <-]). done.
Qed.

Lemma elem_of_ft asset i n : (i, n) ∈ default [] (ft_allowances b !! asset) <-> (i, AllowFt asset n) ∈ l.
Proof.
  destruct Hb as (_ & Hft & _). rewrite Hft, list_elem_of_omap. unfold ft_entry. split.
  - intros ([j []] & Hx & Heq); cbn in Heq; try done. case_decide; [| done]. by simplify_eq.
  - intros. eexists (_, _). split; [done |]. cbn. by rewrite decide_True.
Qed.

Lemma no_allowance {B} (entries : list (Z * B)) (mk : B -> Allowance) :
  (forall i n, (i, n) ∈ entries <-> (i, mk n) ∈ l) ->
  entries = [] <-> forall n, mk n ∉ allowances.
Proof.
  clear Hb. intros He. split.
  - intros -> n (i & Hi)%(elem_of_enumerate _ 0). apply He in Hi. set_solver.
  - intros Hn. destruct entries as [| [i n] ?]; [done |]. destruct (Hn n).
    apply (elem_of_enumerate _ 0). exists i. apply He. set_solver.
Qed.

Lemma pox_allowed : pox_allowance b = None <-> AllowPox ∉ allowances.
Proof.
  destruct Hb as (_ & _ & _ & _ & ->). rewrite (elem_of_enumerate _ 0). split.
  - intros Hn (i & Hi). destruct (omap pox_entry l) eqn:E; [| done].
    assert (i ∈ omap pox_entry l) as Hin by (apply list_elem_of_omap; by exists (i, AllowPox)).
    rewrite E in Hin. set_solver.
  - intros Hn. destruct (omap pox_entry l) as [| i is'] eqn:E; [done |]. destruct Hn. exists i.
    assert (Hin : i ∈ i :: is') by set_solver. rewrite <- E in Hin.
    apply list_elem_of_omap in Hin as ([j a] & Hj & Hp).
    unfold pox_entry in Hp. cbn in Hp. destruct a; naive_solver.
Qed.
End Parts.

(** The allowances for one non-fungible token: the index of the first, and the
    identifiers of all *)
Lemma joined_spec allowances k asset :
  match joined (omap (nft_entry asset) (enumerate k allowances)) with
  | None => forall ids, AllowNft asset ids ∉ allowances
  | Some (i, ids) =>
      (exists ids', (i, AllowNft asset ids') ∈ enumerate k allowances) /\
      (forall j ids', (j, AllowNft asset ids') ∈ enumerate k allowances -> i <= j) /\
      ids = ids_for allowances asset
  end.
Proof.
  revert k. induction allowances as [| a rest IH]; intros k; cbn; [set_solver |].
  specialize (IH (k + 1)). unfold nft_entry at 1. cbn [fst snd].
  assert (Hskip : (forall ids, a <> AllowNft asset ids) ->
    match joined (omap (nft_entry asset) (enumerate (k + 1) rest)) with
    | None => forall ids, AllowNft asset ids ∉ a :: rest
    | Some (i, ids) =>
        (exists ids', (i, AllowNft asset ids') ∈ (k, a) :: enumerate (k + 1) rest) /\
        (forall j ids', (j, AllowNft asset ids') ∈ (k, a) :: enumerate (k + 1) rest -> i <= j) /\
        ids = ids_for rest asset
    end).
  { intros Hne. destruct (joined _) as [[i ids]|].
    - destruct IH as ((ids' & H') & Hmin & ->). split_and!; [set_solver | | done].
      intros j js [[= -> ?] | ?]%elem_of_cons; [naive_solver | eauto].
    - intros ids [? | ?]%elem_of_cons; naive_solver. }
  destruct a as [| | a ids | | |]; try (by apply Hskip; congruence).
  case_decide as Ha; [| by apply Hskip; naive_solver]. subst a. cbn. split_and!.
  - eexists. apply elem_of_cons. by left.
  - intros j js [[= -> ->] | Hj%enumerate_from]%elem_of_cons; lia.
  - unfold ids_for in *. cbn. f_equal.
    destruct (omap (nft_entry asset) _) as [| [i is'] m]; cbn in *.
    + clear -IH. induction rest as [| x rest IHr]; cbn; [done |]. rewrite <- IHr by set_solver.
      destruct x; try done. case_decide; [| done]. subst. destruct (IH asset_ids). set_solver.
    + by destruct IH as (_ & _ & ->).
Qed.

(** ** The check is right *)

Lemma stx_moved_nonneg owner assets :
  asset_map_wf assets ->
  0 <= default 0 (get_stx owner assets) /\ 0 <= default 0 (get_stx_burned owner assets).
Proof.
  intros (Hs & Hb & _). unfold get_stx, get_stx_burned.
  destruct (stx_map assets !! owner) as [n|] eqn:E1; [apply Hs in E1 |];
    (destruct (burn_map assets !! owner) as [m|] eqn:E2; [apply Hb in E2 |]);
    unfold is_u128 in *; cbn; lia.
Qed.

Section Main.
Context `{HashMapIter} (owner : PrincipalData) (assets : AssetMap).

Definition ft_merged (b : Budget) (asset : AssetIdentifier) : list (Z * Z) :=
  default [] (ft_allowances b !! asset) ++ default [] (ft_allowances b !! wildcard asset).
Definition nft_merged (b : Budget) (asset : AssetIdentifier) : list (Z * list Value) :=
  option_list (nft_allowances b !! asset) ++ option_list (nft_allowances b !! wildcard asset).
Definition outside (ids_moved allowed : list Value) : bool :=
  existsb (fun id => negb (contains allowed id)) ids_moved.

Definition amount_over (moved : option Z) (l : list (Z * Z)) (i : Z) : Prop :=
  exists n, moved = Some n /\ (l = [] /\ i = MAX_ALLOWANCES \/ over (fun allowance => allowance < n) l i).
Definition ft_over (b : Budget) (i : Z) : Prop :=
  exists asset n, get_fungible_tokens owner asset assets = Some n /\
    (ft_merged b asset = [] /\ i = MAX_ALLOWANCES \/
     over (fun allowance => (allowance <? n) = true) (ft_merged b asset) i).
Definition nft_over (b : Budget) (i : Z) : Prop :=
  exists asset ids, get_nonfungible_tokens owner asset assets = Some ids /\
    (nft_merged b asset = [] /\ i = MAX_ALLOWANCES \/
     over (fun allowed => outside ids allowed = true) (nft_merged b asset) i).
Definition pox_over (b : Budget) (i : Z) : Prop :=
  did_pox_action owner assets = true /\ pox_allowance b = None /\ i = MAX_ALLOWANCES.

Definition moves_over (b : Budget) (i : Z) : Prop :=
  amount_over (get_stx owner assets) (stx_allowances b) i \/
  amount_over (get_stx_burned owner assets) (stx_allowances b) i \/
  ft_over b i \/ nft_over b i \/
  amount_over (get_stacking owner assets) (stacking_allowances b) i \/ pox_over b i.

Lemma foldl_iter_least {V} (m : option (gmap AssetIdentifier V))
    (f : option Z -> AssetIdentifier * V -> option Z) (Q : AssetIdentifier -> V -> Z -> Prop) P o :
  (forall x v P o, least P o -> least (fun i => P i \/ Q x v i) (f o (x, v))) ->
  least P o ->
  least (fun i => P i \/ exists x v, m ≫= (fun m => m !! x) = Some v /\ Q x v i)
    (match m with Some m => foldl f o (iter m) | None => o end).
Proof.
  intros Hf HP. destruct m as [m|]; cbn.
  - eapply least_ext, (foldl_least f (fun x => Q x.1 x.2)), HP; [| intros [x v]; apply Hf].
    intros i. split.
    + intros [? | ([x v] & Hx%elem_of_iter & HQ)]; [auto | right; eauto].
    + intros [? | (x & v & Hx%elem_of_iter & HQ)]; [auto | right; by exists (x, v)].
  - revert HP. apply least_ext. naive_solver.
Qed.

Lemma check_moves_least b :
  ascending (stx_allowances b) -> ascending (stacking_allowances b) ->
  least (moves_over b) (check_moves owner b assets).
Proof.
  intros Hstx Hstacking. unfold check_moves.
  set (o1 := check_amount (get_stx owner assets) (stx_allowances b) None).
  assert (H1 := check_amount_least (get_stx owner assets) _ _ None Hstx (fun i (F : False) => F)).
  fold o1 in H1. clearbody o1.
  apply (check_amount_least (get_stx_burned owner assets) _ _ _ Hstx) in H1.
  revert H1. generalize (check_amount (get_stx_burned owner assets) (stx_allowances b) o1). intros o2 H1.
  apply (foldl_iter_least (get_all_fungible_tokens owner assets) (check_ft b) (fun asset n i =>
    ft_merged b asset = [] /\ i = MAX_ALLOWANCES \/
    over (fun allowance => (allowance <? n) = true) (ft_merged b asset) i)) in H1.
  2: { intros asset n P o HP. by apply (check_merged_least (fun allowance => allowance <? n)). }
  revert H1. generalize (match get_all_fungible_tokens owner assets with
    Some m => foldl (check_ft b) o2 (iter m) | None => o2 end). intros o3 H1.
  apply (foldl_iter_least (get_all_nonfungible_tokens owner assets) (check_nft b) (fun asset ids i =>
    nft_merged b asset = [] /\ i = MAX_ALLOWANCES \/
    over (fun allowed => outside ids allowed = true) (nft_merged b asset) i)) in H1.
  2: { intros asset ids P o HP. by apply (check_merged_least (outside ids)). }
  revert H1. generalize (match get_all_nonfungible_tokens owner assets with
    Some m => foldl (check_nft b) o3 (iter m) | None => o3 end). intros o4 H1.
  apply (check_amount_least (get_stacking owner assets) _ _ _ Hstacking) in H1.
  revert H1. generalize (check_amount (get_stacking owner assets) (stacking_allowances b) o4). intros o5 H1.
  case_match eqn:E.
  - apply (record_violation_least _ _ MAX_ALLOWANCES) in H1. revert H1. apply least_ext. intros i.
    apply andb_prop in E as [E1 E2%bool_decide_eq_true].
    unfold moves_over, amount_over, ft_over, nft_over, pox_over. tauto.
  - revert H1. apply least_ext. intros i.
    assert (~ pox_over b i).
    { intros (E1 & E2 & _). by rewrite E1, bool_decide_eq_true_2 in E. }
    unfold moves_over, amount_over, ft_over, nft_over. tauto.
Qed.

Context (allowances : list Allowance) (b : Budget).
Context (Hb : collects (enumerate 0 allowances) b).
Context (Hmoved : asset_map_wf assets).
Abbreviation l := (enumerate 0 allowances).

Lemma stx_over_iff i :
  amount_over (get_stx owner assets) (stx_allowances b) i \/
  amount_over (get_stx_burned owner assets) (stx_allowances b) i \/
  over (fun allowance => allowance < stx_out owner assets) (stx_allowances b) i <->
  (exists amount, (i, AllowStx amount) ∈ l /\ amount < stx_out owner assets) \/
  i = MAX_ALLOWANCES /\ (is_Some (get_stx owner assets) \/ is_Some (get_stx_burned owner assets)) /\
    (forall amount, AllowStx amount ∉ allowances).
Proof.
  assert (Hnil := no_allowance allowances _ _ (elem_of_stx allowances b Hb)).
  unfold amount_over, over, stx_out. setoid_rewrite (elem_of_stx allowances b Hb). rewrite <- Hnil.
  destruct (stx_moved_nonneg owner assets Hmoved).
  split.
  - intros [(n & E & Hn) | [(n & E & Hn) | Hn]]; [| | auto]; rewrite E in *; cbn in *;
      (destruct Hn as [[? ->] | (a & ? & ?)]; [right; eauto | left; exists a; split; [done | lia]]).
  - intros [? | (-> & [[n ->] | [n ->]] & ?)]; eauto 10.
Qed.

Lemma ft_over_iff i :
  ft_over b i <->
  (exists allowed amount, (i, AllowFt allowed amount) ∈ l /\ exceeded owner allowances assets i (AllowFt allowed amount)) \/
  i = MAX_ALLOWANCES /\ exists asset, is_Some (get_fungible_tokens owner asset assets) /\
    forall allowed amount, for_asset allowed asset -> AllowFt allowed amount ∉ allowances.
Proof.
  assert (Hel : forall asset i n, (i, n) ∈ ft_merged b asset <->
            exists allowed, for_asset allowed asset /\ (i, AllowFt allowed n) ∈ l).
  { intros asset j n. unfold ft_merged. rewrite elem_of_app, !(elem_of_ft allowances b Hb).
    unfold for_asset. naive_solver. }
  assert (Hnil : forall asset, ft_merged b asset = [] <->
            forall allowed amount, for_asset allowed asset -> AllowFt allowed amount ∉ allowances).
  { intros asset. split.
    - intros Hn allowed n Hf (j & Hj)%(elem_of_enumerate _ 0).
      assert (Hin : (j, n) ∈ ft_merged b asset) by (apply Hel; eauto). rewrite Hn in Hin. set_solver.
    - intros Hn. destruct (ft_merged b asset) as [| [j n] ?] eqn:E; [done |].
      assert (Hin : (j, n) ∈ ft_merged b asset) by (rewrite E; set_solver).
      apply Hel in Hin as (allowed & Hf & Hin). destruct (Hn allowed n Hf).
      apply (elem_of_enumerate _ 0). eauto. }
  unfold ft_over, over. setoid_rewrite Hel. setoid_rewrite Hnil. cbn. split.
  - intros (asset & n & E & [[Hn ->] | (a & (allowed & ? & ?) & ?)]); [right; eauto |].
    left. exists allowed, a. split; [done |]. exists asset, n. split_and!; [done | done | lia].
  - intros [(allowed & a & Hin & asset & n & E & Hf & Hlt) | (-> & asset & [n E] & Hn)];
      exists asset, n; (split; [done |]); [right | left; auto].
    exists a. split; [eauto | lia].
Qed.

Lemma nft_merged_spec asset i ids :
  (i, ids) ∈ nft_merged b asset <->
  exists allowed, for_asset allowed asset /\ ids = ids_for allowances allowed /\
    (exists ids', (i, AllowNft allowed ids') ∈ l) /\ forall j ids', (j, AllowNft allowed ids') ∈ l -> i <= j.
Proof.
  destruct Hb as (_ & _ & Hnft & _). unfold nft_merged. rewrite elem_of_app, !Hnft.
  assert (Hj : forall a, (i, ids) ∈ option_list (joined (omap (nft_entry a) l)) <->
    ids = ids_for allowances a /\ (exists ids', (i, AllowNft a ids') ∈ l) /\
    forall j ids', (j, AllowNft a ids') ∈ l -> i <= j).
  { intros a. assert (Hs := joined_spec allowances 0 a). destruct (joined _) as [[k ks]|]; cbn.
    - rewrite list_elem_of_singleton. destruct Hs as ((ids' & Hk) & Hmin & ->). split.
      + intros [= -> ->]. eauto.
      + intros (-> & (ids'' & Hi) & Hmin'). apply Hmin in Hi as ?. apply Hmin' in Hk. f_equal. lia.
    - split; [set_solver |]. intros (_ & (ids' & Hi) & _). destruct (Hs ids').
      apply (elem_of_enumerate _ 0). eauto. }
  rewrite !Hj. unfold for_asset. (split; [intros [? | ?]; eauto 6 | intros (a & [-> | ->] & ?); auto]).
Qed.

Lemma nft_over_iff i :
  nft_over b i <->
  (exists allowed ids, (i, AllowNft allowed ids) ∈ l /\ exceeded owner allowances assets i (AllowNft allowed ids)) \/
  i = MAX_ALLOWANCES /\ exists asset, is_Some (get_nonfungible_tokens owner asset assets) /\
    forall allowed ids, for_asset allowed asset -> AllowNft allowed ids ∉ allowances.
Proof.
  assert (Hnil : forall asset, nft_merged b asset = [] <->
            forall allowed ids, for_asset allowed asset -> AllowNft allowed ids ∉ allowances).
  { intros asset. split.
    - intros Hn allowed ids Hf (j & Hj)%(elem_of_enumerate _ 0).
      destruct Hb as (_ & _ & Hnft & _). unfold nft_merged in Hn. rewrite !Hnft in Hn.
      apply app_eq_nil in Hn as [Hn1 Hn2]. assert (Hs := joined_spec allowances 0 allowed).
      destruct Hf as [-> | ->]; [destruct (joined (omap (nft_entry asset) l)) |
        destruct (joined (omap (nft_entry (wildcard asset)) l))]; try done; destruct (Hs ids);
        apply (elem_of_enumerate _ 0); eauto.
    - intros Hn. destruct (nft_merged b asset) as [| [j js] ?] eqn:E; [done |].
      assert (Hin : (j, js) ∈ nft_merged b asset) by (rewrite E; set_solver).
      apply nft_merged_spec in Hin as (allowed & Hf & _ & (ids & Hin) & _). destruct (Hn allowed ids Hf).
      apply (elem_of_enumerate _ 0). eauto. }
  assert (Hout : forall ids allowed, outside ids allowed = true <->
            exists id, id ∈ ids /\ contains allowed id = false).
  { intros ids allowed. unfold outside. rewrite existsb_exists. setoid_rewrite negb_true_iff.
    by setoid_rewrite <- list_elem_of_In. }
  unfold nft_over, over. setoid_rewrite nft_merged_spec. setoid_rewrite Hnil. setoid_rewrite Hout.
  cbn. split.
  - intros (asset & moved & E & [[Hn ->] | (? & (allowed & Hf & -> & (ids & Hin) & Hmin) & id & ? & ?)]);
      [right; eauto |].
    left. exists allowed, ids. split_and!; [done | done |]. exists asset, moved, id. done.
  - intros [(allowed & ids & Hin & Hmin & asset & moved & id & E & Hf & ? & ?) | (-> & asset & [moved E] & Hn)];
      exists asset, moved; (split; [done |]); [right | left; auto].
    eexists. split; [exists allowed; split_and!; eauto | eauto].
Qed.

Lemma stacking_over_iff i :
  amount_over (get_stacking owner assets) (stacking_allowances b) i <->
  (exists amount, (i, AllowStacking amount) ∈ l /\ exceeded owner allowances assets i (AllowStacking amount)) \/
  i = MAX_ALLOWANCES /\ is_Some (get_stacking owner assets) /\ (forall amount, AllowStacking amount ∉ allowances).
Proof.
  rewrite <- (no_allowance allowances _ _ (elem_of_stacking allowances b Hb)).
  unfold amount_over, over. setoid_rewrite (elem_of_stacking allowances b Hb). cbn.
  split; [naive_solver |].
  intros [(a & ? & n & ? & ?) | (-> & [n ?] & ?)]; exists n; eauto.
Qed.

Lemma violated_iff i :
  moves_over b i \/ over (fun allowance => allowance < stx_out owner assets) (stx_allowances b) i <->
  violated owner allowances assets i.
Proof.
  unfold moves_over. split.
  - assert (Hex : forall a, (i, a) ∈ l -> exceeded owner allowances assets i a -> violated owner allowances assets i)
      by (intros; left; eauto).
    assert (Hun : i = MAX_ALLOWANCES -> unallowed owner allowances assets -> violated owner allowances assets i)
      by (intros; right; auto).
    assert (Hstx := proj1 (stx_over_iff i)).
    intros Hor. assert (amount_over (get_stx owner assets) (stx_allowances b) i \/
      amount_over (get_stx_burned owner assets) (stx_allowances b) i \/
      over (fun allowance => allowance < stx_out owner assets) (stx_allowances b) i \/
      ft_over b i \/ nft_over b i \/ amount_over (get_stacking owner assets) (stacking_allowances b) i \/
      pox_over b i) as Hor' by tauto. clear Hor. unfold unallowed in Hun.
    destruct Hor' as [Hs | [Hs | [Hs | [Hm%ft_over_iff | [Hm%nft_over_iff | [Hm%stacking_over_iff | Hm]]]]]].
    1-3: assert (Hm := Hstx ltac:(tauto)); destruct Hm as [(a & Hin & ?) | (-> & ?)]; [by eapply Hex | tauto].
    + destruct Hm as [(a & n & Hin & ?) | (-> & ?)]; [by eapply Hex | tauto].
    + destruct Hm as [(a & ids & Hin & ?) | (-> & ?)]; [by eapply Hex | tauto].
    + destruct Hm as [(n & Hin & ?) | (-> & ?)]; [by eapply Hex | tauto].
    + destruct Hm as (? & ?%(pox_allowed allowances b Hb) & ->). tauto.
  - assert (Hstx := proj2 (stx_over_iff i)). intros [(a & Hin & Hex) | (-> & Hu)].
    + destruct a as [n | a n | a ids | n | |]; cbn in Hex; try done.
      * specialize (Hstx (or_introl (ex_intro _ n (conj Hin Hex)))). tauto.
      * left; right; right; left. apply ft_over_iff. left. by eexists _, _.
      * left; right; right; right; left. apply nft_over_iff. left. by eexists _, _.
      * left; do 4 right; left. apply stacking_over_iff. left. by eexists.
    + destruct Hu as [Hu | [Hu | [Hu | [Hu | [Hp Hu]]]]].
      * specialize (Hstx (or_intror (conj eq_refl Hu))). tauto.
      * left; right; right; left. apply ft_over_iff. auto.
      * left; right; right; right; left. apply nft_over_iff. auto.
      * left; do 4 right; left. apply stacking_over_iff. auto.
      * left; do 5 right. split_and!; [done | by apply (pox_allowed allowances b Hb) | done].
Qed.
End Main.

Definition allowance_ok (a : Allowance) : Prop :=
  match a with AllowStx amount => is_u128 amount | _ => True end.

Lemma collects_empty : collects [] Budget_empty.
Proof. by unfold collects. Qed.

(** Nothing exceeds an allowance of no STX when no STX moved. *)
Lemma no_stx_over owner allowances assets b i :
  collects (enumerate 0 allowances) b -> Forall allowance_ok allowances ->
  stx_out owner assets <= 0 ->
  ~ over (fun allowance => allowance < stx_out owner assets) (stx_allowances b) i.
Proof.
  intros Hb Hok Hout (n & Hin & ?). apply (elem_of_stx _ _ Hb) in Hin.
  rewrite Forall_forall in Hok. assert (Hn := Hok (AllowStx n)). cbn in Hn. unfold is_u128 in Hn.
  lapply Hn; [lia | apply (elem_of_enumerate _ 0); eauto].
Qed.

(** More STX than fits a [u128] exceeds any allowance. *)
Lemma stx_overflow_over owner allowances assets b :
  collects (enumerate 0 allowances) b -> Forall allowance_ok allowances ->
  u128_max < stx_out owner assets ->
  exists i, moves_over owner assets b i \/
    over (fun allowance => allowance < stx_out owner assets) (stx_allowances b) i.
Proof.
  intros Hb Hok Hout. destruct (stx_allowances b) as [| [i n] ?] eqn:E.
  - exists MAX_ALLOWANCES. left. unfold moves_over, amount_over. rewrite E.
    unfold stx_out in Hout. destruct (get_stx owner assets) as [m|]; [left; eauto |].
    destruct (get_stx_burned owner assets) as [m|]; [right; left; eauto |].
    cbn in Hout. unfold u128_max in Hout. lia.
  - exists i. right. exists n. split; [set_solver |].
    assert (Hin : (i, n) ∈ stx_allowances b) by (rewrite E; set_solver).
    apply (elem_of_stx _ _ Hb) in Hin. rewrite Forall_forall in Hok.
    assert (Hn := Hok (AllowStx n)). cbn in Hn. unfold is_u128 in Hn.
    lapply Hn; [lia | apply (elem_of_enumerate _ 0); eauto].
Qed.

Lemma least_None P o : least P o -> o = None <-> forall i, ~ P i.
Proof. destruct o as [i|]; cbn; [| done]. intros [Hi _]. split; [done |]. intros Hn. by destruct (Hn i). Qed.


