(* ===== verification/TypeSyntax.v ===== *)
(** * Types written in the language

    [TypeSignatureExt] of [clarity/src/vm/types/signatures.rs]: how an
    expression is read as a type, and the binding lists of names with types. *)

From S2P Require Import Prelude.
From S2P Require Import BTree.
From S2P Require Import Epochs.
From S2P Require Import Values.
From S2P Require Import Types.
From S2P Require Import C32.
From S2P Require Import Serialization.
From S2P Require Import VmErrors.
From S2P Require Import TypedValues.
From S2P Require Import Expressions.
From S2P Require Import ContractData.
From S2P Require Import Contexts.
From S2P Require Import CostTables.
From S2P Require Import Costs.
From S2P Require Import CostFunctions.

Definition MAX_FUNCTION_PARAMETERS : Z := 256.
Definition MAX_TRAIT_METHODS : Z := 256.

Definition parse_atom_type (typename : string) : result CommonCheckErrorKind TypeSignature :=
  if String.eqb typename "int" then Ok IntType
  else if String.eqb typename "uint" then Ok UIntType
  else if String.eqb typename "bool" then Ok BoolType
  else if String.eqb typename "principal" then Ok PrincipalType
  else Err (CC_UnknownTypeName typename).

(** [?] on a result of the type system *)
Definition common {A} (r : TypeR A) : result CommonCheckErrorKind A := map_err CC_ClarityType r.

Definition invalid_description {A} : result CommonCheckErrorKind A :=
  Err (CC_ClarityType TE_InvalidTypeDescription).

Definition parse_buff_type_repr (type_args : list SymbolicExpression)
    : result CommonCheckErrorKind TypeSignature :=
  match type_args with
  | [LiteralValue (Int buff_len)] =>
      len ← common (BufferLength_try_from buff_len); Ok (SequenceType (BufferType len))
  | _ => invalid_description
  end.

Definition parse_string_utf8_type_repr (type_args : list SymbolicExpression)
    : result CommonCheckErrorKind TypeSignature :=
  match type_args with
  | [LiteralValue (Int utf8_len)] =>
      len ← common (StringUTF8Length_try_from utf8_len);
      Ok (SequenceType (StringType (UTF8 len)))
  | _ => invalid_description
  end.

Definition parse_string_ascii_type_repr (type_args : list SymbolicExpression)
    : result CommonCheckErrorKind TypeSignature :=
  match type_args with
  | [LiteralValue (Int buff_len)] =>
      len ← common (BufferLength_try_from buff_len);
      Ok (SequenceType (StringType (ASCII len)))
  | _ => invalid_description
  end.

(** The first step of [parse_name_type_pairs]: every entry is a pair. *)
Fixpoint check_pairs (binding_error_type : SyntaxBindingErrorType) (i : Z)
    (name_type_pairs : list SymbolicExpression) : result CommonCheckErrorKind unit :=
  match name_type_pairs with
  | [] => Ok tt
  | ExprList [_; _] :: rest => check_pairs binding_error_type (i + 1) rest
  | ExprList _ :: _ => Err (CC_BadSyntaxBinding (InvalidBindingLength binding_error_type i))
  | _ :: _ => Err (CC_BadSyntaxBinding (NotList binding_error_type i))
  end.

Section Parse.
Context {T : Type} `{CostTracker T} `{CostFunctions T}.

Abbreviation PM := (M T CommonCheckErrorKind).

Section Pairs.
Context (parse : SymbolicExpression -> PM TypeSignature).

(** The second step: the names, and the types in order. [check_pairs] leaves no
    other shape. *)
Fixpoint parse_pairs (binding_error_type : SyntaxBindingErrorType) (i : Z)
    (name_type_pairs : list SymbolicExpression) : PM (list (ClarityName * TypeSignature)) :=
  match name_type_pairs with
  | [] => mret []
  | ExprList [name_symbol; type_symbol] :: rest =>
      name ← lift (ok_or (match_atom name_symbol)
                     (CC_BadSyntaxBinding (NotAtom binding_error_type i)));
      type_info ← parse type_symbol;
      key_types ← parse_pairs binding_error_type (i + 1) rest;
      mret ((name, type_info) :: key_types)
  | _ => panic
  end.

Definition parse_name_type_pairs_with (binding_error_type : SyntaxBindingErrorType)
    (name_type_pairs : list SymbolicExpression) : PM (list (ClarityName * TypeSignature)) :=
  lift (check_pairs binding_error_type 0 name_type_pairs);;
  parse_pairs binding_error_type 0 name_type_pairs.

Definition parse_list_type_repr (type_args : list SymbolicExpression) : PM TypeSignature :=
  match type_args with
  | [LiteralValue (Int max_len); atomic_type_arg] =>
      entry_type ← parse atomic_type_arg;
      max_len ← lift (ok_or (checked 0 u32_max max_len) (CC_ClarityType TE_ValueTooLarge));
      lift (common (list_of entry_type max_len))
  | _ => lift invalid_description
  end.

Definition parse_tuple_type_repr (type_args : list SymbolicExpression) : PM TypeSignature :=
  mapped_key_types ← parse_name_type_pairs_with BindTupleCons type_args;
  tuple_type_signature ← lift (common (tuple_try_from_vec mapped_key_types));
  mret (TupleType tuple_type_signature).

Definition parse_optional_type_repr (type_args : list SymbolicExpression) : PM TypeSignature :=
  match type_args with
  | [arg] => inner_type ← parse arg; lift (common (new_option inner_type))
  | _ => lift invalid_description
  end.

Definition parse_response_type_repr (type_args : list SymbolicExpression) : PM TypeSignature :=
  match type_args with
  | [ok_arg; err_arg] =>
      ok_type ← parse ok_arg;
      err_type ← parse err_arg;
      lift (common (new_response ok_type err_type))
  | _ => lift invalid_description
  end.
End Pairs.

Definition trait_of (d : TraitDefinition) : TraitIdentifier :=
  match d with Defined_ trait_id | Imported trait_id => trait_id end.

Fixpoint parse_type_repr (epoch : StacksEpochId) (x : SymbolicExpression) : PM TypeSignature :=
  mmap_err CC_Cost (runtime_cost ClarityCostFunction.TypeParseStep 0);;
  match x with
  | Atom atom_type_str => lift (parse_atom_type atom_type_str)
  | ExprList (Atom compound_type :: rest) =>
      if String.eqb compound_type "list" then parse_list_type_repr (parse_type_repr epoch) rest
      else if String.eqb compound_type "buff" then lift (parse_buff_type_repr rest)
      else if String.eqb compound_type "string-utf8" then lift (parse_string_utf8_type_repr rest)
      else if String.eqb compound_type "string-ascii" then lift (parse_string_ascii_type_repr rest)
      else if String.eqb compound_type "tuple" then parse_tuple_type_repr (parse_type_repr epoch) rest
      else if String.eqb compound_type "optional"
      then parse_optional_type_repr (parse_type_repr epoch) rest
      else if String.eqb compound_type "response"
      then parse_response_type_repr (parse_type_repr epoch) rest
      else lift invalid_description
  | TraitReference _ trait_definition =>
      mret (if epoch_ltb epoch Epoch21 then TraitReferenceType (trait_of trait_definition)
            else CallableType (CallableTrait (trait_of trait_definition)))
  | _ => lift invalid_description
  end.

Definition parse_name_type_pairs (epoch : StacksEpochId)
    (binding_error_type : SyntaxBindingErrorType) (name_type_pairs : list SymbolicExpression)
    : PM (list (ClarityName * TypeSignature)) :=
  parse_name_type_pairs_with (parse_type_repr epoch) binding_error_type name_type_pairs.

(** ** Traits *)

Fixpoint parse_types (epoch : StacksEpochId) (l : list SymbolicExpression) : PM (list TypeSignature) :=
  match l with
  | [] => mret []
  | x :: l =>
      t ← parse_type_repr epoch x;
      ts ← parse_types epoch l;
      mret (t :: ts)
  end.

(** Whatever is wrong with the return type is reported as a bad signature. *)
Definition parse_trait_return (epoch : StacksEpochId) (x : SymbolicExpression) : PM TypeSignature :=
  fun s =>
    match parse_type_repr epoch x s with
    | (Ok (ResponseType a b), s') => (Ok (ResponseType a b), s')
    | (Ok _, s') | (Err _, s') => (Err CC_DefineTraitBadSignature, s')
    | (Panic, s') => (Panic, s')
    end.

Definition parse_trait_method (epoch : StacksEpochId) (function_type : SymbolicExpression)
    : PM (ClarityName * FunctionSignature) :=
  args ← lift (ok_or (match_list function_type) CC_DefineTraitBadSignature);
  match args with
  | [name_expr; args_expr; return_expr] =>
      fn_name ← lift (ok_or (match_atom name_expr) CC_DefineTraitBadSignature);
      fn_args_exprs ← lift (ok_or (match_list args_expr) CC_DefineTraitBadSignature);
      ensure (negb (limits_parameter_and_method_count epoch
                    && (MAX_FUNCTION_PARAMETERS <? zlen fn_args_exprs)))
        (CC_TooManyFunctionParameters (zlen fn_args_exprs) MAX_FUNCTION_PARAMETERS);;
      fn_args ← parse_types epoch fn_args_exprs;
      fn_return ← parse_trait_return epoch return_expr;
      mret (fn_name, mkFunctionSignature fn_args fn_return)
  | _ => lift invalid_description
  end.

Fixpoint parse_trait_methods (epoch : StacksEpochId) (clarity_version : ClarityVersion)
    (trait_signature : TraitSignatures) (functions_types : list SymbolicExpression)
    : PM TraitSignatures :=
  match functions_types with
  | [] => mret trait_signature
  | function_type :: rest =>
      '(fn_name, signature) ← parse_trait_method epoch function_type;
      if bool_decide (is_Some (assoc fn_name trait_signature)) && version_leb Clarity2 clarity_version
      then throw (CC_DefineTraitDuplicateMethod fn_name)
      else parse_trait_methods epoch clarity_version (map_insert fn_name signature trait_signature) rest
  end.

Definition parse_trait_type_repr (type_args : list SymbolicExpression) (epoch : StacksEpochId)
    (clarity_version : ClarityVersion) : PM TraitSignatures :=
  arg ← lift (ok_or (head type_args) (CC_ClarityType TE_InvalidTypeDescription));
  functions_types ← lift (ok_or (match_list arg) CC_DefineTraitBadSignature);
  ensure (negb (limits_parameter_and_method_count epoch
                && (MAX_TRAIT_METHODS <? zlen functions_types)))
    (CC_TraitTooManyMethods (zlen functions_types) MAX_TRAIT_METHODS);;
  parse_trait_methods epoch clarity_version [] functions_types.
End Parse.

(** ** Induction on expressions *)

Section ExprInduction.
Context (P : SymbolicExpression -> Prop).
Context (P_AtomValue : forall v, P (AtomValue v)) (P_Atom : forall n, P (Atom n)).
Context (P_List : forall l, Forall P l -> P (ExprList l)).
Context (P_Literal : forall v, P (LiteralValue v)) (P_Field : forall t, P (Field t)).
Context (P_Trait : forall n t, P (TraitReference n t)).

Fixpoint expr_induction (x : SymbolicExpression) : P x :=
  match x with
  | AtomValue v => P_AtomValue v
  | Atom n => P_Atom n
  | ExprList l =>
      P_List l
        ((fix go l : Forall P l :=
            match l with
            | [] => Forall_nil_2 P
            | x :: l => Forall_cons_2 P x l (expr_induction x) (go l)
            end) l)
  | LiteralValue v => P_Literal v
  | Field t => P_Field t
  | TraitReference n t => P_Trait n t
  end.
End ExprInduction.

(** ** Which types can be written *)

(** The types without a place for a type that is not known, and with traits as
    the epoch has them *)
Fixpoint declarable (epoch : StacksEpochId) (t : TypeSignature) : bool :=
  match t with
  | IntType | UIntType | BoolType | PrincipalType => true
  | SequenceType (BufferType _) | SequenceType (StringType _) => true
  | SequenceType (ListType (mkListTypeData _ e _)) => declarable epoch e
  | TupleType (mkTupleType m _) => forallb (fun f => declarable epoch f.2) m
  | OptionalType t => declarable epoch t
  | ResponseType t s => declarable epoch t && declarable epoch s
  | TraitReferenceType _ => epoch_ltb epoch Epoch21
  | CallableType (CallableTrait _) => negb (epoch_ltb epoch Epoch21)
  | NoType | CallableType (CallablePrincipal _) | ListUnionType _ => false
  end.

(** An expression for a type *)
Fixpoint type_repr (t : TypeSignature) : SymbolicExpression :=
  let compound name args := ExprList (Atom name :: args) in
  let len n := LiteralValue (Int n) in
  match t with
  | IntType => Atom "int"
  | UIntType => Atom "uint"
  | BoolType => Atom "bool"
  | PrincipalType => Atom "principal"
  | SequenceType (BufferType n) => compound "buff" [len n]
  | SequenceType (StringType (ASCII n)) => compound "string-ascii" [len n]
  | SequenceType (StringType (UTF8 n)) => compound "string-utf8" [len n]
  | SequenceType (ListType (mkListTypeData n e _)) => compound "list" [len n; type_repr e]
  | TupleType (mkTupleType m _) =>
      compound "tuple" ((fun f => ExprList [Atom f.1; type_repr f.2]) <$> m)
  | OptionalType t => compound "optional" [type_repr t]
  | ResponseType t s => compound "response" [type_repr t; type_repr s]
  | TraitReferenceType t | CallableType (CallableTrait t) => TraitReference (trait_name t) (Defined_ t)
  | NoType | CallableType (CallablePrincipal _) | ListUnionType _ => ExprList []
  end.

Section Sound.
Context {T : Type} `{CostTracker T} `{CostFunctions T} (epoch : StacksEpochId).

Definition readable_type (t : TypeSignature) : Prop :=
  valid_type t = true /\ declarable epoch t = true.

Definition reads_valid (x : SymbolicExpression) : Prop :=
  forall (s s' : T) t, parse_type_repr epoch x s = (Ok t, s') -> readable_type t.

Lemma common_Ok {A} (r : TypeR A) a : common r = Ok a <-> r = Ok a.
Proof. apply map_err_Ok. Qed.

Lemma in_length lo hi n : lo <= n -> n <= hi -> in_range lo hi n = true.
Proof. intros. by apply in_range_spec. Qed.

Lemma buffer_length_Ok n m : BufferLength_try_from n = Ok m -> in_range 0 MAX_VALUE_SIZE m = true.
Proof.
  unfold BufferLength_try_from. destruct (Z.gtb_spec n MAX_VALUE_SIZE); [done |].
  destruct (Z.ltb_spec n 0); [done |]. intros [= <-]. by apply in_length.
Qed.

Lemma utf8_length_Ok n m :
  StringUTF8Length_try_from n = Ok m -> in_range 0 MAX_UTF8_VALUE_SIZE m = true.
Proof.
  unfold StringUTF8Length_try_from. destruct (Z.gtb_spec n MAX_UTF8_VALUE_SIZE); [done |].
  destruct (Z.ltb_spec n 0); [done |]. intros [= <-]. by apply in_length.
Qed.

(** The flat sequences are read from one literal. *)
Lemma flat_type_valid parse conv (mk : Z -> TypeSignature) rest t :
  (parse = parse_buff_type_repr /\ conv = BufferLength_try_from /\ mk = (fun n => SequenceType (BufferType n)) \/
   parse = parse_string_ascii_type_repr /\ conv = BufferLength_try_from /\
     mk = (fun n => SequenceType (StringType (ASCII n))) \/
   parse = parse_string_utf8_type_repr /\ conv = StringUTF8Length_try_from /\
     mk = (fun n => SequenceType (StringType (UTF8 n)))) ->
  parse rest = Ok t -> readable_type t.
Proof.
  intros Hp Ht.
  destruct rest as [| [| | | [] | |] []]; try by destruct Hp as [(-> & -> & ->) | [(-> & -> & ->) | (-> & -> & ->)]].
  destruct Hp as [(-> & -> & ->) | [(-> & -> & ->) | (-> & -> & ->)]]; cbn in Ht;
    apply result_bind_Ok in Ht as (n & Hn%common_Ok & [= <-]); split; try done; cbn;
    by eauto using buffer_length_Ok, utf8_length_Ok.
Qed.

Lemma pairs_valid ty rest i l (s s' : T) :
  Forall (fun x => forall y z, x = ExprList [y; z] -> reads_valid z) rest ->
  parse_pairs (parse_type_repr epoch) ty i rest s = (Ok l, s') ->
  Forall (fun f => readable_type f.2) l.
Proof.
  intros Hr. revert i l s s'. induction Hr as [| x rest Hx _ IH]; intros i l s s'; cbn.
  { intros [= <- _]. constructor. }
  destruct x as [| | [| name [| ty' [|]]] | | |]; try done.
  intros (n & s1 & _ & (t & s2 & Ht & (l' & s3 & Hl & [= <- _])%M_bind_Ok)%M_bind_Ok)%M_bind_Ok.
  constructor; [exact (Hx _ _ eq_refl _ _ _ Ht) | by eapply IH].
Qed.

Lemma collect_fields_Forall (P : string * TypeSignature -> Prop) type_data m m' :
  Forall P type_data -> Forall P m -> collect_fields m type_data = Ok m' -> Forall P m'.
Proof.
  intros Hd. revert m. induction Hd as [| [n t] d Ht _ IH]; intros m Hm; cbn; [by intros [= <-] |].
  destruct (assoc n m); [done |]. by apply IH, map_insert_Forall.
Qed.

Lemma tuple_valid l t :
  Forall (fun f => readable_type f.2) l -> tuple_try_from_vec l = Ok t -> readable_type (TupleType t).
Proof.
  intros Hl Ht. destruct l as [| f l]; [done |]. unfold tuple_try_from_vec in Ht.
  apply result_bind_Ok in Ht as (m & Hm & Ht).
  assert (Forall (fun f => readable_type f.2) m) as Hr
    by (eapply (collect_fields_Forall _ (f :: l) []); [exact Hl | constructor | exact Hm]).
  destruct (collect_fields_valid (f :: l) [] m) as [Hv Ho]; try done.
  { eapply Forall_impl; [exact Hl |]. by intros ? []. }
  split; [by eapply tuple_try_from_map_valid |].
  pose proof Ht as (_ & _ & size & _ & ->)%tuple_try_from_map_Ok. cbn.
  apply forallb_True_iff_Forall. eapply Forall_impl; [exact Hr |]. by intros ? [].
Qed.

Lemma atom_valid name t : parse_atom_type name = Ok t -> readable_type t.
Proof.
  unfold parse_atom_type.
  repeat match goal with |- context [if ?b then _ else _] => destruct b end; by intros [= <-].
Qed.

Lemma list_valid args (s s' : T) t :
  Forall reads_valid args -> parse_list_type_repr (parse_type_repr epoch) args s = (Ok t, s') ->
  readable_type t.
Proof.
  intros Ha Ht. destruct args as [| [| | | [] | |] [| x [|]]]; try done. cbn in Ht.
  rewrite !Forall_cons in Ha. destruct Ha as (_ & Hx & _).
  apply M_bind_Ok in Ht as (e & s1 & He & (n & s2 & Hn & Hl)%M_bind_Ok).
  apply lift_Ok in Hn as [Hn%ok_or_Ok%checked_Some ->]. apply lift_Ok in Hl as [Hl%common_Ok _].
  apply result_bind_Ok in Hl as (l & Hl & [= <-]). destruct (Hx _ _ _ He) as [Hv Hd].
  split; [eapply new_list_valid; [done | | done]; unfold is_u32; lia |].
  by pose proof Hl as (_ & size & _ & ->)%new_list_Ok.
Qed.

Lemma optional_valid args (s s' : T) t :
  Forall reads_valid args -> parse_optional_type_repr (parse_type_repr epoch) args s = (Ok t, s') ->
  readable_type t.
Proof.
  intros Ha Ht. destruct args as [| x [|]]; try done. cbn in Ht.
  rewrite Forall_singleton in Ha.
  apply M_bind_Ok in Ht as (e & s1 & [Hv Hd]%Ha & [Ho%common_Ok _]%lift_Ok).
  split; [by eapply new_option_valid |]. by pose proof Ho as (-> & _)%new_option_Ok.
Qed.

Lemma response_valid args (s s' : T) t :
  Forall reads_valid args -> parse_response_type_repr (parse_type_repr epoch) args s = (Ok t, s') ->
  readable_type t.
Proof.
  intros Ha Ht. destruct args as [| x [| y [|]]]; try done. cbn in Ht.
  rewrite !Forall_cons in Ha. destruct Ha as (Hx & Hy & _).
  apply M_bind_Ok in Ht as (a & s1 & [Hv Hd]%Hx & (b & s2 & [Hv' Hd']%Hy & [Ho%common_Ok _]%lift_Ok)%M_bind_Ok).
  split; [by apply (new_response_valid a b) |].
  pose proof Ho as (-> & _)%new_response_Ok. cbn. by rewrite Hd, Hd'.
Qed.

Lemma tuple_repr_valid args (s s' : T) t :
  Forall (fun x => forall y z, x = ExprList [y; z] -> reads_valid z) args ->
  parse_tuple_type_repr (parse_type_repr epoch) args s = (Ok t, s') -> readable_type t.
Proof.
  intros Ha (l & s1 & (u & s2 & _ & Hl)%M_bind_Ok & (m & s3 & [Hm%common_Ok _]%lift_Ok & [= <- _])%M_bind_Ok)%M_bind_Ok.
  eapply tuple_valid; [by eapply pairs_valid | done].
Qed.

(** A pair inside a list is read through its second component. *)
Definition reads_deep (x : SymbolicExpression) : Prop :=
  reads_valid x /\ forall y z, x = ExprList [y; z] -> reads_valid z.

Lemma compound_valid name rest (s s' : T) t :
  Forall reads_deep rest ->
  parse_type_repr epoch (ExprList (Atom name :: rest)) s = (Ok t, s') -> readable_type t.
Proof.
  intros Hr. assert (Forall reads_valid rest) as Hv by (eapply Forall_impl; [exact Hr | by intros ? []]).
  intros (u & s1 & _ & Ht)%M_bind_Ok.
  repeat match type of Ht with context [if ?b then _ else _] => destruct b end;
    try (apply lift_Ok in Ht as [Ht _]).
  - by eapply list_valid.
  - eapply flat_type_valid; [by left | done].
  - eapply flat_type_valid; [by right; right | done].
  - eapply flat_type_valid; [by right; left | done].
  - eapply tuple_repr_valid; [| done]. eapply Forall_impl; [exact Hr | by intros ? []].
  - by eapply optional_valid.
  - by eapply response_valid.
  - done.
Qed.

Lemma reads_deep_all x : reads_deep x.
Proof.
  induction x as [v | n | l IH | v | t | n t] using expr_induction.
  1, 4, 5 : split; [| done]; intros s s' ty (u & s1 & _ & [? _]%lift_Ok)%M_bind_Ok; done.
  - split; [| done]. intros s s' ty (u & s1 & _ & [Ht _]%lift_Ok)%M_bind_Ok. by eapply atom_valid.
  - split.
    + intros s s' ty Ht. destruct l as [| [| name | | | |] rest];
        try (by apply M_bind_Ok in Ht as (u & s1 & _ & [? _]%lift_Ok)).
      apply Forall_cons in IH as [_ IH]. by eapply compound_valid.
    + intros y z [= ->]. rewrite !Forall_cons in IH. by destruct IH as (_ & [? _] & _).
  - split; [| done]. intros s s' ty (u & s1 & _ & [= <- _])%M_bind_Ok.
    destruct (epoch_ltb epoch Epoch21) eqn:E; split; try done; cbn; by rewrite E.
Qed.
End Sound.

(** ** Every such type is read back *)


Section Complete.
Context (epoch : StacksEpochId).

Definition read_back (t : TypeSignature) : Prop :=
  parse_type_repr (T := unit) epoch (type_repr t) tt = (Ok t, tt).

Lemma buffer_length_run n : in_range 0 MAX_VALUE_SIZE n = true -> BufferLength_try_from n = Ok n.
Proof.
  intros [Hl Hu]%in_range_spec. unfold BufferLength_try_from.
  destruct (Z.gtb_spec n MAX_VALUE_SIZE); [lia |]. by destruct (Z.ltb_spec n 0); [lia |].
Qed.

Lemma utf8_length_run n : in_range 0 MAX_UTF8_VALUE_SIZE n = true -> StringUTF8Length_try_from n = Ok n.
Proof.
  intros [Hl Hu]%in_range_spec. unfold StringUTF8Length_try_from.
  destruct (Z.gtb_spec n MAX_UTF8_VALUE_SIZE); [lia |]. by destruct (Z.ltb_spec n 0); [lia |].
Qed.

Lemma check_pairs_run ty (m : TypeMap) i :
  check_pairs ty i ((fun f => ExprList [Atom f.1; type_repr f.2]) <$> m) = Ok tt.
Proof. revert i. induction m as [| f m IH]; intros i; [done |]. apply IH. Qed.

Lemma parse_pairs_run ty (m : TypeMap) i :
  Forall (fun f => read_back f.2) m ->
  parse_pairs (T := unit) (parse_type_repr epoch) ty i
    ((fun f => ExprList [Atom f.1; type_repr f.2]) <$> m) tt = (Ok m, tt).
Proof.
  intros Hm. revert i. induction Hm as [| [n t] m Ht _ IH]; intros i; [done |].
  cbn [fmap list_fmap parse_pairs fst snd]. cbn [match_atom ok_or].
  rewrite (M_bind_eval _ _ _ n tt) by done. rewrite (M_bind_eval _ _ _ _ _ Ht).
  by rewrite (M_bind_eval _ _ _ _ _ (IH _)).
Qed.

Lemma ordered_before {K} `{TotalOrd K} (l k : list K) x :
  ordered (l ++ x :: k) = true -> Forall (fun y => cmp y x = Lt) l.
Proof.
  induction l as [| y l IH]; intros Ho; constructor; cbn [app] in Ho;
    apply ordered_cons in Ho as [Hb Ho]; [| by apply IH].
  apply Forall_app in Hb as [_ Hb]. by apply Forall_cons in Hb as [Hb _].
Qed.

Lemma assoc_above (m : TypeMap) n : Forall (fun k => cmp k n = Lt) m.*1 -> assoc n m = None.
Proof.
  induction m as [| [k u] m IH]; cbn; [done |]. intros [Hk%cmp_gt Hm]%Forall_cons.
  rewrite cmp_string_eqb, Hk. by apply IH.
Qed.

(** Fields in order are collected as they are. *)
Lemma collect_ordered (m m0 : TypeMap) :
  ordered (m0 ++ m).*1 = true -> collect_fields m0 m = Ok (m0 ++ m).
Proof.
  revert m0. induction m as [| [n t] m IH]; intros m0 Ho; cbn; [by rewrite app_nil_r |].
  rewrite fmap_app in Ho. pose proof (ordered_before _ _ _ Ho) as Hb.
  rewrite assoc_above, map_insert_snoc by done.
  rewrite IH; rewrite <- app_assoc; [done |]. by rewrite fmap_app.
Qed.

Lemma tuple_from_vec_run m size :
  valid_type (TupleType (mkTupleType m size)) = true ->
  tuple_try_from_vec m = Ok (mkTupleType m size).
Proof.
  intros (Hv & Ho & Ht)%valid_tuple. pose proof Ht as (Hm & _)%tuple_try_from_map_Ok.
  unfold tuple_try_from_vec. destruct m as [| f m]; [done |].
  by rewrite collect_ordered.
Qed.

Lemma types_read_back t : valid_type t = true -> declarable epoch t = true -> read_back t.
Proof.
  unfold read_back. induction t using type_induction; intros Hv Hd; try done.
  - cbn in Hv |- *. unfold parse_buff_type_repr. by rewrite buffer_length_run.
  - destruct s as [n | n]; cbn in Hv |- *.
    + unfold parse_string_ascii_type_repr. by rewrite buffer_length_run.
    + unfold parse_string_utf8_type_repr. by rewrite utf8_length_run.
  - pose proof Hv as (He & Hn & Hl)%valid_list.
    change (parse_list_type_repr (T := unit) (parse_type_repr epoch) [LiteralValue (Int n); type_repr t] tt
            = (Ok (SequenceType (ListType (mkListTypeData n t size))), tt)).
    unfold parse_list_type_repr. rewrite (M_bind_eval _ _ _ _ _ (IHt He Hd)).
    rewrite (proj2 (checked_Some 0 u32_max n n)) by (unfold is_u32 in Hn; lia).
    cbn [ok_or]. rewrite (M_bind_eval _ _ _ n tt) by done. unfold list_of. by rewrite Hl.
  - change (parse_tuple_type_repr (T := unit) (parse_type_repr epoch)
              ((fun f => ExprList [Atom f.1; type_repr f.2]) <$> m) tt
            = (Ok (TupleType (mkTupleType m size)), tt)).
    unfold parse_tuple_type_repr, parse_name_type_pairs_with. rewrite check_pairs_run.
    rewrite (M_bind_eval _ _ _ m tt); [by rewrite (tuple_from_vec_run _ size) |].
    rewrite (M_bind_eval _ _ _ tt tt) by done. apply parse_pairs_run.
    pose proof Hv as (Hf & _)%valid_tuple. cbn in Hd. rewrite forallb_True_iff_Forall in Hd.
    rewrite !Forall_forall in *. intros f Hin. by apply H; auto.
  - pose proof Hv as [Ht Ho]%valid_option.
    change (parse_optional_type_repr (T := unit) (parse_type_repr epoch) [type_repr t] tt
            = (Ok (OptionalType t), tt)).
    unfold parse_optional_type_repr. rewrite (M_bind_eval _ _ _ _ _ (IHt Ht Hd)). by rewrite Ho.
  - pose proof Hv as (Ht & Hs & Ho)%valid_response. cbn in Hd. apply andb_true_iff in Hd as [Hd Hd'].
    change (parse_response_type_repr (T := unit) (parse_type_repr epoch) [type_repr t1; type_repr t2] tt
            = (Ok (ResponseType t1 t2), tt)).
    unfold parse_response_type_repr. rewrite (M_bind_eval _ _ _ _ _ (IHt1 Ht Hd)).
    rewrite (M_bind_eval _ _ _ _ _ (IHt2 Hs Hd')). by rewrite Ho.
  - destruct c as [c | c]; [done |]. cbn in Hd |- *. by destruct (epoch_ltb epoch Epoch21).
  - cbn in Hd |- *. by rewrite Hd.
Qed.
End Complete.

(** C40: The types that a contract can declare are exactly the well-formed ones
    that mention no unknown type: whatever expression is read as a type, with
    whatever cost tracker, gives a type that satisfies the invariant of type
    signatures and is declarable in the epoch; and the expression that writes
    down such a type is read back as that type. *)
Theorem type_syntax_sound_complete epoch :
  (forall T `{CostTracker T} `{CostFunctions T} x (s s' : T) t,
     parse_type_repr epoch x s = (Ok t, s') ->
     valid_type t = true /\ declarable epoch t = true) /\
  (forall t, valid_type t = true -> declarable epoch t = true ->
     parse_type_repr (T := unit) epoch (type_repr t) tt = (Ok t, tt)).
Proof.
  split; [| apply types_read_back].
  intros T ? ? x s s' t Ht. by destruct (proj1 (reads_deep_all epoch x) s s' t Ht).
Qed.

Lemma type_syntax_sound_complete_witness :
  parse_type_repr (T := unit) Epoch2_05 (type_repr sample_tuple_type) tt = (Ok sample_tuple_type, tt).
Proof. apply (proj2 (type_syntax_sound_complete Epoch2_05) sample_tuple_type); reflexivity. Defined.
