(* ===== verification/GlobalContext.v ===== *)
(** * Execution contexts of a transaction

    [clarity/src/vm/contexts.rs] ([GlobalContext] and the parts of
    [ExecutionState] that open and close contexts or emit events),
    [clarity/src/vm/events.rs] (the event types) and
    [stx_transfer_consolidated] of [clarity/src/vm/functions/assets.rs].

    A context nests three stacks and the database: asset maps, event batches
    with their running size, and read-only flags. [begin] opens a level on all
    of them, [commit] merges the innermost level into the one below,
    [roll_back] drops it. The vectors are lists whose head is the last element.

    The body of a function or of a closure is an argument, any computation on
    the context; the interpreter supplies it. [Value::size] and the rendering
    of a value's type are arguments too. Evaluation hooks and the resource
    limiter have no field here; the call stack is in ExecutionState. *)

From S2P Require Import Prelude.
From S2P Require Import BoundedString.
From S2P Require Import Epochs.
From S2P Require Import Values.
From S2P Require Import Types.
From S2P Require Import TypedValues.
From S2P Require Import Expressions.
From S2P Require Import Contexts.
From S2P Require Import RollbackStore.
From S2P Require Import NestedStore.
From S2P Require Import C32.
From S2P Require Import STXBalance.
From S2P Require Import Database.
From S2P Require Import STXLedger.
From S2P Require Import AssetMap.
From S2P Require Import Costs.

(** ** Events *)

Record STXTransferEventData := mkSTXTransfer {
  st_sender : PrincipalData; st_recipient : PrincipalData; st_amount : Z; st_memo : list Z }.
Record STXMintEventData := mkSTXMint { sm_recipient : PrincipalData; sm_amount : Z }.
Record STXLockEventData := mkSTXLock {
  sl_locked_amount : Z; sl_unlock_height : Z; sl_locked_address : PrincipalData;
  sl_contract_identifier : QualifiedContractIdentifier }.
Record STXBurnEventData := mkSTXBurn { sb_sender : PrincipalData; sb_amount : Z }.
Record NFTTransferEventData := mkNFTTransfer {
  nt_asset_identifier : AssetIdentifier; nt_sender : PrincipalData;
  nt_recipient : PrincipalData; nt_value : Value }.
Record NFTMintEventData := mkNFTMint {
  nm_asset_identifier : AssetIdentifier; nm_recipient : PrincipalData; nm_value : Value }.
Record NFTBurnEventData := mkNFTBurn {
  nb_asset_identifier : AssetIdentifier; nb_sender : PrincipalData; nb_value : Value }.
Record FTTransferEventData := mkFTTransfer {
  ft_asset_identifier : AssetIdentifier; ft_sender : PrincipalData;
  ft_recipient : PrincipalData; ft_amount : Z }.
Record FTMintEventData := mkFTMint {
  fm_asset_identifier : AssetIdentifier; fm_recipient : PrincipalData; fm_amount : Z }.
Record FTBurnEventData := mkFTBurn {
  fb_asset_identifier : AssetIdentifier; fb_sender : PrincipalData; fb_amount : Z }.
Record SmartContractEventData := mkSmartContractEvent {
  sc_key : QualifiedContractIdentifier * string; sc_value : Value }.

Inductive STXEventType :=
| STXTransferEvent (d : STXTransferEventData)
| STXMintEvent (d : STXMintEventData)
| STXBurnEvent (d : STXBurnEventData)
| STXLockEvent (d : STXLockEventData).

Inductive NFTEventType :=
| NFTTransferEvent (d : NFTTransferEventData)
| NFTMintEvent (d : NFTMintEventData)
| NFTBurnEvent (d : NFTBurnEventData).

Inductive FTEventType :=
| FTTransferEvent (d : FTTransferEventData)
| FTMintEvent (d : FTMintEventData)
| FTBurnEvent (d : FTBurnEventData).

Inductive StacksTransactionEvent :=
| SmartContractEvent (d : SmartContractEventData)
| STXEvent (e : STXEventType)
| NFTEvent (e : NFTEventType)
| FTEvent (e : FTEventType).

(** [EventBatch] has the events as its only field. *)
Abbreviation EventBatch := (list StacksTransactionEvent).

(** ** State *)

Record GlobalContext (S : Type) := mkGlobalContext {
  asset_maps : list AssetMap;
  event_batches : list (EventBatch * Z);
  database : S;
  read_only : list bool;
  cost_track : LimitedCostTracker;
  mainnet : bool;
  epoch_id : StacksEpochId;
  chain_id : Z;
}.
Arguments mkGlobalContext {S} _ _ _ _ _ _ _ _.
Arguments asset_maps {S} _.
Arguments event_batches {S} _.
Arguments database {S} _.
Arguments read_only {S} _.
Arguments cost_track {S} _.
Arguments mainnet {S} _.
Arguments epoch_id {S} _.
Arguments chain_id {S} _.

Definition MAX_EVENTS_BATCH : Z := 50 * 1024 * 1024.

(** [match result { Ok(a) => .., Err(e) => .. }] on the outcome of a call *)
Definition match_result {S E F A B} (m : M S E A) (on_ok : A -> M S F B) (on_err : E -> M S F B)
    : M S F B := fun s =>
  match m s with
  | (Ok a, s') => on_ok a s'
  | (Err e, s') => on_err e s'
  | (Panic, s') => (Panic, s')
  end.

Section Ops.
Context {S : Type} `{NestedStore S} `{HashMapIter}.
Implicit Types (g : GlobalContext S).

Abbreviation GM := (M (GlobalContext S) VmExecutionError).

Definition set_asset_maps x g : GlobalContext S :=
  mkGlobalContext x (event_batches g) (database g) (read_only g) (cost_track g) (mainnet g)
    (epoch_id g) (chain_id g).
Definition set_event_batches x g : GlobalContext S :=
  mkGlobalContext (asset_maps g) x (database g) (read_only g) (cost_track g) (mainnet g)
    (epoch_id g) (chain_id g).
Definition set_database x g : GlobalContext S :=
  mkGlobalContext (asset_maps g) (event_batches g) x (read_only g) (cost_track g) (mainnet g)
    (epoch_id g) (chain_id g).
Definition set_read_only x g : GlobalContext S :=
  mkGlobalContext (asset_maps g) (event_batches g) (database g) x (cost_track g) (mainnet g)
    (epoch_id g) (chain_id g).
Definition set_cost_track x g : GlobalContext S :=
  mkGlobalContext (asset_maps g) (event_batches g) (database g) (read_only g) x (mainnet g)
    (epoch_id g) (chain_id g).

Definition on_database {A} (m : M S VmExecutionError A) : GM A := zoom database set_database m.

Definition GlobalContext_new (mainnet : bool) (chain_id : Z) (database : S)
    (cost_track : LimitedCostTracker) (epoch_id : StacksEpochId) : GlobalContext S :=
  mkGlobalContext [] [] database [] cost_track mainnet epoch_id chain_id.

Definition is_top_level g : bool := bool_decide (asset_maps g = []).

(** Methods of the asset map that [get_asset_map] borrows *)
Definition on_asset_map {A} (m : M AssetMap VmExecutionError A) : GM A := fun g =>
  match asset_maps g with
  | [] => (Err (Internal (VI_Expect "Failed to obtain asset map")), g)
  | am :: rest => let '(r, am') := m am in (r, set_asset_maps (am' :: rest) g)
  end.

Definition get_readonly_asset_map : GM AssetMap := on_asset_map get.

Definition log_asset_transfer (sender : PrincipalData)
    (contract_identifier : QualifiedContractIdentifier) (asset_name : ClarityName)
    (transferred : Value) : GM unit :=
  let asset_identifier := mkAssetIdentifier contract_identifier asset_name in
  on_asset_map (modify (add_asset_transfer sender asset_identifier transferred)).

Definition log_token_transfer (sender : PrincipalData)
    (contract_identifier : QualifiedContractIdentifier) (asset_name : ClarityName)
    (transferred : Z) : GM unit :=
  let asset_identifier := mkAssetIdentifier contract_identifier asset_name in
  on_asset_map (mmap_err vm_from_asset_map
                  (add_token_transfer sender asset_identifier transferred)).

Definition log_stx_transfer (sender : PrincipalData) (transferred : Z) : GM unit :=
  on_asset_map (mmap_err vm_from_asset_map (add_stx_transfer sender transferred)).

Definition log_stx_burn (sender : PrincipalData) (transferred : Z) : GM unit :=
  on_asset_map (mmap_err vm_from_asset_map (add_stx_burn sender transferred)).

Definition log_stacking (sender : PrincipalData) (amount : Z) : GM unit :=
  g ← get;
  on_asset_map (mmap_err vm_from_asset_map (add_stacking sender amount (epoch_id g))).

Definition log_pox_action (sender : PrincipalData) : GM unit :=
  on_asset_map (modify (add_pox_action sender)).

(** ** Opening and closing contexts *)

Definition is_read_only g : bool := default false (head (read_only g)).

Definition push_frame g : GlobalContext S :=
  let g := set_asset_maps (AssetMap_new :: asset_maps g) g in
  let total_size := default 0 (snd <$> head (event_batches g)) in
  let g := set_event_batches (([], total_size) :: event_batches g) g in
  set_database (ns_begin (database g)) g.

Definition begin_ g : GlobalContext S :=
  let g := push_frame g in
  let ro := is_read_only g in
  set_read_only (ro :: read_only g) g.

Definition begin_read_only g : GlobalContext S :=
  let g := push_frame g in
  set_read_only (true :: read_only g) g.

Definition committed_non_nested : VmExecutionError :=
  Internal (VI_Expect "ERROR: Committed non-nested context.").

(** [self.asset_maps.pop().ok_or_else(..)?] *)
Definition pop_asset_map (e : VmExecutionError) : GM AssetMap := fun g =>
  match asset_maps g with
  | [] => (Err e, g)
  | am :: rest => (Ok am, set_asset_maps rest g)
  end.

Definition pop_event_batch (e : VmExecutionError) : GM (EventBatch * Z) := fun g =>
  match event_batches g with
  | [] => (Err e, g)
  | b :: rest => (Ok b, set_event_batches rest g)
  end.

Definition pop_read_only (e : VmExecutionError) : GM bool := fun g =>
  match read_only g with
  | [] => (Err e, g)
  | ro :: rest => (Ok ro, set_read_only rest g)
  end.

Definition gc_commit : GM (option AssetMap * option EventBatch) :=
  modify (fun g => set_read_only (tail (read_only g)) g);;
  am ← pop_asset_map committed_non_nested;
  '(event_batch, new_total_size) ← pop_event_batch committed_non_nested;
  g ← get;
  out_map ←
    match asset_maps g with
    | tail_back :: rest =>
        match commit_other am (epoch_id g) tail_back with
        | (Ok _, tail_back) => put (set_asset_maps (tail_back :: rest) g);; mret None
        | (Err e, tail_back) =>
            put (set_asset_maps (tail_back :: rest) g);;
            on_database ns_roll_back;;
            throw (vm_from_asset_map e)
        | (Panic, _) => panic
        end
    | [] => mret (Some am)
    end;
  g ← get;
  out_batch ←
    match event_batches g with
    | (tail_back, _) :: rest =>
        put (set_event_batches ((tail_back ++ event_batch, new_total_size) :: rest) g);;
        mret None
    | [] => mret (Some event_batch)
    end;
  on_database ns_commit;;
  mret (out_map, out_batch).

Definition expected_entry : VmExecutionError :=
  Internal (VI_Expect "Expected entry to rollback").

Definition gc_roll_back : GM unit :=
  pop_asset_map expected_entry;;
  pop_read_only expected_entry;;
  pop_event_batch expected_entry;;
  on_database ns_roll_back.

Definition execute {A} (f : GM A) : GM A :=
  modify begin_;;
  result ← match_result f mret (fun e => gc_roll_back;; throw e);
  gc_commit;;
  mret result.

(** [special_cc_handler_execute_read_only]: whatever [f] did is dropped. *)
Definition execute_read_only {E A} (from : VmExecutionError -> E)
    (f : M (GlobalContext S) E A) : M (GlobalContext S) E A :=
  modify begin_;;
  match_result f
    (fun a => mmap_err from gc_roll_back;; mret a)
    (fun e => mmap_err from gc_roll_back;; throw e).

Definition run_as_transaction {E A} (from : VmExecutionError -> E)
    (f : M (GlobalContext S) E A) : M (GlobalContext S) E A :=
  modify begin_;;
  match_result f
    (fun ret => mmap_err from gc_commit;; mret ret)
    (fun e => mmap_err from gc_roll_back;; throw e).

Definition destruct_ g : option (S * LimitedCostTracker) :=
  if is_top_level g then Some (database g, cost_track g) else None.

(** ** Results of functions called as transactions *)

Section Results.
Context (devtools : bool) (type_name : Value -> result VmExecutionError string).

Definition handle_tx_result (res : result VmExecutionError Value) (allow_private : bool)
    : GM Value :=
  match res with
  | Ok (Response committed data) =>
      (if committed then gc_commit;; mret tt else gc_roll_back);;
      mret (Response committed data)
  | Ok v =>
      if allow_private && devtools then gc_commit;; mret v
      else
        gc_roll_back;;
        name ← lift (type_name v);
        throw (RuntimeCheck
                 (RC_Unreachable (bounded_format ("Public function must return response: " +:+ name))))
  | Err e => gc_roll_back;; throw e
  | Panic => panic
  end.

(** [function] is the body of the function called, [is_read_only_function] what
    [DefinedFunction::is_read_only] says of it. *)
Definition execute_function_as_transaction (is_read_only_function : bool) (function : GM Value)
    (allow_private : bool) : GM Value :=
  modify (if is_read_only_function then begin_read_only else begin_);;
  if is_read_only_function then
    match_result function
      (fun v => gc_roll_back;; mret v)
      (fun e => gc_roll_back;; throw e)
  else
    match_result function
      (fun v => handle_tx_result (Ok v) allow_private)
      (fun e => handle_tx_result (Err e) allow_private).
End Results.
End Ops.

(** ** Emitting events *)

Section Events.
Context {S : Type} (value_size : Value -> result VmExecutionError Z).
Implicit Types (g : GlobalContext S).

Abbreviation GM := (M (GlobalContext S) VmExecutionError).

Definition push_to_event_batch (event : StacksTransactionEvent) : GM unit :=
  size ← lift (match event with SmartContractEvent ev => value_size (sc_value ev) | _ => Ok 0 end);
  g ← get;
  match event_batches g with
  | (batch, total_size) :: rest =>
      let total_size := u64_saturating_add total_size size in
      put (set_event_batches ((batch ++ [event], total_size) :: rest) g);;
      if MAX_EVENTS_BATCH <=? total_size
      then throw (Internal (VI_Expect "Event batch grew too large during execution"))
      else mret tt
  | [] => mret tt
  end.

Definition construct_print_transaction_event (contract_id : QualifiedContractIdentifier)
    (value : Value) : StacksTransactionEvent :=
  SmartContractEvent (mkSmartContractEvent (contract_id, "print") value).

Definition register_print_event (invoke_ctx : InvocationContext) (value : Value) : GM unit :=
  push_to_event_batch
    (construct_print_transaction_event (cc_identifier (contract_context invoke_ctx)) value).

Definition register_stx_transfer_event (sender recipient : PrincipalData) (amount : Z)
    (memo : list Z) : GM unit :=
  push_to_event_batch
    (STXEvent (STXTransferEvent (mkSTXTransfer sender recipient amount memo))).

Definition register_stx_burn_event (sender : PrincipalData) (amount : Z) : GM unit :=
  push_to_event_batch (STXEvent (STXBurnEvent (mkSTXBurn sender amount))).

Definition register_nft_transfer_event (sender recipient : PrincipalData) (value : Value)
    (asset_identifier : AssetIdentifier) : GM unit :=
  push_to_event_batch
    (NFTEvent (NFTTransferEvent (mkNFTTransfer asset_identifier sender recipient value))).

Definition register_nft_mint_event (recipient : PrincipalData) (value : Value)
    (asset_identifier : AssetIdentifier) : GM unit :=
  push_to_event_batch (NFTEvent (NFTMintEvent (mkNFTMint asset_identifier recipient value))).

Definition register_nft_burn_event (sender : PrincipalData) (value : Value)
    (asset_identifier : AssetIdentifier) : GM unit :=
  push_to_event_batch (NFTEvent (NFTBurnEvent (mkNFTBurn asset_identifier sender value))).

Definition register_ft_transfer_event (sender recipient : PrincipalData) (amount : Z)
    (asset_identifier : AssetIdentifier) : GM unit :=
  push_to_event_batch
    (FTEvent (FTTransferEvent (mkFTTransfer asset_identifier sender recipient amount))).

Definition register_ft_mint_event (recipient : PrincipalData) (amount : Z)
    (asset_identifier : AssetIdentifier) : GM unit :=
  push_to_event_batch (FTEvent (FTMintEvent (mkFTMint asset_identifier recipient amount))).

Definition register_ft_burn_event (sender : PrincipalData) (amount : Z)
    (asset_identifier : AssetIdentifier) : GM unit :=
  push_to_event_batch (FTEvent (FTBurnEvent (mkFTBurn asset_identifier sender amount))).
End Events.

(** ** STX transfers *)

Definition NOT_ENOUGH_BALANCE : Z := 1.
Definition SENDER_IS_RECIPIENT : Z := 2.
Definition NON_POSITIVE_AMOUNT : Z := 3.
Definition SENDER_IS_NOT_TX_SENDER : Z := 4.


Section Transfer.
Context `{Sha256} {S : Type} `{KVStore S} `{NestedStore S} `{HashMapIter} (env : DbEnv).
Context (value_size : Value -> result VmExecutionError Z).
Implicit Types (g : GlobalContext S).

Abbreviation GM := (M (GlobalContext S) VmExecutionError).

(** [ExecutionState::add_memory] *)
Definition charge_memory (memory : Z) : GM unit :=
  mmap_err vm_from_cost (zoom cost_track set_cost_track (add_memory memory)).

(** The sender's snapshot is open from the check to the end of the transfer. *)
Definition check_and_transfer (from to : PrincipalData) (amount : Z)
    : M S VmExecutionError bool :=
  with_snapshot env from
    (ok ← can_transfer env amount;
     if ok : bool then transfer_to env to amount;; mret true else mret false).

Definition stx_transfer_consolidated (invoke_ctx : InvocationContext) (from to : PrincipalData)
    (amount : Z) (memo : list Z) : GM Value :=
  if amount =? 0 then mret (err_uint NON_POSITIVE_AMOUNT)
  else if bool_decide (from = to) then mret (err_uint SENDER_IS_RECIPIENT)
  else if bool_decide (Some from <> ic_sender invoke_ctx)
  then mret (err_uint SENDER_IS_NOT_TX_SENDER)
  else
    charge_memory PRINCIPAL_SIZE;;
    charge_memory PRINCIPAL_SIZE;;
    charge_memory (Z.of_nat unlocked_and_v1_size);;
    charge_memory (Z.of_nat unlocked_and_v1_size);;
    done ← on_database (check_and_transfer from to amount);
    if done : bool then
      log_stx_transfer from amount;;
      register_stx_transfer_event value_size from to amount memo;;
      mret okay_true
    else mret (err_uint NOT_ENOUGH_BALANCE).

Definition stx_transfer (invoke_ctx : InvocationContext) (from to : PrincipalData)
    (amount : Z) (memo : list Z) : GM Value :=
  modify begin_;;
  match_result (stx_transfer_consolidated invoke_ctx from to amount memo)
    (fun value =>
       match value with
       | Response true _ => gc_commit;; mret value
       | Response false _ => gc_roll_back;; throw (Internal VI_InsufficientBalance)
       | _ => throw (Internal (VI_Expect "Expected result"))
       end)
    (fun e => gc_roll_back;; throw e).
End Transfer.

(** ** Contexts opened on one another *)

Section Frames.
Context {S : Type} `{StoreFrames S} `{HashMapIter}.
Implicit Types (g : GlobalContext S).

(** What a transaction cannot change *)
Definition same_chain g g' : Prop :=
  mainnet g' = mainnet g /\ epoch_id g' = epoch_id g /\ chain_id g' = chain_id g.

(** [g'] has one context more than [g]. *)
Record opened_on g g' (am : AssetMap) (batch : EventBatch * Z) (ro : bool) : Prop := {
  oo_maps : asset_maps g' = am :: asset_maps g;
  oo_events : event_batches g' = batch :: event_batches g;
  oo_ro : read_only g' = ro :: read_only g;
  oo_chain : same_chain g g';
}.

(** From [g] to [g'], only the innermost context and the costs changed. *)
Record innermost g g' : Prop := {
  in_db : kept (database g) (database g');
  in_maps am ams : asset_maps g = am :: ams -> exists am', asset_maps g' = am' :: ams;
  in_top : asset_maps g = [] -> asset_maps g' = [];
  in_events b bs : event_batches g = b :: bs -> exists b', event_batches g' = b' :: bs;
  in_events_top : event_batches g = [] -> event_batches g' = [];
  in_ro : read_only g' = read_only g;
  in_chain : same_chain g g';
}.

(** A computation is confined when, unless it panics, it works on the innermost
    context only. *)
Definition confined {E A} (m : M (GlobalContext S) E A) : Prop :=
  forall g, (m g).1 <> Panic -> innermost g (m g).2.

Lemma innermost_refl g : innermost g g.
Proof. split; eauto using kept_refl. done. Qed.

Lemma innermost_trans g1 g2 g3 : innermost g1 g2 -> innermost g2 g3 -> innermost g1 g3.
Proof.
  intros [D1 M1 T1 B1 U1 R1 (? & ? & ?)] [D2 M2 T2 B2 U2 R2 (? & ? & ?)].
  split; [by eapply kept_trans | | auto | | auto | congruence | split_and!; congruence].
  - intros am ams (am' & ?)%M1. eauto.
  - intros b bs (b' & ?)%B1. eauto.
Qed.

Lemma confined_bind {E A B} (m : M (GlobalContext S) E A) (k : A -> M (GlobalContext S) E B) :
  confined m -> (forall a, confined (k a)) -> confined (x ← m; k x).
Proof.
  intros Hm Hk g. specialize (Hm g). unfold mbind, M_bind.
  destruct (m g) as [[a | e |] g']; [intros Hp | by intros; apply Hm | done].
  eapply innermost_trans; [by apply Hm | by apply Hk].
Qed.

Lemma confined_match {E F A B} (m : M (GlobalContext S) E A) (k : A -> M (GlobalContext S) F B) h :
  confined m -> (forall a, confined (k a)) -> (forall e, confined (h e)) ->
  confined (match_result m k h).
Proof.
  intros Hm Hk Hh g. specialize (Hm g). unfold match_result.
  destruct (m g) as [[a | e |] g']; [| | done]; intros Hp.
  - eapply innermost_trans; [by apply Hm | by apply Hk].
  - eapply innermost_trans; [by apply Hm | by apply Hh].
Qed.

Lemma confined_pure {E A} (f : GlobalContext S -> result E A) : confined (fun g => (f g, g)).
Proof. intros g _. apply innermost_refl. Qed.

Lemma confined_mmap_err {E F A} (f : E -> F) (m : M (GlobalContext S) E A) :
  confined m -> confined (mmap_err f m).
Proof.
  intros Hm g. specialize (Hm g). unfold mmap_err.
  destruct (m g) as [[] ?]; cbn in *; intros; by apply Hm.
Qed.

Lemma confined_on_asset_map {A} (m : M AssetMap VmExecutionError A) : confined (on_asset_map m).
Proof.
  intros g _. unfold on_asset_map. destruct (asset_maps g) as [| am ams] eqn:Em.
  - apply innermost_refl.
  - destruct (m am) as [r am']. split; cbn; eauto using kept_refl; try done; rewrite Em; [| done].
    intros ? ? [= <- <-]. eauto.
Qed.

Lemma confined_push_event size ev : confined (push_to_event_batch size ev).
Proof.
  apply confined_bind; [apply confined_pure |]. intros n g _. erewrite M_bind_eval by done.
  destruct (event_batches g) as [| [b t] bs] eqn:Eb; [apply innermost_refl |].
  erewrite M_bind_eval by done.
  assert (innermost g (set_event_batches ((b ++ [ev], u64_saturating_add t n) :: bs) g)) as Hi.
  { split; cbn; eauto using kept_refl; try done; rewrite Eb; [| done]. intros ? ? [= <- <-]. eauto. }
  by destruct (MAX_EVENTS_BATCH <=? _).
Qed.

Lemma confined_costs {E A} (m : M LimitedCostTracker E A) :
  confined (zoom cost_track set_cost_track m).
Proof. intros g _. unfold zoom. destruct (m _). split; cbn; eauto using kept_refl. done. Qed.

(** Work on the database alone is confined when it stays in its context. *)
Lemma confined_on_database {A} (m : M S VmExecutionError A) :
  (forall s, (m s).1 <> Panic -> kept s (m s).2) -> confined (on_database m).
Proof.
  intros Hm g. unfold on_database, zoom. specialize (Hm (database g)).
  destruct (m (database g)) as [r s']. intros Hp. split; cbn in *; eauto. done.
Qed.

(** ** Closing a context *)

(** [g'] is [g] with a context on top, in which anything may have happened. *)
Definition above g g' : Prop :=
  (exists am batch ro, opened_on g g' am batch ro) /\ kept_above (database g) (database g').

Lemma begin_above g : above g (begin_ g).
Proof.
  split; [by eexists _, _, _ | apply kept_begin].
Qed.

Lemma begin_read_only_above g : above g (begin_read_only g).
Proof.
  split; [by eexists _, _, _ | apply kept_begin].
Qed.

Lemma above_innermost g g1 g2 : above g g1 -> innermost g1 g2 -> above g g2.
Proof.
  intros [(am & b & ro & [Om Oe Or (? & ? & ?)]) Hd] [D M1 _ B1 _ R (? & ? & ?)]. split.
  - destruct (M1 _ _ Om) as [am' ?], (B1 _ _ Oe) as [b' ?]. exists am', b', ro.
    split; [done .. | congruence | split_and!; congruence].
  - by eapply kept_above_trans.
Qed.

Lemma roll_back_eval g g' am batch ro :
  opened_on g g' am batch ro ->
  gc_roll_back g' =
  let '(r, s) := ns_roll_back (database g') in
  (r, set_cost_track (cost_track g') (set_database s g)).
Proof.
  destruct g, g'. intros [Om Oe Or (? & ? & ?)]. cbn in *. subst.
  unfold gc_roll_back. do 3 (erewrite M_bind_eval by done).
  unfold on_database, zoom. cbn. by destruct (ns_roll_back _).
Qed.

(** The level [g'] has above [g], merged into [g] *)
Record merged_into g (am : AssetMap) (batch : EventBatch * Z) g' : Prop := {
  mi_maps : match asset_maps g with
            | [] => asset_maps g' = []
            | tail_back :: rest => exists tail_back',
                commit_other am (epoch_id g) tail_back = (Ok tt, tail_back') /\
                asset_maps g' = tail_back' :: rest
            end;
  mi_events : event_batches g' = match event_batches g with
                                 | [] => []
                                 | (events, _) :: rest => (events ++ batch.1, batch.2) :: rest
                                 end;
  mi_ro : read_only g' = read_only g;
  mi_chain : same_chain g g';
}.

Lemma commit_eval g g' am batch ro :
  opened_on g g' am batch ro ->
  (exists g2 out, merged_into g am batch g2 /\ cost_track g2 = cost_track g' /\
     gc_commit g' = let '(r, s) := ns_commit (database g') in
                    (_ ← r; mret out, set_database s g2)) \/
  (exists tail_back rest e, asset_maps g = tail_back :: rest /\
     commit_other am (epoch_id g) tail_back = (Err e, tail_back) /\
     gc_commit g' = let '(r, s) := ns_roll_back (database g') in
                    (_ ← r; Err (vm_from_asset_map e),
                     set_cost_track (cost_track g') (set_database s g))).
Proof.
  destruct g as [maps batches db ros costs mn ep ch], g' as [maps' batches' db' ros' ct mn' ep' ch'].
  intros [Om Oe Or (? & ? & ?)]. cbn in *. subst. destruct batch as [events size].
  unfold gc_commit, on_database, zoom, mbind, M_bind. cbn -[commit_other].
  destruct maps as [| tail_back rest].
  2: destruct (commit_other_outcome am ep tail_back) as [Eok | [e Eerr]].
  - left. destruct batches as [| [tb tn] bs]; cbn;
      eexists (mkGlobalContext _ _ db _ ct mn ep ch), _;
      (split; [by split | split; [done |]]); by destruct (ns_commit db') as [[] ?].
  - left. destruct (commit_other am ep tail_back) as [r tail_back'] eqn:Ec. cbn in Eok. subst r.
    destruct batches as [| [tb tn] bs]; cbn;
      eexists (mkGlobalContext _ _ db _ ct mn ep ch), _;
      (split; [split; cbn; [by eexists | done ..] | split; [done |]]);
      by destruct (ns_commit db') as [[] ?].
  - right. exists tail_back, rest, e. split_and!; [done .. |]. rewrite Eerr. cbn.
    by destruct (ns_roll_back db') as [[] ?].
Qed.

Lemma above_roll_back g g' : above g g' -> innermost g (gc_roll_back g').2.
Proof.
  intros [(am & b & ro & Ho) Hd]. rewrite (roll_back_eval _ _ _ _ _ Ho).
  apply kept_roll_back in Hd. destruct (ns_roll_back (database g')) as [r s].
  split; cbn; eauto. done.
Qed.

Lemma above_commit g g' : above g g' -> innermost g (gc_commit g').2.
Proof.
  intros [(am & [ev n] & ro & Ho) Hd]. destruct (commit_eval _ _ _ _ _ Ho)
    as [(g2 & out & [Mm Me Mr Mc] & _ & ->) | (tb & rest & e & _ & _ & ->)].
  - apply kept_commit in Hd. destruct (ns_commit (database g')) as [r s]. cbn.
    split; cbn; try done.
    + intros am' ams Em. rewrite Em in Mm. destruct Mm as (tb & _ & ->). eauto.
    + intros Em. by rewrite Em in Mm.
    + intros [tb tn] bs Eb. rewrite Me, Eb. eauto.
    + intros Eb. by rewrite Me, Eb.
  - apply kept_roll_back in Hd. destruct (ns_roll_back (database g')) as [r s].
    split; cbn; eauto. done.
Qed.

(** Unless it panics, [m] closes a context that was opened on [g]. *)
Definition closes g {E A} (m : M (GlobalContext S) E A) : Prop :=
  forall g', above g g' -> (m g').1 <> Panic -> innermost g (m g').2.

Lemma closes_roll_back g : closes g gc_roll_back.
Proof. intros g' Ha _. by apply above_roll_back. Qed.

Lemma closes_commit g : closes g gc_commit.
Proof. intros g' Ha _. by apply above_commit. Qed.

Lemma closes_mmap_err g {E F A} (f : E -> F) (m : M (GlobalContext S) E A) :
  closes g m -> closes g (mmap_err f m).
Proof.
  intros Hm g' Ha. specialize (Hm g' Ha). unfold mmap_err.
  destruct (m g') as [[] ?]; cbn in *; intros; by apply Hm.
Qed.

Lemma closes_then g {E A B} (m : M (GlobalContext S) E A) (k : A -> M (GlobalContext S) E B) :
  closes g m -> (forall a, confined (k a)) -> closes g (x ← m; k x).
Proof.
  intros Hm Hk g' Ha. specialize (Hm g' Ha). unfold mbind, M_bind.
  destruct (m g') as [[a | e |] g2]; [intros Hp | by intros; apply Hm | done].
  eapply innermost_trans; [by apply Hm | by apply Hk].
Qed.

(** A confined body, run in a context that is closed afterwards whether it
    succeeds or fails, is confined. *)
Lemma confined_bracket {E F A B} (open : GlobalContext S -> GlobalContext S)
    (f : M (GlobalContext S) E A) (k : A -> M (GlobalContext S) F B) h :
  (forall g, above g (open g)) -> confined f ->
  (forall g a, closes g (k a)) -> (forall g e, closes g (h e)) ->
  confined (_ ← modify open; match_result f k h).
Proof.
  intros Hopen Hf Hk Hh g. erewrite M_bind_eval by done. unfold match_result.
  specialize (Hf (open g)). destruct (f (open g)) as [[a | e |] g1]; cbn in *; [| | done];
    pose proof (above_innermost _ _ _ (Hopen g) (Hf ltac:(done))) as Ha; [by apply Hk | by apply Hh].
Qed.

Lemma closes_throw g {E A B} (m : M (GlobalContext S) E A) (e : E) :
  closes g m -> closes g (_ ← m; throw (A := B) e).
Proof. intros Hm. apply closes_then; [done | intros; apply confined_pure]. Qed.

Lemma closes_ret g {E A B} (m : M (GlobalContext S) E A) (b : B) :
  closes g m -> closes g (_ ← m; mret b).
Proof. intros Hm. apply closes_then; [done | intros; apply confined_pure]. Qed.

Lemma closes_panic g {E A} : closes g (panic (E := E) (A := A)).
Proof. by intros g' _ Hp. Qed.

Lemma closes_handle_tx_result g devtools type_name res allow_private :
  closes g (handle_tx_result devtools type_name res allow_private).
Proof.
  assert (closes g gc_roll_back) as Hrb by apply closes_roll_back.
  assert (closes g gc_commit) as Hc by apply closes_commit.
  unfold handle_tx_result. destruct res as [v | e |]; [| by apply closes_throw | apply closes_panic].
  destruct v; try (destruct (allow_private && devtools); [by apply closes_ret |];
    apply closes_then; [done |]; intros _; apply confined_bind; intros; apply confined_pure).
  destruct committed; apply closes_ret; [by apply closes_ret | done].
Qed.
End Frames.

(** ** All or nothing *)

Section Atomicity.
Context {S : Type} `{NestedStoreLaws S} `{HashMapIter}.
Implicit Types (g : GlobalContext S) (vs : list (gmap string string)).

(** [g'] is [g] again: only costs may differ, and the database reads as [vs]. *)
Record restored vs g g' : Prop := {
  re_db : ns_rep (database g') vs;
  re_maps : asset_maps g' = asset_maps g;
  re_events : event_batches g' = event_batches g;
  re_ro : read_only g' = read_only g;
  re_chain : same_chain g g';
}.

(** [g'] is [g] with everything the level on top of [g] in [gf] recorded. *)
Definition committed_to vs g gf g' : Prop :=
  exists am batch, head (asset_maps gf) = Some am /\ head (event_batches gf) = Some batch /\
    merged_into g am batch g' /\ ns_rep (database g') (kv_view (database gf) :: vs).

Lemma roll_back_restores g gf v vs :
  above g gf -> ns_rep (database g) (v :: vs) ->
  exists g', gc_roll_back gf = (Ok tt, g') /\ restored (v :: vs) g g'.
Proof.
  intros [(am & b & ro & Ho) Hd] (v' & Hv)%Hd. rewrite (roll_back_eval _ _ _ _ _ Ho).
  destruct (ns_roll_back_rep _ _ _ _ Hv) as (s & -> & Hs). by eexists.
Qed.

Lemma commit_outcome g gf v v0 vs :
  above g gf -> ns_rep (database g) (v :: v0 :: vs) ->
  (exists out g', gc_commit gf = (Ok out, g') /\ committed_to (v0 :: vs) g gf g') \/
  (exists e g', gc_commit gf = (Err (vm_from_asset_map e), g') /\
     restored (v :: v0 :: vs) g g').
Proof.
  intros [(am & b & ro & Ho) Hd] (v' & Hv)%Hd.
  destruct (commit_eval _ _ _ _ _ Ho) as [(g2 & out & Hm & _ & ->) | (tb & rest & e & _ & _ & ->)].
  - left. pose proof (ns_commit_nested _ _ _ _ _ Hv) as Hok.
    destruct (ns_commit (database gf)) as [r s] eqn:E. cbn in Hok. subst r.
    eexists out, _. split; [done |]. exists am, b. destruct Ho as [-> -> _ _].
    split_and!; [done .. | destruct Hm; by split |].
    destruct (ns_rep_view _ _ _ _ Hv) as [_ ->]. by eapply ns_commit_rep.
  - right. destruct (ns_roll_back_rep _ _ _ _ Hv) as (s & -> & Hs). by eexists e, _.
Qed.

(** Bodies run in a context opened by [begin_] or [begin_read_only] *)
Lemma body_above {E A} (open : GlobalContext S -> GlobalContext S)
    (f : M (GlobalContext S) E A) g :
  (forall g, above g (open g)) -> confined f -> (f (open g)).1 <> Panic ->
  above g (f (open g)).2.
Proof. intros Ho Hf Hp. eapply above_innermost; [apply Ho | by apply Hf]. Qed.

(** [execute] does what [run_as_transaction] does. *)
Lemma execute_run_as_transaction {A} (f : M (GlobalContext S) VmExecutionError A) g :
  execute f g = run_as_transaction id f g.
Proof.
  unfold execute, run_as_transaction, match_result, mbind, M_bind, mmap_err, map_err, modify.
  destruct (f (begin_ g)) as [[a | e |] gf].
  - cbn -[gc_commit]. by destruct (gc_commit gf) as [[] ?].
  - by destruct (gc_roll_back gf) as [[] ?].
  - done.
Qed.

(** Nesting stays balanced whatever is nested in what. Recording an asset
    movement and emitting an event change the innermost context only, and if a
    body does so, then so does running it through any of the four ways to open
    a context: as a closure, as a closure of the special-case handlers, in
    [execute] or as a Clarity function, whatever its outcome short of a panic.
    So no sequence of nested calls pops or alters a context it did not open. *)
Theorem contexts_stay_balanced :
  (forall sender c n value, confined (log_asset_transfer sender c n value)) /\
  (forall sender c n amount, confined (log_token_transfer sender c n amount)) /\
  (forall sender amount, confined (log_stx_transfer sender amount)) /\
  (forall sender amount, confined (log_stx_burn sender amount)) /\
  (forall sender amount, confined (log_stacking sender amount)) /\
  (forall sender, confined (log_pox_action sender)) /\
  (forall size event, confined (push_to_event_batch size event)) /\
  (forall E A from (f : M (GlobalContext S) E A),
     confined f -> confined (run_as_transaction from f)) /\
  (forall E A from (f : M (GlobalContext S) E A),
     confined f -> confined (execute_read_only from f)) /\
  (forall A (f : M (GlobalContext S) VmExecutionError A), confined f -> confined (execute f)) /\
  (forall devtools type_name ro f allow_private, confined f ->
     confined (execute_function_as_transaction devtools type_name ro f allow_private)).
Proof.
  assert (forall E A from (f : M (GlobalContext S) E A),
     confined f -> confined (run_as_transaction from f)) as Hrun.
  { intros E A from f Hf. apply confined_bracket; [apply begin_above | done | |]; intros.
    - apply closes_ret, closes_mmap_err, closes_commit.
    - apply closes_throw, closes_mmap_err, closes_roll_back. }
  split_and!; try (intros; apply confined_on_asset_map); [| | done | | |].
  - intros. apply confined_bind; [apply confined_pure | intros; apply confined_on_asset_map].
  - apply confined_push_event.
  - intros E A from f Hf. apply confined_bracket; [apply begin_above | done | |]; intros.
    + apply closes_ret, closes_mmap_err, closes_roll_back.
    + apply closes_throw, closes_mmap_err, closes_roll_back.
  - intros A f Hf g. rewrite execute_run_as_transaction. by apply Hrun.
  - intros devtools type_name [] f ap Hf.
    + apply confined_bracket; [apply begin_read_only_above | done | |]; intros.
      * apply closes_ret, closes_roll_back.
      * apply closes_throw, closes_roll_back.
    + apply confined_bracket; [apply begin_above | done | |]; intros;
        apply closes_handle_tx_result.
Qed.

(** C9: A closure run as a transaction is all or nothing, for any closure that
    works on its own context. If it fails, its error is returned and the
    database, the asset maps, the event batches and the read-only flags are
    those from before the call. If it succeeds, its writes, asset movements and
    events all become part of the enclosing context, unless merging the asset
    maps fails, in which case that error is returned and again nothing has
    changed. *)
Theorem run_as_transaction_atomic {E A} (from : VmExecutionError -> E)
    (f : M (GlobalContext S) E A) g v v0 vs :
  confined f -> ns_rep (database g) (v :: v0 :: vs) ->
  let '(rf, gf) := f (begin_ g) in
  let '(r, g') := run_as_transaction from f g in
  match rf with
  | Ok a =>
      (r = Ok a /\ committed_to (v0 :: vs) g gf g') \/
      (exists e, r = Err (from (vm_from_asset_map e)) /\ restored (v :: v0 :: vs) g g')
  | Err e => r = Err e /\ restored (v :: v0 :: vs) g g'
  | Panic => r = Panic
  end.
Proof.
  intros Hf Hr. pose proof (body_above begin_ f g begin_above Hf) as Ha.
  unfold run_as_transaction. erewrite M_bind_eval by done. unfold match_result.
  destruct (f (begin_ g)) as [[a | e |] gf]; cbn in Ha; [| | done].
  - specialize (Ha ltac:(done)). unfold mbind, M_bind, mmap_err.
    destruct (commit_outcome _ _ _ _ _ Ha Hr) as [(out & g' & -> & Hc) | (e & g' & -> & Hc)];
      cbn; [by left | right; by eexists].
  - specialize (Ha ltac:(done)). unfold mbind, M_bind, mmap_err.
    by destruct (roll_back_restores _ _ _ _ Ha Hr) as (g' & -> & Hc).
Qed.

(** The effects of a Clarity function called as a transaction persist only
    if it returns a committed response. A read-only function returns its result
    with no effect at all. A function that is not read-only and returns an
    error response, returns something else than a response, or fails, leaves
    the database, asset maps, event batches and read-only flags as they were; a
    non-response is turned into an error (outside of devtools builds). A
    committed response merges everything into the caller's context, or, when
    the asset maps cannot be merged, returns that error with no effect. *)
Theorem function_effects_follow_response devtools type_name (ro : bool)
    (function : M (GlobalContext S) VmExecutionError Value) allow_private g v v0 vs :
  confined function -> ns_rep (database g) (v :: v0 :: vs) ->
  allow_private && devtools = false ->
  let '(rf, gf) := function ((if ro then begin_read_only else begin_) g) in
  let '(r, g') :=
    execute_function_as_transaction devtools type_name ro function allow_private g in
  match rf with
  | Panic => r = Panic
  | _ =>
      if ro then r = rf /\ restored (v :: v0 :: vs) g g'
      else match rf with
           | Ok (Response true _) =>
               (r = rf /\ committed_to (v0 :: vs) g gf g') \/
               (exists e, r = Err (vm_from_asset_map e) /\ restored (v :: v0 :: vs) g g')
           | Ok (Response false _) => r = rf /\ restored (v :: v0 :: vs) g g'
           | Ok _ => (forall x, r <> Ok x) /\ restored (v :: v0 :: vs) g g'
           | _ => r = rf /\ restored (v :: v0 :: vs) g g'
           end
  end.
Proof.
  intros Hf Hr Hdev. set (open := if ro then begin_read_only else begin_).
  assert (forall g, above g (open g)) as Hopen
    by (destruct ro; [apply begin_read_only_above | apply begin_above]).
  pose proof (body_above open function g Hopen Hf) as Ha.
  unfold execute_function_as_transaction. fold open. erewrite M_bind_eval by done.
  unfold match_result. destruct ro.
  all: destruct (function (open g)) as [[val | e |] gf]; cbn in Ha; [| | done].
  all: specialize (Ha ltac:(done)).
  all: destruct (roll_back_restores _ _ _ _ Ha Hr) as (g' & Erb & Hc).
  1, 2, 4: by unfold handle_tx_result; rewrite (M_bind_eval _ _ _ _ _ Erb).
  unfold handle_tx_result. rewrite Hdev. destruct val; try (rewrite (M_bind_eval _ _ _ _ _ Erb);
    unfold mbind, M_bind, lift; cbn; by destruct (type_name _)).
  destruct committed; [| by rewrite (M_bind_eval _ _ _ _ _ Erb)].
  unfold mbind, M_bind.
  destruct (commit_outcome _ _ _ _ _ Ha Hr) as [(out & g1 & -> & Hm) | (e & g1 & -> & Hm)];
    cbn; [by left | right; by eexists].
Qed.
End Atomicity.

(** ** Transfers *)

Section TransferLemmas.
Context `{Sha256} (env : DbEnv).

Lemma sim_check_and_transfer {S} `{KVStoreLaws S} p q a :
  sim (S := S) views (check_and_transfer env p q a) (check_and_transfer env p q a).
Proof.
  apply sim_with_snapshot, sim_bind; [apply sim_can_transfer |]. intros []; [| apply sim_ret].
  apply sim_bind; [apply sim_transfer_to | intros; apply sim_ret].
Qed.

(** The check decides, and the transfer after it is the ledger's. *)
Lemma check_and_transfer_map p q a m burn v1 v2 v3 v4 b :
  chain_ready env m burn (v1, v2, v3, v4) -> is_u64 burn ->
  account_of m p = Ok b -> wf_balance b ->
  check_and_transfer env p q a m =
  if amount_unlocked (canonical_balance burn v1 v2 v3 v4 b) <? a then (Ok false, m)
  else (_ ← run_ledger_op env (Transfer p q a); mret true) m.
Proof.
  intros Hr Hbu Hb Hwf. unfold check_and_transfer.
  rewrite (with_snapshot_map env m p burn (v1, v2, v3, v4) b) by done.
  assert (snap_ready env (mkSnapshot p b burn m) v1 v2 v3 v4) as Hs by (destruct Hr; done).
  erewrite M_bind_eval.
  2: { unfold can_transfer, get_available_balance.
       erewrite M_bind_eval; [done |]. rewrite (balance_view_res_eval env _ _ _ _ _ _ Hs).
       cbn [snap_burn_block_height snap_balance]. by rewrite available_canonical. }
  rewrite Z.leb_antisym. destruct (_ <? a); [done |]. cbn [negb].
  unfold mbind, M_bind. cbn [run_ledger_op].
  rewrite (with_snapshot_map env m p burn (v1, v2, v3, v4) b) by done.
  by destruct (transfer_to _ _ _ _) as [[] ?].
Qed.
End TransferLemmas.

Section Charging.
Context {S : Type}.
Implicit Types (g : GlobalContext S).

(** Room for [n] more bytes *)
Definition has_memory (t : LimitedCostTracker) (n : Z) : Prop :=
  match t with
  | Free => True
  | Limited d => is_u64 (tracker_memory d) /\ is_u64 (tracker_memory_limit d) /\
                 tracker_memory d + n <= tracker_memory_limit d
  end.

Lemma charge_memory_eval n m g :
  is_u64 n -> 0 <= m -> has_memory (cost_track g) (n + m) ->
  exists t, charge_memory n g = (Ok tt, set_cost_track t g) /\ has_memory t m.
Proof.
  intros Hn Hm Ht. unfold charge_memory, mmap_err, zoom.
  destruct (cost_track g) as [d |]; [| by exists Free]. destruct Ht as (? & ? & ?).
  destruct (data_add_memory_cases n d) as [[? ->] | [? _]]; [done .. | | lia].
  eexists. split; [done |]. cbn. unfold is_u64 in *. lia.
Qed.
End Charging.

(** What a computation does to the view, it does to the store, and the
    enclosing contexts stay as they are. *)
Lemma framed_sim {S} `{NestedStoreLaws S} {A} (m : M S VmExecutionError A) m' s v v0 vs :
  (forall L : KVStoreLaws S, sim (@views S _ L) m m') -> ns_rep s (v :: v0 :: vs) ->
  exists s', m s = ((m' v).1, s') /\ ns_rep s' ((m' v).2 :: v0 :: vs).
Proof.
  intros Hsim Hr. pose proof (ns_rep_view _ _ _ _ Hr) as [_ Hv].
  destruct (Hsim (frame_laws v0 vs) s v) as [E [[v' Hr'] Hv']]; [by split; [exists v |] |].
  destruct (m s) as [r s']. cbn in *. exists s'. split; [congruence |].
  destruct (ns_rep_view _ _ _ _ Hr') as [_ E']. congruence.
Qed.

(** A map that records one transfer *)
Definition stx_sent (p : PrincipalData) (amount : Z) : AssetMap :=
  mkAssetMap {[p := amount]} ∅ ∅ ∅ ∅ ∅.

Lemma commit_stx_sent `{HashMapIter} epoch am p amount :
  asset_map_wf am -> is_u128 amount -> default 0 (stx_map am !! p) + amount <= u128_max ->
  commit_other (stx_sent p amount) epoch am = (Ok tt, merged am (stx_sent p amount)).
Proof.
  intros Hw Ha Hs. assert (asset_map_wf (stx_sent p amount)) as Hw'.
  { split_and!; try apply map_Forall_empty. by apply map_Forall_singleton. }
  destruct (commit_other_cases epoch am (stx_sent p amount) Hw Hw') as [[_ ->] | Hbad]; [done |].
  assert (amounts_fit epoch am (stx_sent p amount)) as Hfit.
  { split_and!; cbn; [| intros ? ? ? ? E; by rewrite lookup_empty in E ..
                       | intros _ ? ? ? ? E; by rewrite lookup_empty in E].
    intros k x y Hk Hy. apply lookup_singleton_Some in Hy as [<- <-]. by rewrite Hk in Hs. }
  destruct Hbad as [[Hb _] | (_ & Hb & _)]; [done |].
  destruct Hb. intros _. apply map_disjoint_empty_r.
Qed.

Section TokenTransfer.
Context `{Sha256} {S : Type} `{NestedStoreLaws S} `{HashMapIter} (env : DbEnv).
Context (value_size : Value -> result VmExecutionError Z) (ic : InvocationContext).
Implicit Types (g : GlobalContext S).

Lemma confined_charge n : confined (S := S) (charge_memory n).
Proof.
  apply confined_mmap_err, confined_costs.
Qed.

Lemma confined_check_and_transfer p q a :
  confined (S := S) (on_database (check_and_transfer env p q a)).
Proof.
  apply confined_on_database. intros s _ v v0 vs Hr.
  destruct (framed_sim (check_and_transfer env p q a) (check_and_transfer env p q a) s v v0 vs)
    as (s' & -> & Hs); [intros; apply sim_check_and_transfer | done |]. eauto.
Qed.

Lemma confined_transfer p q a memo :
  confined (S := S) (stx_transfer_consolidated env value_size ic p q a memo).
Proof.
  unfold stx_transfer_consolidated. repeat case_match; try apply confined_pure.
  do 4 (apply confined_bind; [apply confined_charge | intros _]).
  apply confined_bind; [apply confined_check_and_transfer | intros []]; [| apply confined_pure].
  apply confined_bind; [apply confined_on_asset_map | intros _].
  apply confined_bind; [apply confined_push_event | intros _; apply confined_pure].
Qed.

(** After the guards: the memory is charged and the database asked. *)
Lemma consolidated_eval p q a memo g v v0 vs :
  a <> 0 -> p <> q -> ic_sender ic = Some p -> has_memory (cost_track g) 376 ->
  ns_rep (database g) (v :: v0 :: vs) ->
  exists t s, ns_rep s ((check_and_transfer env p q a v).2 :: v0 :: vs) /\
    stx_transfer_consolidated env value_size ic p q a memo g =
    (done ← lift (check_and_transfer env p q a v).1;
     if done : bool then
       log_stx_transfer p a;;
       register_stx_transfer_event value_size p q a memo;;
       mret okay_true
     else mret (err_uint NOT_ENOUGH_BALANCE)) (set_database s (set_cost_track t g)).
Proof.
  intros Ha Hne Hs Hmem Hr. unfold stx_transfer_consolidated.
  rewrite (proj2 (Z.eqb_neq _ _)), bool_decide_false, bool_decide_false by (try done; naive_solver).
  destruct (charge_memory_eval 148 228 g) as (t1 & E1 & M1); [done .. |].
  destruct (charge_memory_eval 148 80 (set_cost_track t1 g)) as (t2 & E2 & M2); [done .. |].
  destruct (charge_memory_eval 40 40 (set_cost_track t2 g)) as (t3 & E3 & M3); [done .. |].
  destruct (charge_memory_eval 40 0 (set_cost_track t3 g)) as (t4 & E4 & _); [done .. |].
  rewrite (M_bind_eval _ _ _ _ _ E1), (M_bind_eval _ _ _ _ _ E2), (M_bind_eval _ _ _ _ _ E3),
    (M_bind_eval _ _ _ _ _ E4).
  destruct (framed_sim (check_and_transfer env p q a) (check_and_transfer env p q a)
              (database g) v v0 vs) as (s & Es & Hs'); [intros; apply sim_check_and_transfer | done |].
  exists t4, s. split; [done |]. unfold on_database, zoom, mbind, M_bind, lift. cbn [database].
  cbn [set_cost_track database]. rewrite Es. by destruct (check_and_transfer env p q a v) as [[[] | |] ?].
Qed.

(** The level a transfer records *)
Lemma record_transfer p q a memo g ams n bs :
  is_u128 a -> asset_maps g = AssetMap_new :: ams -> event_batches g = ([], n) :: bs ->
  0 <= n < MAX_EVENTS_BATCH ->
  (log_stx_transfer p a;;
   register_stx_transfer_event value_size p q a memo;;
   mret okay_true) g
  = (Ok okay_true,
     set_event_batches
       (([STXEvent (STXTransferEvent (mkSTXTransfer p q a memo))], n) :: bs)
       (set_asset_maps (stx_sent p a :: ams) g)).
Proof.
  intros Ha Em Eb Hn. unfold log_stx_transfer, on_asset_map, mmap_err, mbind, M_bind.
  rewrite Em. unfold add_stx_transfer, mbind, M_bind, get, lift, next_amount, u128_checked_add.
  cbn [stx_map AssetMap_new]. rewrite lookup_empty. cbn [default].
  assert (checked 0 u128_max (0 + a) = Some a) as -> by (apply checked_Some; ints). cbn.
  unfold register_stx_transfer_event, push_to_event_batch, mbind, M_bind, get, lift, put. cbn.
  rewrite Eb. assert (u64_saturating_add n 0 = n) as ->.
  { unfold u64_saturating_add, MAX_EVENTS_BATCH in *. ints. }
  assert ((MAX_EVENTS_BATCH <=? n) = false) as -> by (apply Z.leb_gt; lia). done.
Qed.
End TokenTransfer.

Section TransferOutcome.
Context `{Sha256} {S : Type} `{NestedStoreLaws S} `{HashMapIter} (env : DbEnv).
Context (value_size : Value -> result VmExecutionError Z) (ic : InvocationContext).
Implicit Types (g : GlobalContext S).

Lemma stx_transfer_refused p q a memo g v vs code :
  ns_rep (database g) (v :: vs) ->
  (stx_transfer_consolidated env value_size ic p q a memo (begin_ g)).1 = Ok (err_uint code) ->
  let '(r, g') := stx_transfer env value_size ic p q a memo g in
  r = Err (Internal VI_InsufficientBalance) /\ restored (v :: vs) g g'.
Proof.
  intros Hr Ec. pose proof (body_above begin_ _ g begin_above
    (confined_transfer env value_size ic p q a memo)) as Hab.
  unfold stx_transfer. erewrite M_bind_eval by done. unfold match_result.
  destruct (stx_transfer_consolidated _ _ _ _ _ _ _ _) as [r gf]. cbn in Ec, Hab. subst r.
  destruct (roll_back_restores _ _ _ _ (Hab ltac:(done)) Hr) as (g' & Erb & Hres).
  cbn [err_uint]. by rewrite (M_bind_eval _ _ _ _ _ Erb).
Qed.

Lemma stx_transfer_done p q a memo g v v0 vs m' am0 ams ev0 n0 bs :
  ns_rep (database g) (v :: v0 :: vs) -> a <> 0 -> p <> q -> ic_sender ic = Some p ->
  check_and_transfer env p q a v = (Ok true, m') ->
  asset_maps g = am0 :: ams -> asset_map_wf am0 -> is_u128 a ->
  default 0 (stx_map am0 !! p) + a <= u128_max ->
  event_batches g = (ev0, n0) :: bs -> 0 <= n0 < MAX_EVENTS_BATCH ->
  has_memory (cost_track g) 376 ->
  exists g', stx_transfer env value_size ic p q a memo g = (Ok okay_true, g') /\
    ns_rep (database g') (m' :: v0 :: vs) /\
    asset_maps g' = merged am0 (stx_sent p a) :: ams /\
    event_batches g'
    = (ev0 ++ [STXEvent (STXTransferEvent (mkSTXTransfer p q a memo))], n0) :: bs /\
    read_only g' = read_only g /\ same_chain g g'.
Proof.
  intros Hr Ha Hne Hs Ec Em Hw Hu Hfit Eb Hn Hmem.
  destruct (consolidated_eval env value_size ic p q a memo (begin_ g) v v (v0 :: vs))
    as (t & s & Hsr & E); [done .. | cbn; by apply ns_begin_rep |].
  rewrite Ec in Hsr, E. cbn [fst snd] in Hsr, E. erewrite M_bind_eval in E by done.
  cbv iota in E.
  rewrite (record_transfer value_size p q a memo _ (asset_maps g) n0 (event_batches g)) in E;
    [| done | done | cbn; by rewrite Eb | done].
  unfold stx_transfer. erewrite M_bind_eval by done. unfold match_result. rewrite E.
  cbn [okay_true].
  set (gf := set_event_batches _ _).
  assert (opened_on g gf (stx_sent p a)
    ([STXEvent (STXTransferEvent (mkSTXTransfer p q a memo))], n0) (is_read_only g)) as Ho
    by (split; done).
  destruct (commit_eval _ _ _ _ _ Ho)
    as [(g2 & out & [Mm Me Mro Mc] & _ & Eq) | (tb & rest & e & Etb & Eco & _)].
  - pose proof (ns_commit_nested s m' v v0 vs Hsr) as Hok. change (database gf) with s in Eq.
    destruct (ns_commit s) as [r s'] eqn:Ens. cbn in Hok. subst r.
    rewrite (M_bind_eval _ _ _ _ _ Eq). eexists. split; [done |]. cbn.
    split; [by eapply ns_commit_rep |]. rewrite Em in Mm. rewrite Eb in Me.
    destruct Mm as (tb & Etb & ->). rewrite commit_stx_sent in Etb by done.
    injection Etb as <-. split_and!; try done; apply Mc.
  - rewrite Em in Etb. injection Etb as <- <-. by rewrite commit_stx_sent in Eco.
Qed.
End TransferOutcome.

Section TransferProperty.
Context `{Sha256} {S : Type} `{NestedStoreLaws S} `{HashMapIter} (env : DbEnv).
Context (value_size : Value -> result VmExecutionError Z) (burn v1 v2 v3 v4 : Z).

(** C4: A token transfer transaction pays exactly when it should and has
    exactly the effects of the payment. With room for its memory, its event
    and its asset-map entry, it is accepted exactly when the amount is positive,
    the recipient is not the sender, the sender is the transaction's sender and
    the amount is at most the balance available at the current burn height.
    Then it returns (ok true), the two totals have moved by the amount, every
    other balance is the same, and the enclosing context has one STX entry and
    one event more. Otherwise it fails with InsufficientBalance and database,
    asset maps, events and read-only flags are untouched. *)
Theorem token_transfer_transaction g ic p q a memo v v0 vs am0 ams ev0 n0 bs available :
  ns_rep (database g) (v :: v0 :: vs) ->
  chain_ready env v burn (v1, v2, v3, v4) -> is_u64 burn -> ledger_wf v ->
  wf_principal p -> wf_principal q -> is_u128 a ->
  (p <> q -> total (balance_at v p) + total (balance_at v q) <= u128_max) ->
  get_available_balance_at_burn_block burn v1 v2 v3 v4 (balance_at v p) = Ok available ->
  asset_maps g = am0 :: ams -> asset_map_wf am0 ->
  default 0 (stx_map am0 !! p) + a <= u128_max ->
  event_batches g = (ev0, n0) :: bs -> 0 <= n0 < MAX_EVENTS_BATCH ->
  has_memory (cost_track g) 376 ->
  let accepted := 0 < a /\ p <> q /\ ic_sender ic = Some p /\ a <= available in
  let '(r, g') := stx_transfer env value_size ic p q a memo g in
  (accepted -> r = Ok okay_true /\ exists v',
     ns_rep (database g') (v' :: v0 :: vs) /\ ledger_wf v' /\
     total (balance_at v' p) = total (balance_at v p) - a /\
     total (balance_at v' q) = total (balance_at v q) + a /\
     (forall x, wf_principal x -> x <> p -> x <> q -> balance_at v' x = balance_at v x) /\
     asset_maps g' = merged am0 (stx_sent p a) :: ams /\
     event_batches g'
     = (ev0 ++ [STXEvent (STXTransferEvent (mkSTXTransfer p q a memo))], n0) :: bs /\
     read_only g' = read_only g /\ same_chain g g') /\
  (~ accepted ->
     r = Err (Internal VI_InsufficientBalance) /\ restored (v :: v0 :: vs) g g').
Proof.
  intros Hr Hc Hbu Hl Hp Hq Ha Hsum Hav Em Hw Hfit Eb Hn Hmem accepted.
  destruct (Hl p Hp) as (b & Hb & Hwb).
  assert (balance_at v p = b) as Ebal by (unfold balance_at; by rewrite Hb).
  rewrite Ebal, available_canonical in Hav by done. injection Hav as Hav.
  pose proof (check_and_transfer_map env p q a v burn v1 v2 v3 v4 b Hc Hbu Hb Hwb) as Ect.
  rewrite Hav in Ect.
  destruct (decide (0 < a /\ p <> q /\ ic_sender ic = Some p)) as [(Hpos & Hne & Hs) | Hg].
  - destruct (Z.ltb_spec available a) as [Hlt | Hle].
    + pose proof (stx_transfer_refused env value_size ic p q a memo g v (v0 :: vs)
                    NOT_ENOUGH_BALANCE Hr) as Href.
      destruct (consolidated_eval env value_size ic p q a memo (begin_ g) v v (v0 :: vs))
        as (t & s & _ & E); [lia | done .. | cbn; by apply ns_begin_rep |].
      rewrite Ect in E. rewrite E in Href. specialize (Href eq_refl).
      destruct (stx_transfer _ _ _ _ _ _ _ _). unfold accepted. split; [lia | done].
    + destruct (transfer_ledger env p q a v burn v1 v2 v3 v4)
        as [[Hlt _] | (_ & bp & bq & Etr & Hbp & Hbq & Tp & Tq & _ & _)];
        [done .. | by apply Hsum | rewrite Ebal in Hlt; lia |].
      rewrite (M_bind_eval _ _ _ _ _ Etr) in Ect.
      destruct (stx_transfer_done env value_size ic p q a memo g v v0 vs
                  (<[make_key_for_account_balance p := stx_serialize bp]>
                     (<[make_key_for_account_balance q := stx_serialize bq]> v))
                  am0 ams ev0 n0 bs)
        as (g' & -> & Hr' & Hrest); [lia || done .. |].
      split; [intros _; split; [done |] | unfold accepted; tauto].
      eexists. split; [exact Hr' |].
      rewrite balance_at_write_same, balance_at_write_other, balance_at_write_same by done.
      split; [by repeat apply ledger_wf_write |]. split_and!; try done; try apply Hrest.
      intros x Hx Hxp Hxq. by rewrite !balance_at_write_other.
  - assert (exists code, (stx_transfer_consolidated env value_size ic p q a memo (begin_ g)).1
                         = Ok (err_uint code)) as [code Ecode].
    { unfold stx_transfer_consolidated. destruct (Z.eqb_spec a 0); [by eexists |].
      case_bool_decide; [by eexists |]. case_bool_decide as Hs; [by eexists |].
      destruct Hg. unfold is_u128 in Ha. split_and!; [lia | done | done]. }
    pose proof (stx_transfer_refused env value_size ic p q a memo g v (v0 :: vs) code Hr Ecode).
    destruct (stx_transfer _ _ _ _ _ _ _ _). unfold accepted. split; [tauto | done].
Qed.
End TransferProperty.

(** ** Concrete instances *)

#[local] Existing Instance canonical_iter.
#[local] Existing Instance zero_sha256.

Definition sample_database : RollbackWrapper MemStore :=
  db_begin (RollbackWrapper_new (mkMemStore sample_ledger ∅)).

Lemma sample_database_rep : ns_rep sample_database [sample_ledger; sample_ledger].
Proof. apply wrapper_begin_rep. exists (mkAbsStore (mkMemStore sample_ledger ∅) [] true).
  split; [apply Rel_new | done].
Qed.

Definition sample_context : GlobalContext (RollbackWrapper MemStore) :=
  mkGlobalContext [AssetMap_new] [([], 0)] sample_database [false] (Limited sample_tracker)
    false Epoch33 0.

Abbreviation SampleM := (M (GlobalContext (RollbackWrapper MemStore)) VmExecutionError).

(** Writes, records a transfer, and fails *)
Definition sample_failing : SampleM unit :=
  on_database (kv_put "k" "x");;
  log_stx_transfer sample_sender 5;;
  throw (vm_from_runtime RE_UnwrapFailure).

(** Does the same in a nested call that returns an error response *)
Definition sample_function : SampleM Value :=
  on_database (kv_put "k" "x");;
  log_stx_transfer sample_sender 5;;
  mret (Response false (UInt 1)).

Lemma sample_write_confined : confined (on_database (kv_put (S := RollbackWrapper MemStore) "k" "x")).
Proof.
  apply confined_on_database. intros s _ v v0 vs Hr.
  destruct (kv_put "k" "x" s) as [r s'] eqn:E. eexists. by eapply ns_put_rep.
Qed.

Lemma sample_failing_confined : confined sample_failing.
Proof.
  apply confined_bind; [apply sample_write_confined | intros _].
  apply confined_bind; [apply confined_on_asset_map | intros _; apply confined_pure].
Qed.

Lemma sample_function_confined : confined sample_function.
Proof.
  apply confined_bind; [apply sample_write_confined | intros _].
  apply confined_bind; [apply confined_on_asset_map | intros _; apply confined_pure].
Qed.

Lemma run_as_transaction_atomic_witness :
  restored [sample_ledger; sample_ledger] sample_context
    (run_as_transaction id sample_failing sample_context).2.
Proof.
  pose proof (run_as_transaction_atomic id sample_failing sample_context sample_ledger
                sample_ledger [] sample_failing_confined sample_database_rep) as Hrun.
  assert ((sample_failing (begin_ sample_context)).1 = Err (vm_from_runtime RE_UnwrapFailure))
    as Ef by (vm_compute; reflexivity).
  destruct (sample_failing (begin_ sample_context)) as [rf gf]. cbn in Ef. subst rf.
  destruct (run_as_transaction id sample_failing sample_context). apply Hrun.
Defined.

Lemma function_effects_follow_response_witness :
  let '(r, g') := execute_function_as_transaction false (fun _ => Ok "int") false
                    sample_function true sample_context in
  r = Ok (Response false (UInt 1)) /\
  restored [sample_ledger; sample_ledger] sample_context g'.
Proof.
  pose proof (function_effects_follow_response false (fun _ => Ok "int") false sample_function
                true sample_context sample_ledger sample_ledger [] sample_function_confined
                sample_database_rep eq_refl) as Hrun.
  cbv iota in Hrun.
  assert ((sample_function (begin_ sample_context)).1 = Ok (Response false (UInt 1)))
    as Ef by (vm_compute; reflexivity).
  destruct (sample_function (begin_ sample_context)) as [rf gf]. cbn in Ef. subst rf.
  by destruct (execute_function_as_transaction _ _ _ _ _ _).
Defined.

Definition sample_invocation : InvocationContext :=
  mkInvocation (ContractContext_new sample_contract Clarity3) (Some sample_sender) (Some sample_sender) None.

Lemma token_transfer_transaction_witness :
  let '(r, g') := stx_transfer sample_env (fun _ => Ok 0) sample_invocation sample_sender
                    sample_recipient 120 [] sample_context in
  r = Ok okay_true /\ exists v',
  ns_rep (database g') [v'; sample_ledger] /\
  total (balance_at v' sample_recipient) = total (balance_at sample_ledger sample_recipient) + 120.
Proof.
  pose proof (token_transfer_transaction sample_env (fun _ => Ok 0) 50 100 u32_max u32_max u32_max
    sample_context sample_invocation sample_sender sample_recipient 120 [] sample_ledger
    sample_ledger [] AssetMap_new [] [] 0 [] 150 sample_database_rep sample_chain_ready
    ltac:(vm_compute; intuition discriminate) sample_ledger_wf (proj1 sample_wf)
    (proj2 sample_wf) ltac:(vm_compute; intuition discriminate)
    ltac:(vm_compute; intuition discriminate) ltac:(vm_compute; reflexivity) eq_refl
    ltac:(split_and!; apply map_Forall_empty) ltac:(vm_compute; intuition discriminate) eq_refl
    ltac:(vm_compute; intuition discriminate) ltac:(vm_compute; intuition discriminate)) as Hrun.
  destruct (stx_transfer _ _ _ _ _ _ _ _). destruct Hrun as [Hyes _].
  destruct Hyes as (Hr & v' & Hv & _ & _ & Ht & _).
  { split_and!; [lia | exact sample_distinct | reflexivity | lia]. }
  split; [exact Hr |]. exists v'. split; [exact Hv | exact Ht].
Defined.
