(* ===== verification/Regimes.v ===== *)
(** * Computations that keep a relation

    A regime is a precondition on states and a preorder that preserves it.
    [runs F m m'] says that on the states of the regime [m] and [m'] do the same,
    and that unless they panic the state they leave is related to the one they
    started in. Two copies of a computation that differ in what they call run
    alike when the calls do; with [m] for [m'] it says what [m] cannot change.
    The tactic [runs] follows the structure of the computations and closes the
    leaves with the hints of the database of the same name. *)

From S2P Require Import Prelude.
From S2P Require Import Epochs.
From S2P Require Import Values.
From S2P Require Import Types.
From S2P Require Import TypedValues.
From S2P Require Import Expressions.
From S2P Require Import AssetMap.
From S2P Require Import CostTables.
From S2P Require Import Costs.
From S2P Require Import RollbackStore.
From S2P Require Import NestedStore.
From S2P Require Import GlobalContext.

Record Regime (X : Type) := mkRegime {
  pre : X -> Prop;
  rel : X -> X -> Prop;
  rel_refl x : rel x x;
  rel_trans x y z : rel x y -> rel y z -> rel x z;
  rel_pre x y : rel x y -> pre x -> pre y;
}.
Arguments mkRegime {X} _ _ _ _ _.
Arguments pre {X} _ _.
Arguments rel {X} _ _ _.
Arguments rel_refl {X} _ _.
Arguments rel_trans {X} _ _ _ _ _ _.
Arguments rel_pre {X} _ _ _ _ _.

Definition runs {X} (F : Regime X) {E A} (m m' : M X E A) : Prop :=
  forall x, pre F x -> m x = m' x /\ ((m x).1 <> Panic -> rel F x (m x).2).

Create HintDb runs discriminated.

Section Runs.
Context {X : Type} (F : Regime X).

Lemma runs_bind {E A B} (m m' : M X E A) (k k' : A -> M X E B) :
  runs F m m' -> (forall a, runs F (k a) (k' a)) -> runs F (x ← m; k x) (x ← m'; k' x).
Proof.
  intros Hm Hk x Hx. destruct (Hm x Hx) as [Heq Hr]. unfold mbind, M_bind. rewrite <- Heq.
  destruct (m x) as [[a | e |] y]; cbn in Hr; [| split; [done | by intros; apply Hr] | by split].
  specialize (Hr ltac:(done)). destruct (Hk a y (rel_pre _ _ _ Hr Hx)) as [Heq' Hr'].
  split; [done |]. intros Hp. eapply rel_trans; [done | by apply Hr'].
Qed.

Lemma runs_match {E G A B} (m m' : M X E A) (k k' : A -> M X G B) h h' :
  runs F m m' -> (forall a, runs F (k a) (k' a)) -> (forall e, runs F (h e) (h' e)) ->
  runs F (match_result m k h) (match_result m' k' h').
Proof.
  intros Hm Hk Hh x Hx. destruct (Hm x Hx) as [Heq Hr]. unfold match_result. rewrite <- Heq.
  destruct (m x) as [[a | e |] y]; cbn in Hr; [| | by split]; specialize (Hr ltac:(done)).
  - destruct (Hk a y (rel_pre _ _ _ Hr Hx)) as [Heq' Hr'].
    split; [done |]. intros Hp. eapply rel_trans; [done | by apply Hr'].
  - destruct (Hh e y (rel_pre _ _ _ Hr Hx)) as [Heq' Hr'].
    split; [done |]. intros Hp. eapply rel_trans; [done | by apply Hr'].
Qed.

Lemma runs_read {E A} (f : X -> result E A) : runs F (fun x => (f x, x)) (fun x => (f x, x)).
Proof. intros x _. split; [done |]. intros _. apply rel_refl. Qed.

Lemma runs_ret {E A} (a : A) : runs F (mret (M := M X E) a) (mret a).
Proof. apply (runs_read (fun _ => Ok a)). Qed.
Lemma runs_throw {E A} (e : E) : runs F (throw (A := A) e) (throw e).
Proof. apply (runs_read (fun _ => Err e)). Qed.
Lemma runs_panic {E A} : runs F (panic (E := E) (A := A)) panic.
Proof. apply (runs_read (fun _ => Panic)). Qed.
Lemma runs_lift {E A} (r : result E A) : runs F (lift r) (lift r).
Proof. apply (runs_read (fun _ => r)). Qed.
Lemma runs_get {E} : runs F (get (E := E)) get.
Proof. apply (runs_read (E := E) Ok). Qed.
Lemma runs_ensure {E} b (e : E) : runs F (ensure b e) (ensure b e).
Proof. destruct b; [apply runs_ret | apply runs_throw]. Qed.
Lemma runs_assert {E} b : runs F (assert_true (E := E) b) (assert_true b).
Proof. destruct b; [apply runs_ret | apply runs_panic]. Qed.

Lemma runs_modify {E} f : (forall x, pre F x -> rel F x (f x)) -> runs F (modify (E := E) f) (modify f).
Proof. intros Hf x Hx. split; [done |]. intros _. by apply Hf. Qed.

Lemma runs_mmap_err {E G A} (f : E -> G) (m m' : M X E A) :
  runs F m m' -> runs F (mmap_err f m) (mmap_err f m').
Proof.
  intros Hm x Hx. destruct (Hm x Hx) as [Heq Hr]. unfold mmap_err. rewrite <- Heq.
  destruct (m x) as [[] ?]; cbn in *; split; auto.
Qed.

Lemma runs_ext {E A} (m n m' n' : M X E A) :
  (forall x, m x = n x) -> (forall x, m' x = n' x) -> runs F n n' -> runs F m m'.
Proof. intros Hm Hm' Hn x Hx. rewrite Hm, Hm'. by apply Hn. Qed.

(** Work on a part of the state *)
Lemma runs_zoom {Y} (G : Regime Y) (rd : X -> Y) (wr : Y -> X -> X) {E A} (m m' : M Y E A) :
  (forall x, pre F x -> pre G (rd x)) ->
  (forall x y, pre F x -> rel G (rd x) y -> rel F x (wr y x)) ->
  runs G m m' -> runs F (zoom rd wr m) (zoom rd wr m').
Proof.
  intros Hrd Hwr Hm x Hx. destruct (Hm (rd x) (Hrd x Hx)) as [Heq Hr]. unfold zoom. rewrite <- Heq.
  destruct (m (rd x)) as [r y]. cbn in *. split; auto.
Qed.

(** Loops over elements and bindings *)
Lemma runs_handle_bindings {E} (from : CommonCheckErrorKind -> E) ty
    (h h' : ClarityName -> SymbolicExpression -> M X E unit) bindings :
  (forall n e, runs F (h n e) (h' n e)) ->
  runs F (handle_binding_list from ty h bindings) (handle_binding_list from ty h' bindings).
Proof.
  intros Hh. unfold handle_binding_list. generalize 0. induction bindings as [| b rest IH]; intros i.
  - apply runs_ret.
  - apply runs_bind; [apply runs_lift |]. intros [| name [| e [| ? ?]]]; try apply runs_throw.
    apply runs_bind; [apply runs_lift |]. intros n. apply runs_bind; [done |]. intros _. apply IH.
Qed.

Lemma runs_try_retain {E} (p p' : Value -> M X E bool) s :
  (forall v, runs F (p v) (p' v)) -> runs F (try_retain p s) (try_retain p' s).
Proof.
  intros Hp.
  assert (forall A (to_value : A -> TypeR Value) data,
    runs F (retain_inner to_value p data) (retain_inner to_value p' data)) as Hr.
  { intros A to_value data. apply runs_bind; [| intros; apply runs_ret].
    generalize 0%nat at 1 3. generalize 0%nat. generalize data at 2 4. generalize (length data).
    intros n. induction n as [| n IH]; intros; [apply runs_ret |].
    do 2 (apply runs_bind; [apply runs_lift | intros]).
    apply runs_bind; [by apply runs_mmap_err |]. intros []; apply IH. }
  destruct s as [| | []]; (apply runs_bind; [apply Hr | intros; apply runs_ret]).
Qed.
End Runs.

Lemma runs_weaken {X} (F G : Regime X) {E A} (m m' : M X E A) :
  (forall x, pre G x -> pre F x) -> (forall x y, rel F x y -> rel G x y) ->
  runs F m m' -> runs G m m'.
Proof. intros Hp Hr Hm x Hx. destruct (Hm x (Hp x Hx)). split; auto. Qed.

#[export] Hint Resolve runs_ret runs_throw runs_panic runs_lift runs_get runs_ensure runs_assert
  runs_mmap_err : runs.

Ltac term_head t := lazymatch t with ?f _ => term_head f | _ => t end.

(** One step into the computations *)
Ltac runs_step :=
  lazymatch goal with
  | |- forall _, _ => intro
  | |- runs _ (mbind _ _) _ => apply runs_bind
  | |- runs _ (match_result _ _ _) _ => apply runs_match
  | |- runs _ (mmap_err _ _) _ => apply runs_mmap_err
  | |- runs _ (handle_binding_list _ _ _ _) _ => apply runs_handle_bindings
  | |- runs _ (try_retain _ _) _ => apply runs_try_retain
  | |- runs _ (let _ := _ in _) _ => cbv zeta
  | |- runs _ (match ?x with _ => _ end) _ => destruct x
  end.

Ltac runs_unfold :=
  lazymatch goal with
  | |- runs _ ?m _ => let h := term_head m in progress (unfold h; cbv beta)
  end.

(** Steps that later files add *)
Ltac runs_hook := fail.

Ltac runs := repeat first [solve [eauto 4 with runs nocore] | runs_hook | runs_step | runs_unfold].

(** ** The database and the contexts *)

Section Contexts.
Context {S : Type} `{StoreFrames S}.

Definition store_regime : Regime S.
Proof.
  refine (mkRegime (fun _ => True) kept _ _ _); [apply kept_refl | apply kept_trans | done].
Defined.

Context `{HashMapIter}.

Definition context_regime : Regime (GlobalContext S).
Proof.
  refine (mkRegime (fun _ => True) innermost _ _ _); [apply innermost_refl | apply innermost_trans | done].
Defined.

(** In an epoch *)
Definition epoch_regime (e : StacksEpochId) : Regime (GlobalContext S).
Proof.
  refine (mkRegime (fun g => epoch_id g = e) innermost _ _ _).
  - apply innermost_refl.
  - apply innermost_trans.
  - intros g g' Hi He. destruct (in_chain _ _ Hi) as (_ & ? & _). congruence.
Defined.

(** [m] is confined in the contexts of an epoch. *)
Definition confined_at (e : StacksEpochId) {E A} (m : M (GlobalContext S) E A) : Prop :=
  runs (epoch_regime e) m m.

Lemma confined_at_all e {E A} (m : M (GlobalContext S) E A) : confined m -> confined_at e m.
Proof. intros Hm g _. split; [done | apply Hm]. Qed.

Lemma confined_runs {E A} (m : M (GlobalContext S) E A) : confined m <-> runs context_regime m m.
Proof.
  split; [intros Hm g _; split; [done | apply Hm] | intros Hm g; by apply Hm].
Qed.

Lemma runs_on_database {A} (m : M S VmExecutionError A) :
  runs store_regime m m -> runs context_regime (on_database m) (on_database m).
Proof. intros Hm. apply confined_runs, confined_on_database. intros s. by apply Hm. Qed.

Lemma runs_on_asset_map {A} (m : M AssetMap VmExecutionError A) :
  runs context_regime (on_asset_map m) (on_asset_map m).
Proof. apply confined_runs, confined_on_asset_map. Qed.

Lemma runs_push_event size ev :
  runs context_regime (push_to_event_batch size ev) (push_to_event_batch size ev).
Proof. apply confined_runs, confined_push_event. Qed.

Lemma runs_context_costs {E A} (m : M LimitedCostTracker E A) :
  runs context_regime (zoom cost_track set_cost_track m) (zoom cost_track set_cost_track m).
Proof. apply confined_runs, confined_costs. Qed.
End Contexts.
#[export] Hint Resolve runs_on_asset_map runs_push_event runs_context_costs : runs.
