(* ===== verification/ExecutionState.v ===== *)
(** * The state of an execution

    [ExecutionState] of [clarity/src/vm/contexts.rs], with the cost tracker it
    implements, and the parts of [clarity/src/vm/mod.rs], [callables.rs] and
    [variables.rs] that read it: references to values and what copying them
    costs, the lookup of variables and of functions.

    Evaluation hooks only observe an execution and the resource limiter polls
    clocks and allocators of the host: neither has a counterpart here. *)

From Stdlib Require Import Ascii.
From S2P Require Import Prelude.
From S2P Require Import BoundedString.
From S2P Require Import Epochs.
From S2P Require Import Values.
From S2P Require Import Types.
From S2P Require Import RollbackStore.
From S2P Require Import NestedStore.
From S2P Require Import C32.
From S2P Require Import Database.
From S2P Require Import AssetMap.
From S2P Require Import Serialization.
From S2P Require Import VmErrors.
From S2P Require Import TypedValues.
From S2P Require Import Expressions.
From S2P Require Import ContractData.
From S2P Require Import Contexts.
From S2P Require Import Arithmetic.
From S2P Require Import CostTables.
From S2P Require Import Costs.
From S2P Require Import Contracts.
From S2P Require Import BlockInfo.
From S2P Require Import CryptoNatives.
From S2P Require Import CostFunctions.
From S2P Require Import Allowances.
From S2P Require Import GlobalContext.

(** ** What the virtual machine runs on *)

(** Code of other crates, and the node that the machine runs in *)
Class VmLibraries := {
  lib_sha256 :: Sha256;
  lib_sha512_256 :: Sha512Trunc256;
  lib_debug :: DebugText;
  lib_hash_map :: HashMapIter;
  lib_sqrt :: IntegerSquareRoot;
  lib_crypto :: Crypto;
  lib_headers :: HeadersDb;
  lib_cost_contracts :: CostContracts;
  lib_layout :: AllowanceLayout;
  lib_json_u128 :: SerdeJson u128;
  lib_json_u64 :: SerdeJson u64;
  lib_json_principal :: SerdeJson PrincipalData;
  lib_json_ft :: SerdeJson FungibleTokenMetadata;
  lib_json_nft :: SerdeJson NonFungibleTokenMetadata;
  lib_json_map :: SerdeJson DataMapMetadata;
  lib_json_var :: SerdeJson DataVariableMetadata;
  lib_json_contract :: SerdeJson ContractContext;
}.

(** [ClarityBackingStore::get_cc_special_cases_handler]: what the node does after
    a call of one of its own contracts returns, given the sender, the sponsor, the
    contract and the function called, the arguments and the value returned. *)
Class SpecialCaseHandlers (S : Type) :=
  get_cc_special_cases_handler : QualifiedContractIdentifier ->
    option (option PrincipalData -> option PrincipalData -> QualifiedContractIdentifier -> string ->
            list Value -> Value -> M (GlobalContext S) VmExecutionError unit).

(** The database *)
Class VmStore (S : Type) := {
  vm_kv :: KVStore S;
  vm_nested :: NestedStore S;
  vm_contracts :: ContractStore S;
  vm_chain :: ChainStore S;
  vm_special_cases :: SpecialCaseHandlers S;
}.

(** The node's database, and what it does after calls of its own contracts *)
Definition node_store (B : Type) `{ClarityBackingStore B} `{ChainBacking B}
    (handlers : SpecialCaseHandlers (RollbackWrapper B)) : VmStore (RollbackWrapper B) := {|
  vm_special_cases := handlers;
|}.

Record ExecutionState (S : Type) := mkExecutionState {
  global_context : GlobalContext S;
  call_stack : CallStack;
}.
Arguments mkExecutionState {S} _ _.
Arguments global_context {S} _.
Arguments call_stack {S} _.

Section Lifting.
Context {S : Type}.
Implicit Types st : ExecutionState S.

Abbreviation EM := (M (ExecutionState S) VmExecutionError).

Definition set_global_context x st : ExecutionState S := mkExecutionState x (call_stack st).
Definition set_call_stack x st : ExecutionState S := mkExecutionState (global_context st) x.

Definition on_global {A} (m : M (GlobalContext S) VmExecutionError A) : EM A :=
  zoom global_context set_global_context m.
Definition on_db {A} (m : M S VmExecutionError A) : EM A := on_global (on_database m).
Definition on_stack {A} (m : M CallStack VmExecutionError A) : EM A :=
  zoom call_stack set_call_stack m.

(** [ExecutionState::epoch] *)
Definition epoch : EM StacksEpochId := st ← get; mret (epoch_id (global_context st)).

(** Operations that consult the chain see it from where the database is. *)
Definition on_chain `{ChainStore S} {A} (f : DbEnv -> M S VmExecutionError A) : EM A :=
  on_db (s ← get; f (chain_env s)).

#[export] Instance GlobalContext_CostTracker : CostTracker (GlobalContext S) := {
  add_cost cost := zoom cost_track set_cost_track (add_cost cost);
  add_memory memory := zoom cost_track set_cost_track (add_memory memory);
  drop_memory memory := zoom cost_track set_cost_track (drop_memory memory);
  reset_memory g := set_cost_track (reset_memory (cost_track g)) g;
}.

#[export] Instance ExecutionState_CostTracker : CostTracker (ExecutionState S) := {
  add_cost cost := zoom global_context set_global_context (add_cost cost);
  add_memory memory := zoom global_context set_global_context (add_memory memory);
  drop_memory memory := zoom global_context set_global_context (drop_memory memory);
  reset_memory st := set_global_context (reset_memory (global_context st)) st;
}.

Context `{VmLibraries}.

#[export] Instance GlobalContext_CostFunctions : CostFunctions (GlobalContext S) :=
  {| compute_cost g := compute_cost (cost_track g) |}.
#[export] Instance ExecutionState_CostFunctions : CostFunctions (ExecutionState S) :=
  {| compute_cost st := compute_cost (global_context st) |}.

(** [?] on the outcomes of the helpers *)
Definition charge (cost_function : ClarityCostFunction.t) (input : Z) : EM unit :=
  mmap_err vm_from_cost (runtime_cost cost_function input).
Definition reserve (memory : Z) : EM unit := mmap_err vm_from_cost (add_memory memory).
Definition release (memory : Z) : EM unit := mmap_err vm_from_cost (drop_memory memory).
Definition typing {A} (r : TypeR A) : EM A := lift (map_err vm_from_type r).
Definition costing {A} (r : result CostErrors A) : EM A := lift (map_err vm_from_cost r).
Definition checking {A} (r : result CommonCheckErrorKind A) : EM A := lift (map_err vm_from_common r).

Definition unreachable (msg : string) : VmExecutionError := RuntimeCheck (RC_Unreachable msg).
Definition formatted_unreachable (msg : string) : VmExecutionError :=
  RuntimeCheck (RC_Unreachable (bounded_format msg)).
Definition expect_error (msg : string) : VmExecutionError := Internal (VI_Expect msg).
End Lifting.

(** ** References to values *)

Inductive ValueRef := Borrowed (v : Value) | Owned (v : Value).

Definition as_ref (r : ValueRef) : Value := match r with Borrowed v | Owned v => v end.

Section Values.
Context `{VmLibraries} {S : Type} `{VmStore S}.

Abbreviation EM := (M (ExecutionState S) VmExecutionError).

Definition clone_with_cost (r : ValueRef) : EM Value :=
  match r with
  | Borrowed v =>
      e ← epoch;
      size ← typing (value_charged_size e v);
      charge ClarityCostFunction.LookupVariableSize size;;
      mret v
  | Owned v => mret v
  end.

(** ** Variables *)

Definition starts_with (test : ascii -> bool) (name : string) : bool :=
  match name with String c _ => test c | EmptyString => false end.

(** [char::is_numeric] on ASCII *)
Definition is_numeric (c : ascii) : bool :=
  let n := Z.of_nat (nat_of_ascii c) in (48 <=? n) && (n <=? 57).

(** [ClarityDatabase::get_current_block_height] *)
Definition get_current_block_height : EM Z :=
  on_chain (fun env => mret (current_block_height env)).

(** [cfg!(test)] *)
Definition is_in_regtest : bool := false.

(** [NativeVariables] in the context of an invocation *)
Definition reserved_variable (variable : NativeVariables.t) (ic : InvocationContext)
    : EM Value :=
  match variable with
  | NativeVariables.TxSender =>
      sender ← lift (ok_or (ic_sender ic) (vm_from_runtime RE_NoSenderInContext));
      mret (Principal sender)
  | NativeVariables.ContractCaller =>
      caller ← lift (ok_or (ic_caller ic) (vm_from_runtime RE_NoCallerInContext));
      mret (Principal caller)
  | NativeVariables.TxSponsor =>
      match ic_sponsor ic with
      | None => mret value_none
      | Some p =>
          lift (map_err (fun _ => expect_error "ERROR: principal should be a valid Clarity object")
                  (value_some (Principal p)))
      end
  | NativeVariables.BlockHeight =>
      charge ClarityCostFunction.FetchVar 1;;
      e ← epoch;
      if epoch_ltb e Epoch30 then h ← get_current_block_height; mret (UInt h)
      else h ← on_chain get_tenure_height; mret (UInt h)
  | NativeVariables.BurnBlockHeight =>
      charge ClarityCostFunction.FetchVar 1;;
      h ← on_chain get_current_burnchain_block_height;
      mret (UInt h)
  | NativeVariables.NativeNone => mret value_none
  | NativeVariables.NativeTrue => mret (Bool true)
  | NativeVariables.NativeFalse => mret (Bool false)
  | NativeVariables.TotalLiquidMicroSTX =>
      charge ClarityCostFunction.FetchVar 1;;
      liq ← on_db get_total_liquid_ustx;
      mret (UInt liq)
  | NativeVariables.Regtest => mret (Bool is_in_regtest)
  | NativeVariables.Mainnet => st ← get; mret (Bool (mainnet (global_context st)))
  | NativeVariables.ChainId => st ← get; mret (UInt (chain_id (global_context st)))
  | NativeVariables.StacksBlockHeight =>
      charge ClarityCostFunction.FetchVar 1;;
      h ← get_current_block_height;
      mret (UInt h)
  | NativeVariables.TenureHeight =>
      charge ClarityCostFunction.FetchVar 1;;
      h ← on_chain get_tenure_height;
      mret (UInt h)
  | NativeVariables.CurrentContract => mret (Principal (Contract (cc_identifier (contract_context ic))))
  | NativeVariables.StacksBlockTime =>
      charge ClarityCostFunction.FetchVar 1;;
      t ← on_db get_current_block_time;
      mret (UInt t)
  end.

Definition lookup_reserved_variable (name : string) (ic : InvocationContext) : EM (option Value) :=
  match lookup_by_name_at_version (T := NativeVariables.t) name (ic_version ic) with
  | Some variable => v ← reserved_variable variable ic; mret (Some v)
  | None => mret None
  end.

Section Lookup.
Context (name : string) (ic : InvocationContext) (context : LocalContext).

(** Epochs without borrowed references copy the variable and pay for it. *)
Definition lookup_from_local_variable : EM (option ValueRef) :=
  match lc_lookup_variable context name with
  | Some value =>
      e ← epoch;
      if uses_pre_sanitized_variables e then mret (Some (Borrowed value))
      else v ← clone_with_cost (Borrowed value); mret (Some (Owned v))
  | None => mret None
  end.

(** Constants are sanitized when the contract is loaded, or when they are used. *)
Definition lookup_from_constant : EM (option ValueRef) :=
  match cc_lookup_variable (contract_context ic) name with
  | Some value =>
      e ← epoch;
      if uses_pre_sanitized_variables e then mret (Some (Borrowed value))
      else
        value ← clone_with_cost (Borrowed value);
        t ← typing (type_of value);
        '(value, _) ← lift (ok_or (sanitize_value e t value) (RuntimeCheck RC_CouldNotDetermineType));
        mret (Some (Owned value))
  | None => mret None
  end.

Definition or_else {A} (first second : EM (option A)) : EM (option A) :=
  o ← first; match o with Some v => mret (Some v) | None => second end.

Definition lookup_variable : EM ValueRef :=
  if starts_with is_numeric name || starts_with (Ascii.eqb "'") name
  then throw (Internal (VI_BadSymbolicRepresentation ("Unexpected variable name: " +:+ name)))
  else
    reserved ← lookup_reserved_variable name ic;
    match reserved with
    | Some value => mret (Owned value)
    | None =>
        charge ClarityCostFunction.LookupVariableDepth (lc_depth context);;
        e ← epoch;
        found ← (if clarity_runtime_checks_global_constants_before_local_vars e
                 then or_else lookup_from_constant lookup_from_local_variable
                 else or_else lookup_from_local_variable lookup_from_constant);
        match found, lookup_callable_contract context name with
        | Some v, _ => mret v
        | None, Some callable_data =>
            mret (Owned (if version_leb Clarity2 (ic_version ic)
                         then CallableContract (callable_contract callable_data)
                                (callable_trait callable_data)
                         else Principal (Contract (callable_contract callable_data))))
        | None, None => throw (formatted_unreachable ("Undefined variable: " +:+ name))
        end
    end.
End Lookup.
End Values.

(** ** Functions *)

(** [CallableType]. The [kind] of a reserved function is given by its name, see
    [builtin_kind] in Interpreter. *)
Inductive Callable :=
| UserFunction (f : DefinedFunction)
| Builtin (f : NativeFunctions.t).

Section Callables.
Context {S : Type}.

Abbreviation EM := (M (ExecutionState S) VmExecutionError).
Abbreviation VmR := (result VmExecutionError).

Inductive NativeHandle :=
| SingleArg (f : Value -> VmR Value)
| DoubleArg (f : Value -> Value -> VmR Value)
| MoreArg (f : list Value -> VmR Value)
| MoreArgEnv (f : list Value -> InvocationContext -> EM Value).

(** The first component is the name of the implementation. *)
Inductive BuiltinKind :=
| Native (rust_name : string) (h : NativeHandle) (c : ClarityCostFunction.t)
| Native205 (rust_name : string) (h : NativeHandle) (c : ClarityCostFunction.t)
    (cost_input : list Value -> VmR Z)
| Special (rust_name : string)
    (f : list SymbolicExpression -> InvocationContext -> LocalContext -> EM Value).

Definition rust_name (k : BuiltinKind) : string :=
  match k with Native n _ _ | Native205 n _ _ _ | Special n _ => n end.

Context `{VmLibraries}.

Definition unexpected_length : VmExecutionError := expect_error "Unexpected list length".

(** [NativeHandle::apply] *)
Definition handle_apply (h : NativeHandle) (args : list Value) (ic : InvocationContext) : EM Value :=
  match h with
  | SingleArg function =>
      checking (check_argument_count 1 args);;
      match args with
      | [a] => lift (function a)
      | _ => throw unexpected_length
      end
  | DoubleArg function =>
      checking (check_argument_count 2 args);;
      match args with
      | [first; second] => lift (function first second)
      | _ => throw unexpected_length
      end
  | MoreArg function => lift (function args)
  | MoreArgEnv function => function args ic
  end.

Fixpoint sum_serialized_sizes (sum : Z) (args : list Value) : result CostErrors Z :=
  match args with
  | [] => Ok sum
  | value :: args =>
      size ← map_err (fun e => CE_Expect (debug_serialization_error e)) (serialized_size value);
      sum ← cost_overflow_add size sum;
      sum_serialized_sizes sum args
  end.

Definition cost_input_sized_vararg (args : list Value) : VmR Z :=
  map_err vm_from_cost (sum_serialized_sizes 0 args).

Definition lookup_function (name : string) (ic : InvocationContext) : EM Callable :=
  charge ClarityCostFunction.LookupFunction 0;;
  match lookup_by_name_at_version (T := NativeFunctions.t) name (ic_version ic) with
  | Some native_function => mret (Builtin native_function)
  | None =>
      user_function ← lift (ok_or (cc_lookup_function (contract_context ic) name)
                              (RuntimeCheck (RC_UndefinedFunction name)));
      mret (UserFunction user_function)
  end.
End Callables.
#[global] Arguments NativeHandle : clear implicits.
#[global] Arguments BuiltinKind : clear implicits.

(** What the special forms call back: [eval] and [apply_evaluated] of
    [clarity/src/vm/mod.rs]. *)
Record Interp (S : Type) := mkInterp {
  eval : SymbolicExpression -> InvocationContext -> LocalContext -> M (ExecutionState S) VmExecutionError ValueRef;
  apply_evaluated : Callable -> list Value -> InvocationContext -> LocalContext ->
    M (ExecutionState S) VmExecutionError Value;
}.
Arguments mkInterp {S} _ _.
Arguments eval {S} _ _ _ _.
Arguments apply_evaluated {S} _ _ _ _ _.
