(* ===== verification/StoreRegimes.v ===== *)
(** * What the operations of the database keep

    Every operation of the database that a contract can reach is made of five
    operations of its store. A regime that those run in ([StoreOps]) is one that
    all of them run in: reading and writing contract data, tokens, balances and
    supplies, loading contracts, and consulting earlier blocks. *)

From S2P Require Import Prelude.
From S2P Require Import Epochs.
From S2P Require Import Values.
From S2P Require Import Types.
From S2P Require Import RollbackStore.
From S2P Require Import NestedStore.
From S2P Require Import C32.
From S2P Require Import STXBalance.
From S2P Require Import Database.
From S2P Require Import STXLedger.
From S2P Require Import VmErrors.
From S2P Require Import TypedValues.
From S2P Require Import ContractData.
From S2P Require Import Contexts.
From S2P Require Import Contracts.
From S2P Require Import BlockInfo.
From S2P Require Import GlobalContext.
From S2P Require Import Regimes.
From S2P Require Import ExecutionState.

Class StoreOps {S : Type} `{KVStore S} `{ContractStore S} (F : Regime S) := {
  keeps_get k : runs F (kv_get k) (kv_get k);
  keeps_put k v : runs F (kv_put k v) (kv_put k v);
  keeps_get_value key t e : runs F (cs_get_value key t e) (cs_get_value key t e);
  keeps_insert_metadata c key v : runs F (cs_insert_metadata c key v) (cs_insert_metadata c key v);
  keeps_get_metadata c key : runs F (cs_get_metadata c key) (cs_get_metadata c key);
}.
#[export] Hint Resolve keeps_get keeps_put keeps_get_value keeps_insert_metadata keeps_get_metadata : runs.

#[export] Hint Extern 0 (StoreOps _) => typeclasses eauto : runs.

Section Snapshots.
Context `{VmLibraries} {S : Type} `{VmStore S} (F : Regime S) `{!StoreOps F}.

(** In a snapshot of a balance: the database that the snapshot holds *)
Definition snapshot_regime : Regime (STXBalanceSnapshot S).
Proof.
  refine (mkRegime (fun s => pre F (snap_db s)) (fun s s' => rel F (snap_db s) (snap_db s')) _ _ _).
  - intros. apply rel_refl.
  - intros x y z. apply rel_trans.
  - intros x y. apply rel_pre.
Defined.

Lemma runs_snap_db {A} (m : M S VmExecutionError A) :
  runs F m m -> runs snapshot_regime (STXLedger.on_db m) (STXLedger.on_db m).
Proof. intros Hm. by apply (runs_zoom _ F). Qed.

Lemma runs_snap_balance {A} (m : M STXBalance VmExecutionError A) :
  runs snapshot_regime (on_balance m) (on_balance m).
Proof.
  intros x _. split; [done |]. intros _. unfold on_balance, zoom. destruct (m _). apply (rel_refl F).
Qed.

Lemma runs_set_balance b : runs snapshot_regime (set_balance b) (set_balance b).
Proof. apply runs_modify. intros. apply (rel_refl F). Qed.

Lemma runs_balance : runs snapshot_regime balance balance.
Proof. apply (runs_read _ (fun s => Ok (snap_balance s))). Qed.
Lemma runs_burn_block_height : runs snapshot_regime burn_block_height burn_block_height.
Proof. apply (runs_read _ (fun s => Ok (snap_burn_block_height s))). Qed.
Lemma runs_principal : runs snapshot_regime principal principal.
Proof. apply (runs_read _ (fun s => Ok (snap_principal s))). Qed.
#[local] Hint Resolve runs_snap_balance runs_set_balance runs_balance
  runs_burn_block_height runs_principal : runs.

Lemma runs_with_snapshot {A} env p (m : SnapM S A) :
  runs snapshot_regime m m -> runs F (with_snapshot env p m) (with_snapshot env p m).
Proof.
  intros Hm s Hs. split; [done |]. unfold with_snapshot, get_stx_balance_snapshot.
  set (open := stx_balance ← get_account_stx_balance p;
               cur_burn_height ← get_current_burnchain_block_height env;
               mret (stx_balance, cur_burn_height)).
  assert (runs F open open) as Hr. { unfold open. runs.
  }
  destruct (Hr s Hs) as [_ Hrel]. destruct (open s) as [[[b burn] | e |] s']; cbn in *; [| auto | done].
  specialize (Hrel ltac:(done)).
  destruct (Hm (mkSnapshot p b burn s')) as [_ Hrel']; [exact (rel_pre F _ _ Hrel Hs) |].
  destruct (m _) as [r snap]. cbn in *. intros Hp. eapply rel_trans; eauto.
Qed.
End Snapshots.
#[export] Hint Resolve runs_snap_balance runs_set_balance runs_balance runs_burn_block_height
  runs_principal : runs.

Ltac runs_hook ::=
  lazymatch goal with
  | |- runs _ (STXLedger.on_db _) _ => apply runs_snap_db
  | |- runs _ (with_snapshot _ _ _) _ => apply runs_with_snapshot
  end.

Section Balances.
Context `{VmLibraries} {S : Type} `{VmStore S} (F : Regime S) `{!StoreOps F}.
Abbreviation snapshot_regime := (snapshot_regime F).

(** ** Balances *)

Lemma runs_available env : runs snapshot_regime (get_available_balance env) (get_available_balance env).
Proof. runs. Qed.
Lemma runs_canonical env : runs snapshot_regime (canonical_balance_repr env) (canonical_balance_repr env).
Proof. runs. Qed.
Lemma runs_can_transfer env a : runs snapshot_regime (can_transfer env a) (can_transfer env a).
Proof. runs. Qed.
Lemma runs_debit env a : runs snapshot_regime (debit env a) (debit env a).
Proof. runs. Qed.
Lemma runs_save : runs snapshot_regime save save.
Proof. runs. Qed.
Lemma runs_transfer_to env p a : runs snapshot_regime (transfer_to env p a) (transfer_to env p a).
Proof. runs. Qed.
End Balances.
#[export] Hint Resolve runs_available runs_canonical runs_can_transfer runs_debit
  runs_save runs_transfer_to : runs.

Section Operations.
Context `{VmLibraries} {S : Type} `{VmStore S} (F : Regime S) `{!StoreOps F}.

(** ** Contract data *)

Lemma runs_get_value key t e : runs F (get_value key t e) (get_value key t e).
Proof. runs. Qed.
Lemma runs_put_value key v e : runs F (put_value_with_size key v e) (put_value_with_size key v e).
Proof. runs. Qed.

Lemma runs_load_metadata {A} `{SerdeJson A} c key missing :
  runs F (load_metadata (A := A) c key missing) (load_metadata c key missing).
Proof.
  assert (runs F (fetch_metadata (A := A) c key) (fetch_metadata c key)) as Hf by runs.
  apply runs_bind; [| runs]. intros s Hs. destruct (Hf s Hs) as [_ Hr]. split; [done |].
  unfold map_no_contract_as_none. destruct (fetch_metadata c key s) as [[o | e |] s']; [done | | done].
  specialize (Hr ltac:(done)). by destruct e as [[] | | |].
Qed.
#[local] Hint Resolve runs_get_value runs_put_value runs_load_metadata : runs.

Lemma runs_lookup_variable c name m e :
  runs F (ContractData.lookup_variable c name m e) (ContractData.lookup_variable c name m e).
Proof. runs. Qed.
Lemma runs_lookup_variable_with_size c name m e :
  runs F (lookup_variable_with_size c name m e) (lookup_variable_with_size c name m e).
Proof. runs. Qed.
Lemma runs_set_variable c name v m e : runs F (set_variable c name v m e) (set_variable c name v m e).
Proof. runs. Qed.
Lemma runs_fetch_entry c name k m e : runs F (fetch_entry c name k m e) (fetch_entry c name k m e).
Proof. runs. Qed.
Lemma runs_fetch_entry_with_size c name k m e :
  runs F (fetch_entry_with_size c name k m e) (fetch_entry_with_size c name k m e).
Proof. runs. Qed.
Lemma runs_set_entry c name k v m e : runs F (set_entry c name k v m e) (set_entry c name k v m e).
Proof. runs. Qed.
Lemma runs_insert_entry c name k v m e : runs F (insert_entry c name k v m e) (insert_entry c name k v m e).
Proof. runs. Qed.
Lemma runs_delete_entry c name k m e : runs F (delete_entry c name k m e) (delete_entry c name k m e).
Proof. runs. Qed.

(** ** Tokens and supplies *)

Lemma runs_get_ft_supply c name : runs F (get_ft_supply c name) (get_ft_supply c name).
Proof. runs. Qed.
Lemma runs_increase_supply c name a m :
  runs F (checked_increase_token_supply c name a m) (checked_increase_token_supply c name a m).
Proof. runs. Qed.
Lemma runs_decrease_supply c name a :
  runs F (checked_decrease_token_supply c name a) (checked_decrease_token_supply c name a).
Proof. runs. Qed.
Lemma runs_get_ft_balance c name p m : runs F (get_ft_balance c name p m) (get_ft_balance c name p m).
Proof. runs. Qed.
Lemma runs_set_ft_balance c name p a : runs F (set_ft_balance c name p a) (set_ft_balance c name p a).
Proof. runs. Qed.
Lemma runs_get_nft_owner c name a t : runs F (get_nft_owner c name a t) (get_nft_owner c name a t).
Proof. runs. Qed.
Lemma runs_set_nft_owner c name a p t e : runs F (set_nft_owner c name a p t e) (set_nft_owner c name a p t e).
Proof. runs. Qed.
Lemma runs_burn_nft c name a t e : runs F (burn_nft c name a t e) (burn_nft c name a t e).
Proof. runs. Qed.
Lemma runs_liquid_supply : runs F get_total_liquid_ustx get_total_liquid_ustx.
Proof. runs. Qed.
Lemma runs_decrement_liquid_supply a :
  runs F (decrement_ustx_liquid_supply a) (decrement_ustx_liquid_supply a).
Proof. runs. Qed.

(** ** Contracts and blocks *)

Lemma runs_get_contract_size c : runs F (get_contract_size c) (get_contract_size c).
Proof. runs. Qed.
Lemma runs_get_contract c : runs F (get_contract c) (get_contract c).
Proof. runs. Qed.
Lemma runs_get_contract_hash c : runs F (get_contract_hash c) (get_contract_hash c).
Proof. runs. Qed.
Lemma runs_block_time : runs F get_current_block_time get_current_block_time.
Proof. runs. Qed.
Lemma runs_tenure_height env : runs F (get_tenure_height env) (get_tenure_height env).
Proof. runs. Qed.
Lemma runs_burn_height env :
  runs F (get_current_burnchain_block_height env) (get_current_burnchain_block_height env).
Proof. runs. Qed.
Lemma runs_unlock_heights env : runs F (get_unlock_heights env) (get_unlock_heights env).
Proof. runs. Qed.
Lemma runs_sortition_id env :
  runs F (get_sortition_id_for_stacks_tip env) (get_sortition_id_for_stacks_tip env).
Proof. runs. Qed.
Lemma runs_check_and_transfer env p q a :
  runs F (check_and_transfer env p q a) (check_and_transfer env p q a).
Proof. runs. Qed.
End Operations.
#[export] Hint Resolve runs_get_value runs_put_value runs_load_metadata runs_lookup_variable
  runs_lookup_variable_with_size runs_set_variable runs_fetch_entry runs_fetch_entry_with_size
  runs_set_entry runs_insert_entry runs_delete_entry runs_get_ft_supply runs_increase_supply
  runs_decrease_supply runs_get_ft_balance runs_set_ft_balance runs_get_nft_owner runs_set_nft_owner
  runs_burn_nft runs_liquid_supply runs_decrement_liquid_supply runs_get_contract_size
  runs_get_contract runs_get_contract_hash runs_block_time runs_tenure_height runs_burn_height
  runs_unlock_heights runs_sortition_id runs_check_and_transfer : runs.
