(* ===== verification/SpecialForms.v ===== *)
(** * Special forms

    The functions of [clarity/src/vm/functions] that evaluate their arguments
    themselves, other than those that work on the database and on assets: the
    control flow ([mod.rs], [boolean.rs], [options.rs]), tuples, sequences,
    comparisons, conversions, principals and signatures. They are written
    against the interpreter they call back, [Interp]. *)

From S2P Require Import Prelude.
From S2P Require Import Bytes.
From S2P Require Import BoundedString.
From S2P Require Import BTree.
From S2P Require Import Epochs.
From S2P Require Import Values.
From S2P Require Import Types.
From S2P Require Import Supertypes.
From S2P Require Import RollbackStore.
From S2P Require Import C32.
From S2P Require Import Database.
From S2P Require Import Serialization.
From S2P Require Import VmErrors.
From S2P Require Import TypedValues.
From S2P Require Import Expressions.
From S2P Require Import ContractData.
From S2P Require Import Contexts.
From S2P Require Import Arithmetic.
From S2P Require Import Natives.
From S2P Require Import CostTables.
From S2P Require Import Costs.
From S2P Require Import Contracts.
From S2P Require Import CryptoNatives.
From S2P Require Import CostFunctions.
From S2P Require Import TypeSyntax.
From S2P Require Import GlobalContext.
From S2P Require Import ExecutionState.

Section Forms.
Context `{VmLibraries} {S : Type} `{VmStore S} (I : Interp S).
Implicit Types (args : list SymbolicExpression) (ic : InvocationContext) (context : LocalContext).

Abbreviation EM := (M (ExecutionState S) VmExecutionError).
Abbreviation VmR := (result VmExecutionError).

(** [eval(..)?.clone_with_cost(exec_state)] *)
Definition eval_clone (x : SymbolicExpression) ic context : EM Value :=
  r ← eval I x ic context; clone_with_cost r.

(** [Value::charged_size] in the epoch of the execution *)
Definition size_charged (v : Value) : EM Z := e ← epoch; typing (value_charged_size e v).
Definition type_size_charged (t : TypeSignature) : EM Z := e ← epoch; typing (charged_size e t).

Definition no_name : VmExecutionError := unreachable "Expected name".

(** [args[0].match_atom()] of a function that takes a name *)
Definition name_arg (x : SymbolicExpression) : EM ClarityName := lift (ok_or (match_atom x) no_name).

(** Run [cleanup] whether or not [m] fails; its own failure comes first. *)
Definition finally {A} (m : EM A) (cleanup : EM unit) : EM A := fun st =>
  match m st with
  | (Panic, st) => (Panic, st)
  | (r, st) => match cleanup st with
               | (Ok _, st) => (r, st)
               | (Err e, st) => (Err e, st)
               | (Panic, st) => (Panic, st)
               end
  end.

(** ** [boolean.rs] *)

Fixpoint or_args args ic context : EM Value :=
  match args with
  | [] => mret (Bool false)
  | arg :: args =>
      evaluated ← eval I arg ic context;
      result ← lift (type_force_bool (as_ref evaluated));
      if result : bool then mret (Bool true) else or_args args ic context
  end.

Definition special_or args ic context : EM Value :=
  checking (check_arguments_at_least 1 args);;
  charge ClarityCostFunction.Or (zlen args);;
  or_args args ic context.

Fixpoint and_args args ic context : EM Value :=
  match args with
  | [] => mret (Bool true)
  | arg :: args =>
      evaluated ← eval I arg ic context;
      result ← lift (type_force_bool (as_ref evaluated));
      if result : bool then and_args args ic context else mret (Bool false)
  end.

Definition special_and args ic context : EM Value :=
  checking (check_arguments_at_least 1 args);;
  charge ClarityCostFunction.And (zlen args);;
  and_args args ic context.

(** ** [mod.rs] *)

Definition native_eq (args : list Value) (ic : InvocationContext) : EM Value :=
  e ← epoch; lift (eq_values e args).

(** [Value::size] as the events count it *)
Definition event_value_size (v : Value) : VmR Z :=
  map_err (fun e => expect_error ("Could not calculate event size: " +:+ type_error_to_string e))
    (TypedValues.value_size v).

Definition special_print args ic context : EM Value :=
  arg ← lift (ok_or (head args)
                (Internal (VI_BadSymbolicRepresentation "Print should have an argument")));
  input ← eval I arg ic context;
  input_size ← size_charged (as_ref input);
  charge ClarityCostFunction.Print input_size;;
  value ← clone_with_cost input;
  on_global (register_print_event event_value_size ic value);;
  mret value.

Definition special_if args ic context : EM Value :=
  checking (check_argument_count 3 args);;
  charge ClarityCostFunction.If 0;;
  match args with
  | [condition; on_true; on_false] =>
      conditional ← eval I condition ic context;
      match as_ref conditional with
      | Bool true => eval_clone on_true ic context
      | Bool false => eval_clone on_false ic context
      | v => throw (type_value_error BoolType v)
      end
  | _ => panic
  end.

Definition special_asserts args ic context : EM Value :=
  checking (check_argument_count 2 args);;
  charge ClarityCostFunction.Asserts 0;;
  match args with
  | [condition; otherwise] =>
      conditional ← eval I condition ic context;
      match as_ref conditional with
      | Bool true => clone_with_cost conditional
      | Bool false =>
          thrown ← eval_clone otherwise ic context;
          throw (EarlyReturn (AssertionFailed thrown))
      | v => throw (type_value_error BoolType v)
      end
  | _ => panic
  end.

(** *** Bindings

    The bindings of [let] extend a context and reserve memory as they are
    evaluated; both are locals of the form, next to the state. *)
Record Locals := mkLocals { inner_context : LocalContext; memory_use : Z }.

Abbreviation LM := (M (ExecutionState S * Locals) VmExecutionError).

Definition outer {A} (m : EM A) : LM A := zoom fst (fun st p => (st, p.2)) m.
Definition locals : LM Locals := p ← get; mret p.2.
Definition set_locals (l : Locals) : LM unit := modify (fun p => (p.1, l)).

(** Run with locals, then clean up with what they are in the end. *)
Definition with_locals {A} (l : Locals) (m : LM A) (cleanup : Locals -> EM unit) : EM A := fun st =>
  match m (st, l) with
  | (Panic, (st, _)) => (Panic, st)
  | (r, (st, l)) => match cleanup l st with
                    | (Ok _, st) => (r, st)
                    | (Err e, st) => (Err e, st)
                    | (Panic, st) => (Panic, st)
                    end
  end.

(** The name is reserved, or a function, or a variable in scope. *)
Definition name_taken ic context (name : ClarityName) : bool :=
  is_reserved name (ic_version ic)
  || bool_decide (is_Some (cc_lookup_function (contract_context ic) name))
  || bool_decide (is_Some (lc_lookup_variable context name)).

(** From Clarity 2 on, a trait bound to a name can be called. *)
Definition bind_callable ic (name : ClarityName) (v : Value) context : LocalContext :=
  match v with
  | CallableContract contract trait =>
      if version_leb Clarity2 (ic_version ic)
      then insert_callable name (mkCallableData contract trait) context else context
  | _ => context
  end.

Definition let_binding ic (binding_name : ClarityName) (var_sexp : SymbolicExpression) : LM unit :=
  l ← locals;
  if name_taken ic (inner_context l) binding_name then throw (RuntimeCheck (RC_NameAlreadyUsed binding_name))
  else
    binding_value ← outer (eval I var_sexp ic (inner_context l));
    e ← outer epoch;
    bind_mem_use ← outer (costing (get_memory_use e (as_ref binding_value)));
    outer (reserve bind_mem_use);;
    memory_use ← lift (expect_some (u64_checked_add (memory_use l) bind_mem_use));
    set_locals (mkLocals (inner_context l) memory_use);;
    value ← outer (clone_with_cost binding_value);
    set_locals (mkLocals (insert_variable binding_name value
                            (bind_callable ic binding_name value (inner_context l))) memory_use).

(** The value of the last expression *)
Fixpoint let_bodies (bodies : list SymbolicExpression) ic context (last_result : option ValueRef)
    : EM (option ValueRef) :=
  match bodies with
  | [] => mret last_result
  | body :: bodies =>
      body_result ← eval I body ic context;
      let_bodies bodies ic context (Some body_result)
  end.

Definition let_body (bodies : list SymbolicExpression) ic context : EM Value :=
  last_result ← let_bodies bodies ic context None;
  r ← lift (ok_or last_result (expect_error "Failed to get let result"));
  clone_with_cost r.

Definition special_let args ic context : EM Value :=
  checking (check_arguments_at_least 2 args);;
  match args with
  | first :: bodies =>
      bindings ← lift (ok_or (match_list first) (unreachable "Bad let syntax"));
      charge ClarityCostFunction.Let (zlen bindings);;
      inner ← lift (local_extend context);
      with_locals (mkLocals inner 0)
        (handle_binding_list vm_from_common BindLet (let_binding ic) bindings;;
         l ← locals;
         outer (let_body bodies ic (inner_context l)))
        (fun l => release (memory_use l))
  | [] => panic
  end.

(** [parse_eval_bindings]: the pairs evaluated so far are the locals. *)
Definition eval_binding ic context (var_name : ClarityName) (var_sexp : SymbolicExpression)
    : M (ExecutionState S * list (ClarityName * Value)) VmExecutionError unit :=
  value ← zoom fst (fun st p => (st, p.2)) (eval_clone var_sexp ic context);
  modify (fun p => (p.1, p.2 ++ [(var_name, value)])).

Definition parse_eval_bindings (bindings : list SymbolicExpression) (ty : SyntaxBindingErrorType) ic context
    : EM (list (ClarityName * Value)) := fun st =>
  match handle_binding_list vm_from_common ty (eval_binding ic context) bindings (st, []) with
  | (Ok _, (st, result)) => (Ok result, st)
  | (Err e, (st, _)) => (Err e, st)
  | (Panic, (st, _)) => (Panic, st)
  end.

(** *** Contracts as principals *)

Definition AS_CONTRACT_MEMORY : Z := 1.

Definition special_as_contract args ic context : EM Value :=
  checking (check_argument_count 1 args);;
  e ← epoch;
  (if epoch_leb Epoch21 e then charge ClarityCostFunction.AsContract 0 else mret tt);;
  reserve AS_CONTRACT_MEMORY;;
  match args with
  | [body] =>
      result ← finally (eval I body (with_principal ic (Contract (cc_identifier (contract_context ic)))) context)
                 (release AS_CONTRACT_MEMORY);
      clone_with_cost result
  | _ => panic
  end.

Definition not_a_trait : VmExecutionError := unreachable "Contract of expects trait".

Definition special_contract_of args ic context : EM Value :=
  checking (check_argument_count 1 args);;
  charge ClarityCostFunction.ContractOf 0;;
  match args with
  | [Atom contract_ref] =>
      trait_data ← lift (ok_or (lookup_callable_contract context contract_ref) not_a_trait);
      st ← get;
      if has_contract (callable_contract trait_data) (database (global_context st))
      then mret (Principal (Contract (callable_contract trait_data)))
      else throw (RuntimeCheck (RC_NoSuchContract (contract_to_string (callable_contract trait_data))))
  | _ => throw not_a_trait
  end.

(** ** [options.rs] *)

Definition eval_with_new_binding (body : SymbolicExpression) (bind_name : ClarityName) (bind_value : Value)
    ic context : EM Value :=
  inner_context ← lift (local_extend context);
  if name_taken ic inner_context bind_name then throw (RuntimeCheck (RC_NameAlreadyUsed bind_name))
  else
    e ← epoch;
    memory_use ← costing (get_memory_use e bind_value);
    reserve memory_use;;
    finally
      (eval_clone body ic
         (insert_variable bind_name bind_value (bind_callable ic bind_name bind_value inner_context)))
      (release memory_use).

Definition special_match_opt (input : option Value) args ic context : EM Value :=
  match args with
  | [name; some_branch; none_branch] =>
      bind_name ← lift (ok_or (match_atom name) (unreachable "Bad match option syntax: expected name"));
      match input with
      | Some data => eval_with_new_binding some_branch bind_name data ic context
      | None => eval_clone none_branch ic context
      end
  | _ => throw (formatted_unreachable
                  ("Bad match option syntax: args " +:+ pretty (zlen args) +:+ " != 3"))
  end.

Definition special_match_resp (committed : bool) (data : Value) args ic context : EM Value :=
  match args with
  | [ok_name; ok_branch; err_name; err_branch] =>
      ok_bind_name ← lift (ok_or (match_atom ok_name)
                             (unreachable "Bad match response syntax: expected name"));
      err_bind_name ← lift (ok_or (match_atom err_name)
                              (unreachable "Bad match response syntax: expected name"));
      if committed then eval_with_new_binding ok_branch ok_bind_name data ic context
      else eval_with_new_binding err_branch err_bind_name data ic context
  | _ => throw (formatted_unreachable
                  ("Bad match response syntax: args " +:+ pretty (zlen args) +:+ " != 4"))
  end.

Definition special_match args ic context : EM Value :=
  checking (check_arguments_at_least 1 args);;
  match args with
  | first :: rest =>
      input ← eval_clone first ic context;
      charge ClarityCostFunction.Match 0;;
      match input with
      | Response committed data => special_match_resp committed data rest ic context
      | Optional data => special_match_opt data rest ic context
      | _ => lift (unexpected_type "Bad match input: " input)
      end
  | [] => panic
  end.

(** ** [tuples.rs] *)

(** [TupleData::len] *)
Definition tuple_len (t : TupleData) : Z := match t with mkTuple _ data_map => zlen data_map end.

Definition tuple_cons args ic context : EM Value :=
  checking (check_arguments_at_least 1 args);;
  bindings ← parse_eval_bindings args BindTupleCons ic context;
  charge ClarityCostFunction.TupleCons (zlen bindings);;
  t ← typing (tuple_from_data bindings);
  mret (Tuple t).

Definition tuple_get args ic context : EM Value :=
  checking (check_argument_count 2 args);;
  match args with
  | [name; tuple] =>
      arg_name ← name_arg name;
      value ← eval_clone tuple ic context;
      match value with
      | Optional (Some (Tuple tuple_data)) =>
          charge ClarityCostFunction.TupleGet (tuple_len tuple_data);;
          field ← typing (tuple_get_owned tuple_data arg_name);
          lift (map_err (fun _ => expect_error "Tuple contents should *always* fit in a some wrapper")
                  (value_some field))
      | Optional (Some data) => lift (expected_tuple data)
      | Optional None => mret value_none
      | Tuple tuple_data =>
          charge ClarityCostFunction.TupleGet (tuple_len tuple_data);;
          typing (tuple_get_owned tuple_data arg_name)
      | other_value => lift (expected_tuple other_value)
      end
  | _ => panic
  end.

(** ** [sequences.rs] *)

Fixpoint eval_args args ic context : EM (list Value) :=
  match args with
  | [] => mret []
  | x :: args =>
      v ← eval_clone x ic context;
      vs ← eval_args args ic context;
      mret (v :: vs)
  end.

Fixpoint charged_sizes (arg_size : Z) (args : list Value) : EM Z :=
  match args with
  | [] => mret arg_size
  | a :: args =>
      size ← size_charged a;
      arg_size ← costing (cost_overflow_add arg_size size);
      charged_sizes arg_size args
  end.

(** [Value::cons_list] in the epoch of the execution *)
Definition list_value (vs : list Value) : EM Value := e ← epoch; typing (cons_list vs e).

Definition list_cons args ic context : EM Value :=
  args ← eval_args args ic context;
  arg_size ← charged_sizes 0 args;
  charge ClarityCostFunction.ListCons arg_size;;
  list_value args.

Definition seq_arg (v : Value) : EM SequenceData :=
  match v with Sequence s => mret s | _ => lift (expected_sequence v) end.

(** *** [filter] *)

Definition filter_predicate (function : Callable) ic context (value : Value) : EM bool :=
  filter_eval ← apply_evaluated I function [value] ic context;
  match filter_eval with
  | Bool include => mret include
  | _ => throw (type_value_error BoolType filter_eval)
  end.

Definition from_retain (e : RetainValuesError VmExecutionError) : VmExecutionError :=
  match e with
  | RetainInternal err =>
      expect_error ("Internal error occurred while filtering sequence value: " +:+ type_error_to_string err)
  | RetainPredicate vm_err => vm_err
  end.

Definition special_filter args ic context : EM Value :=
  checking (check_argument_count 2 args);;
  charge ClarityCostFunction.Filter 0;;
  match args with
  | [name; seq] =>
      function_name ← name_arg name;
      sequence ← eval_clone seq ic context;
      function ← lookup_function function_name ic;
      sequence_data ← seq_arg sequence;
      kept ← mmap_err from_retain (try_retain (filter_predicate function ic context) sequence_data);
      mret (Sequence kept)
  | _ => panic
  end.

(** *** [fold] *)

Definition invalid_sequence : VmExecutionError :=
  expect_error "ERROR: Invalid sequence data successfully constructed".

Fixpoint fold_elements (function : Callable) (elements : list (TypeR Value)) (acc : Value) ic context
    : EM Value :=
  match elements with
  | [] => mret acc
  | element_result :: elements =>
      element ← lift (map_err (fun _ => invalid_sequence) element_result);
      acc ← apply_evaluated I function [element; acc] ic context;
      fold_elements function elements acc ic context
  end.

Definition special_fold args ic context : EM Value :=
  checking (check_argument_count 3 args);;
  charge ClarityCostFunction.Fold 0;;
  match args with
  | [name; seq; init] =>
      function_name ← name_arg name;
      function ← lookup_function function_name ic;
      sequence ← eval_clone seq ic context;
      initial ← eval_clone init ic context;
      seq ← seq_arg sequence;
      fold_elements function (seq_values seq) initial ic context
  | _ => panic
  end.

(** *** [map] *)

(** One sequence is dealt out to the argument vectors, [apply_index] being the
    next one. *)
Fixpoint deal_arguments (apply_index : nat) (min_args_len : Z) (elements : list (TypeR Value))
    (mapped_func_args : list (list Value)) : VmR (list (list Value)) :=
  match elements with
  | [] => Ok mapped_func_args
  | element_result :: elements =>
      value ← map_err (fun _ => invalid_sequence) element_result;
      if min_args_len <? Z.of_nat apply_index then Ok mapped_func_args
      else
        deal_arguments (Datatypes.S apply_index) min_args_len elements
          (if (length mapped_func_args <=? apply_index)%nat then mapped_func_args ++ [[value]]
           else alter (fun arguments => arguments ++ [value]) apply_index mapped_func_args)
  end.

Fixpoint map_arguments args (mapped_func_args : list (list Value)) (min_args_len : Z) ic context
    : EM (list (list Value)) :=
  match args with
  | [] => mret mapped_func_args
  | map_arg :: args =>
      sequence ← eval_clone map_arg ic context;
      seq ← seq_arg sequence;
      let min_args_len := Z.min min_args_len (seq_len seq) in
      mapped_func_args ← lift (deal_arguments 0 min_args_len (seq_values seq) mapped_func_args);
      map_arguments args mapped_func_args min_args_len ic context
  end.

Fixpoint map_apply (function : Callable) (mapped_func_args : list (list Value)) (previous_len : option nat)
    ic context : EM (list Value) :=
  match mapped_func_args with
  | [] => mret []
  | arguments :: mapped_func_args =>
      if match previous_len with Some n => negb (n =? length arguments)%nat | None => false end
      then mret []
      else
        res ← apply_evaluated I function arguments ic context;
        rest ← map_apply function mapped_func_args
                 (Some (match previous_len with Some n => n | None => length arguments end)) ic context;
        mret (res :: rest)
  end.

Definition special_map_v200 args ic context : EM Value :=
  checking (check_arguments_at_least 2 args);;
  charge ClarityCostFunction.Map (zlen args);;
  match args with
  | name :: sequences =>
      function_name ← name_arg name;
      function ← lookup_function function_name ic;
      mapped_func_args ← map_arguments sequences [] u64_max ic context;
      mapped_results ← map_apply function mapped_func_args None ic context;
      list_value mapped_results
  | [] => panic
  end.

(** The iterators over the sequences, and the length of the shortest *)
Fixpoint map_iterators args (min_args_len : Z) ic context : EM (list (list (TypeR Value)) * Z) :=
  match args with
  | [] => mret ([], min_args_len)
  | map_arg :: args =>
      sequence ← eval_clone map_arg ic context;
      seq ← seq_arg sequence;
      '(iterators, min_args_len) ←
        map_iterators args (Z.min min_args_len (zlen (seq_values seq))) ic context;
      mret (seq_values seq :: iterators, min_args_len)
  end.

(** [next] of every iterator *)
Fixpoint next_arguments (iterators : list (list (TypeR Value)))
    : VmR (list Value * list (list (TypeR Value))) :=
  match iterators with
  | [] => Ok ([], [])
  | [] :: _ => Err (unreachable "iterator can't be shorter than min len")
  | (element :: iter) :: iterators =>
      value ← map_err (fun _ => invalid_sequence) element;
      '(call_args, iterators) ← next_arguments iterators;
      Ok (value :: call_args, iter :: iterators)
  end.

Fixpoint map_steps (function : Callable) (n : nat) (iterators : list (list (TypeR Value))) ic context
    : EM (list Value) :=
  match n with
  | O => mret []
  | Datatypes.S n =>
      '(call_args, iterators) ← lift (next_arguments iterators);
      res ← apply_evaluated I function call_args ic context;
      rest ← map_steps function n iterators ic context;
      mret (res :: rest)
  end.

Definition special_map_v400 args ic context : EM Value :=
  checking (check_arguments_at_least 2 args);;
  charge ClarityCostFunction.Map (zlen args);;
  match args with
  | name :: sequences =>
      function_name ← name_arg name;
      function ← lookup_function function_name ic;
      '(iterators, min_args_len) ← map_iterators sequences u64_max ic context;
      mapped_results ← map_steps function (Z.to_nat min_args_len) iterators ic context;
      list_value mapped_results
  | [] => panic
  end.

Definition special_map args ic context : EM Value :=
  e ← epoch;
  if fixes_map_off_by_one e then special_map_v400 args ic context else special_map_v200 args ic context.

(** *** [append] *)

Definition append_element (list_data : list Value) (list_type : ListTypeData) (element : ValueRef) : EM Value :=
  let entry_type := get_list_item_type list_type in
  let size := get_max_len list_type in
  element_type ← typing (type_of (as_ref element));
  entry_size ← type_size_charged entry_type;
  element_size ← type_size_charged element_type;
  charge ClarityCostFunction.Append (Z.max entry_size element_size);;
  element ← clone_with_cost element;
  if is_no_type entry_type then
    assert_true (size =? 0);;
    list_value [element]
  else
    e ← epoch;
    next_entry_type ← typing (least_supertype e entry_type element_type);
    '(element, _) ← lift (ok_or (sanitize_value e next_entry_type element)
                            (RuntimeCheck RC_ListTypesMustMatch));
    next_len ← lift (expect_some (u32_checked_add size 1));
    next_type_signature ← typing (new_list next_entry_type next_len);
    mret (Sequence (List_ (list_data ++ [element]) next_type_signature)).

Definition special_append args ic context : EM Value :=
  checking (check_argument_count 2 args);;
  match args with
  | [list; elem] =>
      sequence ← eval_clone list ic context;
      match sequence with
      | Sequence (List_ data type_signature) =>
          element ← eval I elem ic context;
          append_element data type_signature element
      | _ => throw (unreachable "Expected list application")
      end
  | _ => panic
  end.

(** *** [concat] *)

Definition concat_seq (seq other_seq : SequenceData) : EM SequenceData :=
  e ← epoch; typing (seq_concat e seq other_seq).

Definition special_concat_v200 args ic context : EM Value :=
  checking (check_argument_count 2 args);;
  match args with
  | [first; second] =>
      wrapped_seq ← eval_clone first ic context;
      other_wrapped_seq ← eval_clone second ic context;
      size ← size_charged wrapped_seq;
      other_size ← size_charged other_wrapped_seq;
      total ← costing (cost_overflow_add size other_size);
      charge ClarityCostFunction.Concat total;;
      seq ← seq_arg wrapped_seq;
      other_seq ← seq_arg other_wrapped_seq;
      result ← concat_seq seq other_seq;
      mret (Sequence result)
  | _ => panic
  end.

Definition special_concat_v205 args ic context : EM Value :=
  checking (check_argument_count 2 args);;
  match args with
  | [first; second] =>
      wrapped_seq ← eval_clone first ic context;
      other_wrapped_seq ← eval_clone second ic context;
      match wrapped_seq, other_wrapped_seq with
      | Sequence seq, Sequence other_seq =>
          total ← costing (cost_overflow_add (seq_len seq) (seq_len other_seq));
          charge ClarityCostFunction.Concat total;;
          result ← concat_seq seq other_seq;
          mret (Sequence result)
      | Sequence seq_data, other_value =>
          charge ClarityCostFunction.Concat 1;;
          t ← typing (sequence_type_signature seq_data);
          throw (type_value_error t other_value)
      | _, _ =>
          charge ClarityCostFunction.Concat 1;;
          lift (expected_sequence wrapped_seq)
      end
  | _ => panic
  end.

(** The sequences to concatenate, and their total length *)
Fixpoint concat_arguments args (total_len : Z) ic context : EM (list SequenceData * Z) :=
  match args with
  | [] => mret ([], total_len)
  | arg :: args =>
      value ← eval_clone arg ic context;
      match value with
      | Sequence seq =>
          total_len ← costing (cost_overflow_add total_len (seq_len seq));
          '(seqs, total_len) ← concat_arguments args total_len ic context;
          mret (seq :: seqs, total_len)
      | non_seq =>
          charge ClarityCostFunction.Concat 1;;
          lift (expected_sequence non_seq)
      end
  end.

Fixpoint concat_all (seq : SequenceData) (others : list SequenceData) : EM SequenceData :=
  match others with
  | [] => mret seq
  | other_seq :: others => seq ← concat_seq seq other_seq; concat_all seq others
  end.

Definition special_concat_v400 args ic context : EM Value :=
  checking (check_arguments_at_least 2 args);;
  '(values, total_len) ← concat_arguments args 0 ic context;
  charge ClarityCostFunction.Concat total_len;;
  match values with
  | first :: others => result ← concat_all first others; mret (Sequence result)
  | [] => panic
  end.

Definition special_concat args ic context : EM Value :=
  e ← epoch;
  match e with
  | Epoch10 => panic
  | Epoch20 => special_concat_v200 args ic context
  | Epoch40 | Epoch41 => special_concat_v400 args ic context
  | _ => special_concat_v205 args ic context
  end.

(** *** [as-max-len?], [slice?], [replace-at?] *)

(** The type of a list that is shortened says so. *)
Definition shorten (expected_len : Z) (sequence : SequenceData) : TypeR SequenceData :=
  match sequence with
  | List_ data list_type =>
      list_type ← reduce_max_len list_type (expected_len mod 2 ^ 32);
      Ok (List_ data list_type)
  | _ => Ok sequence
  end.

Definition special_as_max_len args ic context : EM Value :=
  checking (check_argument_count 2 args);;
  match args with
  | [seq; len] =>
      sequence ← eval_clone seq ic context;
      charge ClarityCostFunction.AsMaxLen 0;;
      match match_literal_value len with
      | Some (UInt expected_len) =>
          sequence_data ← seq_arg sequence;
          if expected_len <? seq_len sequence_data then mret value_none
          else
            sequence_data ← typing (shorten expected_len sequence_data);
            typing (value_some (Sequence sequence_data))
      | _ =>
          actual_len ← eval I len ic context;
          t ← typing (type_of (as_ref actual_len));
          throw (RuntimeCheck (RC_TypeError UIntType t))
      end
  | _ => panic
  end.

(** The slice between two positions; [none] when they are not in the sequence *)
Definition slice_between (seq : Value) (left_position right_position : Value) : EM Value :=
  match seq, left_position, right_position with
  | Sequence seq, UInt left_position, UInt right_position =>
      match checked 0 u32_max left_position, checked 0 u32_max right_position with
      | Some left_position, Some right_position =>
          if (seq_len seq <=? left_position) || (seq_len seq <? right_position) then mret value_none
          else if right_position <? left_position then mret value_none
          else
            e ← epoch;
            element_size ← typing (charged_element_size e seq);
            slice_cost ← lift (expect_some
              (if charges_callable_type_size e
               then checked 0 u64_max ((right_position - left_position) * element_size)
               else checked 0 u32_max ((right_position - left_position) * element_size)));
            charge ClarityCostFunction.Slice slice_cost;;
            seq_value ← typing (slice e seq left_position right_position);
            typing (value_some seq_value)
      | _, _ => mret value_none
      end
  | _, _, _ => throw (unreachable "Bad type construction")
  end.

(** An error is charged for before it is returned. *)
Definition on_error {A} (m : EM A) (handler : EM unit) : EM A := fun st =>
  match m st with
  | (Err e, st) => (handler;; throw e) st
  | r => r
  end.

Definition special_slice args ic context : EM Value :=
  checking (check_argument_count 3 args);;
  match args with
  | [sequence; from; to] =>
      seq ← eval_clone sequence ic context;
      left_position ← eval I from ic context;
      right_position ← eval I to ic context;
      on_error (slice_between seq (as_ref left_position) (as_ref right_position))
        (charge ClarityCostFunction.Slice 0)
  | _ => panic
  end.

(** The replacement, once the arguments are evaluated *)
Definition replace_element (seq index_val new_element : ValueRef) (seq_type : TypeSignature)
    (expected_elem_type : TypeSignature) : EM Value :=
  e ← epoch;
  ok ← (if is_no_type expected_elem_type then mret true
        else typing (admits e expected_elem_type (as_ref new_element)));
  if negb ok then throw (type_value_error expected_elem_type (as_ref new_element))
  else
    match as_ref index_val with
    | UInt index_u128 =>
        match usize_index index_u128 with
        | None => mret value_none
        | Some index =>
            data ← clone_with_cost seq;
            match data with
            | Sequence data =>
                if seq_len data <=? index then mret value_none
                else
                  new_element ← clone_with_cost new_element;
                  typing (replace_at e data index new_element)
            | _ => throw (formatted_unreachable ("Expected sequence: " +:+ type_to_string seq_type))
            end
        end
    | v => throw (type_value_error UIntType v)
    end.

Definition special_replace_at args ic context : EM Value :=
  checking (check_argument_count 3 args);;
  match args with
  | [sequence; index; element] =>
      seq ← eval I sequence ic context;
      seq_type ← typing (type_of (as_ref seq));
      seq_size ← type_size_charged seq_type;
      charge ClarityCostFunction.ReplaceAt seq_size;;
      match seq_type with
      | SequenceType seq_subtype =>
          index_val ← eval I index ic context;
          new_element ← eval I element ic context;
          replace_element seq index_val new_element seq_type (unit_type seq_subtype)
      | _ => throw (formatted_unreachable ("Expected sequence: " +:+ type_to_string seq_type))
      end
  | _ => panic
  end.
End Forms.
