(* ===== verification/EvalRegimes.v ===== *)
(** * What an evaluation keeps

    An evaluation at a depth of at least [D] in epoch [e] works on the innermost
    context and does not leave the call stack lower than it found it
    ([eval_regime]). This file has the building blocks of the special forms:
    charging, lookups, access to the database, clean-ups, locals, and the two
    kinds of bracket, contexts that are opened and closed and frames that are
    pushed and removed. *)

From S2P Require Import Prelude.
From S2P Require Import Epochs.
From S2P Require Import Values.
From S2P Require Import Types.
From S2P Require Import RollbackStore.
From S2P Require Import NestedStore.
From S2P Require Import AssetMap.
From S2P Require Import VmErrors.
From S2P Require Import TypedValues.
From S2P Require Import Expressions.
From S2P Require Import Database.
From S2P Require Import STXLedger.
From S2P Require Import ContractData.
From S2P Require Import Contexts.
From S2P Require Import Contracts.
From S2P Require Import CostTables.
From S2P Require Import Costs.
From S2P Require Import CostFunctions.
From S2P Require Import TypeSyntax.
From S2P Require Import GlobalContext.
From S2P Require Import Regimes.
From S2P Require Import ExecutionState.
From S2P Require Import StoreRegimes.
From S2P Require Import SpecialForms.

(** What the evaluations of an epoch rely on. At-block evaluations move the
    database to another block; epochs that have none do not ask for anything
    of it. The node's handlers work in the context they are called in. *)
Class VmFrames (S : Type) `{VmLibraries} `{VmStore S} `{!StoreFrames S} (e : StacksEpochId) := {
  frames_ops :: StoreOps (store_regime (S := S));
  frames_set_block_hash bhh query : supports_at_block e = true ->
    runs store_regime (store_set_block_hash bhh query) (store_set_block_hash bhh query);
  frames_handler c h sender sponsor c' f args v :
    get_cc_special_cases_handler c = Some h -> confined_at e (h sender sponsor c' f args v);
}.

(** The number of applications in progress *)
Definition call_depth (c : CallStack) : Z := zlen (frames c) + apply_depth c.

(** [c'] has all the frames and applications of [c]. *)
Definition covers (c c' : CallStack) : Prop :=
  zlen (frames c) <= zlen (frames c') /\ apply_depth c <= apply_depth c'.

Section Eval.
Context `{VmLibraries} {S : Type} `{VmStore S} `{!StoreFrames S} (e : StacksEpochId) `{!VmFrames S e}.
Implicit Types (st : ExecutionState S) (D : Z).

Record advances st st' : Prop := {
  adv_context : innermost (global_context st) (global_context st');
  adv_stack : covers (call_stack st) (call_stack st');
}.

Definition eval_regime (D : Z) : Regime (ExecutionState S).
Proof.
  refine (mkRegime
    (fun st => epoch_id (global_context st) = e /\ D <= call_depth (call_stack st)) advances _ _ _).
  - intros st. split; [apply innermost_refl | by split].
  - intros x y z [? [? ?]] [? [? ?]]. split; [by eapply innermost_trans | split; lia].
  - intros x y [Hi [? ?]] [He ?]. unfold call_depth in *. destruct (in_chain _ _ Hi) as (_ & Heq & _).
    split; [congruence | lia].
Defined.

Lemma runs_deeper D D' {E A} (m m' : M (ExecutionState S) E A) :
  D <= D' -> runs (eval_regime D) m m' -> runs (eval_regime D') m m'.
Proof. intros HD. apply runs_weaken; [| done]. intros st [? ?]. split; [done | lia]. Qed.

Section Blocks.
Context (D : Z).
Abbreviation F := (eval_regime D).

(** ** State *)

Lemma runs_on_global {E A} (m : M (GlobalContext S) E A) :
  confined m -> runs F (zoom global_context set_global_context m) (zoom global_context set_global_context m).
Proof.
  intros Hm. apply (runs_zoom _ context_regime); [done | | by apply confined_runs].
  intros st g _ Hg. by split.
Qed.

Lemma runs_on_global_at {E A} (m m' : M (GlobalContext S) E A) :
  runs (epoch_regime e) m m' ->
  runs F (zoom global_context set_global_context m) (zoom global_context set_global_context m').
Proof. intros Hm. apply (runs_zoom _ (epoch_regime e)); [by intros st [] | by split | done]. Qed.

Lemma runs_on_db {A} (m : M S VmExecutionError A) :
  runs store_regime m m -> runs F (on_db m) (on_db m).
Proof. intros Hm. by apply runs_on_global, confined_runs, runs_on_database. Qed.

Lemma runs_on_chain {A} (f : DbEnv -> M S VmExecutionError A) :
  (forall env, runs store_regime (f env) (f env)) -> runs F (on_chain f) (on_chain f).
Proof. intros Hf. apply runs_on_db, runs_bind; [apply runs_get |]. intros s. apply Hf. Qed.

(** The epoch is the one of the regime. *)
Lemma runs_epoch {A} (k k' : StacksEpochId -> M (ExecutionState S) VmExecutionError A) :
  runs F (k e) (k' e) -> runs F (x ← epoch; k x) (x ← epoch; k' x).
Proof.
  intros Hk st Hst. specialize (Hk st Hst). destruct Hst as [He _].
  rewrite !(M_bind_eval epoch _ st (epoch_id (global_context st)) st), He by done. done.
Qed.

Lemma runs_costs {E A} (m : M LimitedCostTracker E A) :
  runs F (zoom global_context set_global_context (zoom cost_track set_cost_track m))
         (zoom global_context set_global_context (zoom cost_track set_cost_track m)).
Proof. apply runs_on_global, confined_costs. Qed.

Lemma runs_add_memory n : runs F (add_memory n) (add_memory n).
Proof. apply runs_costs. Qed.
Lemma runs_add_cost c : runs F (add_cost c) (add_cost c).
Proof. apply runs_costs. Qed.
Lemma runs_drop_memory n : runs F (drop_memory n) (drop_memory n).
Proof. apply runs_costs. Qed.
#[local] Hint Resolve runs_add_memory runs_add_cost runs_drop_memory : runs.

Lemma runs_charge c n : runs F (charge c n) (charge c n).
Proof. runs. Qed.
Lemma runs_reserve n : runs F (reserve n) (reserve n).
Proof. runs. Qed.
Lemma runs_release n : runs F (release n) (release n).
Proof. runs. Qed.
#[local] Hint Resolve runs_charge runs_reserve runs_release : runs.

(** ** Clean-ups and alternatives *)

Lemma finally_match {A} (m : M (ExecutionState S) VmExecutionError A) c st :
  finally m c st = match_result m (fun a => c;; mret a) (fun err => c;; throw err) st.
Proof.
  unfold finally, match_result, mbind, M_bind. destruct (m st) as [[a | err |] st1]; [| | done];
    by destruct (c st1) as [[] ?].
Qed.

Lemma runs_finally {A} (m m' : M (ExecutionState S) VmExecutionError A) c c' :
  runs F m m' -> runs F c c' -> runs F (finally m c) (finally m' c').
Proof.
  intros Hm Hc. eapply runs_ext; [apply finally_match .. |].
  apply runs_match; [done | |]; intros; (apply runs_bind; [done | runs]).
Qed.

Lemma runs_on_error {A} (m m' : M (ExecutionState S) VmExecutionError A) h h' :
  runs F m m' -> runs F h h' -> runs F (on_error m h) (on_error m' h').
Proof.
  intros Hm Hh. apply runs_ext with (match_result m mret (fun e => h;; throw e))
    (match_result m' mret (fun e => h';; throw e)).
  1, 2: intros st; unfold on_error, match_result; by destruct (_ st) as [[] ?].
  apply runs_match; [done | runs |]. intros. apply runs_bind; [done | runs].
Qed.

(** ** Locals *)

Definition locals_regime (L : Type) : Regime (ExecutionState S * L).
Proof.
  refine (mkRegime (fun p => pre F p.1) (fun p p' => rel F p.1 p'.1) _ _ _).
  - intros. apply rel_refl.
  - intros x y z. apply (rel_trans F).
  - intros x y. apply (rel_pre F).
Defined.

Lemma runs_outer {L A} (m m' : M (ExecutionState S) VmExecutionError A) :
  runs F m m' -> runs (locals_regime L) (zoom fst (fun st p => (st, p.2)) m) (zoom fst (fun st p => (st, p.2)) m').
Proof. intros Hm. by apply (runs_zoom _ F). Qed.

Lemma runs_modify_locals {L} (f : ExecutionState S * L -> L) :
  runs (locals_regime L) (modify (E := VmExecutionError) (fun p => (p.1, f p))) (modify (fun p => (p.1, f p))).
Proof. apply runs_modify. intros. apply (rel_refl F). Qed.

Lemma runs_set_locals l : runs (locals_regime Locals) (set_locals l) (set_locals l).
Proof. apply runs_modify_locals. Qed.

Lemma runs_with_locals {A} l (m m' : M (ExecutionState S * Locals) VmExecutionError A) c c' :
  runs (locals_regime Locals) m m' -> (forall l, runs F (c l) (c' l)) ->
  runs F (with_locals l m c) (with_locals l m' c').
Proof.
  intros Hm Hc st Hst. destruct (Hm (st, l) Hst) as [Heq Hr]. unfold with_locals. rewrite <- Heq.
  destruct (m (st, l)) as [[a | err |] [st1 l1]]; cbn in Hr; [| | by split]; specialize (Hr ltac:(done));
    destruct (Hc l1 st1 (rel_pre F _ _ Hr Hst)) as [<- Hr2];
    destruct (c l1 st1) as [[[] | err' |] st2]; split; try done; intros _;
    (eapply (rel_trans F); [done | by apply Hr2]).
Qed.

(** ** Contexts

    [closing m m'] run alike and close the context that was opened on the state
    [st0]. *)

Definition closing {A} (m m' : M (ExecutionState S) VmExecutionError A) : Prop :=
  forall st0 st, pre F st0 -> above (global_context st0) (global_context st) ->
    covers (call_stack st0) (call_stack st) ->
    m st = m' st /\ ((m st).1 <> Panic -> advances st0 (m st).2).

Lemma closing_global {A} (m : M (GlobalContext S) VmExecutionError A) :
  (forall g, closes g m) -> closing (on_global m) (on_global m).
Proof.
  intros Hm st0 st _ Ha Hc. split; [done |]. unfold on_global, zoom. specialize (Hm _ _ Ha).
  destruct (m _) as [r g]. cbn in *. intros Hp. split; [by apply Hm | done].
Qed.

Lemma closing_then {A B} (m m' : M (ExecutionState S) VmExecutionError A)
    (k k' : A -> M (ExecutionState S) VmExecutionError B) :
  closing m m' -> (forall a, runs F (k a) (k' a)) -> closing (x ← m; k x) (x ← m'; k' x).
Proof.
  intros Hm Hk st0 st Hst0 Ha Hc. destruct (Hm st0 st Hst0 Ha Hc) as [Heq Hr].
  unfold mbind, M_bind. rewrite <- Heq.
  destruct (m st) as [[a | err |] st1]; cbn in Hr; [| split; [done | by intros; apply Hr] | by split].
  specialize (Hr ltac:(done)). destruct (Hk a st1 (rel_pre F _ _ Hr Hst0)) as [Heq' Hr'].
  split; [done |]. intros Hp. eapply (rel_trans F); [done | by apply Hr'].
Qed.

(** Inside the context the regime goes on. *)
Lemma inside st0 st : pre F st0 -> above (global_context st0) (global_context st) ->
  covers (call_stack st0) (call_stack st) -> pre F st.
Proof.
  intros [He HD] [(am & b & ro & Ho) _] [? ?]. destruct (oo_chain _ _ _ _ _ Ho) as (_ & Heq & _).
  split; [congruence | unfold call_depth in *; lia].
Qed.

Lemma closing_match {G A B} (m m' : M (ExecutionState S) G A)
    (k k' : A -> M (ExecutionState S) VmExecutionError B) h h' :
  runs F m m' -> (forall a, closing (k a) (k' a)) -> (forall err, closing (h err) (h' err)) ->
  closing (match_result m k h) (match_result m' k' h').
Proof.
  intros Hm Hk Hh st0 st Hst0 Ha Hc. destruct (Hm st (inside _ _ Hst0 Ha Hc)) as [Heq Hr].
  unfold match_result. rewrite <- Heq.
  destruct (m st) as [[a | err |] st1]; cbn in Hr; [| | by split];
    destruct (Hr ltac:(done)) as [Hi [? ?]]; destruct Hc;
    (assert (covers (call_stack st0) (call_stack st1)) by (split; lia));
    pose proof (above_innermost _ _ _ Ha Hi); [by apply Hk | by apply Hh].
Qed.

Lemma closing_ext {A} (m n m' n' : M (ExecutionState S) VmExecutionError A) :
  (forall st, m st = n st) -> (forall st, m' st = n' st) -> closing n n' -> closing m m'.
Proof. intros Hm Hm' Hn st0 st. rewrite Hm, Hm'. by apply Hn. Qed.

Lemma closing_finally {A} (m m' : M (ExecutionState S) VmExecutionError A) c c' :
  runs F m m' -> closing c c' -> closing (finally m c) (finally m' c').
Proof.
  intros Hm Hc. eapply closing_ext; [apply finally_match .. |].
  apply closing_match; [done | |]; intros; (apply closing_then; [done | runs]).
Qed.

Lemma runs_open {A} (open : GlobalContext S -> GlobalContext S)
    (m m' : M (ExecutionState S) VmExecutionError A) :
  (forall g, above g (open g)) -> closing m m' ->
  runs F (on_global (modify open);; m) (on_global (modify open);; m').
Proof.
  intros Ho Hm st Hst. do 2 (erewrite M_bind_eval by done). apply Hm; [done | apply Ho | by split].
Qed.

(** A context has an asset map. *)
Lemma closing_asset_map {A} (k k' : AssetMap -> M (ExecutionState S) VmExecutionError A) :
  (forall am, closing (k am) (k' am)) ->
  closing (am ← on_global get_readonly_asset_map; k am) (am ← on_global get_readonly_asset_map; k' am).
Proof.
  intros Hk st0 st Hst0 Ha Hc. destruct Ha as [(am & b & ro & Ho) Hd].
  assert (on_global get_readonly_asset_map st = (Ok am, st)) as Heq.
  { destruct st as [[] ?], Ho as [Hm _ _ _]. cbn in Hm. subst. done. }
  rewrite !(M_bind_eval _ _ _ _ _ Heq). apply Hk; [done | | done]. split; [by eexists _, _, _ | done].
Qed.

Lemma closing_roll_back {A} (r : result VmExecutionError A) :
  closing (on_global gc_roll_back;; lift r) (on_global gc_roll_back;; lift r).
Proof. apply closing_then; [apply closing_global, closes_roll_back | runs]. Qed.
End Blocks.
End Eval.

#[export] Hint Resolve runs_add_memory runs_add_cost runs_drop_memory runs_charge runs_reserve
  runs_release runs_set_locals runs_modify_locals : runs.

Ltac runs_hook ::=
  lazymatch goal with
  | |- runs _ (STXLedger.on_db _) _ => apply runs_snap_db
  | |- runs _ (with_snapshot _ _ _) _ => apply runs_with_snapshot
  | |- confined _ => apply confined_runs
  | |- runs _ (on_database _) _ => apply runs_on_database
  | |- runs _ (mbind _ epoch) _ => apply runs_epoch
  | |- runs _ (on_global _) _ => apply runs_on_global
  | |- runs _ (ExecutionState.on_db _) _ => apply runs_on_db
  | |- runs _ (on_chain _) _ => apply runs_on_chain
  | |- runs _ (finally _ _) _ => apply runs_finally
  | |- runs _ (on_error _ _) _ => apply runs_on_error
  | |- runs _ (with_locals _ _ _) _ => apply runs_with_locals
  | |- runs _ (zoom fst _ _) _ => apply runs_outer
  | |- runs _ (outer _) _ => apply runs_outer
  end.

Section Lookups.
Context `{VmLibraries} {S : Type} `{VmStore S} `{!StoreFrames S} (e : StacksEpochId) `{!VmFrames S e} (D : Z).
Abbreviation F := (eval_regime (S := S) e D).

(** ** Frames *)

(** [c] takes at most one frame off the stack. *)
Record popped st st' : Prop := {
  pop_context : innermost (global_context st) (global_context st');
  pop_frames : zlen (frames (call_stack st)) <= zlen (frames (call_stack st')) + 1;
  pop_apply : apply_depth (call_stack st) <= apply_depth (call_stack st');
}.
Definition pops (c : M (ExecutionState S) VmExecutionError unit) : Prop :=
  forall st, epoch_id (global_context st) = e -> (c st).1 <> Panic -> popped st (c st).2.

Lemma pops_remove identifier track : pops (on_stack (stack_remove identifier track)).
Proof.
  intros st _ _. unfold on_stack, zoom, stack_remove.
  destruct st as [g [[| f l] t n]]; cbn; [split; [apply innermost_refl | cbn; lia ..] |].
  repeat case_match; simplify_eq; (split; [apply innermost_refl | cbn; rewrite ?zlen_cons; lia ..]).
Qed.

Lemma pops_release n c : pops c -> pops (release n;; c).
Proof.
  intros Hc st He. destruct (runs_release e (call_depth (call_stack st)) n st) as [_ Hr]; [by split |].
  unfold mbind, M_bind. destruct (release n st) as [[[] | err |] st1]; cbn in *; [| | done];
    destruct (Hr ltac:(done)) as [Hi [? ?]]; [| split; [done | lia ..]].
  destruct (in_chain _ _ Hi) as (_ & He' & _). intros Hp.
  destruct (Hc st1 ltac:(congruence) Hp) as [? ? ?]. split; [by eapply innermost_trans | lia ..].
Qed.

(** An application: a frame is pushed, and removed in the end. *)
Lemma runs_frame {A} identifier track (m m' : M (ExecutionState S) VmExecutionError A) c :
  runs (eval_regime e (D + 1)) m m' -> pops c ->
  runs F (on_stack (modify (stack_insert identifier track));; finally m c)
         (on_stack (modify (stack_insert identifier track));; finally m' c).
Proof.
  intros Hm Hc [g cs] [He HD]. set (st1 := mkExecutionState g (stack_insert identifier track cs)).
  change (finally m c st1 = finally m' c st1 /\
    ((finally m c st1).1 <> Panic -> advances (mkExecutionState g cs) (finally m c st1).2)).
  assert (zlen (frames (call_stack st1)) = zlen (frames cs) + 1) as Hf by (cbn; rewrite zlen_cons; lia).
  destruct (Hm st1) as [Heq Hr]; [split; [done | unfold call_depth in *; cbn in *; lia] |].
  unfold finally. rewrite <- Heq. destruct (m st1) as [[a | err |] st2]; cbn in Hr; [| | by split].
  all: destruct (Hr ltac:(done)) as [Hi [? ?]]; destruct (in_chain _ _ Hi) as (_ & He' & _).
  all: specialize (Hc st2 (eq_trans He' He)); destruct (c st2) as [[[] | err' |] st3]; split; try done; intros _.
  all: destruct (Hc ltac:(done)) as [? ? ?]; split; [by eapply innermost_trans | split; cbn in *; lia].
Qed.

(** ** Lookups *)

Lemma runs_clone r : runs F (clone_with_cost r) (clone_with_cost r).
Proof. destruct r; runs. Qed.
#[local] Hint Resolve runs_clone : runs.

Lemma runs_reserved variable ic : runs F (reserved_variable variable ic) (reserved_variable variable ic).
Proof. destruct variable; runs. Qed.
#[local] Hint Resolve runs_reserved : runs.

Lemma runs_lookup_variable_ref name ic context :
  runs F (ExecutionState.lookup_variable name ic context) (ExecutionState.lookup_variable name ic context).
Proof. runs. Qed.

Lemma runs_lookup_function name ic : runs F (lookup_function name ic) (lookup_function name ic).
Proof. runs. Qed.
End Lookups.
#[export] Hint Resolve runs_clone runs_lookup_variable_ref runs_lookup_function : runs.
