(* ===== verification/UserFunctions.v ===== *)
(** * Functions defined by contracts

    [DefinedFunction] of [clarity/src/vm/callables.rs]: the arguments of a call
    are cast, sanitized and checked against the parameters, then the body is
    evaluated; and the ways a function is called, as a transaction or not, in
    the contract it is called from or in another one ([contexts.rs]), or at an
    earlier block. *)

From S2P Require Import Prelude.
From S2P Require Import BoundedString.
From S2P Require Import BTree.
From S2P Require Import Epochs.
From S2P Require Import Values.
From S2P Require Import Types.
From S2P Require Import RollbackStore.
From S2P Require Import NestedStore.
From S2P Require Import C32.
From S2P Require Import Database.
From S2P Require Import Serialization.
From S2P Require Import VmErrors.
From S2P Require Import TypedValues.
From S2P Require Import Expressions.
From S2P Require Import ContractData.
From S2P Require Import Contexts.
From S2P Require Import Arithmetic.
From S2P Require Import Natives.
From S2P Require Import CostTables.
From S2P Require Import Costs.
From S2P Require Import Contracts.
From S2P Require Import CostFunctions.
From S2P Require Import GlobalContext.
From S2P Require Import ExecutionState.
From S2P Require Import SpecialForms.

(** ** Arguments *)

Section Arguments.
Context `{VmLibraries} (epoch : StacksEpochId).

Abbreviation VmR := (result VmExecutionError).

Definition sanitize_argument (expected : TypeSignature) (value : Value) : VmR Value :=
  match sanitize_value_or_return epoch expected value with
  | inl value => Ok value
  | inr value => Err (type_value_error expected value)
  end.

(** [implicit_cast_if_needed]; the recursive calls are [clarity2_implicit_cast],
    which keeps a value that no cast applies to. *)
Fixpoint implicit_cast_if_needed (type_sig : TypeSignature) (value : Value) {struct value}
    : VmR (option Value) :=
  let clarity2_implicit_cast t v := o ← implicit_cast_if_needed t v; Ok (default v o) in
  match type_sig, value with
  | OptionalType inner_type, Optional (Some inner_value) =>
      inner ← clarity2_implicit_cast inner_type inner_value;
      Ok (Some (Optional (Some inner)))
  | ResponseType ok_type err_type, Response committed data =>
      data ← clarity2_implicit_cast (if committed then ok_type else err_type) data;
      Ok (Some (Response committed data))
  | SequenceType (ListType list_type), Sequence (List_ data value_type) =>
      values ← (fix cast_items (items : list Value) : VmR (list Value) :=
                  match items with
                  | [] => Ok []
                  | elem :: items =>
                      v ← clarity2_implicit_cast (get_list_item_type list_type) elem;
                      vs ← cast_items items;
                      Ok (v :: vs)
                  end) data;
      max_len ← (if fixes_implicit_cast_list_bound epoch then map_err vm_from_type (list_len data)
                 else Ok (get_max_len value_type));
      cast_list_type_data ← map_err vm_from_type (new_list (get_list_item_type list_type) max_len);
      Ok (Some (Sequence (List_ values cast_list_type_data)))
  | TupleType tuple_type, Tuple (mkTuple _ data_map) =>
      cast_data_map ←
        (fix cast_fields (fields : list (ClarityName * Value)) : VmR (list (ClarityName * Value)) :=
           match fields with
           | [] => Ok []
           | (name, field_value) :: fields =>
               to_type ← ok_or (assoc name (get_type_map tuple_type)) (type_value_error type_sig value);
               v ← clarity2_implicit_cast to_type field_value;
               vs ← cast_fields fields;
               Ok ((name, v) :: vs)
           end) data_map;
      Ok (Some (Tuple (mkTuple tuple_type cast_data_map)))
  | CallableType (CallableTrait trait_identifier), CallableContract contract _ =>
      Ok (Some (CallableContract contract (Some trait_identifier)))
  | CallableType (CallableTrait trait_identifier), Principal (Contract contract) =>
      Ok (Some (CallableContract contract (Some trait_identifier)))
  | _, _ => Ok None
  end.

Definition argument_admitted (type_sig : TypeSignature) (value : Value) : VmR unit :=
  ok ← map_err vm_from_type (admits epoch type_sig value);
  if ok : bool then Ok tt else Err (type_value_error type_sig value).

(** A parameter is bound once. *)
Definition bind_once (name : ClarityName) (value : Value) (context : LocalContext) : VmR LocalContext :=
  if bool_decide (is_Some (lc_variables context !! name)) then Err (RuntimeCheck (RC_NameAlreadyUsed name))
  else Ok (insert_variable name value context).

(** Clarity 1: a contract passed for a trait can only be called. *)
Definition bind_argument_v1 (name : ClarityName) (type_sig : TypeSignature) (value : Value)
    (context : LocalContext) : VmR LocalContext :=
  let otherwise := argument_admitted type_sig value ≫= fun _ => bind_once name value context in
  match type_sig, value with
  | TraitReferenceType trait_identifier, Principal (Contract callee) =>
      if epoch_ltb epoch Epoch21
      then Ok (insert_callable name (mkCallableData callee (Some trait_identifier)) context)
      else otherwise
  | CallableType (CallableTrait trait_identifier), Principal (Contract callee) =>
      if epoch_leb Epoch21 epoch
      then Ok (insert_callable name (mkCallableData callee (Some trait_identifier)) context)
      else otherwise
  | CallableType (CallableTrait _), CallableContract contract trait_identifier =>
      Ok (insert_callable name (mkCallableData contract trait_identifier) context)
  | _, _ => otherwise
  end.

Definition cast_argument (type_sig : TypeSignature) (value : Value) : VmR Value :=
  let sanitize := sanitize_in_function_invocation epoch in
  cast ← implicit_cast_if_needed type_sig value;
  match cast with
  | Some cast_value =>
      if sanitize then
        r ← ok_or (sanitize_value epoch type_sig cast_value) (type_value_error type_sig value);
        Ok r.1
      else Ok cast_value
  | None => if sanitize then sanitize_argument type_sig value else Ok value
  end.

(** From Clarity 2 on *)
Definition bind_argument_v2 (name : ClarityName) (type_sig : TypeSignature) (value : Value)
    (context : LocalContext) : VmR LocalContext :=
  cast_value ← cast_argument type_sig value;
  context ← match type_sig, cast_value with
            | CallableType (CallableTrait _), CallableContract contract trait_identifier =>
                Ok (insert_callable name (mkCallableData contract trait_identifier) context)
            | _, _ => _ ← argument_admitted type_sig cast_value; Ok context
            end;
  bind_once name cast_value context.

Fixpoint bind_arguments (version : ClarityVersion) (parameters : list (ClarityName * TypeSignature))
    (args : list Value) (context : LocalContext) : VmR LocalContext :=
  match parameters, args with
  | (name, type_sig) :: parameters, value :: args =>
      context ← (if version_leb Clarity2 version then bind_argument_v2 name type_sig value context
                 else bind_argument_v1 name type_sig value context);
      bind_arguments version parameters args context
  | _, _ => Ok context
  end.

(** [DefinedFunction::check_trait_expectations] *)
Definition check_trait_expectations (f : DefinedFunction) (contract_defining_trait : ContractContext)
    (trait_identifier : TraitIdentifier) : VmR FunctionSignature :=
  let name := trait_name trait_identifier in
  constraining_trait ← ok_or (lookup_trait_definition contract_defining_trait name)
                         (RuntimeCheck (RC_TraitReferenceUnknown name));
  expected_sig ← ok_or (assoc (df_name f) constraining_trait)
                   (RuntimeCheck (RC_TraitMethodUnknown name (df_name f)));
  complies ← map_err vm_from_type (check_args_trait_compliance epoch expected_sig (df_arg_types f));
  if complies : bool then Ok expected_sig
  else Err (RuntimeCheck (RC_BadTraitImplementation name (df_name f))).
End Arguments.

(** ** Calls *)

Section Calls.
Context `{VmLibraries} {S : Type} `{VmStore S} (I : Interp S).
Implicit Types (args : list Value) (ic : InvocationContext).

Abbreviation EM := (M (ExecutionState S) VmExecutionError).

(** What is charged for checking the arguments *)
Fixpoint charge_sizes (sizes : list (TypeR Z)) : EM unit :=
  match sizes with
  | [] => mret tt
  | size :: sizes =>
      size ← typing size;
      charge ClarityCostFunction.InnerTypeCheckCost size;;
      charge_sizes sizes
  end.

(** The body. A reference is copied, and an early return is the value of the
    function. *)
Definition eval_body (f : DefinedFunction) ic (context : LocalContext) : EM Value := fun st =>
  match eval I (df_body f) ic context st with
  | (Ok r, st) => clone_with_cost r st
  | (Err (EarlyReturn (UnwrapFailed v)), st) | (Err (EarlyReturn (AssertionFailed v)), st) => (Ok v, st)
  | (Err e, st) => (Err e, st)
  | (Panic, st) => (Panic, st)
  end.

Definition execute_apply (f : DefinedFunction) args ic : EM Value :=
  charge ClarityCostFunction.UserFunctionApplication (zlen (df_arguments f));;
  e ← epoch;
  charge_sizes (if uses_arg_size_for_cost e then value_charged_size e <$> args
                else charged_size e <$> df_arg_types f);;
  ensure (zlen args =? zlen (df_arguments f))
    (RuntimeCheck (RC_IncorrectArgumentCount (zlen (df_arguments f)) (zlen args)));;
  context ← lift (bind_arguments e (ic_version ic) (zip (df_arguments f) (df_arg_types f)) args
                    LocalContext_new);
  eval_body f ic context.

(** [TypeSignature::type_of] in the message of [handle_tx_result] *)
Definition type_name (v : Value) : result VmExecutionError string :=
  t ← map_err vm_from_type (type_of v); Ok (type_to_string t).

(** The feature [devtools] is off. *)
Definition tx_result (r : result VmExecutionError Value) (allow_private : bool) : EM Value :=
  on_global (handle_tx_result false type_name r allow_private).

(** [ExecutionState::execute_function_as_transaction], in the contract
    [next_contract] *)
Definition call_as_transaction ic (f : DefinedFunction) args (next_contract : ContractContext)
    (allow_private : bool) : EM Value :=
  let make_read_only := df_is_read_only f in
  on_global (modify (if make_read_only then begin_read_only else begin_));;
  let function := execute_apply f args (with_contract_context ic next_contract) in
  if make_read_only then
    match_result function
      (fun v => on_global gc_roll_back;; mret v)
      (fun e => on_global gc_roll_back;; throw e)
  else
    match_result function
      (fun v => tx_result (Ok v) allow_private)
      (fun e => tx_result (Err e) allow_private).

(** [DefinedFunction::apply] *)
Definition function_apply (f : DefinedFunction) args ic : EM Value :=
  match define_type f with
  | Private => execute_apply f args ic
  | Public | ReadOnly => call_as_transaction ic f args (contract_context ic) false
  end.

(** *** Calls of other contracts *)

(** Arguments are sanitized at the types they have. *)
Fixpoint sanitize_args (e : StacksEpochId) args : result VmExecutionError (list Value) :=
  match args with
  | [] => Ok []
  | value :: args =>
      expected_type ← map_err vm_from_type (type_of value);
      value ← sanitize_argument e expected_type value;
      args ← sanitize_args e args;
      Ok (value :: args)
  end.

Definition circular (identifier : string) : VmExecutionError :=
  RuntimeCheck (RC_CircularReference [identifier]).

(** The frame of a function called in another contract, and the node's handler
    for its result *)
Definition call_in_contract ic (contract : ContractContext) (contract_identifier : QualifiedContractIdentifier)
    (func : DefinedFunction) (tx_name : string) args (allow_private : bool) : EM Value :=
  let func_identifier := df_identifier func in
  st ← get;
  ensure (negb (stack_contains func_identifier (call_stack st))) (circular func_identifier);;
  on_stack (modify (stack_insert func_identifier true));;
  value ← finally (call_as_transaction ic func args contract allow_private)
            (on_stack (stack_remove func_identifier true));
  match get_cc_special_cases_handler contract_identifier with
  | Some handler =>
      on_global (handler (ic_sender ic) (ic_sponsor ic) contract_identifier tx_name args value);;
      mret value
  | None => mret value
  end.

Definition check_visibility (func : DefinedFunction) (contract_identifier : QualifiedContractIdentifier)
    (tx_name : string) (read_only allow_private : bool) : result VmExecutionError unit :=
  if negb allow_private && negb (is_public func)
  then Err (RuntimeCheck (RC_NoSuchPublicFunction (contract_to_string contract_identifier) tx_name))
  else if read_only && negb (df_is_read_only func)
  then Err (formatted_unreachable ("Public function not read-only: " +:+
              contract_to_string contract_identifier +:+ " " +:+ tx_name))
  else Ok tt.

Definition inner_execute_contract ic (contract_identifier : QualifiedContractIdentifier) (tx_name : string)
    args (read_only allow_private : bool) : EM Value :=
  contract_size ← on_db (get_contract_size contract_identifier);
  charge ClarityCostFunction.LoadContract contract_size;;
  reserve contract_size;;
  finally
    (contract ← on_db (get_contract contract_identifier);
     func ← lift (ok_or (cc_lookup_function contract tx_name) (RuntimeCheck (RC_UndefinedFunction tx_name)));
     lift (check_visibility func contract_identifier tx_name read_only allow_private);;
     e ← epoch;
     args ← lift (sanitize_args e args);
     call_in_contract ic contract contract_identifier func tx_name args allow_private)
    (release contract_size).

Definition execute_contract ic contract_identifier tx_name args read_only : EM Value :=
  inner_execute_contract ic contract_identifier tx_name args read_only false.
Definition execute_contract_allow_private ic contract_identifier tx_name args read_only : EM Value :=
  inner_execute_contract ic contract_identifier tx_name args read_only true.
End Calls.
