(* ===== verification/ValueForms.v ===== *)
(** * Special forms on values

    Comparisons ([clarity/src/vm/functions/arithmetic.rs]), conversions
    ([conversions.rs]), principals ([principals.rs]) and signatures
    ([crypto.rs]) that evaluate their own arguments. *)

From S2P Require Import Prelude.
From S2P Require Import Bytes.
From S2P Require Import BoundedString.
From S2P Require Import BTree.
From S2P Require Import Epochs.
From S2P Require Import Values.
From S2P Require Import Types.
From S2P Require Import C32.
From S2P Require Import Serialization.
From S2P Require Import VmErrors.
From S2P Require Import TypedValues.
From S2P Require Import Expressions.
From S2P Require Import Deserialization.
From S2P Require Import Contexts.
From S2P Require Import Arithmetic.
From S2P Require Import Natives.
From S2P Require Import CostTables.
From S2P Require Import Costs.
From S2P Require Import Contracts.
From S2P Require Import CryptoNatives.
From S2P Require Import CostFunctions.
From S2P Require Import TypeSyntax.
From S2P Require Import GlobalContext.
From S2P Require Import ExecutionState.
From S2P Require Import SpecialForms.

(** ** Principals as tuples *)

(** [PrincipalConstructErrorCode] *)
Inductive PrincipalConstructErrorCode := VERSION_BYTE | BUFFER_LENGTH | CONTRACT_NAME.

Definition construct_error_code (e : PrincipalConstructErrorCode) : Z :=
  match e with VERSION_BYTE => 0 | BUFFER_LENGTH => 1 | CONTRACT_NAME => 2 end.

Definition CONTRACT_MIN_NAME_LENGTH : Z := 1.
Definition CONTRACT_NAME_STRING_ASCII_MAX : TypeSignature :=
  SequenceType (StringType (ASCII CONTRACT_MAX_NAME_LENGTH)).

Section Principals.
Context `{VmLibraries}.

Abbreviation VmR := (result VmExecutionError).

Definition version_matches_mainnet (version : Z) : bool :=
  (version =? C32_ADDRESS_VERSION_MAINNET_MULTISIG) || (version =? C32_ADDRESS_VERSION_MAINNET_SINGLESIG).
Definition version_matches_testnet (version : Z) : bool :=
  (version =? C32_ADDRESS_VERSION_TESTNET_MULTISIG) || (version =? C32_ADDRESS_VERSION_TESTNET_SINGLESIG).

Definition version_matches_current_network (version : Z) (context_is_mainnet : bool) : bool :=
  version_matches_mainnet version && context_is_mainnet
  || version_matches_testnet version && negb context_is_mainnet.

Definition tuple_failure : VmExecutionError := expect_error "FAIL: Failed to initialize tuple.".
Definition response_failure : VmExecutionError := expect_error "FAIL: Failed to initialize (err ..) response".

(** [Value::from(ASCIIData::from(name))] *)
Definition name_value (name : ContractName) : Value := Sequence (String_ (CharASCII (as_bytes name))).

Definition create_principal_destruct_tuple (version : Z) (hash_bytes : list Z) (name_opt : option ContractName)
    : VmR Value :=
  t ← map_err (fun _ => tuple_failure)
        (tuple_from_data
           [("version", Sequence (Buffer [version]));
            ("hash-bytes", Sequence (Buffer hash_bytes));
            ("name", Optional (name_value <$> name_opt))]);
  Ok (Tuple t).

Definition create_principal_true_error_response (error_int : PrincipalConstructErrorCode) : VmR Value :=
  t ← map_err (fun _ => tuple_failure)
        (tuple_from_data [("error_code", UInt (construct_error_code error_int)); ("value", value_none)]);
  map_err (fun _ => response_failure) (value_error (Tuple t)).

Definition create_principal_value_error_response (error_int : PrincipalConstructErrorCode) (value : Value)
    : VmR Value :=
  some_value ← map_err (fun _ => expect_error "Unexpected problem creating Value.") (value_some value);
  t ← map_err (fun _ => tuple_failure)
        (tuple_from_data [("error_code", UInt (construct_error_code error_int)); ("value", some_value)]);
  map_err (fun _ => response_failure) (value_error (Tuple t)).

(** The version of a principal, [PrincipalData::version] *)
Definition principal_version (p : PrincipalData) : Z :=
  match p with Standard p => spd_version p | Contract c => spd_version (issuer c) end.

(** [principal-destruct?] on its argument *)
Definition destruct_principal (epoch : StacksEpochId) (context_is_mainnet : bool) (principal : Value) : VmR Value :=
  '(version_byte, hash_bytes, name_opt) ←
    match principal with
    | Principal (Standard p) => Ok (spd_version p, spd_bytes p, None)
    | Principal (Contract c) =>
        if enforces_contract_name_length_limit epoch
           && (CONTRACT_MAX_NAME_LENGTH <? Z.of_nat (String.length (contract_name c)))
        then Err (type_value_error CONTRACT_NAME_STRING_ASCII_MAX (name_value (contract_name c)))
        else Ok (spd_version (issuer c), spd_bytes (issuer c), Some (contract_name c))
    | _ => Err (type_value_error PrincipalType principal)
    end;
  tuple ← create_principal_destruct_tuple version_byte hash_bytes name_opt;
  Ok (Response (version_matches_current_network version_byte context_is_mainnet) tuple).

(** The steps of [principal-construct?]. The first component of a [sum] is the
    value that the form returns at once. *)
Definition construct_version (version : Value) : VmR (Value + Z) :=
  match version with
  | Sequence (Buffer []) => e ← create_principal_true_error_response BUFFER_LENGTH; Ok (inl e)
  | Sequence (Buffer [version_byte]) =>
      if 32 <=? version_byte
      then e ← create_principal_true_error_response BUFFER_LENGTH; Ok (inl e)
      else Ok (inr version_byte)
  | _ => Err (type_value_error (BUFFER 1) version)
  end.

Definition construct_hash (hash_bytes : Value) : VmR (Value + list Z) :=
  match hash_bytes with
  | Sequence (Buffer data) =>
      if 20 <? zlen data then Err (type_value_error (BUFFER 20) hash_bytes)
      else if zlen data <? 20
      then e ← create_principal_true_error_response BUFFER_LENGTH; Ok (inl e)
      else Ok (inr data)
  | _ => Err (type_value_error (BUFFER 20) hash_bytes)
  end.

Definition construct_name (name : Value) : VmR (Value + ContractName) :=
  match name with
  | Sequence (String_ (CharASCII data)) =>
      if zlen data <? CONTRACT_MIN_NAME_LENGTH
      then e ← create_principal_true_error_response CONTRACT_NAME; Ok (inl e)
      else if CONTRACT_MAX_NAME_LENGTH <? zlen data
      then Err (type_value_error CONTRACT_NAME_STRING_ASCII_MAX name)
      else
        match utf8_chars data with
        | None => Err (expect_error "FAIL: could not convert bytes of type (string-ascii 40) back to a UTF-8 string")
        | Some _ =>
            if is_contract_name data then Ok (inr (string_of_bytes data))
            else e ← create_principal_true_error_response CONTRACT_NAME; Ok (inl e)
        end
  | _ => Err (type_value_error CONTRACT_NAME_STRING_ASCII_MAX name)
  end.

(** The response, in the [err] case when the version is of another network *)
Definition construct_response (version_byte : Z) (context_is_mainnet : bool) (principal : PrincipalData)
    : VmR Value :=
  if version_matches_current_network version_byte context_is_mainnet
  then map_err (fun _ => expect_error "FAIL: failed to build an (ok ..) response")
         (value_okay (Principal principal))
  else create_principal_value_error_response VERSION_BYTE (Principal principal).
End Principals.

Section Forms.
Context `{VmLibraries} {S : Type} `{VmStore S} (I : Interp S).
Implicit Types (args : list SymbolicExpression) (ic : InvocationContext) (context : LocalContext).

Abbreviation EM := (M (ExecutionState S) VmExecutionError).

Definition on_mainnet : EM bool := st ← get; mret (mainnet (global_context st)).

(** ** [arithmetic.rs] *)

Definition compare_v1 (op : CompareOp) (cost : ClarityCostFunction.t) args ic context : EM Value :=
  checking (check_argument_count 2 args);;
  match args with
  | [x; y] =>
      a ← eval I x ic context;
      b ← eval I y ic context;
      charge cost (zlen args);;
      lift (type_force_binary_comparison_v1 op (as_ref a) (as_ref b))
  | _ => panic
  end.

Definition compare_v2 (op : CompareOp) (cost : ClarityCostFunction.t) args ic context : EM Value :=
  checking (check_argument_count 2 args);;
  match args with
  | [x; y] =>
      a ← eval I x ic context;
      b ← eval I y ic context;
      a_size ← size_charged (as_ref a);
      b_size ← size_charged (as_ref b);
      charge cost (Z.min a_size b_size);;
      lift (type_force_binary_comparison_v2 op (as_ref a) (as_ref b))
  | _ => panic
  end.

Definition compare (op : CompareOp) (cost : ClarityCostFunction.t) args ic context : EM Value :=
  if version_leb Clarity2 (ic_version ic) then compare_v2 op cost args ic context
  else compare_v1 op cost args ic context.

Definition special_geq : list SymbolicExpression -> InvocationContext -> LocalContext -> EM Value :=
  compare Geq ClarityCostFunction.Geq.
Definition special_leq : list SymbolicExpression -> InvocationContext -> LocalContext -> EM Value :=
  compare Leq ClarityCostFunction.Leq.
Definition special_greater : list SymbolicExpression -> InvocationContext -> LocalContext -> EM Value :=
  compare Greater ClarityCostFunction.Ge.
Definition special_less : list SymbolicExpression -> InvocationContext -> LocalContext -> EM Value :=
  compare Less ClarityCostFunction.Le.

(** ** [conversions.rs] *)

Definition special_to_ascii args ic context : EM Value :=
  checking (check_argument_count 1 args);;
  match args with
  | [arg] =>
      value ← eval I arg ic context;
      value_size ← size_charged (as_ref value);
      charge ClarityCostFunction.ToAscii value_size;;
      lift (to_ascii (as_ref value))
  | _ => panic
  end.

Definition from_consensus_buff args ic context : EM Value :=
  checking (check_argument_count 2 args);;
  match args with
  | [type_sexp; arg] =>
      e ← epoch;
      type_arg ← mmap_err vm_from_common (parse_type_repr e type_sexp);
      value ← eval I arg ic context;
      match as_ref value with
      | Sequence (Buffer input_bytes) =>
          charge ClarityCostFunction.FromConsensusBuff
            (if protects_logn_cost_fn (ic_version ic) then Z.max (zlen input_bytes) 1 else zlen input_bytes);;
          lift (from_consensus_bytes e type_arg input_bytes)
      | v => throw (type_value_error BUFFER_MAX v)
      end
  | _ => panic
  end.

(** ** [principals.rs] *)

Definition special_is_standard args ic context : EM Value :=
  checking (check_argument_count 1 args);;
  charge ClarityCostFunction.IsStandard 0;;
  match args with
  | [arg] =>
      owner ← eval I arg ic context;
      match as_ref owner with
      | Principal p =>
          is_mainnet ← on_mainnet;
          mret (Bool (version_matches_current_network (principal_version p) is_mainnet))
      | v => throw (type_value_error PrincipalType v)
      end
  | _ => panic
  end.

Definition special_principal_destruct args ic context : EM Value :=
  checking (check_argument_count 1 args);;
  charge ClarityCostFunction.PrincipalDestruct 0;;
  match args with
  | [arg] =>
      principal ← eval_clone I arg ic context;
      e ← epoch;
      is_mainnet ← on_mainnet;
      lift (destruct_principal e is_mainnet principal)
  | _ => panic
  end.

(** Go on unless the form returns here. *)
Definition or_return {A} (r : result VmExecutionError (Value + A)) (k : A -> EM Value) : EM Value :=
  x ← lift r; match x with inl v => mret v | inr a => k a end.

Definition special_principal_construct args ic context : EM Value :=
  checking (check_arguments_at_least 2 args);;
  checking (check_arguments_at_most 3 args);;
  charge ClarityCostFunction.PrincipalConstruct 0;;
  match args with
  | version_sexp :: hash_sexp :: rest =>
      version ← eval I version_sexp ic context;
      hash_bytes ← eval I hash_sexp ic context;
      name_opt ← match rest with
                 | name_sexp :: _ => name ← eval I name_sexp ic context; mret (Some name)
                 | [] => mret None
                 end;
      or_return (construct_version (as_ref version)) (fun version_byte =>
      or_return (construct_hash (as_ref hash_bytes)) (fun bytes =>
      is_mainnet ← on_mainnet;
      principal_data ← lift (map_err (fun _ => expect_error "Unexpected principal data")
                               (StandardPrincipalData_new version_byte bytes));
      match name_opt with
      | Some name =>
          name ← clone_with_cost name;
          or_return (construct_name name) (fun contract_name =>
          lift (construct_response version_byte is_mainnet
                  (Contract (mkQualifiedContract principal_data contract_name))))
      | None => lift (construct_response version_byte is_mainnet (Standard principal_data))
      end))
  | _ => panic
  end.

(** ** [crypto.rs] *)

Definition special_principal_of args ic context : EM Value :=
  checking (check_argument_count 1 args);;
  charge ClarityCostFunction.PrincipalOf 0;;
  match args with
  | [arg] =>
      param0 ← eval I arg ic context;
      is_mainnet ← on_mainnet;
      lift (principal_of (ic_version ic) is_mainnet (as_ref param0))
  | _ => panic
  end.

Definition special_secp256k1_recover args ic context : EM Value :=
  checking (check_argument_count 2 args);;
  charge ClarityCostFunction.Secp256k1recover 0;;
  match args with
  | [arg0; arg1] =>
      param0 ← eval I arg0 ic context;
      message ← lift (expect_array 32 (as_ref param0));
      param1 ← eval I arg1 ic context;
      signature ← lift (recoverable_signature (as_ref param1));
      lift (recover_key message signature)
  | _ => panic
  end.

Definition special_secp256k1_verify args ic context : EM Value :=
  checking (check_argument_count 3 args);;
  charge ClarityCostFunction.Secp256k1verify 0;;
  match args with
  | [arg0; arg1; arg2] =>
      param0 ← eval I arg0 ic context;
      message ← lift (expect_array 32 (as_ref param0));
      param1 ← eval I arg1 ic context;
      signature ← lift (compact_signature (as_ref param1));
      match signature with
      | None => mret (Bool false)
      | Some signature =>
          param2 ← eval I arg2 ic context;
          pubkey ← lift (expect_array 33 (as_ref param2));
          mret (Bool (secp256k1_verify message signature pubkey))
      end
  | _ => panic
  end.

Definition special_secp256r1_verify args ic context : EM Value :=
  checking (check_argument_count 3 args);;
  charge ClarityCostFunction.Secp256r1verify 0;;
  match args with
  | [arg0; arg1; arg2] =>
      message_value ← eval I arg0 ic context;
      message ← lift (expect_array 32 (as_ref message_value));
      signature_value ← eval I arg1 ic context;
      signature ← lift (r1_signature (as_ref signature_value));
      match signature with
      | None => mret (Bool false)
      | Some signature =>
          pubkey_value ← eval I arg2 ic context;
          pubkey ← lift (expect_array 33 (as_ref pubkey_value));
          mret (Bool (verify_r1 (ic_version ic) message signature pubkey))
      end
  | _ => panic
  end.
End Forms.
