(* ===== verification/DatabaseForms.v ===== *)
(** * Special forms on the database

    [clarity/src/vm/functions/database.rs]: the variables and maps of a
    contract, calls of other contracts, evaluation at an earlier block, and
    what is known of blocks and contracts. *)

From S2P Require Import Prelude.
From S2P Require Import Bytes.
From S2P Require Import BoundedString.
From S2P Require Import BTree.
From S2P Require Import Epochs.
From S2P Require Import Values.
From S2P Require Import Types.
From S2P Require Import RollbackStore.
From S2P Require Import NestedStore.
From S2P Require Import C32.
From S2P Require Import Database.
From S2P Require Import VmErrors.
From S2P Require Import TypedValues.
From S2P Require Import Expressions.
From S2P Require Import ContractData.
From S2P Require Import Contexts.
From S2P Require Import Arithmetic.
From S2P Require Import Natives.
From S2P Require Import CostTables.
From S2P Require Import Costs.
From S2P Require Import Contracts.
From S2P Require Import BlockInfo.
From S2P Require Import CostFunctions.
From S2P Require Import GlobalContext.
From S2P Require Import ExecutionState.
From S2P Require Import SpecialForms.
From S2P Require Import UserFunctions.

Section Forms.
Context `{VmLibraries} {S : Type} `{VmStore S} (I : Interp S).
Implicit Types (args : list SymbolicExpression) (ic : InvocationContext) (context : LocalContext).

Abbreviation EM := (M (ExecutionState S) VmExecutionError).
Abbreviation Form := (list SymbolicExpression -> InvocationContext -> LocalContext -> EM Value).

(** [switch_on_global_epoch!] *)
Definition switch_on_global_epoch (v200 v205 : Form) : Form := fun args ic context =>
  e ← epoch;
  match e with
  | Epoch10 => panic
  | Epoch20 => v200 args ic context
  | _ => v205 args ic context
  end.

Definition this_contract ic : QualifiedContractIdentifier := cc_identifier (contract_context ic).

(** [if exec_state.global_context.is_read_only() { return Err(..) }] *)
Definition ensure_writable : EM unit :=
  st ← get;
  ensure (negb (is_read_only (global_context st))) (unreachable "Write attempted in read-only").

Definition var_types ic (var_name : ClarityName) : EM DataVariableMetadata :=
  lift (ok_or (meta_data_var (contract_context ic) !! var_name)
          (formatted_unreachable ("No such data variable: " +:+ var_name))).

Definition map_types ic (map_name : ClarityName) : EM DataMapMetadata :=
  lift (ok_or (meta_data_map (contract_context ic) !! map_name)
          (formatted_unreachable ("No such map: " +:+ map_name))).

(** The size of an entry by its types *)
Definition entry_size (data_types : DataMapMetadata) : EM Z :=
  value_size ← type_size_charged (dm_value_type data_types);
  key_size ← type_size_charged (dm_key_type data_types);
  costing (cost_overflow_add value_size key_size).

(** Charge for what was read or written, or, when that failed, for what could
    have been. *)
Definition charge_result (cost : ClarityCostFunction.t) (op : EM ValueResult) (failed_size : EM Z)
    (in_memory : bool) : EM Value :=
  let charge_size size := charge cost size;; (if in_memory then reserve size else mret tt) in
  match_result op
    (fun data => charge_size (serialized_byte_len data);; mret (vr_value data))
    (fun e => size ← failed_size; charge_size size;; throw e).

Definition reserve_value (v : Value) : EM unit :=
  e ← epoch; use ← costing (get_memory_use e v); reserve use.

(** ** Variables *)

Definition special_fetch_variable_v200 args ic context : EM Value :=
  checking (check_argument_count 1 args);;
  match args with
  | [name] =>
      var_name ← name_arg name;
      data_types ← var_types ic var_name;
      size ← type_size_charged (dv_value_type data_types);
      charge ClarityCostFunction.FetchVar size;;
      e ← epoch;
      on_db (ContractData.lookup_variable (this_contract ic) var_name data_types e)
  | _ => panic
  end.

Definition special_fetch_variable_v205 args ic context : EM Value :=
  checking (check_argument_count 1 args);;
  match args with
  | [name] =>
      var_name ← name_arg name;
      data_types ← var_types ic var_name;
      e ← epoch;
      charge_result ClarityCostFunction.FetchVar
        (on_db (lookup_variable_with_size (this_contract ic) var_name data_types e))
        (type_size_charged (dv_value_type data_types)) false
  | _ => panic
  end.

Definition special_fetch_variable : Form :=
  switch_on_global_epoch special_fetch_variable_v200 special_fetch_variable_v205.

Definition special_set_variable_v200 args ic context : EM Value :=
  ensure_writable;;
  checking (check_argument_count 2 args);;
  match args with
  | [name; val] =>
      value ← eval I val ic context;
      var_name ← name_arg name;
      data_types ← var_types ic var_name;
      size ← type_size_charged (dv_value_type data_types);
      charge ClarityCostFunction.SetVar size;;
      reserve_value (as_ref value);;
      value ← clone_with_cost value;
      e ← epoch;
      data ← on_db (set_variable (this_contract ic) var_name value data_types e);
      mret (vr_value data)
  | _ => panic
  end.

Definition special_set_variable_v205 args ic context : EM Value :=
  ensure_writable;;
  checking (check_argument_count 2 args);;
  match args with
  | [name; val] =>
      value ← eval I val ic context;
      var_name ← name_arg name;
      data_types ← var_types ic var_name;
      value ← clone_with_cost value;
      e ← epoch;
      charge_result ClarityCostFunction.SetVar
        (on_db (set_variable (this_contract ic) var_name value data_types e))
        (type_size_charged (dv_value_type data_types)) true
  | _ => panic
  end.

Definition special_set_variable : Form :=
  switch_on_global_epoch special_set_variable_v200 special_set_variable_v205.

(** ** Maps *)

Definition special_fetch_entry_v200 args ic context : EM Value :=
  checking (check_argument_count 2 args);;
  match args with
  | [name; key_sexp] =>
      map_name ← name_arg name;
      key ← eval I key_sexp ic context;
      data_types ← map_types ic map_name;
      size ← entry_size data_types;
      charge ClarityCostFunction.FetchEntry size;;
      e ← epoch;
      on_db (fetch_entry (this_contract ic) map_name (as_ref key) data_types e)
  | _ => panic
  end.

Definition special_fetch_entry_v205 args ic context : EM Value :=
  checking (check_argument_count 2 args);;
  match args with
  | [name; key_sexp] =>
      map_name ← name_arg name;
      key ← eval I key_sexp ic context;
      data_types ← map_types ic map_name;
      e ← epoch;
      charge_result ClarityCostFunction.FetchEntry
        (on_db (fetch_entry_with_size (this_contract ic) map_name (as_ref key) data_types e))
        (entry_size data_types) false
  | _ => panic
  end.

Definition special_fetch_entry : Form :=
  switch_on_global_epoch special_fetch_entry_v200 special_fetch_entry_v205.

(** [map-set] and [map-insert] differ in the operation on the database. *)
Abbreviation PlaceEntry :=
  (QualifiedContractIdentifier -> string -> Value -> Value -> DataMapMetadata -> StacksEpochId ->
   M S VmExecutionError ValueResult).

Definition place_entry_v200 (place : PlaceEntry) args ic context : EM Value :=
  ensure_writable;;
  checking (check_argument_count 3 args);;
  match args with
  | [name; key_sexp; val] =>
      key ← eval I key_sexp ic context;
      value ← eval I val ic context;
      map_name ← name_arg name;
      data_types ← map_types ic map_name;
      size ← entry_size data_types;
      charge ClarityCostFunction.SetEntry size;;
      reserve_value (as_ref key);;
      reserve_value (as_ref value);;
      key ← clone_with_cost key;
      value ← clone_with_cost value;
      e ← epoch;
      data ← on_db (place (this_contract ic) map_name key value data_types e);
      mret (vr_value data)
  | _ => panic
  end.

Definition place_entry_v205 (place : PlaceEntry) args ic context : EM Value :=
  ensure_writable;;
  checking (check_argument_count 3 args);;
  match args with
  | [name; key_sexp; val] =>
      key ← eval I key_sexp ic context;
      value ← eval I val ic context;
      map_name ← name_arg name;
      data_types ← map_types ic map_name;
      key ← clone_with_cost key;
      value ← clone_with_cost value;
      e ← epoch;
      charge_result ClarityCostFunction.SetEntry
        (on_db (place (this_contract ic) map_name key value data_types e))
        (entry_size data_types) true
  | _ => panic
  end.

Definition special_set_entry_v200 : Form := place_entry_v200 set_entry.
Definition special_set_entry_v205 : Form := place_entry_v205 set_entry.
Definition special_insert_entry_v200 : Form := place_entry_v200 insert_entry.
Definition special_insert_entry_v205 : Form := place_entry_v205 insert_entry.

Definition special_set_entry : Form :=
  switch_on_global_epoch special_set_entry_v200 special_set_entry_v205.
Definition special_insert_entry : Form :=
  switch_on_global_epoch special_insert_entry_v200 special_insert_entry_v205.

Definition special_delete_entry_v200 args ic context : EM Value :=
  ensure_writable;;
  checking (check_argument_count 2 args);;
  match args with
  | [name; key_sexp] =>
      key ← eval I key_sexp ic context;
      map_name ← name_arg name;
      data_types ← map_types ic map_name;
      size ← type_size_charged (dm_key_type data_types);
      charge ClarityCostFunction.SetEntry size;;
      reserve_value (as_ref key);;
      e ← epoch;
      data ← on_db (delete_entry (this_contract ic) map_name (as_ref key) data_types e);
      mret (vr_value data)
  | _ => panic
  end.

Definition special_delete_entry_v205 args ic context : EM Value :=
  ensure_writable;;
  checking (check_argument_count 2 args);;
  match args with
  | [name; key_sexp] =>
      key ← eval I key_sexp ic context;
      map_name ← name_arg name;
      data_types ← map_types ic map_name;
      e ← epoch;
      charge_result ClarityCostFunction.SetEntry
        (on_db (delete_entry (this_contract ic) map_name (as_ref key) data_types e))
        (type_size_charged (dm_key_type data_types)) true
  | _ => panic
  end.

Definition special_delete_entry : Form :=
  switch_on_global_epoch special_delete_entry_v200 special_delete_entry_v205.

(** ** Evaluation at an earlier block *)

Definition AT_BLOCK_MEMORY : Z := 1.

(** The block is set back whether or not the evaluation fails. *)
Definition evaluate_at_block (bhh : list Z) (closure : SymbolicExpression) ic context : EM ValueRef :=
  on_global (modify begin_read_only);;
  finally
    (prior_bhh ← on_db (db_set_block_hash bhh false);
     finally (eval I closure ic context)
       (mmap_err (fun _ => expect_error
            "ERROR: Failed to restore prior active block after time-shifted evaluation.")
          (on_db (db_set_block_hash prior_bhh true));;
        mret tt))
    (on_global gc_roll_back).

Definition special_at_block args ic context : EM Value :=
  e ← epoch;
  ensure (supports_at_block e) (RuntimeCheck RC_AtBlockUnavailable);;
  checking (check_argument_count 2 args);;
  charge ClarityCostFunction.AtBlock 0;;
  match args with
  | [block; closure] =>
      value ← eval I block ic context;
      match as_ref value with
      | Sequence (Buffer data) =>
          if negb (zlen data =? 32) then throw (vm_from_runtime (RE_BadBlockHash data))
          else
            reserve AT_BLOCK_MEMORY;;
            finally
              (r ← evaluate_at_block data closure ic context; clone_with_cost r)
              (release AT_BLOCK_MEMORY)
      | v => throw (type_value_error (BUFFER 32) v)
      end
  | _ => panic
  end.

(** ** Calls of other contracts *)

Fixpoint eval_call_arguments (args : list SymbolicExpression) ic context : EM (list Value) :=
  match args with
  | [] => mret []
  | arg :: args =>
      v ← eval_clone I arg ic context;
      vs ← eval_call_arguments args ic context;
      mret (v :: vs)
  end.

(** A constant that holds the principal of a contract *)
Definition constant_callable (e : StacksEpochId) ic (contract_ref : ClarityName) : option CallableData :=
  match cc_variables (contract_context ic) !! contract_ref with
  | Some (Principal (Contract contract_identifier)) =>
      if supports_callables (ic_version ic) && supports_call_with_constant e
         && negb (is_deploying (contract_context ic))
      then Some (mkCallableData contract_identifier None)
      else None
  | _ => None
  end.

Definition load_contract (contract_identifier : QualifiedContractIdentifier) : EM ContractContext :=
  mmap_err (fun _ => RuntimeCheck (RC_NoSuchContract (contract_to_string contract_identifier)))
    (on_db (get_contract contract_identifier)).

(** The checks of a call through a trait, and the type the trait promises of its
    result *)
Definition dynamic_dispatch (contract_identifier : QualifiedContractIdentifier)
    (trait_identifier : TraitIdentifier) (function_name : ClarityName) ic : EM (option TypeSignature) :=
  ensure (negb (bool_decide (contract_identifier = this_contract ic)))
    (RuntimeCheck (RC_CircularReference [contract_name contract_identifier]));;
  contract_to_check ← load_contract contract_identifier;
  if is_explicitly_implementing_trait contract_to_check trait_identifier then mret None
  else
    e ← epoch;
    contract_defining_trait ←
      (if supports_local_trait_lookup e
          && bool_decide (trait_contract trait_identifier = this_contract ic)
       then mret (contract_context ic)
       else load_contract (trait_contract trait_identifier));
    function_to_check ← lift (ok_or (cc_lookup_function contract_to_check function_name)
        (RuntimeCheck (RC_BadTraitImplementation (trait_name trait_identifier) function_name)));
    st ← get;
    ensure (negb (is_read_only (global_context st)))
      (unreachable "Trait based contract call in read-only");;
    ensure (negb (bool_decide (define_type function_to_check = Private)))
      (RuntimeCheck (RC_NoSuchPublicFunction (contract_to_string contract_identifier) function_name));;
    expected_sig ← lift (check_trait_expectations e function_to_check contract_defining_trait
                           trait_identifier);
    mret (Some (sig_returns expected_sig)).

Definition call_target (target : SymbolicExpression) (function_name : ClarityName) ic context
    : EM (QualifiedContractIdentifier * option TypeSignature) :=
  match target with
  | LiteralValue (Principal (Contract contract_identifier)) => mret (contract_identifier, None)
  | Atom contract_ref =>
      e ← epoch;
      let callable := match constant_callable e ic contract_ref with
                      | Some d => Some d
                      | None => lookup_callable_contract context contract_ref
                      end in
      match callable with
      | Some (mkCallableData contract_identifier None) => mret (contract_identifier, None)
      | Some (mkCallableData contract_identifier (Some trait_identifier)) =>
          returns ← dynamic_dispatch contract_identifier trait_identifier function_name ic;
          mret (contract_identifier, returns)
      | None => throw (RuntimeCheck RC_ContractCallExpectName)
      end
  | _ => throw (RuntimeCheck RC_ContractCallExpectName)
  end.

(** The result of the trait's function has the type the trait promises. *)
Definition check_returns (returns : option TypeSignature) (result : Value) : EM unit :=
  match returns with
  | None => mret tt
  | Some returns_type_signature =>
      actual_returns ← typing (type_of result);
      e ← epoch;
      admitted ← typing (admits_type e returns_type_signature actual_returns);
      ensure admitted (RuntimeCheck (RC_ReturnTypesMustMatch returns_type_signature actual_returns))
  end.

Definition special_contract_call args ic context : EM Value :=
  checking (check_arguments_at_least 2 args);;
  charge ClarityCostFunction.ContractCall 0;;
  match args with
  | target :: name :: rest_args =>
      function_name ← name_arg name;
      rest_args ← eval_call_arguments rest_args ic context;
      call ← call_target target function_name ic context;
      let '(contract_identifier, type_returns_constraint) := call in
      result ← execute_contract I (with_caller ic (Contract (this_contract ic))) contract_identifier
                 function_name rest_args false;
      result_type ← typing (type_of result);
      e ← epoch;
      sanitized ← lift (ok_or (sanitize_value e result_type result)
                          (RuntimeCheck RC_CouldNotDetermineType));
      check_returns type_returns_constraint sanitized.1;;
      mret sanitized.1
  | _ => panic
  end.

(** ** Blocks *)

Definition CHAIN_ID_TESTNET : Z := 0x80000000.

Definition height_arg (e : SymbolicExpression) ic context : EM (option Z) :=
  v ← eval I e ic context;
  match as_ref v with
  | UInt height => mret (if height <=? 0xffffffff then Some height else None)
  | v => throw (type_value_error UIntType v)
  end.

(** [?] on a height that is not there returns [none]. *)
Definition at_height (height : option Z) (k : Z -> EM Value) : EM Value :=
  match height with Some h => k h | None => mret value_none end.

(** Blocks from the current one on are not known. *)
Definition before_tip (height : Z) (k : EM Value) : EM Value :=
  current_block_height ← get_current_block_height;
  if current_block_height <=? height then mret value_none else k.

Definition some_value (v : Value) : EM Value := typing (value_some v).
Definition some_uint (m : EM Z) : EM Value := n ← m; some_value (UInt n).
Definition some_buffer (m : EM (list Z)) : EM Value := b ← m; some_value (Sequence (Buffer b)).
Definition optional_value {A} (f : A -> Value) (m : EM (option A)) : EM Value :=
  o ← m; match o with Some x => some_value (f x) | None => mret value_none end.

(** [interpret_height_as_tenure_height] and what follows *)
Definition block_height_of (height : Z) ic : EM (option Z) :=
  st ← get;
  let g := global_context st in
  if negb (version_leb Clarity3 (ic_version ic)) && (epoch_id g >= Epoch30)%epoch
     && negb (chain_id g =? CHAIN_ID_TESTNET)
  then on_chain (fun env => get_block_height_for_tenure_height env height)
  else mret (Some height).

Definition block_info (prop : BlockInfoProperty.t) (height : Z) : EM Value :=
  match prop with
  | BlockInfoProperty.Time => some_uint (on_chain (fun env => get_burn_block_time env height None))
  | BlockInfoProperty.VrfSeed => some_buffer (on_chain (fun env => get_block_vrf_seed env height))
  | BlockInfoProperty.HeaderHash => some_buffer (on_chain (fun env => get_block_header_hash env height))
  | BlockInfoProperty.BurnchainHeaderHash =>
      some_buffer (on_chain (fun env => get_burnchain_block_header_hash env height))
  | BlockInfoProperty.IdentityHeaderHash =>
      some_buffer (on_chain (fun env => index_block_header_hash env height))
  | BlockInfoProperty.MinerAddress =>
      p ← on_chain (fun env => get_miner_address env height); some_value (Principal (Standard p))
  | BlockInfoProperty.MinerSpendWinner =>
      some_uint (on_chain (fun env => get_miner_spend_winner env height))
  | BlockInfoProperty.MinerSpendTotal => some_uint (on_chain (fun env => get_miner_spend_total env height))
  | BlockInfoProperty.BlockReward => optional_value UInt (on_chain (fun env => get_block_reward env height))
  end.

Definition special_get_block_info args ic context : EM Value :=
  charge ClarityCostFunction.BlockInfo 0;;
  checking (check_argument_count 2 args);;
  match args with
  | [name; height] =>
      let no_property := unreachable "Get block info expect property name" in
      property_name ← lift (ok_or (match_atom name) no_property);
      prop ← lift (ok_or (lookup_by_name_at_version property_name (ic_version ic)) no_property);
      height ← height_arg height ic context;
      at_height height (fun height =>
        height ← block_height_of height ic;
        at_height height (fun height => before_tip height (block_info prop height)))
  | _ => panic
  end.

Definition pox_addrs_value (r : list TupleData * Z) : EM Value :=
  let '(addrs, payout) := r in
  e ← epoch;
  addrs ← mmap_err (fun _ => expect_error "FATAL: could not convert address list to Value")
            (typing (cons_list (Tuple <$> addrs) e));
  t ← mmap_err (fun _ => expect_error "FATAL: failed to build pox addrs and payout tuple")
        (typing (tuple_from_data [("addrs", addrs); ("payout", UInt payout)]));
  mmap_err (fun _ => expect_error "FATAL: could not build Some(..)") (some_value (Tuple t)).

Definition burn_block_info (prop : BurnBlockInfoProperty.t) (height : Z) : EM Value :=
  match prop with
  | BurnBlockInfoProperty.HeaderHash =>
      optional_value (fun h => Sequence (Buffer h))
        (on_chain (fun env => get_burnchain_block_header_hash_for_burnchain_height env height))
  | BurnBlockInfoProperty.PoxAddrs =>
      o ← on_chain (fun env => get_pox_payout_addrs_for_burnchain_height env height);
      match o with Some r => pox_addrs_value r | None => mret value_none end
  end.

Definition special_get_burn_block_info args ic context : EM Value :=
  charge ClarityCostFunction.GetBurnBlockInfo 0;;
  checking (check_argument_count 2 args);;
  match args with
  | [name; height] =>
      property_name ← lift (ok_or (match_atom name) (unreachable "Get block info expect property name"));
      prop ← lift (ok_or (lookup_by_name property_name)
               (formatted_unreachable ("No such burn block info property: " +:+ property_name)));
      height ← height_arg height ic context;
      at_height height (burn_block_info prop)
  | _ => panic
  end.

Definition stacks_block_info (prop : StacksBlockInfoProperty.t) (height : Z) : EM Value :=
  match prop with
  | StacksBlockInfoProperty.Time => some_uint (on_chain (fun env => get_block_time env height))
  | StacksBlockInfoProperty.HeaderHash => some_buffer (on_chain (fun env => get_block_header_hash env height))
  | StacksBlockInfoProperty.IndexHeaderHash =>
      some_buffer (on_chain (fun env => index_block_header_hash env height))
  end.

Definition special_get_stacks_block_info args ic context : EM Value :=
  charge ClarityCostFunction.BlockInfo 0;;
  checking (check_argument_count 2 args);;
  match args with
  | [name; height] =>
      property_name ← lift (ok_or (match_atom name)
                        (unreachable "Get stacks block info expect property name"));
      prop ← lift (ok_or (lookup_by_name property_name)
               (formatted_unreachable ("No such stacks block info property: " +:+ property_name)));
      height ← height_arg height ic context;
      at_height height (fun height => before_tip height (stacks_block_info prop height))
  | _ => panic
  end.

Definition tenure_info (prop : TenureInfoProperty.t) (height : Z) : EM Value :=
  match prop with
  | TenureInfoProperty.Time => some_uint (on_chain (fun env => get_burn_block_time env height None))
  | TenureInfoProperty.VrfSeed => some_buffer (on_chain (fun env => get_block_vrf_seed env height))
  | TenureInfoProperty.BurnchainHeaderHash =>
      some_buffer (on_chain (fun env => get_burnchain_block_header_hash env height))
  | TenureInfoProperty.MinerAddress =>
      p ← on_chain (fun env => get_miner_address env height); some_value (Principal (Standard p))
  | TenureInfoProperty.MinerSpendWinner =>
      some_uint (on_chain (fun env => get_miner_spend_winner env height))
  | TenureInfoProperty.MinerSpendTotal => some_uint (on_chain (fun env => get_miner_spend_total env height))
  | TenureInfoProperty.BlockReward => optional_value UInt (on_chain (fun env => get_block_reward env height))
  end.

Definition special_get_tenure_info args ic context : EM Value :=
  charge ClarityCostFunction.BlockInfo 0;;
  checking (check_argument_count 2 args);;
  match args with
  | [name; height] =>
      let no_property := unreachable "Get tenure info expect property name" in
      property_name ← lift (ok_or (match_atom name) no_property);
      prop ← lift (ok_or (lookup_by_name property_name) no_property);
      height ← height_arg height ic context;
      at_height height (fun height => before_tip height (tenure_info prop height))
  | _ => panic
  end.

Definition special_contract_hash args ic context : EM Value :=
  checking (check_argument_count 1 args);;
  match args with
  | [contract_expr] =>
      contract_value ← eval I contract_expr ic context;
      match as_ref contract_value with
      | Principal (Standard _) => mret (err_uint 1)
      | Principal (Contract contract_identifier) =>
          charge ClarityCostFunction.ContractHash 0;;
          o ← on_db (get_contract_hash contract_identifier);
          match o with
          | None => mret (err_uint 2)
          | Some contract_hash => b ← typing (buff_from contract_hash); typing (value_okay b)
          end
      | v => throw (RuntimeCheck (RC_ExpectedContractPrincipalValue (to_error_string v)))
      end
  | _ => panic
  end.
End Forms.
