(* ===== verification/AssetForms.v ===== *)
(** * Special forms on assets

    [clarity/src/vm/functions/assets.rs]: STX, fungible and non-fungible
    tokens. What a form does once its arguments are values is a definition of
    its own; the versions of Stacks 2.0 and 2.05 differ in the size they charge
    for a non-fungible token. *)

From S2P Require Import Prelude.
From S2P Require Import Bytes.
From S2P Require Import BTree.
From S2P Require Import Epochs.
From S2P Require Import Values.
From S2P Require Import Types.
From S2P Require Import RollbackStore.
From S2P Require Import NestedStore.
From S2P Require Import C32.
From S2P Require Import STXBalance.
From S2P Require Import Database.
From S2P Require Import STXLedger.
From S2P Require Import AssetMap.
From S2P Require Import Serialization.
From S2P Require Import VmErrors.
From S2P Require Import TypedValues.
From S2P Require Import Expressions.
From S2P Require Import ContractData.
From S2P Require Import Contexts.
From S2P Require Import Arithmetic.
From S2P Require Import Natives.
From S2P Require Import CostTables.
From S2P Require Import Costs.
From S2P Require Import Contracts.
From S2P Require Import CostFunctions.
From S2P Require Import GlobalContext.
From S2P Require Import ExecutionState.
From S2P Require Import SpecialForms.
From S2P Require Import DatabaseForms.

(** ** Error codes *)

Definition MINT_ALREADY_EXIST : Z := 1.
Definition MINT_NON_POSITIVE_AMOUNT : Z := 1.
Definition ASSET_NOT_OWNED_BY : Z := 1.
Definition ASSET_SENDER_IS_RECIPIENT : Z := 2.
Definition ASSET_DOES_NOT_EXIST : Z := 3.
Definition TOKEN_NOT_ENOUGH_BALANCE : Z := 1.
Definition TOKEN_SENDER_IS_RECIPIENT : Z := 2.
Definition TOKEN_NON_POSITIVE_AMOUNT : Z := 3.
Definition BURN_NOT_OWNED_BY : Z := 1.
Definition BURN_DOES_NOT_EXIST : Z := 3.
Definition BURN_NOT_ENOUGH_BALANCE_OR_NON_POSITIVE : Z := 1.

Section Forms.
Context `{VmLibraries} {S : Type} `{VmStore S} (I : Interp S).
Implicit Types (args : list SymbolicExpression) (ic : InvocationContext) (context : LocalContext).

Abbreviation EM := (M (ExecutionState S) VmExecutionError).
Abbreviation on_db := ExecutionState.on_db.

(** [clarity_ecode!] *)
Definition clarity_ecode (thing : Z) : EM Value := mret (err_uint thing).

Definition asset_identifier ic (asset_name : ClarityName) : AssetIdentifier :=
  mkAssetIdentifier (this_contract ic) asset_name.

Definition token_arg (e : SymbolicExpression) : EM ClarityName :=
  lift (ok_or (match_atom e) (unreachable "Bad token name")).

Definition ft_types ic (token_name : ClarityName) : EM FungibleTokenMetadata :=
  lift (ok_or (meta_ft (contract_context ic) !! token_name)
          (formatted_unreachable ("No such FT: " +:+ token_name))).

Definition nft_types ic (asset_name : ClarityName) : EM NonFungibleTokenMetadata :=
  lift (ok_or (meta_nft (contract_context ic) !! asset_name)
          (formatted_unreachable ("No such NFT: " +:+ asset_name))).

(** ** STX *)

(** What happens in a snapshot of the balance of [p] *)
Definition in_snapshot {A} (p : PrincipalData) (m : DbEnv -> SnapM S A) : EM A :=
  on_chain (fun env => with_snapshot env p (m env)).

Definition special_stx_balance args ic context : EM Value :=
  checking (check_argument_count 1 args);;
  charge ClarityCostFunction.StxBalance 0;;
  match args with
  | [owner] =>
      owner ← eval I owner ic context;
      match as_ref owner with
      | Principal principal =>
          balance ← in_snapshot principal get_available_balance;
          mret (UInt balance)
      | v => throw (type_value_error PrincipalType v)
      end
  | _ => panic
  end.

(** [stx_transfer_consolidated] with the chain as the database sees it *)
Definition transfer_stx ic (from to : PrincipalData) (amount : Z) (memo : list Z) : EM Value :=
  st ← get;
  on_global (stx_transfer_consolidated (chain_env (database (global_context st))) event_value_size
               ic from to amount memo).

Definition special_stx_transfer args ic context : EM Value :=
  checking (check_argument_count 3 args);;
  charge ClarityCostFunction.StxTransfer 0;;
  match args with
  | [amount; from; to] =>
      amount_val ← eval I amount ic context;
      from_val ← eval I from ic context;
      to_val ← eval I to ic context;
      match as_ref from_val, as_ref to_val, as_ref amount_val with
      | Principal from, Principal to, UInt amount => transfer_stx ic from to amount []
      | _, _, _ => throw (unreachable "Bad transfer STX args")
      end
  | _ => panic
  end.

Definition special_stx_transfer_memo args ic context : EM Value :=
  checking (check_argument_count 4 args);;
  charge ClarityCostFunction.StxTransferMemo 0;;
  match args with
  | [amount; from; to; memo] =>
      amount_val ← eval I amount ic context;
      from_val ← eval I from ic context;
      to_val ← eval I to ic context;
      memo_val ← eval I memo ic context;
      match as_ref from_val, as_ref to_val, as_ref amount_val, as_ref memo_val with
      | Principal from, Principal to, UInt amount, Sequence (Buffer memo) =>
          transfer_stx ic from to amount memo
      | _, _, _, _ => throw (unreachable "Bad transfer STX args")
      end
  | _ => panic
  end.

Definition account_tuple (unlocked locked unlock_height : Z) : EM Value :=
  t ← typing (tuple_from_data [("unlocked", UInt unlocked); ("locked", UInt locked);
                               ("unlock-height", UInt unlock_height)]);
  mret (Tuple t).

Definition special_stx_account args ic context : EM Value :=
  checking (check_argument_count 1 args);;
  charge ClarityCostFunction.StxGetAccount 0;;
  match args with
  | [owner] =>
      owner ← eval I owner ic context;
      match as_ref owner with
      | Principal principal =>
          stx_balance ← in_snapshot principal canonical_balance_repr;
          heights ← on_chain (fun env => get_unlock_heights env);
          let '(v1, v2, v3, v4) := heights in
          account_tuple (amount_unlocked stx_balance) (amount_locked stx_balance)
            (effective_unlock_height v1 v2 v3 v4 stx_balance)
      | v => throw (type_value_error PrincipalType v)
      end
  | _ => panic
  end.

(** The burner's snapshot is open from the check to the saved debit. *)
Definition check_and_burn (from : PrincipalData) (amount : Z) : EM bool :=
  in_snapshot from (fun env =>
    ok ← can_transfer env amount;
    if ok : bool then debit env amount;; save;; mret true else mret false).

Definition burn_stx ic (from : PrincipalData) (amount : Z) : EM Value :=
  if amount =? 0 then clarity_ecode NON_POSITIVE_AMOUNT
  else if bool_decide (Some from <> ic_sender ic) then clarity_ecode SENDER_IS_NOT_TX_SENDER
  else
    reserve PRINCIPAL_SIZE;;
    reserve (Z.of_nat unlocked_and_v1_size);;
    done ← check_and_burn from amount;
    if done : bool then
      on_db (decrement_ustx_liquid_supply amount);;
      on_global (log_stx_burn from amount);;
      on_global (register_stx_burn_event event_value_size from amount);;
      mret okay_true
    else clarity_ecode NOT_ENOUGH_BALANCE.

Definition special_stx_burn args ic context : EM Value :=
  checking (check_argument_count 2 args);;
  charge ClarityCostFunction.StxTransfer 0;;
  match args with
  | [amount; from] =>
      amount_val ← eval I amount ic context;
      from_val ← eval I from ic context;
      match as_ref from_val, as_ref amount_val with
      | Principal from, UInt amount => burn_stx ic from amount
      | _, _ => throw (unreachable "Bad transfer STX args")
      end
  | _ => panic
  end.

(** ** Fungible tokens *)

Definition mint_ft ic (token_name : ClarityName) (amount : Z) (to_principal : PrincipalData) : EM Value :=
  if amount =? 0 then clarity_ecode MINT_NON_POSITIVE_AMOUNT
  else
    ft_info ← ft_types ic token_name;
    on_db (checked_increase_token_supply (this_contract ic) token_name amount ft_info);;
    to_bal ← on_db (get_ft_balance (this_contract ic) token_name to_principal (Some ft_info));
    final_to_bal ← lift (ok_or (u128_checked_add to_bal amount) (expect_error "STX overflow"));
    reserve PRINCIPAL_SIZE;;
    reserve INT_SIZE;;
    on_db (set_ft_balance (this_contract ic) token_name to_principal final_to_bal);;
    on_global (register_ft_mint_event event_value_size to_principal amount (asset_identifier ic token_name));;
    mret okay_true.

Definition special_mint_token args ic context : EM Value :=
  checking (check_argument_count 3 args);;
  charge ClarityCostFunction.FtMint 0;;
  match args with
  | [name; amount; to] =>
      token_name ← token_arg name;
      amount ← eval I amount ic context;
      to ← eval I to ic context;
      match as_ref amount, as_ref to with
      | UInt amount, Principal to_principal => mint_ft ic token_name amount to_principal
      | _, _ => throw (unreachable "Bad mint FT args")
      end
  | _ => panic
  end.

Definition transfer_ft ic (token_name : ClarityName) (amount : Z) (from_principal to_principal : PrincipalData)
    : EM Value :=
  if amount =? 0 then clarity_ecode TOKEN_NON_POSITIVE_AMOUNT
  else if bool_decide (from_principal = to_principal) then clarity_ecode TOKEN_SENDER_IS_RECIPIENT
  else
    ft_info ← ft_types ic token_name;
    from_bal ← on_db (get_ft_balance (this_contract ic) token_name from_principal (Some ft_info));
    if from_bal <? amount then clarity_ecode TOKEN_NOT_ENOUGH_BALANCE
    else
      let final_from_bal := from_bal - amount in
      to_bal ← on_db (get_ft_balance (this_contract ic) token_name to_principal (Some ft_info));
      final_to_bal ← lift (ok_or (u128_checked_add to_bal amount) (vm_from_runtime RE_ArithmeticOverflow));
      reserve PRINCIPAL_SIZE;;
      reserve PRINCIPAL_SIZE;;
      reserve INT_SIZE;;
      reserve INT_SIZE;;
      on_db (set_ft_balance (this_contract ic) token_name from_principal final_from_bal);;
      on_db (set_ft_balance (this_contract ic) token_name to_principal final_to_bal);;
      on_global (log_token_transfer from_principal (this_contract ic) token_name amount);;
      on_global (register_ft_transfer_event event_value_size from_principal to_principal amount
                   (asset_identifier ic token_name));;
      mret okay_true.

Definition special_transfer_token args ic context : EM Value :=
  checking (check_argument_count 4 args);;
  charge ClarityCostFunction.FtTransfer 0;;
  match args with
  | [name; amount; from; to] =>
      token_name ← token_arg name;
      amount ← eval I amount ic context;
      from ← eval I from ic context;
      to ← eval I to ic context;
      match as_ref amount, as_ref from, as_ref to with
      | UInt amount, Principal from_principal, Principal to_principal =>
          transfer_ft ic token_name amount from_principal to_principal
      | _, _, _ => throw (unreachable "Bad transfer FT args")
      end
  | _ => panic
  end.

Definition special_get_balance args ic context : EM Value :=
  checking (check_argument_count 2 args);;
  charge ClarityCostFunction.FtBalance 0;;
  match args with
  | [name; owner] =>
      token_name ← token_arg name;
      owner ← eval I owner ic context;
      match as_ref owner with
      | Principal principal =>
          ft_info ← ft_types ic token_name;
          balance ← on_db (get_ft_balance (this_contract ic) token_name principal (Some ft_info));
          mret (UInt balance)
      | v => throw (type_value_error PrincipalType v)
      end
  | _ => panic
  end.

Definition special_get_token_supply args ic context : EM Value :=
  checking (check_argument_count 1 args);;
  charge ClarityCostFunction.FtSupply 0;;
  match args with
  | [name] =>
      token_name ← token_arg name;
      supply ← on_db (get_ft_supply (this_contract ic) token_name);
      mret (UInt supply)
  | _ => panic
  end.

Definition burn_ft ic (token_name : ClarityName) (amount : Z) (burner : PrincipalData) : EM Value :=
  if amount =? 0 then clarity_ecode BURN_NOT_ENOUGH_BALANCE_OR_NON_POSITIVE
  else
    burner_bal ← on_db (get_ft_balance (this_contract ic) token_name burner None);
    if burner_bal <? amount then clarity_ecode BURN_NOT_ENOUGH_BALANCE_OR_NON_POSITIVE
    else
      on_db (checked_decrease_token_supply (this_contract ic) token_name amount);;
      let final_burner_bal := burner_bal - amount in
      on_db (set_ft_balance (this_contract ic) token_name burner final_burner_bal);;
      on_global (register_ft_burn_event event_value_size burner amount (asset_identifier ic token_name));;
      reserve PRINCIPAL_SIZE;;
      reserve INT_SIZE;;
      on_global (log_token_transfer burner (this_contract ic) token_name amount);;
      mret okay_true.

Definition special_burn_token args ic context : EM Value :=
  checking (check_argument_count 3 args);;
  charge ClarityCostFunction.FtBurn 0;;
  match args with
  | [name; amount; from] =>
      token_name ← token_arg name;
      amount ← eval I amount ic context;
      from ← eval I from ic context;
      match as_ref amount, as_ref from with
      | UInt amount, Principal burner => burn_ft ic token_name amount burner
      | _, _ => throw (unreachable "Bad burn FT args")
      end
  | _ => panic
  end.

(** ** Non-fungible tokens *)

(** What is charged for an asset: in Stacks 2.0 by its type, then by its
    serialization. *)
Definition AssetSize := TypeSignature -> Value -> EM Z.
Definition asset_size_v200 : AssetSize := fun expected_asset_type _ => type_size_charged expected_asset_type.
Definition asset_size_v205 : AssetSize := fun _ asset =>
  lift (map_err (fun e => expect_error (serialization_error_to_string e)) (serialized_size asset)).

(** Charge for the asset, and check that it is one. *)
Definition charge_asset (size_of : AssetSize) (cost : ClarityCostFunction.t) (asset_type : TypeSignature)
    (asset : Value) : EM Z :=
  asset_size ← size_of asset_type asset;
  charge cost asset_size;;
  e ← epoch;
  admitted ← typing (admits e asset_type asset);
  ensure admitted (type_value_error asset_type asset);;
  mret asset_size.

(** [get_nft_owner], [None] when there is no such token *)
Definition owner_of ic (asset_name : ClarityName) (asset : Value) (asset_type : TypeSignature)
    : EM (option PrincipalData) :=
  match_result (on_db (get_nft_owner (this_contract ic) asset_name asset asset_type))
    (fun owner => mret (Some owner))
    (fun e => match e with Runtime RE_NoSuchToken _ => mret None | _ => throw e end).

Definition set_owner ic (asset_name : ClarityName) (asset : Value) (owner : PrincipalData)
    (asset_type : TypeSignature) : EM unit :=
  e ← epoch; on_db (set_nft_owner (this_contract ic) asset_name asset owner asset_type e).

Definition mint_nft ic (asset_name : ClarityName) (asset : ValueRef) (asset_type : TypeSignature)
    (asset_size : Z) (to_principal : PrincipalData) : EM Value :=
  owner ← owner_of ic asset_name (as_ref asset) asset_type;
  match owner with
  | Some _ => clarity_ecode MINT_ALREADY_EXIST
  | None =>
      reserve PRINCIPAL_SIZE;;
      reserve asset_size;;
      set_owner ic asset_name (as_ref asset) to_principal asset_type;;
      asset ← clone_with_cost asset;
      on_global (register_nft_mint_event event_value_size to_principal asset (asset_identifier ic asset_name));;
      mret okay_true
  end.

Definition mint_asset (size_of : AssetSize) args ic context : EM Value :=
  checking (check_argument_count 3 args);;
  match args with
  | [name; asset; to] =>
      asset_name ← token_arg name;
      asset ← eval I asset ic context;
      to ← eval I to ic context;
      nft_metadata ← nft_types ic asset_name;
      let expected_asset_type := nft_key_type nft_metadata in
      asset_size ← charge_asset size_of ClarityCostFunction.NftMint expected_asset_type (as_ref asset);
      match as_ref to with
      | Principal to_principal => mint_nft ic asset_name asset expected_asset_type asset_size to_principal
      | v => throw (type_value_error PrincipalType v)
      end
  | _ => panic
  end.

Definition transfer_nft ic (asset_name : ClarityName) (asset : ValueRef) (asset_type : TypeSignature)
    (asset_size : Z) (from_principal to_principal : PrincipalData) : EM Value :=
  if bool_decide (from_principal = to_principal) then clarity_ecode ASSET_SENDER_IS_RECIPIENT
  else
    owner ← owner_of ic asset_name (as_ref asset) asset_type;
    match owner with
    | None => clarity_ecode ASSET_DOES_NOT_EXIST
    | Some current_owner =>
        if negb (bool_decide (current_owner = from_principal)) then clarity_ecode ASSET_NOT_OWNED_BY
        else
          reserve PRINCIPAL_SIZE;;
          reserve asset_size;;
          set_owner ic asset_name (as_ref asset) to_principal asset_type;;
          asset ← clone_with_cost asset;
          on_global (log_asset_transfer from_principal (this_contract ic) asset_name asset);;
          on_global (register_nft_transfer_event event_value_size from_principal to_principal asset
                       (asset_identifier ic asset_name));;
          mret okay_true
    end.

Definition transfer_asset (size_of : AssetSize) args ic context : EM Value :=
  checking (check_argument_count 4 args);;
  match args with
  | [name; asset; from; to] =>
      asset_name ← token_arg name;
      asset ← eval I asset ic context;
      from ← eval I from ic context;
      to ← eval I to ic context;
      nft_metadata ← nft_types ic asset_name;
      let expected_asset_type := nft_key_type nft_metadata in
      asset_size ← charge_asset size_of ClarityCostFunction.NftTransfer expected_asset_type (as_ref asset);
      match as_ref from, as_ref to with
      | Principal from_principal, Principal to_principal =>
          transfer_nft ic asset_name asset expected_asset_type asset_size from_principal to_principal
      | _, _ => throw (unreachable "Bad transfer NFT args")
      end
  | _ => panic
  end.

Definition get_owner (size_of : AssetSize) args ic context : EM Value :=
  checking (check_argument_count 2 args);;
  match args with
  | [name; asset] =>
      asset_name ← token_arg name;
      asset ← eval I asset ic context;
      nft_metadata ← nft_types ic asset_name;
      let expected_asset_type := nft_key_type nft_metadata in
      charge_asset size_of ClarityCostFunction.NftOwner expected_asset_type (as_ref asset);;
      owner ← owner_of ic asset_name (as_ref asset) expected_asset_type;
      match owner with
      | Some owner =>
          mmap_err (fun _ => expect_error "Principal should always fit in optional.")
            (typing (value_some (Principal owner)))
      | None => mret value_none
      end
  | _ => panic
  end.

Definition burn_owned_nft ic (asset_name : ClarityName) (asset : ValueRef) (asset_type : TypeSignature)
    (asset_size : Z) (sender_principal : PrincipalData) : EM Value :=
  owner ← owner_of ic asset_name (as_ref asset) asset_type;
  match owner with
  | None => clarity_ecode BURN_DOES_NOT_EXIST
  | Some owner =>
      if negb (bool_decide (owner = sender_principal)) then clarity_ecode BURN_NOT_OWNED_BY
      else
        reserve PRINCIPAL_SIZE;;
        reserve asset_size;;
        e ← epoch;
        on_db (burn_nft (this_contract ic) asset_name (as_ref asset) asset_type e);;
        asset ← clone_with_cost asset;
        on_global (log_asset_transfer sender_principal (this_contract ic) asset_name asset);;
        on_global (register_nft_burn_event event_value_size sender_principal asset
                     (asset_identifier ic asset_name));;
        mret okay_true
  end.

(** A burn is charged for twice, first at no size. *)
Definition burn_asset (size_of : AssetSize) args ic context : EM Value :=
  checking (check_argument_count 3 args);;
  charge ClarityCostFunction.NftBurn 0;;
  match args with
  | [name; asset; sender] =>
      asset_name ← token_arg name;
      asset ← eval I asset ic context;
      sender ← eval I sender ic context;
      nft_metadata ← nft_types ic asset_name;
      let expected_asset_type := nft_key_type nft_metadata in
      asset_size ← charge_asset size_of ClarityCostFunction.NftBurn expected_asset_type (as_ref asset);
      match as_ref sender with
      | Principal sender_principal =>
          burn_owned_nft ic asset_name asset expected_asset_type asset_size sender_principal
      | v => throw (type_value_error PrincipalType v)
      end
  | _ => panic
  end.

Definition special_mint_asset :=
  switch_on_global_epoch (mint_asset asset_size_v200) (mint_asset asset_size_v205).
Definition special_transfer_asset :=
  switch_on_global_epoch (transfer_asset asset_size_v200) (transfer_asset asset_size_v205).
Definition special_get_owner :=
  switch_on_global_epoch (get_owner asset_size_v200) (get_owner asset_size_v205).
Definition special_burn_asset :=
  switch_on_global_epoch (burn_asset asset_size_v200) (burn_asset asset_size_v205).
End Forms.
