(* ===== verification/PostConditionForms.v ===== *)
(** * Special forms that protect assets

    [clarity/src/vm/functions/post_conditions.rs]: [restrict-assets?],
    [as-contract?] and the allowances in them. *)

From S2P Require Import Prelude.
From S2P Require Import Bytes.
From S2P Require Import BTree.
From S2P Require Import Epochs.
From S2P Require Import Values.
From S2P Require Import Types.
From S2P Require Import RollbackStore.
From S2P Require Import NestedStore.
From S2P Require Import C32.
From S2P Require Import AssetMap.
From S2P Require Import VmErrors.
From S2P Require Import TypedValues.
From S2P Require Import Expressions.
From S2P Require Import Deserialization.
From S2P Require Import Contexts.
From S2P Require Import Arithmetic.
From S2P Require Import CostTables.
From S2P Require Import Costs.
From S2P Require Import CostFunctions.
From S2P Require Import Allowances.
From S2P Require Import GlobalContext.
From S2P Require Import ExecutionState.
From S2P Require Import SpecialForms.
From S2P Require Import DatabaseForms.

Section Forms.
Context `{VmLibraries} {S : Type} `{VmStore S} (I : Interp S).
Implicit Types (args : list SymbolicExpression) (ic : InvocationContext) (context : LocalContext).

Abbreviation EM := (M (ExecutionState S) VmExecutionError).
Abbreviation VmR := (result VmExecutionError).

(** ** Allowances *)

Definition expected {A} (message : string) (r : result ClarityTypeError A) : EM A :=
  lift (map_err (fun _ => expect_error message) r).

(** [Value::expect_string_ascii]: its errors are replaced. *)
Definition string_ascii (v : Value) : EM (list Z) :=
  match v with
  | Sequence (String_ (CharASCII data)) =>
      lift (ok_or (utf8_chars data) (expect_error "Expected ASCII String."));; mret data
  | _ => throw (expect_error "Expected ASCII String.")
  end.

(** The asset that [with-ft] and [with-nft] name *)
Definition eval_asset (contract name : SymbolicExpression) ic context : EM AssetIdentifier :=
  contract_value ← eval_clone I contract ic context;
  contract ← expected "Expected principal" (expect_principal contract_value);
  contract_identifier ←
    match contract with
    | Standard _ => throw (RuntimeCheck (RC_ExpectedContractPrincipalValue (to_error_string contract_value)))
    | Contract c => mret c
    end;
  asset_name ← eval_clone I name ic context;
  asset_name ← string_ascii asset_name;
  ensure (is_clarity_name asset_name) (vm_from_runtime (RE_BadTokenName (expr_to_string name)));;
  mret (mkAssetIdentifier contract_identifier (string_of_bytes asset_name)).

Definition incorrect_arguments {A} (expected : Z) args : EM A :=
  throw (RuntimeCheck (RC_IncorrectArgumentCount expected (zlen args))).

Definition eval_named_allowance (f : NativeFunctions.t) (name : ClarityName) (rest : list SymbolicExpression)
    ic context : EM Allowance :=
  match f with
  | NativeFunctions.AllowanceWithStx =>
      match rest with
      | [amount] =>
          amount ← eval I amount ic context;
          match as_ref amount with
          | UInt amount => mret (AllowStx amount)
          | _ => throw (expect_error "Expected u128")
          end
      | _ => incorrect_arguments 1 rest
      end
  | NativeFunctions.AllowanceWithFt =>
      match rest with
      | [contract; asset_name; amount] =>
          asset ← eval_asset contract asset_name ic context;
          amount ← eval_clone I amount ic context;
          amount ← expected "Expected u128" (expect_u128 amount);
          mret (AllowFt asset amount)
      | _ => incorrect_arguments 3 rest
      end
  | NativeFunctions.AllowanceWithNft =>
      match rest with
      | [contract; asset_name; asset_id_list] =>
          asset ← eval_asset contract asset_name ic context;
          asset_id_list ← eval_clone I asset_id_list ic context;
          match asset_id_list with
          | Sequence (List_ asset_ids _) => mret (AllowNft asset asset_ids)
          | _ => throw (expect_error "Expected list")
          end
      | _ => incorrect_arguments 3 rest
      end
  | NativeFunctions.AllowanceWithStacking | NativeFunctions.AllowanceWithStaking =>
      match rest with
      | [amount] =>
          amount ← eval_clone I amount ic context;
          amount ← expected "Expected u128" (expect_u128 amount);
          mret (AllowStacking amount)
      | _ => incorrect_arguments 1 rest
      end
  | NativeFunctions.AllowanceWithPox =>
      match rest with [] => mret AllowPox | _ => incorrect_arguments 0 rest end
  | NativeFunctions.AllowanceAll =>
      match rest with [] => mret AllowAll | _ => incorrect_arguments 1 rest end
  | _ => throw (formatted_unreachable ("Expected allowance expr: " +:+ name))
  end.

Definition eval_allowance (allowance_expr : SymbolicExpression) ic context : EM Allowance :=
  match allowance_expr with
  | ExprList (name_expr :: rest) =>
      name ← lift (ok_or (match_atom name_expr) (unreachable "Bad function name"));
      match lookup_by_name_at_version (T := NativeFunctions.t) name (ic_version ic) with
      | Some native_function => eval_named_allowance native_function name rest ic context
      | None => throw (formatted_unreachable ("Expected allowance expr: " +:+ name))
      end
  | _ => throw (unreachable "Non functional application")
  end.

(** What an allowance takes in memory *)
Definition sized_allowance (allowance_expr : SymbolicExpression) (checks_with_all : bool) ic context
    : EM (Allowance * Z) :=
  allowance ← eval_allowance allowance_expr ic context;
  ensure (negb (checks_with_all && match allowance with AllowAll => true | _ => false end))
    (RuntimeCheck RC_WithAllAllowanceNotAllowed);;
  e ← epoch;
  memory ← lift (map_err Internal (size_in_bytes e allowance));
  mret (allowance, memory).

(** What [m] returns, as a value *)
Definition attempt {E A} (m : M (ExecutionState S) E A) : EM (result E A) :=
  match_result m (fun v => mret (Ok v)) (fun e => mret (Err e)).

(** ** The body *)

Fixpoint eval_bodies (body_exprs : list SymbolicExpression) (last_result : option Value) ic context
    : EM (option Value) :=
  match body_exprs with
  | [] => mret last_result
  | expr :: body_exprs =>
      result ← eval_clone I expr ic context;
      eval_bodies body_exprs (Some result) ic context
  end.

(** After the scope is committed *)
Definition body_result (eval_result : VmR (option Value)) : EM Value :=
  last ← lift eval_result;
  match last with
  | Some last => typing (value_okay last)
  | None => throw (expect_error "Failed to get body result")
  end.

(** An error of the body that aborts the transaction *)
Definition block_rejecting (e : StacksEpochId) (r : VmR (option Value)) : option VmExecutionError :=
  match r with Err err => if rejectable_in_epoch err e then Some err else None | _ => None end.

Definition evaluate_body_with_allowance_check (asset_owner : PrincipalData) (allowances : list Allowance)
    (body_exprs : list SymbolicExpression) ic context : EM Value :=
  e ← epoch;
  on_global (modify begin_);;
  eval_result ← attempt (eval_bodies body_exprs None ic context);
  match block_rejecting e eval_result with
  | Some err => on_global gc_roll_back;; throw err
  | None =>
    asset_maps ← on_global get_readonly_asset_map;
    match check_allowances asset_owner allowances asset_maps e with
    | Ok None => on_global gc_commit;; body_result eval_result
    | Ok (Some violation_index) =>
        on_global gc_roll_back;; typing (value_error (UInt violation_index))
    | Err err => on_global gc_roll_back;; throw err
    | Panic => panic
    end
  end.

(** ** [restrict-assets?] *)

(** The memory that the closure of [finally_drop_memory!] has reserved when it
    returns, and what it returns *)
Abbreviation Gathered := (Z * VmR (list Allowance))%type.

Fixpoint gather_restricted (starting_memory : Z) (checks_with_all : bool)
    (allowance_list : list SymbolicExpression) (memory_use : Z) (allowances : list Allowance) ic context
    : EM Gathered :=
  match allowance_list with
  | [] => mret (memory_use, Ok allowances)
  | allowance :: allowance_list =>
      r ← attempt (sized_allowance allowance checks_with_all ic context);
      match r with
      | Ok (allowance, allowance_memory) =>
          r ← attempt (add_memory allowance_memory);
          match r with
          | Ok _ =>
              match u64_checked_add memory_use allowance_memory with
              | Some memory_use =>
                  gather_restricted starting_memory checks_with_all allowance_list memory_use
                    (allowances ++ [allowance]) ic context
              | None => mret (memory_use, Err (expect_error "restrict-assets allowance memory overflowed"))
              end
          | Err (CE_MemoryBalanceExceeded used limit) =>
              match u64_checked_sub used starting_memory with
              | Some memory_use =>
                  mret (memory_use, Err (RuntimeCheck (RC_RestrictAssetsMemoryExceeded used limit)))
              | None =>
                  mret (memory_use, Err (expect_error "restrict-assets allowance memory cleanup underflowed"))
              end
          | Err e => mret (memory_use, Err (vm_from_cost e))
          | Panic => panic
          end
      | Err e => mret (memory_use, Err e)
      | Panic => panic
      end
  end.

Definition special_restrict_assets args ic context : EM Value :=
  checking (check_arguments_at_least 3 args);;
  match args with
  | asset_owner_expr :: allowances :: body_exprs =>
      allowance_list ← lift (ok_or (match_list allowances)
        (unreachable "Expected list of allowances: for restrict-assets? as argument 2"));
      asset_owner ← eval_clone I asset_owner_expr ic context;
      asset_owner ← expected "Expected principal" (expect_principal asset_owner);
      let allowance_len := zlen allowance_list in
      charge ClarityCostFunction.RestrictAssets allowance_len;;
      ensure (allowance_len <=? MAX_ALLOWANCES)
        (formatted_unreachable ("Too many allowances: got " +:+ pretty allowance_len +:+ ", allowed "
           +:+ pretty MAX_ALLOWANCES));;
      st ← get;
      let starting_memory := get_memory (cost_track (global_context st)) in
      e ← epoch;
      gathered ← gather_restricted starting_memory (checks_with_all_assets_in_restrict_assets e)
                   allowance_list 0 [] ic context;
      let '(memory_use, allowances) := gathered in
      finally
        (allowances ← lift allowances;
         evaluate_body_with_allowance_check asset_owner allowances body_exprs ic context)
        (release memory_use)
  | _ => panic
  end.

(** ** [as-contract?] *)

Fixpoint gather_allowances (allowance_list : list SymbolicExpression) (memory_use : Z)
    (allowances : list Allowance) ic context : EM Gathered :=
  match allowance_list with
  | [] => mret (memory_use, Ok allowances)
  | allowance :: allowance_list =>
      r ← attempt (x ← sized_allowance allowance false ic context; reserve x.2;; mret x);
      match r with
      | Ok (allowance, allowance_memory) =>
          memory_use ← lift (unchecked_add memory_use allowance_memory);
          gather_allowances allowance_list memory_use (allowances ++ [allowance]) ic context
      | Err e => mret (memory_use, Err e)
      | Panic => panic
      end
  end.

(** The allowances, then the memory of the scope *)
Definition gather_as_contract (allowance_list : list SymbolicExpression) ic context : EM Gathered :=
  gathered ← gather_allowances allowance_list 0 [] ic context;
  let '(memory_use, r) := gathered in
  match r with
  | Ok allowances =>
      r ← attempt (reserve AS_CONTRACT_MEMORY);
      match r with
      | Ok _ => memory_use ← lift (unchecked_add memory_use AS_CONTRACT_MEMORY); mret (memory_use, Ok allowances)
      | Err e => mret (memory_use, Err e)
      | Panic => panic
      end
  | r => mret (memory_use, r)
  end.

(** [post_conditions::special_as_contract] *)
Definition special_as_contract_safe args ic context : EM Value :=
  checking (check_arguments_at_least 2 args);;
  match args with
  | allowances :: body_exprs =>
      allowance_list ← lift (ok_or (match_list allowances)
        (unreachable "Expected list of allowances: for as-contract? as argument 1"));
      charge ClarityCostFunction.AsContractSafe (zlen allowance_list);;
      gathered ← gather_as_contract allowance_list ic context;
      let '(memory_use, allowances) := gathered in
      finally
        (allowances ← lift allowances;
         let contract_principal := Contract (this_contract ic) in
         evaluate_body_with_allowance_check contract_principal allowances body_exprs
           (with_principal ic contract_principal) context)
        (release memory_use)
  | _ => panic
  end.

Definition special_allowance args ic context : EM Value :=
  throw (unreachable "Allowance expr not allowed").
End Forms.
