(* ===== verification/Definitions.v ===== *)
(** * Definitions at the top level of a contract

    [clarity/src/vm/functions/define.rs]: what each [define-*] expression
    parses to and evaluates to. *)

From S2P Require Import Prelude.
From S2P Require Import BTree.
From S2P Require Import Epochs.
From S2P Require Import Values.
From S2P Require Import Types.
From S2P Require Import RollbackStore.
From S2P Require Import NestedStore.
From S2P Require Import C32.
From S2P Require Import VmErrors.
From S2P Require Import TypedValues.
From S2P Require Import Expressions.
From S2P Require Import ContractData.
From S2P Require Import Contexts.
From S2P Require Import Arithmetic.
From S2P Require Import CostTables.
From S2P Require Import Costs.
From S2P Require Import CostFunctions.
From S2P Require Import TypeSyntax.
From S2P Require Import GlobalContext.
From S2P Require Import ExecutionState.
From S2P Require Import SpecialForms.

(** ** Parsing *)

Inductive DefineFunctionsParsed :=
| ParsedConstant (name : ClarityName) (value : SymbolicExpression)
| ParsedPrivateFunction (signature : list SymbolicExpression) (body : SymbolicExpression)
| ParsedReadOnlyFunction (signature : list SymbolicExpression) (body : SymbolicExpression)
| ParsedPublicFunction (signature : list SymbolicExpression) (body : SymbolicExpression)
| ParsedNonFungibleToken (name : ClarityName) (nft_type : SymbolicExpression)
| ParsedBoundedFungibleToken (name : ClarityName) (max_supply : SymbolicExpression)
| ParsedUnboundedFungibleToken (name : ClarityName)
| ParsedMap (name : ClarityName) (key_type value_type : SymbolicExpression)
| ParsedPersistedVariable (name : ClarityName) (data_type initial : SymbolicExpression)
| ParsedTrait (name : ClarityName) (functions : list SymbolicExpression)
| ParsedUseTrait (name : ClarityName) (trait_identifier : TraitIdentifier)
| ParsedImplTrait (trait_identifier : TraitIdentifier).

Inductive DefineResult :=
| DefineVariable (name : ClarityName) (value : Value)
| DefineFunction (name : ClarityName) (f : DefinedFunction)
| DefineMap (name : ClarityName) (key_type value_type : TypeSignature)
| DefinePersistedVariable (name : ClarityName) (value_type : TypeSignature) (value : Value)
| DefineFungibleToken (name : ClarityName) (total_supply : option Z)
| DefineNonFungibleAsset (name : ClarityName) (asset_type : TypeSignature)
| DefineTrait (name : ClarityName) (trait_type : TraitSignatures)
| DefineUseTrait (name : ClarityName) (trait_identifier : TraitIdentifier)
| DefineImplTrait (trait_identifier : TraitIdentifier)
| NoDefine.

(** [DefineFunctions::try_parse] *)
Definition parse_define_type (expression : SymbolicExpression)
    : option (DefineFunctions.t * list SymbolicExpression) :=
  expression ← match_list expression;
  match expression with
  | [] => None
  | function_name :: args =>
      function_name ← match_atom function_name;
      define_type ← lookup_by_name function_name;
      Some (define_type, args)
  end.

Abbreviation CommonR := (result CommonCheckErrorKind).

Definition defined_name (x : SymbolicExpression) : CommonR ClarityName := ok_or (match_atom x) CC_ExpectedName.

(** The signature and the body of a function *)
Definition parse_function (args : list SymbolicExpression)
    : CommonR (list SymbolicExpression * SymbolicExpression) :=
  check_argument_count 2 args;;
  match args with
  | [signature; body] =>
      signature ← ok_or (match_list signature) CC_DefineFunctionBadSignature;
      Ok (signature, body)
  | _ => Panic
  end.

Definition trait_field (x : SymbolicExpression) : CommonR TraitIdentifier :=
  ok_or (match_field x) CC_ExpectedTraitIdentifier.

Definition parse_define (define_type : DefineFunctions.t) (args : list SymbolicExpression)
    : CommonR DefineFunctionsParsed :=
  match define_type with
  | DefineFunctions.Constant =>
      check_argument_count 2 args;;
      match args with
      | [name; value] => name ← defined_name name; Ok (ParsedConstant name value)
      | _ => Panic
      end
  | DefineFunctions.PrivateFunction => f ← parse_function args; Ok (ParsedPrivateFunction f.1 f.2)
  | DefineFunctions.ReadOnlyFunction => f ← parse_function args; Ok (ParsedReadOnlyFunction f.1 f.2)
  | DefineFunctions.PublicFunction => f ← parse_function args; Ok (ParsedPublicFunction f.1 f.2)
  | DefineFunctions.NonFungibleToken =>
      check_argument_count 2 args;;
      match args with
      | [name; nft_type] => name ← defined_name name; Ok (ParsedNonFungibleToken name nft_type)
      | _ => Panic
      end
  | DefineFunctions.FungibleToken =>
      check_arguments_at_least 1 args;;
      match args with
      | [] => Panic
      | name :: rest =>
          name ← defined_name name;
          match rest with
          | [] => Ok (ParsedUnboundedFungibleToken name)
          | [max_supply] => Ok (ParsedBoundedFungibleToken name max_supply)
          | _ => Err (CC_IncorrectArgumentCount 1 (zlen args))
          end
      end
  | DefineFunctions.Map =>
      check_argument_count 3 args;;
      match args with
      | [name; key_type; value_type] => name ← defined_name name; Ok (ParsedMap name key_type value_type)
      | _ => Panic
      end
  | DefineFunctions.PersistedVariable =>
      check_argument_count 3 args;;
      match args with
      | [name; data_type; initial] =>
          name ← defined_name name; Ok (ParsedPersistedVariable name data_type initial)
      | _ => Panic
      end
  | DefineFunctions.Trait =>
      check_argument_count 2 args;;
      match args with
      | name :: functions => name ← defined_name name; Ok (ParsedTrait name functions)
      | _ => Panic
      end
  | DefineFunctions.UseTrait =>
      check_argument_count 2 args;;
      match args with
      | [name; field] =>
          name ← defined_name name; field ← trait_field field; Ok (ParsedUseTrait name field)
      | _ => Panic
      end
  | DefineFunctions.ImplTrait =>
      check_argument_count 1 args;;
      match args with
      | [field] => field ← trait_field field; Ok (ParsedImplTrait field)
      | _ => Panic
      end
  end.

(** [DefineFunctionsParsed::try_parse] *)
Definition try_parse (expression : SymbolicExpression) : CommonR (option DefineFunctionsParsed) :=
  match parse_define_type expression with
  | None => Ok None
  | Some (define_type, args) => parsed ← parse_define define_type args; Ok (Some parsed)
  end.

(** ** Names *)

Definition name_already_used (name : string) : VmExecutionError := RuntimeCheck (RC_NameAlreadyUsed name).

Definition check_legal_define (name : string) (contract_context : ContractContext)
    : result VmExecutionError unit :=
  if is_name_used contract_context name then Err (name_already_used name) else Ok tt.

Definition check_legal_function_define (name : string) (define_type : DefineType)
    (contract_context : ContractContext) (epoch : StacksEpochId) : result VmExecutionError unit :=
  let shadowable := allows_shadowable_reserved_names epoch
                    && match define_type with Public | ReadOnly => true | Private => false end
                    && is_shadowable_reserved name (clarity_version contract_context) in
  if negb shadowable then check_legal_define name contract_context
  else if is_name_defined_by_contract contract_context name then Err (name_already_used name)
  else Ok tt.

Fixpoint check_legal_arguments (arguments : list (ClarityName * TypeSignature))
    (contract_context : ContractContext) : result VmExecutionError unit :=
  match arguments with
  | [] => Ok tt
  | (argument, _) :: arguments =>
      check_legal_define argument contract_context;;
      check_legal_arguments arguments contract_context
  end.

(** New traits do not declare reserved names. *)
Fixpoint check_method_names (trait_signature : TraitSignatures) (version : ClarityVersion)
    : result VmExecutionError unit :=
  match trait_signature with
  | [] => Ok tt
  | (method_name, _) :: trait_signature =>
      if is_reserved method_name version then Err (name_already_used method_name)
      else check_method_names trait_signature version
  end.

(** ** Evaluation *)

Section Forms.
Context `{VmLibraries} {S : Type} `{VmStore S} (I : Interp S).
Implicit Types (ic : InvocationContext).

Abbreviation EM := (M (ExecutionState S) VmExecutionError).

Definition legal_define ic (name : ClarityName) : EM unit :=
  lift (check_legal_define name (contract_context ic)).

(** [TypeSignature::parse_type_repr] in the epoch of the execution *)
Definition declared_type (x : SymbolicExpression) : EM TypeSignature :=
  e ← epoch; mmap_err vm_from_common (parse_type_repr e x).

Definition handle_define_variable (variable : ClarityName) (expression : SymbolicExpression) ic
    : EM DefineResult :=
  legal_define ic variable;;
  value ← eval_clone I expression ic LocalContext_new;
  mret (DefineVariable variable value).

Definition handle_define_function (signature : list SymbolicExpression) (expression : SymbolicExpression)
    (define_type : DefineType) ic : EM DefineResult :=
  match signature with
  | [] => throw (unreachable "Define function bad signature")
  | function_symbol :: arg_symbols =>
      function_name ← name_arg function_symbol;
      e ← epoch;
      lift (check_legal_function_define function_name define_type (contract_context ic) e);;
      arguments ← mmap_err vm_from_common (parse_name_type_pairs e BindEval arg_symbols);
      lift (check_legal_arguments arguments (contract_context ic));;
      mret (DefineFunction function_name
              (DefinedFunction_new arguments expression define_type function_name
                 (contract_to_string (cc_identifier (contract_context ic)))))
  end.

Definition handle_define_persisted_variable (variable_str : ClarityName)
    (value_type value : SymbolicExpression) ic : EM DefineResult :=
  legal_define ic variable_str;;
  value_type_signature ← declared_type value_type;
  value ← eval_clone I value ic LocalContext_new;
  mret (DefinePersistedVariable variable_str value_type_signature value).

Definition handle_define_nonfungible_asset (asset_name : ClarityName) (key_type : SymbolicExpression) ic
    : EM DefineResult :=
  legal_define ic asset_name;;
  key_type_signature ← declared_type key_type;
  mret (DefineNonFungibleAsset asset_name key_type_signature).

Definition handle_define_fungible_token (asset_name : ClarityName) (total_supply : option SymbolicExpression)
    ic : EM DefineResult :=
  legal_define ic asset_name;;
  match total_supply with
  | Some total_supply_expr =>
      total_supply_value ← eval I total_supply_expr ic LocalContext_new;
      match as_ref total_supply_value with
      | UInt total_supply_int => mret (DefineFungibleToken asset_name (Some total_supply_int))
      | v => throw (type_value_error UIntType v)
      end
  | None => mret (DefineFungibleToken asset_name None)
  end.

Definition handle_define_map (map_str : ClarityName) (key_type value_type : SymbolicExpression) ic
    : EM DefineResult :=
  legal_define ic map_str;;
  key_type_signature ← declared_type key_type;
  value_type_signature ← declared_type value_type;
  mret (DefineMap map_str key_type_signature value_type_signature).

Definition handle_define_trait (name : ClarityName) (functions : list SymbolicExpression) ic
    : EM DefineResult :=
  legal_define ic name;;
  e ← epoch;
  trait_signature ← mmap_err vm_from_common (parse_trait_type_repr functions e (ic_version ic));
  lift (if allows_shadowable_reserved_names e then check_method_names trait_signature (ic_version ic)
        else Ok tt);;
  mret (DefineTrait name trait_signature).

Definition evaluate_define (expression : SymbolicExpression) ic : EM DefineResult :=
  define_type ← checking (try_parse expression);
  match define_type with
  | None => mret NoDefine
  | Some (ParsedConstant name value) => handle_define_variable name value ic
  | Some (ParsedPrivateFunction signature body) => handle_define_function signature body Private ic
  | Some (ParsedReadOnlyFunction signature body) => handle_define_function signature body ReadOnly ic
  | Some (ParsedPublicFunction signature body) => handle_define_function signature body Public ic
  | Some (ParsedNonFungibleToken name nft_type) => handle_define_nonfungible_asset name nft_type ic
  | Some (ParsedBoundedFungibleToken name max_supply) =>
      handle_define_fungible_token name (Some max_supply) ic
  | Some (ParsedUnboundedFungibleToken name) => handle_define_fungible_token name None ic
  | Some (ParsedMap name key_type value_type) => handle_define_map name key_type value_type ic
  | Some (ParsedPersistedVariable name data_type initial) =>
      handle_define_persisted_variable name data_type initial ic
  | Some (ParsedTrait name functions) => handle_define_trait name functions ic
  | Some (ParsedUseTrait name trait_identifier) => mret (DefineUseTrait name trait_identifier)
  | Some (ParsedImplTrait trait_identifier) => mret (DefineImplTrait trait_identifier)
  end.
End Forms.
