(* ===== verification/Interpreter.v ===== *)
(** * The interpreter

    [clarity/src/vm/mod.rs], the table of reserved functions of
    [clarity/src/vm/functions/mod.rs], and what [clarity/src/vm/contexts.rs] and
    [contracts.rs] build on them. The recursion of [eval] and [apply] goes
    through the special forms, so the interpreter is tied by fuel: every nested
    evaluation happens at a greater depth of the call stack, which is bounded
    by 128, and [EVAL_FUEL] is above that bound; that this is enough is shown in
    [Executions].

    The limits on time and memory that a node may put on evaluations
    ([ResourceLimiter]) and the hooks that observe them are not part of the
    model. *)

From S2P Require Import Prelude.
From S2P Require Import Bytes.
From S2P Require Import BTree.
From S2P Require Import Epochs.
From S2P Require Import Values.
From S2P Require Import Types.
From S2P Require Import RollbackStore.
From S2P Require Import NestedStore.
From S2P Require Import C32.
From S2P Require Import Database.
From S2P Require Import AssetMap.
From S2P Require Import VmErrors.
From S2P Require Import TypedValues.
From S2P Require Import Expressions.
From S2P Require Import ContractData.
From S2P Require Import Contexts.
From S2P Require Import Arithmetic.
From S2P Require Import Natives.
From S2P Require Import BitcoinNatives.
From S2P Require Import CostTables.
From S2P Require Import Costs.
From S2P Require Import Contracts.
From S2P Require Import CryptoNatives.
From S2P Require Import CostFunctions.
From S2P Require Import Allowances.
From S2P Require Import GlobalContext.
From S2P Require Import ExecutionState.
From S2P Require Import SpecialForms.
From S2P Require Import UserFunctions.
From S2P Require Import ValueForms.
From S2P Require Import DatabaseForms.
From S2P Require Import AssetForms.
From S2P Require Import PostConditionForms.
From S2P Require Import Definitions.

Section Interpreter.
Context `{VmLibraries} {S : Type} `{VmStore S}.
Implicit Types (ic : InvocationContext) (context : LocalContext) (I : Interp S).

Abbreviation EM := (M (ExecutionState S) VmExecutionError).
Abbreviation VmR := (result VmExecutionError).

(** ** Reserved functions *)

(** [lookup_reserved_functions] *)
Definition builtin_kind I (f : NativeFunctions.t) : BuiltinKind S :=
  match f with
  | NativeFunctions.Add => Native "native_add" (MoreArg native_add) ClarityCostFunction.Add
  | NativeFunctions.Subtract => Native "native_sub" (MoreArg native_sub) ClarityCostFunction.Sub
  | NativeFunctions.Multiply => Native "native_mul" (MoreArg native_mul) ClarityCostFunction.Mul
  | NativeFunctions.Divide => Native "native_div" (MoreArg native_div) ClarityCostFunction.Div
  | NativeFunctions.CmpGeq => Special "special_geq" (special_geq I)
  | NativeFunctions.CmpLeq => Special "special_leq" (special_leq I)
  | NativeFunctions.CmpLess => Special "special_le" (special_less I)
  | NativeFunctions.CmpGreater => Special "special_ge" (special_greater I)
  | NativeFunctions.ToUInt => Native "native_to_uint" (SingleArg native_to_uint) ClarityCostFunction.IntCast
  | NativeFunctions.ToInt => Native "native_to_int" (SingleArg native_to_int) ClarityCostFunction.IntCast
  | NativeFunctions.Modulo => Native "native_mod" (DoubleArg native_mod) ClarityCostFunction.Mod
  | NativeFunctions.Power => Native "native_pow" (DoubleArg native_pow) ClarityCostFunction.Pow
  | NativeFunctions.Sqrti => Native "native_sqrti" (SingleArg native_sqrti) ClarityCostFunction.Sqrti
  | NativeFunctions.Log2 => Native "native_log2" (SingleArg native_log2) ClarityCostFunction.Log2
  | NativeFunctions.BitwiseXor => Native "native_xor" (DoubleArg native_xor) ClarityCostFunction.Xor
  | NativeFunctions.And => Special "special_and" (special_and I)
  | NativeFunctions.Or => Special "special_or" (special_or I)
  | NativeFunctions.Not => Native "native_not" (SingleArg native_not) ClarityCostFunction.Not
  | NativeFunctions.Equals =>
      Native205 "native_eq" (MoreArgEnv native_eq) ClarityCostFunction.Eq cost_input_sized_vararg
  | NativeFunctions.If => Special "special_if" (special_if I)
  | NativeFunctions.Let => Special "special_let" (special_let I)
  | NativeFunctions.FetchVar => Special "special_var-get" special_fetch_variable
  | NativeFunctions.SetVar => Special "special_set-var" (special_set_variable I)
  | NativeFunctions.Map => Special "special_map" (special_map I)
  | NativeFunctions.Filter => Special "special_filter" (special_filter I)
  | NativeFunctions.BuffToIntLe =>
      Native "native_buff_to_int_le" (SingleArg native_buff_to_int_le) ClarityCostFunction.BuffToIntLe
  | NativeFunctions.BuffToUIntLe =>
      Native "native_buff_to_uint_le" (SingleArg native_buff_to_uint_le) ClarityCostFunction.BuffToUIntLe
  | NativeFunctions.BuffToIntBe =>
      Native "native_buff_to_int_be" (SingleArg native_buff_to_int_be) ClarityCostFunction.BuffToIntBe
  | NativeFunctions.BuffToUIntBe =>
      Native "native_buff_to_uint_be" (SingleArg native_buff_to_uint_be) ClarityCostFunction.BuffToUIntBe
  | NativeFunctions.StringToInt =>
      Native "native_string_to_int" (SingleArg native_string_to_int) ClarityCostFunction.StringToInt
  | NativeFunctions.StringToUInt =>
      Native "native_string_to_uint" (SingleArg native_string_to_uint) ClarityCostFunction.StringToUInt
  | NativeFunctions.IntToAscii =>
      Native "native_int_to_ascii" (SingleArg native_int_to_ascii) ClarityCostFunction.IntToAscii
  | NativeFunctions.IntToUtf8 =>
      Native "native_int_to_utf8" (SingleArg native_int_to_utf8) ClarityCostFunction.IntToUtf8
  | NativeFunctions.IsStandard => Special "special_is_standard" (special_is_standard I)
  | NativeFunctions.PrincipalDestruct => Special "special_principal_destruct" (special_principal_destruct I)
  | NativeFunctions.PrincipalConstruct =>
      Special "special_principal_construct" (special_principal_construct I)
  | NativeFunctions.Fold => Special "special_fold" (special_fold I)
  | NativeFunctions.Concat => Special "special_concat" (special_concat I)
  | NativeFunctions.AsMaxLen => Special "special_as_max_len" (special_as_max_len I)
  | NativeFunctions.Append => Special "special_append" (special_append I)
  | NativeFunctions.Len => Native "native_len" (SingleArg native_len) ClarityCostFunction.Len
  | NativeFunctions.ElementAt | NativeFunctions.ElementAtAlias =>
      Native "native_element_at" (DoubleArg native_element_at) ClarityCostFunction.ElementAt
  | NativeFunctions.IndexOf | NativeFunctions.IndexOfAlias =>
      Native205 "native_index_of" (DoubleArg native_index_of) ClarityCostFunction.IndexOf cost_input_sized_vararg
  | NativeFunctions.Slice => Special "special_slice" (special_slice I)
  | NativeFunctions.ListCons => Special "special_list_cons" (list_cons I)
  | NativeFunctions.FetchEntry => Special "special_map-get?" (special_fetch_entry I)
  | NativeFunctions.SetEntry => Special "special_set-entry" (special_set_entry I)
  | NativeFunctions.InsertEntry => Special "special_insert-entry" (special_insert_entry I)
  | NativeFunctions.DeleteEntry => Special "special_delete-entry" (special_delete_entry I)
  | NativeFunctions.TupleCons => Special "special_tuple" (tuple_cons I)
  | NativeFunctions.TupleGet => Special "special_get-tuple" (tuple_get I)
  | NativeFunctions.TupleMerge =>
      Native205 "native_merge-tuple" (DoubleArg tuple_merge) ClarityCostFunction.TupleMerge cost_input_sized_vararg
  | NativeFunctions.Begin => Native "native_begin" (MoreArg native_begin) ClarityCostFunction.Begin
  | NativeFunctions.Hash160 =>
      Native205 "native_hash160" (SingleArg native_hash160) ClarityCostFunction.Hash160 cost_input_sized_vararg
  | NativeFunctions.Sha256 =>
      Native205 "native_sha256" (SingleArg native_sha256) ClarityCostFunction.Sha256 cost_input_sized_vararg
  | NativeFunctions.Sha512 =>
      Native205 "native_sha512" (SingleArg native_sha512) ClarityCostFunction.Sha512 cost_input_sized_vararg
  | NativeFunctions.Sha512Trunc256 =>
      Native205 "native_sha512trunc256" (SingleArg native_sha512trunc256) ClarityCostFunction.Sha512t256 cost_input_sized_vararg
  | NativeFunctions.Keccak256 =>
      Native205 "native_keccak256" (SingleArg native_keccak256) ClarityCostFunction.Keccak256 cost_input_sized_vararg
  | NativeFunctions.Secp256k1Recover => Special "native_secp256k1-recover" (special_secp256k1_recover I)
  | NativeFunctions.Secp256k1Verify => Special "native_secp256k1-verify" (special_secp256k1_verify I)
  | NativeFunctions.Print => Special "special_print" (special_print I)
  | NativeFunctions.ContractCall => Special "special_contract-call" (special_contract_call I)
  | NativeFunctions.AsContract => Special "special_as-contract" (special_as_contract I)
  | NativeFunctions.ContractOf => Special "special_contract-of" special_contract_of
  | NativeFunctions.PrincipalOf => Special "special_principal-of" (special_principal_of I)
  | NativeFunctions.GetBlockInfo => Special "special_get_block_info" (special_get_block_info I)
  | NativeFunctions.GetBurnBlockInfo =>
      Special "special_get_burn_block_info" (special_get_burn_block_info I)
  | NativeFunctions.GetStacksBlockInfo =>
      Special "special_get_stacks_block_info" (special_get_stacks_block_info I)
  | NativeFunctions.GetTenureInfo => Special "special_get_tenure_info" (special_get_tenure_info I)
  | NativeFunctions.ConsSome => Native "native_some" (SingleArg native_some) ClarityCostFunction.SomeCons
  | NativeFunctions.ConsOkay => Native "native_okay" (SingleArg native_okay) ClarityCostFunction.OkCons
  | NativeFunctions.ConsError => Native "native_error" (SingleArg native_error) ClarityCostFunction.ErrCons
  | NativeFunctions.DefaultTo =>
      Native "native_default_to" (DoubleArg native_default_to) ClarityCostFunction.DefaultTo
  | NativeFunctions.Asserts => Special "special_asserts" (special_asserts I)
  | NativeFunctions.UnwrapRet =>
      Native "native_unwrap_ret" (DoubleArg native_unwrap_or_ret) ClarityCostFunction.UnwrapRet
  | NativeFunctions.UnwrapErrRet =>
      Native "native_unwrap_err_ret" (DoubleArg native_unwrap_err_or_ret) ClarityCostFunction.UnwrapErrOrRet
  | NativeFunctions.IsOkay => Native "native_is_okay" (SingleArg native_is_okay) ClarityCostFunction.IsOkay
  | NativeFunctions.IsNone => Native "native_is_none" (SingleArg native_is_none) ClarityCostFunction.IsNone
  | NativeFunctions.IsErr => Native "native_is_err" (SingleArg native_is_err) ClarityCostFunction.IsErr
  | NativeFunctions.IsSome => Native "native_is_some" (SingleArg native_is_some) ClarityCostFunction.IsSome
  | NativeFunctions.Unwrap => Native "native_unwrap" (SingleArg native_unwrap) ClarityCostFunction.Unwrap
  | NativeFunctions.UnwrapErr =>
      Native "native_unwrap_err" (SingleArg native_unwrap_err) ClarityCostFunction.UnwrapErr
  | NativeFunctions.Match => Special "special_match" (special_match I)
  | NativeFunctions.TryRet => Native "native_try_ret" (SingleArg native_try_ret) ClarityCostFunction.TryRet
  | NativeFunctions.MintAsset => Special "special_mint_asset" (special_mint_asset I)
  | NativeFunctions.MintToken => Special "special_mint_token" (special_mint_token I)
  | NativeFunctions.TransferAsset => Special "special_transfer_asset" (special_transfer_asset I)
  | NativeFunctions.TransferToken => Special "special_transfer_token" (special_transfer_token I)
  | NativeFunctions.GetTokenBalance => Special "special_get_balance" (special_get_balance I)
  | NativeFunctions.GetAssetOwner => Special "special_get_owner" (special_get_owner I)
  | NativeFunctions.BurnAsset => Special "special_burn_asset" (special_burn_asset I)
  | NativeFunctions.BurnToken => Special "special_burn_token" (special_burn_token I)
  | NativeFunctions.GetTokenSupply => Special "special_get_token_supply" special_get_token_supply
  | NativeFunctions.AtBlock => Special "special_at_block" (special_at_block I)
  | NativeFunctions.GetStxBalance => Special "special_stx_balance" (special_stx_balance I)
  | NativeFunctions.StxTransfer => Special "special_stx_transfer" (special_stx_transfer I)
  | NativeFunctions.StxTransferMemo => Special "special_stx_transfer_memo" (special_stx_transfer_memo I)
  | NativeFunctions.StxBurn => Special "special_stx_burn" (special_stx_burn I)
  | NativeFunctions.StxGetAccount => Special "stx_get_account" (special_stx_account I)
  | NativeFunctions.ToConsensusBuff =>
      Native205 "to_consensus_buff" (SingleArg to_consensus_buff) ClarityCostFunction.ToConsensusBuff cost_input_sized_vararg
  | NativeFunctions.FromConsensusBuff => Special "from_consensus_buff" (from_consensus_buff I)
  | NativeFunctions.ReplaceAt => Special "replace_at" (special_replace_at I)
  | NativeFunctions.BitwiseAnd =>
      Native "native_bitwise_and" (MoreArg native_bitwise_and) ClarityCostFunction.BitwiseAnd
  | NativeFunctions.BitwiseOr =>
      Native "native_bitwise_or" (MoreArg native_bitwise_or) ClarityCostFunction.BitwiseOr
  | NativeFunctions.BitwiseNot =>
      Native "native_bitwise_not" (SingleArg native_bitwise_not) ClarityCostFunction.BitwiseNot
  | NativeFunctions.BitwiseLShift =>
      Native "native_bitwise_left_shift" (DoubleArg native_bitwise_left_shift) ClarityCostFunction.BitwiseLShift
  | NativeFunctions.BitwiseRShift =>
      Native "native_bitwise_right_shift" (DoubleArg native_bitwise_right_shift) ClarityCostFunction.BitwiseRShift
  | NativeFunctions.BitwiseXor2 =>
      Native "native_bitwise_xor" (MoreArg native_bitwise_xor) ClarityCostFunction.Xor
  | NativeFunctions.ContractHash => Special "special_contract_hash" (special_contract_hash I)
  | NativeFunctions.ToAscii => Special "special_to_ascii" (special_to_ascii I)
  | NativeFunctions.RestrictAssets => Special "special_restrict_assets" (special_restrict_assets I)
  | NativeFunctions.AsContractSafe => Special "special_as_contract" (special_as_contract_safe I)
  | NativeFunctions.AllowanceWithStx
  | NativeFunctions.AllowanceWithFt
  | NativeFunctions.AllowanceWithNft
  | NativeFunctions.AllowanceWithStacking
  | NativeFunctions.AllowanceWithStaking
  | NativeFunctions.AllowanceWithPox
  | NativeFunctions.AllowanceAll =>
      Special "special_allowance" special_allowance
  | NativeFunctions.Secp256r1Verify => Special "native_secp256r1-verify" (special_secp256r1_verify I)
  | NativeFunctions.VerifyMerkleProof =>
      Native205 "native_verify_merkle_proof" (MoreArg native_verify_merkle_proof) ClarityCostFunction.VerifyMerkleProof cost_input_verify_merkle_proof
  | NativeFunctions.GetBitcoinTxOutput =>
      Native205 "native_get_bitcoin_tx_output" (DoubleArg native_get_bitcoin_tx_output) ClarityCostFunction.GetBitcoinTxOutput cost_input_get_bitcoin_tx_output
  | NativeFunctions.Ed25519Verify =>
      Native205 "native_ed25519-verify" (MoreArg native_ed25519_verify) ClarityCostFunction.Ed25519verify cost_input_ed25519_verify
  | NativeFunctions.Secp256k1Decompress =>
      Native "native_secp256k1-decompress" (SingleArg native_secp256k1_decompress) ClarityCostFunction.Secp256k1decompress
  end.

(** ** Calls *)

(** [CallableType::get_identifier]; the name of a reserved function does not
    depend on the interpreter. *)
Definition get_identifier I (function : Callable) : string :=
  match function with
  | UserFunction f => df_identifier f
  | Builtin f => new_native_function (rust_name (builtin_kind I f))
  end.

Definition is_user_function (function : Callable) : bool :=
  match function with UserFunction _ => true | Builtin _ => false end.

Definition check_call_preconditions I (function : Callable) : EM (string * bool) :=
  let identifier := get_identifier I function in
  let track_recursion := is_user_function function in
  st ← get;
  ensure (negb (track_recursion && stack_contains identifier (call_stack st))) (circular identifier);;
  e ← epoch;
  ensure (stack_depth (call_stack st) <? max_call_stack_depth_for_epoch e)
    (vm_from_runtime RE_MaxStackDepthReached);;
  mret (identifier, track_recursion).

Definition add_stack_trace {A} (m : EM A) : EM A := fun st =>
  match m st with
  | (Err (Runtime e None), st) => (Err (Runtime e (Some (make_stack_trace (call_stack st)))), st)
  | r => r
  end.

(** A special form, which evaluates its own arguments *)
Definition apply_special (identifier : string) (track_recursion : bool)
    (function : list SymbolicExpression -> InvocationContext -> LocalContext -> EM Value)
    (args : list SymbolicExpression) ic context : EM Value :=
  on_stack (modify (stack_insert identifier track_recursion));;
  finally (add_stack_trace (function args ic context))
    (on_stack (stack_remove identifier track_recursion)).

Definition call_evaluated I (function : Callable) (args : list Value) ic : EM Value :=
  match function with
  | UserFunction f => function_apply I f args ic
  | Builtin f =>
      match builtin_kind I f with
      | Native _ function cost_function =>
          charge cost_function (zlen args);;
          handle_apply function args ic
      | Native205 _ function cost_function cost_input_handle =>
          e ← epoch;
          cost_input ← (if epoch_leb Epoch2_05 e then lift (cost_input_handle args)
                        else mret (zlen args));
          charge cost_function cost_input;;
          handle_apply function args ic
      | Special _ _ => throw (expect_error "Should be unreachable.")
      end
  end.

Definition dispatch_args I (function : Callable) (identifier : string) (track_recursion : bool)
    (args : list Value) (used_memory : Z) ic : EM Value :=
  on_stack (modify (stack_insert identifier track_recursion));;
  finally (add_stack_trace (call_evaluated I function args ic))
    (release used_memory;; on_stack (stack_remove identifier track_recursion)).

(** An argument failed: the memory of those before it is given back. *)
Definition abandon {A} (used_memory : Z) (e : VmExecutionError) : EM A :=
  match_result (finally (throw e) (release used_memory))
    (fun a => on_stack (modify decr_apply_depth);; mret a)
    (fun e => on_stack (modify decr_apply_depth);; throw e).

(** The loop over the arguments; [value_of] is how each of them is evaluated. *)
Section Arguments.
Context {X : Type} (value_of : X -> EM Value).

Definition account_argument (arg : X) : EM (Value * Z) :=
  arg_value ← value_of arg;
  e ← epoch;
  arg_use ← costing (get_memory_use e arg_value);
  reserve arg_use;;
  mret (arg_value, arg_use).

Fixpoint account_arguments (args : list X) (used_memory : Z) (evaluated_args : list Value)
    : EM (list Value * Z) :=
  match args with
  | [] => mret (evaluated_args, used_memory)
  | arg :: args =>
      r ← attempt (account_argument arg);
      match r with
      | Ok (arg_value, arg_use) =>
          used_memory ← lift (unchecked_add used_memory arg_use);
          account_arguments args used_memory (evaluated_args ++ [arg_value])
      | Err e => abandon used_memory e
      | Panic => panic
      end
  end.

Definition call_with I (function : Callable) (identifier : string) (track_recursion : bool)
    (args : list X) ic : EM Value :=
  on_stack (modify incr_apply_depth);;
  evaluated ← account_arguments args 0 [];
  let '(evaluated_args, used_memory) := evaluated in
  on_stack (modify decr_apply_depth);;
  dispatch_args I function identifier track_recursion evaluated_args used_memory ic.
End Arguments.

(** The special form behind a reserved name *)
Definition special_of I (function : Callable)
    : option (list SymbolicExpression -> InvocationContext -> LocalContext -> EM Value) :=
  match function with
  | Builtin f => match builtin_kind I f with Special _ function => Some function | _ => None end
  | UserFunction _ => None
  end.

Definition apply I (function : Callable) (args : list SymbolicExpression) ic context : EM Value :=
  call ← check_call_preconditions I function;
  let '(identifier, track_recursion) := call in
  match special_of I function with
  | Some special => apply_special identifier track_recursion special args ic context
  | None => call_with (fun x => eval_clone I x ic context) I function identifier track_recursion args ic
  end.

(** [apply_evaluated] *)
Definition apply_values I (function : Callable) (args : list Value) ic context : EM Value :=
  call ← check_call_preconditions I function;
  let '(identifier, track_recursion) := call in
  match special_of I function with
  | Some special => apply_special identifier track_recursion special (AtomValue <$> args) ic context
  | None => call_with mret I function identifier track_recursion args ic
  end.

(** ** Evaluation *)

(** [eval], with [I] for the evaluations inside it *)
Definition eval_expr I (exp : SymbolicExpression) ic context : EM ValueRef :=
  match exp with
  | AtomValue value | LiteralValue value => mret (Owned value)
  | Atom value => lookup_variable value ic context
  | ExprList children =>
      match children with
      | [] => throw (unreachable "Non functional application")
      | function_variable :: rest =>
          function_name ← lift (ok_or (match_atom function_variable) (unreachable "Bad function name"));
          f ← lookup_function function_name ic;
          v ← apply I f rest ic context;
          mret (Owned v)
      end
  | TraitReference _ _ | Field _ =>
      throw (Internal (VI_BadSymbolicRepresentation "Unexpected trait reference"))
  end.

Definition out_of_fuel : Interp S := mkInterp (fun _ _ _ => panic) (fun _ _ _ _ => panic).

Definition interp_step I : Interp S := mkInterp (eval_expr I) (apply_values I).

Fixpoint interp (fuel : nat) : Interp S :=
  match fuel with
  | O => out_of_fuel
  | Datatypes.S fuel => interp_step (interp fuel)
  end.
End Interpreter.

(** More than the depth of any call stack *)
Definition EVAL_FUEL : nat := 130.
