(* ===== verification/FormRegimes.v ===== *)
(** * The special forms do what their evaluations do

    Two interpreters that run alike at depth [D] make every special form run
    alike at depth [D] ([forms_run]): a form keeps to the innermost context and
    to its part of the call stack if the evaluations inside it do. *)

From S2P Require Import Prelude.
From S2P Require Import Epochs.
From S2P Require Import Values.
From S2P Require Import Types.
From S2P Require Import RollbackStore.
From S2P Require Import NestedStore.
From S2P Require Import AssetMap.
From S2P Require Import VmErrors.
From S2P Require Import TypedValues.
From S2P Require Import Expressions.
From S2P Require Import Database.
From S2P Require Import STXLedger.
From S2P Require Import ContractData.
From S2P Require Import Contexts.
From S2P Require Import Contracts.
From S2P Require Import BlockInfo.
From S2P Require Import CostTables.
From S2P Require Import Costs.
From S2P Require Import CostFunctions.
From S2P Require Import Allowances.
From S2P Require Import TypeSyntax.
From S2P Require Import GlobalContext.
From S2P Require Import Regimes.
From S2P Require Import ExecutionState.
From S2P Require Import StoreRegimes.
From S2P Require Import SpecialForms.
From S2P Require Import EvalRegimes.
From S2P Require Import UserFunctions.
From S2P Require Import ValueForms.
From S2P Require Import DatabaseForms.
From S2P Require Import AssetForms.
From S2P Require Import PostConditionForms.
From S2P Require Import Interpreter.

(** The evaluations of two interpreters run alike. *)
Record interps_run {S} `{VmLibraries} `{VmStore S} `{!StoreFrames S} e D (I I' : Interp S) : Prop := {
  eval_runs x ic context : runs (eval_regime e D) (eval I x ic context) (eval I' x ic context);
  apply_runs f args ic context :
    runs (eval_regime e D) (apply_evaluated I f args ic context) (apply_evaluated I' f args ic context);
}.
#[export] Hint Resolve eval_runs apply_runs : runs.

Section Types.
Context `{VmLibraries} {S : Type} `{VmStore S} `{!StoreFrames S} (e : StacksEpochId) `{!VmFrames S e} (D : Z).
Abbreviation F := (eval_regime (S := S) e D).

Lemma runs_parse_pairs parse ty i l :
  Forall (fun x => forall y z, x = ExprList [y; z] -> runs F (parse z) (parse z)) l ->
  runs F (parse_pairs parse ty i l) (parse_pairs parse ty i l).
Proof.
  intros Hl. revert i. induction Hl as [| x l Hx _ IH]; intros i; [runs |].
  destruct x as [| | [| y [| z []]] | | |]; try apply runs_panic.
  specialize (Hx y z eq_refl). cbn [parse_pairs]. runs.
Qed.

Lemma runs_compound parse l :
  Forall (fun x => runs F (parse x) (parse x)) l ->
  runs F (parse_list_type_repr parse l) (parse_list_type_repr parse l) /\
  runs F (parse_optional_type_repr parse l) (parse_optional_type_repr parse l) /\
  runs F (parse_response_type_repr parse l) (parse_response_type_repr parse l).
Proof.
  intros Hl. unfold parse_list_type_repr, parse_optional_type_repr, parse_response_type_repr.
  destruct l as [| x1 [| x2 [| x3 l]]]; rewrite ?Forall_cons in Hl; destruct_and?; split_and!; runs.
Qed.

(** Reading a type charges for it. *)
Lemma runs_parse_type epoch x :
  runs F (parse_type_repr epoch x) (parse_type_repr epoch x).
Proof.
  enough (runs F (parse_type_repr epoch x) (parse_type_repr epoch x) /\
          match x with
          | ExprList l => Forall (fun x => runs F (parse_type_repr epoch x) (parse_type_repr epoch x)) l
          | _ => True
          end) by tauto.
  induction x as [| | l Hl | | |] using expr_induction; try (split; [cbn [parse_type_repr]; runs | done]).
  assert (Forall (fun x => runs F (parse_type_repr epoch x) (parse_type_repr epoch x)) l) as Hd
    by (eapply Forall_impl; [done | by intros ? []]).
  split; [| done]. destruct l as [| [] l]; cbn [parse_type_repr]; try by runs.
  apply Forall_cons in Hd as [_ Hd]. apply Forall_cons in Hl as [_ Hl].
  apply runs_bind; [runs |]. intros _.
  destruct (runs_compound _ _ Hd) as (Hlist & Hoptional & Hresponse).
  repeat (case_match; [try done; try apply runs_lift |]); try apply runs_lift.
  apply runs_bind; [| runs]. apply runs_bind; [runs |]. intros _. apply runs_parse_pairs.
  eapply Forall_impl; [exact Hl |]. intros x [_ Hx] y z ->. rewrite !Forall_cons in Hx. tauto.
Qed.
End Types.
#[export] Hint Resolve runs_parse_type : runs.

Lemma attempt_bind {S E A B} (m : M (ExecutionState S) E A)
    (k : result E A -> M (ExecutionState S) VmExecutionError B) st :
  (r ← attempt m; k r) st = match_result m (fun a => k (Ok a)) (fun err => k (Err err)) st.
Proof. unfold attempt, match_result, mbind, M_bind. by destruct (m st) as [[] ?]. Qed.

Section Forms.
Context `{VmLibraries} {S : Type} `{VmStore S} `{!StoreFrames S} (e : StacksEpochId) `{!VmFrames S e} (D : Z).
Context (I I' : Interp S) (HI : interps_run e D I I').
Abbreviation F := (eval_regime (S := S) e D).
Abbreviation form_runs f := (forall args ic context, runs F (f I args ic context) (f I' args ic context)).

(** ** Loops *)

Lemma runs_or_args : form_runs or_args.
Proof. induction args; intros; cbn [or_args]; runs. Qed.
Lemma runs_and_args : form_runs and_args.
Proof. induction args; intros; cbn [and_args]; runs. Qed.
Lemma runs_eval_args : form_runs eval_args.
Proof. induction args; intros; cbn [eval_args]; runs. Qed.
Lemma runs_eval_call_arguments : form_runs eval_call_arguments.
Proof. induction args; intros; cbn [eval_call_arguments]; runs. Qed.
Lemma runs_let_bodies bodies ic context r :
  runs F (let_bodies I bodies ic context r) (let_bodies I' bodies ic context r).
Proof. revert r. induction bodies; intros; cbn [let_bodies]; runs. Qed.
Lemma runs_charged_sizes n vs : runs F (charged_sizes n vs) (charged_sizes n vs).
Proof. revert n. induction vs; intros; cbn [charged_sizes]; runs. Qed.
Lemma runs_fold_elements f l acc ic context :
  runs F (fold_elements I f l acc ic context) (fold_elements I' f l acc ic context).
Proof. revert acc. induction l; intros; cbn [fold_elements]; runs. Qed.
Lemma runs_map_arguments args l n ic context :
  runs F (map_arguments I args l n ic context) (map_arguments I' args l n ic context).
Proof. revert l n. induction args; intros; cbn [map_arguments]; runs. Qed.
Lemma runs_map_apply f l n ic context :
  runs F (map_apply I f l n ic context) (map_apply I' f l n ic context).
Proof. revert n. induction l; intros; cbn [map_apply]; runs. Qed.
Lemma runs_map_iterators args n ic context :
  runs F (map_iterators I args n ic context) (map_iterators I' args n ic context).
Proof. revert n. induction args; intros; cbn [map_iterators]; runs. Qed.
Lemma runs_map_steps f n l ic context :
  runs F (map_steps I f n l ic context) (map_steps I' f n l ic context).
Proof. revert l. induction n; intros; cbn [map_steps]; runs. Qed.
Lemma runs_concat_arguments args n ic context :
  runs F (concat_arguments I args n ic context) (concat_arguments I' args n ic context).
Proof. revert n. induction args; intros; cbn [concat_arguments]; runs. Qed.
Lemma runs_concat_all seq l : runs F (concat_all seq l) (concat_all seq l).
Proof. revert seq. induction l; intros; cbn [concat_all]; runs. Qed.
Lemma runs_eval_bodies l r ic context :
  runs F (eval_bodies I l r ic context) (eval_bodies I' l r ic context).
Proof. revert r. induction l; intros; cbn [eval_bodies]; runs. Qed.
Lemma runs_charge_sizes l : runs F (charge_sizes l) (charge_sizes l).
Proof. induction l; cbn [charge_sizes]; runs. Qed.

Lemma runs_eval_bindings bindings ty ic context :
  runs F (parse_eval_bindings I bindings ty ic context) (parse_eval_bindings I' bindings ty ic context).
Proof.
  intros st Hst. unfold parse_eval_bindings.
  assert (runs (locals_regime e D _)
    (handle_binding_list vm_from_common ty (eval_binding I ic context) bindings)
    (handle_binding_list vm_from_common ty (eval_binding I' ic context) bindings)) as Hb.
  { apply runs_handle_bindings. runs. }
  destruct (Hb (st, []) Hst) as [<- Hr].
  destruct (handle_binding_list _ _ _ _ _) as [[] []]; split; try done; intros _; by apply Hr.
Qed.
#[local] Hint Resolve runs_or_args runs_and_args runs_eval_args runs_eval_call_arguments runs_let_bodies
  runs_charged_sizes runs_fold_elements runs_map_arguments runs_map_apply runs_map_iterators
  runs_map_steps runs_concat_arguments runs_concat_all runs_eval_bodies runs_charge_sizes
  runs_eval_bindings : runs.

(** ** Calls *)

Lemma runs_eval_body f ic context : runs F (eval_body I f ic context) (eval_body I' f ic context).
Proof.
  intros st Hst. destruct (eval_runs _ _ _ _ HI (df_body f) ic context st Hst) as [Heq Hr].
  unfold eval_body. rewrite <- Heq. destruct (eval I _ _ _ st) as [[r | err |] st1]; [| | done].
  - specialize (Hr ltac:(done)). destruct (runs_clone e D r st1 (rel_pre F _ _ Hr Hst)) as [_ Hr'].
    split; [done |]. intros Hp. eapply (rel_trans F); [done | by apply Hr'].
  - specialize (Hr ltac:(done)). split; [done |]. by destruct err as [| | | []].
Qed.
#[local] Hint Resolve runs_eval_body : runs.

Lemma runs_execute_apply f args ic : runs F (execute_apply I f args ic) (execute_apply I' f args ic).
Proof. runs. Qed.

Lemma runs_call_as_transaction ic f args c private :
  runs F (call_as_transaction I ic f args c private) (call_as_transaction I' ic f args c private).
Proof.
  unfold call_as_transaction. cbv zeta. destruct (df_is_read_only f).
  - apply runs_open; [apply begin_read_only_above |].
    apply closing_match; [apply runs_execute_apply | |]; intros.
    + apply (closing_roll_back e D (Ok a)).
    + apply (closing_roll_back e D (Err err)).
  - apply runs_open; [apply begin_above |].
    apply closing_match; [apply runs_execute_apply | |]; intros; apply closing_global;
      intros; apply closes_handle_tx_result.
Qed.

Lemma runs_function_apply f args ic : runs F (function_apply I f args ic) (function_apply I' f args ic).
Proof.
  unfold function_apply. destruct (define_type f);
    eauto using runs_call_as_transaction, runs_execute_apply.
Qed.

Lemma runs_call_in_contract ic c id f name args private :
  runs F (call_in_contract I ic c id f name args private) (call_in_contract I' ic c id f name args private).
Proof.
  apply runs_bind; [runs |]. intros st. apply runs_bind; [runs |]. intros _.
  eapply runs_ext; [intros; symmetry; apply M_bind_assoc .. |]. apply runs_bind.
  - apply runs_frame; [| apply pops_remove]. apply (runs_deeper _ D); [lia | apply runs_call_as_transaction].
  - intros v. destruct (get_cc_special_cases_handler id) eqn:Hh; [| runs].
    apply runs_bind; [| runs]. apply runs_on_global_at. by eapply frames_handler.
Qed.

Lemma runs_execute_contract ic id name args read_only :
  runs F (execute_contract I ic id name args read_only) (execute_contract I' ic id name args read_only).
Proof. pose proof runs_call_in_contract. runs. Qed.
#[local] Hint Resolve runs_execute_contract : runs.

(** ** Contexts opened by forms *)

Lemma runs_at_block bhh closure ic context : supports_at_block e = true ->
  runs F (evaluate_at_block I bhh closure ic context) (evaluate_at_block I' bhh closure ic context).
Proof.
  intros He. apply runs_open; [apply begin_read_only_above |]. apply closing_finally.
  - pose proof (fun b q => frames_set_block_hash (S := S) b q He). runs.
  - apply closing_global, closes_roll_back.
Qed.

Lemma runs_body_with_allowances owner l bodies ic context :
  runs F (evaluate_body_with_allowance_check I owner l bodies ic context)
         (evaluate_body_with_allowance_check I' owner l bodies ic context).
Proof.
  apply runs_epoch. apply runs_open; [apply begin_above |].
  eapply closing_ext; [intros; apply attempt_bind .. |].
  apply closing_match; [apply runs_eval_bodies; done | |].
  all: intros r; match goal with |- closing _ _ match ?x with _ => _ end _ => destruct x end;
    [apply closing_roll_back |]; apply closing_asset_map; intros am.
  all: destruct (check_allowances owner l am e) as [[] | |];
    [apply (closing_roll_back e D (map_err vm_from_type (value_error (UInt z)))) |
     apply closing_then; [apply closing_global, closes_commit | runs] |
     apply (closing_roll_back e D (Err e0)) | by split].
Qed.

Lemma runs_gather_restricted n b l m as_ ic context :
  runs F (gather_restricted I n b l m as_ ic context) (gather_restricted I' n b l m as_ ic context).
Proof. revert m as_. induction l; intros; cbn [gather_restricted]; runs. Qed.
Lemma runs_gather_allowances l m as_ ic context :
  runs F (gather_allowances I l m as_ ic context) (gather_allowances I' l m as_ ic context).
Proof. revert m as_. induction l; intros; cbn [gather_allowances]; runs. Qed.
#[local] Hint Resolve runs_body_with_allowances runs_gather_restricted runs_gather_allowances : runs.

(** ** The table of the native functions *)

Definition kinds_run (k k' : BuiltinKind S) : Prop :=
  match k, k' with
  | Native name h c, Native name' h' c' =>
      name = name' /\ h = h' /\ c = c' /\
      forall args ic, runs F (handle_apply h args ic) (handle_apply h args ic)
  | Native205 name h c cost, Native205 name' h' c' cost' =>
      name = name' /\ h = h' /\ c = c' /\ cost = cost' /\
      forall args ic, runs F (handle_apply h args ic) (handle_apply h args ic)
  | Special name f, Special name' f' =>
      name = name' /\ forall args ic context, runs F (f args ic context) (f' args ic context)
  | _, _ => False
  end.

Lemma runs_special_at_block : form_runs special_at_block.
Proof.
  intros args ic context. apply runs_epoch. destruct (supports_at_block e) eqn:He.
  - pose proof (fun b c ic context => runs_at_block b c ic context He). runs.
  - apply (runs_throw _ (RuntimeCheck RC_AtBlockUnavailable)).
Qed.

Lemma runs_special_concat_v200 : form_runs special_concat_v200.
Proof. runs. Qed.
Lemma runs_special_concat_v205 : form_runs special_concat_v205.
Proof. runs. Qed.
Lemma runs_special_concat_v400 : form_runs special_concat_v400.
Proof. runs. Qed.
#[local] Hint Resolve runs_special_concat_v200 runs_special_concat_v205 runs_special_concat_v400 : runs.


Lemma runs_special_concat : form_runs special_concat.
Proof. intros args ic context. apply runs_epoch. generalize e at 2 3. intros e'. destruct e'; runs. Qed.

Lemma runs_switch (f g f' g' : list SymbolicExpression -> InvocationContext -> LocalContext ->
    M (ExecutionState S) VmExecutionError Value) args ic context :
  runs F (f args ic context) (f' args ic context) -> runs F (g args ic context) (g' args ic context) ->
  runs F (switch_on_global_epoch f g args ic context) (switch_on_global_epoch f' g' args ic context).
Proof.
  intros Hf Hg. apply runs_epoch. generalize e at 2 3. intros e'. destruct e'; try done; runs.
Qed.

(** Forms that exist in two generations are taken one at a time. *)
Ltac form :=
  first [ lazymatch goal with |- runs _ ?m _ => let h := term_head m in unfold h; apply runs_switch; runs end
        | runs ].

#[local] Hint Resolve runs_special_at_block runs_special_concat : runs.

Lemma forms_run f : kinds_run (builtin_kind I f) (builtin_kind I' f).
Proof.
  destruct f; cbn [builtin_kind kinds_run]; split_and!; try reflexivity; intros; form.
Qed.
End Forms.
