(* ===== verification/Evaluation.v ===== *)
(** * Evaluation ends

    The recursion of [eval] and [apply] is bounded by the call stack. Two
    interpreters that run alike one application deeper run alike after one more
    step ([interps_step]), and at the depth limit every application fails before
    it evaluates anything ([interps_at_limit]). So what an interpreter with
    [EVAL_FUEL] steps computes does not depend on what it would do when it runs
    out of them, and it satisfies the recursive equations of the code. *)

From S2P Require Import Prelude.
From S2P Require Import Epochs.
From S2P Require Import Values.
From S2P Require Import Types.
From S2P Require Import RollbackStore.
From S2P Require Import NestedStore.
From S2P Require Import AssetMap.
From S2P Require Import VmErrors.
From S2P Require Import TypedValues.
From S2P Require Import Expressions.
From S2P Require Import Database.
From S2P Require Import ContractData.
From S2P Require Import Contexts.
From S2P Require Import Contracts.
From S2P Require Import CostTables.
From S2P Require Import Costs.
From S2P Require Import CostFunctions.
From S2P Require Import Allowances.
From S2P Require Import GlobalContext.
From S2P Require Import Regimes.
From S2P Require Import ExecutionState.
From S2P Require Import StoreRegimes.
From S2P Require Import SpecialForms.
From S2P Require Import EvalRegimes.
From S2P Require Import UserFunctions.
From S2P Require Import PostConditionForms.
From S2P Require Import Interpreter.
From S2P Require Import FormRegimes.

Section Step.
Context `{VmLibraries} {S : Type} `{VmStore S} `{!StoreFrames S} (e : StacksEpochId) `{!VmFrames S e} (D : Z).
Context (I I' : Interp S).
Abbreviation F := (eval_regime (S := S) e D).
Abbreviation F1 := (eval_regime (S := S) e (D + 1)).

Lemma get_identifier_same f : get_identifier I f = get_identifier I' f.
Proof. destruct f as [| []]; reflexivity. Qed.

Lemma runs_check_call f : runs F (check_call_preconditions I f) (check_call_preconditions I' f).
Proof. unfold check_call_preconditions. rewrite get_identifier_same. runs. Qed.

Lemma runs_add_stack_trace {A} (m m' : M (ExecutionState S) VmExecutionError A) :
  runs F m m' -> runs F (add_stack_trace m) (add_stack_trace m').
Proof.
  intros Hm st Hst. destruct (Hm st Hst) as [Heq Hr]. unfold add_stack_trace. rewrite <- Heq.
  destruct (m st) as [[a | err |] st1]; [done | | done]. specialize (Hr ltac:(done)).
  split; [done |]. by destruct err as [| | ? [] |].
Qed.
End Step.

Section Apply.
Context `{VmLibraries} {S : Type} `{VmStore S} `{!StoreFrames S} (e : StacksEpochId) `{!VmFrames S e} (D : Z).
Context (I I' : Interp S) (HI : interps_run e (D + 1) I I').
Abbreviation F := (eval_regime (S := S) e D).
Abbreviation F1 := (eval_regime (S := S) e (D + 1)).

Lemma runs_call_evaluated f args ic : runs F1 (call_evaluated I f args ic) (call_evaluated I' f args ic).
Proof.
  unfold call_evaluated. destruct f as [f | f]; [by apply runs_function_apply |].
  pose proof (forms_run e (D + 1) I I' HI f) as Hf.
  destruct (builtin_kind I f), (builtin_kind I' f); cbn [kinds_run] in Hf; try done; [| | runs].
  - destruct Hf as (_ & <- & <- & Hh). runs.
  - destruct Hf as (_ & <- & <- & <- & Hh). runs.
Qed.

Lemma runs_dispatch f identifier track args n ic :
  runs F (dispatch_args I f identifier track args n ic) (dispatch_args I' f identifier track args n ic).
Proof.
  apply runs_frame; [| apply pops_release, pops_remove].
  apply runs_add_stack_trace, runs_call_evaluated.
Qed.

Lemma runs_special f special special' identifier track args ic context :
  special_of I f = Some special -> special_of I' f = Some special' ->
  runs F (apply_special identifier track special args ic context)
         (apply_special identifier track special' args ic context).
Proof.
  intros Hs Hs'. apply runs_frame; [| apply pops_remove]. apply runs_add_stack_trace.
  destruct f as [f | f]; [done |]. pose proof (forms_run e (D + 1) I I' HI f) as Hf. cbn in Hs, Hs'.
  destruct (builtin_kind I f), (builtin_kind I' f); simplify_eq; by apply Hf.
Qed.

(** ** Arguments *)

(** The state in which one application less is in progress *)
Definition stepped_back (st : ExecutionState S) : ExecutionState S :=
  mkExecutionState (global_context st) (decr_apply_depth (call_stack st)).

Lemma step_back_throw {A} (err : VmExecutionError) st :
  (on_stack (modify decr_apply_depth);; throw (A := A) err) st = (Err err, stepped_back st).
Proof. done. Qed.

Lemma advances_stepped_back st st' : advances st st' -> advances (stepped_back st) (stepped_back st').
Proof. intros [Hi [? ?]]. split; [done | split; cbn; lia]. Qed.

(** An argument that fails ends the application. *)
Lemma abandon_spec {A} used err st :
  epoch_id (global_context st) = e ->
  match abandon (A := A) used err st with
  | (Ok _, _) => False
  | (Err _, st') => advances (stepped_back st) st'
  | (Panic, _) => True
  end.
Proof.
  intros He. unfold abandon, match_result, finally.
  destruct (runs_release e (call_depth (call_stack st)) used st) as [_ Hr]; [by split |].
  change (throw err st) with (Err (A := A) err, st). cbn beta iota.
  destruct (release used st) as [[[] | err' |] st1]; cbn in Hr; [| | done];
    rewrite step_back_throw; by apply advances_stepped_back, Hr.
Qed.

Section Arguments.
Context {X : Type} (value_of value_of' : X -> M (ExecutionState S) VmExecutionError Value).
Context (Hvalue : forall x, runs F1 (value_of x) (value_of' x)).

Definition accounts {A} (st : ExecutionState S) (r : result VmExecutionError A * ExecutionState S) : Prop :=
  match r with
  | (Ok _, st') => advances st st'
  | (Err _, st') => advances (stepped_back st) st'
  | (Panic, _) => True
  end.

Lemma account_spec args used evaluated st : pre F1 st ->
  account_arguments value_of args used evaluated st = account_arguments value_of' args used evaluated st /\
  accounts st (account_arguments value_of args used evaluated st).
Proof.
  revert used evaluated st. induction args as [| x args IH]; intros used evaluated st Hst; cbn [account_arguments].
  { split; [done | apply (rel_refl F1)]. }
  assert (runs F1 (account_argument value_of x) (account_argument value_of' x)) as Hx by runs.
  destruct (Hx st Hst) as [Heq Hr]. rewrite !attempt_bind. unfold match_result. rewrite <- Heq.
  destruct (account_argument value_of x st) as [[[v n] | err |] st1]; cbn in Hr; [| | done];
    specialize (Hr ltac:(done)); pose proof (rel_pre F1 _ _ Hr Hst) as Hst1.
  - unfold unchecked_add. destruct (u64_checked_add used n) as [total |]; [| done].
    rewrite !(M_bind_eval (lift _) _ _ total st1) by done.
    destruct (IH total (evaluated ++ [v]) st1 Hst1) as [Heq' Ha]. split; [done |].
    revert Ha. unfold accounts. destruct (account_arguments value_of args _ _ _) as [[] st2]; [| | done].
    + intros Ha. by eapply (rel_trans F1).
    + intros Ha. eapply (rel_trans F1); [by apply advances_stepped_back | done].
  - split; [done |]. unfold accounts.
    pose proof (abandon_spec (A := list Value * Z) used err st1 (proj1 Hst1)) as Ha.
    destruct (abandon used err st1) as [[] st2]; [done | | done].
    eapply (rel_trans F1); [by apply advances_stepped_back | done].
Qed.

Lemma runs_call_with f identifier track args ic :
  runs F (call_with value_of I f identifier track args ic) (call_with value_of' I' f identifier track args ic).
Proof.
  intros [g c] [He HD]. unfold call_with. set (st1 := mkExecutionState g (incr_apply_depth c)).
  rewrite !(M_bind_eval (on_stack (modify incr_apply_depth)) _ _ tt st1) by done.
  assert (pre F1 st1) as Hst1 by (split; [done | unfold call_depth in *; cbn in *; lia]).
  assert (forall st', advances (stepped_back st1) st' -> advances (mkExecutionState g c) st') as Hback.
  { intros st' [Hi [? ?]]. split; [done | split; cbn in *; lia]. }
  destruct (account_spec args 0 [] st1 Hst1) as [Heq Ha].
  destruct (account_arguments value_of args 0 [] st1) as [[[values used] | err |] st2] eqn:E; symmetry in Heq.
  - rewrite (M_bind_eval _ _ _ _ _ E), (M_bind_eval _ _ _ _ _ Heq).
    rewrite !(M_bind_eval (on_stack (modify decr_apply_depth)) _ _ tt (stepped_back st2)) by done.
    apply advances_stepped_back, Hback in Ha.
    destruct (runs_dispatch f identifier track values used ic (stepped_back st2)) as [Heq' Hr].
    { by apply (rel_pre F _ _ Ha). }
    split; [done |]. intros Hp. eapply (rel_trans F); [done | by apply Hr].
  - rewrite (M_bind_Err _ _ _ _ _ E), (M_bind_Err _ _ _ _ _ Heq). split; [done |]. intros _. by apply Hback.
  - by rewrite (M_bind_Panic _ _ _ _ E), (M_bind_Panic _ _ _ _ Heq).
Qed.
End Arguments.

(** ** One step *)

Lemma runs_apply_body {X} (value_of value_of' : X -> M (ExecutionState S) VmExecutionError Value) f
    exprs args ic context :
  (forall x, runs F1 (value_of x) (value_of' x)) ->
  runs F
    (call ← check_call_preconditions I f;
     let '(identifier, track_recursion) := call in
     match special_of I f with
     | Some special => apply_special identifier track_recursion special exprs ic context
     | None => call_with value_of I f identifier track_recursion args ic
     end)
    (call ← check_call_preconditions I' f;
     let '(identifier, track_recursion) := call in
     match special_of I' f with
     | Some special => apply_special identifier track_recursion special exprs ic context
     | None => call_with value_of' I' f identifier track_recursion args ic
     end).
Proof.
  intros Hv. apply runs_bind; [apply runs_check_call |]. intros [identifier track].
  destruct (special_of I f) as [special |] eqn:Hs, (special_of I' f) as [special' |] eqn:Hs'.
  - by eapply runs_special.
  - destruct f as [| []]; discriminate.
  - destruct f as [| []]; discriminate.
  - by apply runs_call_with.
Qed.

Lemma interps_step : interps_run e D (interp_step I) (interp_step I').
Proof.
  split; cbn [interp_step eval apply_evaluated].
  - intros x ic context. destruct x as [| | [| y rest] | | |]; try solve [runs].
    unfold eval_expr. apply runs_bind; [runs |]. intros name. apply runs_bind; [runs |]. intros f.
    apply runs_bind; [| runs]. apply runs_apply_body. intros. runs.
  - intros f args ic context. apply runs_apply_body. runs.
Qed.
End Apply.

(** ** The depth limit *)

Section Limit.
Context `{VmLibraries} {S : Type} `{VmStore S} `{!StoreFrames S} (e : StacksEpochId) `{!VmFrames S e}.
Abbreviation F D := (eval_regime (S := S) e D).

(** At the limit an application fails, and changes nothing. *)
Lemma call_fails_at_limit D I f st :
  max_call_stack_depth_for_epoch e <= D -> pre (F D) st ->
  exists err, check_call_preconditions I f st = (Err err, st).
Proof.
  intros HD [He Hst].
  assert (stack_depth (call_stack st) <? max_call_stack_depth_for_epoch e = false) as Hlimit; cycle 1.
  { unfold check_call_preconditions. erewrite M_bind_eval by done.
    destruct (negb (is_user_function f && _)); [| by eexists].
    erewrite M_bind_eval by done. rewrite (M_bind_eval epoch _ st e st) by (unfold epoch; by rewrite <- He).
    rewrite Hlimit. by eexists. }
  apply Z.ltb_ge. unfold stack_depth, u64_saturating_add, call_depth in *.
  assert (max_call_stack_depth_for_epoch e <= u64_max); [| lia].
  unfold max_call_stack_depth_for_epoch. by destruct (epoch_leb Epoch34 e).
Qed.

Lemma runs_at_limit D I I' f {A} (k k' : string * bool -> M (ExecutionState S) VmExecutionError A) :
  max_call_stack_depth_for_epoch e <= D ->
  runs (F D) (x ← check_call_preconditions I f; k x) (x ← check_call_preconditions I' f; k' x).
Proof.
  intros HD st Hst. destruct (call_fails_at_limit D I f st HD Hst) as [err E].
  destruct (runs_check_call e D I I' f st Hst) as [Heq _]. rewrite E in Heq. symmetry in Heq.
  rewrite (M_bind_Err _ _ _ _ _ E), (M_bind_Err _ _ _ _ _ Heq). split; [done |]. intros _. apply (rel_refl (F D)).
Qed.

Lemma interps_at_limit D (I I' : Interp S) :
  max_call_stack_depth_for_epoch e <= D -> interps_run e D (interp_step I) (interp_step I').
Proof.
  intros HD. split; cbn [interp_step eval apply_evaluated].
  - intros x ic context. destruct x as [| | [| y rest] | | |]; try solve [runs].
    unfold eval_expr. do 2 (apply runs_bind; [runs | intros ?]).
    apply runs_bind; [by apply runs_at_limit | runs].
  - intros f args ic context. by apply runs_at_limit.
Qed.

(** Steps enough for the applications that are left *)
Lemma interps_deep n D (I I' : Interp S) :
  max_call_stack_depth_for_epoch e <= D + Z.of_nat n ->
  interps_run e D (Nat.iter (Datatypes.S n) interp_step I) (Nat.iter (Datatypes.S n) interp_step I').
Proof.
  revert D. induction n as [| n IH]; intros D HD.
  - apply interps_at_limit. lia.
  - refine (interps_step e D _ _ (IH _ _)). lia.
Qed.

Lemma max_depth_bounds : 0 < max_call_stack_depth_for_epoch e <= 128.
Proof. unfold max_call_stack_depth_for_epoch. by destruct (epoch_leb Epoch34 e). Qed.

Lemma interps_enough n (I I' : Interp S) :
  (EVAL_FUEL <= n)%nat -> interps_run e 0 (Nat.iter n interp_step I) (Nat.iter n interp_step I').
Proof.
  intros Hn. pose proof max_depth_bounds. destruct n as [| n]; [unfold EVAL_FUEL in Hn; lia |].
  apply interps_deep. unfold EVAL_FUEL in Hn. lia.
Qed.
End Limit.

Lemma interp_iter `{VmLibraries} {S} `{VmStore S} n :
  interp n = Nat.iter n (interp_step (S := S)) out_of_fuel.
Proof. induction n as [| n IH]; [done |]. cbn [interp]. by rewrite IH. Qed.

(** ** Evaluation ends *)

(** No demand on the database *)
Definition any_frames (S : Type) `{NestedStore S} : StoreFrames S.
Proof. refine (Build_StoreFrames S _ (fun _ _ => True) (fun _ _ => True) _ _ _ _ _ _); done. Defined.

#[local] Existing Instance any_frames.

(** The node's handlers work in the context they are called in. *)
Definition handlers_confined (S : Type) `{VmLibraries} `{VmStore S} : Prop :=
  forall c h sender sponsor c' f args v, get_cc_special_cases_handler (S := S) c = Some h ->
    confined (h sender sponsor c' f args v).

Section Termination.
Context `{VmLibraries} {S : Type} `{VmStore S}.
Implicit Types st : ExecutionState S.

Lemma any_store_runs {E A} (m : M S E A) : runs (store_regime) m m.
Proof. by split. Qed.

Lemma any_vm_frames e : handlers_confined S -> VmFrames S e.
Proof. intros Hh. split; [split | |]; eauto using any_store_runs, confined_at_all. Qed.

(** Whatever is beyond the steps *)
Lemma interps_same n I st :
  handlers_confined S -> (EVAL_FUEL <= n)%nat -> 0 <= call_depth (call_stack st) ->
  (forall x ic context,
     eval (Nat.iter n interp_step I) x ic context st = eval (interp EVAL_FUEL) x ic context st) /\
  (forall f args ic context,
     apply_evaluated (Nat.iter n interp_step I) f args ic context st =
     apply_evaluated (interp EVAL_FUEL) f args ic context st).
Proof.
  intros Hh Hn Hst. set (e := epoch_id (global_context st)).
  pose proof (any_vm_frames e Hh) as Hframes.
  assert (interps_run e 0 (Nat.iter n interp_step I) (interp EVAL_FUEL)) as [He Ha].
  { rewrite interp_iter. replace n with (EVAL_FUEL + (n - EVAL_FUEL))%nat by lia.
    rewrite Nat.iter_add. by apply interps_enough. }
  split; intros; [apply (He _ _ _ st) | apply (Ha _ _ _ _ st)]; done.
Qed.
End Termination.
