(* ===== verification/Transactions.v ===== *)
(** * Deployments and transactions

    [eval_all] of [clarity/src/vm/mod.rs], [Contract::initialize_from_ast] of
    [contracts.rs], and of [contexts.rs] [initialize_contract_from_ast] and the
    [OwnedEnvironment] in which the node runs a transaction. *)

From S2P Require Import Prelude.
From S2P Require Import Bytes.
From S2P Require Import BTree.
From S2P Require Import Epochs.
From S2P Require Import Values.
From S2P Require Import Types.
From S2P Require Import RollbackStore.
From S2P Require Import NestedStore.
From S2P Require Import C32.
From S2P Require Import Database.
From S2P Require Import AssetMap.
From S2P Require Import VmErrors.
From S2P Require Import TypedValues.
From S2P Require Import Expressions.
From S2P Require Import ContractData.
From S2P Require Import Contexts.
From S2P Require Import CostTables.
From S2P Require Import Costs.
From S2P Require Import Contracts.
From S2P Require Import CostFunctions.
From S2P Require Import Allowances.
From S2P Require Import GlobalContext.
From S2P Require Import ExecutionState.
From S2P Require Import SpecialForms.
From S2P Require Import UserFunctions.
From S2P Require Import PostConditionForms.
From S2P Require Import Definitions.

Section Deployment.
Context `{VmLibraries} {S : Type} `{VmStore S} (I : Interp S).
Implicit Types (ic : InvocationContext) (c : ContractContext).

Abbreviation EM := (M (ExecutionState S) VmExecutionError).
Abbreviation GM := (M (GlobalContext S) VmExecutionError).
Abbreviation VmR := (result VmExecutionError).

(** ** [eval_all] *)

(** What the loop over the expressions changes, the global context apart *)
Record Deploying := mkDeploying {
  dp_contract : ContractContext;
  dp_last_executed : option Value;
  dp_total_memory_use : Z;
}.

Definition on_contract (f : ContractContext -> ContractContext) (d : Deploying) : Deploying :=
  mkDeploying (f (dp_contract d)) (dp_last_executed d) (dp_total_memory_use d).

(** An execution with a call stack of its own *)
Definition with_new_stack {A} (m : EM A) : GM A := fun g =>
  let '(r, st) := m (mkExecutionState g CallStack_new) in (r, global_context st).

Definition deployer (sponsor : option PrincipalData) c : InvocationContext :=
  let publisher := Standard (issuer (cc_identifier c)) in
  mkInvocation c (Some publisher) (Some publisher) sponsor.

Definition gc_charge (cost_function : ClarityCostFunction.t) (input : Z) : GM unit :=
  mmap_err vm_from_cost (runtime_cost cost_function input).
Definition gc_reserve (memory : Z) : GM unit := mmap_err vm_from_cost (add_memory memory).
Definition gc_typing {A} (r : TypeR A) : GM A := lift (map_err vm_from_type r).

(** Reserve what the description of a type takes. *)
Definition reserve_type (t : TypeSignature) : GM unit :=
  g ← get;
  size ← lift (map_err (fun _ => expect_error "Type size should be realizable")
                 (charged_type_size (epoch_id g) t));
  gc_reserve size.

Definition persisted (name : ClarityName) : ContractContext -> ContractContext := fun c =>
  set_persisted_names ({[name]} ∪ persisted_names c) c.

(** Enter a definition into the contract. *)
Definition enter_definition (def : DefineResult) (d : Deploying) : GM Deploying :=
  let c := dp_contract d in
  let contract_identifier := cc_identifier c in
  g ← get;
  let e := epoch_id g in
  match def with
  | DefineVariable name value =>
      gc_charge ClarityCostFunction.BindName 0;;
      value_memory_use ← lift (map_err vm_from_cost (get_memory_use e value));
      gc_reserve value_memory_use;;
      total_memory_use ← lift (unchecked_add (dp_total_memory_use d) value_memory_use);
      mret (mkDeploying (set_cc_variables (<[name := value]> (cc_variables c)) c)
              (dp_last_executed d) total_memory_use)
  | DefineFunction name value =>
      gc_charge ClarityCostFunction.BindName 0;;
      mret (on_contract (fun c => set_cc_functions (<[name := value]> (cc_functions c)) c) d)
  | DefinePersistedVariable name value_type value =>
      value_size ← gc_typing (charged_size e value_type);
      gc_charge ClarityCostFunction.CreateVar value_size;;
      reserve_type value_type;;
      size ← gc_typing (value_charged_size e value);
      gc_reserve size;;
      data_type ← on_database (create_variable contract_identifier name value_type);
      on_database (set_variable contract_identifier name value data_type e);;
      mret (on_contract (fun c => set_meta_data_var (<[name := data_type]> (meta_data_var c))
                                    (persisted name c)) d)
  | DefineMap name key_type value_type =>
      key_size ← gc_typing (charged_size e key_type);
      value_size ← gc_typing (charged_size e value_type);
      size ← lift (map_err vm_from_cost (cost_overflow_add key_size value_size));
      gc_charge ClarityCostFunction.CreateMap size;;
      reserve_type key_type;;
      reserve_type value_type;;
      data_type ← on_database (create_map contract_identifier name key_type value_type);
      mret (on_contract (fun c => set_meta_data_map (<[name := data_type]> (meta_data_map c))
                                    (persisted name c)) d)
  | DefineFungibleToken name total_supply =>
      gc_charge ClarityCostFunction.CreateFt 0;;
      reserve_type UIntType;;
      data_type ← on_database (create_fungible_token contract_identifier name total_supply);
      mret (on_contract (fun c => set_meta_ft (<[name := data_type]> (meta_ft c)) (persisted name c)) d)
  | DefineNonFungibleAsset name asset_type =>
      asset_size ← gc_typing (charged_size e asset_type);
      gc_charge ClarityCostFunction.CreateNft asset_size;;
      reserve_type asset_type;;
      data_type ← on_database (create_non_fungible_token contract_identifier name asset_type);
      mret (on_contract (fun c => set_meta_nft (<[name := data_type]> (meta_nft c)) (persisted name c)) d)
  | DefineTrait name trait_type =>
      mret (on_contract (fun c => set_defined_traits (<[name := trait_type]> (defined_traits c)) c) d)
  | DefineUseTrait _ _ => mret d
  | DefineImplTrait trait_identifier =>
      mret (on_contract (fun c => set_implemented_traits ({[trait_identifier]} ∪ implemented_traits c) c) d)
  | NoDefine => mret d
  end.

(** One expression: a definition, or an expression to evaluate *)
Definition deploy_expression (sponsor : option PrincipalData) (exp : SymbolicExpression) (d : Deploying)
    : GM Deploying :=
  let ic := deployer sponsor (dp_contract d) in
  try_define ← execute (with_new_stack (evaluate_define I exp ic));
  match try_define with
  | NoDefine =>
      result ← execute (with_new_stack (eval_clone I exp ic LocalContext_new));
      mret (mkDeploying (dp_contract d) (Some result) (dp_total_memory_use d))
  | def => enter_definition def d
  end.

(** The closure of [finally_drop_memory!]: the memory to release, and its result *)
Fixpoint deploy_expressions (sponsor : option PrincipalData) (expressions : list SymbolicExpression)
    (d : Deploying) : GM (Z * VmR Deploying) :=
  match expressions with
  | [] => mret (dp_total_memory_use d, Ok (on_contract (set_data_size (dp_total_memory_use d)) d))
  | exp :: expressions =>
      match_result (deploy_expression sponsor exp d)
        (deploy_expressions sponsor expressions)
        (fun e => mret (dp_total_memory_use d, Err e))
  end.

Definition eval_all (expressions : list SymbolicExpression) c (sponsor : option PrincipalData)
    : GM (ContractContext * option Value) :=
  closure ← deploy_expressions sponsor expressions (mkDeploying c None 0);
  let '(total_memory_use, result) := closure in
  mmap_err vm_from_cost (drop_memory total_memory_use);;
  d ← lift result;
  mret (dp_contract d, dp_last_executed d).

(** [Contract::initialize_from_ast]; a contract's syntax tree is its
    expressions. *)
Definition initialize_from_ast (contract_identifier : QualifiedContractIdentifier)
    (contract : list SymbolicExpression) (sponsor : option PrincipalData) (version : ClarityVersion)
    : GM ContractContext :=
  let contract_context := set_is_deploying true (ContractContext_new contract_identifier version) in
  r ← eval_all contract contract_context sponsor;
  mret (set_is_deploying false r.1).

(** ** [ExecutionState::initialize_contract_from_ast] *)

Definition make_contract (contract_identifier : QualifiedContractIdentifier) (contract_version : ClarityVersion)
    (contract_content : list SymbolicExpression) (contract_string : string) ic : EM ContractContext :=
  charge ClarityCostFunction.ContractStorage (str_len contract_string);;
  st ← get;
  ensure (negb (has_contract contract_identifier (database (global_context st))))
    (formatted_unreachable ("Contract already exists: " +:+ contract_to_string contract_identifier));;
  on_db (insert_contract_hash contract_identifier contract_string);;
  let memory_use := str_len contract_string in
  reserve memory_use;;
  finally
    (on_global (initialize_from_ast contract_identifier contract_content (ic_sponsor ic) contract_version))
    (release memory_use).

(** An error in storing the contract leaves the context open. *)
Definition initialize_contract_from_ast ic (contract_identifier : QualifiedContractIdentifier)
    (contract_version : ClarityVersion) (contract_content : list SymbolicExpression) (contract_string : string)
    : EM unit :=
  on_global (modify begin_);;
  match_result (make_contract contract_identifier contract_version contract_content contract_string ic)
    (fun contract =>
       let data_size := data_size contract in
       on_db (insert_contract contract_identifier contract);;
       on_db (set_contract_data_size contract_identifier data_size);;
       on_global gc_commit;;
       mret tt)
    (fun e => on_global gc_roll_back;; throw e).

(** ** [OwnedEnvironment] *)

(** The environment is the state of an execution between transactions. *)
Definition owned_commit : EM (AssetMap * EventBatch) :=
  r ← on_global gc_commit;
  asset_map ← lift (ok_or r.1 (Internal VI_FailedToConstructAssetTable));
  event_batch ← lift (ok_or r.2 (Internal VI_FailedToConstructEventBatch));
  mret (asset_map, event_batch).

Definition execute_in_env {A} (sender : PrincipalData) (sponsor : option PrincipalData)
    (initial_context : option ContractContext) (f : InvocationContext -> EM A)
    : EM (A * AssetMap * EventBatch) :=
  st ← get;
  assert_true (is_top_level (global_context st));;
  on_global (modify begin_);;
  let initial_context := default (ContractContext_new transient_contract Clarity1) initial_context in
  match_result (f (mkInvocation initial_context (Some sender) (Some sender) sponsor))
    (fun return_value =>
       committed ← owned_commit;
       mret (return_value, committed.1, committed.2))
    (fun e => on_global gc_roll_back;; throw e).

Definition deploy_contract (contract_identifier : QualifiedContractIdentifier)
    (clarity_version : ClarityVersion) (contract_content : list SymbolicExpression) (contract_string : string)
    (sponsor : option PrincipalData) : EM (unit * AssetMap * EventBatch) :=
  execute_in_env (Standard (issuer contract_identifier)) sponsor
    (Some (ContractContext_new transient_contract clarity_version))
    (fun ic => initialize_contract_from_ast ic contract_identifier clarity_version contract_content
                 contract_string).

Definition execute_transaction (sender : PrincipalData) (sponsor : option PrincipalData)
    (contract_identifier : QualifiedContractIdentifier) (tx_name : string) (args : list Value)
    : EM (Value * AssetMap * EventBatch) :=
  execute_in_env sender sponsor None (fun ic => execute_contract I ic contract_identifier tx_name args false).

(** [ExecutionState::stx_transfer] with the chain as the database sees it *)
Definition transfer_in_env ic (from to : PrincipalData) (amount : Z) (memo : list Z) : EM Value :=
  st ← get;
  on_global (stx_transfer (chain_env (database (global_context st))) event_value_size ic from to amount memo).

Definition execute_stx_transfer (from to : PrincipalData) (amount : Z) (memo : list Z)
    : EM (Value * AssetMap * EventBatch) :=
  execute_in_env from None None (fun ic => transfer_in_env ic from to amount memo).
End Deployment.
