(* ===== verification/DeploymentRegimes.v ===== *)
(** * What a deployment keeps

    The expressions of a contract are evaluated one by one, each in a context
    and with a call stack of its own. Two interpreters that run alike make
    deployments run alike ([runs_make_contract]). *)

From S2P Require Import Prelude.
From S2P Require Import Epochs.
From S2P Require Import Values.
From S2P Require Import Types.
From S2P Require Import RollbackStore.
From S2P Require Import NestedStore.
From S2P Require Import AssetMap.
From S2P Require Import VmErrors.
From S2P Require Import TypedValues.
From S2P Require Import Expressions.
From S2P Require Import Database.
From S2P Require Import ContractData.
From S2P Require Import Contexts.
From S2P Require Import Contracts.
From S2P Require Import CostTables.
From S2P Require Import Costs.
From S2P Require Import CostFunctions.
From S2P Require Import TypeSyntax.
From S2P Require Import GlobalContext.
From S2P Require Import Regimes.
From S2P Require Import ExecutionState.
From S2P Require Import StoreRegimes.
From S2P Require Import SpecialForms.
From S2P Require Import EvalRegimes.
From S2P Require Import UserFunctions.
From S2P Require Import Definitions.
From S2P Require Import Interpreter.
From S2P Require Import FormRegimes.
From S2P Require Import Transactions.

Section Define.
Context `{VmLibraries} {S : Type} `{VmStore S} `{!StoreFrames S} (e : StacksEpochId) `{!VmFrames S e} (D : Z).
Context (I I' : Interp S) (HI : interps_run e D I I').
Abbreviation F := (eval_regime (S := S) e D).

Lemma runs_name_type_pairs epoch ty l :
  runs F (parse_name_type_pairs epoch ty l) (parse_name_type_pairs epoch ty l).
Proof.
  apply runs_bind; [runs |]. intros _. apply runs_parse_pairs. apply Forall_true. intros. apply runs_parse_type.
Qed.

Lemma runs_parse_types epoch l : runs F (parse_types epoch l) (parse_types epoch l).
Proof. induction l; cbn [parse_types]; runs. Qed.

Lemma runs_trait_return epoch x : runs F (parse_trait_return epoch x) (parse_trait_return epoch x).
Proof.
  intros st Hst. destruct (runs_parse_type e D epoch x st Hst) as [_ Hr]. split; [done |].
  unfold parse_trait_return. destruct (parse_type_repr epoch x st) as [[[] | |] st1];
    cbn in *; intros; by apply Hr.
Qed.
#[local] Hint Resolve runs_name_type_pairs runs_parse_types runs_trait_return : runs.

Lemma runs_trait_methods epoch version signature l :
  runs F (parse_trait_methods epoch version signature l) (parse_trait_methods epoch version signature l).
Proof. revert signature. induction l; intros; cbn [parse_trait_methods]; runs. Qed.
#[local] Hint Resolve runs_trait_methods : runs.

Lemma runs_evaluate_define x ic : runs F (evaluate_define I x ic) (evaluate_define I' x ic).
Proof. runs. Qed.
End Define.

(** ** The expressions of a contract *)

Section Deployments.
Context `{VmLibraries} {S : Type} `{VmStore S} `{!StoreFrames S} (e : StacksEpochId) `{!VmFrames S e}.
Context (I I' : Interp S) (HI : interps_run e 0 I I').

Abbreviation G := (epoch_regime (S := S) e).

Lemma runs_with_new_stack {A} (m m' : M (ExecutionState S) VmExecutionError A) :
  runs (eval_regime (S := S) e 0) m m' -> runs G (with_new_stack m) (with_new_stack m').
Proof.
  intros Hm g Hg. destruct (Hm (mkExecutionState g CallStack_new)) as [Heq Hr]; [by split |].
  unfold with_new_stack. rewrite <- Heq. destruct (m _) as [r st]. split; [done |].
  intros Hp. apply (Hr Hp).
Qed.

Lemma runs_execute {A} (m m' : M (GlobalContext S) VmExecutionError A) :
  runs G m m' -> runs G (execute m) (execute m').
Proof.
  intros Hm g Hg. destruct (Hm (begin_ g) Hg) as [Heq Hr].
  unfold execute, modify, mbind, M_bind, match_result. cbv beta iota zeta. rewrite <- Heq.
  destruct (m (begin_ g)) as [[a | err |] g1]; [| | by split]; (split; [done |]); cbn in Hr |- *;
    pose proof (above_innermost _ _ _ (begin_above g) (Hr ltac:(done))) as Ha.
  - pose proof (above_commit _ _ Ha) as Hc. by destruct (gc_commit g1) as [[] ?].
  - pose proof (above_roll_back _ _ Ha) as Hc. by destruct (gc_roll_back g1) as [[] ?].
Qed.

Lemma runs_gc_add_cost c : runs (context_regime (S := S)) (add_cost c) (add_cost c).
Proof. apply runs_context_costs. Qed.
Lemma runs_gc_add_memory n : runs (context_regime (S := S)) (add_memory n) (add_memory n).
Proof. apply runs_context_costs. Qed.
Lemma runs_gc_drop_memory n : runs (context_regime (S := S)) (drop_memory n) (drop_memory n).
Proof. apply runs_context_costs. Qed.
#[local] Hint Resolve runs_gc_add_cost runs_gc_add_memory runs_gc_drop_memory : runs.

Lemma runs_enter_definition def d : runs G (enter_definition def d) (enter_definition def d).
Proof. apply confined_at_all. destruct def; runs. Qed.

Lemma runs_deploy_expression sponsor x d :
  runs G (deploy_expression I sponsor x d) (deploy_expression I' sponsor x d).
Proof.
  apply runs_bind.
  - apply runs_execute, runs_with_new_stack. by apply runs_evaluate_define.
  - intros []; try apply runs_enter_definition. apply runs_bind; [| runs].
    apply runs_execute, runs_with_new_stack. runs.
Qed.

Lemma runs_deploy_expressions sponsor l d :
  runs G (deploy_expressions I sponsor l d) (deploy_expressions I' sponsor l d).
Proof.
  revert d. induction l as [| x l IH]; intros d; [runs |]. cbn [deploy_expressions].
  apply runs_match; [apply runs_deploy_expression | done | runs].
Qed.

Lemma runs_initialize c l sponsor version :
  runs G (initialize_from_ast I c l sponsor version) (initialize_from_ast I' c l sponsor version).
Proof.
  apply runs_bind; [| runs]. apply runs_bind; [apply runs_deploy_expressions |]. intros [n r].
  apply runs_bind; [| runs]. apply confined_at_all. runs.
Qed.

Lemma runs_make_contract D c version l text ic :
  runs (eval_regime (S := S) e D) (make_contract I c version l text ic) (make_contract I' c version l text ic).
Proof.
  do 4 (apply runs_bind; [runs | intros ?]). cbv zeta. apply runs_bind; [runs |]. intros _.
  apply runs_finally; [| runs]. apply runs_on_global_at, runs_initialize.
Qed.
End Deployments.
