(* ===== verification/PoxEvents.v ===== *)
(** * The programs behind PoX events

    [pox-locking/src/events.rs] and [events_24.rs]: a call of a stacking function
    is reported with a tuple that two programs compute in the PoX contract. This
    file has the texts of the programs; they are parsed and charged as such. *)

From S2P Require Import Prelude.
From S2P Require Import Values.
From S2P Require Import C32.
From S2P Require Import Expressions.

Definition dq : string := String (Ascii.ascii_of_nat 34) "".

Section Snippets.
Context `{Sha256} {E : Type}.
Implicit Types (function_name : string) (args : list Value).

Abbreviation R := (result E).

(** [args[i]] *)
Definition arg args (i : nat) : R Value := expect_some (args !! i).

(** [args.get(i).unwrap_or(&Value::none())] *)
Definition arg_or_none args (i : nat) : Value := default (Optional None) (args !! i).

Definition get_stacker (sender : PrincipalData) function_name args : R Value :=
  match function_name with
  | "stack-stx" | "stack-increase" | "stack-extend" | "delegate-stx" | "revoke-delegate-stx" =>
      Ok (Principal sender)
  | _ => arg args 0
  end.

Definition create_event_info_stack_or_delegate_code (sender : PrincipalData) function_name args : R string :=
  stacker ← get_stacker sender function_name args;
  Ok ("
        (let (
            (stacker '" +:+ value_to_string stacker +:+ ")
            (func-name " +:+ dq +:+ function_name +:+ dq +:+ ")
            (stacker-info (stx-account stacker))
            (total-balance (stx-get-balance stacker))
        )
            {
                ;; Function name
                name: func-name,
                ;; The principal of the stacker
                stacker: stacker,
                ;; The current available balance
                balance: total-balance,
                ;; The amount of locked STX
                locked: (get locked stacker-info),
                ;; The burnchain block height of when the tokens unlock. Zero if no tokens are locked.
                burnchain-unlock-height: (get unlock-height stacker-info),
            }
        )
        ").

Definition create_event_info_aggregation_code function_name : string :=
  "
        (let (
            (stacker-info (stx-account tx-sender))
        )
            {
                ;; Function name
                name: " +:+ dq +:+ function_name +:+ dq +:+ ",
                ;; who called this
                ;; NOTE: these fields are required by downstream clients.
                ;; Even though tx-sender is *not* a stacker, the field is
                ;; called " +:+ dq +:+ "stacker" +:+ dq +:+ " and these clients know to treat it as
                ;; the delegator.
                stacker: tx-sender,
                balance: (stx-get-balance tx-sender),
                locked: (get locked stacker-info),
                burnchain-unlock-height: (get unlock-height stacker-info),

            }
        )
        ".

(** The text with a height put in for [%height%] *)
Definition pox_set_offset (height : string) : string :=
  "
        (pox-set-offset (if (<
            (mod (- " +:+ height +:+ " (var-get first-burnchain-block-height)) (var-get pox-reward-cycle-length))
            (- (var-get pox-reward-cycle-length) (var-get pox-prepare-cycle-length))
        ) u0 u1))
    ".

(** One program for each function *)

Definition stack_stx_data args : R string :=
  lock_amount ← arg args 0;
  lock_period ← arg args 3;
  pox_addr ← arg args 1;
  start_burn_height ← arg args 2;
  Ok ("
                (let (
                    (unlock-burn-height (reward-cycle-to-burn-height (+ (current-pox-reward-cycle) u1 " +:+ value_to_string lock_period +:+ ")))
                    " +:+ pox_set_offset "burn-block-height" +:+ "
                )
                {
                    data: {
                        ;; amount of ustx to lock.
                        ;; equal to args[0]
                        lock-amount: " +:+ value_to_string lock_amount +:+ ",
                        ;; burnchain height when the unlock finishes.
                        ;; derived from args[3]
                        unlock-burn-height: unlock-burn-height,
                        ;; PoX address tuple.
                        ;; equal to args[1].
                        pox-addr: " +:+ value_to_string pox_addr +:+ ",
                        ;; start of lock-up.
                        ;; equal to args[2]
                        start-burn-height: " +:+ value_to_string start_burn_height +:+ ",
                        ;; how long to lock, in cycles
                        ;; equal to args[3]
                        lock-period: " +:+ value_to_string lock_period +:+ ",
                        ;; equal to args[4]
                        signer-sig: " +:+ value_to_string (arg_or_none args 4) +:+ ",
                        ;; equal to args[5]
                        signer-key: " +:+ value_to_string (arg_or_none args 5) +:+ ",
                        ;; equal to args[6]
                        max-amount: " +:+ value_to_string (arg_or_none args 6) +:+ ",
                        ;; equal to args[7]
                        auth-id: " +:+ value_to_string (arg_or_none args 7) +:+ ",
                        ;; Get end cycle ID
                        end-cycle-id: (some (burn-height-to-reward-cycle unlock-burn-height)),
                        ;; Get start cycle ID
                        start-cycle-id: (+ (current-pox-reward-cycle) u1 pox-set-offset),
                    }
                })
                ").

Definition delegate_stack_stx_data args : R string :=
  stacker ← arg args 0;
  lock_amount ← arg args 1;
  pox_addr ← arg args 2;
  start_burn_height ← arg args 3;
  lock_period ← arg args 4;
  Ok ("
                (let (
                    (unlock-burn-height (reward-cycle-to-burn-height (+ (current-pox-reward-cycle) u1 " +:+ value_to_string lock_period +:+ ")))
                    " +:+ pox_set_offset "burn-block-height" +:+ "
                )
                {
                    data: {
                        ;; amount of ustx to lock.
                        ;; equal to args[1]
                        lock-amount: " +:+ value_to_string lock_amount +:+ ",
                        ;; burnchain height when the unlock finishes.
                        ;; derived from args[4]
                        unlock-burn-height: unlock-burn-height,
                        ;; PoX address tuple.
                        ;; equal to args[2]
                        pox-addr: " +:+ value_to_string pox_addr +:+ ",
                        ;; start of lock-up
                        ;; equal to args[3]
                        start-burn-height: " +:+ value_to_string start_burn_height +:+ ",
                        ;; how long to lock, in cycles
                        ;; equal to args[3]
                        lock-period: " +:+ value_to_string lock_period +:+ ",
                        ;; delegator
                        delegator: tx-sender,
                        ;; stacker
                        ;; equal to args[0]
                        stacker: '" +:+ value_to_string stacker +:+ ",
                        ;; Get end cycle ID
                        end-cycle-id: (some (burn-height-to-reward-cycle unlock-burn-height)),
                        ;; Get start cycle ID
                        start-cycle-id: (+ (current-pox-reward-cycle) u1 pox-set-offset),
                    }
                })
                ").

Definition stack_increase_data args : R string :=
  increase_by ← arg args 0;
  Ok ("
                (let (
                    (unlock-height (get unlock-height (stx-account tx-sender)))
                    " +:+ pox_set_offset "burn-block-height" +:+ "
                )
                {
                    data: {
                        ;; amount to increase by
                        ;; equal to args[0]
                        increase-by: " +:+ value_to_string increase_by +:+ ",
                        ;; new amount locked
                        ;; NOTE: the lock has not yet been applied!
                        ;; derived from args[0]
                        total-locked: (+ " +:+ value_to_string increase_by +:+ " (get locked (stx-account tx-sender))),
                        ;; pox addr increased
                        pox-addr: (get pox-addr (unwrap-panic (map-get? stacking-state { stacker: tx-sender }))),
                        ;; signer sig (args[1])
                        signer-sig: " +:+ value_to_string (arg_or_none args 1) +:+ ",
                        ;; signer key (args[2])
                        signer-key: " +:+ value_to_string (arg_or_none args 2) +:+ ",
                        ;; equal to args[3]
                        max-amount: " +:+ value_to_string (arg_or_none args 3) +:+ ",
                        ;; equal to args[4]
                        auth-id: " +:+ value_to_string (arg_or_none args 4) +:+ ",
                        ;; Get end cycle ID
                        end-cycle-id: (some (burn-height-to-reward-cycle unlock-height)),
                        ;; Get start cycle ID
                        start-cycle-id: (+ (current-pox-reward-cycle) u1 pox-set-offset),
                    }
                })
                ").

Definition delegate_stack_increase_data args : R string :=
  stacker ← arg args 0;
  pox_addr ← arg args 1;
  increase_by ← arg args 2;
  Ok ("
                (let (
                    (unlock-height (get unlock-height (stx-account '" +:+ value_to_string stacker +:+ ")))
                    " +:+ pox_set_offset "burn-block-height" +:+ "
                )
                {
                    data: {
                        ;; pox addr
                        ;; equal to args[1]
                        pox-addr: " +:+ value_to_string pox_addr +:+ ",
                        ;; amount to increase by
                        ;; equal to args[2]
                        increase-by: " +:+ value_to_string increase_by +:+ ",
                        ;; total amount locked now
                        ;; NOTE: the lock itself has not yet been applied!
                        ;; this is for the stacker, so args[0]
                        total-locked: (+ " +:+ value_to_string increase_by +:+ " (get locked (stx-account '" +:+ value_to_string stacker +:+ "))),
                        ;; delegator
                        delegator: tx-sender,
                        ;; stacker
                        ;; equal to args[0]
                        stacker: '" +:+ value_to_string stacker +:+ ",
                        ;; Get end cycle ID
                        end-cycle-id: (some (burn-height-to-reward-cycle unlock-height)),
                        ;; Get start cycle ID
                        start-cycle-id: (+ (current-pox-reward-cycle) u1 pox-set-offset),
                    }
                })
                ").

Definition stack_extend_data args : R string :=
  extend_count ← arg args 0;
  pox_addr ← arg args 1;
  Ok ("
                (let (
                    ;; variable declarations derived from pox-2
                    (cur-cycle (current-pox-reward-cycle))
                    (unlock-height (get unlock-height (stx-account tx-sender)))
                    (unlock-in-cycle (burn-height-to-reward-cycle unlock-height))
                    (first-extend-cycle
                        (if (> (+ cur-cycle u1) unlock-in-cycle)
                            (+ cur-cycle u1)
                            unlock-in-cycle))
                    (last-extend-cycle  (- (+ first-extend-cycle " +:+ value_to_string extend_count +:+ ") u1))
                    (new-unlock-ht (reward-cycle-to-burn-height (+ u1 last-extend-cycle)))
                    " +:+ pox_set_offset "burn-block-height" +:+ "
                )
                {
                    data: {
                        ;; pox addr extended
                        ;; equal to args[1]
                        pox-addr: " +:+ value_to_string pox_addr +:+ ",
                        ;; number of cycles extended
                        ;; equal to args[0]
                        extend-count: " +:+ value_to_string extend_count +:+ ",
                        ;; new unlock burnchain block height
                        unlock-burn-height: new-unlock-ht,
                        ;; equal to args[2]
                        signer-sig: " +:+ value_to_string (arg_or_none args 2) +:+ ",
                        ;; equal to args[3]
                        signer-key: " +:+ from_option value_to_string "none" (args !! 3%nat) +:+ ",
                        ;; equal to args[4]
                        max-amount: " +:+ value_to_string (arg_or_none args 4) +:+ ",
                        ;; equal to args[5]
                        auth-id: " +:+ value_to_string (arg_or_none args 5) +:+ ",
                        ;; Get end cycle ID
                        end-cycle-id: (some (burn-height-to-reward-cycle new-unlock-ht)),
                        ;; Get start cycle ID
                        start-cycle-id: (+ (current-pox-reward-cycle) u1 pox-set-offset),
                    }
                })
                ").

Definition delegate_stack_extend_data args : R string :=
  stacker ← arg args 0;
  pox_addr ← arg args 1;
  extend_count ← arg args 2;
  Ok ("
                (let (
                    (unlock-height (get unlock-height (stx-account '" +:+ value_to_string stacker +:+ ")))
                    (unlock-in-cycle (burn-height-to-reward-cycle unlock-height))
                    (cur-cycle (current-pox-reward-cycle))
                    (first-extend-cycle
                        (if (> (+ cur-cycle u1) unlock-in-cycle)
                            (+ cur-cycle u1)
                            unlock-in-cycle))
                    (last-extend-cycle  (- (+ first-extend-cycle " +:+ value_to_string extend_count +:+ ") u1))
                    (new-unlock-ht (reward-cycle-to-burn-height (+ u1 last-extend-cycle)))
                    " +:+ pox_set_offset "burn-block-height" +:+ "
                )
                {
                    data: {
                        ;; pox addr extended
                        ;; equal to args[1]
                        pox-addr: " +:+ value_to_string pox_addr +:+ ",
                        ;; number of cycles extended
                        ;; equal to args[2]
                        extend-count: " +:+ value_to_string extend_count +:+ ",
                        ;; new unlock burnchain block height
                        unlock-burn-height: new-unlock-ht,
                        ;; delegator locking this up
                        delegator: tx-sender,
                        ;; stacker
                        ;; equal to args[0]
                        stacker: '" +:+ value_to_string stacker +:+ ",
                        ;; Get end cycle ID
                        end-cycle-id: (some (burn-height-to-reward-cycle new-unlock-ht)),
                        ;; Get start cycle ID
                        start-cycle-id: (+ (current-pox-reward-cycle) u1 pox-set-offset),
                    }
                })
                ").

Definition stack_aggregation_commit_data args : R string :=
  pox_addr ← arg args 0;
  reward_cycle ← arg args 1;
  Ok ("
                (let (
                    (next-cycle (+ (current-pox-reward-cycle) u1))
                    " +:+ pox_set_offset "burn-block-height" +:+ "
                    (start-cycle (if (is-eq " +:+ value_to_string reward_cycle +:+ " next-cycle)
                        (+ " +:+ value_to_string reward_cycle +:+ " pox-set-offset)
                        " +:+ value_to_string reward_cycle +:+ "))
                )
                {
                    data: {
                        ;; pox addr locked up
                        ;; equal to args[0] in all methods
                        pox-addr: " +:+ value_to_string pox_addr +:+ ",
                        ;; reward cycle locked up
                        ;; equal to args[1] in all methods
                        reward-cycle: " +:+ value_to_string reward_cycle +:+ ",
                        ;; amount locked behind this PoX address by this method
                        amount-ustx: (get stacked-amount
                                        (unwrap-panic (map-get? logged-partial-stacked-by-cycle
                                            { pox-addr: " +:+ value_to_string pox_addr +:+ ", sender: tx-sender, reward-cycle: " +:+ value_to_string reward_cycle +:+ " }))),
                        ;; delegator (this is the caller)
                        delegator: tx-sender,
                        ;; equal to args[2]
                        signer-sig: " +:+ value_to_string (arg_or_none args 2) +:+ ",
                        ;; equal to args[3]
                        signer-key: " +:+ value_to_string (arg_or_none args 3) +:+ ",
                        ;; equal to args[4]
                        max-amount: " +:+ value_to_string (arg_or_none args 4) +:+ ",
                        ;; equal to args[5]
                        auth-id: " +:+ value_to_string (arg_or_none args 5) +:+ ",
                        ;; Get end cycle ID
                        end-cycle-id: (some (+ " +:+ value_to_string reward_cycle +:+ " u1)),
                        ;; Get start cycle ID
                        start-cycle-id: start-cycle,
                    }
                })
                ").

Definition stack_aggregation_increase_data args : R string :=
  pox_addr ← arg args 0;
  reward_cycle ← arg args 1;
  Ok ("
                (let (
                    (next-cycle (+ (current-pox-reward-cycle) u1))
                    " +:+ pox_set_offset "burn-block-height" +:+ "
                    (start-cycle (if (is-eq " +:+ value_to_string reward_cycle +:+ " next-cycle)
                        (+ " +:+ value_to_string reward_cycle +:+ " pox-set-offset)
                        " +:+ value_to_string reward_cycle +:+ "))
                )
                {
                    data: {
                        ;; pox addr locked up
                        ;; equal to args[0] in all methods
                        pox-addr: " +:+ value_to_string pox_addr +:+ ",
                        ;; reward cycle locked up
                        ;; equal to args[1] in all methods
                        reward-cycle: " +:+ value_to_string reward_cycle +:+ ",
                        ;; amount locked behind this PoX address by this method
                        amount-ustx: (get stacked-amount
                                        (unwrap-panic (map-get? logged-partial-stacked-by-cycle
                                            { pox-addr: " +:+ value_to_string pox_addr +:+ ", sender: tx-sender, reward-cycle: " +:+ value_to_string reward_cycle +:+ " }))),
                        ;; delegator (this is the caller)
                        delegator: tx-sender,
                        ;; equal to args[2]
                        reward-cycle-index: " +:+ value_to_string (arg_or_none args 2) +:+ ",
                        ;; Get end cycle ID
                        end-cycle-id: (some (+ " +:+ value_to_string reward_cycle +:+ " u1)),
                        ;; Get start cycle ID
                        start-cycle-id: start-cycle,
                        ;; equal to args[3]
                        signer-sig: " +:+ value_to_string (arg_or_none args 3) +:+ ",
                        ;; equal to args[4]
                        signer-key: " +:+ value_to_string (arg_or_none args 4) +:+ ",
                        ;; equal to args[5]
                        max-amount: " +:+ value_to_string (arg_or_none args 5) +:+ ",
                        ;; equal to args[6]
                        auth-id: " +:+ value_to_string (arg_or_none args 6) +:+ ",
                    }
                })
                ").

Definition delegate_stx_data args : R string :=
  amount_ustx ← arg args 0;
  delegate_to ← arg args 1;
  until_burn_height ← arg args 2;
  pox_addr ← arg args 3;
  Ok ("
                (let (
                    " +:+ pox_set_offset "burn-block-height" +:+ "
                )
                {
                    data: {
                        ;; amount of ustx to delegate.
                        ;; equal to args[0]
                        amount-ustx: " +:+ value_to_string amount_ustx +:+ ",
                        ;; address of delegatee.
                        ;; equal to args[1]
                        delegate-to: '" +:+ value_to_string delegate_to +:+ ",
                        ;; optional burnchain height when the delegation finishes.
                        ;; derived from args[2]
                        unlock-burn-height: " +:+ value_to_string until_burn_height +:+ ",
                        ;; optional PoX address tuple.
                        ;; equal to args[3].
                        pox-addr: " +:+ value_to_string pox_addr +:+ ",
                        ;; Get end cycle ID
                        end-cycle-id: (match " +:+ value_to_string until_burn_height +:+ "
                            height (some (burn-height-to-reward-cycle height))
                            none
                        ),
                        ;; Get start cycle ID
                        start-cycle-id: (+ (current-pox-reward-cycle) u1 pox-set-offset),
                    }
                })
                ").

Definition revoke_delegate_stx_data (response_data : Value) : R string :=
  match response_data with
  | Optional opt =>
      delegation ← expect_some opt;
      tuple ← expect_ok (expect_tuple delegation);
      delegate_to ← expect_ok (tuple_get tuple "delegated-to");
      Ok ("
                    {
                        data: {
                            delegate-to: '" +:+ value_to_string delegate_to +:+ ",
                            ;; Get end cycle ID
                            end-cycle-id: none,
                            ;; Get start cycle ID
                            start-cycle-id: (+ (current-pox-reward-cycle) u1),
                        },
                    }
                    ")
  | _ => Ok "{data: {unimplemented: true}}"
  end.

Definition create_event_info_data_code function_name args (response_data : Value) : R string :=
  match function_name with
  | "stack-stx" => stack_stx_data args
  | "delegate-stack-stx" => delegate_stack_stx_data args
  | "stack-increase" => stack_increase_data args
  | "delegate-stack-increase" => delegate_stack_increase_data args
  | "stack-extend" => stack_extend_data args
  | "delegate-stack-extend" => delegate_stack_extend_data args
  | "stack-aggregation-commit" | "stack-aggregation-commit-indexed" => stack_aggregation_commit_data args
  | "stack-aggregation-increase" => stack_aggregation_increase_data args
  | "delegate-stx" => delegate_stx_data args
  | "revoke-delegate-stx" => revoke_delegate_stx_data response_data
  | _ => Ok "{data: {unimplemented: true}}"
  end.

(** ** Up to epoch 2.4 *)

Definition get_stacker_24 (sender : PrincipalData) function_name args : R Value :=
  match function_name with
  | "stack-stx" | "stack-increase" | "stack-extend" | "delegate-stx" => Ok (Principal sender)
  | _ => arg args 0
  end.

(** The text is the one of [create_event_info_stack_or_delegate_code]. *)
Definition create_event_info_stack_or_delegate_code_24 (sender : PrincipalData) function_name args : R string :=
  stacker ← get_stacker_24 sender function_name args;
  Ok ("
        (let (
            (stacker '" +:+ value_to_string stacker +:+ ")
            (func-name " +:+ dq +:+ function_name +:+ dq +:+ ")
            (stacker-info (stx-account stacker))
            (total-balance (stx-get-balance stacker))
        )
            {
                ;; Function name
                name: func-name,
                ;; The principal of the stacker
                stacker: stacker,
                ;; The current available balance
                balance: total-balance,
                ;; The amount of locked STX
                locked: (get locked stacker-info),
                ;; The burnchain block height of when the tokens unlock. Zero if no tokens are locked.
                burnchain-unlock-height: (get unlock-height stacker-info),
            }
        )
        ").

Definition stack_stx_data_24 args : R string :=
  lock_amount ← arg args 0;
  lock_period ← arg args 3;
  pox_addr ← arg args 1;
  start_burn_height ← arg args 2;
  Ok ("
                {
                    data: {
                        ;; amount of ustx to lock.
                        ;; equal to args[0]
                        lock-amount: " +:+ value_to_string lock_amount +:+ ",
                        ;; burnchain height when the unlock finishes.
                        ;; derived from args[3]
                        unlock-burn-height: (reward-cycle-to-burn-height (+ (current-pox-reward-cycle) u1 " +:+ value_to_string lock_period +:+ ")),
                        ;; PoX address tuple.
                        ;; equal to args[1].
                        pox-addr: " +:+ value_to_string pox_addr +:+ ",
                        ;; start of lock-up.
                        ;; equal to args[2]
                        start-burn-height: " +:+ value_to_string start_burn_height +:+ ",
                        ;; how long to lock, in burn blocks
                        ;; equal to args[3]
                        lock-period: " +:+ value_to_string lock_period +:+ "
                    }
                }
                ").

Definition delegate_stack_stx_data_24 args : R string :=
  stacker ← arg args 0;
  lock_amount ← arg args 1;
  pox_addr ← arg args 2;
  start_burn_height ← arg args 3;
  lock_period ← arg args 4;
  Ok ("
                {
                    data: {
                        ;; amount of ustx to lock.
                        ;; equal to args[1]
                        lock-amount: " +:+ value_to_string lock_amount +:+ ",
                        ;; burnchain height when the unlock finishes.
                        ;; derived from args[4]
                        unlock-burn-height: (reward-cycle-to-burn-height (+ (current-pox-reward-cycle) u1 " +:+ value_to_string lock_period +:+ ")),
                        ;; PoX address tuple.
                        ;; equal to args[2]
                        pox-addr: " +:+ value_to_string pox_addr +:+ ",
                        ;; start of lock-up
                        ;; equal to args[3]
                        start-burn-height: " +:+ value_to_string start_burn_height +:+ ",
                        ;; how long to lock, in burn blocks
                        ;; equal to args[3]
                        lock-period: " +:+ value_to_string lock_period +:+ ",
                        ;; delegator
                        delegator: tx-sender,
                        ;; stacker
                        ;; equal to args[0]
                        stacker: '" +:+ value_to_string stacker +:+ "
                    }
                }
                ").

Definition stack_increase_data_24 args : R string :=
  increase_by ← arg args 0;
  Ok ("
                {
                    data: {
                        ;; amount to increase by
                        ;; equal to args[0]
                        increase-by: " +:+ value_to_string increase_by +:+ ",
                        ;; new amount locked
                        ;; NOTE: the lock has not yet been applied!
                        ;; derived from args[0]
                        total-locked: (+ " +:+ value_to_string increase_by +:+ " (get locked (stx-account tx-sender))),
                        ;; pox addr increased
                        pox-addr: (get pox-addr (unwrap-panic (map-get? stacking-state { stacker: tx-sender })))
                    }
                }
                ").

Definition delegate_stack_increase_data_24 args : R string :=
  stacker ← arg args 0;
  pox_addr ← arg args 1;
  increase_by ← arg args 2;
  Ok ("
                {
                    data: {
                        ;; pox addr
                        ;; equal to args[1]
                        pox-addr: " +:+ value_to_string pox_addr +:+ ",
                        ;; amount to increase by
                        ;; equal to args[2]
                        increase-by: " +:+ value_to_string increase_by +:+ ",
                        ;; total amount locked now
                        ;; NOTE: the lock itself has not yet been applied!
                        ;; this is for the stacker, so args[0]
                        total-locked: (+ " +:+ value_to_string increase_by +:+ " (get locked (stx-account '" +:+ value_to_string stacker +:+ "))),
                        ;; delegator
                        delegator: tx-sender,
                        ;; stacker
                        ;; equal to args[0]
                        stacker: '" +:+ value_to_string stacker +:+ "
                    }
                }
                ").

Definition stack_extend_data_24 args : R string :=
  extend_count ← arg args 0;
  pox_addr ← arg args 1;
  Ok ("
                (let (
                    ;; variable declarations derived from pox-2
                    (cur-cycle (current-pox-reward-cycle))
                    (unlock-height (get unlock-height (stx-account tx-sender)))
                    (unlock-in-cycle (burn-height-to-reward-cycle unlock-height))
                    (first-extend-cycle
                        (if (> (+ cur-cycle u1) unlock-in-cycle)
                            (+ cur-cycle u1)
                            unlock-in-cycle))
                    (last-extend-cycle  (- (+ first-extend-cycle " +:+ value_to_string extend_count +:+ ") u1))
                    (new-unlock-ht (reward-cycle-to-burn-height (+ u1 last-extend-cycle)))
                )
                {
                    data: {
                        ;; pox addr extended
                        ;; equal to args[1]
                        pox-addr: " +:+ value_to_string pox_addr +:+ ",
                        ;; number of cycles extended
                        ;; equal to args[0]
                        extend-count: " +:+ value_to_string extend_count +:+ ",
                        ;; new unlock burnchain block height
                        unlock-burn-height: new-unlock-ht
                    }
                })
                ").

Definition delegate_stack_extend_data_24 args : R string :=
  stacker ← arg args 0;
  pox_addr ← arg args 1;
  extend_count ← arg args 2;
  Ok ("
                (let (
                    (unlock-height (get unlock-height (stx-account '" +:+ value_to_string stacker +:+ ")))
                    (unlock-in-cycle (burn-height-to-reward-cycle unlock-height))
                    (cur-cycle (current-pox-reward-cycle))
                    (first-extend-cycle
                        (if (> (+ cur-cycle u1) unlock-in-cycle)
                            (+ cur-cycle u1)
                            unlock-in-cycle))
                    (last-extend-cycle  (- (+ first-extend-cycle " +:+ value_to_string extend_count +:+ ") u1))
                    (new-unlock-ht (reward-cycle-to-burn-height (+ u1 last-extend-cycle)))
                )
                {
                    data: {
                        ;; pox addr extended
                        ;; equal to args[1]
                        pox-addr: " +:+ value_to_string pox_addr +:+ ",
                        ;; number of cycles extended
                        ;; equal to args[2]
                        extend-count: " +:+ value_to_string extend_count +:+ ",
                        ;; new unlock burnchain block height
                        unlock-burn-height: new-unlock-ht,
                        ;; delegator locking this up
                        delegator: tx-sender,
                        ;; stacker
                        ;; equal to args[0]
                        stacker: '" +:+ value_to_string stacker +:+ "
                    }
                })
                ").

Definition stack_aggregation_commit_data_24 args : R string :=
  pox_addr ← arg args 0;
  reward_cycle ← arg args 1;
  Ok ("
                {
                    data: {
                        ;; pox addr locked up
                        ;; equal to args[0] in all methods
                        pox-addr: " +:+ value_to_string pox_addr +:+ ",
                        ;; reward cycle locked up
                        ;; equal to args[1] in all methods
                        reward-cycle: " +:+ value_to_string reward_cycle +:+ ",
                        ;; amount locked behind this PoX address by this method
                        amount-ustx: (get stacked-amount
                                        (unwrap-panic (map-get? logged-partial-stacked-by-cycle
                                            { pox-addr: " +:+ value_to_string pox_addr +:+ ", sender: tx-sender, reward-cycle: " +:+ value_to_string reward_cycle +:+ " }))),
                        ;; delegator (this is the caller)
                        delegator: tx-sender
                    }
                }
                ").

Definition delegate_stx_data_24 args : R string :=
  amount_ustx ← arg args 0;
  delegate_to ← arg args 1;
  until_burn_height ← arg args 2;
  pox_addr ← arg args 3;
  Ok ("
                {
                    data: {
                        ;; amount of ustx to delegate.
                        ;; equal to args[0]
                        amount-ustx: " +:+ value_to_string amount_ustx +:+ ",
                        ;; address of delegatee.
                        ;; equal to args[1]
                        delegate-to: '" +:+ value_to_string delegate_to +:+ ",
                        ;; optional burnchain height when the delegation finishes.
                        ;; derived from args[2]
                        unlock-burn-height: " +:+ value_to_string until_burn_height +:+ ",
                        ;; optional PoX address tuple.
                        ;; equal to args[3].
                        pox-addr: " +:+ value_to_string pox_addr +:+ "
                    }
                }
                ").

(** The braces of the last text are doubled. *)
Definition create_event_info_data_code_24 function_name args : R string :=
  match function_name with
  | "stack-stx" => stack_stx_data_24 args
  | "delegate-stack-stx" => delegate_stack_stx_data_24 args
  | "stack-increase" => stack_increase_data_24 args
  | "delegate-stack-increase" => delegate_stack_increase_data_24 args
  | "stack-extend" => stack_extend_data_24 args
  | "delegate-stack-extend" => delegate_stack_extend_data_24 args
  | "stack-aggregation-commit" | "stack-aggregation-commit-indexed" | "stack-aggregation-increase" => stack_aggregation_commit_data_24 args
  | "delegate-stx" => delegate_stx_data_24 args
  | _ => Ok "{{ data: {{ unimplemented: true }} }}"
  end.
End Snippets.
