(* ===== verification/PoxLocking.v ===== *)
(** * What the node does after calls of the PoX contracts

    [pox-locking/src]: the contracts that govern stacking cannot lock tokens
    themselves. When a call of one of their functions returns, the node reads the
    lock off the value returned, puts it on the account, and reports it with an
    event; calls of a contract that is out of use fail. [eval_read_only] of
    [clarity/src/vm/contexts.rs] runs the programs behind the events, and
    [special_cases_handler_for] of [stackslib/src/clarity_vm/special.rs] is how
    the virtual machine finds the handler.

    The parser is not modelled: [build_ast] is a parameter. *)

From S2P Require Import Prelude.
From S2P Require Import Epochs.
From S2P Require Import Values.
From S2P Require Import Types.
From S2P Require Import RollbackStore.
From S2P Require Import NestedStore.
From S2P Require Import C32.
From S2P Require Import STXBalance.
From S2P Require Import Database.
From S2P Require Import STXLedger.
From S2P Require Import AssetMap.
From S2P Require Import VmErrors.
From S2P Require Import TypedValues.
From S2P Require Import Expressions.
From S2P Require Import ContractData.
From S2P Require Import Contexts.
From S2P Require Import CostTables.
From S2P Require Import Costs.
From S2P Require Import Contracts.
From S2P Require Import CostFunctions.
From S2P Require Import GlobalContext.
From S2P Require Import ExecutionState.
From S2P Require Import SpecialForms.
From S2P Require Import Transactions.
From S2P Require Import PoxEvents.

Inductive LockingError :=
| DefunctPoxContract
| PoxAlreadyLocked
| PoxInsufficientBalance
| PoxExtendNotLocked
| PoxIncreaseOnV1
| PoxInvalidIncrease
| Clarity (e : VmExecutionError)
| PoxUnstakeNotLocked
| PoxInvalidLockAmount
| PoxInvalidUnlockHeight
| PoxBalanceOverflow
| PoxMalformedResponse (what : string).

(** [{e:?}] *)
Class LockingText := debug_locking_error : LockingError -> string.

(** ** Locks *)

Section Locks.
Context `{Sha256} {S : Type} `{KVStore S} (env : DbEnv).
Implicit Types (lock_amount unlock_burn_height new_total_locked : Z).

Abbreviation LockM := (M S LockingError).
Abbreviation AccountM := (M (STXBalanceSnapshot S) LockingError).

(** [?] on the outcomes of the database and of a snapshot *)
Definition clarity {X A} (m : M X VmExecutionError A) : M X LockingError A := mmap_err Clarity m.

(** [db.get_stx_balance_snapshot(principal)?], and what is done with the snapshot *)
Definition with_account {A} (principal : PrincipalData) (m : AccountM A) : LockM A := fun s =>
  match get_stx_balance_snapshot env principal s with
  | (Ok snapshot, _) => let '(r, snapshot') := m snapshot in (r, snap_db snapshot')
  | (Err e, s') => (Err (Clarity e), s')
  | (Panic, s') => (Panic, s')
  end.

(** [snapshot.save()?] in the end, when nothing failed before *)
Definition save_account {A} (m : AccountM A) : AccountM A :=
  a ← m;
  clarity save;;
  mret a.

(** The body of the functions that lock, from where the snapshot is taken *)
Definition lock_account (lock : Z -> Z -> SnapM S unit) lock_amount unlock_burn_height : AccountM unit :=
  locked ← clarity (has_locked_tokens env);
  ensure (negb locked) PoxAlreadyLocked;;
  enough ← clarity (can_transfer env lock_amount);
  ensure enough PoxInsufficientBalance;;
  clarity (lock lock_amount unlock_burn_height).

Definition pox_lock_v1 (principal : PrincipalData) lock_amount unlock_burn_height : LockM unit :=
  assert_true (0 <? unlock_burn_height);;
  assert_true (0 <? lock_amount);;
  with_account principal (save_account
    (b ← clarity balance;
     ensure (negb (was_locked_by_v2 b)) DefunctPoxContract;;
     lock_account (lock_tokens_v1 env) lock_amount unlock_burn_height)).

Definition pox_lock_with (lock : Z -> Z -> SnapM S unit) (principal : PrincipalData)
    lock_amount unlock_burn_height : LockM unit :=
  assert_true (0 <? unlock_burn_height);;
  assert_true (0 <? lock_amount);;
  with_account principal (save_account (lock_account lock lock_amount unlock_burn_height)).

Definition pox_lock_v2 := pox_lock_with (lock_tokens_v2 env).
Definition pox_lock_v3 := pox_lock_with (lock_tokens_v3 env).
Definition pox_lock_v4 := pox_lock_with (lock_tokens_v4 env).

Definition pox_lock_v5 (principal : PrincipalData) lock_amount unlock_burn_height : LockM unit :=
  ensure (negb (unlock_burn_height =? 0)) PoxInvalidUnlockHeight;;
  ensure (negb (lock_amount =? 0)) PoxInvalidLockAmount;;
  with_account principal (save_account (lock_account (lock_tokens_v5 env) lock_amount unlock_burn_height)).

(** The amount that stays locked *)
Definition pox_lock_extend_with (extend : Z -> SnapM S unit) (principal : PrincipalData)
    unlock_burn_height : LockM Z :=
  assert_true (0 <? unlock_burn_height);;
  with_account principal (save_account
    (locked ← clarity (has_locked_tokens env);
     ensure locked PoxExtendNotLocked;;
     clarity (extend unlock_burn_height);;
     b ← clarity balance;
     mret (amount_locked b))).

Definition pox_lock_extend_v2 := pox_lock_extend_with (extend_lock_v2 env).
Definition pox_lock_extend_v3 := pox_lock_extend_with (extend_lock_v3 env).
Definition pox_lock_extend_v4 := pox_lock_extend_with (extend_lock_v4 env).

(** [check] is what PoX-2 asks of the lock; [total] is the sum of the balance. *)
Definition increase_account (check : AccountM unit) (total : STXBalance -> result LockingError Z)
    (increase : Z -> SnapM S unit) new_total_locked : AccountM STXBalance :=
  locked ← clarity (has_locked_tokens env);
  ensure locked PoxExtendNotLocked;;
  check;;
  bal ← clarity (canonical_balance_repr env);
  total_amount ← lift (total bal);
  ensure (new_total_locked <=? total_amount) PoxInsufficientBalance;;
  ensure (amount_locked bal <=? new_total_locked) PoxInvalidIncrease;;
  clarity (increase new_total_locked);;
  clarity (canonical_balance_repr env).

Definition checked_total (b : STXBalance) : option Z :=
  u128_checked_add (amount_unlocked b) (amount_locked b).

Definition pox_lock_increase_v2 (principal : PrincipalData) new_total_locked : LockM STXBalance :=
  assert_true (0 <? new_total_locked);;
  with_account principal (save_account
    (increase_account (by_v2 ← clarity (is_v2_locked env); ensure by_v2 PoxIncreaseOnV1)
       (fun b => expect_some (checked_total b)) (increase_lock_v2 env) new_total_locked)).

Definition pox_lock_increase_with (increase : Z -> SnapM S unit) (principal : PrincipalData)
    new_total_locked : LockM STXBalance :=
  assert_true (0 <? new_total_locked);;
  with_account principal (save_account
    (increase_account (mret tt) (fun b => expect_some (checked_total b)) increase new_total_locked)).

Definition pox_lock_increase_v3 := pox_lock_increase_with (increase_lock_v3 env).
Definition pox_lock_increase_v4 := pox_lock_increase_with (increase_lock_v4 env).

Definition pox_unstake_v5 (principal : PrincipalData) unlock_burn_height : LockM unit :=
  ensure (negb (unlock_burn_height =? 0)) PoxInvalidUnlockHeight;;
  with_account principal (save_account
    (locked ← clarity (has_locked_tokens env);
     ensure locked PoxUnstakeNotLocked;;
     clarity (update_unlock_v5 env unlock_burn_height))).

(** The unlock height is moved before the balance is looked at. *)
Definition pox_lock_update_v5 (principal : PrincipalData) unlock_burn_height new_total_locked
    : LockM STXBalance :=
  ensure (negb (unlock_burn_height =? 0)) PoxInvalidUnlockHeight;;
  ensure (negb (new_total_locked =? 0)) PoxInvalidLockAmount;;
  with_account principal (save_account
    (increase_account (clarity (update_unlock_v5 env unlock_burn_height))
       (fun b => ok_or (checked_total b) PoxBalanceOverflow) (increase_lock_v5 env) new_total_locked)).

Definition pox_rollover_v5 (principal : PrincipalData) unlock_burn_height new_total_locked
    : LockM STXBalance :=
  ensure (negb (new_total_locked =? 0)) PoxInvalidLockAmount;;
  with_account principal (save_account
    (locked ← clarity (has_locked_tokens env);
     ensure locked PoxExtendNotLocked;;
     bal ← clarity (canonical_balance_repr env);
     total_amount ← lift (ok_or (checked_total bal) PoxBalanceOverflow);
     ensure (new_total_locked <=? total_amount) PoxInsufficientBalance;;
     ensure (unlock_height bal <? unlock_burn_height) PoxInvalidUnlockHeight;;
     clarity (set_lock_v5 env new_total_locked unlock_burn_height);;
     clarity (canonical_balance_repr env))).

Definition has_lock (principal : PrincipalData) : M S VmExecutionError bool :=
  with_snapshot env principal (has_locked_tokens env).
End Locks.

(** ** Reading the values that the contracts return *)

(** [expect] on a part of the value; the error is the code that the contract
    returned. *)
Definition expected {A} (r : result ClarityTypeError A) : result Z A := expect_ok r.

Definition expected_field {A} (expect : Value -> result ClarityTypeError A) (t : TupleData) (name : string)
    : result Z A :=
  v ← expected (Values.tuple_get t name);
  expected (expect v).

Definition parse_response {A} (read : TupleData -> result Z A) (value : Value) : result Z A :=
  response ← expected (expect_result value);
  match response with
  | inl res => tuple_data ← expected (expect_tuple res); read tuple_data
  | inr e => code ← expected (expect_i128 e); Err code
  end.

Definition expected_height (t : TupleData) : result Z Z :=
  height ← expected_field expect_u128 t "unlock-burn-height";
  expect_some (u64_try_from height).

Definition parse_pox_stacking_result : Value -> result Z (PrincipalData * Z * Z) :=
  parse_response (fun tuple_data =>
    stacker ← expected_field expect_principal tuple_data "stacker";
    lock_amount ← expected_field expect_u128 tuple_data "lock-amount";
    unlock_burn_height ← expected_height tuple_data;
    Ok (stacker, lock_amount, unlock_burn_height)).

(** The text of [parse_pox_stacking_result_v1] is the one of
    [parse_pox_stacking_result]. *)
Definition parse_pox_stacking_result_v1 : Value -> result Z (PrincipalData * Z * Z) :=
  parse_response (fun tuple_data =>
    stacker ← expected_field expect_principal tuple_data "stacker";
    lock_amount ← expected_field expect_u128 tuple_data "lock-amount";
    unlock_burn_height ← expected_height tuple_data;
    Ok (stacker, lock_amount, unlock_burn_height)).

Definition parse_pox_extend_result : Value -> result Z (PrincipalData * Z) :=
  parse_response (fun tuple_data =>
    stacker ← expected_field expect_principal tuple_data "stacker";
    unlock_burn_height ← expected_height tuple_data;
    Ok (stacker, unlock_burn_height)).

Definition parse_pox_increase : Value -> result Z (PrincipalData * Z) :=
  parse_response (fun tuple_data =>
    stacker ← expected_field expect_principal tuple_data "stacker";
    total_locked ← expected_field expect_u128 tuple_data "total-locked";
    Ok (stacker, total_locked)).

Inductive ParsedStakeResult :=
| StakeOk (staker : PrincipalData) (amount_ustx unlock_burn_height : Z)
| ContractErr.

Section Stake.
Context `{VmLibraries}.

Definition malformed {A B} (what : string) (r : result ClarityTypeError A) (k : A -> result LockingError B)
    : result LockingError B :=
  a ← map_err (fun e => PoxMalformedResponse (what +:+ ": " +:+ debug_type_error e)) r;
  k a.

(** A field and its type *)
Definition stake_field {A B} (expect : Value -> result ClarityTypeError A) (t : TupleData)
    (name kind : string) (k : A -> result LockingError B) : result LockingError B :=
  v ← map_err (fun _ => PoxMalformedResponse ("missing '" +:+ name +:+ "'")) (Values.tuple_get t name);
  malformed ("'" +:+ name +:+ "' is not " +:+ kind) (expect v) k.

Definition parse_pox_stake_result (value : Value) : result LockingError ParsedStakeResult :=
  malformed "not a response" (expect_result value) (fun response =>
    match response with
    | inl res =>
        malformed "ok payload not a tuple" (expect_tuple res) (fun tuple_data =>
        stake_field expect_principal tuple_data "staker" "a principal" (fun staker =>
        stake_field expect_u128 tuple_data "amount-ustx" "a uint" (fun amount_ustx =>
        stake_field expect_u128 tuple_data "unlock-burn-height" "a uint" (fun unlock_burn_height_u128 =>
        unlock_burn_height ← ok_or (u64_try_from unlock_burn_height_u128)
          (PoxMalformedResponse ("'unlock-burn-height' overflows u64: " +:+ pretty unlock_burn_height_u128));
        Ok (StakeOk staker amount_ustx unlock_burn_height)))))
    | inr e => malformed "err payload not a uint" (expect_u128 e) (fun _ => Ok ContractErr)
    end).
End Stake.

(** ** Evaluating a program in a contract *)

(** [ast::build_ast] *)
Class AstBuilder := {
  ParseError : Type;
  unexpected_parser_failure : ParseError;
  build_ast : QualifiedContractIdentifier -> string -> ClarityVersion -> StacksEpochId ->
    M LimitedCostTracker ParseError (list SymbolicExpression);
}.

Inductive ClarityEvalError `{AstBuilder} := Vm (e : VmExecutionError) | Parse (e : ParseError).

Section Programs.
Context `{VmLibraries} {S : Type} `{VmStore S} `{AstBuilder} (I : Interp S).
Implicit Types (ic : InvocationContext) (contract_identifier : QualifiedContractIdentifier).

Abbreviation EM := (M (ExecutionState S) ClarityEvalError).
Abbreviation GM := (M (GlobalContext S) ClarityEvalError).

(** [?] on an outcome of the virtual machine *)
Definition vm {X A} (m : M X VmExecutionError A) : M X ClarityEvalError A := mmap_err Vm m.

Definition parse_nonempty_program ic contract_identifier (program : string) : EM (list SymbolicExpression) :=
  e ← vm epoch;
  expressions ← mmap_err Parse
    (zoom global_context set_global_context (zoom cost_track set_cost_track
       (build_ast contract_identifier program (ic_version ic) e)));
  ensure (negb (bool_decide (expressions = []))) (Parse unexpected_parser_failure);;
  mret expressions.

Definition eval_read_only ic contract_identifier (program : string) : EM Value :=
  parsed ← parse_nonempty_program ic contract_identifier program;
  vm (on_global (modify begin_);;
      match_result (on_db (get_contract contract_identifier))
        (fun contract =>
           let nested_view := mkInvocation contract (ic_sender ic) (ic_caller ic) (ic_sponsor ic) in
           finally (exp ← lift (expect_some (head parsed));
                    value ← eval I exp nested_view LocalContext_new;
                    clone_with_cost value)
             (on_global gc_roll_back))
        (fun e => on_global gc_roll_back;; throw e)).

Definition special_cc_handler_execute_read_only {A} (sender : PrincipalData) (sponsor : option PrincipalData)
    (contract_context : ContractContext) (f : InvocationContext -> EM A) : GM A :=
  execute_read_only Vm (fun g =>
    let ic := mkInvocation contract_context (Some sender) (Some sender) sponsor in
    let '(r, st) := f ic (mkExecutionState g CallStack_new) in (r, global_context st)).

(** ** The events *)

Definition one_of (names : list string) (function_name : string) : bool :=
  bool_decide (function_name ∈ names).

(** The two programs of an event are run, and the tuples they give merged. *)
Definition event_info (contract_id : QualifiedContractIdentifier) (sender : PrincipalData)
    (code_snippet data_snippet : string) : GM Value :=
  pox_contract ← vm (on_database (get_contract contract_id));
  special_cc_handler_execute_read_only sender None pox_contract (fun ic =>
    base_event_info ← eval_read_only ic contract_id code_snippet;
    data_event_info ← eval_read_only ic contract_id data_snippet;
    base_event_tuple ← lift (expect_ok (expect_tuple base_event_info));
    data_tuple ← lift (expect_ok (expect_tuple data_event_info));
    event_tuple ← lift (map_err (fun e => Vm (vm_from_type e)) (tuple_shallow_merge base_event_tuple data_tuple));
    mret (Tuple event_tuple)).

Section Event.
Context (contract_id : QualifiedContractIdentifier) (sender_opt : option PrincipalData).
Context (function_name : string) (args : list Value).

Definition synthesize_pox_2_or_3_event_info : GM (option Value) :=
  match sender_opt with
  | None => mret None
  | Some sender =>
      code_snippet_template_opt ←
        if one_of ["stack-stx"; "delegate-stack-stx"; "stack-extend"; "delegate-stack-extend";
                   "stack-increase"; "delegate-stack-increase"; "delegate-stx"] function_name
        then code ← lift (create_event_info_stack_or_delegate_code_24 sender function_name args);
             mret (Some code)
        else if one_of ["stack-aggregation-commit"; "stack-aggregation-commit-indexed";
                        "stack-aggregation-increase"] function_name
        then mret (Some (create_event_info_aggregation_code function_name))
        else mret None;
      match code_snippet_template_opt with
      | None => mret None
      | Some code_snippet =>
          data_snippet ← lift (create_event_info_data_code_24 function_name args);
          event_info ← event_info contract_id sender code_snippet data_snippet;
          mret (Some event_info)
      end
  end.

Definition inner_synthesize_pox_event_info (response_data : Value) : GM (option Value) :=
  match sender_opt with
  | None => mret None
  | Some sender =>
      code_snippet_template_opt ←
        if one_of ["stack-stx"; "delegate-stack-stx"; "stack-extend"; "delegate-stack-extend";
                   "stack-increase"; "delegate-stack-increase"; "delegate-stx";
                   "revoke-delegate-stx"] function_name
        then code ← lift (create_event_info_stack_or_delegate_code sender function_name args);
             mret (Some code)
        else if one_of ["stack-aggregation-commit"; "stack-aggregation-commit-indexed";
                        "stack-aggregation-increase"] function_name
        then mret (Some (create_event_info_aggregation_code function_name))
        else mret None;
      match code_snippet_template_opt with
      | None => mret None
      | Some code_snippet =>
          data_snippet ← lift (create_event_info_data_code function_name args response_data);
          event_info ← event_info contract_id sender code_snippet data_snippet;
          mret (Some event_info)
      end
  end.

(** After epoch 2.4 the programs run with a tracker that does not count. *)
Definition synthesize_pox_event_info (response_data : Value) : GM (option Value) := fun g =>
  if epoch_leb (epoch_id g) Epoch24 then synthesize_pox_2_or_3_event_info g
  else
    let '(result, g') := inner_synthesize_pox_event_info response_data (set_cost_track new_free g) in
    (result, set_cost_track (cost_track g) g').
End Event.
End Programs.

(** ** The handlers *)

Section Handlers.
Context `{VmLibraries} {S : Type} `{VmStore S} `{AstBuilder} `{LockingText} (I : Interp S).
Implicit Types (function_name : string) (args : list Value) (value : Value).

Abbreviation GM := (M (GlobalContext S) VmExecutionError).

(** [&mut global_context.database] *)
Definition on_ledger {E A} (f : DbEnv -> M S E A) : M (GlobalContext S) E A :=
  zoom database set_database (s ← get; f (chain_env s)).

(** [batch.events.push] *)
Definition push_event (event : StacksTransactionEvent) : GM unit :=
  modify (fun g => match event_batches g with
                   | (batch, size) :: rest => set_event_batches ((batch ++ [event], size) :: rest) g
                   | [] => g
                   end).
Definition push_event_opt (event : option StacksTransactionEvent) : GM unit :=
  match event with Some event => push_event event | None => mret tt end.

Definition lock_event (contract : string) (locked_amount unlock_height : Z) (locked_address : PrincipalData)
    : GM StacksTransactionEvent :=
  g ← get;
  mret (STXEvent (STXLockEvent
          (mkSTXLock locked_amount unlock_height locked_address (boot_code_id contract (mainnet g))))).

Definition defunct : VmExecutionError := Runtime RE_DefunctPoxContract None.
Definition already_locked : VmExecutionError := Runtime RE_PoxAlreadyLocked None.

(** Errors other than those that callers can cause panic. *)
Definition lock_failed {A} (e : LockingError) : GM A :=
  match e with
  | DefunctPoxContract => throw defunct
  | PoxAlreadyLocked => throw already_locked
  | _ => panic
  end.
Definition update_failed {A} (e : LockingError) : GM A :=
  match e with
  | DefunctPoxContract => throw defunct
  | _ => panic
  end.

(** What a call is worth: as much as a transfer *)
Definition charge_transfer : GM unit := gc_charge ClarityCostFunction.StxTransfer 1.

(** Nothing is done when the contract returned an error. *)
Definition on_parsed {A B} (parsed : result Z A) (k : A -> GM (option B)) : GM (option B) :=
  match parsed with Ok a => k a | Err _ => mret None | Panic => panic end.

(** *** PoX-1 *)

Definition pox_1_is_read_only : string -> bool :=
  one_of ["get-pox-rejection"; "is-pox-active"; "get-stacker-info"; "get-reward-set-size";
          "get-total-ustx-stacked"; "get-reward-set-pox-address"; "get-stacking-minimum";
          "can-stack-stx"; "minimal-can-stack-stx"; "get-pox-info"].

(** The body of the handler, up to the event that it adds to the batch *)
Definition pox_1_lockup value : GM (option StacksTransactionEvent) :=
  charge_transfer;;
  on_parsed (parse_pox_stacking_result_v1 value) (fun '(stacker, locked_amount, unlock_height) =>
    match_result (on_ledger (fun env => pox_lock_v1 env stacker locked_amount unlock_height))
      (fun _ => event ← lock_event "pox" locked_amount unlock_height stacker; mret (Some event))
      lock_failed).

Definition pox_1_handle_contract_call function_name value : GM unit :=
  if negb (one_of ["stack-stx"; "delegate-stack-stx"] function_name) then mret tt
  else event ← pox_1_lockup value; push_event_opt event.

(** *** PoX-2 to PoX-4

    The handlers of the three contracts differ in the functions on locks, in the
    contract the event names, and in that PoX-4 logs what is locked without a
    delegate. *)

Section Stacking.
Context (contract : string) (log : string -> PrincipalData -> Z -> GM unit).

Definition handle_stack_lockup (lock : DbEnv -> PrincipalData -> Z -> Z -> M S LockingError unit)
    value : GM (option StacksTransactionEvent) :=
  charge_transfer;;
  on_parsed (parse_pox_stacking_result value) (fun '(stacker, locked_amount, unlock_height) =>
    match_result (on_ledger (fun env => lock env stacker locked_amount unlock_height))
      (fun _ =>
         log "stack-stx" stacker locked_amount;;
         event ← lock_event contract locked_amount unlock_height stacker;
         mret (Some event))
      lock_failed).

Definition handle_stack_lockup_extension (extend : DbEnv -> PrincipalData -> Z -> M S LockingError Z)
    value : GM (option StacksTransactionEvent) :=
  charge_transfer;;
  on_parsed (parse_pox_extend_result value) (fun '(stacker, unlock_height) =>
    match_result (on_ledger (fun env => extend env stacker unlock_height))
      (fun locked_amount =>
         log "stack-extend" stacker locked_amount;;
         event ← lock_event contract locked_amount unlock_height stacker;
         mret (Some event))
      update_failed).

Definition handle_stack_lockup_increase (increase : DbEnv -> PrincipalData -> Z -> M S LockingError STXBalance)
    value : GM (option StacksTransactionEvent) :=
  charge_transfer;;
  on_parsed (parse_pox_increase value) (fun '(stacker, total_locked) =>
    match_result (on_ledger (fun env => increase env stacker total_locked))
      (fun new_balance =>
         log "stack-increase" stacker (amount_locked new_balance);;
         event ← lock_event contract (amount_locked new_balance) (unlock_height new_balance) stacker;
         mret (Some event))
      update_failed).
End Stacking.

Definition no_log (function : string) (stacker : PrincipalData) (amount : Z) : GM unit := mret tt.

Definition handle_stack_lockup_pox_v2 := handle_stack_lockup "pox-2" no_log (pox_lock_v2 (S := S)).
Definition handle_stack_lockup_extension_pox_v2 :=
  handle_stack_lockup_extension "pox-2" no_log (pox_lock_extend_v2 (S := S)).
Definition handle_stack_lockup_increase_pox_v2 :=
  handle_stack_lockup_increase "pox-2" no_log (pox_lock_increase_v2 (S := S)).
Definition handle_stack_lockup_pox_v3 := handle_stack_lockup "pox-3" no_log (pox_lock_v3 (S := S)).
Definition handle_stack_lockup_extension_pox_v3 :=
  handle_stack_lockup_extension "pox-3" no_log (pox_lock_extend_v3 (S := S)).
Definition handle_stack_lockup_increase_pox_v3 :=
  handle_stack_lockup_increase "pox-3" no_log (pox_lock_increase_v3 (S := S)).

(** [function] is the one that stacks without a delegate. *)
Definition log_direct function_name (function : string) (stacker : PrincipalData) (amount : Z) : GM unit :=
  if bool_decide (function_name = function) then log_stacking stacker amount else mret tt.

Definition handle_stack_lockup_pox_v4 function_name :=
  handle_stack_lockup "pox-4" (log_direct function_name) (pox_lock_v4 (S := S)).
Definition handle_stack_lockup_extension_pox_v4 function_name :=
  handle_stack_lockup_extension "pox-4" (log_direct function_name) (pox_lock_extend_v4 (S := S)).
Definition handle_stack_lockup_increase_pox_v4 function_name :=
  handle_stack_lockup_increase "pox-4" (log_direct function_name) (pox_lock_increase_v4 (S := S)).

(** The event of a call that succeeded; no event when its programs fail *)
Definition print_event (sender_opt : option PrincipalData) (contract_id : QualifiedContractIdentifier)
    function_name args value : GM (option StacksTransactionEvent) :=
  match value with
  | Response true data =>
      event_info_opt ←
        match_result (synthesize_pox_event_info I contract_id sender_opt function_name args data)
          mret (fun _ => mret None);
      match event_info_opt with
      | Some event_info =>
          event_response ← lift (expect_ok (value_okay event_info));
          mret (Some (construct_print_transaction_event contract_id event_response))
      | None => mret None
      end
  | _ => mret None
  end.

(** The function that completes the call, by its kind *)
Definition lock_event_opt function_name
    (lockup extension increase : GM (option StacksTransactionEvent)) : GM (option StacksTransactionEvent) :=
  if one_of ["stack-stx"; "delegate-stack-stx"] function_name then lockup
  else if one_of ["stack-extend"; "delegate-stack-extend"] function_name then extension
  else if one_of ["stack-increase"; "delegate-stack-increase"] function_name then increase
  else mret None.

Definition pox_2_is_read_only : string -> bool :=
  one_of ["get-pox-rejection"; "is-pox-active"; "burn-height-to-reward-cycle"; "reward-cycle-to-burn-height";
          "current-pox-reward-cycle"; "get-stacker-info"; "get-check-delegation"; "get-reward-set-size";
          "next-cycle-rejection-votes"; "get-total-ustx-stacked"; "get-reward-set-pox-address";
          "get-stacking-minimum"; "check-pox-addr-version"; "check-pox-addr-hashbytes";
          "check-pox-lock-period"; "can-stack-stx"; "minimal-can-stack-stx"; "get-pox-info";
          "get-delegation-info"; "get-allowance-contract-callers"; "get-num-reward-set-pox-addresses";
          "get-partial-stacked-by-cycle"; "get-total-pox-rejection"].

Definition pox_3_is_read_only : string -> bool :=
  one_of ["get-pox-rejection"; "is-pox-active"; "burn-height-to-reward-cycle"; "reward-cycle-to-burn-height";
          "current-pox-reward-cycle"; "get-stacker-info"; "get-check-delegation"; "get-reward-set-size";
          "next-cycle-rejection-votes"; "get-total-ustx-stacked"; "get-reward-set-pox-address";
          "get-stacking-minimum"; "check-pox-addr-version"; "check-pox-addr-hashbytes";
          "check-pox-lock-period"; "can-stack-stx"; "minimal-can-stack-stx"; "get-pox-info";
          "get-delegation-info"; "get-allowance-contract-callers"; "get-num-reward-set-pox-addresses";
          "get-partial-stacked-by-cycle"; "get-total-pox-rejection"].

Definition pox_4_is_read_only : string -> bool :=
  one_of ["burn-height-to-reward-cycle"; "reward-cycle-to-burn-height"; "current-pox-reward-cycle";
          "get-stacker-info"; "check-caller-allowed"; "get-check-delegation"; "get-reward-set-size";
          "get-total-ustx-stacked"; "get-reward-set-pox-address"; "get-stacking-minimum";
          "check-pox-addr-version"; "check-pox-addr-hashbytes"; "check-pox-lock-period"; "can-stack-stx";
          "minimal-can-stack-stx"; "get-signer-key-message-hash"; "verify-signer-key-sig"; "get-pox-info";
          "get-delegation-info"; "get-allowance-contract-callers"; "get-num-reward-set-pox-addresses";
          "get-partial-stacked-by-cycle"].

Definition pox_2_handle_contract_call (sender_opt : option PrincipalData)
    (contract_id : QualifiedContractIdentifier) function_name args value : GM unit :=
  print_event_opt ← print_event sender_opt contract_id function_name args value;
  lock_event_opt ← lock_event_opt function_name (handle_stack_lockup_pox_v2 value)
    (handle_stack_lockup_extension_pox_v2 value) (handle_stack_lockup_increase_pox_v2 value);
  push_event_opt print_event_opt;;
  push_event_opt lock_event_opt.

Definition pox_3_handle_contract_call (sender_opt : option PrincipalData)
    (contract_id : QualifiedContractIdentifier) function_name args value : GM unit :=
  print_event_opt ← print_event sender_opt contract_id function_name args value;
  lock_event_opt ← lock_event_opt function_name (handle_stack_lockup_pox_v3 value)
    (handle_stack_lockup_extension_pox_v3 value) (handle_stack_lockup_increase_pox_v3 value);
  push_event_opt print_event_opt;;
  push_event_opt lock_event_opt.

(** A delegation is logged like a lock, once in a transaction. *)
Definition log_delegation (sender_opt : option PrincipalData) args : GM unit :=
  match sender_opt, args with
  | Some sender, UInt amount :: _ =>
      asset_map ← get_readonly_asset_map;
      ensure (bool_decide (get_stacking sender asset_map = None)) (RuntimeCheck RC_PoxStxAssetMapOverwrite);;
      log_stacking sender amount
  | _, _ =>
      throw (expect_error "Unreachable: failed to log STX delegation in PoX-4 delegate-stx call")
  end.

Definition pox_4_handle_contract_call (sender_opt : option PrincipalData)
    (contract_id : QualifiedContractIdentifier) function_name args value : GM unit :=
  print_event_opt ← print_event sender_opt contract_id function_name args value;
  lock_event_opt ← lock_event_opt function_name (handle_stack_lockup_pox_v4 function_name value)
    (handle_stack_lockup_extension_pox_v4 function_name value)
    (handle_stack_lockup_increase_pox_v4 function_name value);
  (if bool_decide (function_name = "delegate-stx") then log_delegation sender_opt args else mret tt);;
  push_event_opt print_event_opt;;
  push_event_opt lock_event_opt.

(** *** PoX-5 *)

Definition locking_error_to_vm_error (e : LockingError) (ctx : string) : VmExecutionError :=
  match e with
  | DefunctPoxContract => defunct
  | PoxAlreadyLocked => already_locked
  | Clarity err => err
  | _ => expect_error (ctx +:+ ": pox-5 invariant violated: " +:+ debug_locking_error e)
  end.

(** The parse of the value returned; what is done with a lock *)
Definition on_stake function_name value
    (k : PrincipalData -> Z -> Z -> GM StacksTransactionEvent) : GM (option StacksTransactionEvent) :=
  charge_transfer;;
  parsed ← lift (map_err (fun e => locking_error_to_vm_error e ("pox-5 " +:+ function_name +:+ ": bad response"))
                   (parse_pox_stake_result value));
  match parsed with
  | StakeOk staker amount_ustx unlock_burn_height =>
      event ← k staker amount_ustx unlock_burn_height; mret (Some event)
  | ContractErr => mret None
  end.

(** A failed lock, in the words of the function *)
Definition or_lock_error {A} (ctx : string) (m : M (GlobalContext S) LockingError A) : GM A :=
  mmap_err (fun e => locking_error_to_vm_error e ctx) m.

Definition handle_lockup_pox_v5 function_name value : GM (option StacksTransactionEvent) :=
  on_stake function_name value (fun staker locked_amount unlock_height =>
    already_locked ← on_ledger (fun env => has_lock env staker);
    or_lock_error ("pox-5 " +:+ function_name +:+ ": failed to lock " +:+ pretty locked_amount +:+ " from "
                   +:+ principal_to_string staker +:+ " until " +:+ pretty unlock_height)
      (if (already_locked : bool)
       then on_ledger (fun env => pox_rollover_v5 env staker unlock_height locked_amount);; mret tt
       else on_ledger (fun env => pox_lock_v5 env staker locked_amount unlock_height));;
    log_stacking staker locked_amount;;
    lock_event "pox-5" locked_amount unlock_height staker).

Definition handle_stake_lockup_update_pox_v5 function_name value : GM (option StacksTransactionEvent) :=
  on_stake function_name value (fun staker amount_ustx unlock_height =>
    or_lock_error ("pox-5 " +:+ function_name +:+ ": failed to extend lock from "
                   +:+ principal_to_string staker +:+ " until " +:+ pretty unlock_height)
      (on_ledger (fun env => pox_lock_update_v5 env staker unlock_height amount_ustx));;
    log_stacking staker amount_ustx;;
    lock_event "pox-5" amount_ustx unlock_height staker).

Definition handle_unstake_pox_v5 function_name value : GM (option StacksTransactionEvent) :=
  on_stake function_name value (fun staker locked_amount unlock_height =>
    or_lock_error ("pox-5 " +:+ function_name +:+ ": failed to unstake "
                   +:+ principal_to_string staker +:+ " until " +:+ pretty unlock_height)
      (on_ledger (fun env => pox_unstake_v5 env staker unlock_height));;
    lock_event "pox-5" locked_amount unlock_height staker).

(** What alters a position is on record whether or not the call succeeded. *)
Definition pox_5_handle_contract_call (sender_opt : option PrincipalData) function_name value : GM unit :=
  lock_event_opt ←
    if one_of ["stake"; "register-for-bond"] function_name then handle_lockup_pox_v5 function_name value
    else if one_of ["stake-update"] function_name then handle_stake_lockup_update_pox_v5 function_name value
    else if one_of ["unstake"] function_name then handle_unstake_pox_v5 function_name value
    else mret None;
  match sender_opt with
  | Some staker =>
      if one_of ["unstake"; "unstake-sbtc"; "update-bond-registration"; "announce-l1-early-exit"] function_name
      then log_pox_action staker else mret tt
  | None => mret tt
  end;;
  push_event_opt lock_event_opt.

(** *** All contracts *)

Inductive PoxVersions := Pox1 | Pox2 | Pox3 | Pox4 | Pox5.

Definition pox_lookup_by_name (name : string) : option PoxVersions :=
  match name with
  | "pox" => Some Pox1
  | "pox-2" => Some Pox2
  | "pox-3" => Some Pox3
  | "pox-4" => Some Pox4
  | "pox-5" => Some Pox5
  | _ => None
  end.

Definition has_contract_call_special_cases (contract : QualifiedContractIdentifier) : bool :=
  is_boot contract && bool_decide (is_Some (pox_lookup_by_name (contract_name contract))).

(** A contract out of use: what the warning reports is read before the error is
    returned, and an error of a read is returned in its place. (Warnings are on
    unless the node is set to log errors only.) *)
Definition reject_defunct (unlock_height : DbEnv -> M S VmExecutionError Z) : GM unit :=
  on_ledger unlock_height;;
  on_ledger get_current_burnchain_block_height;;
  throw defunct.

Definition handle_contract_call_special_cases (sender sponsor : option PrincipalData)
    (contract_id : QualifiedContractIdentifier) function_name args (result : Value) : GM unit :=
  g ← get;
  if negb (bool_decide (issuer contract_id = boot_code_addr (mainnet g))) then mret tt
  else
    match pox_lookup_by_name (contract_name contract_id) with
    | None => mret tt
    | Some Pox1 =>
        out_of_use ←
          if pox_1_is_read_only function_name then mret false
          else
            v1_unlock_height ← on_ledger (fun env => mret (get_v1_unlock_height env));
            current_burn_height ← on_ledger get_current_burnchain_block_height;
            mret (v1_unlock_height <=? current_burn_height);
        (if (out_of_use : bool) then reject_defunct (fun env => mret (get_v1_unlock_height env)) else mret tt);;
        pox_1_handle_contract_call function_name result
    | Some Pox2 =>
        (if negb (pox_2_is_read_only function_name) && epoch_leb Epoch22 (epoch_id g)
         then reject_defunct get_v2_unlock_height else mret tt);;
        pox_2_handle_contract_call sender contract_id function_name args result
    | Some Pox3 =>
        (if negb (pox_3_is_read_only function_name) && epoch_leb Epoch25 (epoch_id g)
         then reject_defunct get_v3_unlock_height else mret tt);;
        pox_3_handle_contract_call sender contract_id function_name args result
    | Some Pox4 =>
        (if negb (pox_4_is_read_only function_name) && epoch_leb Epoch40 (epoch_id g)
         then reject_defunct get_v4_unlock_height else mret tt);;
        pox_4_handle_contract_call sender contract_id function_name args result
    | Some Pox5 => pox_5_handle_contract_call sender function_name result
    end.

Definition special_cases_handler_for : SpecialCaseHandlers S := fun contract =>
  if has_contract_call_special_cases contract then Some handle_contract_call_special_cases else None.
End Handlers.
