(* ===== verification/PoxLedger.v ===== *)
(** * PoX locks on the ledger

    What the functions of [pox-locking] that lock, extend, increase and move
    locks do to the balances, and what the events that report them say. *)

From S2P Require Import Prelude.
From S2P Require Import BTree.
From S2P Require Import Epochs.
From S2P Require Import Values.
From S2P Require Import Types.
From S2P Require Import RollbackStore.
From S2P Require Import NestedStore.
From S2P Require Import C32.
From S2P Require Import STXBalance.
From S2P Require Import Database.
From S2P Require Import STXLedger.
From S2P Require Import AssetMap.
From S2P Require Import VmErrors.
From S2P Require Import TypedValues.
From S2P Require Import Expressions.
From S2P Require Import ContractData.
From S2P Require Import Contexts.
From S2P Require Import CostTables.
From S2P Require Import Costs.
From S2P Require Import Contracts.
From S2P Require Import CostFunctions.
From S2P Require Import GlobalContext.
From S2P Require Import Regimes.
From S2P Require Import ExecutionState.
From S2P Require Import SpecialForms.
From S2P Require Import Transactions.
From S2P Require Import PoxEvents.
From S2P Require Import PoxLocking.

(** ** The functions over a store are simulated over its view *)

Section SimLocks.
Context `{Sha256} {S : Type} `{KVStoreLaws S} (env : DbEnv).

Lemma sim_with_account {A} p (m : M (STXBalanceSnapshot S) LockingError A) m' :
  sim snap_rel m m' -> sim views (with_account env p m) (with_account env p m').
Proof.
  intros Hm s v HR. unfold with_account, get_stx_balance_snapshot.
  pose (read := fun (T : Type) (K : KVStore T) =>
    (stx_balance ← get_account_stx_balance p;
     cur_burn_height ← get_current_burnchain_block_height env;
     mret (stx_balance, cur_burn_height)) : M T VmExecutionError (STXBalance * Z)).
  assert (sim views (read S _) (read (gmap string string) _)) as Hread.
  { unfold read. pose proof (sim_get_account_stx_balance (S := S) p). solve_sim. }
  destruct (Hread s v HR) as [Heq HR']. fold (read S _) (read (gmap string string) _).
  destruct (read S _ s) as [r s'], (read _ _ v) as [r' v']; cbn in *. subst r'.
  destruct r as [[b burn] | |]; [| done ..].
  destruct (Hm (mkSnapshot p b burn s') (mkSnapshot p b burn v')) as [Heq2 HR2]; [done |].
  destruct (m _), (m' _); cbn in *. split; [done | apply HR2].
Qed.
End SimLocks.

#[local] Hint Resolve sim_on_db sim_on_balance sim_balance sim_burn_block_height
  sim_principal sim_set_balance sim_balance_view : sim.

Ltac unfold_locks :=
  unfold lock_account, increase_account, clarity, has_locked_tokens, can_transfer, get_available_balance,
    canonical_balance_repr, is_v2_locked, is_v3_locked, is_v4_locked, is_v5_locked,
    balance_view_res, unlock_available_tokens_if_any,
    lock_tokens_v1, lock_tokens_v2, lock_tokens_v3, lock_tokens_v4, lock_tokens_v5, lock_tokens_with,
    extend_lock_v2, extend_lock_v3, extend_lock_v4, update_unlock_v5, extend_lock_with,
    increase_lock_v2, increase_lock_v3, increase_lock_v4, increase_lock_v5, increase_lock_with, set_lock_v5.

Ltac solve_sim_locks :=
  unfold_locks;
  repeat first
    [ progress intros
    | solve [eauto 3 with sim]
    | apply sim_bind
    | apply sim_mmap_err
    | apply sim_if
    | case_match ].

(** ** Up to where it is saved, only the working balance changes. *)

Section Account.
Context `{Sha256} (env : DbEnv).
Abbreviation Db := (gmap string string).
Abbreviation SnapDb := (STXBalanceSnapshot (gmap string string)).

Definition balance_regime : Regime SnapDb.
Proof.
  refine (mkRegime (fun _ => True) (fun x y => y = set_snap_balance (snap_balance y) x) _ _ _).
  - by intros [].
  - intros x y z -> ->. done.
  - done.
Defined.

Lemma framed_runs {A} (op : SnapM Db A) : framed op -> runs balance_regime op op.
Proof. intros Hop snap _. split; [done | intros _; apply Hop]. Qed.
End Account.

#[local] Hint Resolve framed_runs framed_heights framed_on_balance framed_set_balance framed_balance framed_burn : runs.

(** Take a method chain that returned apart. *)
Ltac chain_step :=
  match goal with
  | x : unit |- _ => destruct x
  | H : clarity _ _ = (Ok _, _) |- _ => unfold clarity in H
  | H : balance_view _ _ ?s = (Ok _, _), Hr : snap_ready _ ?s _ _ _ _ |- _ =>
      rewrite (balance_view_eval _ _ _ _ _ _ _ Hr) in H; injection H as H <-
  | H : balance_view_res _ _ ?s = (Ok _, _), Hr : snap_ready _ ?s _ _ _ _ |- _ =>
      rewrite (balance_view_res_eval _ _ _ _ _ _ _ Hr) in H; injection H as H <-
  | H : balance _ = (Ok _, _) |- _ => injection H as <- <-
  | H : _ = (Ok _, _) |- _ => progress step_M H
  end.

Ltac checked_result :=
  let Hz := fresh in
  intros ? ? Hz; cbv beta delta [err_or] in Hz;
  first [by apply ok_or_Ok in Hz | by apply expect_some_Ok in Hz].

Section Chains.
Context `{Sha256} (env : DbEnv).
Abbreviation SnapDb := (STXBalanceSnapshot (gmap string string)).
Implicit Types snap : SnapDb.

Lemma canonical_repr_eval snap v1 v2 v3 v4 b snap' :
  snap_ready env snap v1 v2 v3 v4 -> canonical_balance_repr env snap = (Ok b, snap') ->
  snap' = snap /\ b = canonical_balance (snap_burn_block_height snap) v1 v2 v3 v4 (snap_balance snap).
Proof.
  intros Hr Hop. unfold canonical_balance_repr, canonical_balance in *. repeat chain_step.
  match goal with E : canonical_repr_at_block _ _ _ _ _ _ = Ok _ |- _ => rewrite E end. by destruct a.
Qed.

(** The form of a balance that was increased *)
Lemma increase_lock_form is_mk ver msg add sub mk t snap snap' v1 v2 v3 v4 :
  snap_ready env snap v1 v2 v3 v4 -> wf_balance (snap_balance snap) ->
  increase_lock_with env (b ← canonical_balance_repr env; mret (is_mk b)) ver msg add sub mk t snap
    = (Ok tt, snap') ->
  let locked_now := has_locked_tokens_at_burn_block (snap_burn_block_height snap) v1 v2 v3 v4 in
  locked_now (snap_balance snap) = true /\ is_mk (snap_balance snap) = true /\
  snap' = set_snap_balance (snap_balance snap') snap /\
  exists u, snap_balance snap' = mk u t (unlock_height (snap_balance snap)).
Proof.
  intros Hr Hb Hop. unfold increase_lock_with, has_locked_tokens in Hop.
  destruct (unlock_eval env _ _ _ _ _ Hr Hb) as [n E]. rewrite (M_bind_eval _ _ _ _ _ E) in Hop.
  set (s := set_snap_balance _ snap) in *. assert (snap_ready env s v1 v2 v3 v4) as Hrs by done.
  repeat (chain_step || match goal with
    | E : canonical_balance_repr _ s = _ |- _ => apply (canonical_repr_eval _ _ _ _ _ _ _ Hrs) in E as [-> ->]
    | E : set_balance _ _ = (Ok _, _) |- _ => injection E as <- end).
  unfold s in *. cbn [snap_balance set_snap_balance snap_burn_block_height] in *.
  destruct (canonical_balance_spec (snap_burn_block_height snap) v1 v2 v3 v4 _ Hb) as (_ & _ & _ & El).
  assert (has_locked_tokens_at_burn_block (snap_burn_block_height snap) v1 v2 v3 v4 (snap_balance snap) = true)
    as Hl by congruence.
  rewrite !(canonical_of_locked _ _ _ _ _ _ Hl) in *. split_and!; eauto.
Qed.
End Chains.

(** ** Effects on an account *)

Section Effects.
Context `{Sha256} {S : Type} `{KVStoreLaws S} (env : DbEnv) (burn v1 v2 v3 v4 : Z) (Hburn : is_u64 burn).
Abbreviation Db := (gmap string string).
Abbreviation SnapDb := (STXBalanceSnapshot (gmap string string)).
Abbreviation locked_now := (has_locked_tokens_at_burn_block burn v1 v2 v3 v4).

(** [f] writes the balance of [p], with the same total and as [post] says of
    the balance before, the value returned and the balance after; or it fails
    and changes nothing. *)
Definition lock_effect {A} (p : PrincipalData) (post : STXBalance -> A -> STXBalance -> Prop)
    (f : M S LockingError A) : Prop :=
  forall s, ledger_at env burn v1 v2 v3 v4 s ->
    match f s with
    | (Ok a, s') => kv_ok s' /\ exists b',
        kv_view s' = <[make_key_for_account_balance p := stx_serialize b']> (kv_view s) /\
        wf_balance b' /\ total b' = total (stored_balance s p) /\ post (stored_balance s p) a b'
    | (Err _, s') => kv_ok s' /\ kv_view s' = kv_view s
    | (Panic, _) => True
    end.

(** What a method chain does to the balance of a snapshot *)
Definition balance_effect {A} (post : STXBalance -> A -> STXBalance -> Prop)
    (op : M SnapDb LockingError A) : Prop :=
  forall snap a snap', snap_ready env snap v1 v2 v3 v4 -> snap_burn_block_height snap = burn ->
    wf_balance (snap_balance snap) -> op snap = (Ok a, snap') ->
    wf_balance (snap_balance snap') /\ total (snap_balance snap') = total (snap_balance snap) /\
    post (snap_balance snap) a (snap_balance snap').

Lemma saved_effect {A} p post (op : M (STXBalanceSnapshot S) LockingError A) op' :
  wf_principal p -> sim snap_rel op op' -> runs balance_regime op' op' -> balance_effect post op' ->
  lock_effect p post (with_account env p (save_account op)).
Proof.
  intros Hp Hsim Hruns Hpost s (Hok & Hr & Hm).
  assert (sim snap_rel (save_account op) (save_account op')) as Hs.
  { unfold save_account, clarity, save. solve_sim_locks. }
  destruct (sim_with_account env p _ _ Hs s (kv_view s)) as [Heq [Hok' Hv]]; [done |].
  destruct (Hm p Hp) as (b & Eb & Hb). set (snap := mkSnapshot p b burn (kv_view s)) in *.
  assert (with_account env p (save_account op') (kv_view s) =
    let '(r, snap') := save_account op' snap in (r, snap_db snap')) as E.
  { unfold with_account, get_stx_balance_snapshot, mbind, M_bind. destruct Hr as [Hbu _].
    by rewrite get_account_stx_balance_map, Eb, Hbu. }
  rewrite E in Heq, Hv. unfold stored_balance, balance_at. rewrite Eb.
  destruct (with_account env p (save_account op) s) as [r s']. cbn in Heq, Hok', Hv.
  destruct (Hruns snap I) as [_ Hrel]. specialize (Hpost snap).
  unfold save_account, mbind, M_bind in Heq, Hv.
  destruct (op' snap) as [[a | e |] snap'] eqn:Eop; cbn in Hrel; [| | by cbn in Heq; subst r];
    specialize (Hrel ltac:(done)); cbn in Heq, Hv; subst r.
  - split; [done |]. destruct (Hpost a snap' (conj (proj2 Hr) Hburn) eq_refl Hb eq_refl) as (? & ? & ?).
    exists (snap_balance snap'). rewrite Hv, Hrel. by split_and!.
  - split; [done |]. by rewrite Hv, Hrel.
Qed.

Lemma effect_ensure {A} p (post : _ -> A -> _ -> Prop) c e f :
  (c = true -> lock_effect p post f) -> lock_effect p post (ensure c e;; f).
Proof. intros Hf s Hs. destruct c; [by apply Hf | by destruct Hs as (? & ? & ?)]. Qed.

Lemma effect_assert {A} p (post : _ -> A -> _ -> Prop) c f :
  lock_effect p post f -> lock_effect p post (assert_true c;; f).
Proof. intros Hf s Hs. destruct c; [by apply Hf | done]. Qed.

(** The lock that was asked for, on an account without one *)
Definition locks (a h : Z) (b : STXBalance) (_ : unit) (b' : STXBalance) : Prop :=
  amount_locked b' = a /\ unlock_height b' = h /\ a <> 0 /\ burn < h /\ locked_now b = false.

Lemma lock_account_effect msg sub mk a h :
  is_u128 a -> is_u64 h -> lock_ctor mk -> (forall o z, sub o = Ok z -> o = Some z) ->
  balance_effect (locks a h) (lock_account env (lock_tokens_with env msg sub mk) a h).
Proof.
  intros Ha Hh Hmk Hsub snap [] snap' Hr Hbu Hb Hop.
  unfold lock_account, has_locked_tokens, can_transfer, get_available_balance in Hop.
  repeat chain_step.
  match goal with E : lock_tokens_with _ _ _ _ _ _ _ = _ |- _ =>
    eapply lock_tokens_total in E as (? & ? & ? & ? & ? & ? & ?); [| done ..] end.
  rewrite Hbu in *. by split_and!.
Qed.

(** The lock that was there, until another height *)
Definition extends (h : Z) (b : STXBalance) (amount : Z) (b' : STXBalance) : Prop :=
  amount = amount_locked b' /\ amount_locked b' = amount_locked b /\ amount_locked b <> 0 /\
  unlock_height b' = h /\ burn < h.

Lemma locked_now_amount b : locked_now b = true -> amount_locked b <> 0.
Proof. rewrite locked_spec. intros [Hl%negb_true_iff%Z.eqb_neq _]%andb_true_iff. done. Qed.

Lemma extend_account_effect mk h :
  is_u64 h -> lock_ctor mk ->
  balance_effect (extends h)
    (locked ← clarity (has_locked_tokens env);
     ensure locked PoxExtendNotLocked;;
     clarity (extend_lock_with env mk h);;
     b ← clarity balance;
     mret (amount_locked b)).
Proof.
  intros Hh Hmk snap a snap' Hr Hbu Hb Hop. unfold has_locked_tokens in Hop. repeat chain_step.
  match goal with E : extend_lock_with _ _ _ _ = _ |- _ =>
    eapply extend_lock_total in E as (? & ? & ? & ? & ?); [| done ..] end.
  unfold extends. rewrite Hbu in *. split_and!; try done. apply locked_now_amount. congruence.
Qed.

(** A larger lock, until the height that was there; [PoX-2] to [PoX-4] *)
Definition increases (t : Z) (b balance b' : STXBalance) : Prop :=
  balance = b' /\ amount_locked b' = t /\ 0 < amount_locked b <= t /\ unlock_height b' = unlock_height b.


(** A constructor of balances, with its test, and the unlock height that counts *)
Record version_of (mk : Z -> Z -> Z -> STXBalance) (is_mk : STXBalance -> bool) : Prop := {
  ver_ctor : lock_ctor mk;
  ver_test b : is_mk b = true -> exists u l h, b = mk u l h;
  ver_height u l u' l' h :
    effective_unlock_height v1 v2 v3 v4 (mk u l h) = effective_unlock_height v1 v2 v3 v4 (mk u' l' h);
}.

Lemma still_locked mk is_mk b u t :
  version_of mk is_mk -> is_mk b = true -> locked_now b = true -> t <> 0 ->
  locked_now (mk u t (unlock_height b)) = true.
Proof.
  intros [Hc Ht He] (u0 & l0 & h0 & ->)%Ht. rewrite !locked_spec.
  destruct (Hc u0 l0 h0) as (_ & -> & ->), (Hc u t h0) as (_ & -> & _).
  intros [_ Hb]%andb_true_iff Hne%Z.eqb_neq. by rewrite Hne, (He u t u0 l0 h0).
Qed.

Lemma increase_account_effect check total_of ver msg add sub mk is_mk t :
  is_u128 t -> version_of mk is_mk ->
  (forall o z, add o = Ok z -> o = Some z) -> (forall o z, sub o = Ok z -> o = Some z) ->
  (forall snap snap', snap_ready env snap v1 v2 v3 v4 -> check snap = (Ok tt, snap') -> snap' = snap) ->
  balance_effect (increases t)
    (increase_account env check total_of
       (increase_lock_with env (b ← canonical_balance_repr env; mret (is_mk b)) ver msg add sub mk) t).
Proof.
  intros Ht Hv Hadd Hsub Hcheck snap a snap' Hr Hbu Hb Hop.
  unfold increase_account, has_locked_tokens in Hop. unfold clarity in Hop.
  repeat match goal with
  | E : check ?s = (Ok _, _), Hs : snap_ready _ ?s _ _ _ _ |- _ => apply (Hcheck _ _ Hs) in E as ->
  | E : canonical_balance_repr _ ?s = _, Hs : snap_ready _ ?s _ _ _ _ |- _ =>
      apply (canonical_repr_eval _ _ _ _ _ _ _ _ Hs) in E as [-> ->]
  | E : increase_lock_with _ _ _ _ _ _ _ _ ?s = (Ok ?u, ?s'), Hs : snap_ready _ ?s _ _ _ _ |- _ =>
      destruct u; pose proof E as E0; apply (increase_lock_form _ _ _ _ _ _ _ _ _ _ _ _ _ _ Hs Hb) in E0
  | _ => chain_step
  end.
  match goal with E : increase_lock_with _ _ _ _ _ _ _ _ _ = _ |- _ =>
    edestruct increase_lock_total as (? & ? & ? & ? & ?);
      [exact Hr | exact Hb | exact Ht | apply Hv | exact Hadd | exact Hsub | | exact E |] end.
  { intros ? ? ?. apply canonical_repr_read_only. }
  destruct E0 as (Hl & Hmk & Es & u & Eb). rewrite Es in Hk0.
  apply (canonical_repr_eval _ _ v1 v2 v3 v4) in Hk0 as [-> ->]; [| done].
  cbn [snap_balance set_snap_balance snap_burn_block_height]. rewrite Hbu in *.
  assert (amount_locked (snap_balance snap) <> 0) as Hne by (by apply locked_now_amount).
  assert (0 <= amount_locked (snap_balance snap)) by apply Hb.
  rewrite canonical_of_locked; [unfold increases; split_and!; try done; lia |].
  rewrite Eb. apply still_locked with is_mk; try done. lia.
Qed.

(** Another height and a lock that is not smaller; PoX-5 *)
Definition updates (t h : Z) (b : STXBalance) (_ : STXBalance) (b' : STXBalance) : Prop :=
  amount_locked b' = t /\ 0 < amount_locked b <= t /\ unlock_height b' = h /\ burn < h.

Lemma update_account_effect total_of t h :
  is_u128 t -> is_u64 h ->
  balance_effect (updates t h)
    (increase_account env (clarity (update_unlock_v5 env h)) total_of (increase_lock_v5 env) t).
Proof.
  intros Ht Hh snap a snap' Hr Hbu Hb Hop.
  unfold increase_account, has_locked_tokens, clarity in Hop. repeat chain_step.
  match goal with E : update_unlock_v5 _ _ _ = (_, ?s1) |- _ =>
    pose proof (account_op_framed env (UpdateUnlockV5 (snap_principal snap) h) _ _ eq_refl snap) as Hs;
    rewrite E in Hs; cbn [snd] in Hs;
    assert (snap_ready env s1 v1 v2 v3 v4) as Hr1 by (by rewrite Hs);
    eapply extend_lock_total in E as (Hb1 & ? & ? & ? & ?); [| exact Hr | exact Hb | exact Hh | done] end.
  repeat match goal with
  | E : canonical_balance_repr _ ?s = _, Hs : snap_ready _ ?s _ _ _ _ |- _ =>
      apply (canonical_repr_eval _ _ _ _ _ _ _ _ Hs) in E as [-> ->]
  | E : increase_lock_v5 _ _ _ = (_, ?s2) |- _ =>
    pose proof (account_op_framed env (IncreaseV5 (snap_principal snap) t) _ _ eq_refl s1) as Hs2;
    rewrite E in Hs2; cbn [snd] in Hs2;
    assert (snap_ready env s2 v1 v2 v3 v4) by (by rewrite Hs2);
    eapply increase_lock_total in E as (? & ? & ? & ? & ?);
      [| exact Hr1 | exact Hb1 | exact Ht | done | checked_result | checked_result
       | intros ? ? ?; apply canonical_repr_read_only]
  | _ => chain_step
  end.
  rewrite Hbu in *. assert (amount_locked (snap_balance snap) <> 0) by (apply locked_now_amount; congruence).
  assert (0 <= amount_locked (snap_balance snap)) by apply Hb.
  unfold updates. split_and!; try done; try lia; congruence.
Qed.

(** Any lock, until a later height *)
Definition rolls_over (t h : Z) (b : STXBalance) (_ : STXBalance) (b' : STXBalance) : Prop :=
  t <> 0 /\ amount_locked b' = t /\ unlock_height b' = h /\ unlock_height b < h.

Lemma rollover_account_effect t h :
  is_u128 t -> is_u64 h -> t <> 0 ->
  balance_effect (rolls_over t h)
    (locked ← clarity (has_locked_tokens env);
     ensure locked PoxExtendNotLocked;;
     bal ← clarity (canonical_balance_repr env);
     total_amount ← lift (ok_or (checked_total bal) PoxBalanceOverflow);
     ensure (t <=? total_amount) PoxInsufficientBalance;;
     ensure (unlock_height bal <? h) PoxInvalidUnlockHeight;;
     clarity (set_lock_v5 env t h);;
     clarity (canonical_balance_repr env)).
Proof.
  intros Ht Hh Hne snap a snap' Hr Hbu Hb Hop. unfold has_locked_tokens, clarity in Hop.
  repeat match goal with
  | E : canonical_balance_repr _ ?s = _, Hs : snap_ready _ ?s _ _ _ _ |- _ =>
      apply (canonical_repr_eval _ _ _ _ _ _ _ _ Hs) in E as [-> ->]
  | E : set_lock_v5 _ _ _ ?s = (Ok ?u, ?s2) |- _ => destruct u;
    pose proof (account_op_framed env (SetLockV5 (snap_principal snap) t h) _ _ eq_refl s) as Hs2;
    rewrite E in Hs2; cbn [snd] in Hs2;
    assert (snap_ready env s2 v1 v2 v3 v4) by (by rewrite Hs2);
    eapply set_lock_v5_total in E as (? & ? & ? & ?); [| exact Hr | done ..]
  | _ => chain_step
  end.
  rewrite Hbu in *. rewrite (canonical_of_locked burn v1 v2 v3 v4 (snap_balance snap)) in * by congruence.
  ints_hyps. unfold rolls_over. split_and!; done.
Qed.

(** The lock that was there, until another height; PoX-5 *)
Definition moves (h : Z) (b : STXBalance) (_ : unit) (b' : STXBalance) : Prop :=
  amount_locked b' = amount_locked b /\ amount_locked b <> 0 /\ unlock_height b' = h /\ burn < h.

Lemma unstake_account_effect h :
  is_u64 h ->
  balance_effect (moves h)
    (locked ← clarity (has_locked_tokens env);
     ensure locked PoxUnstakeNotLocked;;
     clarity (update_unlock_v5 env h)).
Proof.
  intros Hh snap [] snap' Hr Hbu Hb Hop. unfold has_locked_tokens in Hop. repeat chain_step.
  match goal with E : update_unlock_v5 _ _ _ = _ |- _ =>
    eapply extend_lock_total in E as (? & ? & ? & ? & ?); [| done ..] end.
  unfold moves. rewrite Hbu in *. split_and!; try done. apply locked_now_amount. congruence.
Qed.

(** ** The functions *)

Tactic Notation "saved" uconstr(op) :=
  refine (saved_effect _ _ _ op _ _ _ _); [done | solve_sim_locks | runs |].

Section Functions.
Context (p : PrincipalData) (Hp : wf_principal p).

Lemma lock_effect_with msg sub mk a h :
  is_u128 a -> is_u64 h -> lock_ctor mk -> (forall o z, sub o = Ok z -> o = Some z) ->
  lock_effect p (locks a h)
    (with_account env p (save_account (lock_account env (lock_tokens_with env msg sub mk) a h))).
Proof. intros. saved (lock_account env (lock_tokens_with env msg sub mk) a h). by apply lock_account_effect. Qed.

Lemma pox_lock_v1_effect a h : is_u128 a -> is_u64 h -> lock_effect p (locks a h) (pox_lock_v1 env p a h).
Proof.
  intros. do 2 apply effect_assert.
  saved (b ← clarity balance; ensure (negb (was_locked_by_v2 b)) DefunctPoxContract;;
         lock_account env (lock_tokens_v1 env) a h).
  intros snap x snap' ? ? ? Hop. repeat chain_step.
  refine (lock_account_effect expired_unlock _ LockedPoxOne a h _ _ _ _ snap _ snap' _ _ _ _); try done.
  checked_result.
Qed.

Lemma pox_lock_v2_effect a h : is_u128 a -> is_u64 h -> lock_effect p (locks a h) (pox_lock_v2 env p a h).
Proof. intros. do 2 apply effect_assert. apply lock_effect_with; try done. checked_result. Qed.
Lemma pox_lock_v3_effect a h : is_u128 a -> is_u64 h -> lock_effect p (locks a h) (pox_lock_v3 env p a h).
Proof. intros. do 2 apply effect_assert. apply lock_effect_with; try done. checked_result. Qed.
Lemma pox_lock_v4_effect a h : is_u128 a -> is_u64 h -> lock_effect p (locks a h) (pox_lock_v4 env p a h).
Proof. intros. do 2 apply effect_assert. apply lock_effect_with; try done. checked_result. Qed.
Lemma pox_lock_v5_effect a h : is_u128 a -> is_u64 h -> lock_effect p (locks a h) (pox_lock_v5 env p a h).
Proof. intros. do 2 (apply effect_ensure; intros _). apply lock_effect_with; try done. checked_result. Qed.

Lemma extend_effect_with mk h :
  is_u64 h -> lock_ctor mk -> lock_effect p (extends h) (pox_lock_extend_with env (extend_lock_with env mk) p h).
Proof.
  intros. apply effect_assert.
  saved (locked ← clarity (has_locked_tokens env); ensure locked PoxExtendNotLocked;;
         clarity (extend_lock_with env mk h);; b ← clarity balance; mret (amount_locked b)).
  by apply extend_account_effect.
Qed.

Lemma pox_lock_increase_v2_effect t : is_u128 t -> lock_effect p (increases t) (pox_lock_increase_v2 env p t).
Proof.
  intros. apply effect_assert.
  saved (increase_account env (by_v2 ← clarity (is_v2_locked env); ensure by_v2 PoxIncreaseOnV1)
           (fun b => expect_some (checked_total b)) (increase_lock_v2 env) t).
  eapply increase_account_effect; [done | by split; [.. | intros []; try done; eauto | done] | checked_result .. |].
  intros snap snap' Hr Hop. unfold is_v2_locked in Hop. repeat chain_step.
  match goal with E : canonical_balance_repr _ _ = _ |- _ =>
    by destruct (canonical_repr_eval _ _ _ _ _ _ _ _ Hr E) end.
Qed.

Lemma increase_effect_with is_mk ver msg add sub mk t :
  is_u128 t -> version_of mk is_mk ->
  (forall o z, add o = Ok z -> o = Some z) -> (forall o z, sub o = Ok z -> o = Some z) ->
  lock_effect p (increases t)
    (pox_lock_increase_with env
       (increase_lock_with env (b ← canonical_balance_repr env; mret (is_mk b)) ver msg add sub mk) p t).
Proof.
  intros. apply effect_assert.
  saved (increase_account env (mret tt) (fun b => expect_some (checked_total b))
    (increase_lock_with env (b ← canonical_balance_repr env; mret (is_mk b)) ver msg add sub mk) t).
  apply increase_account_effect; try done. intros. by repeat chain_step.
Qed.

(** *** The functions of the versions *)

Lemma pox_lock_extend_v2_effect h : is_u64 h -> lock_effect p (extends h) (pox_lock_extend_v2 env p h).
Proof. intros. by apply extend_effect_with. Qed.
Lemma pox_lock_extend_v3_effect h : is_u64 h -> lock_effect p (extends h) (pox_lock_extend_v3 env p h).
Proof. intros. by apply extend_effect_with. Qed.
Lemma pox_lock_extend_v4_effect h : is_u64 h -> lock_effect p (extends h) (pox_lock_extend_v4 env p h).
Proof. intros. by apply extend_effect_with. Qed.

Lemma pox_lock_increase_v3_effect t : is_u128 t -> lock_effect p (increases t) (pox_lock_increase_v3 env p t).
Proof.
  intros. apply increase_effect_with; [done | | checked_result ..]. split; [done | | done].
  intros []; try done; eauto.
Qed.
Lemma pox_lock_increase_v4_effect t : is_u128 t -> lock_effect p (increases t) (pox_lock_increase_v4 env p t).
Proof.
  intros. apply increase_effect_with; [done | | checked_result ..]. split; [done | | done].
  intros []; try done; eauto.
Qed.

Lemma pox_unstake_v5_effect h : is_u64 h -> lock_effect p (moves h) (pox_unstake_v5 env p h).
Proof.
  intros. apply effect_ensure. intros _.
  saved (locked ← clarity (has_locked_tokens env); ensure locked PoxUnstakeNotLocked;;
         clarity (update_unlock_v5 env h)).
  by apply unstake_account_effect.
Qed.

Lemma pox_lock_update_v5_effect t h :
  is_u128 t -> is_u64 h -> lock_effect p (updates t h) (pox_lock_update_v5 env p h t).
Proof.
  intros. do 2 (apply effect_ensure; intros _).
  saved (increase_account env (clarity (update_unlock_v5 env h))
           (fun b => ok_or (checked_total b) PoxBalanceOverflow) (increase_lock_v5 env) t).
  by apply update_account_effect.
Qed.

Lemma pox_rollover_v5_effect t h :
  is_u128 t -> is_u64 h -> lock_effect p (rolls_over t h) (pox_rollover_v5 env p h t).
Proof.
  intros. apply effect_ensure. intros Hne%negb_true_iff%Z.eqb_neq.
  saved (locked ← clarity (has_locked_tokens env);
         ensure locked PoxExtendNotLocked;;
         bal ← clarity (canonical_balance_repr env);
         total_amount ← lift (ok_or (checked_total bal) PoxBalanceOverflow);
         ensure (t <=? total_amount) PoxInsufficientBalance;;
         ensure (unlock_height bal <? h) PoxInvalidUnlockHeight;;
         clarity (set_lock_v5 env t h);;
         clarity (canonical_balance_repr env)).
  by apply rollover_account_effect.
Qed.
End Functions.
End Effects.

(** ** Values that a contract returned *)

Definition wf_field (v : Value) : Prop :=
  match v with Principal p => wf_principal p | UInt u => is_u128 u | _ => True end.

(** The principals and numbers of a response are in the range of their types. *)
Definition wf_response (v : Value) : Prop :=
  match v with
  | Response true (Tuple (mkTuple _ fields)) => Forall (fun e => wf_field e.2) fields
  | _ => True
  end.

Ltac parse_steps := repeat match goal with
  | H : _ ≫= _ = Ok _ |- _ => step_M H
  | H : map_err _ _ = Ok _ |- _ => step_M H
  | H : ok_or _ _ = Ok _ |- _ => step_M H
  end; simplify_eq.

Section Parsed.
Implicit Types (t : TupleData) (v : Value).

Definition fields_wf t : Prop :=
  match t with mkTuple _ fields => Forall (fun e => wf_field e.2) fields end.

Lemma expect_ok_Ok {E F A} (r : result E A) a : expect_ok (F := F) r = Ok a -> r = Ok a.
Proof. by destruct r; intros [= ->]. Qed.

Lemma field_wf t name v : fields_wf t -> Values.tuple_get t name = Ok v -> wf_field v.
Proof.
  destruct t as [ty fields]. cbn. intros Hf Hg%ok_or_Ok%assoc_elem_of. rewrite Forall_forall in Hf.
  by apply (Hf _ Hg).
Qed.

Lemma expected_field_wf {A} expect t name (a : A) :
  fields_wf t -> expected_field expect t name = Ok a -> exists v, wf_field v /\ expect v = Ok a.
Proof.
  intros Hf Hop. unfold expected_field, expected in Hop. parse_steps.
  apply expect_ok_Ok in Hm, Hk. eauto using field_wf.
Qed.

Lemma expected_principal t name p :
  fields_wf t -> expected_field expect_principal t name = Ok p -> wf_principal p.
Proof. intros Hf (v & Hv & E)%expected_field_wf; [| done]. by destruct v; simplify_eq/=. Qed.
Lemma expected_uint t name n : fields_wf t -> expected_field expect_u128 t name = Ok n -> is_u128 n.
Proof. intros Hf (v & Hv & E)%expected_field_wf; [| done]. by destruct v; simplify_eq/=. Qed.
Lemma expected_height_wf t h : expected_height t = Ok h -> is_u64 h.
Proof.
  unfold expected_height. intros (n & _ & E%expect_some_Ok)%result_bind_Ok. apply checked_Some in E as [-> E].
  done.
Qed.

Lemma response_fields v res t :
  wf_response v -> expect_result v = Ok (inl res) -> expect_tuple res = Ok t -> fields_wf t.
Proof.
  intros Hv Hr Ht. destruct v; try done. destruct committed; simplify_eq/=.
  destruct res; simplify_eq/=. by destruct t.
Qed.

Lemma parse_response_Ok {A} (read : TupleData -> result Z A) v a :
  wf_response v -> parse_response read v = Ok a -> exists t, fields_wf t /\ read t = Ok a.
Proof.
  intros Hv (r & Hr%expect_ok_Ok & Hop)%result_bind_Ok. destruct r as [res | e].
  - apply result_bind_Ok in Hop as (t & Ht%expect_ok_Ok & Hop). exists t. split; [| done].
    by eapply response_fields.
  - by apply result_bind_Ok in Hop as (? & _ & ?).
Qed.

Lemma parse_stacking_wf v p a h :
  wf_response v -> parse_pox_stacking_result v = Ok (p, a, h) -> wf_principal p /\ is_u128 a /\ is_u64 h.
Proof.
  intros Hv (t & Ht & Hop)%parse_response_Ok; [| done]. parse_steps.
  split_and!; [by eapply expected_principal | by eapply expected_uint | by eapply expected_height_wf].
Qed.

Lemma parse_extend_wf v p h :
  wf_response v -> parse_pox_extend_result v = Ok (p, h) -> wf_principal p /\ is_u64 h.
Proof.
  intros Hv (t & Ht & Hop)%parse_response_Ok; [| done]. parse_steps.
  split; [by eapply expected_principal | by eapply expected_height_wf].
Qed.

Lemma parse_increase_wf v p n :
  wf_response v -> parse_pox_increase v = Ok (p, n) -> wf_principal p /\ is_u128 n.
Proof.
  intros Hv (d & Hd & Hop)%parse_response_Ok; [| done]. parse_steps.
  split; [by eapply expected_principal | by eapply expected_uint].
Qed.

Lemma parse_stake_wf `{VmLibraries} v p a h :
  wf_response v -> parse_pox_stake_result v = Ok (StakeOk p a h) -> wf_principal p /\ is_u128 a /\ is_u64 h.
Proof.
  intros Hv Hop. unfold parse_pox_stake_result, stake_field, malformed in Hop.
  apply result_bind_Ok in Hop as ([res | e] & Hr%map_err_Ok & Hop); [| by parse_steps].
  apply result_bind_Ok in Hop as (t & Ht%map_err_Ok & Hop).
  assert (fields_wf t) as Hf by (by eapply response_fields).
  parse_steps. split_and!.
  - match goal with E : expect_principal ?x = Ok p |- _ =>
      assert (wf_field x) as Hx by (by eapply field_wf); by destruct x; simplify_eq/= end.
  - match goal with E : expect_u128 ?x = Ok a |- _ =>
      assert (wf_field x) as Hx by (by eapply field_wf); by destruct x; simplify_eq/= end.
  - match goal with E : u64_try_from _ = Some h |- _ => by apply checked_Some in E as [-> E] end.
Qed.
End Parsed.

(** ** What the handlers do *)

Section Handlers.
Context `{VmLibraries} {S : Type} `{VmStore S} `{!KVStoreLaws S} `{AstBuilder} `{LockingText}.
Context (env : DbEnv) (Henv : forall s : S, chain_env s = env).
Context (burn v1 v2 v3 v4 : Z) (Hburn : is_u64 burn).
Implicit Types (g : GlobalContext S) (value : Value) (function_name : string).

Abbreviation GM := (M (GlobalContext S) VmExecutionError).
Abbreviation ledger := (ledger_at env burn v1 v2 v3 v4).
Abbreviation lock_effect := (lock_effect env burn v1 v2 v3 v4).

(** No tokens were made or lost. *)
Definition conserved g g' : Prop :=
  ledger (database g') /\
  forall x, wf_principal x -> total (stored_balance (database g') x) = total (stored_balance (database g) x).

(** The event is the lock of an account, with its height, and nothing else
    changed. [restakes]: the amount of the event is the one now locked; when the
    lock is only moved, it is as before. *)
Record reported (contract : string) (restakes : bool) g g' (ev : StacksTransactionEvent) p a h : Prop := {
  rep_event : ev = STXEvent (STXLockEvent (mkSTXLock a h p (boot_code_id contract (mainnet g))));
  rep_principal : wf_principal p;
  rep_amount : amount_locked (stored_balance (database g') p) =
               if restakes then a else amount_locked (stored_balance (database g) p);
  rep_locked : amount_locked (stored_balance (database g') p) <> 0;
  rep_height : unlock_height (stored_balance (database g') p) = h;
  rep_others x : wf_principal x -> x <> p ->
    stored_balance (database g') x = stored_balance (database g) x;
}.

Definition handler_effect (contract : string) (restakes : bool) (m : GM (option StacksTransactionEvent)) : Prop :=
  forall g, ledger (database g) ->
    match m g with
    | (Panic, _) => True
    | (r, g') => conserved g g' /\
        match r with
        | Ok (Some ev) => exists p a h, reported contract restakes g g' ev p a h
        | Ok None => kv_view (database g') = kv_view (database g)
        | _ => True
        end
    end.

(** Work beside the ledger *)
Definition beside_regime : Regime (GlobalContext S).
Proof.
  refine (mkRegime (fun g => ledger (database g))
    (fun g g' => (ledger (database g) -> ledger (database g')) /\
                 kv_view (database g') = kv_view (database g) /\ mainnet g' = mainnet g) _ _ _).
  - done.
  - intros x y z (? & ? & ?) (? & ? & ?). split_and!; [tauto | congruence ..].
  - tauto.
Defined.
Abbreviation F := beside_regime.

Lemma beside_database {E A} (m : M (GlobalContext S) E A) :
  (forall g, database (m g).2 = database g /\ mainnet (m g).2 = mainnet g) -> runs F m m.
Proof. intros Hm g _. split; [done |]. intros _. destruct (Hm g) as [E1 E2]. cbn. by rewrite E1. Qed.

Lemma beside_asset_map {A} (m : M AssetMap VmExecutionError A) : runs F (on_asset_map m) (on_asset_map m).
Proof.
  apply beside_database. intros g. unfold on_asset_map. destruct (asset_maps g) as [| am ams]; [done |].
  by destruct (m am).
Qed.
Lemma beside_costs {E A} (m : M LimitedCostTracker E A) :
  runs F (zoom cost_track set_cost_track m) (zoom cost_track set_cost_track m).
Proof. apply beside_database. intros g. unfold zoom. by destruct (m _). Qed.
Lemma beside_add_cost c : runs F (add_cost c) (add_cost c).
Proof. apply beside_costs. Qed.
#[local] Hint Resolve beside_asset_map beside_add_cost : runs.

Lemma conserved_beside g g' : ledger (database g) -> rel F g g' -> conserved g g'.
Proof. intros Hg (Hl & Hv & _). split; [by apply Hl |]. intros x _. unfold stored_balance. by rewrite Hv. Qed.

Lemma effect_after {A} contract restakes (m : GM A) k :
  runs F m m -> (forall a, handler_effect contract restakes (k a)) -> handler_effect contract restakes (x ← m; k x).
Proof.
  intros Hm Hk g Hg. destruct (Hm g Hg) as [_ Hr]. unfold mbind, M_bind.
  destruct (m g) as [[a | e |] g1]; cbn [fst snd] in Hr; [| | done]; specialize (Hr ltac:(done)).
  - destruct Hr as (Hl & Hv & Hn). specialize (Hk a g1 (Hl Hg)).
    destruct (k a g1) as [[[ev |] | e |] g2]; [| | | done]; destruct Hk as [[Hl2 Ht] Hk].
    all: (split; [split; [done |] |]; [intros x Hx; rewrite Ht by done; unfold stored_balance; by rewrite Hv |]).
    + destruct Hk as (p & amount & h & [E1 ? E2 ? ? E3]). exists p, amount, h.
      unfold stored_balance in *. rewrite Hn, Hv in *. by split.
    + congruence.
    + done.
  - split; [by apply conserved_beside | done].
Qed.

(** What the write of a balance does to the ledger *)
Lemma write_effect (s s' : S) p b' :
  ledger s -> kv_ok s' -> wf_principal p -> wf_balance b' -> total b' = total (stored_balance s p) ->
  kv_view s' = <[make_key_for_account_balance p := stx_serialize b']> (kv_view s) ->
  ledger s' /\
  (forall x, wf_principal x -> total (stored_balance s' x) = total (stored_balance s x)) /\
  amount_locked (stored_balance s' p) = amount_locked b' /\
  (amount_locked b' <> 0 -> unlock_height (stored_balance s' p) = unlock_height b') /\
  (forall x, wf_principal x -> x <> p -> stored_balance s' x = stored_balance s x).
Proof.
  intros (Hok & Hr & Hm) Hok' Hp Hb Ht Hv. unfold stored_balance in *. rewrite Hv.
  destruct (ledger_write_ok env burn v1 v2 v3 v4 (kv_view s) p b' Hr Hm Hp Hb) as [Hr1 Hm1].
  rewrite locked_write_same by done. split_and!; [by split_and!; rewrite ?Hv | | done | |].
  - intros x Hx. destruct (decide (x = p)) as [-> | Hne]; [by rewrite balance_at_write_same |].
    by rewrite balance_at_write_other.
  - intros Hne. by rewrite unlock_height_write_same.
  - intros x Hx Hne. by rewrite balance_at_write_other.
Qed.

(** A lock, what is logged of it, and its event *)
Lemma locking_effect {A} p post (f : DbEnv -> M S LockingError A) (log : A -> GM unit) (amount height : A -> Z)
    (failed : LockingError -> GM (option StacksTransactionEvent)) (contract : string) (restakes : bool) :
  wf_principal p -> lock_effect p post (f env) -> (forall x, runs F (log x) (log x)) ->
  (forall e, runs F (failed e) (failed e)) -> (forall e g o, (failed e g).1 <> Ok o) ->
  (forall b x b', post b x b' -> amount_locked b' = (if restakes then amount x else amount_locked b) /\
     amount_locked b' <> 0 /\ unlock_height b' = height x) ->
  handler_effect contract restakes
    (match_result (on_ledger f)
       (fun x => log x;; event ← lock_event contract (amount x) (height x) p; mret (Some event)) failed).
Proof.
  intros Hp Hf Hlog Hfailed Hnot Hpost g Hg.
  assert (on_ledger f g = let '(r, s') := f env (database g) in (r, set_database s' g)) as E.
  { unfold on_ledger, zoom. erewrite M_bind_eval by done. by rewrite Henv. }
  unfold match_result. rewrite E. clear E. specialize (Hf _ Hg). destruct (f env (database g)) as [[x | e |] s']; [| | done].
  - destruct Hf as (Hok & b' & Hv & Hb & Ht & (Ha & Hne & Hh)%Hpost).
    destruct (write_effect _ _ _ _ Hg Hok Hp Hb Ht Hv) as (Hl & Htot & Hal & Huh & Hoth).
    set (g1 := set_database s' g). destruct (Hlog x g1 Hl) as [_ Hr]. unfold mbind, M_bind.
    destruct (log x g1) as [[[] | e |] g2]; cbn [fst snd] in Hr; [| | done];
      destruct (Hr ltac:(done)) as (Hl2 & Hv2 & Hn2); specialize (Hl2 Hl); cbn in *.
    + split; [split; [done |]; intros y Hy; unfold stored_balance in *; rewrite Hv2; by apply Htot |].
      exists p, (amount x), (height x). unfold stored_balance in *.
      split; [by rewrite Hn2 | done | | | |]; unfold stored_balance; rewrite Hv2;
        [congruence .. | by rewrite Huh | done].
    + split; [split; [done |]; intros y Hy; unfold stored_balance in *; rewrite Hv2; by apply Htot | done].
  - destruct Hf as [Hok Hv]. set (g1 := set_database s' g).
    assert (ledger (database g1)) as Hl1.
    { destruct Hg as (_ & Hr & Hm). unfold g1. cbn. split_and!; [done | by rewrite Hv ..]. }
    destruct (Hfailed e g1 Hl1) as [_ Hr]. specialize (Hnot e g1).
    destruct (failed e g1) as [[o | e' |] g2]; cbn [fst snd] in *; [by destruct (Hnot o) | | done].
    destruct (Hr ltac:(done)) as (Hl2 & Hv2 & _). split; [| done]. split; [by apply Hl2 |].
    intros y Hy. unfold stored_balance. rewrite Hv2. unfold g1. cbn. by rewrite Hv.
Qed.

Lemma effect_ext contract restakes (m n : GM (option StacksTransactionEvent)) :
  (forall g, m g = n g) -> handler_effect contract restakes n -> handler_effect contract restakes m.
Proof. intros E Hn g. rewrite E. apply Hn. Qed.

Lemma effect_none contract restakes : handler_effect contract restakes (mret None).
Proof. intros g Hg. split; [by apply conserved_beside | done]. Qed.

Lemma effect_parsed {A} contract restakes (parsed : result Z A) k :
  (forall a, parsed = Ok a -> handler_effect contract restakes (k a)) ->
  handler_effect contract restakes (on_parsed parsed k).
Proof. intros Hk. destruct parsed as [a | |]; [by apply Hk | apply effect_none | done]. Qed.

Lemma beside_charge_transfer : runs F charge_transfer charge_transfer.
Proof. runs. Qed.
Lemma beside_lock_failed {A} e : runs F (lock_failed (A := A) e) (lock_failed e).
Proof. runs. Qed.
Lemma beside_update_failed {A} e : runs F (update_failed (A := A) e) (update_failed e).
Proof. runs. Qed.
#[local] Hint Resolve beside_charge_transfer : runs.

Lemma lock_failed_not_Ok {A} e g (o : A) : (lock_failed e g).1 <> Ok o.
Proof. by destruct e. Qed.
Lemma update_failed_not_Ok {A} e g (o : A) : (update_failed e g).1 <> Ok o.
Proof. by destruct e. Qed.

Section Stacking.
Context (contract : string) (log : string -> PrincipalData -> Z -> GM unit).
Context (Hlog : forall f p a, runs F (log f p a) (log f p a)) (value : Value) (Hv : wf_response value).

Lemma lockup_effect lock :
  (forall p a h, wf_principal p -> is_u128 a -> is_u64 h -> 
     lock_effect p (locks burn v1 v2 v3 v4 a h) (lock env p a h)) ->
  handler_effect contract true (handle_stack_lockup contract log lock value).
Proof.
  intros Hlock. apply effect_after; [runs |]. intros _. apply effect_parsed.
  intros [[p a] h] (? & ? & ?)%parse_stacking_wf; [| done].
  apply (locking_effect p (locks burn v1 v2 v3 v4 a h) (fun env => lock env p a h) _ (fun _ => a) (fun _ => h));
    auto using beside_lock_failed, lock_failed_not_Ok.
  intros b x b' (-> & -> & ? & _). done.
Qed.

Lemma extension_effect extend :
  (forall p h, wf_principal p -> is_u64 h -> lock_effect p (extends burn h) (extend env p h)) ->
  handler_effect contract true (handle_stack_lockup_extension contract log extend value).
Proof.
  intros Hlock. apply effect_after; [runs |]. intros _. apply effect_parsed.
  intros [p h] (? & ?)%parse_extend_wf; [| done].
  apply (locking_effect p (extends burn h) (fun env => extend env p h) _ id (fun _ => h));
    auto using beside_update_failed, update_failed_not_Ok.
  intros b x b' (-> & -> & ? & -> & _). done.
Qed.

Lemma increase_effect increase :
  (forall p t, wf_principal p -> is_u128 t -> lock_effect p (increases t) (increase env p t)) ->
  handler_effect contract true (handle_stack_lockup_increase contract log increase value).
Proof.
  intros Hlock. apply effect_after; [runs |]. intros _. apply effect_parsed.
  intros [p t] (? & ?)%parse_increase_wf; [| done].
  apply (locking_effect p (increases t) (fun env => increase env p t) _ amount_locked unlock_height);
    auto using beside_update_failed, update_failed_not_Ok.
  intros b x b' (-> & -> & ? & ->). split_and!; [done | lia | done].
Qed.
End Stacking.

Section Staking.
Context (function_name : string) (value : Value) (Hv : wf_response value).

Lemma stake_effect restakes k :
  (forall p a h, wf_principal p -> is_u128 a -> is_u64 h ->
     handler_effect "pox-5" restakes (event ← k p a h; mret (Some event))) ->
  handler_effect "pox-5" restakes (on_stake function_name value k).
Proof.
  intros Hk. apply effect_after; [runs |]. intros _.
  destruct (parse_pox_stake_result value) as [[p a h |] | |] eqn:E.
  - apply parse_stake_wf in E as (? & ? & ?); [| done].
    by apply (effect_ext _ _ _ (event ← k p a h; mret (Some event))), Hk.
  - by apply (effect_ext _ _ _ (mret None)), effect_none.
  - intros g Hg. split; [by apply conserved_beside | done].
  - done.
Qed.

(** A lock, or an error in the words of the function *)
Lemma staking_effect {A} ctx p post (f : DbEnv -> M S LockingError A) (log : GM unit) (a h : Z) (restakes : bool) :
  wf_principal p -> lock_effect p post (f env) -> runs F log log ->
  (forall b x b', post b x b' -> amount_locked b' = (if restakes then a else amount_locked b) /\
     amount_locked b' <> 0 /\ unlock_height b' = h) ->
  handler_effect "pox-5" restakes
    (event ← (or_lock_error ctx (on_ledger f);; log;; lock_event "pox-5" a h p); mret (Some event)).
Proof.
  intros Hp Hf Hlog Hpost. eapply effect_ext;
    [| apply (locking_effect p post f (fun _ => log) (fun _ => a) (fun _ => h)
                (fun e => throw (locking_error_to_vm_error e ctx))); auto; runs].
  intros g. unfold or_lock_error, mmap_err, match_result, mbind, M_bind.
  destruct (on_ledger f g) as [[x | e |] g1]; [| done ..]. by destruct (log g1) as [[] ?].
Qed.

Lemma beside_has_lock p : wf_principal p -> runs F (on_ledger (fun env => has_lock env p)) (on_ledger (fun env => has_lock env p)).
Proof.
  intros Hp g (Hok & Hr & Hm). split; [done |]. intros _.
  assert (on_ledger (fun env => has_lock env p) g =
    let '(r, s') := has_lock env p (database g) in (r, set_database s' g)) as E.
  { unfold on_ledger, zoom. erewrite M_bind_eval by done. by rewrite Henv. }
  rewrite E.
  assert (sim snap_rel (S := STXBalanceSnapshot S) (has_locked_tokens env) (has_locked_tokens env)) as Hs
    by solve_sim_locks.
  destruct (sim_with_snapshot env p _ _ Hs (database g) (kv_view (database g))) as [_ [Hok' Hv']]; [done |].
  destruct (Hm p Hp) as (b & Eb & Hb).
  rewrite (with_snapshot_map env _ p burn _ b _ Hr Eb) in Hv'.
  unfold has_locked_tokens in Hv' at 2. erewrite balance_view_eval in Hv' by (split; [apply Hr | done]).
  unfold has_lock. destruct (with_snapshot env p _ (database g)) as [r s']. cbn in *.
  split_and!; [intros _; by split_and!; rewrite ?Hv' | done | done].
Qed.

Lemma handle_lockup_pox_v5_effect : handler_effect "pox-5" true (handle_lockup_pox_v5 function_name value).
Proof.
  apply stake_effect. intros p a h Hp Ha Hh. eapply effect_ext; [intros; apply M_bind_assoc |].
  apply effect_after; [by apply beside_has_lock |]. intros [].
  - eapply effect_ext;
      [| refine (staking_effect _ p (rolls_over a h) (fun env => pox_rollover_v5 env p h a) (log_stacking p a) a h
                  true Hp _ _ _)].
    + intros g. unfold or_lock_error, mmap_err, mbind, M_bind.
      by destruct (on_ledger (fun env => pox_rollover_v5 env p h a) g) as [[] ?].
    + by apply pox_rollover_v5_effect.
    + runs.
    + by intros b x b' (? & -> & -> & _).
  - refine (staking_effect _ p (locks burn v1 v2 v3 v4 a h) (fun env => pox_lock_v5 env p a h)
              (log_stacking p a) a h true Hp _ _ _); [by apply pox_lock_v5_effect | runs |].
    by intros b x b' (-> & -> & ? & _).
Qed.

Lemma handle_stake_lockup_update_pox_v5_effect :
  handler_effect "pox-5" true (handle_stake_lockup_update_pox_v5 function_name value).
Proof.
  apply stake_effect. intros p a h Hp Ha Hh.
  refine (staking_effect _ p (updates burn a h) (fun env => pox_lock_update_v5 env p h a)
            (log_stacking p a) a h true Hp _ _ _); [by apply pox_lock_update_v5_effect | runs |].
  intros b x b' (-> & ? & -> & _). split_and!; [done | lia | done].
Qed.

Lemma handle_unstake_pox_v5_effect :
  handler_effect "pox-5" false (handle_unstake_pox_v5 function_name value).
Proof.
  apply stake_effect. intros p a h Hp Ha Hh. eapply effect_ext;
    [| refine (staking_effect ("pox-5 " +:+ function_name +:+ ": failed to unstake " +:+ principal_to_string p
                 +:+ " until " +:+ pretty h) p (moves burn h) (fun env => pox_unstake_v5 env p h) (mret tt) a h
                 false Hp _ _ _); [by apply pox_unstake_v5_effect | runs |]].
  - done.
  - intros b x b' (-> & ? & -> & _). done.
Qed.
End Staking.

(** The parts of the handlers that change locks, by the contract that was called *)
Inductive lock_handler value : string -> bool -> GM (option StacksTransactionEvent) -> Prop :=
| lock_1 : lock_handler value "pox" true (pox_1_lockup value)
| lock_2 : lock_handler value "pox-2" true (handle_stack_lockup_pox_v2 value)
| extend_2 : lock_handler value "pox-2" true (handle_stack_lockup_extension_pox_v2 value)
| increase_2 : lock_handler value "pox-2" true (handle_stack_lockup_increase_pox_v2 value)
| lock_3 : lock_handler value "pox-3" true (handle_stack_lockup_pox_v3 value)
| extend_3 : lock_handler value "pox-3" true (handle_stack_lockup_extension_pox_v3 value)
| increase_3 : lock_handler value "pox-3" true (handle_stack_lockup_increase_pox_v3 value)
| lock_4 f : lock_handler value "pox-4" true (handle_stack_lockup_pox_v4 f value)
| extend_4 f : lock_handler value "pox-4" true (handle_stack_lockup_extension_pox_v4 f value)
| increase_4 f : lock_handler value "pox-4" true (handle_stack_lockup_increase_pox_v4 f value)
| lock_5 f : lock_handler value "pox-5" true (handle_lockup_pox_v5 f value)
| update_5 f : lock_handler value "pox-5" true (handle_stake_lockup_update_pox_v5 f value)
| unstake_5 f : lock_handler value "pox-5" false (handle_unstake_pox_v5 f value).

Lemma pox_1_lockup_effect value : wf_response value -> handler_effect "pox" true (pox_1_lockup value).
Proof.
  intros Hv. apply effect_after; [runs |]. intros _. apply effect_parsed.
  intros [[p a] h] (? & ? & ?)%parse_stacking_wf; [| done]. eapply effect_ext;
    [| apply (locking_effect p (locks burn v1 v2 v3 v4 a h) (fun env => pox_lock_v1 env p a h) (fun _ => mret tt)
                (fun _ => a) (fun _ => h) lock_failed);
       auto using beside_lock_failed, lock_failed_not_Ok, pox_lock_v1_effect; [runs |]].
  - done.
  - intros b x b' (-> & -> & ? & _). done.
Qed.

Lemma no_log_runs f p a : runs F (no_log f p a) (no_log f p a).
Proof. runs. Qed.
Lemma log_direct_runs f f' p a : runs F (log_direct f f' p a) (log_direct f f' p a).
Proof. runs. Qed.

Lemma lock_handler_effect value contract restakes m :
  wf_response value -> lock_handler value contract restakes m -> handler_effect contract restakes m.
Proof.
  intros Hv Hm. destruct Hm.
  - by apply pox_1_lockup_effect.
  - apply lockup_effect; [intros; apply no_log_runs | done | intros; by apply pox_lock_v2_effect].
  - apply extension_effect; [intros; apply no_log_runs | done | intros; by apply pox_lock_extend_v2_effect].
  - apply increase_effect; [intros; apply no_log_runs | done | intros; by apply pox_lock_increase_v2_effect].
  - apply lockup_effect; [intros; apply no_log_runs | done | intros; by apply pox_lock_v3_effect].
  - apply extension_effect; [intros; apply no_log_runs | done | intros; by apply pox_lock_extend_v3_effect].
  - apply increase_effect; [intros; apply no_log_runs | done | intros; by apply pox_lock_increase_v3_effect].
  - apply lockup_effect; [intros; apply log_direct_runs | done | intros; by apply pox_lock_v4_effect].
  - apply extension_effect; [intros; apply log_direct_runs | done | intros; by apply pox_lock_extend_v4_effect].
  - apply increase_effect; [intros; apply log_direct_runs | done | intros; by apply pox_lock_increase_v4_effect].
  - by apply handle_lockup_pox_v5_effect.
  - by apply handle_stake_lockup_update_pox_v5_effect.
  - by apply handle_unstake_pox_v5_effect.
Qed.


(** ** Contracts out of use *)

Lemma ledger_epoch (s : S) : ledger s -> exists ep,
  get_clarity_epoch_version (kv_view s) = (Ok ep, kv_view s) /\ v1 = burn_v1_unlock_height env.
Proof.
  intros (_ & [_ Hh] & _). destruct (epoch_version_same (kv_view s) (kv_view s) eq_refl) as [E _].
  destruct (get_clarity_epoch_version (kv_view s)).1 as [ep | x |].
  - rewrite (get_unlock_heights_map env _ ep E) in Hh. injection Hh. eauto.
  - unfold get_unlock_heights, get_v2_unlock_height in Hh.
    by rewrite (M_bind_Err _ _ _ _ _ (M_bind_Err _ _ _ _ _ E)) in Hh.
  - unfold get_unlock_heights, get_v2_unlock_height in Hh.
    by rewrite (M_bind_Panic _ _ _ _ (M_bind_Panic _ _ _ _ E)) in Hh.
Qed.

(** [g'] is [g] with a database in the same state. *)
Definition same_but_reads g g' : Prop :=
  ledger (database g') /\ kv_view (database g') = kv_view (database g) /\ g' = set_database (database g') g.

Lemma ledger_read {A} (f : DbEnv -> M S VmExecutionError A) (f' : M (gmap string string) VmExecutionError A) a g :
  ledger (database g) -> sim views (f env) f' -> f' (kv_view (database g)) = (Ok a, kv_view (database g)) ->
  exists g', on_ledger f g = (Ok a, g') /\ same_but_reads g g'.
Proof.
  intros Hg Hs Ef. destruct (Hs (database g) (kv_view (database g))) as [Er [Hok Hv]]; [by destruct Hg |].
  rewrite Ef in Er, Hv. unfold on_ledger, zoom. erewrite M_bind_eval by done. rewrite Henv.
  destruct (f env (database g)) as [r s']. cbn in Er, Hok, Hv. subst r. eexists. split; [done |].
  destruct Hg as (_ & ? & ?). split; [| done]. cbn. unfold ledger_at. by rewrite Hv.
Qed.

Lemma same_but_reads_trans g1 g2 g3 : same_but_reads g1 g2 -> same_but_reads g2 g3 -> same_but_reads g1 g3.
Proof. intros (? & V1 & E1) (? & V2 & E2). split_and!; [done | congruence |]. rewrite E2 at 1. by rewrite E1. Qed.

Lemma reject_defunct_eval f f' g a :
  ledger (database g) -> sim views (f env) f' -> f' (kv_view (database g)) = (Ok a, kv_view (database g)) ->
  exists g', reject_defunct f g = (Err defunct, g') /\ same_but_reads g g'.
Proof.
  intros Hg Hs Ef. destruct (ledger_read f f' a g Hg Hs Ef) as (g1 & E1 & H1').
  pose proof H1' as (Hl1 & Hv1 & _). destruct (ledger_read get_current_burnchain_block_height
    (get_current_burnchain_block_height env) burn g1 Hl1) as (g2 & E2 & H2');
    [apply sim_get_current_burnchain_block_height | apply Hl1 |].
  exists g2. split; [| by eapply same_but_reads_trans].
  unfold reject_defunct. by rewrite (M_bind_eval _ _ _ _ _ E1), (M_bind_eval _ _ _ _ _ E2).
Qed.

Definition out_of_use (version : PoxVersions) g : bool :=
  match version with
  | Pox1 => v1 <=? burn
  | Pox2 => epoch_leb Epoch22 (epoch_id g)
  | Pox3 => epoch_leb Epoch25 (epoch_id g)
  | Pox4 => epoch_leb Epoch40 (epoch_id g)
  | Pox5 => false
  end.

Definition reads_only (version : PoxVersions) (function_name : string) : bool :=
  match version with
  | Pox1 => pox_1_is_read_only function_name
  | Pox2 => pox_2_is_read_only function_name
  | Pox3 => pox_3_is_read_only function_name
  | Pox4 => pox_4_is_read_only function_name
  | Pox5 => false
  end.

Lemma pox_1_out_of_use g :
  ledger (database g) -> v1 <= burn -> exists g',
    same_but_reads g g' /\ forall A (k : GM A),
      (out_of_use ←
         (v1_unlock_height ← on_ledger (fun env => mret (get_v1_unlock_height env));
          current_burn_height ← on_ledger get_current_burnchain_block_height;
          mret (v1_unlock_height <=? current_burn_height));
       (if (out_of_use : bool) then reject_defunct (fun env => mret (get_v1_unlock_height env)) else mret tt);;
       k) g = (Err defunct, g').
Proof.
  intros Hg Hle. destruct (ledger_epoch _ Hg) as (_ & _ & Hv1).
  assert (sim (S := S) views (mret (M := M S VmExecutionError) (get_v1_unlock_height env))
            (mret (get_v1_unlock_height env))) as Hs by (intros ? ? ?; done).
  destruct (ledger_read (fun env => mret (get_v1_unlock_height env)) _ _ g Hg Hs eq_refl) as (g1 & E1 & H1').
  pose proof H1' as (Hl1 & Hv1' & _).
  destruct (ledger_read get_current_burnchain_block_height
    (get_current_burnchain_block_height env) burn g1 Hl1) as (g2 & E2 & H2');
    [apply sim_get_current_burnchain_block_height | apply Hl1 |].
  pose proof H2' as (Hl2 & _).
  destruct (reject_defunct_eval (fun env => mret (get_v1_unlock_height env)) _ g2 _ Hl2 Hs eq_refl)
    as (g3 & E3 & H3').
  exists g3. split; [eauto using same_but_reads_trans |]. intros A k.
  erewrite M_bind_eval by (rewrite (M_bind_eval _ _ _ _ _ E1), (M_bind_eval _ _ _ _ _ E2); done).
  unfold get_v1_unlock_height at 1. rewrite <- Hv1, (proj2 (Z.leb_le _ _) Hle).
  exact (M_bind_Err _ _ _ _ _ E3).
Qed.

Lemma defunct_then f f' (b : bool) g :
  ledger (database g) -> sim views (f env) f' ->
  (exists a, f' (kv_view (database g)) = (Ok a, kv_view (database g))) ->
  b = true -> exists g', same_but_reads g g' /\ forall A (k : GM A),
    ((if b then reject_defunct f else mret tt);; k) g = (Err defunct, g').
Proof.
  intros Hg Hs [a Ef] ->. destruct (reject_defunct_eval f f' g a Hg Hs Ef) as (g' & E & Hs').
  exists g'. split; [done |]. intros. exact (M_bind_Err _ _ _ _ _ E).
Qed.

(** C25: A contract call that the node handles is one of a PoX contract of its own
    network. Once the contract is out of use (PoX-1 from the burn height at which
    its locks end, PoX-2 from epoch 2.2 on, PoX-3 from epoch 2.5 on, PoX-4 from
    epoch 4.0 on), every call that is not of one of its read-only functions fails
    with DefunctPoxContract, whatever it returned, and the handler changes nothing;
    and after calls of other contracts it does nothing at all. *)
Theorem defunct_contracts_fail (I : Interp S) sender sponsor contract function_name args value g :
  ledger (database g) ->
  let '(r, g') := handle_contract_call_special_cases I sender sponsor contract function_name args value g in
  match pox_lookup_by_name (contract_name contract) with
  | Some version =>
      if bool_decide (issuer contract = boot_code_addr (mainnet g))
      then out_of_use version g = true -> reads_only version function_name = false ->
           r = Err defunct /\ same_but_reads g g'
      else r = Ok tt /\ g' = g
  | None => r = Ok tt /\ g' = g
  end.
Proof.
  intros Hg. destruct (ledger_epoch _ Hg) as (ep & Ee & _).
  unfold handle_contract_call_special_cases. erewrite M_bind_eval by done.
  destruct (bool_decide _); cbn [negb]; [| by destruct (pox_lookup_by_name _)].
  destruct (pox_lookup_by_name _) as [version |]; [| done].
  destruct (_ g) as [r g'] eqn:E. intros Ho Hr.
  cut (exists g1, same_but_reads g g1 /\ (r, g') = (Err defunct, g1)).
  { intros (g1 & Hs & [= -> ->]). done. }
  rewrite <- E. destruct version; cbn in Ho, Hr; [| | | | done].
  - apply Z.leb_le in Ho. destruct (pox_1_out_of_use g Hg Ho) as (g1 & Hs & Ek). exists g1.
    rewrite Hr. by rewrite Ek.
  - destruct (defunct_then get_v2_unlock_height (get_v2_unlock_height env) true g Hg) as (g1 & Hs & Ek);
      [unfold get_v2_unlock_height; solve_sim | eexists; exact (M_bind_eval _ _ _ _ _ Ee) | done |].
    exists g1. rewrite Hr, Ho. split; [done | apply Ek].
  - destruct (defunct_then get_v3_unlock_height (get_v3_unlock_height env) true g Hg) as (g1 & Hs & Ek);
      [unfold get_v3_unlock_height; solve_sim | eexists; exact (M_bind_eval _ _ _ _ _ Ee) | done |].
    exists g1. rewrite Hr, Ho. split; [done | apply Ek].
  - destruct (defunct_then get_v4_unlock_height (get_v4_unlock_height env) true g Hg) as (g1 & Hs & Ek);
      [unfold get_v4_unlock_height; solve_sim | eexists; exact (M_bind_eval _ _ _ _ _ Ee) | done |].
    exists g1. rewrite Hr, Ho. split; [done | apply Ek].
Qed.
End Handlers.
