(* ===== verification/SampleMachine.v ===== *)
(** * A machine to run examples on

    Instances of what the development leaves open, chosen to be simple: hashes
    are constant, keys and headers unknown, and JSON decodes to fixed values. On
    them the concrete instances of the theorems on executions are computed. *)

From S2P Require Import Prelude.
From S2P Require Import Bytes.
From S2P Require Import Epochs.
From S2P Require Import Values.
From S2P Require Import Types.
From S2P Require Import RollbackStore.
From S2P Require Import NestedStore.
From S2P Require Import C32.
From S2P Require Import Database.
From S2P Require Import AssetMap.
From S2P Require Import STXLedger.
From S2P Require Import VmErrors.
From S2P Require Import Arithmetic.
From S2P Require Import CryptoNatives.
From S2P Require Import Expressions.
From S2P Require Import ContractData.
From S2P Require Import Contexts.
From S2P Require Import Contracts.
From S2P Require Import BlockInfo.
From S2P Require Import Costs.
From S2P Require Import CostFunctions.
From S2P Require Import Allowances.
From S2P Require Import GlobalContext.
From S2P Require Import ExecutionState.

Definition zero_sha512_256 : Sha512Trunc256.
Proof.
  refine {| sha512_256 _ := replicate 32 0 |}.
  - done.
  - intros _. apply Forall_replicate. unfold is_byte. lia.
Defined.

Definition no_crypto : Crypto.
Proof.
  refine {| ripemd160 _ := replicate 20 0; sha512 _ := replicate 64 0; keccak256 _ := replicate 32 0;
    PublicKey := unit; parse_public_key _ := None; serialize_key _ := []; serialize_uncompressed _ := [];
    recover_ecdsa _ _ _ := None; verify_ecdsa _ _ _ := false; p256_verify _ _ _ := false;
    p256_verify_digest _ _ _ := false; ed25519_verify _ _ _ := false |}.
  done.
Defined.

Definition no_headers : HeadersDb := {|
  stacks_block_header_hash_for_block _ _ := None;
  burn_header_hash_for_block _ := None;
  consensus_hash_for_block _ _ := None;
  vrf_seed_for_block _ _ _ := None;
  stacks_block_time_for_block _ := None;
  burn_block_time_for_block _ _ := None;
  miner_address_for_block _ _ _ := None;
  burnchain_tokens_spent_for_block _ _ _ := None;
  burnchain_tokens_spent_for_winning_block _ _ _ := None;
  tokens_earned_for_block _ _ _ := None;
  stacks_height_for_tenure_height _ _ := None;
  stacks_epoch_at _ := None;
  tip_sortition_id := None;
  sortition_id_from_consensus_hash _ := None;
  burn_header_hash_at _ _ := None;
  pox_payout_addrs_at _ _ := None;
|}.

Definition constant_json {A} (x : option A) : SerdeJson A := {| json_to_string _ := ""; json_from_str _ := x |}.

(** Transfers tokens and then fails:
    [(begin (stx-transfer? u5 tx-sender 'ST..c) (unwrap-panic none))] *)
Definition spend_and_fail : SymbolicExpression :=
  ExprList [Atom "begin";
    ExprList [Atom "stx-transfer?"; LiteralValue (UInt 5); Atom "tx-sender"; LiteralValue (Principal sample_recipient)];
    ExprList [Atom "unwrap-panic"; Atom "none"]].

(** [(begin (stx-transfer? u5 tx-sender 'ST..c) (ok true))] *)
Definition spend : SymbolicExpression :=
  ExprList [Atom "begin";
    ExprList [Atom "stx-transfer?"; LiteralValue (UInt 5); Atom "tx-sender"; LiteralValue (Principal sample_recipient)];
    ExprList [Atom "ok"; LiteralValue (Bool true)]].

#[local] Existing Instance zero_sha256.

Definition spending_contract : ContractContext :=
  set_cc_functions
    {["spend-and-fail" := DefinedFunction_new [] spend_and_fail Public "spend-and-fail" (contract_to_string sample_contract);
      "spend" := DefinedFunction_new [] spend Public "spend" (contract_to_string sample_contract)]}
    (ContractContext_new sample_contract Clarity3).

Definition sample_libraries : VmLibraries := {|
  lib_sha256 := zero_sha256;
  lib_sha512_256 := zero_sha512_256;
  lib_debug := plain_text;
  lib_hash_map := canonical_iter;
  lib_crypto := no_crypto;
  lib_headers := no_headers;
  lib_cost_contracts := {| compute_cost_in_contract _ _ _ _ := Err CE_CostContractLoadFailure |};
  lib_layout := {| size_of_StxAllowance := 16; size_of_FtAllowance := 16; size_of_NftAllowance := 16;
                   size_of_StackingAllowance := 16; size_of_StandardPrincipalData := 21 |};
  lib_json_u128 := constant_json None;
  lib_json_u64 := constant_json (Some 100);
  lib_json_principal := constant_json None;
  lib_json_ft := constant_json None;
  lib_json_nft := constant_json None;
  lib_json_map := constant_json None;
  lib_json_var := constant_json None;
  lib_json_contract := constant_json (Some spending_contract);
|}.

(** ** A node *)

#[export] Instance MemStore_chain : ChainBacking MemStore := {
  backing_env _ := mkDbEnv 100 200 300 400 50 (Some 150) 0 (fun _ => None) (fun _ => None);
  backing_open_chain_tip_height _ := 0;
}.

Definition no_handlers {S} : SpecialCaseHandlers S := fun _ => None.

Definition sample_node : VmStore (RollbackWrapper MemStore) := node_store MemStore no_handlers.

(** The contract is stored and the sender has tokens. *)
Definition sample_block : MemStore :=
  mkMemStore (<[clarity_state_epoch_key := u32_serialize (epoch_as_u32 Epoch34)]> sample_ledger)
    {[(sample_contract, metadata_key CN_Contract) := "";
      (sample_contract, metadata_key CN_ContractSize) := "";
      (sample_contract, metadata_key CN_ContractDataSize) := ""]}.

(** Between two transactions of a block *)
Definition sample_state : ExecutionState (RollbackWrapper MemStore) :=
  mkExecutionState
    (mkGlobalContext [] [] (db_begin (RollbackWrapper_new sample_block)) [] Free false Epoch34 0)
    CallStack_new.
