(* ===== verification/Executions.v ===== *)
(** * Executions end

    What the node runs (evaluations, contract calls, deployments) gives the same
    result with any number of interpreter steps from [EVAL_FUEL] on, whatever
    the interpreter would do beyond them; and the interpreter with [EVAL_FUEL]
    steps satisfies the mutually recursive equations of the code. *)

From S2P Require Import Prelude.
From S2P Require Import Epochs.
From S2P Require Import Values.
From S2P Require Import Types.
From S2P Require Import RollbackStore.
From S2P Require Import NestedStore.
From S2P Require Import AssetMap.
From S2P Require Import VmErrors.
From S2P Require Import TypedValues.
From S2P Require Import Expressions.
From S2P Require Import Database.
From S2P Require Import ContractData.
From S2P Require Import Contexts.
From S2P Require Import Contracts.
From S2P Require Import Costs.
From S2P Require Import GlobalContext.
From S2P Require Import Regimes.
From S2P Require Import ExecutionState.
From S2P Require Import StoreRegimes.
From S2P Require Import SpecialForms.
From S2P Require Import EvalRegimes.
From S2P Require Import UserFunctions.
From S2P Require Import Interpreter.
From S2P Require Import FormRegimes.
From S2P Require Import Evaluation.
From S2P Require Import Transactions.
From S2P Require Import DeploymentRegimes.
From S2P Require Import SampleMachine.

#[local] Existing Instance any_frames.

Section Termination.
Context `{VmLibraries} {S : Type} `{VmStore S} (Hhandlers : handlers_confined S).
Implicit Types (st : ExecutionState S) (J : Interp S).

(** [n] steps, then [J] *)
Definition stepping (n : nat) J : Interp S := Nat.iter n interp_step J.

Lemma stepping_runs e n J : (EVAL_FUEL <= n)%nat ->
  interps_run e 0 (stepping n J) (interp EVAL_FUEL).
Proof.
  intros Hn. pose proof (any_vm_frames e Hhandlers) as Hframes. unfold stepping. rewrite interp_iter.
  replace n with (EVAL_FUEL + (n - EVAL_FUEL))%nat by lia. rewrite Nat.iter_add. by apply interps_enough.
Qed.

Lemma env_same {A} sender sponsor context (f f' : InvocationContext -> M (ExecutionState S) VmExecutionError A) st :
  (forall ic, f ic (mkExecutionState (begin_ (global_context st)) (call_stack st)) =
              f' ic (mkExecutionState (begin_ (global_context st)) (call_stack st))) ->
  execute_in_env sender sponsor context f st = execute_in_env sender sponsor context f' st.
Proof.
  intros Hf. unfold execute_in_env. do 2 (erewrite (M_bind_eval get) by done).
  destruct (is_top_level (global_context st)); [| done].
  do 4 (erewrite M_bind_eval by done). unfold match_result. cbv zeta.
  match goal with |- match f ?ic ?s with _ => _ end = _ =>
    replace (f ic s) with (f' ic s) by (symmetry; apply Hf) end. done.
Qed.

Lemma initialize_same n J ic c version content text st :
  (EVAL_FUEL <= n)%nat -> 0 <= call_depth (call_stack st) ->
  initialize_contract_from_ast (stepping n J) ic c version content text st =
  initialize_contract_from_ast (interp EVAL_FUEL) ic c version content text st.
Proof.
  intros Hn Hst. set (e := epoch_id (global_context st)).
  pose proof (any_vm_frames e Hhandlers) as Hframes. pose proof (stepping_runs e n J Hn) as HJ.
  unfold initialize_contract_from_ast. do 2 (erewrite M_bind_eval by done). unfold match_result.
  match goal with |- match make_contract _ _ _ _ _ _ ?s with _ => _ end = _ =>
    destruct (runs_make_contract e _ _ HJ 0 c version content text ic s) as [-> _]; [by split | done] end.
Qed.

(** C3: Every execution ends with a result, a value or an error of the program.
    Evaluations of expressions, applications of functions, contract calls and
    deployments do not depend on how many steps the interpreter is given, from
    [EVAL_FUEL] on, nor on what it would do after them: the call stack reaches
    its limit before. *)
Theorem executions_end n J st :
  (EVAL_FUEL <= n)%nat -> 0 <= call_depth (call_stack st) ->
  (forall x ic context,
     eval (stepping n J) x ic context st = eval (interp EVAL_FUEL) x ic context st) /\
  (forall f args ic context,
     apply_evaluated (stepping n J) f args ic context st =
     apply_evaluated (interp EVAL_FUEL) f args ic context st) /\
  (forall sender sponsor c name args,
     execute_transaction (stepping n J) sender sponsor c name args st =
     execute_transaction (interp EVAL_FUEL) sender sponsor c name args st) /\
  (forall c version content text sponsor,
     deploy_contract (stepping n J) c version content text sponsor st =
     deploy_contract (interp EVAL_FUEL) c version content text sponsor st).
Proof.
  intros Hn Hst. set (e := epoch_id (global_context st)).
  pose proof (any_vm_frames e Hhandlers) as Hframes. pose proof (stepping_runs e n J Hn) as HJ.
  split_and!; intros.
  - by apply (eval_runs _ _ _ _ HJ x ic context st).
  - by apply (apply_runs _ _ _ _ HJ f args ic context st).
  - apply env_same. intros ic. by apply (runs_execute_contract e 0 _ _ HJ).
  - apply env_same. intros ic. by apply initialize_same.
Qed.

End Termination.

(** ** Concrete instances *)

#[local] Existing Instance sample_libraries.
#[local] Existing Instance sample_node.

Lemma no_handlers_confined : handlers_confined (RollbackWrapper MemStore).
Proof. intros c h sender sponsor c' f args v. discriminate. Qed.

(** Ten more steps, and an interpreter that answers 7 *)
Definition seven : Interp (RollbackWrapper MemStore) :=
  mkInterp (fun _ _ _ => mret (Owned (UInt 7))) (fun _ _ _ _ => mret (UInt 7)).

Definition sample_call : InvocationContext :=
  mkInvocation spending_contract (Some STXLedger.sample_sender) (Some STXLedger.sample_sender) None.

Lemma executions_end_witness :
  (execute_transaction (stepping 140 seven) STXLedger.sample_sender None sample_contract "spend" [] sample_state).1
  = (execute_transaction (interp EVAL_FUEL) STXLedger.sample_sender None sample_contract "spend" [] sample_state).1.
Proof.
  destruct (executions_end no_handlers_confined 140 seven sample_state) as (_ & _ & Htx & _).
  - unfold EVAL_FUEL. lia.
  - apply Z.le_refl.
  - by rewrite Htx.
Defined.

