(* ===== verification/Atomicity.v ===== *)
(** * Transactions are all or nothing

    On the rollback wrapper, contexts are lists of pending edits. An evaluation
    that works in the innermost context leaves the edits of the enclosing ones
    alone ([wrapper_frames]), and all evaluations do ([interps_enough]). So a
    transaction that fails leaves what was pending before it. *)

From S2P Require Import Prelude.
From S2P Require Import Epochs.
From S2P Require Import Values.
From S2P Require Import Types.
From S2P Require Import RollbackStore.
From S2P Require Import NestedStore.
From S2P Require Import AssetMap.
From S2P Require Import VmErrors.
From S2P Require Import TypedValues.
From S2P Require Import Expressions.
From S2P Require Import Database.
From S2P Require Import STXLedger.
From S2P Require Import ContractData.
From S2P Require Import StoredData.
From S2P Require Import Contexts.
From S2P Require Import Contracts.
From S2P Require Import CostTables.
From S2P Require Import Costs.
From S2P Require Import CostFunctions.
From S2P Require Import GlobalContext.
From S2P Require Import Regimes.
From S2P Require Import ExecutionState.
From S2P Require Import StoreRegimes.
From S2P Require Import SpecialForms.
From S2P Require Import EvalRegimes.
From S2P Require Import UserFunctions.
From S2P Require Import Definitions.
From S2P Require Import Interpreter.
From S2P Require Import FormRegimes.
From S2P Require Import Evaluation.
From S2P Require Import Transactions.
From S2P Require Import DeploymentRegimes.
From S2P Require Import SampleMachine.

(** ** The rollback wrapper *)

Section Wrapper.
Context {B : Type} `{BackingMetadataLaws B} (still : bool).
Implicit Types (w : RollbackWrapper B) (a : AbsStore B).

(** The block that is read, when nothing moves it *)
Definition same_block a a' : Prop :=
  still = true -> a_query a' = a_query a /\ bs_view (a_store a') = bs_view (a_store a).

Lemma same_block_refl a : same_block a a.
Proof. done. Qed.
Lemma same_block_trans a1 a2 a3 : same_block a1 a2 -> same_block a2 a3 -> same_block a1 a3.
Proof. intros K1 K2 Hs. destruct (K1 Hs), (K2 Hs). split; congruence. Qed.

(** The edits under the innermost context are the same. *)
Definition wrapper_kept w w' : Prop :=
  forall a c st, Rel w a -> a_stack a = c :: st ->
    exists a' c', Rel w' a' /\ a_stack a' = c' :: st /\ same_block a a'.

Definition wrapper_above w w' : Prop :=
  forall a, Rel w a -> exists a' c', Rel w' a' /\ a_stack a' = c' :: a_stack a /\ same_block a a'.

Lemma wrapper_step op w a w' :
  Rel w a -> (abs_op op a).1 = Ok tt -> w' = (run_op op w).2 -> Rel w' (abs_op op a).2.
Proof.
  intros HR Hok ->. destruct (run_op_refines op w a HR) as [Heq Hs].
  destruct (run_op op w) as [r w1]. cbn in *. subst r. by apply Hs.
Qed.

(** Closing a context *)
Lemma wrapper_rolled_back w w' : wrapper_above w w' -> forall a, Rel w a ->
  (db_roll_back w').1 = Ok tt /\
  exists a', Rel (db_roll_back w').2 a' /\ a_stack a' = a_stack a /\ same_block a a'.
Proof.
  intros Ha a HR. destruct (Ha a HR) as (a1 & c & HR1 & Hst & Hb).
  destruct (run_op_refines OpRollback w' a1 HR1) as [Heq Hs]. unfold abs_op in Heq, Hs. rewrite Hst in Heq, Hs.
  change (run_op OpRollback w') with (db_roll_back w') in *.
  destruct (db_roll_back w') as [r w2]. cbn in *. subst r. split; [done |].
  eexists. split_and!; [by apply Hs | done |]. by eapply same_block_trans.
Qed.

Lemma wrapper_committed w w' : wrapper_above w w' -> forall a c st, Rel w a -> a_stack a = c :: st ->
  (db_commit w').1 = Ok tt /\
  exists a' edits metadata, Rel (db_commit w').2 a' /\
    a_stack a' = mkAbsContext (a_edits c ++ edits) (a_metadata c ++ metadata) :: st /\ same_block a a'.
Proof.
  intros Ha a c st HR Ec. destruct (Ha a HR) as (a1 & c1 & HR1 & Hst & Hb).
  destruct (run_op_refines OpCommit w' a1 HR1) as [Heq Hs]. unfold abs_op in Heq, Hs.
  rewrite Hst, Ec in Heq, Hs. change (run_op OpCommit w') with (db_commit w') in *.
  destruct (db_commit w') as [r w2]. cbn in *. subst r. split; [done |].
  eexists _, (a_edits c1), (a_metadata c1). split_and!; [by apply Hs | done |]. by eapply same_block_trans.
Qed.

Definition wrapper_frames : StoreFrames (RollbackWrapper B).
Proof.
  refine (Build_StoreFrames _ _ wrapper_kept wrapper_above _ _ _ _ _ _).
  - intros w a c st HR Hst. by exists a, c.
  - intros w1 w2 w3 K1 K2 a c st HR Hst. destruct (K1 a c st HR Hst) as (a2 & c2 & HR2 & Hst2 & ?).
    destruct (K2 a2 c2 st HR2 Hst2) as (a3 & c3 & ? & ? & ?). exists a3, c3. eauto using same_block_trans.
  - intros w a HR. eexists _, _. split; [by eapply (wrapper_step OpNest) | done].
  - intros w1 w2 w3 K1 K2 a HR. destruct (K1 a HR) as (a2 & c2 & HR2 & Hst2 & ?).
    destruct (K2 a2 c2 _ HR2 Hst2) as (a3 & c3 & ? & ? & ?). exists a3, c3. eauto using same_block_trans.
  - intros w w' Ha a c st HR Hst. destruct (wrapper_rolled_back w w' Ha a HR) as (_ & a' & ? & Hs & ?).
    exists a', c. by rewrite Hs.
  - intros w w' Ha a c st HR Hst.
    destruct (wrapper_committed w w' Ha a c st HR Hst) as (_ & a' & ed & md & ? & ? & ?). by eexists a', _.
Defined.
End Wrapper.

Section Operations.
Context {B : Type} `{BackingMetadataLaws B} (still : bool).
#[local] Instance frames : StoreFrames (RollbackWrapper B) := wrapper_frames still.
Implicit Types (w : RollbackWrapper B) (a : AbsStore B).
Abbreviation F := (store_regime (S := RollbackWrapper B)).

(** Reads of the backing store stay at its block. *)
Lemma kept_set_store w b :
  (still = true -> bs_view b = bs_view (store w)) -> wrapper_kept still w (set_store b w).
Proof.
  intros Hb a c st HR Hst. exists (mkAbsStore b (a_stack a) (a_query a)), c.
  split_and!; [by apply Rel_set_store | done |]. intros Hs. cbn. by rewrite Hb, (rel_store _ _ HR).
Qed.

Lemma runs_on_store {A} (m : M B VmExecutionError A) :
  (forall b, still = true -> bs_view (m b).2 = bs_view b) -> runs F (on_store m) (on_store m).
Proof.
  intros Hm w _. split; [done |]. intros _. unfold on_store, zoom. specialize (Hm (store w)).
  destruct (m (store w)) as [r b]. cbn. by apply kept_set_store.
Qed.

Lemma runs_store_op {E A} op (m : M (RollbackWrapper B) E A) :
  match op with OpPut _ _ | OpInsertMetadata _ _ _ => True | _ => False end ->
  (forall w, (m w).2 = (run_op op w).2) -> runs F m m.
Proof.
  intros Hop Hm w _. split; [done |]. intros _. rewrite Hm. intros a c st HR Hst.
  destruct op; try done; eexists _, _; (split; [eapply wrapper_step; [exact HR | | done] |]);
    unfold abs_op; by rewrite Hst.
Qed.

Lemma runs_backing_get k : runs F (on_store (bs_get_data k)) (on_store (bs_get_data k)).
Proof. apply runs_on_store. intros b _. by destruct (bs_get_spec k b) as (b' & -> & ?). Qed.
Lemma runs_backing_metadata c k : runs F (on_store (bs_get_metadata c k)) (on_store (bs_get_metadata c k)).
Proof. apply runs_on_store. intros b _. by destruct (bs_get_metadata_spec c k b) as (b' & -> & ? & _). Qed.
Lemma runs_check_nested : runs F check_nested check_nested.
Proof. intros w _. split; [done |]. intros _. unfold check_nested, ensure. case_match; apply (rel_refl F). Qed.
#[local] Hint Resolve runs_backing_get runs_backing_metadata runs_check_nested : runs.

#[export] Instance wrapper_ops : StoreOps F.
Proof.
  split.
  - intros k. change (runs F (get_data_str k) (get_data_str k)). runs.
  - intros k v. by apply (runs_store_op (OpPut k v)).
  - intros k t e w _. change (cs_get_value k t e w) with (wrapper_get_value k t e w).
    split; [done |]. unfold wrapper_get_value. destruct (stack w); [intros _; apply (rel_refl F) |].
    destruct (pending _ _ _); [intros _; apply (rel_refl F) |].
    match goal with |- (?m w).1 <> _ -> _ => assert (runs F m m) as Hm by runs end. by apply Hm.
  - intros c k v. apply (runs_store_op (OpInsertMetadata c k v)); [done |]. intros w. cbn.
    unfold mmap_err. by destruct (insert_metadata c k v w).
  - intros c k. change (runs F (get_metadata c k) (get_metadata c k)). runs.
Qed.

(** At-block evaluations move the store. *)
Lemma runs_set_block_hash bhh query : still = false ->
  runs F (set_block_hash bhh query) (set_block_hash bhh query).
Proof.
  intros Hs. apply runs_bind; [apply runs_on_store; by rewrite Hs |]. intros prior.
  apply runs_bind; [| runs]. apply runs_modify. intros w _ a c st [] Hst.
  exists (mkAbsStore (a_store a) (a_stack a) query), c. split; [by split | split; [done | by intros Hs'; rewrite Hs in Hs']].
Qed.
End Operations.

(** ** Transactions *)

Section Top.
Context {S : Type} `{NestedStore S} `{HashMapIter}.

(** The outermost context has nothing to merge into. *)
Lemma commit_top g g' am batch ro :
  opened_on g g' am batch ro -> asset_maps g = [] -> event_batches g = [] ->
  gc_commit g' = let '(r, s) := ns_commit (database g') in
                 (_ ← r; Ok (Some am, Some batch.1), set_cost_track (cost_track g') (set_database s g)).
Proof.
  destruct g, g', batch. intros [Om Oe Or (? & ? & ?)]. cbn in *. intros -> ->. subst.
  unfold gc_commit, on_database, zoom, mbind, M_bind. cbn. by destruct (ns_commit _) as [[] ?].
Qed.
End Top.

Section Transfer.
Context `{VmLibraries} {S : Type} `{VmStore S} `{!StoreFrames S} `{!StoreOps (store_regime (S := S))}.

Lemma transfer_response env size ic from to amount memo (g g' : GlobalContext S) v :
  stx_transfer_consolidated env size ic from to amount memo g = (Ok v, g') ->
  exists committed data, v = Response committed data.
Proof.
  unfold stx_transfer_consolidated. repeat case_match; [by intros [= <- _]; eexists _, _ .. |].
  intros (? & ? & _ & E)%M_bind_Ok. do 4 apply M_bind_Ok in E as (? & ? & _ & E).
  case_match; [| by injection E as <- _; eexists _, _].
  do 2 apply M_bind_Ok in E as (? & ? & _ & E). injection E as <- _. by eexists _, _.
Qed.

Lemma confined_stx_transfer env size ic from to amount memo :
  confined (stx_transfer (S := S) env size ic from to amount memo).
Proof.
  assert (confined (stx_transfer_consolidated (S := S) env size ic from to amount memo)) as Hc by runs.
  intros g. unfold stx_transfer. erewrite M_bind_eval by done. unfold match_result. specialize (Hc (begin_ g)).
  destruct (stx_transfer_consolidated _ _ _ _ _ _ _ (begin_ g)) as [[v | err |] g1] eqn:E; [| | done].
  all: pose proof (above_innermost _ _ _ (begin_above g) (Hc ltac:(done))) as Ha.
  - destruct (transfer_response _ _ _ _ _ _ _ _ _ _ E) as ([] & data & ->).
    + apply (closes_ret g gc_commit _ (closes_commit g) _ Ha).
    + apply (closes_throw g gc_roll_back _ (closes_roll_back g) _ Ha).
  - apply (closes_throw g gc_roll_back _ (closes_roll_back g) _ Ha).
Qed.
End Transfer.

Section Environment.
Context `{VmLibraries} {B : Type} `{BackingMetadataLaws B} `{ChainBacking B}.
Context (handlers : SpecialCaseHandlers (RollbackWrapper B)) (e : StacksEpochId).
#[local] Instance node : VmStore (RollbackWrapper B) := node_store B handlers.
#[local] Instance node_frames : StoreFrames (RollbackWrapper B) := wrapper_frames (negb (supports_at_block e)).
Implicit Types (g : GlobalContext (RollbackWrapper B)) (st : ExecutionState (RollbackWrapper B)) (a : AbsStore B).

Definition handlers_keep : Prop :=
  forall c h sender sponsor c' f args v,
    handlers c = Some h -> confined_at e (h sender sponsor c' f args v).

Context (Hhandlers : handlers_keep).

#[local] Instance node_vm_frames : VmFrames (RollbackWrapper B) e.
Proof.
  split; [apply wrapper_ops | | apply Hhandlers].
  intros bhh query He. apply runs_set_block_hash. by rewrite He.
Qed.

Lemma interp_runs : interps_run e 0 (interp EVAL_FUEL) (interp EVAL_FUEL).
Proof. rewrite interp_iter. refine (interps_enough e _ _ _ _). lia. Qed.

(** [g'] is [g] with what was pending in it; only costs may differ. *)
Record put_back a g g' : Prop := {
  pb_database : exists a', Rel (database g') a' /\ a_stack a' = a_stack a /\
                  same_block (negb (supports_at_block e)) a a';
  pb_maps : asset_maps g' = asset_maps g;
  pb_events : event_batches g' = event_batches g;
  pb_read_only : read_only g' = read_only g;
  pb_chain : same_chain g g';
}.

(** [g'] is [g] with more edits pending in its context. *)
Record extended a g g' : Prop := {
  ex_database c cs : a_stack a = c :: cs -> exists a' edits metadata, Rel (database g') a' /\
    a_stack a' = mkAbsContext (a_edits c ++ edits) (a_metadata c ++ metadata) :: cs /\
    same_block (negb (supports_at_block e)) a a';
  ex_maps : asset_maps g' = asset_maps g;
  ex_events : event_batches g' = event_batches g;
  ex_read_only : read_only g' = read_only g;
  ex_chain : same_chain g g';
}.

Lemma rolled_back_top g gf a : above g gf -> Rel (database g) a ->
  exists g', gc_roll_back gf = (Ok tt, g') /\ put_back a g g'.
Proof.
  intros [(am & b & ro & Ho) Hd] HR. rewrite (roll_back_eval _ _ _ _ _ Ho).
  destruct (wrapper_rolled_back _ _ _ Hd a HR) as [Hok Ha]. change (ns_roll_back (database gf)) with (db_roll_back (database gf)).
  destruct (db_roll_back (database gf)) as [r w]. cbn in *. subst r. eexists. split; [done |]. by split.
Qed.

Lemma committed_top g gf a c cs : above g gf -> Rel (database g) a -> a_stack a = c :: cs ->
  asset_maps g = [] -> event_batches g = [] ->
  exists am batch g', gc_commit gf = (Ok (Some am, Some batch), g') /\ extended a g g'.
Proof.
  intros [(am & b & ro & Ho) Hd] HR Hst Hm He. rewrite (commit_top _ _ _ _ _ Ho Hm He).
  destruct (wrapper_committed _ _ _ Hd a c cs HR Hst) as [Hok Ha].
  change (ns_commit (database gf)) with (db_commit (database gf)).
  destruct (db_commit (database gf)) as [r w]. cbn in *. subst r. eexists _, _, _. split; [done |].
  split; [| done ..]. cbn. intros c' cs' Hst'. rewrite Hst' in Hst. by injection Hst as -> ->.
Qed.

(** ** Functions called as transactions *)

(** The innermost context of [g'] is the one of [g] merged with another. *)
Record merged a g g' : Prop := {
  mg_database c cs : a_stack a = c :: cs -> exists a' edits metadata, Rel (database g') a' /\
    a_stack a' = mkAbsContext (a_edits c ++ edits) (a_metadata c ++ metadata) :: cs /\
    same_block (negb (supports_at_block e)) a a';
  mg_context : exists am batch, merged_into g am batch g';
}.

Lemma committed_inner g gf a c cs : above g gf -> Rel (database g) a -> a_stack a = c :: cs ->
  (exists out g', gc_commit gf = (Ok out, g') /\ merged a g g') \/
  (exists err g', gc_commit gf = (Err err, g') /\ put_back a g g').
Proof.
  intros [(am & b & ro & Ho) Hd] HR Hst.
  destruct (commit_eval _ _ _ _ _ Ho) as [(g2 & out & Hm & _ & ->) | (tb & rest & err & _ & _ & ->)].
  - left. destruct (wrapper_committed _ _ _ Hd a c cs HR Hst) as [Hok Ha].
    change (ns_commit (database gf)) with (db_commit (database gf)).
    destruct (db_commit (database gf)) as [r w]. cbn in *. subst r. eexists out, _. split; [done |]. split.
    + cbn. intros c' cs' Hst'. rewrite Hst' in Hst. by injection Hst as -> ->.
    + exists am, b. destruct Hm; by split.
  - right. destruct (wrapper_rolled_back _ _ _ Hd a HR) as [Hok Ha].
    change (ns_roll_back (database gf)) with (db_roll_back (database gf)).
    destruct (db_roll_back (database gf)) as [r w]. cbn in *. subst r. eexists _, _. split; [done |]. by split.
Qed.

(** What is left of the effects of a function with the result [r] *)
Definition effects (read_only : bool) a st (r : result VmExecutionError Value * ExecutionState (RollbackWrapper B))
    : Prop :=
  match r with
  | (Ok (Response true _), st') =>
      if read_only then put_back a (global_context st) (global_context st')
      else merged a (global_context st) (global_context st')
  | (Ok (Response false _), st') | (Err _, st') => put_back a (global_context st) (global_context st')
  | (Ok _, st') => read_only = true /\ put_back a (global_context st) (global_context st')
  | (Panic, _) => True
  end.

Lemma tx_result_effects st gf cs r a c cs0 : above (global_context st) gf ->
  Rel (database (global_context st)) a -> a_stack a = c :: cs0 -> r <> Panic ->
  effects false a st (tx_result r false (mkExecutionState gf cs)).
Proof.
  intros Ha HR Hst Hp. destruct (rolled_back_top _ _ a Ha HR) as (g' & Hb & Hx).
  unfold tx_result, on_global, zoom, handle_tx_result. cbn [global_context].
  destruct r as [v | err |]; [| unfold mbind, M_bind; by rewrite Hb | done].
  destruct v; try (cbn [andb]; rewrite (M_bind_eval _ _ _ _ _ Hb); unfold mbind, M_bind, lift;
    by destruct (type_name _) as [| |]).
  destruct committed.
  - destruct (committed_inner _ _ a c cs0 Ha HR Hst) as [(out & g2 & Hc & Hm) | (err & g2 & Hc & Hm)];
      unfold mbind, M_bind; by rewrite Hc.
  - unfold mbind, M_bind. by rewrite Hb.
Qed.

(** All or nothing *)
Definition outcome {A} a st (r : result VmExecutionError A * ExecutionState (RollbackWrapper B)) : Prop :=
  match r with
  | (Ok _, st') => extended a (global_context st) (global_context st')
  | (Err _, st') => put_back a (global_context st) (global_context st')
  | (Panic, _) => True
  end.

(** The states between the transactions of a block: the block's context is open
    and no transaction's is. *)
Record between a st : Prop := {
  bt_epoch : epoch_id (global_context st) = e;
  bt_depth : 0 <= call_depth (call_stack st);
  bt_database : Rel (database (global_context st)) a;
  bt_open : a_stack a <> [];
  bt_events : event_batches (global_context st) = [];
}.

Definition opened st : ExecutionState (RollbackWrapper B) :=
  mkExecutionState (begin_ (global_context st)) (call_stack st).

(** The context in which a transaction runs *)
Definition started (sender : PrincipalData) sponsor (context : option ContractContext) : InvocationContext :=
  mkInvocation (default (ContractContext_new transient_contract Clarity1) context)
    (Some sender) (Some sender) sponsor.

Lemma closed_outcome {A} sender sponsor context
    (f : InvocationContext -> M (ExecutionState (RollbackWrapper B)) VmExecutionError A) st a r st' :
  between a st -> asset_maps (global_context st) = [] ->
  f (started sender sponsor context) (opened st) = (r, st') ->
  (r <> Panic -> above (global_context st) (global_context st')) ->
  outcome a st (execute_in_env sender sponsor context f st).
Proof.
  intros [He HD HR Hopen Hev] Hm Hf Ha. destruct (a_stack a) as [| c cs] eqn:Hst; [done |].
  unfold execute_in_env. erewrite M_bind_eval by done. unfold is_top_level. rewrite bool_decide_true by done.
  do 2 (erewrite M_bind_eval by done). unfold match_result.
  match goal with |- context [f ?ic ?st1] =>
    change (f ic st1) with (f (started sender sponsor context) (opened st)) end.
  rewrite Hf. destruct r as [x | err |]; [| | done]; specialize (Ha ltac:(done)).
  - destruct (committed_top _ _ a c cs Ha HR Hst Hm Hev) as (am & batch & g' & Hc & Hx).
    unfold owned_commit, on_global, zoom, mbind, M_bind. by rewrite Hc.
  - destruct (rolled_back_top _ _ a Ha HR) as (g' & Hb & Hx).
    unfold on_global, zoom, mbind, M_bind. by rewrite Hb.
Qed.

Lemma env_outcome {A} sender sponsor context
    (f : InvocationContext -> M (ExecutionState (RollbackWrapper B)) VmExecutionError A) st a :
  (forall ic, runs (eval_regime e 0) (f ic) (f ic)) -> between a st ->
  outcome a st (execute_in_env sender sponsor context f st).
Proof.
  intros Hf Hst. destruct (decide (asset_maps (global_context st) = [])) as [Hm | Hm].
  - destruct (f (started sender sponsor context) (opened st)) as [r st'] eqn:E.
    destruct (Hf (started sender sponsor context) (opened st)) as [_ Hr]; [by destruct Hst; split |].
    rewrite E in Hr. eapply closed_outcome; [done .. |]. intros Hp. destruct (Hr Hp) as [Hi _].
    eapply above_innermost; [apply begin_above | done].
  - unfold execute_in_env, is_top_level. erewrite M_bind_eval by done. by rewrite bool_decide_false.
Qed.


(** ** Deployments *)

Section Deploy.
Context (contract_identifier : QualifiedContractIdentifier) (version : ClarityVersion).
Context (content : list SymbolicExpression) (text : string).
Abbreviation I := (interp (S := RollbackWrapper B) EVAL_FUEL).

Definition store_contract (contract : ContractContext) : M (ExecutionState (RollbackWrapper B)) VmExecutionError unit :=
  on_db (insert_contract contract_identifier contract);;
  on_db (set_contract_data_size contract_identifier (data_size contract)).

Lemma runs_store_contract contract : runs (eval_regime e 0) (store_contract contract) (store_contract contract).
Proof. runs. Qed.

(** The contract is made in a context of its own; only an error in storing it
    leaves that context open. *)
Lemma initialize_outcome ic st r st' : pre (eval_regime e 0) st ->
  initialize_contract_from_ast I ic contract_identifier version content text st = (r, st') -> r <> Panic ->
  innermost (global_context st) (global_context st') \/
  (above (global_context st) (global_context st') /\ exists err contract st1,
     r = Err err /\ make_contract I contract_identifier version content text ic (opened st) = (Ok contract, st1) /\
     (store_contract contract st1).1 = Err err).
Proof.
  intros Hst. unfold initialize_contract_from_ast. rewrite (M_bind_eval _ _ st tt (opened st)) by done.
  unfold match_result. destruct (runs_make_contract e I I interp_runs 0 contract_identifier version content text ic
    (opened st)) as [_ Hr]; [done |].
  destruct (make_contract I contract_identifier version content text ic (opened st)) as [[contract | err |] st1];
    [| | by intros [= <- _]]; pose proof (Hr ltac:(done)) as Hadv; destruct Hadv as [Hi _];
    pose proof (above_innermost _ _ _ (begin_above _) Hi) as Ha; cbn [snd] in Ha.
  - cbv zeta. rewrite <- M_bind_assoc. fold (store_contract contract).
    destruct (runs_store_contract contract st1) as [_ Hs].
    { by apply (rel_pre (eval_regime e 0) (opened st)); [apply Hr |]. }
    unfold mbind at 1, M_bind at 1. destruct (store_contract contract st1) as [[[] | err |] st2] eqn:Es;
      [| | by intros [= <- _]]; destruct (Hs ltac:(done)) as [Hi2 _];
      pose proof (above_innermost _ _ _ Ha Hi2) as Ha2; cbn [snd] in Ha2.
    + intros E _. left. pose proof (above_commit _ _ Ha2) as Hc. revert E. unfold on_global, zoom, mbind, M_bind.
      destruct (gc_commit (global_context st2)) as [[] g3]; intros [= <- <-]; done.
    + intros [= <- <-] _. right. split; [done |]. exists err, contract, st1. by rewrite Es.
  - intros E _. left. pose proof (above_roll_back _ _ Ha) as Hc. revert E. unfold on_global, zoom, mbind, M_bind.
    destruct (gc_roll_back (global_context st1)) as [[] g3]; intros [= <- <-]; done.
Qed.
End Deploy.

Lemma roll_back_inner st a g : Rel (database (global_context st)) a ->
  above (global_context (opened st)) g ->
  exists g', gc_roll_back g = (Ok tt, g') /\ is_top_level g' = false.
Proof.
  intros HR Ha. pose proof (kept_begin (database (global_context st))) as Hbegin.
  destruct (Hbegin a HR) as (a1 & c & HR1 & _).
  destruct (rolled_back_top _ _ _ Ha HR1) as (g' & Hb & Hx). exists g'. split; [done |].
  unfold is_top_level. by rewrite (pb_maps _ _ _ Hx).
Qed.

Lemma deploy_outcome contract_identifier version content text sponsor st a : between a st ->
  let ic := started (Standard (issuer contract_identifier)) sponsor
              (Some (ContractContext_new transient_contract version)) in
  let r := deploy_contract (interp EVAL_FUEL) contract_identifier version content text sponsor st in
  outcome a st r \/
  (exists err contract st1, r.1 = Err err /\ is_top_level (global_context r.2) = false /\
     make_contract (interp EVAL_FUEL) contract_identifier version content text ic (opened (opened st))
       = (Ok contract, st1) /\
     (store_contract contract_identifier contract st1).1 = Err err).
Proof.
  intros Hst ic r. destruct (decide (asset_maps (global_context st) = [])) as [Hm | Hm]; cycle 1.
  { left. subst r. unfold deploy_contract, execute_in_env, is_top_level. erewrite M_bind_eval by done.
    by rewrite bool_decide_false. }
  destruct (initialize_contract_from_ast (interp EVAL_FUEL) ic contract_identifier version content text
    (opened st)) as [ri st'] eqn:E.
  assert (pre (eval_regime e 0) (opened st)) as Hpre by (by destruct Hst; split).
  assert (ri = Panic \/ ri <> Panic) as [-> | Hp] by (destruct ri; auto).
  - left. by eapply closed_outcome.
  - destruct (initialize_outcome _ _ _ _ _ _ _ _ Hpre E Hp) as [Hi | (Ha & err & contract & st1 & -> & Hmake & Hs)].
    + left. eapply closed_outcome; [done .. |]. intros _. eapply above_innermost; [apply begin_above | done].
    + right. exists err, contract, st1.
      destruct (roll_back_inner st a _ (bt_database _ _ Hst) Ha) as (g' & Hb & Htop).
      assert (r = (Err err, mkExecutionState g' (call_stack st'))) as ->; [| done].
      subst r. unfold deploy_contract, execute_in_env, is_top_level. erewrite M_bind_eval by done.
      rewrite bool_decide_true by done. do 2 (erewrite M_bind_eval by done). unfold match_result.
      change (default _ _) with (ContractContext_new transient_contract version).
      match goal with |- context [initialize_contract_from_ast _ ?i _ _ _ _ ?s] =>
        change i with ic; change s with (opened st) end.
      rewrite E. unfold on_global, zoom, mbind, M_bind. by rewrite Hb.
Qed.

End Environment.

(** ** Concrete instances *)

#[local] Existing Instance sample_libraries.

Definition sample_pending : AbsStore MemStore := mkAbsStore sample_block [mkAbsContext [] []] true.

Lemma sample_between : between Epoch34 sample_pending sample_state.
Proof.
  split; [done | done | | done | done].
  apply (wrapper_step OpNest (RollbackWrapper_new sample_block) (mkAbsStore sample_block [] true));
    [apply Rel_new | done | done].
Qed.


Definition spend_function : DefinedFunction := DefinedFunction_new [] spend Public "spend" "c".

