(* ===== verification/PoxHandlers.v ===== *)
(** * The node's handlers keep to the context of the call

    The handlers of the PoX contracts run programs of their own in a context that
    is rolled back, lock tokens, and log what they did: all of it in the context
    in which the contract was called. The node whose handlers they are therefore
    satisfies what the theorems on executions ask of handlers. *)

From S2P Require Import Prelude.
From S2P Require Import Epochs.
From S2P Require Import Values.
From S2P Require Import Types.
From S2P Require Import RollbackStore.
From S2P Require Import NestedStore.
From S2P Require Import C32.
From S2P Require Import STXBalance.
From S2P Require Import Database.
From S2P Require Import STXLedger.
From S2P Require Import AssetMap.
From S2P Require Import VmErrors.
From S2P Require Import TypedValues.
From S2P Require Import Expressions.
From S2P Require Import ContractData.
From S2P Require Import StoredData.
From S2P Require Import Contexts.
From S2P Require Import CostTables.
From S2P Require Import Costs.
From S2P Require Import Contracts.
From S2P Require Import CostFunctions.
From S2P Require Import GlobalContext.
From S2P Require Import Regimes.
From S2P Require Import ExecutionState.
From S2P Require Import StoreRegimes.
From S2P Require Import SpecialForms.
From S2P Require Import EvalRegimes.
From S2P Require Import Interpreter.
From S2P Require Import FormRegimes.
From S2P Require Import Evaluation.
From S2P Require Import Transactions.
From S2P Require Import DeploymentRegimes.
From S2P Require Import PoxEvents.
From S2P Require Import PoxLocking.
From S2P Require Import PoxLedger.
From S2P Require Import SampleMachine.
From S2P Require Import Executions.
From S2P Require Import Atomicity.

Section Locks.
Context `{VmLibraries} {S : Type} `{VmStore S} (F : Regime S) `{!StoreOps F} (env : DbEnv).

Lemma runs_with_account {A} p (m : M (STXBalanceSnapshot S) LockingError A) :
  runs (snapshot_regime F) m m -> runs F (with_account env p m) (with_account env p m).
Proof.
  intros Hm s Hs. split; [done |]. unfold with_account, get_stx_balance_snapshot.
  set (open := stx_balance ← get_account_stx_balance p;
               cur_burn_height ← get_current_burnchain_block_height env;
               mret (stx_balance, cur_burn_height)).
  assert (runs F open open) as Hr. { unfold open. runs. }
  destruct (Hr s Hs) as [_ Hrel]. destruct (open s) as [[[b burn] | e |] s']; cbn in *; [| auto | done].
  specialize (Hrel ltac:(done)).
  destruct (Hm (mkSnapshot p b burn s')) as [_ Hrel']; [exact (rel_pre F _ _ Hrel Hs) |].
  destruct (m _) as [r snap]. cbn in *. intros Hp. eapply rel_trans; eauto.
Qed.

End Locks.

Ltac runs_hook ::=
  lazymatch goal with
  | |- runs _ (STXLedger.on_db _) _ => apply runs_snap_db
  | |- runs _ (with_snapshot _ _ _) _ => apply runs_with_snapshot
  | |- runs _ (with_account _ _ _) _ => apply runs_with_account
  | |- confined _ => apply confined_runs
  | |- runs _ (on_database _) _ => apply runs_on_database
  end.

Section Functions.
Context `{VmLibraries} {S : Type} `{VmStore S} (F : Regime S) `{!StoreOps F} (env : DbEnv) (p : PrincipalData).

Lemma runs_pox_lock_v1 a h : runs F (pox_lock_v1 env p a h) (pox_lock_v1 env p a h).
Proof. runs. Qed.
Lemma runs_pox_lock_v2 a h : runs F (pox_lock_v2 env p a h) (pox_lock_v2 env p a h).
Proof. runs. Qed.
Lemma runs_pox_lock_v3 a h : runs F (pox_lock_v3 env p a h) (pox_lock_v3 env p a h).
Proof. runs. Qed.
Lemma runs_pox_lock_v4 a h : runs F (pox_lock_v4 env p a h) (pox_lock_v4 env p a h).
Proof. runs. Qed.
Lemma runs_pox_lock_v5 a h : runs F (pox_lock_v5 env p a h) (pox_lock_v5 env p a h).
Proof. runs. Qed.
Lemma runs_extend_v2 h : runs F (pox_lock_extend_v2 env p h) (pox_lock_extend_v2 env p h).
Proof. runs. Qed.
Lemma runs_extend_v3 h : runs F (pox_lock_extend_v3 env p h) (pox_lock_extend_v3 env p h).
Proof. runs. Qed.
Lemma runs_extend_v4 h : runs F (pox_lock_extend_v4 env p h) (pox_lock_extend_v4 env p h).
Proof. runs. Qed.
Lemma runs_increase_v2 t : runs F (pox_lock_increase_v2 env p t) (pox_lock_increase_v2 env p t).
Proof. runs. Qed.
Lemma runs_increase_v3 t : runs F (pox_lock_increase_v3 env p t) (pox_lock_increase_v3 env p t).
Proof. runs. Qed.
Lemma runs_increase_v4 t : runs F (pox_lock_increase_v4 env p t) (pox_lock_increase_v4 env p t).
Proof. runs. Qed.
Lemma runs_unstake_v5 h : runs F (pox_unstake_v5 env p h) (pox_unstake_v5 env p h).
Proof. runs. Qed.
Lemma runs_update_v5 h t : runs F (pox_lock_update_v5 env p h t) (pox_lock_update_v5 env p h t).
Proof. runs. Qed.
Lemma runs_rollover_v5 h t : runs F (pox_rollover_v5 env p h t) (pox_rollover_v5 env p h t).
Proof. runs. Qed.
Lemma runs_has_lock : runs F (has_lock env p) (has_lock env p).
Proof. runs. Qed.
End Functions.
#[local] Hint Resolve runs_pox_lock_v1 runs_pox_lock_v2 runs_pox_lock_v3 runs_pox_lock_v4 runs_pox_lock_v5
  runs_extend_v2 runs_extend_v3 runs_extend_v4 runs_increase_v2 runs_increase_v3 runs_increase_v4
  runs_unstake_v5 runs_update_v5 runs_rollover_v5 runs_has_lock : runs.

(** ** Programs *)

Section Programs.
Context `{VmLibraries} {S : Type} `{VmStore S} `{!StoreFrames S} (e : StacksEpochId) `{!VmFrames S e}.
Context `{AstBuilder} (I : Interp S) (HI : interps_run e 0 I I).
Abbreviation F := (eval_regime (S := S) e 0).
Abbreviation G := (epoch_regime (S := S) e).

Lemma runs_parse ic c program :
  runs F (parse_nonempty_program ic c program) (parse_nonempty_program ic c program).
Proof.
  apply runs_bind; [apply runs_mmap_err; unfold epoch; runs |]. intros.
  apply runs_bind; [apply runs_mmap_err, runs_costs | runs].
Qed.

Lemma runs_eval_read_only ic c program : runs F (eval_read_only I ic c program) (eval_read_only I ic c program).
Proof.
  apply runs_bind; [apply runs_parse |]. intros parsed. apply runs_mmap_err.
  apply runs_open; [apply begin_above |]. apply closing_match.
  - apply runs_on_db. runs.
  - intros contract. apply closing_finally; [| apply closing_global, closes_roll_back].
    apply runs_bind; [runs |]. intros exp. apply runs_bind; [apply HI | runs].
  - intros err. apply closing_then; [apply closing_global, closes_roll_back | runs].
Qed.

Lemma runs_special_cc {A} sender sponsor c (f : InvocationContext -> M (ExecutionState S) ClarityEvalError A) :
  (forall ic, runs F (f ic) (f ic)) ->
  runs G (special_cc_handler_execute_read_only sender sponsor c f)
         (special_cc_handler_execute_read_only sender sponsor c f).
Proof.
  intros Hf g Hg. split; [done |]. unfold special_cc_handler_execute_read_only, execute_read_only.
  erewrite M_bind_eval by done. unfold match_result.
  set (ic := mkInvocation _ _ _ _). set (st := mkExecutionState (begin_ g) CallStack_new).
  destruct (Hf ic st) as [_ Hr]; [by split |].
  destruct (f ic st) as [[a | err |] st']; cbn [fst snd] in *; [| | done];
    pose proof (above_innermost _ _ _ (begin_above g) (adv_context _ _ (Hr ltac:(done)))) as Ha.
  - apply (closes_ret g (mmap_err Vm gc_roll_back) a); [| done]. apply closes_mmap_err, closes_roll_back.
  - apply (closes_throw g (mmap_err Vm gc_roll_back) err); [| done]. apply closes_mmap_err, closes_roll_back.
Qed.

Lemma runs_event_info c sender code data :
  runs G (event_info I c sender code data) (event_info I c sender code data).
Proof.
  apply runs_bind; [apply runs_mmap_err, confined_at_all; runs |]. intros contract.
  apply runs_special_cc. intros ic. pose proof runs_eval_read_only. runs.
Qed.

Lemma runs_synthesize c sender f args data :
  runs G (synthesize_pox_event_info I c sender f args data) (synthesize_pox_event_info I c sender f args data).
Proof.
  assert (runs G (synthesize_pox_2_or_3_event_info I c sender f args)
                 (synthesize_pox_2_or_3_event_info I c sender f args)) as H24.
  { pose proof runs_event_info. unfold synthesize_pox_2_or_3_event_info. runs. }
  assert (runs G (inner_synthesize_pox_event_info I c sender f args data)
                 (inner_synthesize_pox_event_info I c sender f args data)) as Hin.
  { pose proof runs_event_info. unfold inner_synthesize_pox_event_info. runs. }
  intros g Hg. split; [done |]. unfold synthesize_pox_event_info. destruct (epoch_leb _ _); [by apply H24 |].
  destruct (Hin (set_cost_track new_free g) Hg) as [_ Hr].
  destruct (inner_synthesize_pox_event_info _ _ _ _ _ _ _) as [r g']. cbn in *. intros Hp.
  specialize (Hr Hp). destruct Hr as [? ? ? ? ? ? ?]. by split.
Qed.
End Programs.

(** ** The handlers *)

Section Ledger.
Context `{VmLibraries} {S : Type} `{VmStore S} `{!StoreFrames S}.
Abbreviation C := (context_regime (S := S)).

Lemma runs_on_ledger {E A} (f : DbEnv -> M S E A) :
  (forall env, runs store_regime (f env) (f env)) -> runs C (on_ledger f) (on_ledger f).
Proof.
  intros Hf. apply (runs_zoom _ store_regime); [done | |].
  - intros g s _ Hs. split; cbn; eauto. done.
  - apply runs_bind; [apply runs_get |]. intros s. apply Hf.
Qed.

End Ledger.

Ltac runs_hook ::=
  lazymatch goal with
  | |- runs _ (with_account _ _ _) _ => apply runs_with_account
  | |- confined _ => apply confined_runs
  | |- runs _ (on_database _) _ => apply runs_on_database
  | |- runs _ (on_ledger _) _ => apply runs_on_ledger
  end.

Section Handlers.
Context `{VmLibraries} {S : Type} `{VmStore S} `{!StoreFrames S} (e : StacksEpochId) `{!VmFrames S e}.
Context `{AstBuilder} `{LockingText} (I : Interp S) (HI : interps_run e 0 I I).
Abbreviation C := (context_regime (S := S)).
Abbreviation G := (epoch_regime (S := S) e).

Lemma runs_push_event_direct event : runs C (push_event event) (push_event event).
Proof.
  apply runs_modify. intros g _. destruct (event_batches g) as [| [batch size] rest] eqn:E; [apply innermost_refl |].
  split; cbn; eauto using kept_refl; try done; rewrite E; [| done]. intros ? ? [= <- <-]. eauto.
Qed.

Lemma runs_gc_cost c : runs C (add_cost c) (add_cost c).
Proof. apply runs_context_costs. Qed.
#[local] Hint Resolve runs_push_event_direct runs_gc_cost : runs.

Lemma runs_pox_1 f v : runs C (pox_1_handle_contract_call f v) (pox_1_handle_contract_call f v).
Proof. runs. Qed.

Section Stacking.
Context (contract : string) (log : string -> PrincipalData -> Z -> M (GlobalContext S) VmExecutionError unit).
Context (Hlog : forall f p a, runs C (log f p a) (log f p a)) (v : Value).

Lemma runs_lockup lock : (forall env p a h, runs store_regime (lock env p a h) (lock env p a h)) ->
  runs C (handle_stack_lockup contract log lock v) (handle_stack_lockup contract log lock v).
Proof. intros. runs. Qed.
Lemma runs_extension extend : (forall env p h, runs store_regime (extend env p h) (extend env p h)) ->
  runs C (handle_stack_lockup_extension contract log extend v) (handle_stack_lockup_extension contract log extend v).
Proof. intros. runs. Qed.
Lemma runs_increase increase : (forall env p t, runs store_regime (increase env p t) (increase env p t)) ->
  runs C (handle_stack_lockup_increase contract log increase v) (handle_stack_lockup_increase contract log increase v).
Proof. intros. runs. Qed.
End Stacking.

Lemma runs_pox_5 sender f v : runs C (pox_5_handle_contract_call sender f v) (pox_5_handle_contract_call sender f v).
Proof. runs. Qed.

Lemma runs_print_event sender c f args v :
  runs G (print_event I sender c f args v) (print_event I sender c f args v).
Proof. pose proof (runs_synthesize e I HI). runs. Qed.

Lemma context_runs {E A} (m : M (GlobalContext S) E A) : runs C m m -> runs G m m.
Proof. intros Hm. by apply confined_at_all, confined_runs. Qed.

Lemma runs_lock_event_opt f l x i :
  runs C l l -> runs C x x -> runs C i i -> runs G (lock_event_opt f l x i) (lock_event_opt f l x i).
Proof. intros. apply context_runs. runs. Qed.

Lemma runs_push_opt event : runs C (push_event_opt event) (push_event_opt event).
Proof. runs. Qed.

Lemma runs_no_log f p a : runs C (no_log (S := S) f p a) (no_log f p a).
Proof. runs. Qed.
Lemma runs_log_direct f f' p a : runs C (log_direct (S := S) f f' p a) (log_direct f f' p a).
Proof. runs. Qed.
Lemma runs_log_delegation sender args : runs C (log_delegation (S := S) sender args) (log_delegation sender args).
Proof. runs. Qed.

Lemma runs_reject f : (forall env, runs store_regime (f env) (f env)) ->
  runs C (reject_defunct (S := S) f) (reject_defunct f).
Proof. intros. runs. Qed.
Lemma runs_pox_2 sender c f args v :
  runs G (pox_2_handle_contract_call I sender c f args v) (pox_2_handle_contract_call I sender c f args v).
Proof.
  apply runs_bind; [apply runs_print_event |]. intros. apply runs_bind; [| intros; apply context_runs; runs].
  apply runs_lock_event_opt.
  - apply runs_lockup; intros; [apply runs_no_log | refine (runs_pox_lock_v2 _ _ _ _ _)].
  - apply runs_extension; intros; [apply runs_no_log | refine (runs_extend_v2 _ _ _ _)].
  - apply runs_increase; intros; [apply runs_no_log | refine (runs_increase_v2 _ _ _ _)].
Qed.

Lemma runs_pox_3 sender c f args v :
  runs G (pox_3_handle_contract_call I sender c f args v) (pox_3_handle_contract_call I sender c f args v).
Proof.
  apply runs_bind; [apply runs_print_event |]. intros. apply runs_bind; [| intros; apply context_runs; runs].
  apply runs_lock_event_opt.
  - apply runs_lockup; intros; [apply runs_no_log | refine (runs_pox_lock_v3 _ _ _ _ _)].
  - apply runs_extension; intros; [apply runs_no_log | refine (runs_extend_v3 _ _ _ _)].
  - apply runs_increase; intros; [apply runs_no_log | refine (runs_increase_v3 _ _ _ _)].
Qed.

Lemma runs_pox_4 sender c f args v :
  runs G (pox_4_handle_contract_call I sender c f args v) (pox_4_handle_contract_call I sender c f args v).
Proof.
  apply runs_bind; [apply runs_print_event |]. intros. apply runs_bind; [| intros; apply context_runs; runs].
  apply runs_lock_event_opt.
  - apply runs_lockup; intros; [apply runs_log_direct | refine (runs_pox_lock_v4 _ _ _ _ _)].
  - apply runs_extension; intros; [apply runs_log_direct | refine (runs_extend_v4 _ _ _ _)].
  - apply runs_increase; intros; [apply runs_log_direct | refine (runs_increase_v4 _ _ _ _)].
Qed.

Lemma runs_special_cases sender sponsor c f args v :
  runs G (handle_contract_call_special_cases I sender sponsor c f args v)
         (handle_contract_call_special_cases I sender sponsor c f args v).
Proof.
  assert (forall (b : bool) h, (forall env, runs store_regime (h env) (h env)) ->
    runs G (if b then reject_defunct (S := S) h else mret tt) (if b then reject_defunct h else mret tt)) as Hr.
  { intros [] h Hh; apply context_runs; [by apply runs_reject | runs]. }
  apply runs_bind; [runs |]. intros g. destruct (negb _); [runs |].
  destruct (pox_lookup_by_name _) as [[] |]; [| | | | | runs].
  - apply context_runs. pose proof runs_pox_1. runs.
  - apply runs_bind; [apply Hr; runs | intros; apply runs_pox_2].
  - apply runs_bind; [apply Hr; runs | intros; apply runs_pox_3].
  - apply runs_bind; [apply Hr; runs | intros; apply runs_pox_4].
  - apply context_runs, runs_pox_5.
Qed.

Lemma handler_confined c h sender sponsor c' f args v :
  special_cases_handler_for I c = Some h -> confined_at e (h sender sponsor c' f args v).
Proof. unfold special_cases_handler_for. intros Hh. case_match; simplify_eq. apply runs_special_cases. Qed.
End Handlers.

Section Any.
#[local] Existing Instance any_frames.
Context `{VmLibraries} {S : Type} `{VmStore S} `{AstBuilder} `{LockingText} (Hhandlers : handlers_confined S).

Lemma special_cases_confined c h sender sponsor c' f args v :
  special_cases_handler_for (interp EVAL_FUEL) c = Some h -> confined (h sender sponsor c' f args v).
Proof.
  intros Hh g. pose proof (any_vm_frames (epoch_id g) Hhandlers) as Hf.
  assert (interps_run (epoch_id g) 0 (interp EVAL_FUEL) (interp EVAL_FUEL)) as HI.
  { rewrite interp_iter. refine (interps_enough _ _ _ _ _). lia. }
  by apply (handler_confined _ _ HI _ _ sender sponsor c' f args v Hh g).
Qed.
End Any.

(** ** The node *)

Section Node.
Context `{VmLibraries} `{AstBuilder} `{LockingText} {B : Type} `{BackingMetadataLaws B} `{ChainBacking B}.

(** The handlers of a node run the programs of their events on a node whose own
    handlers are one level down. The programs call functions of the contract only,
    no other contract, and so no handlers; the theorems hold at every level. *)
Fixpoint handlers_at (n : nat) : SpecialCaseHandlers (RollbackWrapper B) :=
  match n with
  | O => no_handlers
  | S n =>
      let below := node_store B (handlers_at n) in
      special_cases_handler_for (H0 := below) (interp (H0 := below) EVAL_FUEL)
  end.

Definition node_at (n : nat) : VmStore (RollbackWrapper B) := node_store B (handlers_at n).

Lemma node_handlers_keep n e : handlers_keep (handlers_at n) e.
Proof.
  induction n as [| n IH]; [done |]. intros c h sender sponsor c' f args v Hh.
  pose proof (node_vm_frames (handlers_at n) e IH) as Hf.
  refine (handler_confined e _ (interp_runs (handlers_at n) e IH) _ _ _ _ _ _ _ _ Hh).
Qed.

Lemma node_handlers_confined n : handlers_confined (H0 := node_at n) (RollbackWrapper B).
Proof.
  induction n as [| n IH]; [done |]. intros c h sender sponsor c' f args v Hh.
  exact (special_cases_confined (H0 := node_at n) IH _ _ _ _ _ _ _ _ Hh).
Qed.

(** C12: The handlers that the node runs after calls of the PoX contracts (locking,
    extending, increasing and moving locks, computing events with programs of
    their own, logging) do all of it in the context of the call: unless they
    panic, the contexts that enclose it, the read-only flags and the chain are as
    before, and contexts they open are closed, whether they succeed or fail. With
    these handlers the node satisfies what transactions being all or nothing
    ([handlers_keep]) and executions ending ([handlers_confined]) ask of it. *)
Theorem pox_handlers_keep_to_the_call n :
  (forall e, handlers_keep (handlers_at n) e) /\ handlers_confined (H0 := node_at n) (RollbackWrapper B).
Proof. split; [intros; apply node_handlers_keep | apply node_handlers_confined]. Qed.
End Node.

(** ** Concrete instances *)

#[local] Existing Instance sample_libraries.

#[local] Instance no_parser : AstBuilder :=
  {| ParseError := unit; unexpected_parser_failure := tt; build_ast _ _ _ _ := mret [] |}.
#[local] Instance no_text : LockingText := fun _ => "".

(** What [stack-stx] returns *)
Definition sample_response : Value :=
  let fields := [("lock-amount", UInt 120); ("stacker", Principal sample_sender); ("unlock-burn-height", UInt 90)] in
  Response true (Tuple (mkTuple (mkTupleType [] 0) fields)).

Definition sample_call : GlobalContext (RollbackWrapper MemStore) :=
  mkGlobalContext [AssetMap_new] [([], 0)] sample_database [false] Free false Epoch33 0.

Definition sample_chain : DbEnv := backing_env (mkMemStore ∅ ∅).

Lemma sample_chain_at : chain_ready sample_chain sample_ledger 50 (100, u32_max, u32_max, u32_max).
Proof.
  eapply (chain_ready_same _ ∅); [| split; reflexivity].
  unfold sample_ledger. by rewrite !epoch_kept_by_account_write.
Qed.

Lemma sample_call_ledger :
  ledger_at sample_chain 50 100 u32_max u32_max u32_max (database sample_call).
Proof.
  destruct (ns_rep_view _ _ _ _ sample_database_rep) as [Hok Ev].
  change (database sample_call) with sample_database.
  split; [exact Hok | rewrite Ev; split; [exact sample_chain_at | exact sample_ledger_wf]].
Qed.


Lemma defunct_contracts_fail_witness :
  let '(r, g') := handle_contract_call_special_cases (H0 := sample_node) (interp (H0 := sample_node) EVAL_FUEL)
                    (Some sample_sender) None (boot_code_id "pox-2" false) "stack-stx" [] sample_response sample_call in
  r = Err defunct /\ same_but_reads (H0 := sample_node) sample_chain 50 100 u32_max u32_max u32_max sample_call g'.
Proof.
  pose proof (defunct_contracts_fail (H0 := sample_node) sample_chain (fun _ => eq_refl) 50 100 u32_max u32_max u32_max
    (interp (H0 := sample_node) EVAL_FUEL) (Some sample_sender) None (boot_code_id "pox-2" false) "stack-stx" []
    sample_response sample_call sample_call_ledger) as Hrun.
  destruct (handle_contract_call_special_cases _ _ _ _ _ _ _ _) as [r g'].
  cbn [pox_lookup_by_name contract_name boot_code_id] in Hrun. rewrite bool_decide_true in Hrun by reflexivity.
  apply Hrun; vm_compute; reflexivity.
Defined.

Lemma pox_handlers_keep_to_the_call_witness :
  is_Some (handlers_at (B := MemStore) 1 (boot_code_id "pox-4" false)) /\
  handlers_keep (B := MemStore) (handlers_at 1) Epoch33 /\
  handlers_confined (H0 := node_at 1) (RollbackWrapper MemStore).
Proof.
  split; [eexists; reflexivity |]. destruct (pox_handlers_keep_to_the_call (B := MemStore) 1) as [Hk Hc].
  split; [exact (Hk Epoch33) | exact Hc].
Defined.
